(* ===== verification/_CoqProject ===== *)
-Q . S2P
Prelude.v
Uaccess.v
Kernel.v
KList.v
Registry.v
MemLimit.v
MemLimitV1.v
Proyecto3.v
Rlimit.v
LimitPolicy.v
Cred.v
Pgrp.v
Prio.v
Uts.v
Sysinfo.v
Rusage.v
Prctl.v
ProcModules.v
Stats.v
Track.v
Tamalloc.v
Vfs.v
Seek.v
ReadWrite.v
VecIo.v
CopyRange.v
OpenFlags.v
Open.v
OpenCalls.v
Attr.v
AttrCalls.v
FsCalls.v
SampleFs.v
VmaLock.v
PageFlags.v
Folio.v
Vma.v
Signals.v
CStrings.v
BootState.v
BootArgs.v
BootConfig.v
BootParse.v
Initcalls.v
BootMain.v
Userspace.v
SampleBoot.v
