(* ===== verification/Prelude.v ===== *)
(** * Verification of the USAC Linux kernel extensions

    The repository is a fork of the Linux kernel that adds system calls for memory
    limits, statistics and tracing ([src/kernel/usac], [src/kernel/proyecto3]) and
    three /proc modules ([src/Modulos]), together with the kernel files it changes:
    [src/kernel/sys.c], [src/fs/read_write.c], [src/fs/open.c] and [src/init/main.c]
    among them.  This library translates that code into Rocq functions and proves what it does.

    ** How code becomes definitions

    A kernel routine is a function from a state to [Done value state] or
    [Crash reason] (type [Kern], this file).  Error codes are ordinary values; a
    crash is what C gives no meaning to: a use after free, an index out of bounds,
    a division by zero, a deadlock, [BUG()], [panic()].  [wp m Q s] says that [m] run from [s]
    returns without a crash with [Q]; it is total, so a theorem stated with it also
    shows that the call returns.  Machine integers are [Z] with their wrap-around
    written out ([u32], [s64], ...).  C objects in user memory are lists of bytes.

    Code that is not in the repository is a field of a class, and what is relied on
    is a law of a second class: [UserArch]/[UserArchOk] (copying to and from user
    memory), [KernelEnv] (capabilities, security modules), [Slab] and [KList]
    (allocator and lists), [CredEnv], [PidEnv], [SchedEnv], [SysinfoEnv],
    [TimeEnv], [PrctlEnv] and [ProcEnv], and for the file system [Uio], [VfsEnv]
    (methods of files), [SpliceEnv], [OpenEnv] (path lookup, descriptors),
    [AttrEnv] and [DelegEnv]; for the boot [Memblock], [BootOptions] (the tables of
    options), [BootConf], [EarlyEnv], [InitEnv] (initcalls), [BootWorld] (the
    subsystems) and the laws of [parse_args] ([ParseArgsOk]), of the descriptors of
    init ([InitDupOk]), of [kernel_execve] ([ExecOk]) and of what runs before it
    ([UserspaceOk]); for the headers [SeqCount], [PageLayout], [FolioEnv], [VmArch] and
    [SignalEnv]; most with an [...Ok] class.  Each property with a
    hypothesis has a witness that applies it to a concrete instance.

    ** Files

    - [Prelude]: the monad, record update, machine integers, byte images, tactics
      and the rewrite database [wp].
    - [Uaccess]: [include/linux/uaccess.h]; the copy routines.
    - [Kernel]: tasks, signal structs and address spaces as shared objects, and the
      helpers of [sched.h], [sched/signal.h], [mm.h] and [oom.h].
    - [KList], [Registry]: the interface of kernel lists, and the abstract registry
      of memory limits that the implementations refine.
    - [MemLimit]: [kernel/usac/taro_mani_mem.c]; any sequence of the four calls
      simulates the registry while the security module grants; the defects of the
      refusal paths.
    - [MemLimitV1], [Proyecto3]: the earlier version on a hand-linked list, and the
      one split into four files, whose lists are never shared.
    - [Rlimit], [LimitPolicy]: [do_prlimit] and all rlimit calls of [sys.c]; and
      that the registry raises hard limits [do_prlimit] protects.
    - [Cred]: the set*id calls; they follow their rules and never add an id.
    - [Pgrp]: process groups and sessions; groups stay within their session.
    - [Prio]: [setpriority] and [getpriority].
    - [Uts], [Sysinfo]: names, and system figures with exact scaling.
    - [Rusage]: [times], [getrusage], [umask]; a disturbed sample is never used.
    - [Prctl]: [prctl] with every option; no sequence of calls weakens
      [no_new_privs], MDWE, the memory map or the auxiliary vector.
    - [ProcModules]: the /proc modules, their figures and their leaks.
    - [Stats], [Track], [Tamalloc]: the statistics calls, the counters with their
      lost updates, and the lazy allocation.
    - [Vfs]: files, inodes, paths and the descriptor table as shared objects, the
      ledger of what a routine has taken and must give back, and the logic
      ([good]) in which the file system files are proved.
    - [Seek], [ReadWrite], [VecIo], [CopyRange]: [fs/read_write.c]; seeking computes
      on the integers, transfers stay within their counts and areas and move only
      their own position, vectors are transferred by segments, copies and writes
      stay within the limits; a copy is refused exactly for a reason that holds, at
      any position, negative ones included.
    - [OpenFlags], [Open], [OpenCalls]: opening and closing in [fs/open.c]; exactly
      which requests are refused and what holds of the others, [do_dentry_open] opens
      a file with exactly the access, module and path it needs or undoes everything
      for a reason, the open calls install one descriptor and [close] removes one and
      reports what flushing reports.  [Open] has the definitions and the lemmas on
      files being opened, [OpenCalls] the theorems.
    - [Attr], [AttrCalls]: the rest of [fs/open.c]; truncation, allocation, access
      checks with the real ids, directories, modes and owners, and that the retry
      loops end.  [Attr] has the definitions, [AttrCalls] the theorems.
    - [FsCalls]: any sequence of file system calls is safe.
    - [SampleFs]: a small file system in memory that satisfies the laws of all file
      system classes, and the witnesses.
    - [VmaLock]: the per-VMA lock of [mm.h] by single accesses; a writer excludes all
      readers until the sequence counter has gone round, and not beyond.
    - [PageFlags], [Folio], [Vma]: further parts of [mm.h]; fields packed into the flags
      of a page, references and pins of folios, and the flags, seals, gaps and fault
      codes of memory areas.
    - [Signals]: [sched/signal.h]; pending signals, saved masks, the signal stack.
    - [CStrings]: C strings in a memory of bytes, and the string routines.
    - [BootState]: the variables of [init/main.c], the early allocator and the trace
      of what the boot has run: routines with the state of the interrupts, initcalls
      with that and the preemption count, states of the system, programs.
    - [BootArgs], [BootConfig], [BootParse]: the command line; which options become
      arguments and variables of init, the boot configuration found behind the
      ramdisk, and that no command line makes parsing leave its buffers.
    - [Initcalls]: the blacklist, and that every other initcall runs once in order,
      each with the preemption count and the interrupts the first one found.
    - [BootMain]: [start_kernel], [rest_init], [kernel_init]; interrupts stay off
      until the code enables them, the first threads are created in order, and the
      first program that works becomes init.
    - [Userspace]: the boot composed with the file system; the exact order in which
      [kernel_init] runs everything up to the first program that works, with the
      console as standard streams, or panics.
    - [SampleBoot]: a small machine that satisfies the laws of all boot classes, a
      run of the whole boot on it, and the witnesses.

    ** Bounds

    Loops over kernel lists are structural recursions.  The walk over the
    hand-linked list of [MemLimitV1] takes fuel, and its theorem shows that the fuel
    the calls pass is enough.  [Sysinfo.unit_fuel] is 33 because a 32-bit unit
    reaches 1 after at most 31 shifts and a page after at most 12; the theorems show
    that it does not run out.  [Uts.print_u] prints ten digits, enough for 32 bits.
    A path lookup that went stale is repeated once ([Attr.with_path]), since the
    second one asks for revalidation.  The loops over delegations in [Attr] take
    fuel; with as much as there are delegations they end ([AttrCalls]).
    A scan of a C string takes the size of the memory as fuel, which no string in it
    exceeds, and the blacklist the length of its option and one.

    ** What is not modelled

    The page tables, iterators and address conversions of [mm.h] and the declarations
    of [sched.h] and [sched/signal.h]; prototypes and syscall tables; test programs and
    build files; [file_path], which only calls [d_path].  In the file system files
    statistics, notifications and audit records that nothing reads back are events or
    left out, and the error cursors of [do_dentry_open] ([f_wb_err], [f_sb_err]) are
    left out.  In [init/main.c] time stamps and trace points, the weak defaults of
    hooks, and the variants without [CONFIG_BOOT_CONFIG], [CONFIG_KALLSYMS] or
    [CONFIG_STRICT_KERNEL_RWX] are left out.  In the headers one configuration is
    modelled: 64 bits, NUMA balancing, KASAN tags and per-VMA locks, stacks that grow
    down.  Calls are atomic: locks are modelled where a call can deadlock on its own
    (the registry mutexes), and interleavings where the code is exposed to them
    (the counters of [Track], the writer of [Rusage], the locks of [VmaLock], the
    exchange loop of [PageFlags]).  Reference counts of
    credentials and user structs are left out; those of files, paths, descriptors
    and the modules of file operations are the ledger.  A [panic()] loses the state;
    only the one for too many options of init tells whether there was a console
    ([SilentPanic]). *)

From Stdlib Require Export ZArith Lia.
From stdpp Require Export base gmap strings numbers list.

#[global] Open Scope Z_scope.

Declare Scope kernel_scope.
Delimit Scope kernel_scope with K.
#[global] Open Scope kernel_scope.

(** ** Record update

    [r <| f := v |>] is the record [r] with field [f] replaced.  A record type
    opts in with an instance of [Eta], its eta expansion. *)
Class Eta (R : Type) := eta_of : R -> R.

Class Setter {R T : Type} (proj : R -> T) := update_field : (T -> T) -> R -> R.
#[global] Arguments update_field {R T} proj {Setter} f r /.

Ltac find_setter :=
  match goal with
  | |- @Setter ?R ?T ?proj =>
      let e := constr:(@eta_of R _) in
      let e := eval cbv beta delta [eta_of] in e in
      let e := eval hnf in e in
      match eval pattern proj in e with
      | ?F _ => exact (fun f : T -> T => F (fun r => f (proj r)))
      end
  end.

#[global] Hint Extern 1 (Setter _) => find_setter : typeclass_instances.

Notation "r <| f := v |>" := (update_field f (fun _ => v) r)
  (at level 1, f at level 200, left associativity, format "r  <| f  :=  v |>") : kernel_scope.
Notation "r <| f ::= g |>" := (update_field f g r)
  (at level 1, f at level 200, left associativity, format "r  <| f  ::=  g |>") : kernel_scope.

(** ** Kernel computations

    A kernel routine transforms a state and returns a value, or it does
    something C gives no meaning to (or never returns from), which is a
    [Crash].  Error codes are ordinary return values. *)
Inductive crash :=
| UseAfterFree      (* an object is accessed after kfree *)
| NullDeref         (* a NULL pointer is dereferenced *)
| OutOfBounds       (* an array is indexed outside its bounds *)
| Deadlock          (* a lock is taken by the thread that holds it *)
| DivByZero
| KernelBug         (* BUG() *)
| KernelPanic       (* panic() *)
| SilentPanic       (* panic() with a message, before there is a console to show it *)
| OutOfFuel.        (* a loop did not end within the bound of the model *)

Inductive outcome (S A : Type) :=
| Done (a : A) (s : S)
| Crash (c : crash).
#[global] Arguments Done {S A} a s.
#[global] Arguments Crash {S A} c.

Definition Kern (S A : Type) : Type := S -> outcome S A.

#[global] Instance kern_ret {S} : MRet (Kern S) := fun A a s => Done a s.
#[global] Instance kern_bind {S} : MBind (Kern S) := fun A B k m s =>
  match m s with
  | Done a s' => k a s'
  | Crash c => Crash c
  end.

Definition get {S} : Kern S S := fun s => Done s s.
Definition gets {S A} (f : S -> A) : Kern S A := fun s => Done (f s) s.
Definition modify {S} (f : S -> S) : Kern S unit := fun s => Done tt (f s).
Definition crashed {S A} (c : crash) : Kern S A := fun _ => Crash c.

(** Dereference a pointer-like option. *)
Definition deref {S A} (c : crash) (o : option A) : Kern S A :=
  match o with
  | Some a => mret a
  | None => crashed c
  end.

(** Run a routine of a component on the part of a larger state it owns. *)
Definition zoom {S T A} (proj : S -> T) (put : T -> S -> S) (m : Kern T A) : Kern S A :=
  fun s => match m (proj s) with
           | Done a t => Done a (put t s)
           | Crash c => Crash c
           end.

(** [wp m Q s]: run from [s], [m] returns without crashing, and the value and
    the final state satisfy [Q]. *)
Definition wp {S A} (m : Kern S A) (Q : A -> S -> Prop) (s : S) : Prop :=
  match m s with
  | Done a s' => Q a s'
  | Crash _ => False
  end.

Section Wp.
Context {S A B : Type}.
Implicit Types (s : S) (m : Kern S A).

Lemma wp_ret (a : A) (Q : A -> S -> Prop) s : wp (mret a) Q s <-> Q a s.
Proof. done. Qed.

Lemma wp_bind m (k : A -> Kern S B) (Q : B -> S -> Prop) s :
  wp (m ≫= k) Q s <-> wp m (fun a s' => wp (k a) Q s') s.
Proof. unfold wp, mbind, kern_bind. by destruct (m s). Qed.

Lemma wp_get (Q : S -> S -> Prop) s : wp get Q s <-> Q s s.
Proof. done. Qed.

Lemma wp_gets (f : S -> A) (Q : A -> S -> Prop) s : wp (gets f) Q s <-> Q (f s) s.
Proof. done. Qed.

Lemma wp_modify (f : S -> S) (Q : unit -> S -> Prop) s : wp (modify f) Q s <-> Q tt (f s).
Proof. done. Qed.

Lemma wp_deref c (o : option A) (Q : A -> S -> Prop) s :
  wp (deref c o) Q s <-> exists a, o = Some a /\ Q a s.
Proof. destruct o; cbn; naive_solver. Qed.

Lemma wp_mono m (Q Q' : A -> S -> Prop) s :
  (forall a s', Q a s' -> Q' a s') -> wp m Q s -> wp m Q' s.
Proof. unfold wp. destruct (m s); naive_solver. Qed.

Lemma wp_done m (Q : A -> S -> Prop) s :
  wp m Q s <-> exists a s', m s = Done a s' /\ Q a s'.
Proof. unfold wp. destruct (m s); naive_solver. Qed.

Lemma wp_run m (Q : A -> S -> Prop) s a s' : m s = Done a s' -> wp m Q s <-> Q a s'.
Proof. unfold wp. by intros ->. Qed.

Lemma wp_and m (Q Q' : A -> S -> Prop) s :
  wp m Q s -> wp m Q' s -> wp m (fun a s' => Q a s' /\ Q' a s') s.
Proof. unfold wp. destruct (m s); naive_solver. Qed.

End Wp.

Lemma bind_done {S A B} (m : Kern S A) (k : A -> Kern S B) s a s' :
  m s = Done a s' -> (m ≫= k) s = k a s'.
Proof. intros H. unfold mbind, kern_bind. by rewrite H. Qed.

Lemma gets_bind {S A B} (f : S -> A) (k : A -> Kern S B) s : (gets f ≫= k) s = k (f s) s.
Proof. done. Qed.
Lemma modify_bind {S B} (f : S -> S) (k : unit -> Kern S B) s : (modify f ≫= k) s = k tt (f s).
Proof. done. Qed.

Create Rewrite HintDb wp.
#[export] Hint Rewrite @wp_ret @wp_bind @wp_get @wp_gets @wp_modify : wp.

(** Unfold the monadic plumbing of a computation applied to a state. *)
Ltac kernel_unfold :=
  cbv beta iota delta [mbind kern_bind mret kern_ret get gets modify crashed deref wp zoom] in *.

(** Walk through a computation: unfold, simplify record projections and split
    on every test the code makes. *)
Ltac kernel_step :=
  first
    [ progress kernel_unfold
    | progress cbn [negb andb orb] in *
    | case_match; try discriminate ].

(** ** Machine integers

    A w-bit value is a [Z]; the wrap-around of C's unsigned arithmetic and the
    two's complement reading of the signed types are explicit. *)
Definition u8 (z : Z) : Z := z mod 2 ^ 8.
Definition u16 (z : Z) : Z := z mod 2 ^ 16.
Definition u32 (z : Z) : Z := z mod 2 ^ 32.
Definition u64 (z : Z) : Z := z mod 2 ^ 64.
Definition s16 (z : Z) : Z := (z + 2 ^ 15) mod 2 ^ 16 - 2 ^ 15.
Definition s32 (z : Z) : Z := (z + 2 ^ 31) mod 2 ^ 32 - 2 ^ 31.
Definition s64 (z : Z) : Z := (z + 2 ^ 63) mod 2 ^ 64 - 2 ^ 63.

Definition is_u32 (z : Z) : Prop := 0 <= z < 2 ^ 32.
Definition is_u64 (z : Z) : Prop := 0 <= z < 2 ^ 64.
Definition is_s32 (z : Z) : Prop := - 2 ^ 31 <= z < 2 ^ 31.
Definition is_s64 (z : Z) : Prop := - 2 ^ 63 <= z < 2 ^ 63.

Lemma u64_id z : is_u64 z -> u64 z = z.
Proof. unfold is_u64, u64. intros. by apply Z.mod_small. Qed.
Lemma u32_id z : is_u32 z -> u32 z = z.
Proof. unfold is_u32, u32. intros. by apply Z.mod_small. Qed.
Lemma s32_id z : is_s32 z -> s32 z = z.
Proof. unfold is_s32, s32. intros. rewrite Z.mod_small by lia. lia. Qed.
Lemma s64_id z : is_s64 z -> s64 z = z.
Proof. unfold is_s64, s64. intros. rewrite Z.mod_small by lia. lia. Qed.

Lemma u64_range z : is_u64 (u64 z).
Proof. unfold is_u64, u64. apply Z.mod_pos_bound. lia. Qed.
Lemma u32_range z : is_u32 (u32 z).
Proof. unfold is_u32, u32. apply Z.mod_pos_bound. lia. Qed.
Lemma s32_range z : is_s32 (s32 z).
Proof. unfold is_s32, s32. pose proof (Z.mod_pos_bound (z + 2^31) (2^32)). lia. Qed.
Lemma s64_range z : is_s64 (s64 z).
Proof. unfold is_s64, s64. pose proof (Z.mod_pos_bound (z + 2^63) (2^64)). lia. Qed.

(** Wrapping an intermediate sum changes nothing. *)
Lemma u64_add_idemp a b : u64 (u64 a + u64 b) = u64 (a + b).
Proof. unfold u64. by rewrite <- Z.add_mod by lia. Qed.
Lemma u64_add_l a b : u64 (u64 a + b) = u64 (a + b).
Proof. unfold u64. by rewrite Z.add_mod_idemp_l by lia. Qed.

Create HintDb wrap.
#[export] Hint Resolve u64_range u32_range s32_range s64_range : wrap.

(** C's [!!x] and the value of a comparison. *)
Definition c_bool (b : bool) : Z := if b then 1 else 0.
(** C's truth test of an integer. *)
Definition truthy (z : Z) : bool := negb (z =? 0).

Lemma truthy_true z : truthy z = true <-> z <> 0.
Proof. unfold truthy. destruct (Z.eqb_spec z 0); naive_solver. Qed.
Lemma truthy_false z : truthy z = false <-> z = 0.
Proof. unfold truthy. destruct (Z.eqb_spec z 0); naive_solver. Qed.
Lemma truthy_lor a b : truthy (Z.lor a b) = truthy a || truthy b.
Proof.
  destruct (truthy a || truthy b) eqn:E.
  - apply truthy_true. rewrite Z.lor_eq_0_iff. apply orb_true_iff in E as [E|E]; apply truthy_true in E; naive_solver.
  - apply truthy_false, Z.lor_eq_0_iff. apply orb_false_iff in E as [?%truthy_false ?%truthy_false]. done.
Qed.

(** Turn the boolean tests of the code into propositions. *)
Ltac bool_facts :=
  repeat match goal with
  | H : (_ =? _) = true |- _ => apply Z.eqb_eq in H
  | H : (_ =? _) = false |- _ => apply Z.eqb_neq in H
  | H : (_ <? _) = true |- _ => apply Z.ltb_lt in H
  | H : (_ <? _) = false |- _ => apply Z.ltb_ge in H
  | H : (_ <=? _) = true |- _ => apply Z.leb_le in H
  | H : (_ <=? _) = false |- _ => apply Z.leb_gt in H
  | H : truthy _ = true |- _ => apply truthy_true in H
  | H : truthy _ = false |- _ => apply truthy_false in H
  | H : _ || _ = false |- _ => apply orb_false_iff in H as [? ?]
  | H : _ && _ = true |- _ => apply andb_true_iff in H as [? ?]
  | H : negb _ = true |- _ => apply negb_true_iff in H
  | H : negb _ = false |- _ => apply negb_false_iff in H
  end.

(** ** Error numbers (asm-generic/errno-base.h and the project's own) *)
Definition EPERM : Z := 1.
Definition ENOENT : Z := 2.
Definition ESRCH : Z := 3.
Definition EINTR : Z := 4.
Definition ENXIO : Z := 6.
Definition E2BIG : Z := 7.
Definition EBADF : Z := 9.
Definition EAGAIN : Z := 11.
Definition ENOMEM : Z := 12.
Definition EACCES : Z := 13.
Definition EFAULT : Z := 14.
Definition EBUSY : Z := 16.
Definition EXDEV : Z := 18.
Definition ENODEV : Z := 19.
Definition ENOTDIR : Z := 20.
Definition EISDIR : Z := 21.
Definition EINVAL : Z := 22.
Definition ETXTBSY : Z := 26.
Definition EFBIG : Z := 27.
Definition ENOSPC : Z := 28.
Definition ESPIPE : Z := 29.
Definition EROFS : Z := 30.
Definition ENOSYS : Z := 38.
Definition EOVERFLOW : Z := 75.
Definition EOPNOTSUPP : Z := 95.

(** ** Pages (x86-64: 4 KiB) *)
Definition PAGE_SHIFT : Z := 12.
Definition PAGE_SIZE : Z := 4096.

(** ** Little-endian byte images of C objects *)
Fixpoint le_bytes (n : nat) (z : Z) : list Z :=
  match n with
  | O => []
  | S n => z mod 256 :: le_bytes n (z / 256)
  end.

Fixpoint le_val (bs : list Z) : Z :=
  match bs with
  | [] => 0
  | b :: bs => b + 256 * le_val bs
  end.

Lemma length_le_bytes n z : length (le_bytes n z) = n.
Proof. revert z. induction n; intros; simpl; auto. Qed.

Lemma le_val_bytes n z : le_val (le_bytes n z) = z mod 256 ^ Z.of_nat n.
Proof.
  revert z. induction n as [|n IH]; intros z; [by rewrite Z.mod_1_r|].
  cbn [le_bytes le_val]. rewrite IH, Nat2Z.inj_succ, Z.pow_succ_r by lia.
  rewrite Z.rem_mul_r by lia. lia.
Qed.

Lemma le_val_u64 z : is_u64 z -> le_val (le_bytes 8 z) = z.
Proof. intros. rewrite le_val_bytes. by apply Z.mod_small. Qed.

Lemma le_val_s32 z : s32 (le_val (le_bytes 4 z)) = s32 z.
Proof.
  rewrite le_val_bytes. unfold s32. f_equal.
  by rewrite Z.add_mod_idemp_l.
Qed.

Lemma le_bytes_val bs : Forall (fun b => 0 <= b < 256) bs -> le_bytes (length bs) (le_val bs) = bs.
Proof.
  induction 1 as [|b bs Hb _ IH]; [done|]. cbn [length le_val le_bytes]. f_equal.
  - rewrite Z.mul_comm, Z.mod_add by lia. by apply Z.mod_small.
  - rewrite Z.mul_comm, Z.div_add by lia. rewrite Z.div_small, Z.add_0_l by lia. apply IH.
Qed.

Lemma le_val_range bs :
  Forall (fun b => 0 <= b < 256) bs -> 0 <= le_val bs < 256 ^ Z.of_nat (length bs).
Proof.
  induction 1 as [|b bs Hb _ IH]; [done|]. cbn [length le_val].
  rewrite Nat2Z.inj_succ, Z.pow_succ_r by lia. lia.
Qed.

#[global] Arguments le_bytes : simpl never.

(** The bytes of a string literal, without its NUL. *)
Definition bytes_of (s : string) : list Z :=
  map (fun c => Z.of_N (Ascii.N_of_ascii c)) (String.list_ascii_of_string s).

(** ** Byte-addressed memory *)
Definition write_at (buf : list Z) (off : nat) (bs : list Z) : list Z :=
  take off buf ++ bs ++ drop (off + length bs) buf.

Lemma length_write_at buf off bs :
  (off + length bs <= length buf)%nat -> length (write_at buf off bs) = length buf.
Proof. intros. unfold write_at. rewrite !length_app, length_take, length_drop. lia. Qed.

Lemma lookup_write_at buf off bs j :
  (off + length bs <= length buf)%nat ->
  write_at buf off bs !! j
  = if decide (off <= j < off + length bs)%nat then bs !! (j - off)%nat else buf !! j.
Proof.
  intros Hlen. unfold write_at.
  destruct (decide (j < off)%nat) as [Hj|Hj].
  { rewrite lookup_app_l by (rewrite length_take; lia). rewrite lookup_take_lt by lia.
    rewrite decide_False by lia. done. }
  rewrite lookup_app_r by (rewrite length_take; lia). rewrite length_take, Nat.min_l by lia.
  case_decide as Hc; [by rewrite lookup_app_l by lia|].
  rewrite lookup_app_r by lia. rewrite lookup_drop. f_equal. lia.
Qed.

Fixpoint write_bytes (m : gmap Z Z) (a : Z) (bs : list Z) : gmap Z Z :=
  match bs with
  | [] => m
  | b :: bs => <[a := b]> (write_bytes m (a + 1) bs)
  end.

Fixpoint read_bytes (m : gmap Z Z) (a : Z) (n : nat) : list Z :=
  match n with
  | O => []
  | S n => default 0 (m !! a) :: read_bytes m (a + 1) n
  end.

Lemma lookup_write_bytes_out m a bs x :
  x < a \/ a + Z.of_nat (length bs) <= x -> write_bytes m a bs !! x = m !! x.
Proof.
  revert a. induction bs as [|b bs IH]; intros a Hx; [done|].
  cbn [write_bytes length] in *. rewrite lookup_insert_ne by lia.
  apply IH. lia.
Qed.

Lemma read_bytes_insert m a b x n :
  a < x \/ x + Z.of_nat n <= a -> read_bytes (<[a := b]> m) x n = read_bytes m x n.
Proof.
  revert x. induction n as [|n IH]; intros x Hx; [done|].
  cbn [read_bytes]. rewrite lookup_insert_ne by lia. f_equal. apply IH. lia.
Qed.

Lemma read_write_bytes m a bs : read_bytes (write_bytes m a bs) a (length bs) = bs.
Proof.
  revert m a. induction bs as [|b bs IH]; intros m a; [done|].
  cbn [write_bytes read_bytes length]. rewrite lookup_insert_eq. f_equal.
  rewrite read_bytes_insert by lia. apply IH.
Qed.

Lemma length_read_bytes m a n : length (read_bytes m a n) = n.
Proof. revert a. induction n; intros; simpl; auto. Qed.

Lemma read_bytes_frame m a bs x n :
  x + Z.of_nat n <= a \/ a + Z.of_nat (length bs) <= x ->
  read_bytes (write_bytes m a bs) x n = read_bytes m x n.
Proof.
  revert x. induction n as [|n IH]; intros x Hx; [done|].
  cbn [read_bytes]. rewrite lookup_write_bytes_out by lia. f_equal. apply IH. lia.
Qed.

Lemma read_bytes_app m a n k :
  read_bytes m a (n + k) = read_bytes m a n ++ read_bytes m (a + Z.of_nat n) k.
Proof.
  revert a. induction n as [|n IH]; intros a; cbn [Nat.add read_bytes app].
  - by rewrite Z.add_0_r.
  - rewrite IH. do 3 f_equal. lia.
Qed.

Lemma read_write_sub m a bs i n :
  (i + n <= length bs)%nat ->
  read_bytes (write_bytes m a bs) (a + Z.of_nat i) n = take n (drop i bs).
Proof.
  intros Hlen. pose proof (read_write_bytes m a bs) as Hr.
  replace (length bs) with (i + (n + (length bs - i - n)))%nat in Hr by lia.
  rewrite !read_bytes_app in Hr. rewrite <- Hr at 2.
  rewrite drop_app_length', take_app_length'; rewrite ?length_read_bytes; done.
Qed.

Lemma lookup_write_bytes m a bs x :
  write_bytes m a bs !! x =
    if decide (a <= x < a + Z.of_nat (length bs)) then bs !! Z.to_nat (x - a) else m !! x.
Proof.
  case_decide as Hx; [|apply lookup_write_bytes_out; lia].
  revert a Hx. induction bs as [|b bs IH]; intros a Hx; cbn [write_bytes length] in *; [lia|].
  destruct (decide (x = a)) as [->|Hne].
  - by rewrite lookup_insert_eq, Z.sub_diag.
  - rewrite lookup_insert_ne, IH by lia.
    replace (Z.to_nat (x - a)) with (S (Z.to_nat (x - (a + 1)))) by lia. done.
Qed.

(** Two adjacent stores are one. *)
Lemma write_bytes_app m a bs cs :
  write_bytes (write_bytes m a bs) (a + Z.of_nat (length bs)) cs = write_bytes m a (bs ++ cs).
Proof.
  apply map_eq. intros x. rewrite !lookup_write_bytes, length_app.
  repeat case_decide; try lia; try done.
  - rewrite lookup_app_r by lia. f_equal. lia.
  - by rewrite lookup_app_l by lia.
Qed.

Lemma dom_write_bytes m a bs :
  (forall i, (i < length bs)%nat -> a + Z.of_nat i ∈ dom m) -> dom (write_bytes m a bs) = dom m.
Proof.
  revert a. induction bs as [|b bs IH]; intros a Hm; [done|].
  cbn [write_bytes]. rewrite dom_insert_L, IH.
  - specialize (Hm 0%nat). rewrite Z.add_0_r in Hm. cbn [length] in Hm. set_solver by lia.
  - intros i Hi. specialize (Hm (S i)). cbn [length] in Hm.
    replace (a + 1 + Z.of_nat i) with (a + Z.of_nat (S i)) by lia. apply Hm. lia.
Qed.

(** Every cell of the memory holds a byte. *)
Definition bytes_ok (m : gmap Z Z) : Prop := forall a b, m !! a = Some b -> 0 <= b < 256.

Lemma read_bytes_ok m a n : bytes_ok m -> Forall (fun b => 0 <= b < 256) (read_bytes m a n).
Proof.
  intros Hm. revert a. induction n as [|n IH]; intros a; cbn; constructor; [|apply IH].
  destruct (m !! a) as [b|] eqn:E; cbn; [by eapply Hm|lia].
Qed.

(** Two objects read side by side and written back. *)
Lemma le_bytes_split n m a :
  bytes_ok m ->
  let bs := read_bytes m a (n + n) in
  le_bytes n (le_val (take n bs)) ++ le_bytes n (le_val (take n (drop n bs))) = bs.
Proof.
  intros Hm bs. pose proof (read_bytes_ok m a (n + n) Hm) as Hb. fold bs in Hb.
  assert (length bs = n + n)%nat as Hl by apply length_read_bytes.
  assert (drop n bs = take n (drop n bs)) as Hd by (symmetry; apply firstn_all2; rewrite length_drop; lia).
  rewrite <- (take_drop n bs) at 3. f_equal.
  - rewrite <- (le_bytes_val (take n bs)) at 2 by (by apply Forall_take). f_equal. rewrite length_take. lia.
  - rewrite Hd at 2. rewrite <- (le_bytes_val (take n (drop n bs))) at 2 by (by apply Forall_take, Forall_drop).
    f_equal. rewrite length_take, length_drop. lia.
Qed.

Lemma bytes_ok_compute m :
  forallb (fun c => (0 <=? c.2) && (c.2 <? 256)) (map_to_list m) = true -> bytes_ok m.
Proof.
  rewrite forallb_forall. intros Hall a b Hb. specialize (Hall (a, b)).
  rewrite <- list_elem_of_In, elem_of_map_to_list in Hall. specialize (Hall Hb). bool_facts. cbn in *. lia.
Qed.
