(* ===== verification/Uaccess.v ===== *)
(** User-space access: [include/linux/uaccess.h].

    User memory is a finite map from addresses to bytes; an address outside the
    map faults.  The architecture's primitives ([raw_copy_to_user],
    [raw_copy_from_user], [access_ok], [put_user]) are not part of the
    repository: they are the fields of the class [UserArch], and the contract
    the header's comment spells out for them (lines 35-78) is the class
    [UserArchOk].  The functions of the header are definitions over them. *)

From S2P Require Import Prelude.

(** ** The architecture's primitives *)
Class UserArch := {
  access_ok : Z -> Z -> bool;
  (* fault injection: may fail any copy *)
  should_fail_usercopy : gmap Z Z -> Z -> Z -> bool;
  (* thread_info.h: refuses sizes the object cannot have *)
  check_copy_size : Z -> bool -> bool;
  (* what raw_copy_to_user(to, _, n) and raw_copy_from_user(_, from, n) return *)
  raw_to_left : gmap Z Z -> Z -> Z -> Z;
  raw_from_left : gmap Z Z -> Z -> Z -> Z;
  (* put_user(x, ptr) faults *)
  put_user_faults : gmap Z Z -> Z -> Z -> bool;
  (* get_user(x, ptr) faults *)
  get_user_faults : gmap Z Z -> Z -> Z -> bool;
  (* lib/usercopy.c: 1 all zero, 0 some byte set, negative on a fault *)
  check_zeroed_user : gmap Z Z -> Z -> Z -> Z;
}.

Fixpoint mapped_range (m : gmap Z Z) (a : Z) (n : nat) : bool :=
  match n with
  | O => true
  | S n => match m !! a with
           | Some _ => mapped_range m (a + 1) n
           | None => false
           end
  end.

Definition mappedb (m : gmap Z Z) (a n : Z) : bool := mapped_range m a (Z.to_nat n).

(** The contract of the primitives. *)
Class UserArchOk `{UserArch} : Prop := {
  raw_to_range m a n : 0 <= n -> 0 <= raw_to_left m a n <= n;
  raw_from_range m a n : 0 <= n -> 0 <= raw_from_left m a n <= n;
  (* "If copying succeeds, the return value must be 0" *)
  raw_to_mapped m a n : 0 <= n -> mappedb m a n = true -> raw_to_left m a n = 0;
  raw_from_mapped m a n : 0 <= n -> mappedb m a n = true -> raw_from_left m a n = 0;
  put_user_mapped m a n : mappedb m a n = true -> put_user_faults m a n = false;
  get_user_mapped m a n : mappedb m a n = true -> get_user_faults m a n = false;
  check_zeroed_ret m a n : check_zeroed_user m a n = - EFAULT \/ 0 <= check_zeroed_user m a n <= 1;
}.

Section Uaccess.
Context `{UserArch}.
Implicit Types (m : gmap Z Z) (bs old : list Z) (to from n : Z).

Definition blen bs : Z := Z.of_nat (length bs).

(** [raw_copy_to_user]: the bytes that were copied are a prefix. *)
Definition raw_copy_to_user m to bs : gmap Z Z * Z :=
  let uncopied := raw_to_left m to (blen bs) in
  (write_bytes m to (take (Z.to_nat (blen bs - uncopied)) bs), uncopied).

(** [raw_copy_from_user] into a buffer of [n] bytes that holds [old]. *)
Definition raw_copy_from_user m from n old : list Z * Z :=
  let uncopied := raw_from_left m from n in
  let got := Z.to_nat (n - uncopied) in
  (read_bytes m from got ++ drop got old, uncopied).

Definition __copy_from_user_inatomic m from n old : list Z * Z :=
  raw_copy_from_user m from n old.

Definition __copy_from_user m from n old : list Z * Z :=
  if should_fail_usercopy m from n then (old, n)
  else raw_copy_from_user m from n old.

Definition __copy_to_user_inatomic m to bs : gmap Z Z * Z :=
  if should_fail_usercopy m to (blen bs) then (m, blen bs)
  else raw_copy_to_user m to bs.

Definition __copy_to_user m to bs : gmap Z Z * Z :=
  if should_fail_usercopy m to (blen bs) then (m, blen bs)
  else raw_copy_to_user m to bs.

(** [memset(to + (n - res), 0, res)] on the destination buffer. *)
Definition zero_tail n res (buf : list Z) : list Z :=
  take (Z.to_nat (n - res)) buf ++ replicate (Z.to_nat res) 0 ++ drop (Z.to_nat n) buf.

Definition _copy_from_user m from n old : list Z * Z :=
  let '(buf, res) :=
    if negb (should_fail_usercopy m from n) && access_ok from n
    then raw_copy_from_user m from n old
    else (old, n) in
  if truthy res then (zero_tail n res buf, res) else (buf, res).

Definition _copy_to_user m to bs : gmap Z Z * Z :=
  if should_fail_usercopy m to (blen bs) then (m, blen bs)
  else if access_ok to (blen bs) then raw_copy_to_user m to bs
  else (m, blen bs).

Definition copy_from_user m from n old : list Z * Z :=
  if check_copy_size n false then _copy_from_user m from n old else (old, n).

Definition copy_to_user m to bs : gmap Z Z * Z :=
  if check_copy_size (blen bs) true then _copy_to_user m to bs else (m, blen bs).

Definition copy_mc_to_kernel (src : list Z) : list Z * Z := (src, 0).

(** [copy_struct_from_user]: the destination [dst] has [ksize] bytes. *)
Definition copy_struct_from_user m (dst : list Z) (object_size ksize src usize : Z)
  : list Z * Z :=
  let size := Z.min ksize usize in
  let rest := Z.max ksize usize - size in
  if object_size <? ksize then (dst, - E2BIG)
  else
    let copy dst :=
      let '(buf, uncopied) := copy_from_user m src size (take (Z.to_nat size) dst) in
      let dst' := buf ++ drop (Z.to_nat size) dst in
      if truthy uncopied then (dst', - EFAULT) else (dst', 0) in
    if usize <? ksize
    then copy (take (Z.to_nat size) dst ++ replicate (Z.to_nat rest) 0)
    else if ksize <? usize then
      let ret := check_zeroed_user m (src + size) rest in
      if ret <=? 0 then (dst, if truthy ret then ret else - E2BIG)
      else copy dst
    else copy dst.

Lemma copy_struct_status `{!UserArchOk} m dst object_size ksize src usize :
  let err := (copy_struct_from_user m dst object_size ksize src usize).2 in
  err = 0 \/ err = - EFAULT \/ err = - E2BIG.
Proof.
  unfold copy_struct_from_user. pose proof (check_zeroed_ret m (src + Z.min ksize usize)
    (Z.max ksize usize - Z.min ksize usize)) as Hz.
  repeat case_match; simplify_eq/=; bool_facts; auto; lia.
Qed.

(** [put_user(x, ptr)] for an object of [n] bytes. *)
Definition put_user m (n : nat) (x ptr : Z) : gmap Z Z * Z :=
  if put_user_faults m ptr (Z.of_nat n) then (m, - EFAULT)
  else (write_bytes m ptr (le_bytes n x), 0).

(** [get_user(x, ptr)] of an object of [n] bytes: its bytes as a number, and the
    status; a fault reads as 0. *)
Definition get_user m (n : nat) (ptr : Z) : Z * Z :=
  if get_user_faults m ptr (Z.of_nat n) then (0, - EFAULT) else (le_val (read_bytes m ptr n), 0).

(** ** The page-fault switch of the current task *)
Definition pagefault_disabled_inc (cnt : Z) : Z := s32 (cnt + 1).
Definition pagefault_disabled_dec (cnt : Z) : Z := s32 (cnt - 1).
Definition pagefault_disable (cnt : Z) : Z := pagefault_disabled_inc cnt.
Definition pagefault_enable (cnt : Z) : Z := pagefault_disabled_dec cnt.
Definition pagefault_disabled (cnt : Z) : bool := negb (cnt =? 0).
Definition faulthandler_disabled (cnt : Z) (in_atomic : bool) : bool :=
  pagefault_disabled cnt || in_atomic.

(** ** Lemmas *)

(** The copy to [to, to + n) goes through. *)
Definition can_copy_to m to n : Prop :=
  check_copy_size n true = true /\ (forall m', should_fail_usercopy m' to n = false) /\
  access_ok to n = true /\ mappedb m to n = true.

Definition can_copy_from m from n : Prop :=
  check_copy_size n false = true /\ (forall m', should_fail_usercopy m' from n = false) /\
  access_ok from n = true /\ mappedb m from n = true.

Lemma mapped_range_mono m m' a (n : nat) :
  (forall x, is_Some (m !! x) -> is_Some (m' !! x)) ->
  mapped_range m a n = true -> mapped_range m' a n = true.
Proof.
  intros Hm. revert a. induction n as [|n IH]; intros a Hr; cbn in *; [done|].
  destruct (m !! a) eqn:E; [|done]. destruct (Hm a) as [? ->]; [by eauto|]. by apply IH.
Qed.

Lemma mapped_range_forall m a (n : nat) :
  (forall i, (i < n)%nat -> is_Some (m !! (a + Z.of_nat i))) -> mapped_range m a n = true.
Proof.
  revert a. induction n as [|n IH]; intros a Hm; [done|]. cbn.
  destruct (Hm 0%nat) as [b Hb]; [lia|]. rewrite Z.add_0_r in Hb. rewrite Hb. apply IH.
  intros i Hi. specialize (Hm (S i)). replace (a + 1 + Z.of_nat i) with (a + Z.of_nat (S i)) by lia.
  apply Hm. lia.
Qed.

Lemma is_Some_write_bytes m b bs x : is_Some (m !! x) -> is_Some (write_bytes m b bs !! x).
Proof.
  intros Hx. revert b. induction bs as [|c bs IH]; intros b; [done|]. cbn.
  rewrite lookup_insert. by case_decide.
Qed.

(** Storing user bytes does not make other user memory inaccessible. *)
Lemma can_copy_to_write m b bs to n :
  can_copy_to m to n -> can_copy_to (write_bytes m b bs) to n.
Proof.
  intros (? & ? & ? & Hm). split_and!; try done.
  eapply mapped_range_mono, Hm. intros x. apply is_Some_write_bytes.
Qed.

Lemma copy_to_user_frame m to bs x :
  x < to \/ to + blen bs <= x -> (copy_to_user m to bs).1 !! x = m !! x.
Proof.
  intros Hx. unfold copy_to_user, _copy_to_user, raw_copy_to_user.
  repeat case_match; cbn; try done.
  apply lookup_write_bytes_out. rewrite length_take.
  unfold blen in *. lia.
Qed.

Section Contract.
Context `{!UserArchOk}.

Lemma copy_to_user_ok m to bs :
  can_copy_to m to (blen bs) -> copy_to_user m to bs = (write_bytes m to bs, 0).
Proof.
  intros (Hs & Hf & Ha & Hm). unfold copy_to_user, _copy_to_user, raw_copy_to_user.
  rewrite Hs, Hf, Ha, raw_to_mapped by (done || unfold blen; lia). rewrite Z.sub_0_r. unfold blen.
  rewrite Nat2Z.id, firstn_all. done.
Qed.

Lemma copy_to_user_res m to bs : 0 <= (copy_to_user m to bs).2 <= blen bs.
Proof.
  unfold copy_to_user, _copy_to_user, raw_copy_to_user.
  pose proof (raw_to_range m to (blen bs)). unfold blen in *.
  repeat case_match; cbn; lia.
Qed.

(** Whatever the copy reports as left is exactly what was not stored. *)
Lemma copy_to_user_prefix m to bs :
  let '(m', uncopied) := copy_to_user m to bs in
  m' = write_bytes m to (take (Z.to_nat (blen bs - uncopied)) bs).
Proof.
  unfold copy_to_user, _copy_to_user, raw_copy_to_user.
  repeat case_match; simplify_eq; try done;
    by rewrite Z.sub_diag.
Qed.

Lemma copy_to_user_done m to bs m' :
  copy_to_user m to bs = (m', 0) -> m' = write_bytes m to bs.
Proof.
  intros Hc. pose proof (copy_to_user_prefix m to bs) as Hp. rewrite Hc in Hp. rewrite Hp. f_equal.
  apply firstn_all2. unfold blen. lia.
Qed.

Lemma copy_from_user_ok m from n old :
  can_copy_from m from n -> blen old = n ->
  copy_from_user m from n old = (read_bytes m from (Z.to_nat n), 0).
Proof.
  intros (Hs & Hf & Ha & Hm) Hl. unfold copy_from_user, _copy_from_user, raw_copy_from_user.
  rewrite Hs, Hf, Ha, raw_from_mapped by (done || unfold blen in *; lia). cbn [negb andb].
  rewrite Z.sub_0_r. unfold blen in Hl. rewrite drop_ge by lia. by rewrite app_nil_r.
Qed.

(** A copy that reports nothing left has read every byte. *)
Lemma copy_from_user_done m from n old buf :
  0 < n -> blen old = n -> copy_from_user m from n old = (buf, 0) -> buf = read_bytes m from (Z.to_nat n).
Proof.
  intros Hn Hl. unfold copy_from_user, _copy_from_user, raw_copy_from_user. unfold blen in Hl.
  destruct (check_copy_size n false); [|intros [= -> ?]; lia].
  destruct (negb _ && _); cbn [fst snd].
  - destruct (truthy (raw_from_left m from n)) eqn:Ht; bool_facts.
    + intros [= _ ?]. lia.
    + intros [= <- _]. rewrite Ht, Z.sub_0_r, drop_ge, app_nil_r by lia. done.
  - destruct (truthy n) eqn:Ht; bool_facts; [|lia]. intros [= _ ?]. lia.
Qed.

(** The buffer [_copy_from_user] leaves behind is what was read followed by
    zeroes: no byte of its old contents survives. *)
Lemma _copy_from_user_buffer m from n old :
  0 <= n -> blen old = n ->
  exists got, (got <= Z.to_nat n)%nat /\
    (_copy_from_user m from n old).1
      = read_bytes m from got ++ replicate (Z.to_nat n - got) 0 /\
    (_copy_from_user m from n old).2 = n - Z.of_nat got.
Proof.
  intros Hn Hl. unfold _copy_from_user, raw_copy_from_user, zero_tail, blen in *.
  pose proof (raw_from_range m from n Hn) as Hr.
  set (uncopied := raw_from_left m from n) in *.
  destruct (negb _ && _).
  - exists (Z.to_nat (n - uncopied)). split; [lia|].
    destruct (truthy uncopied) eqn:Ht; bool_facts; cbn [fst snd]; split; try lia.
    + rewrite take_app_le by (rewrite length_read_bytes; lia).
      rewrite firstn_all2 by (rewrite length_read_bytes; lia). f_equal.
      rewrite drop_ge by (rewrite length_app, length_read_bytes, length_drop; lia).
      rewrite app_nil_r. f_equal. lia.
    + rewrite drop_ge by lia. f_equal.
      replace (Z.to_nat n - Z.to_nat (n - uncopied))%nat with 0%nat by lia. done.
  - exists 0%nat. split; [lia|]. rewrite Nat.sub_0_r. cbn [read_bytes app].
    destruct (truthy n) eqn:Ht; bool_facts; cbn [fst snd]; split; try lia.
    + rewrite Z.sub_diag. cbn [take app]. rewrite drop_ge by lia. by rewrite app_nil_r.
    + destruct old; [by rewrite Ht|cbn in Hl; lia].
Qed.

Lemma put_user_ok m (n : nat) x ptr :
  mappedb m ptr (Z.of_nat n) = true ->
  put_user m n x ptr = (write_bytes m ptr (le_bytes n x), 0).
Proof. intros Hm. unfold put_user. by rewrite put_user_mapped. Qed.

End Contract.

Lemma put_user_res m (n : nat) x ptr : (put_user m n x ptr).2 = 0 \/ (put_user m n x ptr).2 = - EFAULT.
Proof. unfold put_user. case_match; auto. Qed.

End Uaccess.

(** ** A concrete architecture

    Copies stop at the first unmapped byte.  Addresses below [2 ^ 47] are user
    addresses; fault injection is off. *)
Fixpoint mapped_prefix (m : gmap Z Z) (a : Z) (n : nat) : nat :=
  match n with
  | O => O
  | S n => match m !! a with
           | Some _ => S (mapped_prefix m (a + 1) n)
           | None => O
           end
  end.

Lemma mapped_prefix_le m a n : (mapped_prefix m a n <= n)%nat.
Proof. revert a. induction n as [|n IH]; intros a; cbn; [lia|]. case_match; [|lia]. specialize (IH (a + 1)). lia. Qed.

Lemma mapped_prefix_all m a n : mapped_range m a n = true -> mapped_prefix m a n = n.
Proof.
  revert a. induction n as [|n IH]; intros a Hm; cbn [mapped_prefix]; [done|].
  cbn [mapped_range] in Hm. destruct (m !! a); [|done]. f_equal. by apply IH.
Qed.

#[global] Instance simple_arch : UserArch := {
  access_ok a n := (0 <=? a) && (a + n <=? 2 ^ 47);
  should_fail_usercopy _ _ _ := false;
  check_copy_size n _ := n <=? 2 ^ 31 - 1;
  raw_to_left m a n := n - Z.of_nat (mapped_prefix m a (Z.to_nat n));
  raw_from_left m a n := n - Z.of_nat (mapped_prefix m a (Z.to_nat n));
  put_user_faults m a n := negb (mappedb m a n);
  get_user_faults m a n := negb (mappedb m a n);
  check_zeroed_user m a n :=
    if mappedb m a n then c_bool (forallb (Z.eqb 0) (read_bytes m a (Z.to_nat n)))
    else - EFAULT;
}.

#[global] Instance simple_arch_ok : UserArchOk.
Proof.
  split; intros; cbn.
  - pose proof (mapped_prefix_le m a (Z.to_nat n)). lia.
  - pose proof (mapped_prefix_le m a (Z.to_nat n)). lia.
  - rewrite mapped_prefix_all by done. lia.
  - rewrite mapped_prefix_all by done. lia.
  - by rewrite H.
  - by rewrite H.
  - repeat case_match; cbn; unfold EFAULT, c_bool; repeat case_match; lia.
Qed.

(** A stored block of bytes below [2 ^ 47] can be written again. *)
Lemma stored_can_copy_to m b bs a n :
  0 <= b -> b + Z.of_nat (length bs) <= 2 ^ 47 -> 0 <= n < 2 ^ 31 ->
  b <= a -> a + n <= b + Z.of_nat (length bs) -> can_copy_to (write_bytes m b bs) a n.
Proof.
  intros Hb Hl Hn Ha Han. split_and!; try done; cbn; [lia..|].
  apply mapped_range_forall. intros i Hi. rewrite lookup_write_bytes, decide_True by lia.
  apply lookup_lt_is_Some. lia.
Qed.
