(* ===== verification/Kernel.v ===== *)
(** The kernel objects the extensions work on.

    Tasks, signal structs and address spaces are shared objects: the kernel
    state maps their addresses to their fields, and a task refers to its signal
    struct and its mm by address ([0] is [NULL]), so that two threads of one
    process alias the same limits.  Only the fields the modelled code uses are
    kept.  The inline helpers of [include/linux/sched.h],
    [include/linux/sched/signal.h], [include/linux/mm.h] and
    [include/linux/oom.h] are definitions; the parts of the kernel that are not
    in the repository are the fields of the class [KernelEnv]. *)

From S2P Require Import Prelude Uaccess.

(** ** Objects *)
Record cred := mkCred {
  c_uid : Z; c_euid : Z; c_suid : Z; c_fsuid : Z;
  c_gid : Z; c_egid : Z; c_sgid : Z; c_fsgid : Z;
  c_user_ns : Z;
  c_user : Z;
  c_ucounts : Z;
  c_cap_effective : Z; c_cap_permitted : Z;    (* kernel_cap_t, as bit words *)
  c_securebits : Z;
}.
#[global] Instance eta_cred : Eta cred := fun c =>
  mkCred (c_uid c) (c_euid c) (c_suid c) (c_fsuid c)
         (c_gid c) (c_egid c) (c_sgid c) (c_fsgid c)
         (c_user_ns c) (c_user c) (c_ucounts c)
         (c_cap_effective c) (c_cap_permitted c) (c_securebits c).

Record rlimit := mkRlimit { rlim_cur : Z; rlim_max : Z }.
#[global] Instance rlimit_eq_dec : EqDecision rlimit.
Proof. solve_decision. Defined.

(** The address-space layout fields of [struct mm_struct], which are also the
    address fields of [struct prctl_mm_map]. *)
Record mm_layout := mkLayout {
  start_code : Z; end_code : Z; start_data : Z; end_data : Z;
  start_brk : Z; brk : Z; start_stack : Z;
  arg_start : Z; arg_end : Z; env_start : Z; env_end : Z;
}.
#[global] Instance eta_layout : Eta mm_layout := fun l =>
  mkLayout (start_code l) (end_code l) (start_data l) (end_data l)
           (start_brk l) (brk l) (start_stack l)
           (arg_start l) (arg_end l) (env_start l) (env_end l).

Record mm_struct := mkMm {
  total_vm : Z;
  hiwater_rss : Z;
  hiwater_vm : Z;
  rss_stat : Z -> Z;          (* the per-cpu counters, by member *)
  mm_users : Z;
  mm_flags : Z;
  layout : mm_layout;
  saved_auxv : list Z;        (* AT_VECTOR_SIZE words, as bytes *)
}.
#[global] Instance eta_mm : Eta mm_struct := fun m =>
  mkMm (total_vm m) (hiwater_rss m) (hiwater_vm m) (rss_stat m) (mm_users m)
       (mm_flags m) (layout m) (saved_auxv m).

(** Resource counters kept per task and, for dead threads and reaped children,
    per signal struct. *)
Record counters := mkCounters {
  nvcsw : Z; nivcsw : Z; min_flt : Z; maj_flt : Z; inblock : Z; oublock : Z;
}.

Record signal_struct := mkSignal {
  thread_head : list Z;        (* the threads, in list order *)
  nr_threads : Z;
  s_tgid : Z; s_pgid : Z; s_sid : Z;   (* pids[PIDTYPE_*] *)
  leader : Z;                  (* session group leader *)
  is_child_subreaper : bool;
  has_child_subreaper : bool;
  cutime : Z; cstime : Z;
  dead : counters;             (* nvcsw, ... of dead threads *)
  reaped : counters;           (* cnvcsw, ... of reaped children *)
  maxrss : Z; cmaxrss : Z;
  rlim : list rlimit;
  oom_flag_origin : bool;
  oom_score_adj : Z;
  oom_mm : Z;
}.
#[global] Instance eta_signal : Eta signal_struct := fun s =>
  mkSignal (thread_head s) (nr_threads s) (s_tgid s) (s_pgid s) (s_sid s) (leader s)
           (is_child_subreaper s) (has_child_subreaper s) (cutime s) (cstime s)
           (dead s) (reaped s) (maxrss s) (cmaxrss s) (rlim s)
           (oom_flag_origin s) (oom_score_adj s) (oom_mm s).

(** [struct task_io_accounting]. *)
Record io_accounting := mkIoac {
  ioac_read_bytes : Z; ioac_write_bytes : Z; ioac_syscr : Z; ioac_syscw : Z;
}.

Record task_struct := mkTask {
  t_state : Z;                 (* __state *)
  usage : Z;
  flags : Z;                   (* PF_* *)
  atomic_flags : Z;            (* PFA_* *)
  static_prio : Z;
  t_nr : Z;                    (* pid: its number in the initial namespace *)
  t_pid : Z;                   (* the pid object task_pid() returns *)
  exit_signal : Z;
  t_mm : Z;
  t_signal : Z;
  group_leader : Z;
  real_parent : Z;
  t_cred : cred;
  ioac : io_accounting;
  t_counters : counters;
  personality : Z;
  comm : list Z;
  pdeath_signal : Z;
  timer_slack_ns : Z;
  default_timer_slack_ns : Z;
  clear_child_tid : Z;
  t_fs : Z;                    (* the fs_struct, shared by CLONE_FS tasks *)
}.
#[global] Instance eta_task : Eta task_struct := fun t =>
  mkTask (t_state t) (usage t) (flags t) (atomic_flags t) (static_prio t) (t_nr t) (t_pid t)
         (exit_signal t) (t_mm t) (t_signal t) (group_leader t) (real_parent t) (t_cred t)
         (ioac t) (t_counters t) (personality t) (comm t) (pdeath_signal t)
         (timer_slack_ns t) (default_timer_slack_ns t) (clear_child_tid t) (t_fs t).

(** ** The kernel state *)
Record kernel := mkKernel {
  k_tasks : gmap Z task_struct;
  k_signals : gmap Z signal_struct;
  k_mms : gmap Z mm_struct;
  k_fs : gmap Z Z;             (* fs_struct to its umask *)
  k_vpids : gmap Z Z;          (* pid number of the caller's namespace to task *)
  k_procs : list Z;            (* the process list after init_task, in order *)
  k_current : Z;
  k_user : gmap Z Z;           (* the caller's user memory *)
  k_rcu : Z;                   (* depth of RCU read-side sections *)
  k_bare_lookups : Z;          (* pid lookups made outside of any of them *)
  k_rcu_faults : Z;            (* user accesses, which may sleep, made inside of one *)
  k_cpu_timers : list (Z * Z); (* update_rlimit_cpu: task and seconds, newest first *)
  k_log : list (string * list Z);   (* printk: format and arguments, newest first *)
}.
#[global] Instance eta_kernel : Eta kernel := fun k =>
  mkKernel (k_tasks k) (k_signals k) (k_mms k) (k_fs k) (k_vpids k) (k_procs k) (k_current k)
           (k_user k) (k_rcu k) (k_bare_lookups k) (k_rcu_faults k)
           (k_cpu_timers k) (k_log k).

(** ** What is outside of the repository *)
Class KernelEnv := {
  (* kernel/capability.c *)
  capable : kernel -> Z -> bool;
  ns_capable : kernel -> Z -> Z -> bool;
  ns_capable_setid : kernel -> Z -> Z -> bool;
  (* security/: 0 grants, a negative errno refuses *)
  security_task_setrlimit : kernel -> Z -> Z -> rlimit -> Z;
  security_task_prlimit : kernel -> cred -> cred -> Z -> Z;
  security_task_setnice : kernel -> Z -> Z -> Z;
  security_task_fix_setuid : kernel -> cred -> cred -> Z -> Z;
  security_task_fix_setgid : kernel -> cred -> cred -> Z -> Z;
  security_task_setpgid : kernel -> Z -> Z -> Z;
  security_task_getpgid : kernel -> Z -> Z;
  security_task_getsid : kernel -> Z -> Z;
  (* kernel/fork.c: the mm get_task_mm() returns for a task, 0 for NULL *)
  get_task_mm_ptr : task_struct -> Z;
  (* mm/oom_kill.c *)
  oom_badness : gmap Z task_struct -> gmap Z signal_struct -> gmap Z mm_struct -> Z -> Z -> Z;
  (* mm/page_alloc.c: the value of _totalram_pages *)
  totalram : Z;
  (* fs/file.c *)
  sysctl_nr_open : Z;
}.

Definition CAP_SYS_ADMIN : Z := 21.
Definition CAP_SYS_RESOURCE : Z := 24.

(** ** Kernel primitives *)
Definition pr_info (fmt : string) (args : list Z) : Kern kernel unit :=
  modify (fun k => k <| k_log ::= cons (fmt, args) |>).

Definition rcu_read_lock : Kern kernel unit := modify (fun k => k <| k_rcu ::= Z.succ |>).
Definition rcu_read_unlock : Kern kernel unit := modify (fun k => k <| k_rcu ::= Z.pred |>).

(** The task a pid number of the caller's namespace denotes.  The caller has to
    be in an RCU read-side section; [k_bare_lookups] counts the calls that are
    not. *)
Definition find_task_by_vpid (nr : Z) : Kern kernel (option Z) := fun k =>
  Done (k_vpids k !! nr)
       (k <| k_bare_lookups ::= fun n => if 0 <? k_rcu k then n else Z.succ n |>).

Definition task_at (p : Z) : Kern kernel task_struct :=
  t ← gets (fun k => k_tasks k !! p); deref UseAfterFree t.
Definition signal_at (p : Z) : Kern kernel signal_struct :=
  s ← gets (fun k => k_signals k !! p); deref UseAfterFree s.
Definition mm_at (p : Z) : Kern kernel mm_struct :=
  m ← gets (fun k => k_mms k !! p); deref UseAfterFree m.

Definition put_task (p : Z) (t : task_struct) : Kern kernel unit :=
  modify (fun k => k <| k_tasks ::= <[p := t]> |>).
Definition put_signal (p : Z) (s : signal_struct) : Kern kernel unit :=
  modify (fun k => k <| k_signals ::= <[p := s]> |>).
Definition put_mm (p : Z) (m : mm_struct) : Kern kernel unit :=
  modify (fun k => k <| k_mms ::= <[p := m]> |>).

Definition get_task_struct (p : Z) : Kern kernel unit :=
  t ← task_at p; put_task p (t <| usage ::= Z.succ |>).

(** Drops a reference; the last one frees the task. *)
Definition put_task_struct (p : Z) : Kern kernel unit :=
  t ← task_at p;
  if usage t =? 1 then modify (fun k => k <| k_tasks ::= delete p |>)
  else put_task p (t <| usage ::= Z.pred |>).

(** [get_task_mm] takes a reference to the address space of a task, [mmput] drops
    it; the last one frees the address space. *)
Definition get_task_mm `{KernelEnv} (p : Z) : Kern kernel Z :=
  t ← task_at p;
  let mm := get_task_mm_ptr t in
  if truthy mm then
    m ← mm_at mm; put_mm mm (m <| mm_users ::= Z.succ |>);; mret mm
  else mret 0.
Definition mmput (mm : Z) : Kern kernel unit :=
  m ← mm_at mm;
  if mm_users m =? 1 then modify (fun k => k <| k_mms ::= delete mm |>)
  else put_mm mm (m <| mm_users ::= Z.pred |>).

(** ** User memory of the kernel state

    The copy routines may sleep ([might_fault()]), which an RCU read-side section
    forbids; [k_rcu_faults] counts the accesses made inside of one. *)
Definition user_accessed (m : gmap Z Z) (k : kernel) : kernel :=
  k <| k_user := m |>
    <| k_rcu_faults ::= fun n => if 0 <? k_rcu k then Z.succ n else n |>.

Section KernelUser.
Context `{UserArch}.

Definition k_copy_to_user (to : Z) (bs : list Z) : Kern kernel Z := fun k =>
  let '(m, res) := copy_to_user (k_user k) to bs in
  Done res (user_accessed m k).

Definition k_copy_from_user (from n : Z) : Kern kernel (list Z * Z) := fun k =>
  Done (copy_from_user (k_user k) from n (replicate (Z.to_nat n) 0)) (user_accessed (k_user k) k).

Definition k_put_user (n : nat) (x ptr : Z) : Kern kernel Z := fun k =>
  let '(m, res) := put_user (k_user k) n x ptr in
  Done res (user_accessed m k).

Definition k_get_user (n : nat) (ptr : Z) : Kern kernel (Z * Z) := fun k =>
  Done (get_user (k_user k) n ptr) (user_accessed (k_user k) k).

End KernelUser.

(** ** [include/linux/sched/signal.h] *)
Definition RLIM_NLIMITS : Z := 16.
Definition RLIM_INFINITY : Z := 2 ^ 64 - 1.
Definition RLIMIT_CPU : Z := 0.
Definition RLIMIT_FSIZE : Z := 1.
Definition RLIMIT_DATA : Z := 2.
Definition RLIMIT_NPROC : Z := 6.
Definition RLIMIT_NOFILE : Z := 7.
Definition RLIMIT_AS : Z := 9.

Inductive pid_type := PIDTYPE_PID | PIDTYPE_TGID | PIDTYPE_PGID | PIDTYPE_SID.

Definition task_signal (t : task_struct) : Kern kernel signal_struct := signal_at (t_signal t).

Definition task_pid_type (t : task_struct) (ty : pid_type) : Kern kernel Z :=
  match ty with
  | PIDTYPE_PID => mret (t_pid t)
  | PIDTYPE_TGID => s ← task_signal t; mret (s_tgid s)
  | PIDTYPE_PGID => s ← task_signal t; mret (s_pgid s)
  | PIDTYPE_SID => s ← task_signal t; mret (s_sid s)
  end.
Definition task_tgid (t : task_struct) : Kern kernel Z := s ← task_signal t; mret (s_tgid s).
Definition task_pgrp (t : task_struct) : Kern kernel Z := s ← task_signal t; mret (s_pgid s).
Definition task_session (t : task_struct) : Kern kernel Z := s ← task_signal t; mret (s_sid s).
Definition get_nr_threads (t : task_struct) : Kern kernel Z := s ← task_signal t; mret (nr_threads s).
Definition thread_group_leader (t : task_struct) : bool := 0 <=? exit_signal t.
Definition same_thread_group (p1 p2 : task_struct) : bool := t_signal p1 =? t_signal p2.

(** The thread after [p] in its group, the leader after the last one. *)
Fixpoint next_in (l : list Z) (p : Z) : option Z :=
  match l with
  | [] => None
  | x :: l => if x =? p then head l else next_in l p
  end.
Definition __next_thread (p : Z) : Kern kernel (option Z) :=
  t ← task_at p; s ← task_signal t; mret (next_in (thread_head s) p).
Definition next_thread (p : Z) : Kern kernel Z :=
  n ← __next_thread p; t ← task_at p; mret (default (group_leader t) n).
Definition thread_group_empty (p : Z) : Kern kernel bool :=
  t ← task_at p; s ← task_signal t;
  mret (thread_group_leader t && bool_decide (last (thread_head s) = Some p)).
Definition delay_group_leader (p : Z) : Kern kernel bool :=
  t ← task_at p; e ← thread_group_empty p; mret (thread_group_leader t && negb e).

Definition rlim_at (s : signal_struct) (limit : Z) : Kern kernel rlimit :=
  deref OutOfBounds (rlim s !! Z.to_nat limit).
Definition task_rlimit (t : task_struct) (limit : Z) : Kern kernel Z :=
  s ← task_signal t; r ← rlim_at s limit; mret (rlim_cur r).
Definition task_rlimit_max (t : task_struct) (limit : Z) : Kern kernel Z :=
  s ← task_signal t; r ← rlim_at s limit; mret (rlim_max r).

Definition current : Kern kernel Z := gets k_current.
Definition current_task : Kern kernel task_struct := p ← current; task_at p.
Definition current_rlimit (limit : Z) : Kern kernel Z := t ← current_task; task_rlimit t limit.
Definition current_rlimit_max (limit : Z) : Kern kernel Z := t ← current_task; task_rlimit_max t limit.

(** [for_each_process(p) body]: [body] over the process list. *)
Fixpoint for_each {A} (l : list Z) (body : Z -> A -> Kern kernel A) (acc : A) : Kern kernel A :=
  match l with
  | [] => mret acc
  | p :: l => acc' ← body p acc; for_each l body acc'
  end.

(** ** [include/linux/sched.h] *)
Definition TASK_INTERRUPTIBLE : Z := 1.
Definition TASK_UNINTERRUPTIBLE : Z := 2.
Definition TASK_NOLOAD : Z := 1024.
Definition TASK_RTLOCK_WAIT : Z := 4096.
Definition TASK_IDLE : Z := Z.lor TASK_UNINTERRUPTIBLE TASK_NOLOAD.
(* RUNNING | INTERRUPTIBLE | UNINTERRUPTIBLE | STOPPED | TRACED | DEAD | ZOMBIE | PARKED *)
Definition TASK_REPORT : Z := 127.
Definition TASK_REPORT_IDLE : Z := TASK_REPORT + 1.
Definition TASK_REPORT_MAX : Z := Z.shiftl TASK_REPORT_IDLE 1.

(** Find last set: the 1-based index of the highest bit, 0 for 0. *)
Definition fls (z : Z) : Z := if z <=? 0 then 0 else Z.log2 z + 1.

Definition __task_state_index (tsk_state tsk_exit_state : Z) : Z :=
  let state := Z.land (Z.lor tsk_state tsk_exit_state) TASK_REPORT in
  let state := if Z.land tsk_state TASK_IDLE =? TASK_IDLE then TASK_REPORT_IDLE else state in
  let state := if truthy (Z.land tsk_state TASK_RTLOCK_WAIT) then TASK_UNINTERRUPTIBLE else state in
  fls state.

Definition state_char : string := "RSDTtXZPI".
Definition task_index_to_char (state : Z) : option Ascii.ascii := String.get (Z.to_nat state) state_char.

Definition MAX_RT_PRIO : Z := 100.
Definition NICE_WIDTH : Z := 40.
Definition DEFAULT_PRIO : Z := MAX_RT_PRIO + NICE_WIDTH / 2.
Definition task_nice (t : task_struct) : Z := static_prio t - DEFAULT_PRIO.

Definition test_bit (nr w : Z) : bool := Z.testbit w nr.
Definition set_bit (nr w : Z) : Z := Z.setbit w nr.
Definition clear_bit (nr w : Z) : Z := Z.clearbit w nr.

Definition PFA_NO_NEW_PRIVS : Z := 0.
Definition task_no_new_privs (t : task_struct) : bool := test_bit PFA_NO_NEW_PRIVS (atomic_flags t).
Definition task_set_no_new_privs (t : task_struct) : task_struct :=
  t <| atomic_flags ::= set_bit PFA_NO_NEW_PRIVS |>.

Definition current_restore_flags (orig_flags fl : Z) : Kern kernel unit :=
  p ← current; t ← task_at p;
  put_task p (t <| flags := Z.lor (Z.land (flags t) (Z.lnot fl)) (Z.land orig_flags fl) |>).

(** ** [include/linux/mm.h] *)
Definition MM_FILEPAGES : Z := 0.
Definition MM_ANONPAGES : Z := 1.
Definition MM_SWAPENTS : Z := 2.
Definition MM_SHMEMPAGES : Z := 3.

(** [percpu_counter_read_positive]: a negative transient reads as 0. *)
Definition get_mm_counter (mm : mm_struct) (member : Z) : Z := u64 (Z.max 0 (rss_stat mm member)).
Definition set_counter (mm : mm_struct) (member value : Z) : mm_struct :=
  mm <| rss_stat ::= fun f x => if x =? member then value else f x |>.
Definition add_mm_counter (mm : mm_struct) (member value : Z) : mm_struct :=
  set_counter mm member (s64 (rss_stat mm member + value)).
Definition inc_mm_counter (mm : mm_struct) (member : Z) : mm_struct := add_mm_counter mm member 1.
Definition dec_mm_counter (mm : mm_struct) (member : Z) : mm_struct := add_mm_counter mm member (-1).

(** The counter a page is charged to. *)
Definition mm_counter_file (swap_backed : bool) : Z :=
  if swap_backed then MM_SHMEMPAGES else MM_FILEPAGES.
Definition mm_counter (anon swap_backed : bool) : Z :=
  if anon then MM_ANONPAGES else mm_counter_file swap_backed.

Definition get_mm_rss (mm : mm_struct) : Z :=
  u64 (get_mm_counter mm MM_FILEPAGES + get_mm_counter mm MM_ANONPAGES
       + get_mm_counter mm MM_SHMEMPAGES).
Definition get_mm_hiwater_rss (mm : mm_struct) : Z := Z.max (hiwater_rss mm) (get_mm_rss mm).
Definition get_mm_hiwater_vm (mm : mm_struct) : Z := Z.max (hiwater_vm mm) (total_vm mm).
Definition update_hiwater_rss (mm : mm_struct) : mm_struct :=
  let _rss := get_mm_rss mm in
  if hiwater_rss mm <? _rss then mm <| hiwater_rss := _rss |> else mm.
Definition update_hiwater_vm (mm : mm_struct) : mm_struct :=
  if hiwater_vm mm <? total_vm mm then mm <| hiwater_vm := total_vm mm |> else mm.
Definition reset_mm_hiwater_rss (mm : mm_struct) : mm_struct :=
  mm <| hiwater_rss := get_mm_rss mm |>.
Definition setmax_mm_hiwater_rss (maxrss : Z) (mm : mm_struct) : Z :=
  let hiwater := get_mm_hiwater_rss mm in
  if maxrss <? hiwater then hiwater else maxrss.

Definition check_data_rlimit (rlim new start end_data start_data : Z) : Z :=
  if rlim <? RLIM_INFINITY then
    if rlim <? u64 (u64 (new - start) + u64 (end_data - start_data)) then - ENOSPC else 0
  else 0.

Definition totalram_pages `{KernelEnv} : Z := u64 totalram.

(** [PAGE_ALIGN(addr)], [PAGE_ALIGN_DOWN], [PAGE_ALIGNED], [offset_in_page]. *)
Definition PAGE_MASK : Z := Z.lnot (PAGE_SIZE - 1).
Definition PAGE_ALIGN (addr : Z) : Z := Z.land (u64 (addr + (PAGE_SIZE - 1))) PAGE_MASK.
Definition PAGE_ALIGN_DOWN (addr : Z) : Z := Z.land addr PAGE_MASK.
Definition PAGE_ALIGNED (addr : Z) : bool := Z.land addr (PAGE_SIZE - 1) =? 0.
Definition offset_in_page (p : Z) : Z := Z.land p (Z.lnot PAGE_MASK).

(** ** [include/linux/oom.h] *)
Definition set_current_oom_origin : Kern kernel unit :=
  t ← current_task; s ← task_signal t; put_signal (t_signal t) (s <| oom_flag_origin := true |>).
Definition clear_current_oom_origin : Kern kernel unit :=
  t ← current_task; s ← task_signal t; put_signal (t_signal t) (s <| oom_flag_origin := false |>).
Definition oom_task_origin (t : task_struct) : Kern kernel bool :=
  s ← task_signal t; mret (oom_flag_origin s).
Definition tsk_is_oom_victim (t : task_struct) : Kern kernel bool :=
  s ← task_signal t; mret (truthy (oom_mm s)).

(** ** Well-formed kernel states *)
Record task_wf (k : kernel) (t : task_struct) : Prop := {
  tw_usage : 1 <= usage t;
  tw_signal : is_Some (k_signals k !! t_signal t);
  tw_mm : t_mm t = 0 \/ is_Some (k_mms k !! t_mm t);
}.

Record kernel_wf (k : kernel) : Prop := {
  kw_vpids nr p : k_vpids k !! nr = Some p -> is_Some (k_tasks k !! p);
  kw_tasks p t : k_tasks k !! p = Some t -> task_wf k t;
  kw_mms p m : k_mms k !! p = Some m -> 1 <= mm_users m;
  kw_rlim p s : k_signals k !! p = Some s -> length (rlim s) = 16%nat;
  kw_current : is_Some (k_tasks k !! k_current k);
  kw_procs : Forall (fun p => is_Some (k_tasks k !! p)) (k_procs k);
}.

(** Two kernel states that agree on everything a routine may look at except the
    log and the count of unprotected lookups. *)
Definition same_objects (k k' : kernel) : Prop :=
  k_tasks k' = k_tasks k /\ k_signals k' = k_signals k /\ k_mms k' = k_mms k /\
  k_fs k' = k_fs k /\ k_vpids k' = k_vpids k /\ k_procs k' = k_procs k /\
  k_current k' = k_current k /\ k_rcu k' = k_rcu k.

#[global] Instance same_objects_equiv : Equivalence same_objects.
Proof.
  unfold same_objects. split.
  - intros k. by split_and!.
  - intros k k' ?. destruct_and!. split_and!; congruence.
  - intros k1 k2 k3 ? ?. destruct_and!. split_and!; congruence.
Qed.

Lemma kernel_wf_same k k' : same_objects k k' -> kernel_wf k -> kernel_wf k'.
Proof.
  intros (Ht & Hs & Hm & _ & Hv & Hp & Hc & _) [Wv Wt Wm Wr Wc Wp]. split.
  - intros nr p. rewrite Hv, Ht. apply Wv.
  - intros p t. rewrite Ht. intros [? ? ?]%Wt. split; rewrite ?Hs, ?Hm; done.
  - intros p m. rewrite Hm. apply Wm.
  - intros p s. rewrite Hs. apply Wr.
  - by rewrite Hc, Ht.
  - by rewrite Hp, Ht.
Qed.

Lemma kernel_wf_rcu k f : kernel_wf k -> kernel_wf (k <| k_rcu ::= f |>).
Proof. intros [Wv Wt Wm Wr Wc Wp]. split; try done. intros p t Hp. by destruct (Wt p t Hp). Qed.

Lemma mm_users_roundtrip (k : kernel) p m :
  k_mms k !! p = Some m ->
  <[p := (m <| mm_users ::= Z.succ |>) <| mm_users ::= Z.pred |>]> (<[p := m <| mm_users ::= Z.succ |>]> (k_mms k))
  = k_mms k.
Proof.
  intros Hm. rewrite insert_insert_eq. apply insert_id. rewrite Hm. f_equal.
  destruct m; cbn. by rewrite Z.pred_succ.
Qed.

(** Taking a reference and dropping it again leaves the task table alone. *)
Lemma task_usage_roundtrip (k : kernel) p t :
  k_tasks k !! p = Some t ->
  <[p := (t <| usage ::= Z.succ |>) <| usage ::= Z.pred |>]> (<[p := t <| usage ::= Z.succ |>]> (k_tasks k))
  = k_tasks k.
Proof.
  intros Ht. rewrite insert_insert_eq. apply insert_id. rewrite Ht. f_equal.
  destruct t; cbn. by rewrite Z.pred_succ.
Qed.

(** The state while a reference to [task] is held. *)
Definition holding (k : kernel) (task : Z) : kernel :=
  match k_tasks k !! task with
  | Some t => k <| k_tasks ::= <[task := t <| usage ::= Z.succ |>]> |>
  | None => k
  end.

Lemma holding_wf k task t :
  kernel_wf k -> k_tasks k !! task = Some t -> kernel_wf (holding k task).
Proof.
  intros [Wv Wt Wm Wr Wc Wp] Ht. unfold holding. rewrite Ht.
  assert (forall p, is_Some (k_tasks k !! p) ->
    is_Some ((<[task := t <| usage ::= Z.succ |>]> (k_tasks k)) !! p)) as Hdom.
  { intros p Hp. rewrite lookup_insert. by case_decide. }
  split; cbn; try done.
  - intros nr p Hv. apply Hdom. by eapply Wv.
  - intros p t' [[<- <-]|[_ Hp]]%lookup_insert_Some.
    + destruct (Wt _ _ Ht) as [? ? ?]. split; cbn; try done. lia.
    + destruct (Wt _ _ Hp) as [? ? ?]. by split.
  - by apply Hdom.
  - eapply Forall_impl; [exact Wp|]. intros p. apply Hdom.
Qed.

Lemma holding_get k task t :
  k_tasks k !! task = Some t -> get_task_struct task k = Done tt (holding k task).
Proof.
  intros Ht. unfold get_task_struct, task_at, put_task, holding. kernel_unfold. by rewrite Ht.
Qed.

Lemma holding_put k task t k1 :
  kernel_wf k -> k_tasks k !! task = Some t -> k_tasks k1 = k_tasks (holding k task) ->
  put_task_struct task k1 = Done tt (k1 <| k_tasks := k_tasks k |>).
Proof.
  intros Hk Ht Hk1. unfold holding in Hk1. rewrite Ht in Hk1. cbn in Hk1.
  assert (k_tasks k1 !! task = Some (t <| usage ::= Z.succ |>)) as Hl by (by rewrite Hk1, lookup_insert_eq).
  unfold put_task_struct, task_at, put_task. kernel_unfold. rewrite Hl.
  pose proof (tw_usage _ _ (kw_tasks k Hk _ _ Ht)).
  change (usage (t <| usage ::= Z.succ |>)) with (Z.succ (usage t)).
  destruct (Z.eqb_spec (Z.succ (usage t)) 1); [lia|].
  assert (<[task := (t <| usage ::= Z.succ |>) <| usage ::= Z.pred |>]> (k_tasks k1) = k_tasks k) as <-
    by (rewrite Hk1; by apply task_usage_roundtrip).
  done.
Qed.

(** The limit of a process, and the kernel in which it is changed. *)
Definition rlim_of (k : kernel) (task resource : Z) : option rlimit :=
  t ← k_tasks k !! task;
  sg ← k_signals k !! t_signal t;
  rlim sg !! Z.to_nat resource.

Definition with_rlimit (k : kernel) (task resource : Z) (rl : rlimit) : kernel :=
  match k_tasks k !! task with
  | Some t =>
      match k_signals k !! t_signal t with
      | Some sg => k <| k_signals ::= <[t_signal t := sg <| rlim ::= <[Z.to_nat resource := rl]> |>]> |>
      | None => k
      end
  | None => k
  end.

Lemma kernel_wf_set_rlim k p sg rl i :
  kernel_wf k -> k_signals k !! p = Some sg ->
  kernel_wf (k <| k_signals ::= <[p := sg <| rlim ::= <[i := rl]> |>]> |>).
Proof.
  intros [Wv Wt Wr Wc Wp] Hp. split; cbn; try done.
  - intros q t [Hu Hsig Hmm]%Wt. split; [done| |done]. cbn.
    rewrite lookup_insert. by case_decide.
  - intros q sg'. rewrite lookup_insert. case_decide; [intros [= <-]; cbn|by eauto].
    rewrite length_insert. by eauto.
Qed.

Lemma kernel_wf_with_rlimit k task resource rl :
  kernel_wf k -> kernel_wf (with_rlimit k task resource rl).
Proof.
  intros Hk. unfold with_rlimit. repeat case_match; try done. by apply kernel_wf_set_rlim.
Qed.

(** The threads of the process get the new limit, everybody else keeps theirs. *)
Lemma rlim_of_with_rlimit k task t resource rl p r :
  k_tasks k !! task = Some t -> is_Some (rlim_of k task resource) -> 0 <= resource -> 0 <= r ->
  rlim_of (with_rlimit k task resource rl) p r =
    if decide (r = resource /\ t_signal <$> k_tasks k !! p = Some (t_signal t)) then Some rl else rlim_of k p r.
Proof.
  intros Ht Hsome Hres Hr. unfold rlim_of, with_rlimit in *. rewrite Ht in *. cbn in Hsome.
  destruct (k_signals k !! t_signal t) as [sg|] eqn:Hsg; [|by destruct Hsome]. cbn in Hsome.
  cbn [k_tasks k_signals]. destruct (k_tasks k !! p) as [tp|] eqn:Hp; cbn; rewrite Hp; cbn;
    [|by rewrite decide_False by naive_solver].
  rewrite lookup_insert. case_decide as Heq.
  - cbn. rewrite list_lookup_insert. rewrite <- Heq, Hsg. cbn.
    apply lookup_lt_is_Some in Hsome. repeat case_decide; naive_solver lia.
  - by rewrite decide_False by naive_solver.
Qed.

Lemma rlim_of_holding k task p r : rlim_of (holding k task) p r = rlim_of k p r.
Proof.
  unfold rlim_of, holding. destruct (k_tasks k !! task) as [t|] eqn:Ht; [|done]. cbn.
  rewrite lookup_insert. case_decide; [|done]. subst. by rewrite Ht.
Qed.

Lemma wp_rcu_read_lock Q k : wp rcu_read_lock Q k <-> Q tt (k <| k_rcu ::= Z.succ |>).
Proof. done. Qed.
Lemma wp_rcu_read_unlock Q k : wp rcu_read_unlock Q k <-> Q tt (k <| k_rcu ::= Z.pred |>).
Proof. done. Qed.
Lemma wp_find_task nr Q k :
  wp (find_task_by_vpid nr) Q k <->
  Q (k_vpids k !! nr) (k <| k_bare_lookups ::= fun n => if 0 <? k_rcu k then n else Z.succ n |>).
Proof. done. Qed.

Lemma wp_task_at p Q k t :
  k_tasks k !! p = Some t -> wp (task_at p) Q k <-> Q t k.
Proof. intros Ht. unfold task_at. autorewrite with wp. rewrite Ht. done. Qed.

Lemma wp_task_signal t Q k s :
  k_signals k !! t_signal t = Some s -> wp (task_signal t) Q k <-> Q s k.
Proof. intros Ht. unfold task_signal, signal_at. autorewrite with wp. rewrite Ht. done. Qed.

Lemma wp_mm_at p Q k m :
  k_mms k !! p = Some m -> wp (mm_at p) Q k <-> Q m k.
Proof. intros Ht. unfold mm_at. autorewrite with wp. rewrite Ht. done. Qed.

Lemma wp_rlim_at s i Q k r :
  rlim s !! Z.to_nat i = Some r -> wp (rlim_at s i) Q k <-> Q r k.
Proof. intros Ht. unfold rlim_at. rewrite Ht. done. Qed.

#[export] Hint Rewrite wp_rcu_read_lock wp_rcu_read_unlock wp_find_task : wp.

(** ** Copying results out

    The tail of most syscalls: copy an object to user memory, return -EFAULT
    when a byte is left.  [got] is the number of bytes that arrived. *)
Section CopyOut.
Context `{UserArchOk}.

Lemma wp_copy_out (Q : Z -> kernel -> Prop) k u bs ret :
  (forall got, (got <= length bs)%nat ->
     Q (if decide (got = length bs) then ret else - EFAULT)
       (user_accessed (write_bytes (k_user k) u (take got bs)) k)) ->
  wp (uncopied ← k_copy_to_user u bs; if truthy uncopied then mret (- EFAULT) else mret ret) Q k.
Proof.
  intros HQ. unfold k_copy_to_user. kernel_unfold.
  pose proof (copy_to_user_prefix (k_user k) u bs) as Hp.
  pose proof (copy_to_user_res (k_user k) u bs) as Hr.
  destruct (copy_to_user (k_user k) u bs) as [m uncopied]. cbn in Hr. subst m.
  unfold blen in *.
  specialize (HQ (Z.to_nat (Z.of_nat (length bs) - uncopied)) ltac:(lia)).
  destruct (truthy uncopied) eqn:Ht; bool_facts; case_decide; try lia; apply HQ.
Qed.

Lemma wp_copy_out_ok (Q : Z -> kernel -> Prop) k u bs ret :
  can_copy_to (k_user k) u (blen bs) ->
  Q ret (user_accessed (write_bytes (k_user k) u bs) k) ->
  wp (uncopied ← k_copy_to_user u bs; if truthy uncopied then mret (- EFAULT) else mret ret) Q k.
Proof. intros Hc HQ. unfold k_copy_to_user. kernel_unfold. by rewrite copy_to_user_ok. Qed.

End CopyOut.

(** ** Concrete environments

    A system on which every capability is held and the security module grants
    everything, or, with [lsm] non-zero, refuses with that error. *)
Definition sample_env (lsm : Z) : KernelEnv := {|
  capable _ _ := true;
  ns_capable _ _ _ := true;
  ns_capable_setid _ _ _ := true;
  security_task_setrlimit _ _ _ _ := lsm;
  security_task_prlimit _ _ _ _ := lsm;
  security_task_setnice _ _ _ := lsm;
  security_task_fix_setuid _ _ _ _ := lsm;
  security_task_fix_setgid _ _ _ _ := lsm;
  security_task_setpgid _ _ _ := lsm;
  security_task_getpgid _ _ := lsm;
  security_task_getsid _ _ := lsm;
  get_task_mm_ptr t := if Z.testbit (flags t) 21 then 0 else t_mm t;
  oom_badness _ _ _ _ _ := 100;
  totalram := 1000000;
  sysctl_nr_open := 1048576;
|}.

(** Two processes: the caller, pid 1, and pid 7, a user process with 50 pages. *)
Definition zero_counters : counters := mkCounters 0 0 0 0 0 0.
Definition sample_cred (uid : Z) : cred := mkCred uid uid uid uid uid uid uid uid 0 0 0 0 0 0.
Definition sample_signal (task pid : Z) : signal_struct :=
  mkSignal [task] 1 pid pid pid 0 false false 0 0 zero_counters zero_counters 0 0
    (replicate 16 (mkRlimit RLIM_INFINITY RLIM_INFINITY)) false 0 0.
Definition sample_task (pid mm signal uid : Z) : task_struct :=
  mkTask 0 2 0 0 120 pid pid 17 mm signal (100 + pid) 101 (sample_cred uid) (mkIoac 8192 4096 10 5)
    zero_counters 0 (replicate 16 0) 0 50000 50000 0 400.
Definition sample_mm : mm_struct :=
  mkMm 50 20 50 (fun x => if x =? MM_ANONPAGES then 20 else 0) 1 0
    (mkLayout 0 0 0 0 0 0 0 0 0 0 0) (replicate 16 0).

Definition sample_kernel (user : gmap Z Z) : kernel := {|
  k_tasks := {[ 101 := sample_task 1 301 201 0; 107 := sample_task 7 307 207 1000 ]};
  k_signals := {[ 201 := sample_signal 101 1; 207 := sample_signal 107 7 ]};
  k_mms := {[ 301 := sample_mm; 307 := sample_mm ]};
  k_fs := {[ 400 := 18 ]};
  k_vpids := {[ 1 := 101; 7 := 107 ]};
  k_procs := [101; 107];
  k_current := 101;
  k_user := user;
  k_rcu := 0;
  k_bare_lookups := 0;
  k_rcu_faults := 0;
  k_cpu_timers := [];
  k_log := [];
|}.

Lemma sample_kernel_wf user : kernel_wf (sample_kernel user).
Proof.
  assert (forall {A} (a b : Z) (x y : A) i v, ({[ a := x; b := y ]} : gmap Z A) !! i = Some v ->
    (i = a /\ v = x) \/ (i = b /\ v = y)) as Hpair.
  { intros A a b x y i v [[-> ->]|[_ [-> ->]%lookup_singleton_Some]]%lookup_insert_Some; auto. }
  split; cbn.
  - intros nr p [[-> ->]|[-> ->]]%Hpair; eauto.
  - intros p t [[-> ->]|[-> ->]]%Hpair; split; cbn; eauto; lia.
  - intros p m [[-> ->]|[-> ->]]%Hpair; cbn; lia.
  - intros p s [[-> ->]|[-> ->]]%Hpair; done.
  - eauto.
  - repeat constructor; eauto.
Qed.
