(* ===== verification/KList.v ===== *)
(** Kernel services the memory-limit list relies on: the intrusive lists of
    [linux/list.h] and the slab allocator.

    Neither is part of the repository.  Each is a class of operations with a
    class of laws that state the documented behaviour; the syscalls are defined
    over the operations and their theorems use the laws only.  Nodes are named
    by the address of the structure that embeds the [list_head]. *)

From S2P Require Import Prelude.

(** ** [linux/list.h] *)
Class KList (L : Type) := {
  list_head_init : L;              (* LIST_HEAD(name) *)
  list_seq : L -> list Z;          (* what list_for_each_entry visits *)
  list_add_tail : Z -> L -> L;
  list_del : Z -> L -> L;
  list_wf : L -> Prop;             (* the list was built by the operations *)
}.

Class KListOk (L : Type) `{KList L} : Prop := {
  list_wf_nodup l : list_wf l -> NoDup (list_seq l);
  list_init_wf : list_wf list_head_init;
  list_init_seq : list_seq list_head_init = [];
  list_add_tail_wf p l : list_wf l -> p ∉ list_seq l -> list_wf (list_add_tail p l);
  list_add_tail_seq p l : list_wf l -> p ∉ list_seq l ->
    list_seq (list_add_tail p l) = list_seq l ++ [p];
  list_del_wf p l : list_wf l -> p ∈ list_seq l -> list_wf (list_del p l);
  list_del_seq p l : list_wf l -> p ∈ list_seq l ->
    list_seq (list_del p l) = filter (fun q => q <> p) (list_seq l);
}.

(** ** The allocator *)
Class Slab := {
  (* address of a new object of the given size, given the live ones *)
  kmalloc : gset Z -> Z -> option Z;
  (* kmalloc_array(n, size, _): the uninitialised bytes of the array *)
  kmalloc_array : Z -> Z -> option (list Z);
}.

Class SlabOk `{Slab} : Prop := {
  kmalloc_fresh live size p : kmalloc live size = Some p -> p ∉ live /\ p <> 0;
  kmalloc_array_length n size buf :
    0 <= n -> 0 <= size -> kmalloc_array n size = Some buf -> Z.of_nat (length buf) = n * size;
  kmalloc_array_overflow n size : 2 ^ 64 <= n * size -> kmalloc_array n size = None;
}.

(** ** Instances for concrete runs: the list as the sequence of its nodes, and
    an allocator that hands out increasing addresses and zeroed arrays. *)
#[global] Instance seq_klist : KList (list Z) := {
  list_head_init := [];
  list_seq l := l;
  list_add_tail p l := l ++ [p];
  list_del p l := filter (fun q => q <> p) l;
  list_wf l := NoDup l;
}.

#[global] Instance seq_klist_ok : KListOk (list Z).
Proof.
  split; cbn; intros; try done.
  - constructor.
  - apply NoDup_app. split_and!; [done| set_solver | apply NoDup_singleton].
  - by apply NoDup_filter.
Qed.

Definition bump_kmalloc (live : gset Z) (size : Z) : option Z :=
  Some (1 + set_fold Z.max 0 live).

#[global] Instance bump_slab : Slab := {
  kmalloc := bump_kmalloc;
  kmalloc_array n size :=
    if n * size <? 2 ^ 64 then Some (replicate (Z.to_nat (n * size)) 0) else None;
}.

Lemma set_fold_max_bound (live : gset Z) :
  0 <= set_fold Z.max 0 live /\ forall x, x ∈ live -> x <= set_fold Z.max 0 live.
Proof.
  apply (set_fold_ind_L (fun b X => 0 <= b /\ forall x, x ∈ X -> x <= b)).
  - split; [lia | set_solver].
  - intros y X b Hy [Hb HX]. split; [lia|]. intros x [->%elem_of_singleton | Hx]%elem_of_union; [lia|].
    specialize (HX x Hx). lia.
Qed.

#[global] Instance bump_slab_ok : SlabOk.
Proof.
  split; cbn.
  - unfold bump_kmalloc. intros live size p [= <-].
    destruct (set_fold_max_bound live) as [? Hx]. split; [|lia].
    intros Hin. specialize (Hx _ Hin). lia.
  - intros n size buf ? ?. case_match; intros [= <-]. rewrite length_replicate. lia.
  - intros n size ?. case_match; [bool_facts; lia | done].
Qed.
