(* ===== verification/Registry.v ===== *)
(** The abstract registry of memory limits and its image in a buffer.

    What the memory-limit syscalls promise is an ordered list of (pid, limit)
    pairs with distinct pids.  The two versions of the kernel code keep it in
    different lists and return it in C arrays of different element sizes; this
    file has the parts they share: the list of pairs, the array of structs with
    [pid] at offset 0 and [memory_limit] at offset 8, and the two copies to user
    memory at the end of [taro_get_memory_limits]. *)

From S2P Require Import Prelude Uaccess.

Notation registry := (list (Z * Z)).

Definition has_pid (r : registry) (x : Z) : bool := existsb (fun e => e.1 =? x) r.
Definition set_limit (r : registry) (x v : Z) : registry :=
  map (fun e => if e.1 =? x then (e.1, v) else e) r.
Definition drop_pid (r : registry) (x : Z) : registry := filter (fun e => e.1 <> x) r.

Lemma has_pid_elem r x : has_pid r x = true <-> x ∈ map fst r.
Proof.
  unfold has_pid. rewrite existsb_exists. split.
  - intros (e & He & <-%Z.eqb_eq). apply list_elem_of_In, in_map. done.
  - intros ([y w] & <- & Hin)%list_elem_of_In%in_map_iff. exists (y, w). split; [done|]. apply Z.eqb_refl.
Qed.

Lemma map_fst_set_limit r x v : map fst (set_limit r x v) = map fst r.
Proof. unfold set_limit. rewrite map_map. apply map_ext. intros a. by case_match. Qed.

Lemma NoDup_drop_pid r x : NoDup (map fst r) -> NoDup (map fst (drop_pid r x)).
Proof. intros Hr. eapply sublist_NoDup; [exact Hr|]. apply (fmap_sublist fst), sublist_filter. Qed.

Lemma set_limit_absent r x v : has_pid r x = false -> set_limit r x v = r.
Proof.
  unfold has_pid, set_limit. induction r as [|e r IH]; cbn; [done|].
  intros [-> Hr]%orb_false_iff. by rewrite IH.
Qed.

Lemma drop_pid_absent r x : has_pid r x = false -> drop_pid r x = r.
Proof.
  unfold has_pid, drop_pid. induction r as [|e r IH]; [done|]. cbn [existsb].
  intros [Hx Hr]%orb_false_iff. bool_facts. rewrite filter_cons_True by done. by rewrite IH.
Qed.

(** ** The array of structs *)
Section Array.
Context (st : nat) (Hst : (16 <= st)%nat).     (* sizeof of an element *)

Definition store_entry (buf : list Z) (i : nat) (x v : Z) : list Z :=
  write_at (write_at buf (st * i) (le_bytes 4 x)) (st * i + 8) (le_bytes 8 v).

Definition slot (buf : list Z) (i : nat) : list Z := take st (drop (st * i) buf).

(** The bytes of an element: the two fields and, around them, the bytes of the
    buffer as it was. *)
Definition slot_image (buf : list Z) (i : nat) (x v : Z) : list Z :=
  le_bytes 4 x ++ take 4 (drop (st * i + 4) buf) ++ le_bytes 8 v ++
  take (st - 16) (drop (st * i + 16) buf).

Lemma length_store_entry buf i x v :
  (st * i + st <= length buf)%nat -> length (store_entry buf i x v) = length buf.
Proof.
  intros Hl. unfold store_entry.
  rewrite !length_write_at; rewrite ?length_write_at; rewrite ?length_le_bytes; lia.
Qed.

Lemma lookup_store_entry buf i j x v :
  (st * i + st <= length buf)%nat ->
  store_entry buf i x v !! j =
    if decide (st * i <= j < st * i + 4)%nat then le_bytes 4 x !! (j - st * i)%nat
    else if decide (st * i + 8 <= j < st * i + 16)%nat
    then le_bytes 8 v !! (j - (st * i + 8))%nat
    else buf !! j.
Proof.
  intros Hl. unfold store_entry.
  rewrite !lookup_write_at, !length_le_bytes
    by (rewrite ?length_write_at; rewrite ?length_le_bytes; lia).
  repeat case_decide; try done; lia.
Qed.

Lemma lookup_slot buf i j :
  slot buf i !! j = if decide (j < st)%nat then buf !! (st * i + j)%nat else None.
Proof. unfold slot. rewrite lookup_take. case_decide; [|done]. by rewrite lookup_drop. Qed.

Lemma slot_store_ne buf (c i : nat) x v :
  (st * c + st <= length buf)%nat -> i <> c -> slot (store_entry buf c x v) i = slot buf i.
Proof.
  intros Hl Hi. apply list_eq. intros j. rewrite !lookup_slot. case_decide; [|done].
  rewrite lookup_store_entry by done.
  assert (st * c + st <= st * i \/ st * i + st <= st * c)%nat by nia.
  by rewrite !decide_False by lia.
Qed.

Lemma slot_store_eq buf (c : nat) x v :
  (st * c + st <= length buf)%nat -> slot (store_entry buf c x v) c = slot_image buf c x v.
Proof.
  intros Hl. apply list_eq. intros j. rewrite lookup_slot. unfold slot_image.
  destruct (decide (j < st)%nat) as [Hj|Hj].
  2:{ symmetry. apply lookup_ge_None. rewrite !length_app, !length_le_bytes, !length_take, !length_drop. lia. }
  rewrite lookup_store_entry by done.
  destruct (decide (j < 4)%nat).
  { rewrite decide_True, lookup_app_l by (rewrite ?length_le_bytes; lia). f_equal. lia. }
  rewrite decide_False, lookup_app_r by (rewrite ?length_le_bytes; lia). rewrite length_le_bytes.
  destruct (decide (j < 8)%nat).
  { rewrite decide_False by lia. rewrite lookup_app_l by (rewrite length_take, length_drop; lia).
    rewrite lookup_take_lt, lookup_drop by lia. f_equal. lia. }
  rewrite lookup_app_r by (rewrite length_take, length_drop; lia).
  rewrite length_take, length_drop. replace (4 `min` (length buf - (st * c + 4)))%nat with 4%nat by lia.
  destruct (decide (j < 16)%nat).
  { rewrite decide_True, lookup_app_l by (rewrite ?length_le_bytes; lia). f_equal. lia. }
  rewrite decide_False, lookup_app_r by (rewrite ?length_le_bytes; lia). rewrite length_le_bytes.
  rewrite lookup_take_lt, lookup_drop by lia. f_equal. lia.
Qed.

Lemma take_drop_slot buf i off n :
  (off + n <= st)%nat -> take n (drop (st * i + off) buf) = take n (drop off (slot buf i)).
Proof.
  intros Hoff. apply list_eq. intros j. rewrite !lookup_take. case_decide; [|done].
  rewrite !lookup_drop, lookup_slot, decide_True by lia. f_equal. lia.
Qed.

Lemma slot_image_ext buf buf' i x v :
  slot buf i = slot buf' i -> slot_image buf i x v = slot_image buf' i x v.
Proof. intros Hs. unfold slot_image. by rewrite !take_drop_slot, Hs by lia. Qed.

Lemma slot_image_fields buf i x v :
  (st * i + st <= length buf)%nat ->
  take 4 (drop 0 (slot_image buf i x v)) = le_bytes 4 x /\
  take 4 (drop 4 (slot_image buf i x v)) = take 4 (drop (st * i + 4) buf) /\
  take 8 (drop 8 (slot_image buf i x v)) = le_bytes 8 v /\
  take (st - 16) (drop 16 (slot_image buf i x v)) = take (st - 16) (drop (st * i + 16) buf).
Proof.
  intros Hl. unfold slot_image.
  assert (length (take 4 (drop (st * i + 4) buf)) = 4%nat) as Hp by (rewrite length_take, length_drop; lia).
  assert (length (take (st - 16) (drop (st * i + 16) buf)) = st - 16)%nat as Ht
    by (rewrite length_take, length_drop; lia).
  pose proof (length_le_bytes 4 x) as H4. pose proof (length_le_bytes 8 v) as H8.
  split_and!.
  - rewrite drop_0. by apply take_app_length'.
  - rewrite drop_app_length' by done. by apply take_app_length'.
  - rewrite app_assoc, drop_app_length' by (rewrite length_app; lia). by apply take_app_length'.
  - rewrite !app_assoc, drop_app_length' by (rewrite !length_app; lia). by apply firstn_all2; rewrite Ht.
Qed.

(** A buffer whose first elements have been filled from [r]. *)
Definition filled (heap buf : list Z) (r : registry) : Prop :=
  length buf = length heap /\
  forall i, slot buf i =
    match r !! i with
    | Some (x, v) => slot_image heap i x v
    | None => slot heap i
    end.

Lemma filled_nil heap : filled heap heap [].
Proof. done. Qed.

Lemma filled_snoc heap buf r x v :
  filled heap buf r -> (st * length r + st <= length heap)%nat ->
  filled heap (store_entry buf (length r) x v) (r ++ [(x, v)]).
Proof.
  intros [Hl Hs] Hroom. split; [by rewrite length_store_entry by lia|]. intros i.
  destruct (decide (i = length r)) as [->|Hi].
  - rewrite lookup_app_r, Nat.sub_diag by lia. cbn. rewrite slot_store_eq by lia.
    apply slot_image_ext. rewrite Hs. by rewrite (proj2 (lookup_ge_None r (length r))) by lia.
  - rewrite slot_store_ne, Hs by lia. destruct (decide (i < length r)%nat).
    + by rewrite lookup_app_l by lia.
    + rewrite lookup_app_r, !(proj2 (lookup_ge_None _ _)); [done| |lia..]. cbn. lia.
Qed.

(** What the array looks like in user memory: [r] at [u], of which everything
    but the fields comes from the kernel allocation [heap]. *)
Definition returned_entries (m : gmap Z Z) (u : Z) (r : registry) (heap : list Z) : Prop :=
  forall i x v, r !! i = Some (x, v) ->
    let e := u + Z.of_nat (st * i) in
    read_bytes m e 4 = le_bytes 4 x /\
    read_bytes m (e + 4) 4 = take 4 (drop (st * i + 4) heap) /\
    read_bytes m (e + 8) 8 = le_bytes 8 v /\
    read_bytes m (e + 16) (st - 16) = take (st - 16) (drop (st * i + 16) heap).

Lemma filled_returned m u heap buf r :
  filled heap buf r -> (st * length r <= length heap)%nat ->
  returned_entries (write_bytes m u (take (st * length r) buf)) u r heap.
Proof.
  intros [Hl Hslot] Hh i x v Hi e.
  assert (i < length r)%nat as Hlt by (by eapply lookup_lt_Some).
  assert (st * i + st <= st * length r)%nat as Hin by nia.
  specialize (Hslot i). rewrite Hi in Hslot.
  destruct (slot_image_fields heap i x v) as (H4 & Hp & H8 & Ht); [lia|].
  assert (forall off k, (off + k <= st)%nat ->
    read_bytes (write_bytes m u (take (st * length r) buf)) (e + Z.of_nat off) k
    = take k (drop off (slot_image heap i x v))) as Hread.
  { intros off k Hok. rewrite <- Hslot, <- take_drop_slot by done.
    replace (e + Z.of_nat off) with (u + Z.of_nat (st * i + off)) by (unfold e; lia).
    rewrite read_write_sub by (rewrite length_take; lia).
    apply list_eq. intros j. rewrite !lookup_take. case_decide; [|done].
    rewrite !lookup_drop. apply lookup_take_lt. lia. }
  rewrite <- H4, <- Hp, <- H8, <- Ht. split_and!.
  - rewrite <- (Hread 0%nat 4%nat) by lia. f_equal. lia.
  - apply (Hread 4%nat 4%nat). lia.
  - apply (Hread 8%nat 8%nat). lia.
  - apply (Hread 16%nat (st - 16)%nat). lia.
Qed.

Lemma returned_entries_frame m u r heap a bs :
  a + Z.of_nat (length bs) <= u \/ u + Z.of_nat (st * length r) <= a ->
  returned_entries m u r heap -> returned_entries (write_bytes m a bs) u r heap.
Proof.
  intros Ha Hr i x v Hi e. destruct (Hr i x v Hi) as (E1 & E2 & E3 & E4).
  assert (i < length r)%nat by (by eapply lookup_lt_Some).
  assert (st * i + st <= st * length r)%nat by nia. unfold e in *.
  split_and!; [rewrite <- E1|rewrite <- E2|rewrite <- E3|rewrite <- E4]; apply read_bytes_frame; lia.
Qed.

End Array.

(** ** The copies to user memory *)

(** User memory outside of the [len] bytes at [u] and the counter is not touched. *)
Definition user_frame (m m' : gmap Z Z) (u len pr : Z) : Prop :=
  forall a, a < u \/ u + len <= a -> a < pr \/ pr + 4 <= a -> m' !! a = m !! a.

Lemma copy_frames `{UserArch} m u bs pr m1 left1 cs m2 left2 :
  length cs = 4%nat ->
  copy_to_user m u bs = (m1, left1) -> copy_to_user m1 pr cs = (m2, left2) ->
  user_frame m m1 u (blen bs) pr /\ user_frame m m2 u (blen bs) pr.
Proof.
  intros Hc H1' H2'.
  assert (forall a, a < u \/ u + blen bs <= a -> m1 !! a = m !! a) as Hm1.
  { intros a Ha. change m1 with ((m1, left1).1). rewrite <- H1'. by apply copy_to_user_frame. }
  split; intros a Ha Hp; [by apply Hm1|]. rewrite <- Hm1 by done.
  change m2 with ((m2, left2).1). rewrite <- H2'. apply copy_to_user_frame. unfold blen. lia.
Qed.
