(* ===== verification/MemLimit.v ===== *)
(** The memory-limit registry: [kernel/usac/taro_mani_mem.c].

    Four syscalls keep a list of (pid, limit) entries behind a mutex and set
    [RLIMIT_AS] of the limited process.  The state is the kernel state, the live
    [memory_limitation] objects, the list and the mutex. *)

From S2P Require Import Prelude Uaccess Kernel KList Registry.

(** ** State *)
Record memory_limitation := mkLimitation { pid : Z; memory_limit : Z }.
#[global] Instance eta_limitation : Eta memory_limitation := fun e => mkLimitation (pid e) (memory_limit e).

Record mlstate (L : Type) := mkMl {
  ml_k : kernel;
  ml_nodes : gmap Z memory_limitation;   (* live kmalloc'ed entries *)
  ml_list : L;                           (* memory_limit_list *)
  ml_mutex : bool;                       (* memory_limit_mutex *)
}.
#[global] Arguments mkMl {L}.
#[global] Arguments ml_k {L}.
#[global] Arguments ml_nodes {L}.
#[global] Arguments ml_list {L}.
#[global] Arguments ml_mutex {L}.
#[global] Instance eta_ml {L} : Eta (mlstate L) := fun s =>
  mkMl (ml_k s) (ml_nodes s) (ml_list s) (ml_mutex s).

Section Ops.
Context `{UserArch} `{KernelEnv} `{Slab} {L : Type} `{KList L}.
(* pid and memory_limit of the bytes that precede the list head in memory:
   what container_of() of the head itself reads *)
Context (head_container : memory_limitation).

Notation M := (Kern (mlstate L)).

(** A routine of the kernel proper. *)
Definition kern {A} (m : Kern kernel A) : M A :=
  zoom ml_k (fun k s => s <| ml_k := k |>) m.

Definition mutex_lock : M unit := fun s =>
  if ml_mutex s then Crash Deadlock else Done tt (s <| ml_mutex := true |>).
Definition mutex_unlock : M unit := modify (fun s => s <| ml_mutex := false |>).

Definition entry_at (p : Z) : M memory_limitation :=
  e ← gets (fun s => ml_nodes s !! p); deref UseAfterFree e.
Definition put_entry (p : Z) (e : memory_limitation) : M unit :=
  modify (fun s => s <| ml_nodes ::= <[p := e]> |>).
Definition kfree (p : Z) : M unit := modify (fun s => s <| ml_nodes ::= delete p |>).
(** The list operations touch the list_head inside the entry. *)
Definition list_add_tail_entry (p : Z) : M unit :=
  _ ← entry_at p; modify (fun s => s <| ml_list ::= list_add_tail p |>).
Definition list_del_entry (p : Z) : M unit :=
  _ ← entry_at p; modify (fun s => s <| ml_list ::= list_del p |>).

(** [list_for_each_entry] up to the first entry of [process_pid]. *)
Fixpoint find_entry (l : list Z) (process_pid : Z) : M (option Z) :=
  match l with
  | [] => mret None
  | p :: l =>
      temp ← entry_at p;
      if pid temp =? process_pid then mret (Some p) else find_entry l process_pid
  end.

Definition sizeof_entry : Z := 32.

(** [task->signal->rlim[RLIMIT_AS] = rl]. *)
Definition set_rlimit_as (task : Z) (rl : rlimit) : Kern kernel unit :=
  t ← task_at task;
  s ← task_signal t;
  _ ← rlim_at s RLIMIT_AS;
  put_signal (t_signal t) (s <| rlim ::= <[Z.to_nat RLIMIT_AS := rl]> |>).

(** ** Syscall 1 *)
Definition taro_add_memory_limit (process_pid memory_limit : Z) : M Z :=
  if (process_pid <? 0) || (memory_limit <=? 0) then
    kern (pr_info "taro_add_memory_limit: PID inválido (%d) o límite inválido (%zu)." [process_pid; memory_limit]);;
    mret (- EINVAL)
  else
  task ← kern (find_task_by_vpid process_pid);
  match task with
  | None =>
      kern (pr_info "taro_add_memory_limit: Proceso no encontrado (PID=%d)." [process_pid]);;
      mret (- ESRCH)
  | Some task =>
      mutex_lock;;
      l ← gets ml_list;
      temp ← find_entry (list_seq l) process_pid;
      match temp with
      | Some _ =>
          kern (pr_info "taro_add_memory_limit: PID %d ya está en la lista." [process_pid]);;
          mutex_unlock;;
          mret (- 101)
      | None =>
          entry ← gets (fun s => kmalloc (dom (ml_nodes s)) sizeof_entry);
          match entry with
          | None =>
              kern (pr_info "taro_add_memory_limit: Sin memoria para crear nodo (PID=%d)." [process_pid]);;
              mutex_unlock;;
              mret (- ENOMEM)
          | Some entry =>
              put_entry entry (mkLimitation process_pid memory_limit);;
              list_add_tail_entry entry;;
              kern (pr_info "taro_add_memory_limit: Nodo agregado (PID=%d, Limit=%zu bytes)." [process_pid; memory_limit]);;
              let rl := mkRlimit memory_limit memory_limit in
              kern (get_task_struct task);;
              refused ← kern (gets (fun k => security_task_setrlimit k task RLIMIT_AS rl));
              if truthy refused then
                kern (pr_info "taro_add_memory_limit: Fallo al aplicar RLIMIT_AS (PID=%d)." [process_pid]);;
                kfree entry;;
                list_del_entry entry;;
                kern (put_task_struct task);;
                mutex_unlock;;
                mret (- EPERM)
              else
                kern (set_rlimit_as task rl);;
                kern (pr_info "taro_add_memory_limit: RLIMIT_AS aplicado correctamente (PID=%d, Limit=%zu bytes)." [process_pid; memory_limit]);;
                kern (put_task_struct task);;
                mutex_unlock;;
                mret 0
          end
      end
  end.

(** ** Syscall 2 *)

(** An element of the kernel buffer: [pid_t pid], four bytes of padding that are
    never written, [size_t memory_limit]. *)
Definition sizeof_k : Z := 16.

Definition store_k (buf : list Z) (count : Z) (e : memory_limitation) : list Z :=
  let off := Z.to_nat (count * sizeof_k) in
  write_at (write_at buf off (le_bytes 4 (pid e))) (off + 8) (le_bytes 8 (memory_limit e)).

(** The traversal fills the buffer and stops at [max_entries]; it returns the
    cursor it stops at, [None] for the list head. *)
Fixpoint fill_buffer (l : list Z) (max_entries count : Z) (k_buffer : list Z)
  : M (Z * list Z * option Z) :=
  match l with
  | [] => mret (count, k_buffer, None)
  | p :: l =>
      if max_entries <=? u64 count then mret (count, k_buffer, Some p)
      else
        temp ← entry_at p;
        fill_buffer l max_entries (s32 (count + 1)) (store_k k_buffer count temp)
  end.

Definition taro_get_memory_limits (u_processes_buffer max_entries processes_returned : Z) : M Z :=
  if (u_processes_buffer =? 0) || (processes_returned =? 0) || (max_entries <=? 0)
  then mret (- EINVAL)
  else
  match kmalloc_array max_entries sizeof_k with
  | None => mret (- ENOMEM)
  | Some k_buffer =>
      mutex_lock;;
      l ← gets ml_list;
      '(count, k_buffer, temp) ← fill_buffer (list_seq l) max_entries 0 k_buffer;
      mutex_unlock;;
      uncopied ← kern (k_copy_to_user u_processes_buffer (take (Z.to_nat (u64 (count * sizeof_k))) k_buffer));
      if truthy uncopied then mret (- EFAULT)
      else
      uncopied ← kern (k_copy_to_user processes_returned (le_bytes 4 count));
      if truthy uncopied then mret (- EFAULT)
      else
      e ← match temp with
          | Some p => entry_at p
          | None => mret head_container
          end;
      kern (pr_info "taro_get_memory_limits: Nodo %d - PID=%d, Limit=%zu" [count; pid e; memory_limit e]);;
      mret 0
  end.

(** ** Syscall 3 *)

(** [task->mm && task->mm->total_vm > (memory_limit >> PAGE_SHIFT)]. *)
Definition exceeds_limit (task memory_limit : Z) : Kern kernel bool :=
  t ← task_at task;
  if truthy (t_mm t) then
    mm ← mm_at (t_mm t);
    mret (Z.shiftr memory_limit PAGE_SHIFT <? total_vm mm)
  else mret false.

Definition taro_update_memory_limit (process_pid new_limit : Z) : M Z :=
  if (process_pid <? 0) || (new_limit <=? 0) then
    kern (pr_info "Syscall taro_update_memory_limit called1: PID=%d, New Limit=%zu bytes" [process_pid; new_limit]);;
    mret (- EINVAL)
  else
  task ← kern (find_task_by_vpid process_pid);
  match task with
  | None => mret (- ESRCH)
  | Some task =>
      mutex_lock;;
      kern (pr_info "Syscall taro_update_memory_limit called2: PID=%d, New Limit=%zu bytes" [process_pid; new_limit]);;
      l ← gets ml_list;
      temp ← find_entry (list_seq l) process_pid;
      match temp with
      | None => mutex_unlock;; mret (- 102)
      | Some temp =>
          over ← kern (exceeds_limit task new_limit);
          if (over : bool) then mutex_unlock;; mret (- 100)
          else
          e ← entry_at temp;
          put_entry temp (e <| memory_limit := new_limit |>);;
          let rl := mkRlimit new_limit new_limit in
          kern (get_task_struct task);;
          refused ← kern (gets (fun k => security_task_setrlimit k task RLIMIT_AS rl));
          if truthy refused then
            kern (put_task_struct task);;
            mutex_unlock;;
            mret (- EPERM)
          else
            kern (set_rlimit_as task rl);;
            kern (put_task_struct task);;
            mutex_unlock;;
            kern (pr_info "Syscall taro_update_memory_limit called: PID=%d, New Limit=%zu bytes" [process_pid; new_limit]);;
            mret 0
      end
  end.

(** ** Syscall 4 *)
Definition taro_remove_memory_limit (process_pid : Z) : M Z :=
  if process_pid <=? 0 then
    kern (pr_info "taro_remove_memory_limit1: PID inválido (%d)." [process_pid]);;
    mret (- EINVAL)
  else
  mutex_lock;;
  l ← gets ml_list;
  temp ← find_entry (list_seq l) process_pid;
  match temp with
  | Some temp =>
      list_del_entry temp;;
      kfree temp;;
      mutex_unlock;;
      kern (pr_info "taro_remove_memory_limit2: PID %d eliminado correctamente." [process_pid]);;
      mret 0
  | None =>
      mutex_unlock;;
      kern (pr_info "taro_remove_memory_limit3: PID %d no encontrado en la lista." [process_pid]);;
      mret (- 102)
  end.

End Ops.

(** ** What the syscalls promise *)

Definition add_spec (found room : bool) (x v : Z) (r : registry) : Z * registry :=
  if (x <? 0) || (v <=? 0) then (- EINVAL, r)
  else if negb found then (- ESRCH, r)
  else if has_pid r x then (- 101, r)
  else if negb room then (- ENOMEM, r)
  else (0, r ++ [(x, v)]).

Definition update_spec (found over : bool) (x v : Z) (r : registry) : Z * registry :=
  if (x <? 0) || (v <=? 0) then (- EINVAL, r)
  else if negb found then (- ESRCH, r)
  else if negb (has_pid r x) then (- 102, r)
  else if over then (- 100, r)
  else (0, set_limit r x v).

Definition remove_spec (x : Z) (r : registry) : Z * registry :=
  if x <=? 0 then (- EINVAL, r)
  else if has_pid r x then (0, drop_pid r x)
  else (- 102, r).

Section Refinement.
Context `{UserArch} `{KernelEnv} `{Slab} {L : Type} `{KList L}.
Context `{!SlabOk} `{!KListOk L}.
Context (head_container : memory_limitation).
Implicit Types (s : mlstate L) (x v : Z).

Definition entries_of (nodes : gmap Z memory_limitation) (l : list Z) : list memory_limitation :=
  omap (fun p => nodes !! p) l.
Definition limits (s : mlstate L) : registry :=
  map (fun e => (pid e, memory_limit e)) (entries_of (ml_nodes s) (list_seq (ml_list s))).

(** The invariant: the list was built by the list operations, its nodes are
    exactly the live entries, no pid occurs twice, and the mutex is free. *)
Record ml_wf (s : mlstate L) : Prop := {
  mw_kernel : kernel_wf (ml_k s);
  mw_list : list_wf (ml_list s);
  mw_nodes p : p ∈ list_seq (ml_list s) <-> is_Some (ml_nodes s !! p);
  mw_pids : NoDup (map fst (limits s));
  mw_mutex : ml_mutex s = false;
}.

(** The node of pid [x], found the way the syscalls search. *)
Definition node_of (nodes : gmap Z memory_limitation) (l : list Z) (x : Z) : option Z :=
  List.find (fun p => if nodes !! p is Some e then pid e =? x else false) l.

Lemma find_entry_run s l x :
  Forall (fun p => is_Some (ml_nodes s !! p)) l ->
  find_entry l x s = Done (node_of (ml_nodes s) l x) s.
Proof.
  induction 1 as [|p l [e He] _ IH]; [done|]. cbn [find_entry node_of List.find].
  unfold entry_at. kernel_unfold. rewrite He. destruct (pid e =? x); [done|]. apply IH.
Qed.

Lemma entries_fresh nodes l p e :
  p ∉ l -> entries_of (<[p := e]> nodes) l = entries_of nodes l.
Proof.
  intros Hp. unfold entries_of. induction l as [|q l IH]; [done|]. cbn.
  rewrite not_elem_of_cons in Hp. destruct Hp as [Hq Hp].
  rewrite lookup_insert_ne by done. by rewrite IH.
Qed.

Lemma entries_delete nodes l p :
  p ∉ l -> entries_of (delete p nodes) l = entries_of nodes l.
Proof.
  intros Hp. unfold entries_of. induction l as [|q l IH]; [done|]. cbn.
  rewrite not_elem_of_cons in Hp. destruct Hp as [Hq Hp].
  rewrite lookup_delete_ne by done. by rewrite IH.
Qed.

Lemma entries_app nodes l l' : entries_of nodes (l ++ l') = entries_of nodes l ++ entries_of nodes l'.
Proof. apply omap_app. Qed.

(** The search agrees with the abstract registry. *)
Lemma node_of_has_pid s x :
  ml_wf s ->
  match node_of (ml_nodes s) (list_seq (ml_list s)) x with
  | Some p => p ∈ list_seq (ml_list s) /\ has_pid (limits s) x = true /\
              exists e, ml_nodes s !! p = Some e /\ pid e = x
  | None => has_pid (limits s) x = false
  end.
Proof.
  intros Hwf. unfold limits.
  assert (forall p, p ∈ list_seq (ml_list s) -> is_Some (ml_nodes s !! p)) as Hlive
    by (intros p; apply Hwf).
  clear Hwf. induction (list_seq (ml_list s)) as [|p l IH]; [done|].
  unfold node_of, entries_of in *. cbn [List.find omap list_omap].
  destruct (Hlive p) as [e He]; [set_solver|]. cbn. rewrite He. cbn.
  destruct (Z.eqb_spec (pid e) x) as [Hx|Hx].
  - split_and!; [set_solver|done|eauto].
  - cbn. specialize (IH ltac:(set_solver)). case_match; [|done].
    destruct IH as (? & ? & ?). split_and!; [set_solver|done..].
Qed.

Lemma live_all s : ml_wf s -> Forall (fun p => is_Some (ml_nodes s !! p)) (list_seq (ml_list s)).
Proof. intros Hwf. apply Forall_forall. intros p. by apply (mw_nodes s Hwf). Qed.

(** *** The invariant under the state changes the syscalls make *)

Lemma ml_wf_k s k' b :
  ml_wf s -> same_objects (ml_k s) k' -> b = false ->
  ml_wf (mkMl k' (ml_nodes s) (ml_list s) b).
Proof. intros [] Hk ->. split; try done. by eapply kernel_wf_same. Qed.

Lemma ml_wf_add s k' p x v :
  ml_wf s -> kernel_wf k' -> p ∉ dom (ml_nodes s) -> has_pid (limits s) x = false ->
  let s' := mkMl k' (<[p := mkLimitation x v]> (ml_nodes s)) (list_add_tail p (ml_list s)) false in
  ml_wf s' /\ limits s' = limits s ++ [(x, v)].
Proof.
  intros Hwf Hk Hp Hx s'.
  assert (p ∉ list_seq (ml_list s)) as Hseq
    by (intros Hin%(mw_nodes s Hwf); by apply Hp, elem_of_dom).
  assert (limits s' = limits s ++ [(x, v)]) as Hlim.
  { unfold s', limits. cbn. rewrite list_add_tail_seq by (done || apply Hwf).
    rewrite entries_app, entries_fresh, map_app by done. f_equal.
    cbn. by rewrite lookup_insert_eq. }
  split; [|done]. split; try done.
  - cbn. apply list_add_tail_wf; [apply Hwf|done].
  - intros q. cbn. rewrite list_add_tail_seq by (done || apply Hwf).
    rewrite elem_of_app, list_elem_of_singleton, (mw_nodes s Hwf), lookup_insert.
    case_decide; naive_solver.
  - rewrite Hlim, map_app. apply NoDup_app. split_and!; [apply Hwf| |apply NoDup_singleton].
    intros y Hy ->%list_elem_of_singleton. apply has_pid_elem in Hy. cbn in Hy. congruence.
Qed.

Lemma limits_unique s p q e e' :
  ml_wf s -> ml_nodes s !! p = Some e -> ml_nodes s !! q = Some e' -> pid e = pid e' -> p = q.
Proof.
  intros Hwf Hp Hq He. pose proof (mw_pids s Hwf) as Hnd. unfold limits in Hnd.
  assert (p ∈ list_seq (ml_list s)) as Pin by (apply Hwf; eauto).
  assert (q ∈ list_seq (ml_list s)) as Qin by (apply Hwf; eauto).
  pose proof (list_wf_nodup _ (mw_list s Hwf)) as Hseq.
  apply list_elem_of_split in Pin as (l1 & l2 & Hl). rewrite Hl in *. clear Hl.
  rewrite entries_app, map_app, map_app in Hnd.
  assert (entries_of (ml_nodes s) (p :: l2) = e :: entries_of (ml_nodes s) l2) as Hc
    by (unfold entries_of; cbn; by rewrite Hp).
  rewrite Hc in Hnd. cbn in Hnd.
  assert (forall l, q ∈ l -> pid e ∈ map fst (map (fun e => (pid e, memory_limit e)) (entries_of (ml_nodes s) l))) as Hmem.
  { intros l Hin. rewrite map_map, He. apply list_elem_of_In, in_map_iff. exists e'. split; [done|].
    apply list_elem_of_In, list_elem_of_omap. eauto. }
  apply NoDup_app in Hnd as (_ & Hd & [Hn _]%NoDup_cons).
  destruct (decide (p = q)) as [|Hne]; [done|].
  apply elem_of_app in Qin as [Q|[->|Q]%elem_of_cons]; [|done|].
  - exfalso. apply (Hd (pid e)); [by apply Hmem|set_solver].
  - exfalso. apply Hn. by apply Hmem.
Qed.

Lemma ml_wf_remove s k' p e :
  ml_wf s -> kernel_wf k' -> ml_nodes s !! p = Some e ->
  let s' := mkMl k' (delete p (ml_nodes s)) (list_del p (ml_list s)) false in
  ml_wf s' /\ limits s' = drop_pid (limits s) (pid e).
Proof.
  intros Hwf Hk He s'.
  assert (p ∈ list_seq (ml_list s)) as Hin by (apply Hwf; eauto).
  assert (limits s' = drop_pid (limits s) (pid e)) as Hlim.
  { unfold s', limits. cbn. rewrite list_del_seq by (done || apply Hwf).
    assert (forall q, q ∈ list_seq (ml_list s) -> is_Some (ml_nodes s !! q)) as Hl
      by (intros q; apply Hwf).
    clear Hin s'. induction (list_seq (ml_list s)) as [|q l IH]; [done|].
    destruct (Hl q) as [e' He']; [set_solver|].
    unfold entries_of, drop_pid in *. cbn [omap list_omap]. rewrite He'. cbn [map].
    destruct (decide (q = p)) as [->|Hne].
    - simplify_eq. rewrite filter_cons_False by naive_solver.
      rewrite filter_cons_False by (cbn; naive_solver). apply IH. set_solver.
    - rewrite filter_cons_True by done. cbn [omap list_omap].
      rewrite lookup_delete_ne, He' by done. cbn [map].
      rewrite filter_cons_True; [f_equal; apply IH; set_solver|].
      cbn. intros Hpid. apply Hne. by eapply limits_unique. }
  split; [|done]. split; try done.
  - cbn. apply list_del_wf; [apply Hwf|done].
  - intros q. cbn. rewrite list_del_seq by (done || apply Hwf).
    rewrite list_elem_of_filter, (mw_nodes s Hwf), lookup_delete. case_decide; naive_solver.
  - rewrite Hlim. apply NoDup_drop_pid, Hwf.
Qed.

Lemma ml_wf_update s k' p e v :
  ml_wf s -> kernel_wf k' -> ml_nodes s !! p = Some e ->
  let s' := mkMl k' (<[p := e <| memory_limit := v |>]> (ml_nodes s)) (ml_list s) false in
  ml_wf s' /\ limits s' = set_limit (limits s) (pid e) v.
Proof.
  intros Hwf Hk He s'.
  assert (limits s' = set_limit (limits s) (pid e) v) as Hlim.
  { unfold s', limits. cbn.
    assert (forall q, q ∈ list_seq (ml_list s) -> is_Some (ml_nodes s !! q)) as Hl
      by (intros q; apply Hwf).
    clear s'. induction (list_seq (ml_list s)) as [|q l IH]; [done|].
    destruct (Hl q) as [e' He']; [set_solver|].
    unfold entries_of, set_limit in *. cbn [omap list_omap].
    destruct (decide (p = q)) as [->|Hne].
    - rewrite lookup_insert_eq, He'. simplify_eq. cbn [map fst pid]. rewrite Z.eqb_refl.
      f_equal. apply IH. set_solver.
    - rewrite lookup_insert_ne, He' by done. cbn [map fst].
      destruct (Z.eqb_spec (pid e') (pid e)) as [Hp|_]; [|f_equal; apply IH; set_solver].
      exfalso. apply Hne. by eapply limits_unique. }
  split; [|done]. split; try done.
  - apply Hwf.
  - intros q. cbn. rewrite (mw_nodes s Hwf), lookup_insert. case_decide; naive_solver.
  - rewrite Hlim, map_fst_set_limit. apply Hwf.
Qed.

Definition with_rlimit_as (k : kernel) (task : Z) (rl : rlimit) : kernel :=
  with_rlimit k task RLIMIT_AS rl.

(** *** Refinement *)

Definition found (s : mlstate L) (x : Z) : bool := if k_vpids (ml_k s) !! x is Some _ then true else false.
Definition room (s : mlstate L) : bool := 
  if kmalloc (dom (ml_nodes s)) sizeof_entry is Some _ then true else false.

Lemma wp_kern {A} (m : Kern kernel A) (Q : A -> mlstate L -> Prop) s :
  wp (kern m) Q s <-> wp m (fun a k => Q a (s <| ml_k := k |>)) (ml_k s).
Proof. unfold wp, kern, zoom. by destruct (m (ml_k s)). Qed.

Lemma live_task k nr p :
  kernel_wf k -> k_vpids k !! nr = Some p ->
  exists t sg r, k_tasks k !! p = Some t /\ k_signals k !! t_signal t = Some sg /\
    rlim sg !! Z.to_nat RLIMIT_AS = Some r /\ 1 <= usage t /\ 
    (t_mm t = 0 \/ is_Some (k_mms k !! t_mm t)).
Proof.
  intros Hk Hv. destruct (kw_vpids k Hk _ _ Hv) as [t Ht].
  destruct (kw_tasks k Hk _ _ Ht) as [Hu [sg Hsg] Hm].
  destruct (lookup_lt_is_Some_2 (rlim sg) (Z.to_nat RLIMIT_AS)) as [r Hr].
  { rewrite (kw_rlim k Hk _ _ Hsg). unfold RLIMIT_AS. lia. }
  by exists t, sg, r.
Qed.

(** What a call of [taro_add_memory_limit] or [taro_update_memory_limit] that
    returns [r] does to the kernel: on success the limit of the process is set. *)
Definition limited_kernel (k : kernel) (x v r : Z) : kernel :=
  match k_vpids k !! x with
  | Some task => if r =? 0 then with_rlimit_as k task (mkRlimit v v) else k
  | None => k
  end.

(** Lookups a call makes outside of an RCU read-side section. *)
Definition bare_lookups (k : kernel) (valid : bool) : Z :=
  if valid && negb (0 <? k_rcu k) then Z.succ (k_bare_lookups k) else k_bare_lookups k.

Record kernel_effect (k k0 k' : kernel) (valid : bool) : Prop := {
  ke_objects : same_objects k0 k';
  ke_user : k_user k' = k_user k;
  ke_bare : k_bare_lookups k' = bare_lookups k valid;
}.

(** Log entries and bare lookups do not matter to the invariant. *)
Ltac finish_effect :=
  split; [by repeat split | done | unfold bare_lookups; cbn; repeat case_match; done].
Ltac quiet Hwf :=
  match type of Hwf with
  | ml_wf ?s =>
      split_and!; [apply (ml_wf_k s); [done | by repeat split | apply Hwf || done] | try done |
                   unfold limited_kernel; try case_match; finish_effect]
  end.

(** Run the routine one primitive at a time. *)
Ltac run :=
  unfold kern, pr_info, find_task_by_vpid, mutex_lock, mutex_unlock, put_entry, kfree,
    list_add_tail_entry, list_del_entry, entry_at, get_task_struct, put_task_struct,
    set_rlimit_as, task_at, task_signal, signal_at, mm_at, rlim_at,
    put_task, put_signal;
  kernel_unfold; cbn.

Lemma same_objects_install k k' task t sg rl :
  k_tasks k !! task = Some t -> k_signals k !! t_signal t = Some sg ->
  same_objects (with_rlimit_as k task rl) k' <->
  same_objects (k <| k_signals ::= <[t_signal t := sg <| rlim ::= <[Z.to_nat RLIMIT_AS := rl]> |>]> |>) k'.
Proof. intros Ht Hsg. unfold with_rlimit_as, with_rlimit. by rewrite Ht, Hsg. Qed.

Lemma add_behaviour s x v :
  ml_wf s -> (forall k t rl, security_task_setrlimit k t RLIMIT_AS rl = 0) ->
  wp (taro_add_memory_limit x v)
     (fun r s' => ml_wf s' /\
        (r, limits s') = add_spec (found s x) (room s) x v (limits s) /\
        kernel_effect (ml_k s) (limited_kernel (ml_k s) x v r) (ml_k s')
          (negb ((x <? 0) || (v <=? 0)))) s.
Proof.
  intros Hwf Hgrant. unfold taro_add_memory_limit, add_spec, found, room.
  destruct ((x <? 0) || (v <=? 0)); [quiet Hwf|]. run.
  destruct (k_vpids (ml_k s) !! x) as [task|] eqn:Hv; cbn; [|quiet Hwf].
  destruct (live_task _ _ _ (mw_kernel s Hwf) Hv) as (t & sg & r & Ht & Hsg & Hr & Hu & _).
  rewrite (mw_mutex s Hwf), find_entry_run by (apply (live_all s Hwf)). cbn.
  pose proof (node_of_has_pid s x Hwf) as Hnode.
  destruct (node_of (ml_nodes s) (list_seq (ml_list s)) x) as [p|].
  { destruct Hnode as (_ & -> & _). quiet Hwf. }
  rewrite Hnode. cbn.
  destruct (kmalloc (dom (ml_nodes s)) sizeof_entry) as [p|] eqn:Hp; cbn; [|quiet Hwf].
  rewrite lookup_insert_eq. cbn. rewrite Ht. cbn. rewrite Hgrant. cbn.
  rewrite lookup_insert_eq. cbn. rewrite Hsg. cbn. rewrite Hr. cbn. rewrite lookup_insert_eq. cbn.
  destruct (Z.eqb_spec (Z.succ (usage t)) 1); [lia|]. cbn.
  match goal with |- ml_wf (mkMl ?k _ _ _) /\ _ => set (k' := k) end.
  assert (same_objects (with_rlimit_as (ml_k s) task (mkRlimit v v)) k') as Hk'.
  { rewrite same_objects_install by done. repeat split. by apply (task_usage_roundtrip (ml_k s)). }
  edestruct (ml_wf_add s k' p x v) as [Hs' Hlim];
    [done| |by apply kmalloc_fresh in Hp as [? _]|exact Hnode|].
  { eapply kernel_wf_same, kernel_wf_with_rlimit, Hwf. exact Hk'. }
  split_and!; [apply Hs'|f_equal; apply Hlim|]. unfold limited_kernel. rewrite Hv.
  split; [exact Hk' | done | unfold bare_lookups; cbn; by case_match].
Qed.

Lemma remove_behaviour s x :
  ml_wf s ->
  wp (taro_remove_memory_limit x)
     (fun r s' => ml_wf s' /\ (r, limits s') = remove_spec x (limits s) /\
        kernel_effect (ml_k s) (ml_k s) (ml_k s') false) s.
Proof.
  intros Hwf. unfold taro_remove_memory_limit, remove_spec.
  destruct (x <=? 0); [quiet Hwf|]. run.
  rewrite (mw_mutex s Hwf), find_entry_run by (apply (live_all s Hwf)). cbn.
  pose proof (node_of_has_pid s x Hwf) as Hnode.
  destruct (node_of (ml_nodes s) (list_seq (ml_list s)) x) as [p|]; cbn; [|rewrite Hnode; quiet Hwf].
  destruct Hnode as (Hin & -> & e & He & <-). rewrite He. cbn.
  match goal with |- ml_wf (mkMl ?k _ _ _) /\ _ => set (k' := k) end.
  edestruct (ml_wf_remove s k' p e) as [Hs' Hlim]; [done| |done|].
  { eapply kernel_wf_same, Hwf. by repeat split. }
  split_and!; [apply Hs'|f_equal; apply Hlim|finish_effect].
Qed.

Definition over_limit (s : mlstate L) (x v : Z) : bool :=
  match k_vpids (ml_k s) !! x ≫= fun p => k_tasks (ml_k s) !! p with
  | Some t =>
      truthy (t_mm t) &&
      match k_mms (ml_k s) !! t_mm t with
      | Some mm => Z.shiftr v PAGE_SHIFT <? total_vm mm
      | None => false
      end
  | None => false
  end.

Lemma exceeds_limit_run s x v p t :
  ml_wf s -> k_vpids (ml_k s) !! x = Some p -> k_tasks (ml_k s) !! p = Some t ->
  forall k, same_objects (ml_k s) k -> exceeds_limit p v k = Done (over_limit s x v) k.
Proof.
  intros Hwf Hv Ht k (Et & _ & Em & _). unfold over_limit, exceeds_limit, task_at, mm_at.
  kernel_unfold. rewrite Hv. cbn. rewrite Et, Ht. cbn.
  destruct (tw_mm _ _ (kw_tasks _ (mw_kernel s Hwf) _ _ Ht)) as [->|[mm Hmm]]; [done|].
  destruct (truthy (t_mm t)); [|done]. cbn. by rewrite Em, Hmm.
Qed.

Lemma update_behaviour s x v :
  ml_wf s -> (forall k t rl, security_task_setrlimit k t RLIMIT_AS rl = 0) ->
  wp (taro_update_memory_limit x v)
     (fun r s' => ml_wf s' /\
        (r, limits s') = update_spec (found s x) (over_limit s x v) x v (limits s) /\
        kernel_effect (ml_k s) (limited_kernel (ml_k s) x v r) (ml_k s')
          (negb ((x <? 0) || (v <=? 0)))) s.
Proof.
  intros Hwf Hgrant. unfold taro_update_memory_limit, update_spec, found.
  destruct ((x <? 0) || (v <=? 0)); [quiet Hwf|].
  destruct (k_vpids (ml_k s) !! x) as [task|] eqn:Hv;
    [|run; rewrite Hv; cbn; quiet Hwf].
  destruct (live_task _ _ _ (mw_kernel s Hwf) Hv) as (t & sg & r & Ht & Hsg & Hr & Hu & _).
  pose proof (exceeds_limit_run s x v _ _ Hwf Hv Ht) as Hover.
  run. rewrite Hv. cbn.
  rewrite (mw_mutex s Hwf). cbn. rewrite find_entry_run by (apply (live_all s Hwf)). cbn.
  pose proof (node_of_has_pid s x Hwf) as Hnode.
  destruct (node_of (ml_nodes s) (list_seq (ml_list s)) x) as [p|]; cbn; [|rewrite Hnode; quiet Hwf].
  destruct Hnode as (_ & -> & e & He & <-). cbn.
  rewrite Hover by (by repeat split). cbn.
  destruct (over_limit s (pid e) v); cbn; [quiet Hwf|].
  rewrite He. cbn. rewrite Ht. cbn. rewrite Hgrant. cbn.
  rewrite lookup_insert_eq. cbn. rewrite Hsg. cbn. rewrite Hr. cbn. rewrite lookup_insert_eq. cbn.
  destruct (Z.eqb_spec (Z.succ (usage t)) 1); [lia|]. cbn.
  match goal with |- ml_wf (mkMl ?k _ _ _) /\ _ => set (k' := k) end.
  assert (same_objects (with_rlimit_as (ml_k s) task (mkRlimit v v)) k') as Hk'.
  { rewrite same_objects_install by done. repeat split. by apply (task_usage_roundtrip (ml_k s)). }
  edestruct (ml_wf_update s k' p e v) as [Hs' Hlim]; [done| |done|].
  { eapply kernel_wf_same, kernel_wf_with_rlimit, Hwf. exact Hk'. }
  split_and!; [apply Hs'|f_equal; apply Hlim|]. unfold limited_kernel. rewrite Hv.
  split; [exact Hk' | done | unfold bare_lookups; cbn; by case_match].
Qed.

(** *** Reading the registry back *)

Lemma entries_cons nodes l p e :
  nodes !! p = Some e -> entries_of nodes (p :: l) = e :: entries_of nodes l.
Proof. intros He. unfold entries_of. cbn. by rewrite He. Qed.

Definition pairs_of (nodes : gmap Z memory_limitation) (l : list Z) : registry :=
  map (fun e => (pid e, memory_limit e)) (entries_of nodes l).

Lemma length_pairs nodes l :
  Forall (fun p => is_Some (nodes !! p)) l -> length (pairs_of nodes l) = length l.
Proof.
  unfold pairs_of. rewrite length_map. induction 1 as [|p l [e He] _ IH]; [done|].
  rewrite (entries_cons _ _ _ e) by done. cbn. by rewrite IH.
Qed.

Lemma store_k_entry buf (c : nat) e :
  store_k buf (Z.of_nat c) e = store_entry 16 buf c (pid e) (memory_limit e).
Proof.
  unfold store_k, store_entry, sizeof_k. by replace (Z.to_nat (Z.of_nat c * 16)) with (16 * c)%nat by lia.
Qed.

(** The traversal stores the next entries and leaves the cursor behind them. *)
Lemma fill_buffer_run s heap max l : forall r buf,
  Forall (fun p => is_Some (ml_nodes s !! p)) l ->
  0 < max < 2 ^ 64 -> Z.of_nat (length heap) = max * 16 ->
  Z.of_nat (length r) <= max -> Z.of_nat (length r + length l) < 2 ^ 31 -> filled 16 heap buf r ->
  let n := Nat.min (length l) (Z.to_nat max - length r) in
  exists buf',
    fill_buffer l max (Z.of_nat (length r)) buf s = Done (Z.of_nat (length r + n), buf', l !! n) s /\
    filled 16 heap buf' (r ++ take n (pairs_of (ml_nodes s) l)).
Proof.
  induction l as [|p l IH]; intros r buf Hl Hmax Hlen Hr Hs Hf n; cbn [fill_buffer length] in *.
  { exists buf. unfold n. cbn. by rewrite Nat.add_0_r, app_nil_r. }
  rewrite u64_id by (unfold is_u64; lia).
  destruct (Z.leb_spec max (Z.of_nat (length r))).
  { exists buf. replace n with 0%nat by (unfold n; lia). cbn. by rewrite Nat.add_0_r, app_nil_r. }
  apply Forall_cons in Hl as [[e He] Hl].
  unfold entry_at. kernel_unfold. rewrite He, s32_id by (unfold is_s32; lia).
  rewrite store_k_entry. destruct (IH (r ++ [(pid e, memory_limit e)])
    (store_entry 16 buf (length r) (pid e) (memory_limit e))) as (buf' & Hrun & Hf'); try done;
    rewrite ?length_app; cbn [length]; try lia.
  { apply filled_snoc; [lia|done|lia]. }
  rewrite length_app in Hrun, Hf'. cbn [length] in Hrun, Hf'.
  set (n' := Nat.min (length l) (Z.to_nat max - (length r + 1))) in *.
  assert (n = S n') as -> by (unfold n, n'; lia). exists buf'. split.
  - replace (Z.of_nat (length r) + 1) with (Z.of_nat (length r + 1)) by lia. rewrite Hrun.
    do 3 f_equal. lia.
  - unfold pairs_of in *. rewrite (entries_cons _ _ _ e) by done. cbn [map take].
    by rewrite <- app_assoc in Hf'.
Qed.

(** The number of entries a call returns. *)
Definition returned (s : mlstate L) (max_entries : Z) : nat :=
  Nat.min (length (limits s)) (Z.to_nat max_entries).

(** The entry whose fields the final message prints. *)
Definition cursor_entry (s : mlstate L) (n : nat) : memory_limitation :=
  default head_container (list_seq (ml_list s) !! n ≫= fun p => ml_nodes s !! p).

Definition with_user (s : mlstate L) (m : gmap Z Z) : mlstate L :=
  s <| ml_k ::= user_accessed m |>.

Definition get_message (s : mlstate L) (n : nat) : string * list Z :=
  ("taro_get_memory_limits: Nodo %d - PID=%d, Limit=%zu"%string,
   [Z.of_nat n; pid (cursor_entry s n); memory_limit (cursor_entry s n)]).

Lemma get_run s u max pr heap :
  ml_wf s -> u <> 0 -> pr <> 0 -> 0 < max < 2 ^ 64 -> Z.of_nat (length (limits s)) < 2 ^ 31 ->
  kmalloc_array max sizeof_k = Some heap ->
  let n := returned s max in
  exists buf,
    (forall m, returned_entries 16 (write_bytes m u (take (16 * n) buf)) u (take n (limits s)) heap) /\
    length (take (16 * n) buf) = (16 * n)%nat /\
    taro_get_memory_limits head_container u max pr s =
      let '(m1, left1) := copy_to_user (k_user (ml_k s)) u (take (16 * n) buf) in
      if truthy left1 then Done (- EFAULT) (with_user s m1)
      else let '(m2, left2) := copy_to_user m1 pr (le_bytes 4 (Z.of_nat n)) in
      if truthy left2 then Done (- EFAULT) (with_user (with_user s m1) m2)
      else Done 0 ((with_user (with_user s m1) m2) <| ml_k ::= fun k => k <| k_log ::= cons (get_message s n) |> |>).
Proof.
  intros Hwf Hu Hpr Hmax Hlt Hbuf n.
  pose proof (live_all s Hwf) as Hl. pose proof (length_pairs _ _ Hl) as Hlen.
  change (pairs_of _ _) with (limits s) in Hlen.
  pose proof (kmalloc_array_length max sizeof_k heap ltac:(lia) ltac:(unfold sizeof_k; lia) Hbuf) as Hsize.
  unfold sizeof_k in Hsize.
  destruct (fill_buffer_run (s <| ml_mutex := true |>) heap max (list_seq (ml_list s)) [] heap)
    as (buf & Hrun & Hfill); cbn [length] in *; try done; [lia|by rewrite <- Hlen|].
  rewrite <- Hlen, Nat.sub_0_r in Hrun, Hfill. change (Nat.min _ _) with n in Hrun, Hfill.
  change (pairs_of _ _) with (limits s) in Hfill. cbn [app] in Hfill.
  assert (length (take n (limits s)) = n) as Hn by (rewrite length_take; unfold n, returned; lia).
  assert (16 * n <= length heap)%nat as Hroom by (unfold n, returned; lia).
  exists buf. split_and!.
  { intros m. rewrite <- Hn at 1. apply filled_returned; [lia|done|by rewrite Hn]. }
  { rewrite length_take. destruct Hfill as [Hb _]. lia. }
  unfold taro_get_memory_limits. rewrite Hbuf.
  rewrite (proj2 (Z.eqb_neq u 0)), (proj2 (Z.eqb_neq pr 0)), (proj2 (Z.leb_gt max 0)) by lia.
  cbn [orb]. unfold mutex_lock, mutex_unlock, kern, k_copy_to_user, pr_info, entry_at. kernel_unfold.
  rewrite (mw_mutex s Hwf). cbv beta iota.
  change (ml_list (s <| ml_mutex := true |>)) with (ml_list s).
  change (Z.of_nat 0) with 0 in Hrun. rewrite Hrun. cbn [Nat.add]. cbv beta iota.
  rewrite (u64_id (Z.of_nat n * sizeof_k)) by (unfold is_u64, n, returned, sizeof_k; lia).
  replace (Z.to_nat (Z.of_nat n * sizeof_k)) with (16 * n)%nat by (unfold sizeof_k; lia).
  pose proof (mw_mutex s Hwf) as Hmut. destruct s as [k nodes l mut]. cbn in Hmut. subst mut. cbn -[Nat.mul le_bytes].
  destruct (copy_to_user (k_user k) u (take (16 * n) buf)) as [m1 left1].
  destruct (truthy left1); [done|]. cbn -[Nat.mul le_bytes].
  destruct (copy_to_user m1 pr (le_bytes 4 (Z.of_nat n))) as [m2 left2].
  destruct (truthy left2); [done|]. unfold get_message, cursor_entry. cbn -[Nat.mul].
  destruct (list_seq l !! n) as [p|] eqn:Hp; cbn; [|done].
  destruct (proj1 (Forall_lookup _ _) Hl _ _ Hp) as [e He]. cbn in He. by rewrite He.
Qed.

Definition get_post (s : mlstate L) (u : Z) (n : nat) (pr r : Z) (s' : mlstate L) : Prop :=
  ml_wf s' /\ limits s' = limits s /\ same_objects (ml_k s) (ml_k s') /\
  user_frame (k_user (ml_k s)) (k_user (ml_k s')) u (16 * Z.of_nat n) pr /\
  r ∈ [0; - EINVAL; - ENOMEM; - EFAULT].

Lemma get_post_intro s u n pr r s' :
  ml_wf s -> same_objects (ml_k s) (ml_k s') ->
  ml_nodes s' = ml_nodes s -> ml_list s' = ml_list s -> ml_mutex s' = ml_mutex s ->
  user_frame (k_user (ml_k s)) (k_user (ml_k s')) u (16 * Z.of_nat n) pr ->
  r ∈ [0; - EINVAL; - ENOMEM; - EFAULT] -> get_post s u n pr r s'.
Proof.
  intros Hwf Hk Hn Hl Hm Hu Hr. destruct s' as [k' n' l' m']. cbn in *. subst.
  split_and!; try done. apply ml_wf_k; [done..|]. apply Hwf.
Qed.

Lemma get_behaviour s u max pr :
  ml_wf s -> is_u64 max -> Z.of_nat (length (limits s)) < 2 ^ 31 ->
  wp (taro_get_memory_limits head_container u max pr) (get_post s u (returned s max) pr) s.
Proof.
  intros Hwf Hmax Hlt.
  destruct ((u =? 0) || (pr =? 0) || (max <=? 0)) eqn:Hg.
  { unfold taro_get_memory_limits. rewrite Hg. apply get_post_intro; try done. set_solver. }
  destruct (kmalloc_array max sizeof_k) as [heap|] eqn:Hk.
  2:{ unfold taro_get_memory_limits. rewrite Hg, Hk. apply get_post_intro; try done. set_solver. }
  bool_facts. destruct (get_run s u max pr heap) as (buf & _ & Hlen & Hrun); try done.
  { unfold is_u64 in *. lia. }
  unfold wp. rewrite Hrun.
  destruct (copy_to_user _ u _) as [m1 left1] eqn:H1'.
  destruct (copy_to_user m1 pr _) as [m2 left2] eqn:H2'.
  edestruct copy_frames as [Hf1 Hf2]; [apply length_le_bytes | exact H1' | exact H2' |].
  unfold blen in *. rewrite Hlen, Nat2Z.inj_mul in Hf1, Hf2.
  destruct (truthy left1); [|destruct (truthy left2)];
    (apply get_post_intro; [done | by repeat split | try done..]); set_solver.
Qed.

(** A call that returns 0 has stored the first entries of the registry and
    their number. *)
Lemma get_stored `{!UserArchOk} s u max pr heap :
  ml_wf s -> u <> 0 -> pr <> 0 -> 0 < max < 2 ^ 64 -> Z.of_nat (length (limits s)) < 2 ^ 31 ->
  kmalloc_array max sizeof_k = Some heap ->
  let n := returned s max in
  can_copy_to (k_user (ml_k s)) u (16 * Z.of_nat n) -> can_copy_to (k_user (ml_k s)) pr 4 ->
  pr + 4 <= u \/ u + 16 * Z.of_nat n <= pr ->
  wp (taro_get_memory_limits head_container u max pr)
     (fun r s' => r = 0 /\
        read_bytes (k_user (ml_k s')) pr 4 = le_bytes 4 (Z.of_nat n) /\
        returned_entries 16 (k_user (ml_k s')) u (take n (limits s)) heap /\
        head (k_log (ml_k s')) = Some (get_message s n)) s.
Proof.
  intros Hwf Hu Hpr Hmax Hlt Hk n Hcu Hcp Hdis.
  destruct (get_run s u max pr heap) as (buf & Hent & Hlen & Hrun); try done. fold n in Hrun, Hent, Hlen.
  unfold wp. rewrite Hrun, copy_to_user_ok.
  2:{ unfold blen. rewrite Hlen. by replace (Z.of_nat (16 * n)) with (16 * Z.of_nat n) by lia. }
  cbn [truthy negb Z.eqb]. rewrite copy_to_user_ok.
  2:{ by apply can_copy_to_write. }
  cbn [truthy negb Z.eqb]. split_and!; try done.
  - apply (read_write_bytes _ _ (le_bytes 4 _)).
  - apply returned_entries_frame, Hent; [lia|].
    rewrite length_le_bytes, length_take. unfold n, returned in *. lia.
Qed.

(** The address-space limit in force for pid [x]. *)
Definition signal_of (k : kernel) (x : Z) : option Z :=
  k_vpids k !! x ≫= fun p => t_signal <$> k_tasks k !! p.
Definition as_limit (k : kernel) (x : Z) : option rlimit :=
  signal_of k x ≫= fun g => k_signals k !! g ≫= fun sg => rlim sg !! Z.to_nat RLIMIT_AS.

#[global] Instance as_limit_proper : Proper (same_objects ==> (=) ==> (=)) as_limit.
Proof.
  intros k k' (Ht & Hs & _ & _ & Hv & _) x ? <-. unfold as_limit, signal_of. by rewrite Ht, Hs, Hv.
Qed.

Lemma as_limit_with_rlimit k x task rl y :
  kernel_wf k -> k_vpids k !! x = Some task ->
  as_limit (with_rlimit_as k task rl) y =
    if decide (signal_of k y = signal_of k x) then Some rl else as_limit k y.
Proof.
  intros Hk Hv. destruct (live_task _ _ _ Hk Hv) as (t & sg & r & Ht & Hsg & Hr & _ & _).
  assert (signal_of k x = Some (t_signal t)) as Hx by (unfold signal_of; rewrite Hv; cbn; by rewrite Ht).
  unfold with_rlimit_as, with_rlimit. rewrite Ht, Hsg, Hx.
  set (k' := k <| k_signals ::= _ |>). unfold as_limit.
  change (signal_of k' y) with (signal_of k y).
  destruct (signal_of k y) as [g|]; [|by rewrite decide_False].
  change (k_signals k') with (<[t_signal t := sg <| rlim ::= <[Z.to_nat RLIMIT_AS := rl]> |>]> (k_signals k)).
  cbn [mbind option_bind]. destruct (decide (g = t_signal t)) as [->|Hne].
  - rewrite lookup_insert_eq, decide_True by done.
    apply list_lookup_insert_eq. by eapply lookup_lt_Some.
  - rewrite lookup_insert_ne by done. by rewrite decide_False by congruence.
Qed.

(** What a call that returned [r] does to the limits in force. *)
Lemma as_limit_limited s x v r k' y :
  ml_wf s -> (r = 0 -> found s x = true) -> same_objects (limited_kernel (ml_k s) x v r) k' ->
  as_limit k' y =
    if decide (r = 0 /\ signal_of (ml_k s) y = signal_of (ml_k s) x)
    then Some (mkRlimit v v) else as_limit (ml_k s) y.
Proof.
  intros Hwf Hf Hk. rewrite <- Hk. unfold limited_kernel, found in *.
  destruct (k_vpids (ml_k s) !! x) as [task|] eqn:Hv.
  2:{ rewrite decide_False; [done|]. intros [Hr _]. by specialize (Hf Hr). }
  destruct (Z.eqb_spec r 0) as [->|Hr]; [|by rewrite decide_False by tauto].
  rewrite (as_limit_with_rlimit _ x) by (apply Hwf || done).
  destruct (decide (signal_of _ y = _)); [by rewrite decide_True|by rewrite decide_False by tauto].
Qed.

Lemma add_spec_found found room x v r reg reg' :
  (r, reg') = add_spec found room x v reg -> r = 0 -> found = true.
Proof. unfold add_spec. repeat case_match; intros [= -> ->] Hr; bool_facts; try done. Qed.

Lemma update_spec_found found over x v r reg reg' :
  (r, reg') = update_spec found over x v reg -> r = 0 -> found = true.
Proof. unfold update_spec. repeat case_match; intros [= -> ->] Hr; bool_facts; try done. Qed.

(** *** Claims *)

(** Whether the security module grants changes of [RLIMIT_AS]. *)
Definition lsm_grants : Prop := forall k t rl, security_task_setrlimit k t RLIMIT_AS rl = 0.

(** C4: [taro_add_memory_limit] implements the abstract registry when the
    security module grants the change: it checks its arguments, the process, the
    duplicate and the allocation in that order with the codes -EINVAL, -ESRCH,
    -101 and -ENOMEM, appends (pid, limit) exactly when it returns 0, keeps the
    invariant of the list (in particular the mutex is free again and no pid
    occurs twice), gives back the task reference it took, and leaves every
    kernel object except the limit itself as it was. *)
Theorem taro_add_refines s x v :
  ml_wf s -> lsm_grants ->
  wp (taro_add_memory_limit x v)
     (fun r s' => ml_wf s' /\
        (r, limits s') = add_spec (found s x) (room s) x v (limits s) /\
        kernel_effect (ml_k s) (limited_kernel (ml_k s) x v r) (ml_k s')
          (negb ((x <? 0) || (v <=? 0)))) s.
Proof. apply add_behaviour. Qed.

(** C5: [taro_update_memory_limit] implements the abstract update when the
    security module grants the change: -102 for a pid that is not limited, -100
    when the process already maps more pages than the new limit holds, and
    otherwise exactly the entry of that pid gets the new limit. *)
Theorem taro_update_refines s x v :
  ml_wf s -> lsm_grants ->
  wp (taro_update_memory_limit x v)
     (fun r s' => ml_wf s' /\
        (r, limits s') = update_spec (found s x) (over_limit s x v) x v (limits s) /\
        kernel_effect (ml_k s) (limited_kernel (ml_k s) x v r) (ml_k s')
          (negb ((x <? 0) || (v <=? 0)))) s.
Proof. apply update_behaviour. Qed.

(** C6: [taro_remove_memory_limit] removes exactly the entry of the pid, frees
    it, and touches no kernel object: the RLIMIT_AS an earlier call installed
    stays in force for every process. *)
Theorem taro_remove_refines s x :
  ml_wf s ->
  wp (taro_remove_memory_limit x)
     (fun r s' => ml_wf s' /\ (r, limits s') = remove_spec x (limits s) /\
        same_objects (ml_k s) (ml_k s') /\
        forall y, as_limit (ml_k s') y = as_limit (ml_k s) y) s.
Proof.
  intros Hwf. eapply wp_mono, remove_behaviour, Hwf. intros r s' (Hs' & Hr & [Hk _ _]).
  split_and!; try done. intros y. by rewrite <- Hk.
Qed.

(** a call of [taro_get_memory_limits] whose user ranges are accessible and
    disjoint returns 0 and leaves in user memory the number n of entries, the
    smaller of the registry's size and [max_entries], and at 16-byte stride the
    pid and the limit of the first n entries in order.  The four bytes between
    pid and limit are the bytes of the kernel allocation as it was before the
    call, and the last message prints the fields of the entry the cursor
    stopped at, or of whatever precedes the list head in memory. *)
Theorem taro_get_stores_entries `{!UserArchOk} s u max pr heap :
  ml_wf s -> u <> 0 -> pr <> 0 -> 0 < max < 2 ^ 64 -> Z.of_nat (length (limits s)) < 2 ^ 31 ->
  kmalloc_array max sizeof_k = Some heap ->
  let n := returned s max in
  can_copy_to (k_user (ml_k s)) u (16 * Z.of_nat n) -> can_copy_to (k_user (ml_k s)) pr 4 ->
  pr + 4 <= u \/ u + 16 * Z.of_nat n <= pr ->
  wp (taro_get_memory_limits head_container u max pr)
     (fun r s' => r = 0 /\
        read_bytes (k_user (ml_k s')) pr 4 = le_bytes 4 (Z.of_nat n) /\
        returned_entries 16 (k_user (ml_k s')) u (take n (limits s)) heap /\
        head (k_log (ml_k s')) = Some (get_message s n)) s.
Proof. apply get_stored. Qed.

(** whatever its arguments and however the copies to user memory fail,
    [taro_get_memory_limits] terminates without a fault, returns 0, -EINVAL,
    -ENOMEM or -EFAULT, keeps the registry, the invariant and every kernel
    object, and writes no user byte outside of the n entries and the counter. *)
Theorem taro_get_confined s u max pr :
  ml_wf s -> is_u64 max -> Z.of_nat (length (limits s)) < 2 ^ 31 ->
  wp (taro_get_memory_limits head_container u max pr) (get_post s u (returned s max) pr) s.
Proof. apply get_behaviour. Qed.

(** after [taro_add_memory_limit] returns 0 both the soft and the hard
    address-space limit are the given one for every thread that shares the
    signal struct of the process and unchanged for every other pid; after an
    error nobody's limit has changed. *)
Theorem taro_add_installs_limit s x v :
  ml_wf s -> lsm_grants ->
  wp (taro_add_memory_limit x v)
     (fun r s' => forall y, as_limit (ml_k s') y =
        if decide (r = 0 /\ signal_of (ml_k s) y = signal_of (ml_k s) x)
        then Some (mkRlimit v v) else as_limit (ml_k s) y) s.
Proof.
  intros Hwf Hg. eapply wp_mono, add_behaviour; [|done..]. intros r s' (_ & Hr & [Hk _ _]) y.
  eapply as_limit_limited, Hk; [done|]. by eapply add_spec_found.
Qed.

(** the same for [taro_update_memory_limit]. *)
Theorem taro_update_installs_limit s x v :
  ml_wf s -> lsm_grants ->
  wp (taro_update_memory_limit x v)
     (fun r s' => forall y, as_limit (ml_k s') y =
        if decide (r = 0 /\ signal_of (ml_k s) y = signal_of (ml_k s) x)
        then Some (mkRlimit v v) else as_limit (ml_k s) y) s.
Proof.
  intros Hwf Hg. eapply wp_mono, update_behaviour; [|done..]. intros r s' (_ & Hr & [Hk _ _]) y.
  eapply as_limit_limited, Hk; [done|]. by eapply update_spec_found.
Qed.

(** C40: when the security module refuses, [taro_add_memory_limit] frees the new
    entry before it unlinks it: the unlinking accesses freed memory. *)
Theorem taro_add_refused_uses_freed s x v task :
  ml_wf s -> 0 <= x -> 0 < v -> k_vpids (ml_k s) !! x = Some task ->
  has_pid (limits s) x = false -> room s = true ->
  (forall k, security_task_setrlimit k task RLIMIT_AS (mkRlimit v v) <> 0) ->
  taro_add_memory_limit x v s = Crash UseAfterFree.
Proof.
  intros Hwf Hx Hpos Hv Hfree Hroom Hrefuse. unfold taro_add_memory_limit, room in *.
  destruct (kmalloc (dom (ml_nodes s)) sizeof_entry) as [p|] eqn:Hp; [|done].
  rewrite (proj2 (Z.ltb_ge x 0)), (proj2 (Z.leb_gt v 0)) by lia. cbn [orb]. run. rewrite Hv. cbn.
  destruct (live_task _ _ _ (mw_kernel s Hwf) Hv) as (t & sg & r & Ht & _).
  rewrite (mw_mutex s Hwf), find_entry_run by (apply (live_all s Hwf)). cbn.
  pose proof (node_of_has_pid s x Hwf) as Hnode.
  destruct (node_of (ml_nodes s) (list_seq (ml_list s)) x) as [q|]; [destruct Hnode as (_ & ? & _); congruence|].
  cbn. rewrite Hp. cbn.
  rewrite lookup_insert_eq. cbn. rewrite Ht. cbn.
  rewrite (proj2 (truthy_true _)) by apply Hrefuse. cbn. by rewrite lookup_delete_eq.
Qed.

(** when the security module refuses an update, the entry already carries
    the new limit although no process's RLIMIT_AS has changed: the call returns
    -EPERM and the registry no longer tells the limits in force. *)
Theorem taro_update_refused_desync s x v task :
  ml_wf s -> 0 <= x -> 0 < v -> k_vpids (ml_k s) !! x = Some task ->
  has_pid (limits s) x = true -> over_limit s x v = false ->
  (forall k, security_task_setrlimit k task RLIMIT_AS (mkRlimit v v) <> 0) ->
  wp (taro_update_memory_limit x v)
     (fun r s' => r = - EPERM /\ ml_wf s' /\ limits s' = set_limit (limits s) x v /\
        forall y, as_limit (ml_k s') y = as_limit (ml_k s) y) s.
Proof.
  intros Hwf Hx Hpos Hv Hin Hover Hrefuse. unfold taro_update_memory_limit.
  rewrite (proj2 (Z.ltb_ge x 0)), (proj2 (Z.leb_gt v 0)) by lia. cbn [orb].
  destruct (live_task _ _ _ (mw_kernel s Hwf) Hv) as (t & sg & r & Ht & Hsg & Hr & Hu & _).
  pose proof (exceeds_limit_run s x v _ _ Hwf Hv Ht) as Hex.
  run. rewrite Hv. cbn.
  rewrite (mw_mutex s Hwf). cbn. rewrite find_entry_run by (apply (live_all s Hwf)). cbn.
  pose proof (node_of_has_pid s x Hwf) as Hnode.
  destruct (node_of (ml_nodes s) (list_seq (ml_list s)) x) as [p|]; [|congruence].
  destruct Hnode as (_ & _ & e & He & <-). cbn.
  rewrite Hex by (by repeat split). cbn. rewrite Hover. cbn. rewrite He. cbn. rewrite Ht. cbn.
  rewrite (proj2 (truthy_true _)) by apply Hrefuse. cbn. rewrite lookup_insert_eq. cbn.
  destruct (Z.eqb_spec (Z.succ (usage t)) 1); [lia|]. cbn.
  match goal with |- context [mkMl ?k _ _ _] => set (k' := k) end.
  assert (same_objects (ml_k s) k') as Hk'.
  { repeat split. by apply (task_usage_roundtrip (ml_k s)). }
  edestruct (ml_wf_update s k' p e v) as [Hs' Hlim]; [done| |done|].
  { by eapply kernel_wf_same, Hwf. }
  split_and!; [done|apply Hs'|apply Hlim|]. intros y. by rewrite <- Hk'.
Qed.

(** *** Sequences of calls *)
Inductive ml_call :=
  | CAdd (process_pid memory_limit : Z)
  | CGet (u_processes_buffer max_entries processes_returned : Z)
  | CUpdate (process_pid memory_limit : Z)
  | CRemove (process_pid : Z).

Definition exec (c : ml_call) : Kern (mlstate L) Z :=
  match c with
  | CAdd x v => taro_add_memory_limit x v
  | CGet u max pr => taro_get_memory_limits head_container u max pr
  | CUpdate x v => taro_update_memory_limit x v
  | CRemove x => taro_remove_memory_limit x
  end.

Fixpoint exec_all (cs : list ml_call) : Kern (mlstate L) (list Z) :=
  match cs with
  | [] => mret []
  | c :: cs => r ← exec c; rs ← exec_all cs; mret (r :: rs)
  end.

(** The abstract registry as a transition system. *)
Inductive registry_step : ml_call -> Z -> registry -> registry -> Prop :=
  | rs_add x v fnd rm reg r reg' :
      (r, reg') = add_spec fnd rm x v reg -> registry_step (CAdd x v) r reg reg'
  | rs_get u max pr reg r :
      r ∈ [0; - EINVAL; - ENOMEM; - EFAULT] -> registry_step (CGet u max pr) r reg reg
  | rs_update x v fnd over reg r reg' :
      (r, reg') = update_spec fnd over x v reg -> registry_step (CUpdate x v) r reg reg'
  | rs_remove x reg r reg' :
      (r, reg') = remove_spec x reg -> registry_step (CRemove x) r reg reg'.

Inductive registry_steps : list ml_call -> list Z -> registry -> registry -> Prop :=
  | rss_nil reg : registry_steps [] [] reg reg
  | rss_cons c cs r rs reg reg' reg'' :
      registry_step c r reg reg' -> registry_steps cs rs reg' reg'' ->
      registry_steps (c :: cs) (r :: rs) reg reg''.

(** The arguments fit their C types. *)
Definition typed_call (c : ml_call) : Prop :=
  match c with
  | CGet _ max _ => is_u64 max
  | _ => True
  end.

Lemma length_registry_step c r reg reg' :
  registry_step c r reg reg' -> (length reg' <= S (length reg))%nat.
Proof.
  destruct 1 as [x v fnd rm reg r reg' E| |x v fnd over reg r reg' E|x reg r reg' E]; try lia;
    unfold add_spec, update_spec, remove_spec in E; repeat case_match; simplify_eq;
    rewrite ?length_app; cbn; try lia.
  - unfold set_limit. rewrite length_map. lia.
  - unfold drop_pid. pose proof (length_filter (fun e => e.1 <> x) reg). lia.
Qed.

Lemma exec_simulates c s :
  ml_wf s -> lsm_grants -> typed_call c -> Z.of_nat (length (limits s)) < 2 ^ 31 ->
  wp (exec c) (fun r s' => ml_wf s' /\ registry_step c r (limits s) (limits s')) s.
Proof.
  intros Hwf Hg Hty Hlt. destruct c as [x v|u max pr|x v|x]; cbn [exec].
  - eapply wp_mono, add_behaviour; [|done..]. intros r s' (? & ? & _). split; [done|]. by econstructor.
  - eapply wp_mono, get_behaviour; [|done..]. intros r s' (? & -> & _ & _ & ?). split; [done|]. by constructor.
  - eapply wp_mono, update_behaviour; [|done..]. intros r s' (? & ? & _). split; [done|]. by econstructor.
  - eapply wp_mono, remove_behaviour; [|done]. intros r s' (? & ? & _). split; [done|]. by econstructor.
Qed.

(** C2: when the security module grants the changes, every sequence of calls runs
    to its end without a fault, a deadlock on the mutex or an access to a freed
    entry, keeps the invariant, and its return codes and effects are those of a
    run of the abstract registry.  (The number of entries stays within the [int]
    that counts them.) *)
Theorem calls_simulate_registry cs s :
  ml_wf s -> lsm_grants -> Forall typed_call cs ->
  Z.of_nat (length (limits s) + length cs) < 2 ^ 31 ->
  wp (exec_all cs)
     (fun rs s' => ml_wf s' /\ registry_steps cs rs (limits s) (limits s')) s.
Proof.
  intros Hwf Hg Hty. revert s Hwf. induction Hty as [|c cs Hc Hcs IH]; intros s Hwf Hlt.
  { split; [done|]. constructor. }
  cbn [exec_all length] in *. rewrite wp_bind.
  eapply wp_mono, exec_simulates; [|done..|lia]. intros r s' [Hwf' Hstep].
  pose proof (length_registry_step _ _ _ _ Hstep).
  rewrite wp_bind. eapply wp_mono, IH; [|done|lia].
  intros rs s'' [Hwf'' Hsteps]. rewrite wp_ret. split; [done|]. by econstructor.
Qed.

End Refinement.

(** ** Concrete runs *)
Definition ml_init {L} `{KList L} (k : kernel) : mlstate L := mkMl k ∅ list_head_init false.

Lemma ml_init_wf {L} `{KListOk L} k : kernel_wf k -> ml_wf (ml_init k).
Proof.
  intros Hk. assert (list_seq (ml_list (ml_init k)) = []) as Hs by apply list_init_seq.
  split; try done.
  - apply list_init_wf.
  - intros p. rewrite Hs. cbn. rewrite lookup_empty, is_Some_alt. set_solver.
  - unfold limits. rewrite Hs. constructor.
Qed.

(** pid 1 is limited to 1 MiB; 64 bytes of user memory from address 4096 are mapped. *)
Definition sample_user : gmap Z Z := write_bytes ∅ 4096 (replicate 64 255).
Definition sample_ml : mlstate (list Z) :=
  mkMl (sample_kernel sample_user) {[ 1 := mkLimitation 1 1048576 ]} [1] false.

Lemma sample_ml_wf : ml_wf sample_ml.
Proof.
  split; try done.
  - apply sample_kernel_wf.
  - cbn. apply NoDup_singleton.
  - intros p. cbn. rewrite list_elem_of_singleton. split.
    + intros ->. by eexists.
    + by intros [? [<- _]%lookup_singleton_Some].
  - vm_compute. apply NoDup_singleton.
Qed.

Lemma sample_env_grants : @lsm_grants (sample_env 0).
Proof. done. Qed.

Lemma taro_add_refines_witness :
  let _ := sample_env 0 in
  ml_wf sample_ml /\
  wp (taro_add_memory_limit 7 4096)
     (fun r s' => ml_wf s' /\
        (r, limits s') = add_spec (found sample_ml 7) (room sample_ml) 7 4096 (limits sample_ml) /\
        kernel_effect (ml_k sample_ml) (limited_kernel (ml_k sample_ml) 7 4096 r) (ml_k s') true) sample_ml.
Proof.
  intros env. split; [apply sample_ml_wf|].
  apply (taro_add_refines sample_ml 7 4096); [apply sample_ml_wf | apply sample_env_grants].
Defined.

Lemma taro_update_refines_witness :
  let _ := sample_env 0 in
  wp (taro_update_memory_limit 1 2097152)
     (fun r s' => ml_wf s' /\
        (r, limits s') = update_spec (found sample_ml 1) (over_limit sample_ml 1 2097152) 1 2097152 (limits sample_ml) /\
        kernel_effect (ml_k sample_ml) (limited_kernel (ml_k sample_ml) 1 2097152 r) (ml_k s') true) sample_ml.
Proof.
  intros env.
  apply (taro_update_refines sample_ml 1 2097152); [apply sample_ml_wf | apply sample_env_grants].
Defined.

Lemma taro_remove_refines_witness :
  wp (taro_remove_memory_limit 1)
     (fun r s' => ml_wf s' /\ (r, limits s') = remove_spec 1 (limits sample_ml) /\
        same_objects (ml_k sample_ml) (ml_k s') /\
        forall y, as_limit (ml_k s') y = as_limit (ml_k sample_ml) y) sample_ml.
Proof. apply (taro_remove_refines sample_ml 1). apply sample_ml_wf. Defined.

Lemma sample_can_copy a n :
  4096 <= a -> 0 <= n -> a + n <= 4160 -> can_copy_to sample_user a n.
Proof. intros. unfold sample_user. apply stored_can_copy_to; rewrite ?length_replicate; lia. Qed.

Lemma taro_get_stores_entries_witness :
  let _ := sample_env 0 in
  let s := sample_ml in
  let n := returned s 3 in
  n = 1%nat /\
  wp (taro_get_memory_limits (mkLimitation 0 0) 4096 3 4128)
     (fun r s' => r = 0 /\
        read_bytes (k_user (ml_k s')) 4128 4 = le_bytes 4 (Z.of_nat n) /\
        returned_entries 16 (k_user (ml_k s')) 4096 (take n (limits s)) (replicate 48 0) /\
        head (k_log (ml_k s')) = Some (get_message (mkLimitation 0 0) s n)) s.
Proof.
  intros env s n. split; [done|].
  apply (taro_get_stores_entries (mkLimitation 0 0) s 4096 3 4128 (replicate 48 0));
    [apply sample_ml_wf | done | done | done | vm_compute; done | done
    | apply sample_can_copy; vm_compute; done | apply sample_can_copy; vm_compute; done | right; vm_compute; done].
Defined.

Lemma taro_get_confined_witness :
  wp (taro_get_memory_limits (mkLimitation 0 0) 4096 3 9000)
     (get_post sample_ml 4096 (returned sample_ml 3) 9000) sample_ml.
Proof.
  apply (taro_get_confined (mkLimitation 0 0) sample_ml 4096 3 9000);
    [apply sample_ml_wf | unfold is_u64; lia | vm_compute; done].
Defined.

Lemma taro_add_installs_limit_witness :
  let _ := sample_env 0 in
  wp (taro_add_memory_limit 7 4096)
     (fun r s' => forall y, as_limit (ml_k s') y =
        if decide (r = 0 /\ signal_of (ml_k sample_ml) y = signal_of (ml_k sample_ml) 7)
        then Some (mkRlimit 4096 4096) else as_limit (ml_k sample_ml) y) sample_ml.
Proof.
  intros env. apply (taro_add_installs_limit sample_ml 7 4096); [apply sample_ml_wf | apply sample_env_grants].
Defined.

Lemma taro_update_installs_limit_witness :
  let _ := sample_env 0 in
  wp (taro_update_memory_limit 1 2097152)
     (fun r s' => forall y, as_limit (ml_k s') y =
        if decide (r = 0 /\ signal_of (ml_k sample_ml) y = signal_of (ml_k sample_ml) 1)
        then Some (mkRlimit 2097152 2097152) else as_limit (ml_k sample_ml) y) sample_ml.
Proof.
  intros env. apply (taro_update_installs_limit sample_ml 1 2097152); [apply sample_ml_wf | apply sample_env_grants].
Defined.

Lemma taro_add_refused_uses_freed_witness :
  let _ := sample_env (- EPERM) in
  taro_add_memory_limit 7 4096 sample_ml = Crash UseAfterFree.
Proof.
  intros env. apply (taro_add_refused_uses_freed sample_ml 7 4096 107); try done. apply sample_ml_wf.
Defined.

Lemma taro_update_refused_desync_witness :
  let _ := sample_env (- EPERM) in
  wp (taro_update_memory_limit 1 2097152)
     (fun r s' => r = - EPERM /\ ml_wf s' /\ limits s' = set_limit (limits sample_ml) 1 2097152 /\
        forall y, as_limit (ml_k s') y = as_limit (ml_k sample_ml) y) sample_ml.
Proof.
  intros env. apply (taro_update_refused_desync sample_ml 1 2097152 101); try done. apply sample_ml_wf.
Defined.

Definition sample_calls : list ml_call :=
  [CAdd 7 4096; CAdd 7 8192; CGet 4096 4 4144; CUpdate 7 8192; CRemove 1; CRemove 1].

Lemma calls_simulate_registry_witness :
  let _ := sample_env 0 in
  wp (exec_all (mkLimitation 0 0) sample_calls)
     (fun rs s' => ml_wf s' /\ registry_steps sample_calls rs (limits sample_ml) (limits s')) sample_ml.
Proof.
  intros env. apply (calls_simulate_registry (mkLimitation 0 0) sample_calls sample_ml);
    [apply sample_ml_wf | apply sample_env_grants | repeat constructor; unfold is_u64; lia | vm_compute; done].
Defined.
