(* ===== verification/MemLimitV1.v ===== *)
(** The first version of the memory-limit registry:
    [kernel/proyecto3/taro_mani_memv1.c].

    It keeps the entries in a hand-written singly linked list.  The heap maps
    addresses to nodes, a pointer is an address with 0 for NULL, and the loops
    follow the [next] fields.  A loop is given one more step than there are live
    nodes, which is enough for every list without a cycle. *)

From S2P Require Import Prelude Uaccess Kernel KList Registry.


Record memory_limitation := mkNode { pid : Z; memory_limit : Z; next : Z }.
#[global] Instance eta_node : Eta memory_limitation := fun e =>
  mkNode (pid e) (memory_limit e) (next e).

Record v1state := mkV1 {
  v_k : kernel;
  v_nodes : gmap Z memory_limitation;    (* live kmalloc'ed nodes *)
  memory_limit_head : Z;
  memory_limit_mutex : bool;
}.
#[global] Instance eta_v1 : Eta v1state := fun s =>
  mkV1 (v_k s) (v_nodes s) (memory_limit_head s) (memory_limit_mutex s).

Section Ops.
Context `{UserArch} `{KernelEnv} `{Slab}.

Notation M := (Kern v1state).

Definition kern {A} (m : Kern kernel A) : M A := zoom v_k (fun k s => s <| v_k := k |>) m.
Definition mutex_lock : M unit := fun s =>
  if memory_limit_mutex s then Crash Deadlock else Done tt (s <| memory_limit_mutex := true |>).
Definition mutex_unlock : M unit := modify (fun s => s <| memory_limit_mutex := false |>).
Definition node_at (p : Z) : M memory_limitation :=
  if p =? 0 then crashed NullDeref
  else e ← gets (fun s => v_nodes s !! p); deref UseAfterFree e.
Definition put_node (p : Z) (e : memory_limitation) : M unit :=
  modify (fun s => s <| v_nodes ::= <[p := e]> |>).
Definition kfree (p : Z) : M unit := modify (fun s => s <| v_nodes ::= delete p |>).

(** Steps that are enough to reach the end of the list. *)
Definition list_fuel (s : v1state) : nat := S (size (v_nodes s)).

(** [while (temp != NULL) ...] up to the node of [process_pid]. *)
Fixpoint find_node (fuel : nat) (temp process_pid : Z) : M (option Z) :=
  match fuel with
  | O => crashed OutOfFuel
  | S fuel =>
      if temp =? 0 then mret None
      else
      e ← node_at temp;
      if pid e =? process_pid then mret (Some temp) else find_node fuel (next e) process_pid
  end.

(** ** Syscall 1 *)
Definition taro_add_memory_limit (process_pid limit : Z) : M Z :=
  if (process_pid <? 0) || (limit <=? 0) then mret (- EINVAL)
  else
  mutex_lock;;
  fuel ← gets list_fuel;
  head ← gets memory_limit_head;
  temp ← find_node fuel head process_pid;
  match temp with
  | Some _ => mutex_unlock;; mret (- 101)
  | None =>
      entry ← gets (fun s => kmalloc (dom (v_nodes s)) 24);
      match entry with
      | None => mutex_unlock;; mret (- ENOMEM)
      | Some entry =>
          head ← gets memory_limit_head;
          put_node entry (mkNode process_pid limit head);;
          modify (fun s => s <| memory_limit_head := entry |>);;
          mutex_unlock;;
          mret 0
      end
  end.

(** ** Syscall 2 *)
Definition sizeof_node : Z := 24.

(** [k_buffer[count]]: only [pid] and [memory_limit] are assigned. *)
Definition store_node (buf : list Z) (count : Z) (e : memory_limitation) : list Z :=
  let off := Z.to_nat (count * sizeof_node) in
  write_at (write_at buf off (le_bytes 4 (pid e))) (off + 8) (le_bytes 8 (memory_limit e)).

Fixpoint fill_buffer (fuel : nat) (current_node max_entries count : Z) (k_buffer : list Z)
  : M (Z * list Z) :=
  match fuel with
  | O => crashed OutOfFuel
  | S fuel =>
      if negb (current_node =? 0) && (u64 count <? max_entries) then
        e ← node_at current_node;
        kern (pr_info "taro_get_memory_limits: Copiando PID=%d, Limit=%zu" [pid e; memory_limit e]);;
        fill_buffer fuel (next e) max_entries (s32 (count + 1)) (store_node k_buffer count e)
      else mret (count, k_buffer)
  end.

Definition taro_get_memory_limits (u_processes_buffer max_entries processes_returned : Z) : M Z :=
  if (u_processes_buffer =? 0) || (processes_returned =? 0) || (max_entries <=? 0)
  then mret (- EINVAL)
  else
  match kmalloc_array max_entries sizeof_node with
  | None => mret (- ENOMEM)
  | Some k_buffer =>
      mutex_lock;;
      fuel ← gets list_fuel;
      head ← gets memory_limit_head;
      '(count, k_buffer) ← fill_buffer fuel head max_entries 0 k_buffer;
      mutex_unlock;;
      uncopied ← kern (k_copy_to_user u_processes_buffer (take (Z.to_nat (u64 (count * sizeof_node))) k_buffer));
      if truthy uncopied then mret (- EFAULT)
      else
      uncopied ← kern (k_copy_to_user processes_returned (le_bytes 4 count));
      if truthy uncopied then mret (- EFAULT)
      else mret 0
  end.

(** ** Syscall 3 *)

(** [task->mm && task->mm->total_vm > memory_limit]: pages against bytes. *)
Definition exceeds_limit (task limit : Z) : Kern kernel bool :=
  t ← task_at task;
  if truthy (t_mm t) then
    mm ← mm_at (t_mm t);
    mret (limit <? total_vm mm)
  else mret false.

Definition taro_update_memory_limit (process_pid limit : Z) : M Z :=
  if (process_pid <? 0) || (limit <=? 0) then
    kern (pr_info "taro_update_memory_limit: PID %d o límite de memoria %zu inválido." [process_pid; limit]);;
    mret (- EINVAL)
  else
  cap ← kern (gets (fun k => capable k CAP_SYS_ADMIN));
  if negb cap then
    kern (pr_info "taro_update_memory_limit: Permiso denegado para PID %d." [process_pid]);;
    mret (- EPERM)
  else
  mutex_lock;;
  fuel ← gets list_fuel;
  head ← gets memory_limit_head;
  current_node ← find_node fuel head process_pid;
  match current_node with
  | Some current_node =>
      task ← kern (find_task_by_vpid process_pid);
      match task with
      | None =>
          mutex_unlock;;
          kern (pr_info "taro_update_memory_limit: PID %d no encontrado." [process_pid]);;
          mret (- ESRCH)
      | Some task =>
          over ← kern (exceeds_limit task limit);
          if (over : bool) then
            mutex_unlock;;
            kern (pr_info "taro_update_memory_limit: PID %d ya excede el nuevo límite de memoria %zu." [process_pid; limit]);;
            mret (- 100)
          else
            e ← node_at current_node;
            put_node current_node (e <| memory_limit := limit |>);;
            mutex_unlock;;
            kern (pr_info "taro_update_memory_limit: PID %d actualizado con nuevo límite %zu bytes." [process_pid; limit]);;
            mret 0
      end
  | None =>
      mutex_unlock;;
      kern (pr_info "taro_update_memory_limit: PID %d no encontrado en la lista." [process_pid]);;
      mret (- 102)
  end.

(** ** Syscall 4 *)

(** The loop that keeps the node before the current one and unlinks. *)
Fixpoint unlink_node (fuel : nat) (prev_node current_node process_pid : Z) : M (option Z) :=
  match fuel with
  | O => crashed OutOfFuel
  | S fuel =>
      if current_node =? 0 then mret None
      else
      e ← node_at current_node;
      if pid e =? process_pid then
        (if prev_node =? 0 then modify (fun s => s <| memory_limit_head := next e |>)
         else p ← node_at prev_node; put_node prev_node (p <| next := next e |>));;
        mret (Some current_node)
      else unlink_node fuel current_node (next e) process_pid
  end.

Definition taro_remove_memory_limit (process_pid : Z) : M Z :=
  if process_pid <? 0 then
    kern (pr_info "taro_remove_memory_limit: PID %d inválido." [process_pid]);;
    mret (- EINVAL)
  else
  cap ← kern (gets (fun k => capable k CAP_SYS_ADMIN));
  if negb cap then
    kern (pr_info "taro_remove_memory_limit: Permiso denegado para PID %d." [process_pid]);;
    mret (- EPERM)
  else
  mutex_lock;;
  fuel ← gets list_fuel;
  head ← gets memory_limit_head;
  current_node ← unlink_node fuel 0 head process_pid;
  match current_node with
  | Some current_node =>
      kfree current_node;;
      mutex_unlock;;
      kern (pr_info "taro_remove_memory_limit: PID %d removido correctamente." [process_pid]);;
      mret 0
  | None =>
      mutex_unlock;;
      kern (pr_info "taro_remove_memory_limit: PID %d no encontrado en la lista." [process_pid]);;
      mret (- 102)
  end.

End Ops.

(** ** What the syscalls promise *)
Definition add_spec (room : bool) (x v : Z) (r : registry) : Z * registry :=
  if (x <? 0) || (v <=? 0) then (- EINVAL, r)
  else if has_pid r x then (- 101, r)
  else if negb room then (- ENOMEM, r)
  else (0, (x, v) :: r).

Definition update_spec (cap : bool) (found : option bool) (x v : Z) (r : registry) : Z * registry :=
  if (x <? 0) || (v <=? 0) then (- EINVAL, r)
  else if negb cap then (- EPERM, r)
  else if negb (has_pid r x) then (- 102, r)
  else match found with
       | None => (- ESRCH, r)
       | Some true => (- 100, r)
       | Some false => (0, set_limit r x v)
       end.

Definition remove_spec (cap : bool) (x : Z) (r : registry) : Z * registry :=
  if x <? 0 then (- EINVAL, r)
  else if negb cap then (- EPERM, r)
  else if has_pid r x then (0, drop_pid r x)
  else (- 102, r).

(** ** Linked lists *)
Notation heap := (gmap Z memory_limitation).

(** [lseg h p l q]: following [next] from [p] visits the nodes [l] and arrives at [q]. *)
Inductive lseg (h : heap) : Z -> list Z -> Z -> Prop :=
  | lseg_nil p : lseg h p [] p
  | lseg_cons p e l q :
      p <> 0 -> h !! p = Some e -> lseg h (next e) l q -> lseg h p (p :: l) q.

Lemma lseg_app h p l l' q : lseg h p (l ++ l') q <-> exists m, lseg h p l m /\ lseg h m l' q.
Proof.
  revert p. induction l as [|x l IH]; intros p; cbn.
  - split; [intros Hl; exists p; split; [constructor|done]|]. intros (m & Hp & Hl). by inversion Hp; subst.
  - split.
    + inversion 1 as [|? e ? ? Hp He Hl]; subst. apply IH in Hl as (m & H1 & H2).
      exists m. split; [by econstructor|done].
    + intros (m & Hp & Hl). inversion Hp as [|? e ? ? Hx He Hr]; subst.
      econstructor; [done..|]. apply IH. by exists m.
Qed.

Lemma lseg_ext h h' p l q :
  (forall x, x ∈ l -> h' !! x = h !! x) -> lseg h p l q -> lseg h' p l q.
Proof.
  intros Hx Hl. induction Hl as [|p e l q Hp He Hl IH]; [constructor|].
  econstructor; [done|by rewrite Hx by set_solver|]. apply IH. set_solver.
Qed.

Lemma lseg_live h p l q : lseg h p l q -> Forall (fun x => is_Some (h !! x) /\ x <> 0) l.
Proof. induction 1; constructor; eauto. Qed.

Lemma lseg_end_nil h p l : lseg h p l 0 -> p = 0 -> l = [].
Proof. inversion 1; done. Qed.

(** The pairs a list of nodes carries. *)
Definition fields (h : heap) (p : Z) : option (Z * Z) := (fun e => (pid e, memory_limit e)) <$> h !! p.
Definition pairs (h : heap) (l : list Z) : registry := omap (fields h) l.

Lemma pairs_ext h h' l : (forall x, x ∈ l -> fields h' x = fields h x) -> pairs h' l = pairs h l.
Proof.
  intros Hx. unfold pairs. induction l as [|p l IH]; [done|]. cbn.
  rewrite Hx by set_solver. rewrite IH; [done|]. intros; apply Hx; set_solver.
Qed.

Lemma pairs_app h l l' : pairs h (l ++ l') = pairs h l ++ pairs h l'.
Proof. apply omap_app. Qed.

Lemma pairs_cons h p e l : h !! p = Some e -> pairs h (p :: l) = (pid e, memory_limit e) :: pairs h l.
Proof. intros He. unfold pairs, fields. cbn. by rewrite He. Qed.

(** ** The representation invariant

    The nodes form a list that ends in NULL, contains every live node once and
    carries [r]; no pid occurs twice; the mutex is free. *)
Record v1_rep (s : v1state) (l : list Z) (r : registry) : Prop := {
  vr_kernel : kernel_wf (v_k s);
  vr_list : lseg (v_nodes s) (memory_limit_head s) l 0;
  vr_nodup : NoDup l;
  vr_live p : p ∈ l <-> is_Some (v_nodes s !! p);
  vr_pairs : pairs (v_nodes s) l = r;
  vr_pids : NoDup (map fst r);
  vr_mutex : memory_limit_mutex s = false;
}.

Definition v1_state (s : v1state) (r : registry) : Prop := exists l, v1_rep s l r.

Lemma length_size (h : heap) l :
  NoDup l -> (forall p, p ∈ l <-> is_Some (h !! p)) -> length l = size h.
Proof.
  intros Hnd Hl. rewrite <- size_dom, <- (size_list_to_set (C := gset Z) l) by done.
  f_equal. apply set_eq. intros p. rewrite elem_of_list_to_set, elem_of_dom. apply Hl.
Qed.

(** The node of a pid, in list order. *)
Definition node_of (h : heap) (l : list Z) (x : Z) : option Z :=
  List.find (fun p => if h !! p is Some e then pid e =? x else false) l.

Lemma node_of_spec h l x :
  Forall (fun p => is_Some (h !! p)) l ->
  match node_of h l x with
  | Some p => has_pid (pairs h l) x = true /\
              exists l1 l2 e, l = l1 ++ p :: l2 /\ h !! p = Some e /\ pid e = x
  | None => has_pid (pairs h l) x = false
  end.
Proof.
  unfold node_of. induction 1 as [|p l [e He] Hl IH]; [done|]. cbn [List.find].
  rewrite (pairs_cons _ _ e), He by done. cbn. destruct (Z.eqb_spec (pid e) x) as [Hx|Hx]; cbn.
  - split; [done|]. by exists [], l, e.
  - destruct (List.find _ l) as [q|]; [|done]. destruct IH as (Hp & l1 & l2 & e' & -> & He' & Hx').
    split; [done|]. by exists (p :: l1), l2, e'.
Qed.

Section Refinement.
Context `{UserArch} `{KernelEnv} `{Slab} `{!SlabOk}.

Lemma find_node_run s p l x : forall fuel,
  lseg (v_nodes s) p l 0 -> (length l < fuel)%nat ->
  find_node fuel p x s = Done (node_of (v_nodes s) l x) s.
Proof.
  intros fuel Hl. revert fuel. remember 0 as z eqn:Hz.
  induction Hl as [p|p e l q Hp He Hl IH]; intros [|fuel] Hf; cbn [length] in Hf; try lia; cbn [find_node node_of List.find].
  - subst. done.
  - unfold node_at. kernel_unfold. rewrite (proj2 (Z.eqb_neq _ _) Hp), He.
    destruct (pid e =? x); [done|]. apply IH; [done|lia].
Qed.

Lemma rep_fuel s l r : v1_rep s l r -> (length l < list_fuel s)%nat.
Proof. intros Hr. unfold list_fuel. rewrite (length_size (v_nodes s) l) by apply Hr. lia. Qed.

Lemma rep_live s l r : v1_rep s l r -> Forall (fun p => is_Some (v_nodes s !! p)) l.
Proof. intros Hr. apply Forall_forall. intros p. by apply (vr_live _ _ _ Hr). Qed.

Lemma rep_node s l r x :
  v1_rep s l r ->
  match node_of (v_nodes s) l x with
  | Some p => has_pid r x = true /\
              exists l1 l2 e, l = l1 ++ p :: l2 /\ v_nodes s !! p = Some e /\ pid e = x
  | None => has_pid r x = false
  end.
Proof. intros Hr. rewrite <- (vr_pairs _ _ _ Hr). apply node_of_spec. by eapply rep_live. Qed.

Lemma rep_kernel s l r k' b :
  v1_rep s l r -> same_objects (v_k s) k' -> b = false ->
  v1_rep (mkV1 k' (v_nodes s) (memory_limit_head s) b) l r.
Proof. intros [] Hk ->. split; try done. by eapply kernel_wf_same. Qed.

(** A new node in front. *)
Lemma rep_add s l r p x v :
  v1_rep s l r -> p ∉ dom (v_nodes s) -> p <> 0 -> has_pid r x = false ->
  v1_rep (mkV1 (v_k s) (<[p := mkNode x v (memory_limit_head s)]> (v_nodes s)) p false)
         (p :: l) ((x, v) :: r).
Proof.
  intros [Hk Hl Hnd Hlive Hp Hpids Hm] Hfresh Hp0 Hx. apply not_elem_of_dom in Hfresh.
  assert (p ∉ l) as Hnin by (intros Hin%Hlive; rewrite Hfresh in Hin; by destruct Hin).
  split; cbn [v_k v_nodes memory_limit_head memory_limit_mutex]; try done.
  - econstructor; [done|by rewrite lookup_insert_eq|]. cbn. eapply lseg_ext, Hl.
    intros y Hy. rewrite lookup_insert_ne by set_solver. done.
  - by constructor.
  - intros q. rewrite elem_of_cons, Hlive, lookup_insert. case_decide; naive_solver.
  - rewrite (pairs_cons _ _ (mkNode x v (memory_limit_head s))) by (by rewrite lookup_insert_eq).
    cbn. f_equal. rewrite <- Hp. apply pairs_ext. intros y Hy. unfold fields.
    by rewrite lookup_insert_ne by set_solver.
  - cbn [map fst]. constructor; [|done]. intros Hin%has_pid_elem. congruence.
Qed.

(** One pid, one node: changing the limit of a node changes the pair of its pid. *)
Lemma pairs_split_fresh h l1 p e l2 :
  h !! p = Some e -> NoDup (map fst (pairs h (l1 ++ p :: l2))) ->
  has_pid (pairs h l1) (pid e) = false /\ has_pid (pairs h l2) (pid e) = false.
Proof.
  intros He. rewrite pairs_app, (pairs_cons _ _ e) by done. rewrite map_app. cbn.
  intros (_ & Hd & [Hn _]%NoDup_cons)%NoDup_app.
  split; apply not_true_is_false; intros Hin%has_pid_elem; [|done].
  apply (Hd _ Hin). set_solver.
Qed.

Lemma rep_update s l1 p l2 r e v :
  v1_rep s (l1 ++ p :: l2) r -> v_nodes s !! p = Some e ->
  v1_rep (mkV1 (v_k s) (<[p := e <| memory_limit := v |>]> (v_nodes s)) (memory_limit_head s) false)
         (l1 ++ p :: l2) (set_limit r (pid e) v).
Proof.
  intros [Hk Hl Hnd Hlive Hp Hpids Hm] He.
  assert (p ∉ l1 /\ p ∉ l2) as [Hn1 Hn2].
  { apply NoDup_app in Hnd as (_ & Hd & [? _]%NoDup_cons). split; [|done]. intros Hin. apply (Hd p Hin). set_solver. }
  set (h' := <[p := e <| memory_limit := v |>]> (v_nodes s)).
  assert (forall y, y <> p -> h' !! y = v_nodes s !! y) as Hother
    by (intros y Hy; unfold h'; by rewrite lookup_insert_ne).
  assert (h' !! p = Some (e <| memory_limit := v |>)) as Hself by (by unfold h'; rewrite lookup_insert_eq).
  split; cbn [v_k v_nodes memory_limit_head memory_limit_mutex]; try done.
  - apply lseg_app in Hl as (m & H1' & H2'). inversion H2' as [|? e' ? ? Hp0 He' Hr']; subst. simplify_eq.
    apply lseg_app. exists p. split.
    + eapply lseg_ext; [|exact H1']. intros y Hy. apply Hother. set_solver.
    + econstructor; [done|exact Hself|]. eapply lseg_ext; [|exact Hr']. intros y Hy. apply Hother. set_solver.
  - intros q. rewrite Hlive. destruct (decide (q = p)) as [->|Hq]; [|by rewrite Hother].
    rewrite Hself, He. split; eauto.
  - destruct (pairs_split_fresh (v_nodes s) l1 p e l2) as [F1 F2]; [done|by rewrite Hp|].
    rewrite <- Hp, !pairs_app. unfold set_limit. rewrite map_app.
    rewrite (pairs_cons h' _ (e <| memory_limit := v |>)), (pairs_cons (v_nodes s) _ e) by done. cbn.
    rewrite Z.eqb_refl. fold (set_limit (pairs (v_nodes s) l1) (pid e) v).
    fold (set_limit (pairs (v_nodes s) l2) (pid e) v). rewrite !set_limit_absent by done.
    f_equal; [|f_equal]; apply pairs_ext; intros y Hy; unfold fields; rewrite Hother; [done|set_solver|done|set_solver].
  - by rewrite map_fst_set_limit.
Qed.

Lemma wp_node_at p e Q s : p <> 0 -> v_nodes s !! p = Some e -> wp (node_at p) Q s <-> Q e s.
Proof.
  intros Hp He. unfold node_at. rewrite (proj2 (Z.eqb_neq _ _) Hp). autorewrite with wp. by rewrite He.
Qed.

(** The unlinking loop: [l1] is behind, [l2] is ahead. *)
Definition unlinked (s s' : v1state) (l1 l2 : list Z) (q : Z) : Prop :=
  exists l2a l2b e, l2 = l2a ++ q :: l2b /\ v_nodes s !! q = Some e /\
    lseg (delete q (v_nodes s')) (memory_limit_head s') (l1 ++ l2a ++ l2b) 0 /\
    (forall p, fields (v_nodes s') p = fields (v_nodes s) p) /\
    v_k s' = v_k s /\ memory_limit_mutex s' = memory_limit_mutex s.

(** Skipping a node: the one before it points behind it. *)
Lemma lseg_skip h p l pr q ep eq l2 :
  lseg h p (l ++ [pr]) q -> lseg h q (q :: l2) 0 -> NoDup ((l ++ [pr]) ++ q :: l2) ->
  h !! pr = Some ep -> h !! q = Some eq ->
  lseg (delete q (<[pr := ep <| next := next eq |>]> h)) p ((l ++ [pr]) ++ l2) 0.
Proof.
  intros Hl Hq Hnd Hpr Heq.
  inversion Hq as [|? e' ? ? Hq0 Heq' Hr]; subst. simplify_eq.
  apply NoDup_app in Hnd as (Hnd1 & Hd & [Hq2 Hnd2]%NoDup_cons).
  apply NoDup_app in Hnd1 as (_ & Hd1 & _).
  assert (pr <> q) by (intros ->; apply (Hd q); set_solver).
  apply lseg_app in Hl as (m & H1' & H2'). inversion H2' as [|? e' ? ? Hp0 He' Hr']; subst. simplify_eq.
  rewrite <- app_assoc. apply lseg_app. exists pr. split.
  - eapply lseg_ext; [|exact H1']. intros y Hy.
    rewrite lookup_delete_ne, lookup_insert_ne; [done| |].
    + intros ->. apply (Hd1 y Hy). set_solver.
    + intros ->. apply (Hd y); set_solver.
  - cbn. econstructor; [done|by rewrite lookup_delete_ne, lookup_insert_eq|]. cbn.
    eapply lseg_ext; [|exact Hr]. intros y Hy.
    rewrite lookup_delete_ne, lookup_insert_ne; [done| |].
    + intros ->. apply (Hd y); set_solver.
    + intros ->. done.
Qed.

Lemma unlink_run x : forall fuel s l1 l2 cur,
  lseg (v_nodes s) (memory_limit_head s) l1 cur -> lseg (v_nodes s) cur l2 0 ->
  NoDup (l1 ++ l2) -> (length l2 < fuel)%nat ->
  wp (unlink_node fuel (default 0 (last l1)) cur x)
     (fun res s' => match node_of (v_nodes s) l2 x with
        | None => res = None /\ s' = s
        | Some q => res = Some q /\ unlinked s s' l1 l2 q
        end) s.
Proof.
  induction fuel as [|fuel IH]; intros s l1 l2 cur Hl1 Hl2 Hnd Hf; [lia|]. cbn [unlink_node].
  inversion Hl2 as [|? e l2' ? Hc He Hr]; subst; [done|].
  rewrite (proj2 (Z.eqb_neq _ _) Hc). unfold node_of. cbn [List.find]. rewrite He.
  rewrite wp_bind, (wp_node_at cur e) by done. destruct (pid e =? x).
  - autorewrite with wp.
    destruct l1 as [|pr l1] using rev_ind; [|clear IHl1].
    + cbn [last default]. rewrite Z.eqb_refl, wp_modify, wp_ret. split; [done|].
      exists [], l2', e. split_and!; try done. cbn. eapply lseg_ext; [|exact Hr].
      intros y Hy. apply lookup_delete_ne. apply NoDup_cons in Hnd. intros ->. by destruct Hnd.
    + rewrite last_snoc. change (default 0 (Some pr)) with pr.
      assert (exists ep, v_nodes s !! pr = Some ep /\ pr <> 0) as (ep & Hpr & Hpr0).
      { apply lseg_live, Forall_app in Hl1 as [_ [[[ep ?] ?] _]%Forall_cons]. eauto. }
      rewrite (proj2 (Z.eqb_neq _ _) Hpr0), wp_bind, (wp_node_at pr ep) by done. unfold put_node.
      autorewrite with wp. split; [done|]. exists [], l2', e. split_and!; try done.
      * cbn. by eapply lseg_skip.
      * intros y. unfold fields. cbn. rewrite lookup_insert. case_decide; [|done]. subst. by rewrite Hpr.
  - specialize (IH s (l1 ++ [cur]) l2' (next e)). rewrite last_snoc in IH.
    eapply wp_mono, IH; [| |done| |cbn in Hf; lia].
    + intros res s'. unfold node_of. destruct (List.find _ l2') as [q|]; [|done].
      intros [-> (l2a & l2b & eq & -> & Heq & Hl & Hrest)]. split; [done|].
      exists (cur :: l2a), l2b, eq. split_and!; [done..| |apply Hrest|apply Hrest|apply Hrest].
      by rewrite <- app_assoc in Hl.
    + apply lseg_app. exists cur. split; [done|]. econstructor; [done..|]. constructor.
    + by rewrite <- app_assoc.
Qed.

(** The list without the unlinked and freed node. *)
Lemma rep_remove s s1 s' l r q :
  v1_rep s l r -> v_nodes s1 = v_nodes s -> unlinked s1 s' [] l q ->
  exists e, v_nodes s !! q = Some e /\
    v1_state (mkV1 (v_k s) (delete q (v_nodes s')) (memory_limit_head s') false) (drop_pid r (pid e)).
Proof.
  intros [Hk Hl Hnd Hlive Hp Hpids Hm] Hs1 (la & lb & e & -> & He & Hl' & Hfields & _).
  rewrite Hs1 in He, Hfields.
  cbn [app] in Hl'. exists e. split; [done|]. exists (la ++ lb).
  destruct (pairs_split_fresh (v_nodes s) la q e lb) as [F1 F2]; [done|by rewrite Hp|].
  apply NoDup_app in Hnd as Hnd'. destruct Hnd' as (Na & Hd & [Nq Nb]%NoDup_cons).
  assert (q ∉ la) as Nqa by (intros Hin; apply (Hd q Hin); set_solver).
  assert (forall y, y <> q -> fields (delete q (v_nodes s')) y = fields (v_nodes s) y) as Hf.
  { intros y Hy. rewrite <- Hfields. unfold fields. by rewrite lookup_delete_ne. }
  split; cbn [v_k v_nodes memory_limit_head memory_limit_mutex]; try done.
  - apply NoDup_app. split_and!; [done| |done]. intros y Hy Hyb. apply (Hd y Hy). set_solver.
  - intros y. assert (is_Some (v_nodes s' !! y) <-> is_Some (v_nodes s !! y)) as Hsome.
    { specialize (Hfields y). unfold fields in Hfields. rewrite <- !fmap_is_Some with (f := fun e => (pid e, memory_limit e)).
      by rewrite Hfields. }
    rewrite lookup_delete_is_Some, Hsome, <- Hlive. split; [|set_solver].
    intros Hy. split; [|set_solver]. intros ->. set_solver.
  - rewrite <- Hp, !pairs_app, (pairs_cons _ _ e) by done.
    unfold drop_pid. rewrite filter_app, filter_cons_False by naive_solver.
    fold (drop_pid (pairs (v_nodes s) la) (pid e)). fold (drop_pid (pairs (v_nodes s) lb) (pid e)).
    rewrite !drop_pid_absent by done. f_equal; apply pairs_ext; intros y Hy; apply Hf; set_solver.
  - by apply NoDup_drop_pid.
Qed.

(** *** The syscalls *)
Definition room (s : v1state) : bool := if kmalloc (dom (v_nodes s)) 24 is Some _ then true else false.

(** Whether the process exists and, if so, whether the limit check stops the update. *)
Definition over_limit (k : kernel) (x v : Z) : option bool :=
  p ← k_vpids k !! x;
  t ← k_tasks k !! p;
  Some (truthy (t_mm t) && match k_mms k !! t_mm t with Some mm => v <? total_vm mm | None => false end).

Lemma v1_exceeds_limit_run k x v p :
  kernel_wf k -> k_vpids k !! x = Some p ->
  exists b, over_limit k x v = Some b /\ forall k', same_objects k k' -> exceeds_limit p v k' = Done b k'.
Proof.
  intros Hk Hv. destruct (kw_vpids k Hk _ _ Hv) as [t Ht]. unfold over_limit. rewrite Hv. cbn. rewrite Ht. cbn.
  eexists. split; [done|]. intros k' (Et & _ & Em & _). unfold exceeds_limit, task_at, mm_at. kernel_unfold.
  rewrite Et, Ht. destruct (tw_mm _ _ (kw_tasks k Hk _ _ Ht)) as [->|[mm Hmm]]; [done|].
  destruct (truthy (t_mm t)); [|done]. cbn. by rewrite Em, Hmm.
Qed.

Lemma v1_wp_kern {A} (m : Kern kernel A) (Q : A -> v1state -> Prop) s :
  wp (kern m) Q s <-> wp m (fun a k => Q a (s <| v_k := k |>)) (v_k s).
Proof. unfold wp, kern, zoom. by destruct (m (v_k s)). Qed.
Lemma v1_wp_mutex_lock Q s :
  memory_limit_mutex s = false -> wp mutex_lock Q s <-> Q tt (s <| memory_limit_mutex := true |>).
Proof. intros Hm. unfold wp, mutex_lock. by rewrite Hm. Qed.
Lemma v1_wp_mutex_unlock Q s : wp mutex_unlock Q s <-> Q tt (s <| memory_limit_mutex := false |>).
Proof. done. Qed.
Lemma v1_wp_pr_info fmt args Q k : wp (pr_info fmt args) Q k <-> Q tt (k <| k_log ::= cons (fmt, args) |>).
Proof. done. Qed.
Hint Rewrite @v1_wp_kern v1_wp_mutex_unlock v1_wp_pr_info : wp.

(** The search of a call that has taken the mutex. *)
Lemma wp_search s s1 l r x Q :
  v1_rep s l r -> v_nodes s1 = v_nodes s ->
  wp (find_node (list_fuel s1) (memory_limit_head s) x) Q s1 <-> Q (node_of (v_nodes s) l x) s1.
Proof.
  intros Hr Hs. apply wp_run. rewrite <- Hs. apply find_node_run.
  - rewrite Hs. apply Hr.
  - unfold list_fuel. rewrite Hs. by apply (rep_fuel s l r).
Qed.

(** The list is as before; only the log and the lookup count may differ. *)
Ltac same_rep Hr :=
  lazymatch type of Hr with
  | v1_rep ?s ?l ?r =>
      split; [by repeat split|]; exists r; split; [|done]; exists l;
      apply (rep_kernel s l r); [done | by repeat split | by apply Hr || done]
  end.

Lemma v1_add_behaviour s r x v :
  v1_state s r ->
  wp (taro_add_memory_limit x v)
     (fun res s' => same_objects (v_k s) (v_k s') /\
        exists r', v1_state s' r' /\ (res, r') = add_spec (room s) x v r) s.
Proof.
  intros [l Hr]. pose proof (vr_mutex _ _ _ Hr) as Hm. unfold taro_add_memory_limit, add_spec, room.
  destruct ((x <? 0) || (v <=? 0)); [rewrite wp_ret; split; [done|]; exists r; by split; [exists l|]|].
  rewrite wp_bind, v1_wp_mutex_lock by done. autorewrite with wp.
  rewrite (wp_search s _ l r) by done.
  pose proof (rep_node s l r x Hr) as Hnode. destruct (node_of (v_nodes s) l x) as [p|].
  { destruct Hnode as [-> _]. autorewrite with wp. same_rep Hr. }
  rewrite Hnode. autorewrite with wp.
  change (dom (v_nodes (s <| memory_limit_mutex := true |>))) with (dom (v_nodes s)).
  destruct (kmalloc (dom (v_nodes s)) 24) as [p|] eqn:Hp; [|autorewrite with wp; same_rep Hr].
  apply kmalloc_fresh in Hp as [Hfresh Hp0]. unfold put_node. autorewrite with wp.
  split; [by repeat split|]. eexists. split; [|done]. exists (p :: l). by apply (rep_add s l r).
Qed.

Lemma v1_update_behaviour s r x v :
  v1_state s r ->
  wp (taro_update_memory_limit x v)
     (fun res s' => same_objects (v_k s) (v_k s') /\ exists r', v1_state s' r' /\
        (res, r') = update_spec (capable (v_k s) CAP_SYS_ADMIN) (over_limit (v_k s) x v) x v r) s.
Proof.
  intros [l Hr]. pose proof (vr_mutex _ _ _ Hr) as Hm. unfold taro_update_memory_limit, update_spec.
  destruct ((x <? 0) || (v <=? 0)); [autorewrite with wp; same_rep Hr|].
  autorewrite with wp. destruct (capable (v_k s) CAP_SYS_ADMIN); cbn [negb]; [|autorewrite with wp; same_rep Hr].
  rewrite wp_bind, v1_wp_mutex_lock by done. autorewrite with wp. rewrite (wp_search s _ l r) by done.
  pose proof (rep_node s l r x Hr) as Hnode. destruct (node_of (v_nodes s) l x) as [p|].
  2:{ rewrite Hnode. autorewrite with wp. same_rep Hr. }
  destruct Hnode as (-> & l1 & l2 & e & -> & He & <-). autorewrite with wp. cbn [negb].
  change (k_vpids (v_k ((s <| v_k := v_k s |>) <| memory_limit_mutex := true |>))) with (k_vpids (v_k s)).
  destruct (k_vpids (v_k s) !! pid e) as [task|] eqn:Hv.
  2:{ unfold over_limit. rewrite Hv. autorewrite with wp. same_rep Hr. }
  destruct (v1_exceeds_limit_run _ _ v _ (vr_kernel _ _ _ Hr) Hv) as (b & -> & Hrun).
  autorewrite with wp.
  match goal with |- wp (exceeds_limit _ _) ?Q ?k => rewrite (wp_run _ Q k _ _ (Hrun k ltac:(by repeat split))) end.
  destruct b; [autorewrite with wp; same_rep Hr|].
  assert (p <> 0) as Hp0.
  { pose proof (lseg_live _ _ _ _ (vr_list _ _ _ Hr)) as Hl. apply Forall_app in Hl as [_ Hl].
    apply Forall_cons in Hl. by destruct Hl as [[_ ?] _]. }
  rewrite wp_bind, (wp_node_at p e) by done. unfold put_node. autorewrite with wp.
  split; [by repeat split|]. eexists. split; [|done]. exists (l1 ++ p :: l2).
  match goal with |- v1_rep ?s' _ _ => apply (rep_kernel (mkV1 (v_k s) (v_nodes s') (memory_limit_head s') false)) end;
    [by apply (rep_update s) | by repeat split | done].
Qed.

Lemma v1_remove_behaviour s r x :
  v1_state s r ->
  wp (taro_remove_memory_limit x)
     (fun res s' => same_objects (v_k s) (v_k s') /\ exists r', v1_state s' r' /\
        (res, r') = remove_spec (capable (v_k s) CAP_SYS_ADMIN) x r) s.
Proof.
  intros [l Hr]. pose proof (vr_mutex _ _ _ Hr) as Hm. unfold taro_remove_memory_limit, remove_spec.
  destruct (x <? 0); [autorewrite with wp; same_rep Hr|].
  autorewrite with wp. destruct (capable (v_k s) CAP_SYS_ADMIN); cbn [negb]; [|autorewrite with wp; same_rep Hr].
  rewrite wp_bind, v1_wp_mutex_lock by done. autorewrite with wp.
  set (s1 := (s <| v_k := v_k s |>) <| memory_limit_mutex := true |>).
  change (memory_limit_head s1) with (memory_limit_head s).
  pose proof (unlink_run x (list_fuel s1) s1 [] l (memory_limit_head s)) as Hun.
  cbn [last app] in Hun. change (default 0 None) with 0 in Hun.
  eapply wp_mono, Hun; [|constructor|apply Hr|apply Hr|by apply (rep_fuel s l r)].
  change (v_nodes s1) with (v_nodes s).
  pose proof (rep_node s l r x Hr) as Hnode. intros res s'.
  destruct (node_of (v_nodes s) l x) as [q|] eqn:Hq.
  2:{ intros [-> ->]. rewrite Hnode. autorewrite with wp. same_rep Hr. }
  intros [-> Hu]. destruct Hnode as (-> & l1 & l2 & e & -> & He & <-). unfold kfree. autorewrite with wp.
  destruct (rep_remove s s1 s' (l1 ++ q :: l2) r q Hr) as (e' & He' & [l' Hrep]); [done|exact Hu|]. simplify_eq.
  destruct Hu as (_ & _ & _ & _ & _ & _ & _ & Hk & _). change (v_k s1) with (v_k s) in Hk.
  split; [cbn; rewrite Hk; by repeat split|]. eexists. split; [|done]. exists l'.
  match goal with |- v1_rep ?s2 _ _ => apply (rep_kernel (mkV1 (v_k s) (v_nodes s2) (memory_limit_head s2) false)) end;
    [exact Hrep | cbn; rewrite Hk; by repeat split | done].
Qed.

(** *** Reading the registry back *)
Lemma store_node_entry buf (c : nat) e :
  store_node buf (Z.of_nat c) e = store_entry 24 buf c (pid e) (memory_limit e).
Proof.
  unfold store_node, store_entry, sizeof_node. by replace (Z.to_nat (Z.of_nat c * 24)) with (24 * c)%nat by lia.
Qed.

Lemma v1_fill_buffer_run hp max : forall fuel s p l r buf,
  lseg (v_nodes s) p l 0 -> (length l < fuel)%nat ->
  0 < max < 2 ^ 64 -> Z.of_nat (length hp) = max * 24 ->
  Z.of_nat (length r) <= max -> Z.of_nat (length r + length l) < 2 ^ 31 -> filled 24 hp buf r ->
  let n := Nat.min (length l) (Z.to_nat max - length r) in
  wp (fill_buffer fuel p max (Z.of_nat (length r)) buf)
     (fun res s' => exists buf' log, res = (Z.of_nat (length r + n), buf') /\
        filled 24 hp buf' (r ++ take n (pairs (v_nodes s) l)) /\
        s' = s <| v_k ::= fun k => k <| k_log := log |> |>) s.
Proof.
  induction fuel as [|fuel IH]; intros s p l r buf Hl Hf Hmax Hlen Hr Hs Hfill n; [lia|]. cbn [fill_buffer].
  assert (s = s <| v_k ::= fun k => k <| k_log := k_log (v_k s) |> |>) as Hid by (by destruct s as [[]]).
  rewrite u64_id by (unfold is_u64; lia).
  inversion Hl as [|? e l' ? Hp He Hr']; subst.
  { rewrite Z.eqb_refl. cbn [negb andb]. rewrite wp_ret. exists buf, (k_log (v_k s)). unfold n. cbn.
    rewrite Nat.add_0_r, app_nil_r. done. }
  rewrite (proj2 (Z.eqb_neq _ _) Hp). cbn [negb andb length] in *.
  destruct (Z.ltb_spec (Z.of_nat (length r)) max) as [Hlt|Hge].
  2:{ rewrite wp_ret. exists buf, (k_log (v_k s)). replace n with 0%nat by (unfold n; lia). cbn.
      rewrite Nat.add_0_r, app_nil_r. done. }
  rewrite wp_bind, (wp_node_at p e) by done. autorewrite with wp.
  rewrite s32_id by (unfold is_s32; lia). rewrite store_node_entry.
  replace (Z.of_nat (length r) + 1) with (Z.of_nat (length (r ++ [(pid e, memory_limit e)])))
    by (rewrite length_app; cbn; lia).
  eapply wp_mono, IH; try done; rewrite ?length_app; cbn [length]; try lia.
  2:{ apply filled_snoc; [lia|done|lia]. }
  set (n' := Nat.min (length l') (Z.to_nat max - (length r + 1))).
  assert (n = S n') as -> by (unfold n, n'; lia).
  intros [c b] s' (buf' & log & [= -> ->] & Hfill' & ->). exists buf', log. split_and!.
  - do 2 f_equal. lia.
  - rewrite (pairs_cons _ _ e) by done. cbn [take]. rewrite <- app_assoc in Hfill'. exact Hfill'.
  - by destruct s as [[]].
Qed.

Definition returned (r : registry) (max_entries : Z) : nat := Nat.min (length r) (Z.to_nat max_entries).

Definition get_post (s : v1state) (r : registry) (u : Z) (n : nat) (pr res : Z) (s' : v1state) : Prop :=
  v1_state s' r /\ same_objects (v_k s) (v_k s') /\
  user_frame (k_user (v_k s)) (k_user (v_k s')) u (24 * Z.of_nat n) pr /\
  res ∈ [0; - EINVAL; - ENOMEM; - EFAULT].

Definition with_kernel (s : v1state) (k : kernel) : v1state := s <| v_k := k |>.

Lemma v1_get_run s r u max pr hp :
  v1_state s r -> u <> 0 -> pr <> 0 -> 0 < max < 2 ^ 64 -> Z.of_nat (length r) < 2 ^ 31 ->
  kmalloc_array max sizeof_node = Some hp ->
  let n := returned r max in
  exists buf log,
    (forall m, returned_entries 24 (write_bytes m u (take (24 * n) buf)) u (take n r) hp) /\
    length (take (24 * n) buf) = (24 * n)%nat /\
    let k0 := (v_k s) <| k_log := log |> in
    taro_get_memory_limits u max pr s =
      let '(m1, left1) := copy_to_user (k_user (v_k s)) u (take (24 * n) buf) in
      if truthy left1 then Done (- EFAULT) (with_kernel s (user_accessed m1 k0))
      else let '(m2, left2) := copy_to_user m1 pr (le_bytes 4 (Z.of_nat n)) in
      Done (if truthy left2 then - EFAULT else 0) (with_kernel s (user_accessed m2 (user_accessed m1 k0))).
Proof.
  intros [l Hr] Hu Hpr Hmax Hlt Hbuf n.
  assert (length r = length l) as Hlen.
  { rewrite <- (vr_pairs _ _ _ Hr). unfold pairs. pose proof (rep_live _ _ _ Hr) as Hl. clear -Hl.
    induction Hl as [|p l [e He] _ IH]; [done|]. cbn. unfold fields at 1. rewrite He. cbn. by rewrite IH. }
  pose proof (kmalloc_array_length max sizeof_node hp ltac:(lia) ltac:(unfold sizeof_node; lia) Hbuf) as Hsize.
  unfold sizeof_node in Hsize.
  set (s1 := s <| memory_limit_mutex := true |>).
  pose proof (v1_fill_buffer_run hp max (list_fuel s1) s1 (memory_limit_head s) l [] hp
    (vr_list _ _ _ Hr) (rep_fuel _ _ _ Hr) Hmax Hsize ltac:(cbn; lia) ltac:(cbn; lia) (filled_nil 24 hp)) as Hfill.
  apply wp_done in Hfill as (res & s2 & Hrun & buf & log & -> & Hfill & ->).
  cbn [length app Nat.add] in Hfill, Hrun. rewrite <- Hlen, Nat.sub_0_r in Hfill, Hrun.
  change (Nat.min _ _) with n in Hfill, Hrun.
  change (v_nodes s1) with (v_nodes s) in Hfill. rewrite (vr_pairs _ _ _ Hr) in Hfill.
  assert (length (take n r) = n) as Hn by (rewrite length_take; unfold n, returned; lia).
  assert (24 * n <= length hp)%nat as Hroom by (unfold n, returned; lia).
  exists buf, log. split_and!.
  { intros m. rewrite <- Hn at 1. apply filled_returned; [lia|done|by rewrite Hn]. }
  { rewrite length_take. destruct Hfill as [Hb _]. lia. }
  intros k0. unfold taro_get_memory_limits. rewrite Hbuf.
  rewrite (proj2 (Z.eqb_neq u 0)), (proj2 (Z.eqb_neq pr 0)), (proj2 (Z.leb_gt max 0)) by lia.
  cbn [orb]. unfold mutex_lock, mutex_unlock, kern, k_copy_to_user. kernel_unfold.
  pose proof (vr_mutex _ _ _ Hr) as Hm. rewrite Hm. fold s1. change (memory_limit_head s1) with (memory_limit_head s).
  change (Z.of_nat 0) with 0 in Hrun. rewrite Hrun. unfold sizeof_node.
  rewrite (u64_id (Z.of_nat n * 24)) by (unfold is_u64, n, returned; lia).
  replace (Z.to_nat (Z.of_nat n * 24)) with (24 * n)%nat by lia.
  destruct s as [k nodes hd mut]. cbn in Hm. subst mut. cbn -[Nat.mul].
  destruct (copy_to_user (k_user k) u (take (24 * n) buf)) as [m1 left1].
  destruct (truthy left1); [done|]. cbn -[Nat.mul].
  destruct (copy_to_user m1 pr (le_bytes 4 (Z.of_nat n))) as [m2 left2]. by destruct (truthy left2).
Qed.

Lemma v1_get_behaviour s r u max pr :
  v1_state s r -> is_u64 max -> Z.of_nat (length r) < 2 ^ 31 ->
  wp (taro_get_memory_limits u max pr) (get_post s r u (returned r max) pr) s.
Proof.
  intros Hs Hmax Hlt.
  destruct ((u =? 0) || (pr =? 0) || (max <=? 0)) eqn:Hg.
  { unfold taro_get_memory_limits. rewrite Hg. split_and!; try done. set_solver. }
  destruct (kmalloc_array max sizeof_node) as [hp|] eqn:Hk.
  2:{ unfold taro_get_memory_limits. rewrite Hg, Hk. split_and!; try done. set_solver. }
  bool_facts. destruct (v1_get_run s r u max pr hp) as (buf & log & _ & Hlen & Hrun); try done.
  { unfold is_u64 in *. lia. }
  unfold wp. rewrite Hrun.
  destruct (copy_to_user _ u _) as [m1 left1] eqn:H1'.
  destruct (copy_to_user m1 pr _) as [m2 left2] eqn:H2'.
  edestruct copy_frames as [Hf1 Hf2]; [apply length_le_bytes | exact H1' | exact H2' |].
  unfold blen in *. rewrite Hlen, Nat2Z.inj_mul in Hf1, Hf2.
  assert (forall k', same_objects (v_k s) k' -> v1_state (with_kernel s k') r) as Hrep.
  { intros k' Hk'. destruct Hs as [l Hr]. exists l. by apply (rep_kernel s l r); [..|apply Hr]. }
  destruct (truthy left1); [|destruct (truthy left2)];
    (split_and!; [apply Hrep; by repeat split | by repeat split | done | set_solver]).
Qed.

(** in the first version, too, a call of [taro_get_memory_limits] with
    accessible and disjoint buffers returns 0 and leaves the number of entries and
    the pid and limit of the first entries in list order, here at a stride of 24
    bytes.  The four padding bytes and the eight bytes of the [next] pointer of
    each element are whatever the kernel allocation held before the call. *)
Theorem v1_get_stores_entries `{!UserArchOk} s r u max pr hp :
  v1_state s r -> u <> 0 -> pr <> 0 -> 0 < max < 2 ^ 64 -> Z.of_nat (length r) < 2 ^ 31 ->
  kmalloc_array max sizeof_node = Some hp ->
  let n := returned r max in
  can_copy_to (k_user (v_k s)) u (24 * Z.of_nat n) -> can_copy_to (k_user (v_k s)) pr 4 ->
  pr + 4 <= u \/ u + 24 * Z.of_nat n <= pr ->
  wp (taro_get_memory_limits u max pr)
     (fun res s' => res = 0 /\
        read_bytes (k_user (v_k s')) pr 4 = le_bytes 4 (Z.of_nat n) /\
        returned_entries 24 (k_user (v_k s')) u (take n r) hp) s.
Proof.
  intros Hs Hu Hpr Hmax Hlt Hk n Hcu Hcp Hdis.
  destruct (v1_get_run s r u max pr hp) as (buf & log & Hent & Hlen & Hrun); try done. fold n in Hrun, Hent, Hlen.
  unfold wp. rewrite Hrun, copy_to_user_ok.
  2:{ unfold blen. rewrite Hlen. by replace (Z.of_nat (24 * n)) with (24 * Z.of_nat n) by lia. }
  cbn [truthy negb Z.eqb]. rewrite copy_to_user_ok.
  2:{ by apply can_copy_to_write. }
  cbn [truthy negb Z.eqb]. split_and!; try done.
  - apply (read_write_bytes _ _ (le_bytes 4 _)).
  - apply returned_entries_frame, Hent; [lia|].
    rewrite length_le_bytes, length_take. unfold n, returned in *. lia.
Qed.

(** *** Sequences of calls *)
Inductive v1_call :=
  | VAdd (process_pid limit : Z)
  | VGet (u_processes_buffer max_entries processes_returned : Z)
  | VUpdate (process_pid limit : Z)
  | VRemove (process_pid : Z).

Definition exec (c : v1_call) : Kern v1state Z :=
  match c with
  | VAdd x v => taro_add_memory_limit x v
  | VGet u max pr => taro_get_memory_limits u max pr
  | VUpdate x v => taro_update_memory_limit x v
  | VRemove x => taro_remove_memory_limit x
  end.

Fixpoint exec_all (cs : list v1_call) : Kern v1state (list Z) :=
  match cs with
  | [] => mret []
  | c :: cs => r ← exec c; rs ← exec_all cs; mret (r :: rs)
  end.

Inductive v1_step : v1_call -> Z -> registry -> registry -> Prop :=
  | vs_add x v rm r res r' : (res, r') = add_spec rm x v r -> v1_step (VAdd x v) res r r'
  | vs_get u max pr r res : res ∈ [0; - EINVAL; - ENOMEM; - EFAULT] -> v1_step (VGet u max pr) res r r
  | vs_update x v cap fnd r res r' :
      (res, r') = update_spec cap fnd x v r -> v1_step (VUpdate x v) res r r'
  | vs_remove x cap r res r' : (res, r') = remove_spec cap x r -> v1_step (VRemove x) res r r'.

Inductive v1_steps : list v1_call -> list Z -> registry -> registry -> Prop :=
  | vss_nil r : v1_steps [] [] r r
  | vss_cons c cs res ress r r' r'' :
      v1_step c res r r' -> v1_steps cs ress r' r'' -> v1_steps (c :: cs) (res :: ress) r r''.

Definition typed_call (c : v1_call) : Prop := if c is VGet _ max _ then is_u64 max else True.

Lemma length_v1_step c res r r' : v1_step c res r r' -> (length r' <= S (length r))%nat.
Proof.
  destruct 1 as [x v rm r res r' E| |x v cap fnd r res r' E|x cap r res r' E]; try lia;
    unfold add_spec, update_spec, remove_spec in E; repeat case_match; simplify_eq; cbn; try lia.
  - unfold set_limit. rewrite length_map. lia.
  - unfold drop_pid. pose proof (length_filter (fun e => e.1 <> x) r). lia.
Qed.

Lemma v1_exec_simulates c s r :
  v1_state s r -> typed_call c -> Z.of_nat (length r) < 2 ^ 31 ->
  wp (exec c) (fun res s' => exists r', v1_state s' r' /\ v1_step c res r r') s.
Proof.
  intros Hs Hty Hlt. destruct c as [x v|u max pr|x v|x]; cbn [exec].
  - eapply wp_mono, v1_add_behaviour, Hs. intros res s' (_ & r' & ? & ?). exists r'. split; [done|]. by econstructor.
  - eapply wp_mono, v1_get_behaviour; [|done..]. intros res s' (? & _ & _ & ?). exists r. split; [done|]. by constructor.
  - eapply wp_mono, v1_update_behaviour, Hs. intros res s' (_ & r' & ? & ?). exists r'. split; [done|]. by econstructor.
  - eapply wp_mono, v1_remove_behaviour, Hs. intros res s' (_ & r' & ? & ?). exists r'. split; [done|]. by econstructor.
Qed.

(** C21: in the first version every sequence of calls ends, follows only live
    nodes and no NULL pointer, takes and releases the mutex, keeps the nodes in
    one acyclic list that contains every live node, and its return codes and
    effects are those of the abstract registry with new entries in front. *)
Theorem v1_calls_simulate_registry cs s r :
  v1_state s r -> Forall typed_call cs -> Z.of_nat (length r + length cs) < 2 ^ 31 ->
  wp (exec_all cs) (fun ress s' => exists r', v1_state s' r' /\ v1_steps cs ress r r') s.
Proof.
  intros Hs Hty. revert s r Hs. induction Hty as [|c cs Hc Hcs IH]; intros s r Hs Hlt.
  { exists r. split; [done|]. constructor. }
  cbn [exec_all length] in *. rewrite wp_bind.
  eapply wp_mono, v1_exec_simulates; [|done|done|lia]. intros res s' (r' & Hs' & Hstep).
  pose proof (length_v1_step _ _ _ _ Hstep).
  rewrite wp_bind. eapply wp_mono, (IH s' r'); [|done|lia].
  intros ress s'' (r'' & Hs'' & Hsteps). rewrite wp_ret. exists r''. split; [done|]. by econstructor.
Qed.

(** the limit check of the first version compares pages with bytes: an update
    to a limit of [v] bytes is granted to a process that already maps [v] pages. *)
Theorem v1_update_accepts_exceeded s r x v p t mm :
  v1_state s r -> 0 <= x -> 0 < v -> capable (v_k s) CAP_SYS_ADMIN = true -> has_pid r x = true ->
  k_vpids (v_k s) !! x = Some p -> k_tasks (v_k s) !! p = Some t -> k_mms (v_k s) !! t_mm t = Some mm ->
  total_vm mm = v -> v < total_vm mm * PAGE_SIZE /\
  wp (taro_update_memory_limit x v) (fun res s' => res = 0 /\ v1_state s' (set_limit r x v)) s.
Proof.
  intros Hs Hx Hv Hcap Hin Hp Ht Hmm Hvm. split; [unfold PAGE_SIZE; lia|].
  eapply wp_mono, v1_update_behaviour, Hs. intros res s' (_ & r' & Hs' & E).
  unfold update_spec in E. rewrite Hcap, Hin in E.
  rewrite (proj2 (Z.ltb_ge x 0)), (proj2 (Z.leb_gt v 0)) in E by lia. cbn in E.
  unfold over_limit in E. rewrite Hp in E. cbn in E. rewrite Ht in E. cbn in E. rewrite Hmm in E.
  rewrite (proj2 (Z.ltb_ge v (total_vm mm))) in E by lia. rewrite andb_false_r in E. by simplify_eq.
Qed.

End Refinement.

(** ** Concrete runs: pid 7 and pid 1 are limited. *)
Definition v1_user : gmap Z Z := write_bytes ∅ 4096 (replicate 100 255).
Definition v1_sample : v1state :=
  mkV1 (sample_kernel v1_user) {[ 1 := mkNode 1 1048576 0; 2 := mkNode 7 4096 1 ]} 2 false.
Definition v1_pairs : registry := [(7, 4096); (1, 1048576)].

Lemma v1_sample_rep : v1_state v1_sample v1_pairs.
Proof.
  exists [2; 1]. split; try done.
  - apply sample_kernel_wf.
  - econstructor; [done..|]. econstructor; [done..|]. constructor.
  - apply NoDup_cons. split; [set_solver|]. apply NoDup_singleton.
  - intros p. cbn. rewrite lookup_insert, lookup_singleton. split.
    + intros [->|[->|[]%not_elem_of_nil]%elem_of_cons]%elem_of_cons; by eexists.
    + repeat case_decide; subst; [set_solver..|]. by intros [].
  - apply NoDup_cons. split; [set_solver|]. apply NoDup_singleton.
Qed.

Lemma v1_user_ok a n : 4096 <= a -> 0 <= n -> a + n <= 4196 -> can_copy_to v1_user a n.
Proof. intros. unfold v1_user. apply stored_can_copy_to; rewrite ?length_replicate; lia. Qed.

Lemma v1_get_stores_entries_witness :
  let n := returned v1_pairs 2 in
  n = 2%nat /\
  wp (taro_get_memory_limits 4096 2 4144)
     (fun res s' => res = 0 /\
        read_bytes (k_user (v_k s')) 4144 4 = le_bytes 4 (Z.of_nat n) /\
        returned_entries 24 (k_user (v_k s')) 4096 (take n v1_pairs) (replicate 48 0)) v1_sample.
Proof.
  intros n. split; [done|].
  apply (v1_get_stores_entries v1_sample v1_pairs 4096 2 4144 (replicate 48 0));
    [apply v1_sample_rep | done | done | done | done | done
    | apply v1_user_ok; vm_compute; done | apply v1_user_ok; vm_compute; done | right; vm_compute; done].
Defined.

Definition v1_sample_calls : list v1_call :=
  [VAdd 9 4096; VAdd 7 1; VRemove 7; VUpdate 1 8192; VGet 4096 4 4192; VRemove 7; VRemove 1].

Lemma v1_calls_simulate_registry_witness :
  let _ := sample_env 0 in
  wp (exec_all v1_sample_calls)
     (fun ress s' => exists r', v1_state s' r' /\ v1_steps v1_sample_calls ress v1_pairs r') v1_sample.
Proof.
  intros env. apply (v1_calls_simulate_registry v1_sample_calls v1_sample v1_pairs);
    [apply v1_sample_rep | repeat constructor; unfold is_u64; lia | vm_compute; done].
Defined.

Lemma v1_update_accepts_exceeded_witness :
  let _ := sample_env 0 in
  50 < 50 * PAGE_SIZE /\
  wp (taro_update_memory_limit 7 50) (fun res s' => res = 0 /\ v1_state s' (set_limit v1_pairs 7 50)) v1_sample.
Proof.
  intros env. apply (v1_update_accepts_exceeded v1_sample v1_pairs 7 50 107 (sample_task 7 307 207 1000) sample_mm);
    [apply v1_sample_rep | lia | lia | done | done | done | done | done | done].
Defined.
