(* ===== verification/Proyecto3.v ===== *)
(** The memory-limit syscalls as four separate files:
    [kernel/proyecto3/taro_add_memory_limit.c], [taro_get_memory_limits.c],
    [taro_update_memory_limit.c] and [taro_remove_memory_limit.c].

    Every file declares its own [static] list and its own mutex.  The state has
    one part per file; the operations on the parts are those of the files
    [MemLimit] (the lists of [linux/list.h]) and [MemLimitV1] (the hand-written
    list). *)

From S2P Require Import Prelude Uaccess Kernel KList Registry MemLimitV1 MemLimit.

(** The entries, the list and the mutex of a file that uses [linux/list.h]. *)
Record part (L : Type) := mkPart {
  pt_nodes : gmap Z MemLimit.memory_limitation;
  pt_list : L;
  pt_mutex : bool;
}.
#[global] Arguments mkPart {L}.
#[global] Arguments pt_nodes {L}.
#[global] Arguments pt_list {L}.
#[global] Arguments pt_mutex {L}.

Record p3state (L : Type) := mkP3 {
  p_k : kernel;
  p_add : part L;                                    (* taro_add_memory_limit.c *)
  p_update : part L;                                 (* taro_update_memory_limit.c *)
  p_remove : part L;                                 (* taro_remove_memory_limit.c *)
  p_get_nodes : gmap Z MemLimitV1.memory_limitation; (* taro_get_memory_limits.c *)
  p_get_head : Z;
  p_get_mutex : bool;
}.
#[global] Arguments mkP3 {L}.
#[global] Arguments p_k {L}.
#[global] Arguments p_add {L}.
#[global] Arguments p_update {L}.
#[global] Arguments p_remove {L}.
#[global] Arguments p_get_nodes {L}.
#[global] Arguments p_get_head {L}.
#[global] Arguments p_get_mutex {L}.
#[global] Instance eta_p3 {L} : Eta (p3state L) := fun s =>
  mkP3 (p_k s) (p_add s) (p_update s) (p_remove s) (p_get_nodes s) (p_get_head s) (p_get_mutex s).

(** A part together with the kernel is a state of [MemLimit]. *)
Definition view {L} (k : kernel) (pt : part L) : MemLimit.mlstate L :=
  MemLimit.mkMl k (pt_nodes pt) (pt_list pt) (pt_mutex pt).
Definition part_of {L} (m : MemLimit.mlstate L) : part L :=
  mkPart (MemLimit.ml_nodes m) (MemLimit.ml_list m) (MemLimit.ml_mutex m).

Section Ops.
Context `{UserArch} `{KernelEnv} `{Slab} {L : Type} `{KList L}.

Notation M := (Kern (mlstate L)).

(** ** taro_add_memory_limit.c *)
Definition validate_memory_limit (process_pid limit : Z) : M Z :=
  if (process_pid <? 0) || (limit <? 0) then
    kern (pr_info "taro_add_memory_limit: PID %d o límite de memoria %zu inválido." [process_pid; limit]);;
    mret (- EINVAL)
  else
  task ← kern (find_task_by_vpid process_pid);
  match task with
  | None =>
      kern (pr_info "taro_add_memory_limit: PID %d no encontrado." [process_pid]);;
      mret (- ESRCH)
  | Some _ => mret 0
  end.

Definition add_to_memory_limit_list (process_pid limit : Z) : M Z :=
  cap ← kern (gets (fun k => capable k CAP_SYS_ADMIN));
  if negb cap then
    kern (pr_info "taro_add_memory_limit: Permiso denegado para PID %d." [process_pid]);;
    mret (- EPERM)
  else
  result ← validate_memory_limit process_pid limit;
  if truthy result then mret result
  else
  task ← kern (find_task_by_vpid process_pid);
  mutex_lock;;
  l ← gets ml_list;
  temp ← find_entry (list_seq l) process_pid;
  match temp with
  | Some _ =>
      mutex_unlock;;
      kern (pr_info "taro_add_memory_limit: PID %d ya está en la lista." [process_pid]);;
      mret (- 101)
  | None =>
      entry ← gets (fun s => kmalloc (dom (ml_nodes s)) sizeof_entry);
      match entry with
      | None =>
          mutex_unlock;;
          kern (pr_info "taro_add_memory_limit: Sin memoria para PID %d." [process_pid]);;
          mret (- ENOMEM)
      | Some entry =>
          task ← deref NullDeref task;
          over ← kern (MemLimitV1.exceeds_limit task limit);
          if (over : bool) then
            kfree entry;;
            mutex_unlock;;
            kern (pr_info "taro_add_memory_limit: PID %d ya excede el límite de memoria." [process_pid]);;
            mret (- 100)
          else
            put_entry entry (mkLimitation process_pid limit);;
            list_add_tail_entry entry;;
            mutex_unlock;;
            kern (pr_info "taro_add_memory_limit: PID %d agregado con límite %zu bytes." [process_pid; limit]);;
            mret 0
      end
  end.

(** [set_current_state(state)]. *)
Definition set_current_state (st : Z) : Kern kernel unit :=
  p ← current; t ← task_at p; put_task p (t <| t_state := st |>).

Definition taro_add_memory_limit (process_pid limit : Z) : M Z :=
  result ← add_to_memory_limit_list process_pid limit;
  if result <? 0 then
    kern (set_current_state TASK_INTERRUPTIBLE);;
    mret result
  else mret 0.

(** ** taro_update_memory_limit.c *)

(** [task->mm && get_mm_rss(task->mm) > memory_limit]. *)
Definition rss_exceeds (task limit : Z) : Kern kernel bool :=
  t ← task_at task;
  if truthy (t_mm t) then
    mm ← mm_at (t_mm t);
    mret (limit <? get_mm_rss mm)
  else mret false.

Definition taro_update_memory_limit (process_pid limit : Z) : M Z :=
  if (process_pid <? 0) || (limit <? 0) then mret (- EINVAL)
  else
  cap ← kern (gets (fun k => capable k CAP_SYS_ADMIN));
  if negb cap then mret (- EPERM)
  else
  kern rcu_read_lock;;
  task ← kern (find_task_by_vpid process_pid);
  match task with
  | None => kern rcu_read_unlock;; mret (- ESRCH)
  | Some task =>
      kern rcu_read_unlock;;
      mutex_lock;;
      l ← gets ml_list;
      entry ← find_entry (list_seq l) process_pid;
      match entry with
      | Some entry =>
          over ← kern (rss_exceeds task limit);
          if (over : bool) then mutex_unlock;; mret (- 100)
          else
            e ← entry_at entry;
            put_entry entry (e <| memory_limit := limit |>);;
            mutex_unlock;;
            mret 0
      | None => mutex_unlock;; mret (- 102)
      end
  end.

(** ** taro_remove_memory_limit.c *)
Definition taro_remove_memory_limit (process_pid : Z) : M Z :=
  if process_pid <? 0 then mret (- EINVAL)
  else
  cap ← kern (gets (fun k => capable k CAP_SYS_ADMIN));
  if negb cap then mret (- EPERM)
  else
  mutex_lock;;
  l ← gets ml_list;
  entry ← find_entry (list_seq l) process_pid;
  match entry with
  | Some entry =>
      list_del_entry entry;;
      kfree entry;;
      mutex_unlock;;
      mret 0
  | None => mutex_unlock;; mret (- 102)
  end.

(** ** taro_get_memory_limits.c *)
Fixpoint copy_nodes (fuel : nat) (current_node max_entries count : Z) (k_buffer : list Z)
  : Kern MemLimitV1.v1state (Z * list Z) :=
  match fuel with
  | O => crashed OutOfFuel
  | S fuel =>
      if negb (current_node =? 0) && (u64 count <? max_entries) then
        e ← MemLimitV1.node_at current_node;
        copy_nodes fuel (MemLimitV1.next e) max_entries (s32 (count + 1)) (MemLimitV1.store_node k_buffer count e)
      else mret (count, k_buffer)
  end.

Definition taro_get_memory_limits (u_processes_buffer max_entries processes_returned : Z) : Kern MemLimitV1.v1state Z :=
  if (u_processes_buffer =? 0) || (processes_returned =? 0) || (max_entries <=? 0) then
    MemLimitV1.kern (pr_info "taro_get_memory_limits: Parámetros inválidos." []);;
    mret (- EINVAL)
  else
  match kmalloc_array max_entries MemLimitV1.sizeof_node with
  | None =>
      MemLimitV1.kern (pr_info "taro_get_memory_limits: Sin memoria para el buffer de kernel." []);;
      mret (- ENOMEM)
  | Some k_buffer =>
      MemLimitV1.mutex_lock;;
      fuel ← gets MemLimitV1.list_fuel;
      head ← gets MemLimitV1.memory_limit_head;
      '(count, k_buffer) ← copy_nodes fuel head max_entries 0 k_buffer;
      MemLimitV1.mutex_unlock;;
      uncopied ← MemLimitV1.kern (k_copy_to_user u_processes_buffer (take (Z.to_nat (u64 (count * MemLimitV1.sizeof_node))) k_buffer));
      if truthy uncopied then
        MemLimitV1.kern (pr_info "taro_get_memory_limits: Error al copiar al espacio de usuario." []);;
        mret (- EFAULT)
      else
      uncopied ← MemLimitV1.kern (k_copy_to_user processes_returned (le_bytes 4 count));
      if truthy uncopied then
        MemLimitV1.kern (pr_info "taro_get_memory_limits: Error al copiar el conteo al espacio de usuario." []);;
        mret (- EFAULT)
      else
        MemLimitV1.kern (pr_info "taro_get_memory_limits: %d procesos escritos al buffer." [count]);;
        mret 0
  end.

(** ** The four files together *)
Definition on_part {A} (sel : p3state L -> part L) (put : part L -> p3state L -> p3state L)
    (m : Kern (mlstate L) A) : Kern (p3state L) A :=
  zoom (fun s => view (p_k s) (sel s)) (fun ms s => put (part_of ms) (s <| p_k := ml_k ms |>)) m.

Definition on_get {A} (m : Kern MemLimitV1.v1state A) : Kern (p3state L) A :=
  zoom (fun s => MemLimitV1.mkV1 (p_k s) (p_get_nodes s) (p_get_head s) (p_get_mutex s))
    (fun vs s => (((s <| p_k := MemLimitV1.v_k vs |>) <| p_get_nodes := MemLimitV1.v_nodes vs |>)
                    <| p_get_head := MemLimitV1.memory_limit_head vs |>) <| p_get_mutex := MemLimitV1.memory_limit_mutex vs |>) m.

Inductive p3_call :=
  | PAdd (process_pid limit : Z)
  | PGet (u_processes_buffer max_entries processes_returned : Z)
  | PUpdate (process_pid limit : Z)
  | PRemove (process_pid : Z).

Definition exec (c : p3_call) : Kern (p3state L) Z :=
  match c with
  | PAdd x v => on_part p_add (fun pt s => s <| p_add := pt |>) (taro_add_memory_limit x v)
  | PGet u max pr => on_get (taro_get_memory_limits u max pr)
  | PUpdate x v => on_part p_update (fun pt s => s <| p_update := pt |>) (taro_update_memory_limit x v)
  | PRemove x => on_part p_remove (fun pt s => s <| p_remove := pt |>) (taro_remove_memory_limit x)
  end.

Fixpoint exec_all (cs : list p3_call) : Kern (p3state L) (list Z) :=
  match cs with
  | [] => mret []
  | c :: cs => r ← exec c; rs ← exec_all cs; mret (r :: rs)
  end.

End Ops.

(** ** What the files promise *)
Definition p3_add_spec (cap : bool) (over : option bool) (room : bool) (x v : Z) (r : registry) : Z * registry :=
  if negb cap then (- EPERM, r)
  else if (x <? 0) || (v <? 0) then (- EINVAL, r)
  else match over with
       | None => (- ESRCH, r)
       | Some over =>
           if has_pid r x then (- 101, r)
           else if negb room then (- ENOMEM, r)
           else if over then (- 100, r)
           else (0, r ++ [(x, v)])
       end.

Section Behaviour.
Context `{UserArch} `{KernelEnv} `{Slab} {L : Type} `{KList L}.
Context `{!SlabOk} `{!KListOk L}.
Implicit Types (ms : mlstate L) (s : p3state L).

(** The kernel with the state of the current task changed. *)
Definition with_state (k : kernel) (st : Z) : kernel :=
  match k_tasks k !! k_current k with
  | Some t => k <| k_tasks ::= <[k_current k := t <| t_state := st |>]> |>
  | None => k
  end.

Lemma with_state_wf k st : kernel_wf k -> kernel_wf (with_state k st).
Proof.
  intros [Wv Wt Wm Wr Wc Wp]. unfold with_state. destruct Wc as [t Ht]. rewrite Ht.
  assert (forall p, is_Some (k_tasks k !! p) ->
    is_Some ((<[k_current k := t <| t_state := st |>]> (k_tasks k)) !! p)) as Hdom.
  { intros p Hp. rewrite lookup_insert. by case_decide. }
  split; cbn; try done.
  - intros nr p Hv. apply Hdom. by eapply Wv.
  - intros p t' [[<- <-]|[_ Hp]]%lookup_insert_Some.
    + destruct (Wt _ _ Ht) as [? ? ?]. by split.
    + destruct (Wt _ _ Hp) as [? ? ?]. by split.
  - apply Hdom. by eexists.
  - eapply Forall_impl; [exact Wp|]. intros p. apply Hdom.
Qed.

Lemma set_current_state_run k st :
  kernel_wf k -> set_current_state st k = Done tt (with_state k st).
Proof.
  intros Hk. destruct (kw_current k Hk) as [t Ht]. unfold set_current_state, with_state, current, task_at, put_task.
  kernel_unfold. by rewrite Ht.
Qed.

Lemma ml_wf_change ms k' : ml_wf ms -> kernel_wf k' -> ml_wf (ms <| ml_k := k' |>).
Proof. intros [] Hk. by split. Qed.

Lemma p3_wp_pr_info fmt args Q k : wp (pr_info fmt args) Q k <-> Q tt (k <| k_log ::= cons (fmt, args) |>).
Proof. done. Qed.
Lemma p3_wp_mutex_lock Q ms : ml_mutex ms = false -> wp mutex_lock Q ms <-> Q tt (ms <| ml_mutex := true |>).
Proof. intros Hm. unfold wp, mutex_lock. by rewrite Hm. Qed.
Lemma p3_wp_mutex_unlock Q ms : wp mutex_unlock Q ms <-> Q tt (ms <| ml_mutex := false |>).
Proof. done. Qed.
Hint Rewrite @MemLimit.wp_kern p3_wp_mutex_unlock p3_wp_pr_info : wp.

(** The registry is as before; only the log and the lookup count may differ. *)
Ltac same_wf Hwf :=
  split_and!; [apply (ml_wf_k _ _ _ Hwf); [by repeat split | by apply Hwf || done] | by repeat split | done].

Lemma add_list_behaviour ms x v :
  ml_wf ms ->
  wp (add_to_memory_limit_list x v)
     (fun r ms' => ml_wf ms' /\ same_objects (ml_k ms) (ml_k ms') /\
        (r, limits ms') = p3_add_spec (capable (ml_k ms) CAP_SYS_ADMIN)
          (MemLimitV1.over_limit (ml_k ms) x v) (room ms) x v (limits ms)) ms.
Proof.
  intros Hwf. pose proof (mw_mutex ms Hwf) as Hm.
  unfold add_to_memory_limit_list, validate_memory_limit, p3_add_spec.
  autorewrite with wp. destruct (capable (ml_k ms) CAP_SYS_ADMIN); cbn [negb]; [|autorewrite with wp; same_wf Hwf].
  autorewrite with wp. destruct ((x <? 0) || (v <? 0)); [autorewrite with wp; cbn; same_wf Hwf|].
  autorewrite with wp.
  change (k_vpids (ml_k (ms <| ml_k := ml_k ms |>))) with (k_vpids (ml_k ms)).
  destruct (k_vpids (ml_k ms) !! x) as [task|] eqn:Hv.
  2:{ unfold MemLimitV1.over_limit. rewrite Hv. autorewrite with wp. cbn. same_wf Hwf. }
  destruct (MemLimitV1.v1_exceeds_limit_run _ x v _ (mw_kernel ms Hwf) Hv) as (b & -> & Hrun).
  autorewrite with wp. cbn [truthy Z.eqb negb]. autorewrite with wp.
  rewrite p3_wp_mutex_lock by done. autorewrite with wp.
  match goal with |- context [wp (find_entry _ x) _ ?m] => set (ms1 := m) end.
  change (list_seq (ml_list ms1)) with (list_seq (ml_list ms)).
  rewrite (wp_run _ _ _ _ _ (find_entry_run ms1 _ x (live_all ms Hwf))).
  change (ml_nodes ms1) with (ml_nodes ms).
  pose proof (node_of_has_pid ms x Hwf) as Hnode.
  destruct (node_of (ml_nodes ms) (list_seq (ml_list ms)) x) as [p|].
  { destruct Hnode as (_ & -> & _). autorewrite with wp. same_wf Hwf. }
  rewrite Hnode. autorewrite with wp. unfold room.
  change (ml_nodes ms1) with (ml_nodes ms).
  destruct (kmalloc (dom (ml_nodes ms)) sizeof_entry) as [p|] eqn:Hp; cbn [negb]; [|autorewrite with wp; same_wf Hwf].
  change (k_vpids (ml_k _)) with (k_vpids (ml_k ms)). rewrite Hv. cbn [deref]. autorewrite with wp.
  rewrite (wp_run _ _ _ _ _ (Hrun (ml_k ms1) ltac:(by repeat split))).
  apply kmalloc_fresh in Hp as [Hfresh _]. destruct b.
  - unfold kfree. autorewrite with wp.
    assert (delete p (ml_nodes ms) = ml_nodes ms) as Hdel by (by apply delete_id, not_elem_of_dom).
    split_and!; [|by repeat split|unfold limits; cbn; by rewrite Hdel].
    match goal with |- ml_wf ?m => change (ml_wf (mkMl (ml_k m) (delete p (ml_nodes ms)) (ml_list ms) false)) end.
    rewrite Hdel. apply (ml_wf_k ms); [done|by repeat split|done].
  - unfold put_entry, list_add_tail_entry, entry_at. autorewrite with wp. cbn [ml_nodes].
    rewrite (wp_run _ _ _ (mkLimitation x v) _) by (cbn; by rewrite lookup_insert_eq).
    autorewrite with wp.
    match goal with |- ml_wf ?m /\ _ => set (m' := m) end.
    destruct (ml_wf_add ms (ml_k m') p x v Hwf) as [Hwf' Hlim]; [|done|done|].
    { eapply kernel_wf_same, Hwf. by repeat split. }
    split_and!; [exact Hwf'|by repeat split|]. f_equal. exact Hlim.
Qed.

(** [taro_add_memory_limit] of the separate files checks the capability, the
    arguments, the process, the duplicate, the allocation and the limit in that
    order and appends the pair exactly when it returns 0.  Whenever it returns an
    error it leaves the calling task in the state TASK_INTERRUPTIBLE, so that it
    sleeps at the next reschedule although nothing will wake it. *)
Theorem p3_add_leaves_task_interruptible ms x v :
  ml_wf ms -> is_u64 v ->
  wp (taro_add_memory_limit x v)
     (fun r ms' => ml_wf ms' /\
        (r, limits ms') = p3_add_spec (capable (ml_k ms) CAP_SYS_ADMIN)
          (MemLimitV1.over_limit (ml_k ms) x v) (room ms) x v (limits ms) /\
        (r = 0 /\ same_objects (ml_k ms) (ml_k ms') \/
         r < 0 /\ exists t, k_tasks (ml_k ms') !! k_current (ml_k ms') = Some t /\
                    t_state t = TASK_INTERRUPTIBLE)) ms.
Proof.
  intros Hwf Hv. unfold taro_add_memory_limit. rewrite wp_bind.
  eapply wp_mono, add_list_behaviour, Hwf. intros r ms' (Hwf' & Hk & Hr).
  assert (r <= 0) as Hle.
  { unfold p3_add_spec in Hr. repeat case_match; simplify_eq; done. }
  destruct (Z.ltb_spec r 0).
  - autorewrite with wp. rewrite (wp_run _ _ _ _ _ (set_current_state_run _ _ (mw_kernel _ Hwf'))).
    split_and!; [by apply ml_wf_change, with_state_wf; [|apply Hwf']|exact Hr|].
    right. split; [done|]. cbn. unfold with_state. destruct (kw_current _ (mw_kernel _ Hwf')) as [t Ht].
    rewrite Ht. cbn. rewrite lookup_insert_eq. by eexists.
  - assert (r = 0) as -> by lia. rewrite wp_ret. split_and!; [done..|]. by left.
Qed.

(** *** The other files never see an entry *)

Record p3_wf (s : p3state L) : Prop := {
  pw_add : ml_wf (view (p_k s) (p_add s));
  pw_update : list_seq (pt_list (p_update s)) = [];
  pw_update_mutex : pt_mutex (p_update s) = false;
  pw_remove : list_seq (pt_list (p_remove s)) = [];
  pw_remove_mutex : pt_mutex (p_remove s) = false;
  pw_head : p_get_head s = 0;
  pw_get_mutex : p_get_mutex s = false;
}.

Definition p3_init (k : kernel) : p3state L :=
  let empty := mkPart ∅ list_head_init false in mkP3 k empty empty empty ∅ 0 false.

Lemma p3_init_wf k : kernel_wf k -> p3_wf (p3_init k).
Proof. intros Hk. split; try done; [by apply ml_init_wf|apply list_init_seq..]. Qed.

(** What can be answered when the list of the file is empty. *)
Definition p3_answer (c : p3_call) (r : Z) : Prop :=
  match c with
  | PAdd _ _ => r <= 0
  | PGet _ _ _ => r ∈ [0; - EINVAL; - ENOMEM; - EFAULT]
  | PUpdate _ _ => r ∈ [- EINVAL; - EPERM; - ESRCH; - 102]
  | PRemove _ => r ∈ [- EINVAL; - EPERM; - 102]
  end.

Definition p3_typed (c : p3_call) : Prop := if c is PAdd _ v then is_u64 v else True.

Lemma wp_on_part {A} sel put (m : Kern (mlstate L) A) Q s :
  wp (on_part sel put m) Q s <->
  wp m (fun a ms => Q a (put (part_of ms) (s <| p_k := ml_k ms |>))) (view (p_k s) (sel s)).
Proof. unfold wp, on_part, zoom. by destruct (m _). Qed.

Lemma wp_on_get {A} (m : Kern MemLimitV1.v1state A) (Q : A -> p3state L -> Prop) s :
  wp m (fun a vs => Q a ((((s <| p_k := MemLimitV1.v_k vs |>) <| p_get_nodes := MemLimitV1.v_nodes vs |>)
          <| p_get_head := MemLimitV1.memory_limit_head vs |>)
          <| p_get_mutex := MemLimitV1.memory_limit_mutex vs |>))
     (MemLimitV1.mkV1 (p_k s) (p_get_nodes s) (p_get_head s) (p_get_mutex s)) ->
  wp (on_get m) Q s.
Proof. unfold wp, on_get, zoom. by destruct (m _). Qed.

Lemma update_empty ms x v :
  list_seq (ml_list ms) = [] -> ml_mutex ms = false ->
  wp (taro_update_memory_limit x v)
     (fun r ms' => r ∈ [- EINVAL; - EPERM; - ESRCH; - 102] /\ same_objects (ml_k ms) (ml_k ms') /\
        ml_list ms' = ml_list ms /\ ml_mutex ms' = false) ms.
Proof.
  intros Hl Hm. unfold taro_update_memory_limit.
  destruct ((x <? 0) || (v <? 0)); [split_and!; [set_solver|done..]|].
  autorewrite with wp. destruct (capable _ _); cbn [negb]; [|autorewrite with wp; split_and!; [set_solver|by repeat split|done..]].
  autorewrite with wp. destruct (k_vpids _ !! x); autorewrite with wp.
  - rewrite p3_wp_mutex_lock by done. autorewrite with wp.
    match goal with |- context [wp (find_entry ?l x) _ _] => change l with (list_seq (ml_list ms)) end.
    rewrite Hl. cbn [find_entry]. autorewrite with wp.
    split_and!; [set_solver| |done..]. repeat split. cbn. by rewrite Z.pred_succ.
  - split_and!; [set_solver| |done..]. repeat split. cbn. by rewrite Z.pred_succ.
Qed.

Lemma remove_empty ms x :
  list_seq (ml_list ms) = [] -> ml_mutex ms = false ->
  wp (taro_remove_memory_limit x)
     (fun r ms' => r ∈ [- EINVAL; - EPERM; - 102] /\ same_objects (ml_k ms) (ml_k ms') /\
        ml_list ms' = ml_list ms /\ ml_mutex ms' = false) ms.
Proof.
  intros Hl Hm. unfold taro_remove_memory_limit.
  destruct (x <? 0); [split_and!; [set_solver|done..]|].
  autorewrite with wp. destruct (capable _ _); cbn [negb]; [|autorewrite with wp; split_and!; [set_solver|by repeat split|done..]].
  rewrite wp_bind, p3_wp_mutex_lock by done. autorewrite with wp.
  match goal with |- context [wp (find_entry ?l x) _ _] => change l with (list_seq (ml_list ms)) end.
  rewrite Hl. cbn [find_entry]. autorewrite with wp. split_and!; [set_solver|by repeat split|done..].
Qed.

(** The traversal of an empty list: no entry, a count of 0. *)
Lemma get_empty vs u max pr :
  MemLimitV1.memory_limit_head vs = 0 -> MemLimitV1.memory_limit_mutex vs = false ->
  wp (taro_get_memory_limits u max pr)
     (fun r vs' => r ∈ [0; - EINVAL; - ENOMEM; - EFAULT] /\
        same_objects (MemLimitV1.v_k vs) (MemLimitV1.v_k vs') /\
        MemLimitV1.memory_limit_head vs' = 0 /\ MemLimitV1.memory_limit_mutex vs' = false /\
        (r = 0 -> read_bytes (k_user (MemLimitV1.v_k vs')) pr 4 = le_bytes 4 0)) vs.
Proof.
  intros Hh Hm. unfold taro_get_memory_limits.
  destruct ((u =? 0) || (pr =? 0) || (max <=? 0)).
  { split_and!; [set_solver|by repeat split|done..]. }
  destruct (kmalloc_array max MemLimitV1.sizeof_node) as [buf|].
  2:{ split_and!; [set_solver|by repeat split|done..]. }
  unfold MemLimitV1.mutex_lock, MemLimitV1.mutex_unlock, MemLimitV1.kern, k_copy_to_user, pr_info.
  kernel_unfold. rewrite Hm. cbn -[take]. rewrite Hh. cbn -[take].
  destruct (copy_to_user _ u _) as [m1 left1]. cbn. destruct (truthy left1); cbn.
  { split_and!; [set_solver|by repeat split|done..]. }
  destruct (copy_to_user m1 pr (le_bytes 4 0)) as [m2 left2] eqn:Hc. cbn. destruct (truthy left2) eqn:Ht; cbn.
  { split_and!; [set_solver|by repeat split|done..]. }
  split_and!; [set_solver|by repeat split|done..|]. intros _. bool_facts. subst left2.
  apply copy_to_user_done in Hc as ->. apply (read_write_bytes m1 pr (le_bytes 4 0)).
Qed.

Lemma p3_wf_kernel s k' :
  p3_wf s -> kernel_wf k' -> p3_wf (s <| p_k := k' |>).
Proof. intros [] Hk. split; try done. by apply (ml_wf_change (view (p_k s) (p_add s))). Qed.

Lemma exec_answers c s :
  p3_wf s -> p3_typed c -> wp (exec c) (fun r s' => p3_wf s' /\ p3_answer c r) s.
Proof.
  intros Hs Hty. pose proof (mw_kernel _ (pw_add s Hs)) as Hk. destruct c as [x v|u max pr|x v|x]; cbn [exec].
  - rewrite wp_on_part. unfold taro_add_memory_limit. rewrite wp_bind.
    eapply wp_mono, add_list_behaviour, Hs. intros r ms' (Hwf' & _ & Hr).
    assert (r <= 0) by (unfold p3_add_spec in Hr; repeat case_match; simplify_eq; done).
    destruct (Z.ltb_spec r 0).
    + autorewrite with wp. rewrite (wp_run _ _ _ _ _ (set_current_state_run _ _ (mw_kernel _ Hwf'))).
      split; [|done]. destruct Hs. split; try done. cbn.
      apply (ml_wf_change ms'), with_state_wf; [done|apply Hwf'].
    + rewrite wp_ret. split; [|cbn; lia]. destruct Hs. split; try done. by destruct ms'.
  - apply wp_on_get. eapply wp_mono, get_empty; [|apply Hs..]. intros r vs' (Hr & Hsame & Hh & Hm & _).
    split; [|done]. destruct Hs. split; try done. cbn.
    apply (ml_wf_change (view (p_k s) (p_add s))); [done|]. by eapply kernel_wf_same.
  - rewrite wp_on_part. eapply wp_mono, update_empty; [|apply Hs..]. intros r ms' (Hr & Hsame & Hl & Hm).
    split; [|done]. destruct Hs. split; try done; cbn; [|by rewrite Hl].
    apply (ml_wf_change (view (p_k s) (p_add s))); [done|]. by eapply kernel_wf_same.
  - rewrite wp_on_part. eapply wp_mono, remove_empty; [|apply Hs..]. intros r ms' (Hr & Hsame & Hl & Hm).
    split; [|done]. destruct Hs. split; try done; cbn; [|by rewrite Hl].
    apply (ml_wf_change (view (p_k s) (p_add s))); [done|]. by eapply kernel_wf_same.
Qed.

(** because every file has its own static list, no sequence of calls can read
    back, change or remove an entry: whatever was added before,
    [taro_update_memory_limit] and [taro_remove_memory_limit] never return 0, and
    a [taro_get_memory_limits] that returns 0 reports a count of zero. *)
Theorem p3_files_never_share cs s u max pr :
  p3_wf s -> Forall p3_typed cs ->
  wp (exec_all cs)
     (fun rs s' => p3_wf s' /\ Forall2 p3_answer cs rs /\
        wp (exec (PGet u max pr)) (fun r s'' => r = 0 ->
          read_bytes (k_user (p_k s'')) pr 4 = le_bytes 4 0) s') s.
Proof.
  intros Hs Hty. revert s Hs. induction Hty as [|c cs Hc Hcs IH]; intros s Hs.
  { split_and!; [done|constructor|]. cbn [exec]. apply wp_on_get. eapply wp_mono, get_empty; [|apply Hs..].
    intros r vs' (_ & _ & _ & _ & Hr). exact Hr. }
  cbn [exec_all]. rewrite wp_bind. eapply wp_mono, exec_answers; [|done..]. intros r s' [Hs' Hr].
  rewrite wp_bind. eapply wp_mono, IH, Hs'. intros rs s'' (Hs'' & Hrs & Hget). rewrite wp_ret.
  split_and!; [done|by constructor|done].
Qed.

End Behaviour.

(** ** Concrete runs *)
Lemma p3_add_leaves_task_interruptible_witness :
  let _ := sample_env 0 in
  wp (taro_add_memory_limit 1 4096)
     (fun r ms' => ml_wf ms' /\
        (r, limits ms') = p3_add_spec (capable (ml_k sample_ml) CAP_SYS_ADMIN)
          (MemLimitV1.over_limit (ml_k sample_ml) 1 4096) (room sample_ml) 1 4096 (limits sample_ml) /\
        (r = 0 /\ same_objects (ml_k sample_ml) (ml_k ms') \/
         r < 0 /\ exists t, k_tasks (ml_k ms') !! k_current (ml_k ms') = Some t /\
                    t_state t = TASK_INTERRUPTIBLE)) sample_ml.
Proof.
  intros env. apply (p3_add_leaves_task_interruptible sample_ml 1 4096); [apply sample_ml_wf | unfold is_u64; lia].
Defined.

Definition p3_sample_calls : list p3_call :=
  [PAdd 7 4096; PAdd 7 1; PGet 4096 4 4192; PUpdate 7 8192; PRemove 7].

Lemma p3_files_never_share_witness :
  let _ := sample_env 0 in
  let s : p3state (list Z) := p3_init (sample_kernel sample_user) in
  wp (exec_all p3_sample_calls)
     (fun rs s' => p3_wf s' /\ Forall2 p3_answer p3_sample_calls rs /\
        wp (exec (PGet 4096 4 4144)) (fun r s'' => r = 0 ->
          read_bytes (k_user (p_k s'')) 4144 4 = le_bytes 4 0) s') s.
Proof.
  intros env s. apply (p3_files_never_share p3_sample_calls s 4096 4 4144);
    [apply p3_init_wf, sample_kernel_wf | repeat constructor; unfold is_u64; lia].
Defined.
