(* ===== verification/Rlimit.v ===== *)
(** Resource limits: the rlimit system calls of [kernel/sys.c].

    The limits live in the signal struct, which the threads of a process share.
    The spinlock [task_lock] is not modelled: a call runs to its end before the
    next one. *)

From S2P Require Import Prelude Uaccess Kernel.

Definition RLIM64_INFINITY : Z := 2 ^ 64 - 1.
Definition COMPAT_RLIM_INFINITY : Z := 2 ^ 32 - 1.
Definition LSM_PRLIMIT_READ : Z := 1.
Definition LSM_PRLIMIT_WRITE : Z := 2.

(** [struct rlimit] and [struct rlimit64]: two 64-bit words; [struct
    compat_rlimit]: two 32-bit words. *)
Definition rlimit_image (r : rlimit) : list Z := le_bytes 8 (rlim_cur r) ++ le_bytes 8 (rlim_max r).
Definition rlimit_of_bytes (bs : list Z) : rlimit :=
  mkRlimit (le_val (take 8 bs)) (le_val (take 8 (drop 8 bs))).
Definition compat_image (r : rlimit) : list Z := le_bytes 4 (rlim_cur r) ++ le_bytes 4 (rlim_max r).
Definition compat_of_bytes (bs : list Z) : rlimit :=
  mkRlimit (le_val (take 4 bs)) (le_val (take 4 (drop 4 bs))).

Definition update_rlimit_cpu (task rlim_new : Z) : Kern kernel unit :=
  modify (fun k => k <| k_cpu_timers ::= cons (task, rlim_new) |>).

Section Rlimit.
Context `{UserArch} `{KernelEnv}.

(** [new_rlim] and [old_rlim] may be NULL; the old value is the second component. *)
Definition do_prlimit (tsk resource : Z) (new_rlim : option rlimit) (old_rlim : bool)
  : Kern kernel (Z * option rlimit) :=
  if RLIM_NLIMITS <=? resource then mret (- EINVAL, None)
  else if (if new_rlim is Some new then rlim_max new <? rlim_cur new else false) then mret (- EINVAL, None)
  else if (if new_rlim is Some new then (resource =? RLIMIT_NOFILE) && (sysctl_nr_open <? rlim_max new) else false)
  then mret (- EPERM, None)
  else
  t ← task_at tsk;
  sg ← task_signal t;
  rl ← rlim_at sg resource;
  retval ← match new_rlim with
           | Some new =>
               cap ← gets (fun k => capable k CAP_SYS_RESOURCE);
               if (rlim_max rl <? rlim_max new) && negb cap then mret (- EPERM)
               else gets (fun k => security_task_setrlimit k tsk resource new)
           | None => mret 0
           end;
  (if (retval =? 0) then
     match new_rlim with
     | Some new => put_signal (t_signal t) (sg <| rlim ::= <[Z.to_nat resource := new]> |>)
     | None => mret tt
     end
   else mret tt);;
  (match new_rlim with
   | Some new =>
       if (retval =? 0) && (resource =? RLIMIT_CPU) && negb (rlim_cur new =? RLIM_INFINITY)
       then update_rlimit_cpu (group_leader t) (rlim_cur new)
       else mret tt
   | None => mret tt
   end);;
  mret (retval, if (retval =? 0) && old_rlim then Some rl else None).

Definition getrlimit (resource rlim : Z) : Kern kernel Z :=
  p ← current;
  '(ret, value) ← do_prlimit p resource None true;
  if ret =? 0 then
    value ← deref KernelBug value;
    uncopied ← k_copy_to_user rlim (rlimit_image value);
    mret (if truthy uncopied then - EFAULT else 0)
  else mret ret.

Definition from_compat (r : Z) : Z := if r =? COMPAT_RLIM_INFINITY then RLIM_INFINITY else r.
Definition to_compat (r : Z) : Z := if COMPAT_RLIM_INFINITY <? r then COMPAT_RLIM_INFINITY else r.

Definition compat_setrlimit (resource rlim : Z) : Kern kernel Z :=
  '(bs, uncopied) ← k_copy_from_user rlim 8;
  if truthy uncopied then mret (- EFAULT)
  else
  let r32 := compat_of_bytes bs in
  let r := mkRlimit (from_compat (rlim_cur r32)) (from_compat (rlim_max r32)) in
  p ← current;
  '(ret, _) ← do_prlimit p resource (Some r) false;
  mret ret.

Definition compat_getrlimit (resource rlim : Z) : Kern kernel Z :=
  p ← current;
  '(ret, r) ← do_prlimit p resource None true;
  if ret =? 0 then
    r ← deref KernelBug r;
    let r32 := mkRlimit (to_compat (rlim_cur r)) (to_compat (rlim_max r)) in
    uncopied ← k_copy_to_user rlim (compat_image r32);
    if truthy uncopied then mret (- EFAULT) else mret ret
  else mret ret.

Definition clamp31 (r : Z) : Z := if 2147483647 <? r then 2147483647 else r.

Definition old_getrlimit (resource rlim : Z) : Kern kernel Z :=
  if RLIM_NLIMITS <=? resource then mret (- EINVAL)
  else
  t ← current_task;
  sg ← task_signal t;
  x ← rlim_at sg resource;
  uncopied ← k_copy_to_user rlim (rlimit_image (mkRlimit (clamp31 (rlim_cur x)) (clamp31 (rlim_max x))));
  mret (if truthy uncopied then - EFAULT else 0).

Definition compat_old_getrlimit (resource rlim : Z) : Kern kernel Z :=
  if RLIM_NLIMITS <=? resource then mret (- EINVAL)
  else
  t ← current_task;
  sg ← task_signal t;
  r ← rlim_at sg resource;
  fault ← k_put_user 4 (clamp31 (rlim_cur r)) rlim;
  if truthy fault then mret (- EFAULT)
  else
  fault ← k_put_user 4 (clamp31 (rlim_max r)) (rlim + 4);
  if truthy fault then mret (- EFAULT) else mret 0.

Definition rlim64_is_infinity (rlim64 : Z) : bool := rlim64 =? RLIM64_INFINITY.

Definition rlim_to_rlim64 (r : rlimit) : rlimit :=
  mkRlimit (if rlim_cur r =? RLIM_INFINITY then RLIM64_INFINITY else rlim_cur r)
           (if rlim_max r =? RLIM_INFINITY then RLIM64_INFINITY else rlim_max r).

Definition rlim64_to_rlim (r : rlimit) : rlimit :=
  mkRlimit (if rlim64_is_infinity (rlim_cur r) then RLIM_INFINITY else u64 (rlim_cur r))
           (if rlim64_is_infinity (rlim_max r) then RLIM_INFINITY else u64 (rlim_max r)).

Definition check_prlimit_permission (task flags : Z) : Kern kernel Z :=
  cur ← current;
  c ← task_at cur;
  if cur =? task then mret 0
  else
  t ← task_at task;
  let cred := t_cred c in
  let tcred := t_cred t in
  let id_match :=
    (c_uid cred =? c_euid tcred) && (c_uid cred =? c_suid tcred) && (c_uid cred =? c_uid tcred) &&
    (c_gid cred =? c_egid tcred) && (c_gid cred =? c_sgid tcred) && (c_gid cred =? c_gid tcred) in
  cap ← gets (fun k => ns_capable k (c_user_ns tcred) CAP_SYS_RESOURCE);
  if negb id_match && negb cap then mret (- EPERM)
  else gets (fun k => security_task_prlimit k cred tcred flags).

Definition prlimit64 (pid resource new_rlim old_rlim : Z) : Kern kernel Z :=
  let checkflags := Z.lor (if truthy old_rlim then LSM_PRLIMIT_READ else 0)
                          (if truthy new_rlim then LSM_PRLIMIT_WRITE else 0) in
  new ← (if truthy new_rlim then
           '(bs, uncopied) ← k_copy_from_user new_rlim 16;
           mret (if truthy uncopied then None else Some (Some (rlim64_to_rlim (rlimit_of_bytes bs))))
         else mret (Some None));
  match new with
  | None => mret (- EFAULT)
  | Some new =>
      rcu_read_lock;;
      tsk ← (if truthy pid then find_task_by_vpid pid else (p ← current; mret (Some p)));
      match tsk with
      | None => rcu_read_unlock;; mret (- ESRCH)
      | Some tsk =>
          ret ← check_prlimit_permission tsk checkflags;
          if truthy ret then rcu_read_unlock;; mret ret
          else
          get_task_struct tsk;;
          rcu_read_unlock;;
          '(ret, old) ← do_prlimit tsk resource new (truthy old_rlim);
          ret ← match old with
                | Some old =>
                    uncopied ← k_copy_to_user old_rlim (rlimit_image (rlim_to_rlim64 old));
                    mret (if truthy uncopied then - EFAULT else ret)
                | None => mret ret
                end;
          put_task_struct tsk;;
          mret ret
      end
  end.

Definition setrlimit (resource rlim : Z) : Kern kernel Z :=
  '(bs, uncopied) ← k_copy_from_user rlim 16;
  if truthy uncopied then mret (- EFAULT)
  else
  p ← current;
  '(ret, _) ← do_prlimit p resource (Some (rlimit_of_bytes bs)) false;
  mret ret.

End Rlimit.

(** ** Behaviour *)
Section Behaviour.
Context `{UserArch} `{KernelEnv}.

(** The return value for a resource that exists and whose limit is [rl]. *)
Definition prlimit_ret (k : kernel) (tsk resource : Z) (rl : rlimit) (new_rlim : option rlimit) : Z :=
  match new_rlim with
  | None => 0
  | Some new =>
      if rlim_max new <? rlim_cur new then - EINVAL
      else if (resource =? RLIMIT_NOFILE) && (sysctl_nr_open <? rlim_max new) then - EPERM
      else if (rlim_max rl <? rlim_max new) && negb (capable k CAP_SYS_RESOURCE) then - EPERM
      else security_task_setrlimit k tsk resource new
  end.

(** The kernel after a call that returned 0. *)
Definition prlimit_kernel (k : kernel) (tsk leader resource : Z) (new_rlim : option rlimit) : kernel :=
  match new_rlim with
  | None => k
  | Some new =>
      (with_rlimit k tsk resource new) <| k_cpu_timers ::= fun l =>
        if (resource =? RLIMIT_CPU) && negb (rlim_cur new =? RLIM_INFINITY)
        then (leader, rlim_cur new) :: l else l |>
  end.

Lemma rlim_of_some k tsk t resource :
  kernel_wf k -> k_tasks k !! tsk = Some t -> 0 <= resource < RLIM_NLIMITS ->
  exists sg rl, k_signals k !! t_signal t = Some sg /\ rlim sg !! Z.to_nat resource = Some rl /\
    rlim_of k tsk resource = Some rl.
Proof.
  intros Hk Ht Hr. destruct (tw_signal _ _ (kw_tasks k Hk _ _ Ht)) as [sg Hsg].
  destruct (lookup_lt_is_Some_2 (rlim sg) (Z.to_nat resource)) as [rl Hrl].
  { rewrite (kw_rlim k Hk _ _ Hsg). unfold RLIM_NLIMITS in Hr. lia. }
  exists sg, rl. unfold rlim_of. rewrite Ht. cbn. by rewrite Hsg.
Qed.

Lemma do_prlimit_run k tsk t resource new_rlim old_rlim rl :
  kernel_wf k -> k_tasks k !! tsk = Some t -> 0 <= resource < RLIM_NLIMITS ->
  rlim_of k tsk resource = Some rl ->
  let ret := prlimit_ret k tsk resource rl new_rlim in
  do_prlimit tsk resource new_rlim old_rlim k =
    Done (ret, if (ret =? 0) && old_rlim then Some rl else None)
         (if ret =? 0 then prlimit_kernel k tsk (group_leader t) resource new_rlim else k).
Proof.
  intros Hk Ht Hres Hrl ret.
  destruct (rlim_of_some k tsk t resource Hk Ht Hres) as (sg & rl' & Hsg & Hl & Hrl'). simplify_eq.
  unfold do_prlimit. rewrite (proj2 (Z.leb_gt RLIM_NLIMITS resource)) by lia.
  unfold ret, prlimit_ret, prlimit_kernel, task_at, task_signal, signal_at, rlim_at, put_signal, update_rlimit_cpu, with_rlimit.
  rewrite Ht, Hsg. destruct new_rlim as [new|]; kernel_unfold.
  - destruct (rlim_max new <? rlim_cur new); [done|].
    destruct ((resource =? RLIMIT_NOFILE) && (sysctl_nr_open <? rlim_max new)); [done|].
    rewrite Ht. cbn. rewrite Hsg. cbn. rewrite Hl. cbn.
    destruct ((rlim_max rl <? rlim_max new) && negb (capable k CAP_SYS_RESOURCE)); [done|]. cbn.
    destruct (security_task_setrlimit k tsk resource new =? 0); [|done]. cbn.
    by destruct ((resource =? RLIMIT_CPU) && negb (rlim_cur new =? RLIM_INFINITY)).
  - rewrite Ht. cbn. rewrite Hsg. cbn. by rewrite Hl.
Qed.

Lemma prlimit_kernel_wf k tsk ld resource new_rlim :
  kernel_wf k -> kernel_wf (prlimit_kernel k tsk ld resource new_rlim).
Proof.
  intros Hk. destruct new_rlim as [new|]; [|done]. unfold prlimit_kernel.
  eapply kernel_wf_same, (kernel_wf_with_rlimit k tsk resource new), Hk. by repeat split.
Qed.

Lemma rlim_of_prlimit k tsk t ld resource new_rlim p r :
  kernel_wf k -> k_tasks k !! tsk = Some t -> 0 <= resource < RLIM_NLIMITS -> 0 <= r ->
  rlim_of (prlimit_kernel k tsk ld resource new_rlim) p r =
    match new_rlim with
    | Some new => if decide (r = resource /\ t_signal <$> k_tasks k !! p = Some (t_signal t))
                  then Some new else rlim_of k p r
    | None => rlim_of k p r
    end.
Proof.
  intros Hk Ht Hres Hr. destruct new_rlim as [new|]; [|done].
  destruct (rlim_of_some k tsk t resource Hk Ht Hres) as (_ & rl & _ & _ & Hrl).
  rewrite <- (rlim_of_with_rlimit k tsk t resource new p r) by (done || lia || by eexists). done.
Qed.

(** [do_prlimit] answers -EINVAL for an unknown resource and for a soft limit
    above the hard one, -EPERM for too many open files and for raising a hard
    limit without CAP_SYS_RESOURCE, and passes on what the security module says.
    Exactly when it returns 0 the new limit is in force for the threads of the
    process, and nothing else about any limit changes; the old limit it reports
    is the one from before. *)
Theorem do_prlimit_changes_one_limit k tsk t resource new_rlim old_rlim :
  kernel_wf k -> k_tasks k !! tsk = Some t -> 0 <= resource ->
  wp (do_prlimit tsk resource new_rlim old_rlim)
     (fun '(ret, old) k' => kernel_wf k' /\
        match rlim_of k tsk resource with
        | Some rl => ret = prlimit_ret k tsk resource rl new_rlim /\
            old = (if (ret =? 0) && old_rlim then Some rl else None)
        | None => RLIM_NLIMITS <= resource /\ ret = - EINVAL /\ old = None
        end /\
        forall p r, 0 <= r -> rlim_of k' p r =
          match new_rlim with
          | Some new => if decide (ret = 0 /\ r = resource /\ t_signal <$> k_tasks k !! p = Some (t_signal t))
                        then Some new else rlim_of k p r
          | None => rlim_of k p r
          end) k.
Proof.
  intros Hk Ht Hres. destruct (decide (resource < RLIM_NLIMITS)) as [Hlt|Hge].
  - destruct (rlim_of_some k tsk t resource Hk Ht ltac:(lia)) as (_ & rl & _ & _ & Hrl).
    rewrite (wp_run _ _ _ _ _ (do_prlimit_run k tsk t resource new_rlim old_rlim rl Hk Ht ltac:(lia) Hrl)).
    rewrite Hrl. set (ret := prlimit_ret k tsk resource rl new_rlim).
    destruct (Z.eqb_spec ret 0) as [Hret|Hret]; cbn [andb].
    + split_and!; [by apply prlimit_kernel_wf|done|done|]. intros p r Hr.
      rewrite (rlim_of_prlimit k tsk t) by (done || lia). destruct new_rlim; [|done].
      destruct (decide (r = _ /\ _)) as [?|?]; [by rewrite decide_True|by rewrite decide_False by tauto].
    + split_and!; [done..|]. intros p r Hr. destruct new_rlim; [|done]. by rewrite decide_False by tauto.
  - unfold do_prlimit. rewrite (proj2 (Z.leb_le RLIM_NLIMITS resource)), wp_ret by lia.
    assert (rlim_of k tsk resource = None) as ->.
    { unfold rlim_of. rewrite Ht. cbn. destruct (tw_signal _ _ (kw_tasks k Hk _ _ Ht)) as [sg Hsg]. rewrite Hsg. cbn.
      apply lookup_ge_None. rewrite (kw_rlim k Hk _ _ Hsg). unfold RLIM_NLIMITS in Hge. lia. }
    split_and!; [done|lia|done..|]. intros p r Hr. destruct new_rlim; [|done]. by rewrite decide_False by naive_solver.
Qed.

(** *** prlimit64 *)

(** The process a call is about: pid 0 is the caller. *)
Definition target (k : kernel) (pid : Z) : option Z :=
  if truthy pid then k_vpids k !! pid else Some (k_current k).

(** The limit at [new_rlim] in user memory. *)
Definition user_limit (k : kernel) (new_rlim : Z) : option rlimit :=
  if truthy new_rlim then Some (rlim64_to_rlim (rlimit_of_bytes (read_bytes (k_user k) new_rlim 16))) else None.

(** What does not change: objects other than limits, locks, reference counts. *)
Definition balanced (k k' : kernel) : Prop :=
  k_tasks k' = k_tasks k /\ k_mms k' = k_mms k /\ k_vpids k' = k_vpids k /\ k_procs k' = k_procs k /\
  k_current k' = k_current k /\ k_rcu k' = k_rcu k /\ k_bare_lookups k' = k_bare_lookups k.

(** Refused: nothing happened.  Applied: the limit is set, and the old one is on
    its way to user memory. *)
Inductive prlimit64_outcome (k : kernel) (pid resource : Z) (new : option rlimit) (old_rlim : Z)
  : Z -> kernel -> Prop :=
  | prlimit64_refused r k' :
      r <> 0 -> k_user k' = k_user k -> (forall p i, rlim_of k' p i = rlim_of k p i) ->
      prlimit64_outcome k pid resource new old_rlim r k'
  | prlimit64_applied tsk t rl k1 r k' :
      target k pid = Some tsk -> k_tasks k !! tsk = Some t -> rlim_of k tsk resource = Some rl ->
      prlimit_ret k1 tsk resource rl new = 0 ->
      (forall p i, 0 <= i -> rlim_of k' p i =
         match new with
         | Some new => if decide (i = resource /\ t_signal <$> k_tasks k !! p = Some (t_signal t))
                       then Some new else rlim_of k p i
         | None => rlim_of k p i
         end) ->
      (if truthy old_rlim
       then exists left1, copy_to_user (k_user k) old_rlim (rlimit_image (rlim_to_rlim64 rl)) = (k_user k', left1) /\
              r = (if truthy left1 then - EFAULT else 0)
       else r = 0 /\ k_user k' = k_user k) ->
      prlimit64_outcome k pid resource new old_rlim r k'.

Lemma check_permission_run k task flags :
  kernel_wf k -> is_Some (k_tasks k !! task) ->
  exists r, check_prlimit_permission task flags k = Done r k.
Proof.
  intros Hk [t Ht]. destruct (kw_current k Hk) as [c Hc].
  unfold check_prlimit_permission, current, task_at. kernel_unfold. rewrite Hc.
  destruct (k_current k =? task); [by eexists|]. rewrite Ht. case_match; by eexists.
Qed.

Lemma rlim_of_signals k k' p i :
  k_tasks k' = k_tasks k -> k_signals k' = k_signals k -> rlim_of k' p i = rlim_of k p i.
Proof. intros Ht Hs. unfold rlim_of. by rewrite Ht, Hs. Qed.

Lemma target_task k pid tsk : kernel_wf k -> target k pid = Some tsk -> is_Some (k_tasks k !! tsk).
Proof.
  intros Hk. unfold target. destruct (truthy pid).
  - intros Hv. by apply (kw_vpids k Hk _ _ Hv).
  - intros [= <-]. apply Hk.
Qed.

(** The part of the call after the arguments have been read. *)
Definition prlimit64_tail (pid resource old_rlim checkflags : Z) (new : option rlimit) : Kern kernel Z :=
  rcu_read_lock;;
  tsk ← (if truthy pid then find_task_by_vpid pid else (p ← current; mret (Some p)));
  match tsk with
  | None => rcu_read_unlock;; mret (- ESRCH)
  | Some tsk =>
      ret ← check_prlimit_permission tsk checkflags;
      if truthy ret then rcu_read_unlock;; mret ret
      else
      get_task_struct tsk;;
      rcu_read_unlock;;
      '(ret, old) ← do_prlimit tsk resource new (truthy old_rlim);
      ret ← match old with
            | Some old =>
                uncopied ← k_copy_to_user old_rlim (rlimit_image (rlim_to_rlim64 old));
                mret (if truthy uncopied then - EFAULT else ret)
            | None => mret ret
            end;
      put_task_struct tsk;;
      mret ret
  end.

Lemma wp_target pid (Q : option Z -> kernel -> Prop) k :
  0 < k_rcu k ->
  wp (if truthy pid then find_task_by_vpid pid else (p ← current; mret (Some p))) Q k <-> Q (target k pid) k.
Proof.
  intros Hr. unfold target. destruct (truthy pid); [|done]. rewrite wp_find_task.
  rewrite (proj2 (Z.ltb_lt 0 (k_rcu k)) Hr). by destruct k.
Qed.

(** The end of the call: the old limit is copied out and the reference dropped. *)
Lemma finish_run k tsk t k1 old_rlim old ret :
  kernel_wf k -> k_tasks k !! tsk = Some t -> k_tasks k1 = k_tasks (holding k tsk) ->
  wp (ret' ← match old with
             | Some old =>
                 uncopied ← k_copy_to_user old_rlim (rlimit_image (rlim_to_rlim64 old));
                 mret (if truthy uncopied then - EFAULT else ret)
             | None => mret ret
             end;
      put_task_struct tsk;; mret ret')
     (fun r k' => same_objects (k1 <| k_tasks := k_tasks k |>) k' /\ k_bare_lookups k' = k_bare_lookups k1 /\
        match old with
        | Some old => exists left1,
            copy_to_user (k_user k1) old_rlim (rlimit_image (rlim_to_rlim64 old)) = (k_user k', left1) /\
            r = (if truthy left1 then - EFAULT else ret)
        | None => r = ret /\ k_user k' = k_user k1
        end) k1.
Proof.
  intros Hk Ht Hk1. destruct old as [old|].
  - rewrite wp_bind. unfold k_copy_to_user.
    destruct (copy_to_user (k_user k1) old_rlim (rlimit_image (rlim_to_rlim64 old))) as [m left1] eqn:Hc.
    rewrite wp_bind. unfold wp at 1. rewrite Hc. rewrite wp_ret, wp_bind.
    rewrite (wp_run _ _ _ _ _ (holding_put k tsk t (user_accessed m k1) Hk Ht Hk1)), wp_ret.
    split_and!; [by repeat split|done|]. by exists left1.
  - autorewrite with wp. rewrite (wp_run _ _ _ _ _ (holding_put k tsk t k1 Hk Ht Hk1)). by repeat split.
Qed.

Lemma prlimit_frame k tsk ld resource new :
  balanced k (prlimit_kernel k tsk ld resource new) /\
  k_user (prlimit_kernel k tsk ld resource new) = k_user k.
Proof.
  destruct new as [new|]; [|done]. unfold prlimit_kernel, with_rlimit.
  destruct (k_tasks k !! tsk) as [t|]; [|done]. by destruct (k_signals k !! t_signal t).
Qed.

Lemma holding_frame k tsk :
  k_user (holding k tsk) = k_user k /\ k_bare_lookups (holding k tsk) = k_bare_lookups k.
Proof. unfold holding. by case_match. Qed.

Lemma holding_dropped k tsk : (holding k tsk) <| k_tasks := k_tasks k |> = k.
Proof. unfold holding. destruct (k_tasks k !! tsk); by destruct k. Qed.

Lemma prlimit_dropped k tsk t ld resource new :
  k_tasks k !! tsk = Some t ->
  (prlimit_kernel (holding k tsk) tsk ld resource new) <| k_tasks := k_tasks k |>
  = prlimit_kernel k tsk ld resource new.
Proof.
  intros Ht. destruct new as [new|]; [|apply holding_dropped].
  unfold prlimit_kernel, with_rlimit, holding. rewrite Ht. cbn. rewrite lookup_insert_eq. cbn.
  destruct (k_signals k !! t_signal t); by destruct k.
Qed.

Lemma prlimit64_tail_outcome k pid resource old_rlim cf new :
  kernel_wf k -> 0 <= k_rcu k -> 0 <= resource ->
  wp (prlimit64_tail pid resource old_rlim cf new)
     (fun r k' => balanced k k' /\ kernel_wf k' /\ prlimit64_outcome k pid resource new old_rlim r k') k.
Proof.
  intros Hk Hrcu Hres. unfold prlimit64_tail. rewrite wp_bind, wp_rcu_read_lock.
  set (k1 := k <| k_rcu ::= Z.succ |>).
  assert (k1 <| k_rcu ::= Z.pred |> = k) as Hback by (unfold k1; destruct k; cbn; by rewrite Z.pred_succ).
  assert (kernel_wf k1) as Hk1 by (by apply kernel_wf_rcu).
  rewrite wp_bind, wp_target by (cbn; lia). change (target k1 pid) with (target k pid).
  destruct (target k pid) as [tsk|] eqn:Htgt.
  2:{ autorewrite with wp. rewrite Hback. split_and!; [by repeat split|done|]. by apply prlimit64_refused. }
  destruct (target_task k pid tsk Hk Htgt) as [t Ht].
  destruct (check_permission_run k1 tsk cf Hk1 (ltac:(by exists t))) as [perm Hperm].
  rewrite wp_bind, (wp_run _ _ _ _ _ Hperm). destruct (truthy perm) eqn:Hp.
  { autorewrite with wp. rewrite Hback. bool_facts. split_and!; [by repeat split|done|]. by apply prlimit64_refused. }
  rewrite wp_bind, (wp_run _ _ _ _ _ (holding_get k1 tsk t Ht)), wp_bind, wp_rcu_read_unlock.
  assert ((holding k1 tsk) <| k_rcu ::= Z.pred |> = holding k tsk) as ->.
  { unfold holding. change (k_tasks k1) with (k_tasks k). rewrite Ht. unfold k1. destruct k; cbn. by rewrite Z.pred_succ. }
  set (kh := holding k tsk). rewrite wp_bind.
  assert (exists th, k_tasks kh !! tsk = Some th /\ t_signal th = t_signal t) as (th & Hth & Hsig).
  { unfold kh, holding. rewrite Ht. cbn. rewrite lookup_insert_eq. by eexists. }
  assert (kernel_wf kh) as Hwh by (by eapply holding_wf).
  assert (forall r k', r <> 0 -> same_objects (kh <| k_tasks := k_tasks k |>) k' ->
    k_bare_lookups k' = k_bare_lookups kh -> k_user k' = k_user kh ->
    balanced k k' /\ kernel_wf k' /\ prlimit64_outcome k pid resource new old_rlim r k') as Hrefused.
  { intros r k' Hr Hs Hb Hu. unfold kh in *. rewrite holding_dropped in Hs.
    destruct (holding_frame k tsk) as [Eu Eb].
    split_and!; [|by eapply kernel_wf_same|].
    - unfold same_objects, balanced in *. destruct_and!. split_and!; congruence.
    - apply prlimit64_refused; [done|congruence|]. intros p i. apply rlim_of_signals; apply Hs. }
  destruct (decide (resource < RLIM_NLIMITS)) as [Hlt|Hge].
  2:{ unfold do_prlimit. rewrite (proj2 (Z.leb_le RLIM_NLIMITS resource)), wp_ret by lia.
      eapply wp_mono, (finish_run k tsk t kh old_rlim None (- EINVAL)); [|done..].
      intros r k' (Hs & Hb & -> & Hu). by apply Hrefused. }
  destruct (rlim_of_some kh tsk th resource Hwh Hth ltac:(lia)) as (_ & rl & _ & _ & Hrl).
  rewrite (wp_run _ _ _ _ _ (do_prlimit_run kh tsk th resource new (truthy old_rlim) rl Hwh Hth ltac:(lia) Hrl)).
  set (ret := prlimit_ret kh tsk resource rl new). destruct (Z.eqb_spec ret 0) as [Hret|Hret]; cbn [andb].
  2:{ eapply wp_mono, (finish_run k tsk t kh old_rlim None ret); [|done..].
      intros r k' (Hs & Hb & -> & Hu). by apply Hrefused. }
  unfold kh in Hrl. rewrite rlim_of_holding in Hrl.
  eapply wp_mono, (finish_run k tsk t); [|done|done|].
  2:{ apply prlimit_frame. }
  intros r k'. unfold kh. rewrite (prlimit_dropped k tsk t) by done. intros (Hs & Hb & Hold).
  destruct (prlimit_frame (holding k tsk) tsk (group_leader th) resource new) as [(_ & _ & _ & _ & _ & _ & Hpb) Hpu].
  destruct (holding_frame k tsk) as [Eu Eb]. rewrite Hpb in Hb. rewrite Hpu, Eu in Hold.
  destruct (prlimit_frame k tsk (group_leader th) resource new) as [Hbal _].
  split_and!.
  - unfold same_objects, balanced in *. destruct_and!. split_and!; congruence.
  - eapply kernel_wf_same, prlimit_kernel_wf, Hk. exact Hs.
  - eapply (prlimit64_applied _ _ _ _ _ tsk t rl kh); try done.
    + intros p i Hi. rewrite <- (rlim_of_prlimit k tsk t (group_leader th)) by (done || lia).
      apply rlim_of_signals; apply Hs.
    + destruct (truthy old_rlim); [|by rewrite <- Hret]. destruct Hold as (left1 & Hc & Hr). exists left1. split; [done|].
      by rewrite Hr, Hret.
Qed.

Lemma prlimit64_behaviour k pid resource new_rlim old_rlim :
  kernel_wf k -> 0 <= k_rcu k -> 0 <= resource ->
  wp (prlimit64 pid resource new_rlim old_rlim)
     (fun r k' => balanced k k' /\ kernel_wf k' /\
        prlimit64_outcome k pid resource (user_limit k new_rlim) old_rlim r k') k.
Proof.
  intros Hk Hrcu Hres. unfold prlimit64, user_limit. fold prlimit64_tail. rewrite wp_bind.
  destruct (truthy new_rlim).
  - unfold k_copy_from_user.
    destruct (copy_from_user (k_user k) new_rlim 16 (replicate (Z.to_nat 16) 0)) as [bs left1] eqn:Hc.
    rewrite wp_bind. unfold wp at 1. rewrite Hc, wp_ret.
    set (k1 := user_accessed (k_user k) k). assert (same_objects k k1) as Hk1 by (by repeat split).
    destruct (truthy left1) eqn:Hl; bool_facts.
    { rewrite wp_ret. split_and!; [by repeat split|by eapply kernel_wf_same|]. by apply prlimit64_refused. }
    subst left1. apply copy_from_user_done in Hc; [|lia|done]. subst bs.
    eapply wp_mono, (prlimit64_tail_outcome k1); [|by eapply kernel_wf_same|done|done].
    intros r k' (Hb & Hwf & Ho). split_and!; [exact Hb|done|].
    destruct Ho as [r k' Hr Hu Hl|tsk t rl k2 r k' H1' H2' H3' H4' H5' H6']; [by apply prlimit64_refused|].
    by eapply (prlimit64_applied _ _ _ _ _ tsk t rl k2).
  - rewrite wp_ret. by apply prlimit64_tail_outcome.
Qed.

(** No hard limit is higher than before. *)
Definition no_raise (k k' : kernel) : Prop :=
  forall p i rl rl', 0 <= i -> rlim_of k p i = Some rl -> rlim_of k' p i = Some rl' -> rlim_max rl' <= rlim_max rl.

(** Soft limits are below hard limits. *)
Definition limits_ok (k : kernel) : Prop :=
  forall p i rl, 0 <= i -> rlim_of k p i = Some rl -> rlim_cur rl <= rlim_max rl.

Lemma rlim_of_shared k p tsk t i :
  k_tasks k !! tsk = Some t -> t_signal <$> k_tasks k !! p = Some (t_signal t) ->
  rlim_of k p i = rlim_of k tsk i.
Proof.
  intros Ht. unfold rlim_of. rewrite Ht. cbn. destruct (k_tasks k !! p) as [tp|]; [|done].
  intros [= Hs]. cbn. by rewrite Hs.
Qed.

(** C23: [prlimit64] leaves tasks, reference counts and the RCU lock balanced on
    every path, and either changes nothing and returns an error, or sets the one
    limit it was given for the threads of one process.  Soft limits stay below
    hard limits, and without CAP_SYS_RESOURCE no hard limit is ever raised. *)
Theorem prlimit64_never_raises k pid resource new_rlim old_rlim :
  kernel_wf k -> 0 <= k_rcu k -> 0 <= resource ->
  wp (prlimit64 pid resource new_rlim old_rlim)
     (fun r k' => balanced k k' /\ kernel_wf k' /\
        (limits_ok k -> limits_ok k') /\
        ((forall k1, capable k1 CAP_SYS_RESOURCE = false) -> no_raise k k')) k.
Proof.
  intros Hk Hrcu Hres. eapply wp_mono, prlimit64_behaviour; [|done..].
  intros r k' (Hb & Hwf & Ho). split_and!; [done..| |].
  - intros Hok p i rl' Hi Hl. destruct Ho as [r k' _ _ Hs|tsk t rl k1 r k' _ Ht Hrl Hret Hs _].
    + rewrite Hs in Hl. by eapply Hok.
    + rewrite Hs in Hl by done. destruct (user_limit k new_rlim) as [new|]; [|by eapply Hok].
      case_decide; [|by eapply Hok]. simplify_eq. unfold prlimit_ret in Hret.
      destruct (Z.ltb_spec (rlim_max rl') (rlim_cur rl')); done.
  - intros Hcap p i rl0 rl' Hi Hl0 Hl. destruct Ho as [r k' _ _ Hs|tsk t rl k1 r k' _ Ht Hrl Hret Hs _].
    + rewrite Hs, Hl0 in Hl. by simplify_eq.
    + rewrite Hs, Hl0 in Hl by done. destruct (user_limit k new_rlim) as [new|]; [|by simplify_eq].
      case_decide as Hd; [|by simplify_eq]. simplify_eq. destruct Hd as [-> Hsig].
      rewrite (rlim_of_shared k p tsk t) in Hl0 by done. simplify_eq.
      unfold prlimit_ret in Hret. rewrite Hcap, andb_true_r in Hret.
      destruct (rlim_max rl' <? rlim_cur rl'); [done|]. destruct (_ && _); [done|].
      destruct (Z.ltb_spec (rlim_max rl) (rlim_max rl')); [done|lia].
Qed.

(** *** Round trips *)
Lemma rlim64_roundtrip r :
  is_u64 (rlim_cur r) -> is_u64 (rlim_max r) -> rlim_to_rlim64 (rlim64_to_rlim r) = r.
Proof.
  intros Hc Hm. destruct r as [c m]. unfold rlim_to_rlim64, rlim64_to_rlim, rlim64_is_infinity. cbn in *.
  f_equal; [rewrite (u64_id c) by done|rewrite (u64_id m) by done];
    unfold RLIM_INFINITY, RLIM64_INFINITY; repeat case_match; bool_facts; congruence.
Qed.

Lemma rlimit_of_bytes_u64 m a :
  bytes_ok m -> let r := rlimit_of_bytes (read_bytes m a 16) in is_u64 (rlim_cur r) /\ is_u64 (rlim_max r).
Proof.
  intros Hm r. pose proof (read_bytes_ok m a 16 Hm) as Hb. unfold is_u64.
  pose proof (le_val_range (take 8 (read_bytes m a 16)) (Forall_take _ _ _ Hb)) as H1'.
  pose proof (le_val_range (take 8 (drop 8 (read_bytes m a 16))) (Forall_take _ _ _ (Forall_drop _ _ _ Hb))) as H2'.
  split; [exact H1'|exact H2'].
Qed.

Lemma user_limit_image m a :
  bytes_ok m ->
  rlimit_image (rlim_to_rlim64 (rlim64_to_rlim (rlimit_of_bytes (read_bytes m a 16)))) = read_bytes m a 16.
Proof.
  intros Hm. destruct (rlimit_of_bytes_u64 m a Hm) as [Hc Hx]. rewrite rlim64_roundtrip by done.
  apply (le_bytes_split 8 m a Hm).
Qed.

(** what [prlimit64] has set it reads back: when the call that sets the limit
    at [na] succeeds, the next call for the same process and resource that
    succeeds in copying out stores the same 16 bytes. *)
Theorem prlimit64_set_get k pid resource na oa :
  kernel_wf k -> 0 <= k_rcu k -> 0 <= resource -> na <> 0 -> oa <> 0 -> bytes_ok (k_user k) ->
  wp (prlimit64 pid resource na 0)
     (fun r k' => r = 0 ->
        wp (prlimit64 pid resource 0 oa)
           (fun r' k'' => r' = 0 -> read_bytes (k_user k'') oa 16 = read_bytes (k_user k) na 16) k') k.
Proof.
  intros Hk Hrcu Hres Hna Hoa Hbytes. eapply wp_mono, prlimit64_behaviour; [|done..].
  intros r k' (Hb & Hwf & Ho) ->.
  inversion Ho as [|tsk t rl k1 ? ? Htgt Ht Hrl Hret Hl Hu]; [done|]. subst.
  unfold user_limit in Hl. rewrite (proj2 (truthy_true na) Hna) in Hl.
  assert (k_rcu k' = k_rcu k) as Hr' by apply Hb.
  eapply wp_mono, (prlimit64_behaviour k'); [|done|lia|done].
  intros r' k'' (_ & _ & Ho') ->.
  inversion Ho' as [|tsk' t' rl' k2 ? ? Htgt' Ht' Hrl' Hret' Hl' Hu']; [done|]. subst.
  assert (tsk' = tsk) as ->.
  { unfold target in *. destruct Hb as (_ & _ & Hv & _ & Hc & _). rewrite Hv, Hc in Htgt'. congruence. }
  rewrite Hl, decide_True in Hrl' by (done || by rewrite Ht). simplify_eq.
  rewrite (proj2 (truthy_true oa) Hoa) in Hu'. destruct Hu' as (left1 & Hc & Hr).
  destruct (truthy left1) eqn:Htr; [done|]. bool_facts. subst left1.
  apply copy_to_user_done in Hc. rewrite Hc, user_limit_image by done.
  rewrite <- (length_read_bytes (k_user k) na 16) at 1. apply read_write_bytes.
Qed.

Lemma compat_roundtrip x : 0 <= x < 2 ^ 32 -> to_compat (from_compat x) = x.
Proof.
  unfold to_compat, from_compat, COMPAT_RLIM_INFINITY, RLIM_INFINITY. intros Hx.
  repeat case_match; bool_facts; lia.
Qed.

(** The current task and a resource below the maximum. *)
Lemma do_prlimit_current k resource new_rlim old_rlim :
  kernel_wf k -> 0 <= resource ->
  wp (do_prlimit (k_current k) resource new_rlim old_rlim)
     (fun '(ret, old) k' => kernel_wf k' /\ k_user k' = k_user k /\ k_current k' = k_current k /\
        (ret = 0 -> exists rl, rlim_of k (k_current k) resource = Some rl /\
           old = (if old_rlim then Some rl else None) /\
           rlim_of k' (k_current k) resource = Some (default rl new_rlim))) k.
Proof.
  intros Hk Hres. destruct (kw_current k Hk) as [t Ht].
  destruct (decide (resource < RLIM_NLIMITS)) as [Hlt|Hge].
  2:{ unfold do_prlimit. by rewrite (proj2 (Z.leb_le RLIM_NLIMITS resource)), wp_ret by lia. }
  destruct (rlim_of_some k _ t resource Hk Ht ltac:(lia)) as (_ & rl & _ & _ & Hrl).
  rewrite (wp_run _ _ _ _ _ (do_prlimit_run k _ t resource new_rlim old_rlim rl Hk Ht ltac:(lia) Hrl)).
  set (ret := prlimit_ret _ _ _ _ _).
  destruct (prlimit_frame k (k_current k) (group_leader t) resource new_rlim) as [(_ & _ & _ & _ & Hc & _) Hu].
  destruct (Z.eqb_spec ret 0) as [Hret|Hret]; cbn [andb]; [|by split_and!].
  split_and!; [by apply prlimit_kernel_wf|done|done|]. intros _. exists rl. split_and!; [done..|].
  rewrite (rlim_of_prlimit k _ t) by (done || lia). destruct new_rlim; [|done]. cbn.
  by rewrite decide_True by (by rewrite Ht).
Qed.

(** the 32-bit calls agree as well: what the compat [setrlimit] has set, the
    compat [getrlimit] returns byte for byte, with the 32-bit infinity standing
    for the 64-bit one in between. *)
Theorem compat_rlimit_set_get k resource na oa :
  kernel_wf k -> 0 <= resource -> bytes_ok (k_user k) ->
  wp (compat_setrlimit resource na)
     (fun r k' => r = 0 ->
        wp (compat_getrlimit resource oa)
           (fun r' k'' => r' = 0 -> read_bytes (k_user k'') oa 8 = read_bytes (k_user k) na 8) k') k.
Proof.
  intros Hk Hres Hbytes. unfold compat_setrlimit, k_copy_from_user. rewrite wp_bind.
  destruct (copy_from_user (k_user k) na 8 (replicate (Z.to_nat 8) 0)) as [bs left1] eqn:Hc.
  unfold wp at 1. rewrite Hc. destruct (truthy left1) eqn:Hl; [by rewrite wp_ret|]. bool_facts. subst left1.
  apply copy_from_user_done in Hc; [|lia|done]. subst bs.
  set (k1 := user_accessed (k_user k) k). set (bs := read_bytes (k_user k) na (Z.to_nat 8)).
  assert (kernel_wf k1) as Hk1 by (eapply kernel_wf_same, Hk; by repeat split).
  unfold current. autorewrite with wp. eapply wp_mono, do_prlimit_current; [|done..].
  intros [ret old] k' (Hwf & Hu & Hcur & Hset). rewrite wp_ret. intros ->.
  destruct (Hset eq_refl) as (rl & _ & _ & Hnew). change (default rl (Some ?x)) with x in Hnew.
  unfold compat_getrlimit, current. autorewrite with wp. rewrite Hcur.
  rewrite <- Hcur. eapply wp_mono, do_prlimit_current; [|done..].
  intros [ret' old'] k2 (_ & Hu2 & _ & Hget). destruct (Z.eqb_spec ret' 0) as [->|]; [|by rewrite wp_ret].
  destruct (Hget eq_refl) as (rl' & Hrl' & -> & _). rewrite Hcur, Hnew in Hrl'. simplify_eq. cbn [deref].
  autorewrite with wp. unfold k_copy_to_user.
  match goal with |- context [copy_to_user _ oa ?b] => destruct (copy_to_user (k_user k2) oa b) as [m left2] eqn:Hc end.
  unfold wp at 1. rewrite Hc. destruct (truthy left2) eqn:Ht; rewrite wp_ret; [done|]. intros _. bool_facts. subst left2.
  apply copy_to_user_done in Hc. cbn [user_accessed k_user]. subst m.
  cbn [rlim_cur rlim_max compat_image]. rewrite Hu2.
  pose proof (read_bytes_ok (k_user k) na 8 Hbytes) as Hb.
  pose proof (le_val_range (take 4 bs) (Forall_take _ _ _ Hb)) as Hr1.
  pose proof (le_val_range (take 4 (drop 4 bs)) (Forall_take _ _ _ (Forall_drop _ _ _ Hb))) as Hr2.
  unfold compat_image. cbn [rlim_cur rlim_max compat_of_bytes].
  rewrite !compat_roundtrip by assumption.
  pose proof (le_bytes_split 4 (k_user k) na Hbytes) as Hs. cbn zeta in Hs. change (4 + 4)%nat with 8%nat in Hs.
  unfold bs. change (Z.to_nat 8) with 8%nat. rewrite Hs.
  rewrite <- (length_read_bytes (k_user k) na 8) at 1. apply read_write_bytes.
Qed.
End Behaviour.

(** ** Witnesses *)

(** A user page that holds a limit of 4096 and 8192 bytes, in both layouts. *)
Definition limit_user : gmap Z Z :=
  write_bytes (write_bytes ∅ 4096 (rlimit_image (mkRlimit 4096 8192)))
    4112 (compat_image (mkRlimit 4096 COMPAT_RLIM_INFINITY)).

Lemma limit_user_ok : bytes_ok limit_user.
Proof. apply bytes_ok_compute. vm_compute. reflexivity. Qed.

Lemma do_prlimit_changes_one_limit_witness :
  let _ := sample_env 0 in
  let k := sample_kernel limit_user in
  let new := mkRlimit 4096 8192 in
  wp (do_prlimit 107 RLIMIT_AS (Some new) true)
     (fun '(ret, old) k' => kernel_wf k' /\
        match rlim_of k 107 RLIMIT_AS with
        | Some rl => ret = prlimit_ret k 107 RLIMIT_AS rl (Some new) /\
            old = (if (ret =? 0) && true then Some rl else None)
        | None => RLIM_NLIMITS <= RLIMIT_AS /\ ret = - EINVAL /\ old = None
        end /\
        forall p r, 0 <= r -> rlim_of k' p r =
          if decide (ret = 0 /\ r = RLIMIT_AS /\ t_signal <$> k_tasks k !! p = Some 207)
          then Some new else rlim_of k p r) k.
Proof.
  intros env k new.
  apply (do_prlimit_changes_one_limit k 107 (sample_task 7 307 207 1000) RLIMIT_AS (Some new) true);
    [apply sample_kernel_wf | reflexivity | done].
Defined.

Lemma prlimit64_never_raises_witness :
  let _ := sample_env 0 in
  let k := sample_kernel limit_user in
  wp (prlimit64 7 RLIMIT_AS 4096 4096)
     (fun r k' => balanced k k' /\ kernel_wf k' /\
        (limits_ok k -> limits_ok k') /\
        ((forall k1, capable k1 CAP_SYS_RESOURCE = false) -> no_raise k k')) k.
Proof.
  intros env k. apply (prlimit64_never_raises k 7 RLIMIT_AS 4096 4096); [apply sample_kernel_wf | done | done].
Defined.

Lemma prlimit64_set_get_witness :
  let _ := sample_env 0 in
  let k := sample_kernel limit_user in
  wp (prlimit64 7 RLIMIT_AS 4096 0)
     (fun r k' => r = 0 ->
        wp (prlimit64 7 RLIMIT_AS 0 4104)
           (fun r' k'' => r' = 0 -> read_bytes (k_user k'') 4104 16 = read_bytes (k_user k) 4096 16) k') k.
Proof.
  intros env k. apply (prlimit64_set_get k 7 RLIMIT_AS 4096 4104);
    [apply sample_kernel_wf | done | done | lia | lia | apply limit_user_ok].
Defined.

Lemma compat_rlimit_set_get_witness :
  let _ := sample_env 0 in
  let k := sample_kernel limit_user in
  wp (compat_setrlimit RLIMIT_AS 4112)
     (fun r k' => r = 0 ->
        wp (compat_getrlimit RLIMIT_AS 4096)
           (fun r' k'' => r' = 0 -> read_bytes (k_user k'') 4096 8 = read_bytes (k_user k) 4112 8) k') k.
Proof.
  intros env k. apply (compat_rlimit_set_get k RLIMIT_AS 4112 4096);
    [apply sample_kernel_wf | done | apply limit_user_ok].
Defined.

(** Both calls of the round trip do succeed there. *)
Lemma set_get_succeeds :
  let _ := sample_env 0 in
  match prlimit64 7 RLIMIT_AS 4096 0 (sample_kernel limit_user) with
  | Done r k' => r = 0 /\ match prlimit64 7 RLIMIT_AS 0 4104 k' with Done r' _ => r' = 0 | Crash _ => False end
  | Crash _ => False
  end.
Proof. vm_compute. done. Qed.
