(* ===== verification/LimitPolicy.v ===== *)
(** The two ways to set an address-space limit side by side: the registry of
    [kernel/usac/taro_mani_mem.c] and [prlimit64] of [kernel/sys.c]. *)

From S2P Require Import Prelude Uaccess Kernel KList Registry Rlimit MemLimit.

Section Policy.
Context `{UserArch} `{KernelEnv} `{Slab} {L : Type} `{KList L}.
Context `{!SlabOk} `{!KListOk L}.

(** [v] bytes are more than the hard address-space limit of the task. *)
Definition above_hard_limit (k : kernel) (task v : Z) : Prop :=
  exists rl, rlim_of k task RLIMIT_AS = Some rl /\ rlim_max rl < v.

(** C39: [taro_add_memory_limit] ignores the hard limit.  A task without
    [CAP_SYS_RESOURCE] that asks for more than the hard [RLIMIT_AS] of a process
    is refused with -EPERM by [do_prlimit], which changes no limit, but the same
    request through [taro_add_memory_limit] succeeds and raises the hard limit. *)
Theorem taro_add_raises_hard_limit s x v task :
  ml_wf s -> lsm_grants -> 0 <= x -> 0 < v ->
  k_vpids (ml_k s) !! x = Some task -> has_pid (limits s) x = false -> room s = true ->
  above_hard_limit (ml_k s) task v ->
  (forall k, capable k CAP_SYS_RESOURCE = false) ->
  wp (do_prlimit task RLIMIT_AS (Some (mkRlimit v v)) false)
     (fun '(ret, _) k' => ret = - EPERM /\ k' = ml_k s) (ml_k s) /\
  wp (taro_add_memory_limit x v)
     (fun r s' => r = 0 /\ as_limit (ml_k s') x = Some (mkRlimit v v)) s.
Proof.
  intros Hwf Hg Hx Hv Hp Hfree Hroom (rl & Hrl & Hlt) Hcap. split.
  - destruct (kw_vpids _ (mw_kernel s Hwf) _ _ Hp) as [t Ht].
    rewrite (wp_run _ _ _ _ _ (do_prlimit_run _ _ t RLIMIT_AS _ false rl (mw_kernel s Hwf) Ht ltac:(done) Hrl)).
    unfold prlimit_ret. cbn [rlim_cur rlim_max].
    rewrite Z.ltb_irrefl, (proj2 (Z.ltb_lt (rlim_max rl) v) Hlt), Hcap. done.
  - eapply wp_mono, add_behaviour; [|done..]. intros r s' (_ & Hr & [Hk _ _]).
    assert (r = 0) as ->.
    { unfold add_spec, found in Hr. rewrite Hp, Hfree, Hroom in Hr.
      rewrite (proj2 (Z.ltb_ge x 0)), (proj2 (Z.leb_gt v 0)) in Hr by lia. by simplify_eq/=. }
    split; [done|]. rewrite (as_limit_limited s _ _ _ _ _ Hwf (add_spec_found _ _ _ _ _ _ _ Hr) Hk).
    by rewrite decide_True.
Qed.
End Policy.

(** ** Witness: process 7 has a hard limit of 4096 bytes, nobody has the capability. *)
Definition unprivileged_env : KernelEnv := {|
  capable _ _ := false;
  ns_capable _ _ _ := false;
  ns_capable_setid _ _ _ := false;
  security_task_setrlimit _ _ _ _ := 0;
  security_task_prlimit _ _ _ _ := 0;
  security_task_setnice _ _ _ := 0;
  security_task_fix_setuid _ _ _ _ := 0;
  security_task_fix_setgid _ _ _ _ := 0;
  security_task_setpgid _ _ _ := 0;
  security_task_getpgid _ _ := 0;
  security_task_getsid _ _ := 0;
  get_task_mm_ptr t := t_mm t;
  oom_badness _ _ _ _ _ := 100;
  totalram := 1000000;
  sysctl_nr_open := 1048576;
|}.

Definition capped_ml : mlstate (list Z) :=
  mkMl (with_rlimit (ml_k sample_ml) 107 RLIMIT_AS (mkRlimit 4096 4096))
    (ml_nodes sample_ml) (ml_list sample_ml) false.

Lemma capped_ml_wf : ml_wf capped_ml.
Proof.
  destruct sample_ml_wf. split; try done. by apply kernel_wf_with_rlimit.
Qed.

Lemma taro_add_raises_hard_limit_witness :
  let _ := unprivileged_env in
  wp (do_prlimit 107 RLIMIT_AS (Some (mkRlimit 8192 8192)) false)
     (fun '(ret, _) k' => ret = - EPERM /\ k' = ml_k capped_ml) (ml_k capped_ml) /\
  wp (taro_add_memory_limit 7 8192)
     (fun r s' => r = 0 /\ as_limit (ml_k s') 7 = Some (mkRlimit 8192 8192)) capped_ml.
Proof.
  intros env. apply (taro_add_raises_hard_limit capped_ml 7 8192 107); try done.
  - apply capped_ml_wf.
  - by exists (mkRlimit 4096 4096).
Defined.
