(* ===== verification/Cred.v ===== *)
(** Credentials: the set*id system calls of [kernel/sys.c].

    A call prepares a copy of the credentials of the caller, checks and changes
    it, and commits or drops it.  User ids are ids of the caller's namespace, the
    kernel ids ([kuid_t]) those of the initial one.  The reference counts of
    credentials and user structs are not modelled. *)

From S2P Require Import Prelude Uaccess Kernel.

(** [(uid_t) -1]: no change, and the invalid kernel id. *)
Definition no_id : Z := 2 ^ 32 - 1.
Definition uid_valid (kid : Z) : bool := negb (kid =? no_id).
Definition gid_valid (kid : Z) : bool := negb (kid =? no_id).

Definition CAP_SETGID : Z := 6.
Definition CAP_SETUID : Z := 7.
Definition LSM_SETID_ID : Z := 1.
Definition LSM_SETID_RE : Z := 2.
Definition LSM_SETID_RES : Z := 4.
Definition LSM_SETID_FS : Z := 8.
Definition UCOUNT_RLIMIT_NPROC : Z := 0.
Definition PF_NPROC_EXCEEDED : Z := 4096.

(** [kernel/user_namespace.c], [kernel/user.c], [kernel/ucount.c] and
    [kernel/cred.c]. *)
Class CredEnv := {
  make_kuid : Z -> Z -> Z;
  make_kgid : Z -> Z -> Z;
  from_kuid_munged : Z -> Z -> Z;
  from_kgid_munged : Z -> Z -> Z;
  creds_available : kernel -> bool;            (* prepare_creds() finds memory *)
  alloc_uid : kernel -> Z -> option Z;
  cred_ucounts : kernel -> cred -> option Z;   (* set_cred_ucounts(), [None]: -EAGAIN *)
  is_rlimit_overlimit : kernel -> Z -> Z -> Z -> bool;
  INIT_USER : Z;
  commit_creds : cred -> Kern kernel Z;
}.

Section Calls.
Context `{UserArch} `{KernelEnv} `{CredEnv}.

Definition current_cred : Kern kernel cred := t ← current_task; mret (t_cred t).

(** A copy of the caller's credentials, [None] without memory. *)
Definition prepare_creds : Kern kernel (option cred) :=
  c ← current_cred;
  ok ← gets creds_available;
  mret (if (ok : bool) then Some c else None).

Definition setid_capable (ns cap : Z) : Kern kernel bool := gets (fun k => ns_capable_setid k ns cap).

(** The common end of the set*gid calls. *)
Definition fix_setgid_and_commit (new old : cred) (lsm : Z) : Kern kernel Z :=
  retval ← gets (fun k => security_task_fix_setgid k new old lsm);
  if retval <? 0 then mret retval else commit_creds new.

Definition __sys_setregid (rgid egid : Z) : Kern kernel Z :=
  old ← current_cred;
  let ns := c_user_ns old in
  let krgid := make_kgid ns rgid in
  let kegid := make_kgid ns egid in
  if negb (rgid =? no_id) && negb (gid_valid krgid) then mret (- EINVAL)
  else if negb (egid =? no_id) && negb (gid_valid kegid) then mret (- EINVAL)
  else
  new ← prepare_creds;
  match new with
  | None => mret (- ENOMEM)
  | Some new =>
      cap ← setid_capable ns CAP_SETGID;
      if negb (rgid =? no_id) && negb ((c_gid old =? krgid) || (c_egid old =? krgid) || cap)
      then mret (- EPERM)
      else
      let new := if rgid =? no_id then new else new <| c_gid := krgid |> in
      if negb (egid =? no_id) &&
         negb ((c_gid old =? kegid) || (c_egid old =? kegid) || (c_sgid old =? kegid) || cap)
      then mret (- EPERM)
      else
      let new := if egid =? no_id then new else new <| c_egid := kegid |> in
      let new := if negb (rgid =? no_id) || (negb (egid =? no_id) && negb (kegid =? c_gid old))
                 then new <| c_sgid := c_egid new |> else new in
      let new := new <| c_fsgid := c_egid new |> in
      fix_setgid_and_commit new old LSM_SETID_RE
  end.

Definition __sys_setgid (gid : Z) : Kern kernel Z :=
  old ← current_cred;
  let ns := c_user_ns old in
  let kgid := make_kgid ns gid in
  if negb (gid_valid kgid) then mret (- EINVAL)
  else
  new ← prepare_creds;
  match new with
  | None => mret (- ENOMEM)
  | Some new =>
      cap ← setid_capable ns CAP_SETGID;
      if (cap : bool) then
        fix_setgid_and_commit
          (new <| c_fsgid := kgid |> <| c_sgid := kgid |> <| c_egid := kgid |> <| c_gid := kgid |>)
          old LSM_SETID_ID
      else if (kgid =? c_gid old) || (kgid =? c_sgid old) then
        fix_setgid_and_commit (new <| c_fsgid := kgid |> <| c_egid := kgid |>) old LSM_SETID_ID
      else mret (- EPERM)
  end.

(** Changes the user struct to match the new uid; [None] is -EAGAIN. *)
Definition set_user (new : cred) : Kern kernel (option cred) :=
  u ← gets (fun k => alloc_uid k (c_uid new));
  mret ((fun u => new <| c_user := u |>) <$> u).

Definition flag_nproc_exceeded (new : cred) : Kern kernel unit :=
  old ← current_cred;
  if c_ucounts new =? c_ucounts old then mret tt
  else
  limit ← current_rlimit RLIMIT_NPROC;
  over ← gets (fun k => is_rlimit_overlimit k (c_ucounts new) UCOUNT_RLIMIT_NPROC limit);
  p ← current;
  t ← task_at p;
  put_task p
    (t <| flags ::= fun f =>
           if (over : bool) && negb (c_user new =? INIT_USER)
           then Z.lor f PF_NPROC_EXCEEDED
           else Z.land f (Z.lnot PF_NPROC_EXCEEDED) |>).

(** The common end of the set*uid calls. *)
Definition fix_setuid_and_commit (new old : cred) (lsm : Z) : Kern kernel Z :=
  retval ← gets (fun k => security_task_fix_setuid k new old lsm);
  if retval <? 0 then mret retval
  else
  ucounts ← gets (fun k => cred_ucounts k new);
  match ucounts with
  | None => mret (- EAGAIN)
  | Some u =>
      let new := new <| c_ucounts := u |> in
      flag_nproc_exceeded new;;
      commit_creds new
  end.

(** [if (changed) { retval = set_user(new); if (retval < 0) goto error; }] and the
    rest of the call. *)
Definition with_user (changed : bool) (new : cred) (rest : cred -> Kern kernel Z) : Kern kernel Z :=
  new ← (if changed then set_user new else mret (Some new));
  match new with
  | None => mret (- EAGAIN)
  | Some new => rest new
  end.

Definition __sys_setreuid (ruid euid : Z) : Kern kernel Z :=
  old ← current_cred;
  let ns := c_user_ns old in
  let kruid := make_kuid ns ruid in
  let keuid := make_kuid ns euid in
  if negb (ruid =? no_id) && negb (uid_valid kruid) then mret (- EINVAL)
  else if negb (euid =? no_id) && negb (uid_valid keuid) then mret (- EINVAL)
  else
  new ← prepare_creds;
  match new with
  | None => mret (- ENOMEM)
  | Some new =>
      cap ← setid_capable ns CAP_SETUID;
      let new := if ruid =? no_id then new else new <| c_uid := kruid |> in
      if negb (ruid =? no_id) &&
         (negb (c_uid old =? kruid) && negb (c_euid old =? kruid) && negb cap)
      then mret (- EPERM)
      else
      let new := if euid =? no_id then new else new <| c_euid := keuid |> in
      if negb (euid =? no_id) &&
         (negb (c_uid old =? keuid) && negb (c_euid old =? keuid) && negb (c_suid old =? keuid) && negb cap)
      then mret (- EPERM)
      else
      with_user (negb (c_uid new =? c_uid old)) new (fun new =>
        let new := if negb (ruid =? no_id) || (negb (euid =? no_id) && negb (keuid =? c_uid old))
                   then new <| c_suid := c_euid new |> else new in
        let new := new <| c_fsuid := c_euid new |> in
        fix_setuid_and_commit new old LSM_SETID_RE)
  end.

Definition __sys_setuid (uid : Z) : Kern kernel Z :=
  old ← current_cred;
  let ns := c_user_ns old in
  let kuid := make_kuid ns uid in
  if negb (uid_valid kuid) then mret (- EINVAL)
  else
  new ← prepare_creds;
  match new with
  | None => mret (- ENOMEM)
  | Some new =>
      let rest (new : cred) :=
        fix_setuid_and_commit (new <| c_euid := kuid |> <| c_fsuid := kuid |>) old LSM_SETID_ID in
      cap ← setid_capable ns CAP_SETUID;
      if (cap : bool) then
        with_user (negb (kuid =? c_uid old)) (new <| c_uid := kuid |> <| c_suid := kuid |>) rest
      else if negb (kuid =? c_uid old) && negb (kuid =? c_suid new) then mret (- EPERM)
      else rest new
  end.

Definition __sys_setresuid (ruid euid suid : Z) : Kern kernel Z :=
  old ← current_cred;
  let ns := c_user_ns old in
  let kruid := make_kuid ns ruid in
  let keuid := make_kuid ns euid in
  let ksuid := make_kuid ns suid in
  if negb (ruid =? no_id) && negb (uid_valid kruid) then mret (- EINVAL)
  else if negb (euid =? no_id) && negb (uid_valid keuid) then mret (- EINVAL)
  else if negb (suid =? no_id) && negb (uid_valid ksuid) then mret (- EINVAL)
  else if ((ruid =? no_id) || (kruid =? c_uid old)) &&
          ((euid =? no_id) || ((keuid =? c_euid old) && (keuid =? c_fsuid old))) &&
          ((suid =? no_id) || (ksuid =? c_suid old)) then mret 0
  else
  let fresh id kid := negb (id =? no_id) && negb (kid =? c_uid old) &&
                      negb (kid =? c_euid old) && negb (kid =? c_suid old) in
  cap ← setid_capable ns CAP_SETUID;
  if (fresh ruid kruid || fresh euid keuid || fresh suid ksuid) && negb cap then mret (- EPERM)
  else
  new ← prepare_creds;
  match new with
  | None => mret (- ENOMEM)
  | Some new =>
      let new := if ruid =? no_id then new else new <| c_uid := kruid |> in
      with_user (negb (ruid =? no_id) && negb (kruid =? c_uid old)) new (fun new =>
        let new := if euid =? no_id then new else new <| c_euid := keuid |> in
        let new := if suid =? no_id then new else new <| c_suid := ksuid |> in
        let new := new <| c_fsuid := c_euid new |> in
        fix_setuid_and_commit new old LSM_SETID_RES)
  end.

(** The three [put_user] calls of [getresuid] and [getresgid]. *)
Definition put_ids (r e s rp ep sp : Z) : Kern kernel Z :=
  retval ← k_put_user 4 r rp;
  if truthy retval then mret retval
  else
  retval ← k_put_user 4 e ep;
  if truthy retval then mret retval
  else k_put_user 4 s sp.

Definition getresuid (ruidp euidp suidp : Z) : Kern kernel Z :=
  c ← current_cred;
  let munged kid := from_kuid_munged (c_user_ns c) kid in
  put_ids (munged (c_uid c)) (munged (c_euid c)) (munged (c_suid c)) ruidp euidp suidp.

Definition __sys_setresgid (rgid egid sgid : Z) : Kern kernel Z :=
  old ← current_cred;
  let ns := c_user_ns old in
  let krgid := make_kgid ns rgid in
  let kegid := make_kgid ns egid in
  let ksgid := make_kgid ns sgid in
  if negb (rgid =? no_id) && negb (gid_valid krgid) then mret (- EINVAL)
  else if negb (egid =? no_id) && negb (gid_valid kegid) then mret (- EINVAL)
  else if negb (sgid =? no_id) && negb (gid_valid ksgid) then mret (- EINVAL)
  else if ((rgid =? no_id) || (krgid =? c_gid old)) &&
          ((egid =? no_id) || ((kegid =? c_egid old) && (kegid =? c_fsgid old))) &&
          ((sgid =? no_id) || (ksgid =? c_sgid old)) then mret 0
  else
  let fresh id kid := negb (id =? no_id) && negb (kid =? c_gid old) &&
                      negb (kid =? c_egid old) && negb (kid =? c_sgid old) in
  cap ← setid_capable ns CAP_SETGID;
  if (fresh rgid krgid || fresh egid kegid || fresh sgid ksgid) && negb cap then mret (- EPERM)
  else
  new ← prepare_creds;
  match new with
  | None => mret (- ENOMEM)
  | Some new =>
      let new := if rgid =? no_id then new else new <| c_gid := krgid |> in
      let new := if egid =? no_id then new else new <| c_egid := kegid |> in
      let new := if sgid =? no_id then new else new <| c_sgid := ksgid |> in
      let new := new <| c_fsgid := c_egid new |> in
      fix_setgid_and_commit new old LSM_SETID_RES
  end.

Definition getresgid (rgidp egidp sgidp : Z) : Kern kernel Z :=
  c ← current_cred;
  let munged kid := from_kgid_munged (c_user_ns c) kid in
  put_ids (munged (c_gid c)) (munged (c_egid c)) (munged (c_sgid c)) rgidp egidp sgidp.

(** [setfsuid] and [setfsgid] return the old id, whether they change it or not. *)
Definition __sys_setfsuid (uid : Z) : Kern kernel Z :=
  old ← current_cred;
  let old_fsuid := from_kuid_munged (c_user_ns old) (c_fsuid old) in
  let kuid := make_kuid (c_user_ns old) uid in
  if negb (uid_valid kuid) then mret old_fsuid
  else
  new ← prepare_creds;
  match new with
  | None => mret old_fsuid
  | Some new =>
      cap ← setid_capable (c_user_ns old) CAP_SETUID;
      if ((kuid =? c_uid old) || (kuid =? c_euid old) || (kuid =? c_suid old) ||
          (kuid =? c_fsuid old) || cap) && negb (kuid =? c_fsuid old) then
        let new := new <| c_fsuid := kuid |> in
        refused ← gets (fun k => security_task_fix_setuid k new old LSM_SETID_FS);
        if refused =? 0 then commit_creds new;; mret old_fsuid else mret old_fsuid
      else mret old_fsuid
  end.

Definition __sys_setfsgid (gid : Z) : Kern kernel Z :=
  old ← current_cred;
  let old_fsgid := from_kgid_munged (c_user_ns old) (c_fsgid old) in
  let kgid := make_kgid (c_user_ns old) gid in
  if negb (gid_valid kgid) then mret old_fsgid
  else
  new ← prepare_creds;
  match new with
  | None => mret old_fsgid
  | Some new =>
      cap ← setid_capable (c_user_ns old) CAP_SETGID;
      if ((kgid =? c_gid old) || (kgid =? c_egid old) || (kgid =? c_sgid old) ||
          (kgid =? c_fsgid old) || cap) && negb (kgid =? c_fsgid old) then
        let new := new <| c_fsgid := kgid |> in
        refused ← gets (fun k => security_task_fix_setgid k new old LSM_SETID_FS);
        if refused =? 0 then commit_creds new;; mret old_fsgid else mret old_fsgid
      else mret old_fsgid
  end.

(** The system calls proper. *)
Definition setregid (rgid egid : Z) : Kern kernel Z := __sys_setregid rgid egid.
Definition setgid (gid : Z) : Kern kernel Z := __sys_setgid gid.
Definition setreuid (ruid euid : Z) : Kern kernel Z := __sys_setreuid ruid euid.
Definition setuid (uid : Z) : Kern kernel Z := __sys_setuid uid.
Definition setresuid (ruid euid suid : Z) : Kern kernel Z := __sys_setresuid ruid euid suid.
Definition setresgid (rgid egid sgid : Z) : Kern kernel Z := __sys_setresgid rgid egid sgid.
Definition setfsuid (uid : Z) : Kern kernel Z := __sys_setfsuid uid.
Definition setfsgid (gid : Z) : Kern kernel Z := __sys_setfsgid gid.

(** The eight calls that change ids. *)
Inductive id_call :=
| SetRegid (rgid egid : Z)
| SetGid (gid : Z)
| SetReuid (ruid euid : Z)
| SetUid (uid : Z)
| SetResuid (ruid euid suid : Z)
| SetResgid (rgid egid sgid : Z)
| SetFsuid (uid : Z)
| SetFsgid (gid : Z).

Definition id_exec (c : id_call) : Kern kernel Z :=
  match c with
  | SetRegid r e => setregid r e
  | SetGid g => setgid g
  | SetReuid r e => setreuid r e
  | SetUid u => setuid u
  | SetResuid r e s => setresuid r e s
  | SetResgid r e s => setresgid r e s
  | SetFsuid u => setfsuid u
  | SetFsgid g => setfsgid g
  end.

Fixpoint id_exec_all (cs : list id_call) : Kern kernel unit :=
  match cs with
  | [] => mret tt
  | c :: cs => id_exec c;; id_exec_all cs
  end.

End Calls.

(** ** The rules

    The calls for users and for groups follow the same rules on a set of four
    ids; [cap] says whether the caller has the capability for them, [None] in an
    argument is "no change", and the result [None] is a refusal. *)
Record ids := mkIds { real : Z; eff : Z; saved : Z; fs : Z }.

Inductive action :=
| Re (r e : option Z)
| One (x : Z)
| Res (r e s : option Z)
| Fs (x : Z).

Definition allowed (cap : bool) (x : option Z) (l : list Z) : bool :=
  match x with
  | Some x => existsb (Z.eqb x) l || cap
  | None => true
  end.
Definition keeps (x : option Z) (old : Z) : bool := if x is Some x then x =? old else true.

Definition rule (cap : bool) (a : action) (o : ids) : option ids :=
  let '(mkIds r0 e0 s0 f0) := o in
  match a with
  | Re r e =>
      if allowed cap r [r0; e0] && allowed cap e [r0; e0; s0] then
        let e1 := default e0 e in
        Some (mkIds (default r0 r) e1
                (if (if r is Some _ then true else negb (keeps e r0)) then e1 else s0) e1)
      else None
  | One x =>
      if cap then Some (mkIds x x x x)
      else if existsb (Z.eqb x) [r0; s0] then Some (mkIds r0 x s0 x) else None
  | Res r e s =>
      if keeps r r0 && (keeps e e0 && keeps e f0) && keeps s s0 then Some o
      else if allowed cap r [r0; e0; s0] && allowed cap e [r0; e0; s0] && allowed cap s [r0; e0; s0]
      then Some (mkIds (default r0 r) (default e0 e) (default s0 s) (default e0 e))
      else None
  | Fs x => Some (if existsb (Z.eqb x) [r0; e0; s0; f0] || cap then mkIds r0 e0 s0 x else o)
  end.

(** Without the capability no new id appears. *)
Definition within (o o' : ids) : Prop :=
  let l := [real o; eff o; saved o] in
  real o' ∈ l /\ eff o' ∈ l /\ saved o' ∈ l /\ fs o' ∈ fs o :: l.

#[global] Instance within_preorder : PreOrder within.
Proof.
  split.
  - intros o. unfold within. cbn. rewrite !elem_of_cons. tauto.
  - intros o1 o2 o3 (Hr & He & Hs & Hf) (Hr' & He' & Hs' & Hf').
    assert (forall x, x ∈ [real o2; eff o2; saved o2] -> x ∈ [real o1; eff o1; saved o1]) as Hsub.
    { intros x [->|[->|[->|[]%not_elem_of_nil]%elem_of_cons]%elem_of_cons]%elem_of_cons; done. }
    split_and!; [by apply Hsub..|]. apply elem_of_cons in Hf' as [->|Hf']; [done|].
    apply elem_of_cons. right. by apply Hsub.
Qed.

Lemma existsb_elem x l : existsb (Z.eqb x) l = true -> x ∈ l.
Proof. intros (y & Hy & ->%Z.eqb_eq)%existsb_exists. by apply list_elem_of_In. Qed.

Lemma rule_within a o o' : rule false a o = Some o' -> within o o'.
Proof.
  destruct o as [r0 e0 s0 f0]. unfold within.
  assert (forall x l d, allowed false x l = true -> d ∈ l -> default d x ∈ l) as Hd.
  { intros [x|] l d; cbn; [rewrite orb_false_r; intros Hx _; by apply existsb_elem|done]. }
  assert (r0 ∈ [r0; e0; s0] /\ e0 ∈ [r0; e0; s0] /\ s0 ∈ [r0; e0; s0]) as (Mr & Me & Ms)
    by (rewrite !elem_of_cons; tauto).
  destruct a as [r e|x|r e s|x]; cbn [rule real eff saved fs].
  - destruct (allowed false r _) eqn:Hr; [|done]. destruct (allowed false e _) eqn:He; [|done].
    intros [= <-]. cbn [real eff saved fs]. apply (Hd _ _ e0) in He; [|done].
    apply (Hd _ _ r0) in Hr; [|by apply elem_of_cons; left].
    split_and!; [|done|by case_match|by apply elem_of_cons; right].
    rewrite !elem_of_cons in Hr. rewrite !elem_of_cons. tauto.
  - destruct (existsb _ _) eqn:Hx; [|done]. intros [= <-]. apply existsb_elem in Hx. cbn.
    rewrite !elem_of_cons in Hx. rewrite !elem_of_cons. tauto.
  - case_match; [intros [= <-]; cbn; split_and!; try done; by apply elem_of_cons; left|].
    destruct (allowed false r _) eqn:Hr; [|done]. destruct (allowed false e _) eqn:He; [|done].
    destruct (allowed false s _) eqn:Hs; [|done]. intros [= <-]. cbn [real eff saved fs].
    split_and!; [by apply Hd..|]. apply elem_of_cons. right. by apply Hd.
  - rewrite orb_false_r. destruct (existsb (Z.eqb x) _) eqn:Hx; intros [= <-]; cbn [real eff saved fs];
      [apply existsb_elem in Hx; rewrite !elem_of_cons in Hx|]; split_and!; try done;
      rewrite !elem_of_cons; tauto.
Qed.

(** ** What the calls do *)
Inductive id_kind := Uids | Gids.
#[global] Instance id_kind_eq_dec : EqDecision id_kind.
Proof. solve_decision. Defined.

Definition ids_of (kind : id_kind) (c : cred) : ids :=
  match kind with
  | Uids => mkIds (c_uid c) (c_euid c) (c_suid c) (c_fsuid c)
  | Gids => mkIds (c_gid c) (c_egid c) (c_sgid c) (c_fsgid c)
  end.
Definition other (kind : id_kind) : id_kind := match kind with Uids => Gids | Gids => Uids end.
Definition cap_of (kind : id_kind) : Z := match kind with Uids => CAP_SETUID | Gids => CAP_SETGID end.

Section Behaviour.
Context `{UserArch} `{KernelEnv} `{CredEnv}.

Definition kind_of (c : id_call) : id_kind :=
  match c with
  | SetReuid _ _ | SetUid _ | SetResuid _ _ _ | SetFsuid _ => Uids
  | _ => Gids
  end.
Definition make_kid (kind : id_kind) : Z -> Z -> Z :=
  match kind with Uids => make_kuid | Gids => make_kgid end.

(** The arguments of a call as kernel ids. *)
Definition action_of (ns : Z) (c : id_call) : action :=
  let kid := make_kid (kind_of c) ns in
  let arg x := if x =? no_id then None else Some (kid x) in
  match c with
  | SetRegid r e | SetReuid r e => Re (arg r) (arg e)
  | SetGid x | SetUid x => One (kid x)
  | SetResuid r e s | SetResgid r e s => Res (arg r) (arg e) (arg s)
  | SetFsuid x | SetFsgid x => Fs (kid x)
  end.
Definition action_ids (a : action) : list (option Z) :=
  match a with
  | Re r e => [r; e]
  | One x | Fs x => [Some x]
  | Res r e s => [r; e; s]
  end.
Definition is_fs (c : id_call) : bool := match c with SetFsuid _ | SetFsgid _ => true | _ => false end.

Definition cred_of (k : kernel) (p : Z) : option cred := t_cred <$> k_tasks k !! p.

(** The credentials of the caller are [new]; nobody else's task has changed. *)
Record installed (k : kernel) (new : cred) (k' : kernel) : Prop := {
  in_wf : kernel_wf k';
  in_user : k_user k' = k_user k;
  in_current : k_current k' = k_current k;
  in_cred : cred_of k' (k_current k) = Some new;
  in_others p : p <> k_current k -> k_tasks k' !! p = k_tasks k !! p;
}.

(** Why a call may fail. *)
Inductive refusal (k : kernel) (old : cred) (c : id_call) : Z -> Prop :=
| bad_id : Some no_id ∈ action_ids (action_of (c_user_ns old) c) -> refusal k old c (- EINVAL)
| no_memory : creds_available k = false -> refusal k old c (- ENOMEM)
| not_permitted :
    rule (ns_capable_setid k (c_user_ns old) (cap_of (kind_of c)))
      (action_of (c_user_ns old) c) (ids_of (kind_of c) old) = None -> refusal k old c (- EPERM)
| no_user u : alloc_uid k u = None -> refusal k old c (- EAGAIN)
| no_ucounts new : cred_ucounts k new = None -> refusal k old c (- EAGAIN)
| lsm_uid new l r : security_task_fix_setuid k new old l = r -> r < 0 -> refusal k old c r
| lsm_gid new l r : security_task_fix_setgid k new old l = r -> r < 0 -> refusal k old c r.

Definition accepted (k : kernel) (old : cred) (c : id_call) (new : cred) : Prop :=
  rule (ns_capable_setid k (c_user_ns old) (cap_of (kind_of c)))
    (action_of (c_user_ns old) c) (ids_of (kind_of c) old) = Some (ids_of (kind_of c) new) /\
  ids_of (other (kind_of c)) new = ids_of (other (kind_of c)) old /\
  c_user_ns new = c_user_ns old.

Definition old_fs_id (old : cred) (c : id_call) : Z :=
  match kind_of c with
  | Uids => from_kuid_munged (c_user_ns old) (c_fsuid old)
  | Gids => from_kgid_munged (c_user_ns old) (c_fsgid old)
  end.

Definition id_post (k : kernel) (old : cred) (c : id_call) (r : Z) (k' : kernel) : Prop :=
  if is_fs c
  then r = old_fs_id old c /\ (k' = k \/ exists new, installed k new k' /\ accepted k old c new)
  else (k' = k /\ refusal k old c r) \/
       (r = 0 /\ exists new, installed k new k' /\ accepted k old c new).
End Behaviour.

(** What [commit_creds] does (kernel/cred.c): it never fails; it installs the
    credentials on the current task and may reset its parent-death signal and the
    dumpable flags of its address space. *)
Class CredEnvOk `{CredEnv} : Prop := {
  commit_installs new k t :
    k_tasks k !! k_current k = Some t ->
    exists sig mms,
      commit_creds new k = Done 0 (k <| k_tasks ::= <[k_current k := t <| t_cred := new |> <| pdeath_signal := sig |>]> |>
                                     <| k_mms := mms |>) /\
      forall p, mm_users <$> mms !! p = mm_users <$> k_mms k !! p;
}.

Section Proofs.
Context `{UserArch} `{KernelEnv} `{CredEnvOk}.

Lemma kernel_wf_current k t t' mms :
  kernel_wf k -> k_tasks k !! k_current k = Some t ->
  usage t' = usage t -> t_signal t' = t_signal t -> t_mm t' = t_mm t ->
  (forall p, mm_users <$> mms !! p = mm_users <$> k_mms k !! p) ->
  kernel_wf (k <| k_tasks ::= <[k_current k := t']> |> <| k_mms := mms |>).
Proof.
  intros [Wv Wt Wm Wr Wc Wp] Ht Hu Hs Hm Hmms.
  assert (forall p, is_Some (k_tasks k !! p) -> is_Some ((<[k_current k := t']> (k_tasks k)) !! p)) as Hdom.
  { intros p Hp. rewrite lookup_insert. by case_decide. }
  assert (forall p, is_Some (k_mms k !! p) -> is_Some (mms !! p)) as Hmdom.
  { intros p [m Hp]. specialize (Hmms p). rewrite Hp in Hmms. by destruct (mms !! p). }
  split; cbn; try done.
  - intros nr p Hv. by eapply Hdom, Wv.
  - intros p tp [[<- <-]|[_ Hp]]%lookup_insert_Some.
    + destruct (Wt _ _ Ht) as [? ? [?|?]]; split; cbn; rewrite ?Hu, ?Hs, ?Hm; eauto.
    + destruct (Wt _ _ Hp) as [? ? [?|?]]; split; cbn; eauto.
  - intros p m Hp. specialize (Hmms p). rewrite Hp in Hmms. cbn in Hmms.
    destruct (k_mms k !! p) as [m0|] eqn:H0'; [|done]. cbn in Hmms. injection Hmms as ->. by eapply Wm.
  - by apply Hdom.
  - eapply Forall_impl; [exact Wp|]. intros p. apply Hdom.
Qed.

Lemma commit_run k new :
  kernel_wf k -> wp (commit_creds new) (fun r k' => r = 0 /\ installed k new k') k.
Proof.
  intros Hk. destruct (kw_current k Hk) as [t Ht].
  destruct (commit_installs new k t Ht) as (sig & mms & Hrun & Hmms).
  rewrite (wp_run _ _ _ _ _ Hrun). split; [done|]. split; try done.
  - by apply (kernel_wf_current k t).
  - unfold cred_of. cbn. by rewrite lookup_insert_eq.
  - intros p Hp. cbn. by rewrite lookup_insert_ne.
Qed.

Lemma wp_current_cred k c Q : cred_of k (k_current k) = Some c -> wp current_cred Q k <-> Q c k.
Proof.
  unfold cred_of, current_cred, current_task, current. intros Hc.
  destruct (k_tasks k !! k_current k) as [t|] eqn:Ht; [|done]. cbn in Hc. injection Hc as <-.
  autorewrite with wp. rewrite (wp_task_at _ _ _ _ Ht). by autorewrite with wp.
Qed.

Lemma wp_prepare k c Q :
  cred_of k (k_current k) = Some c ->
  wp prepare_creds Q k <-> Q (if creds_available k then Some c else None) k.
Proof. intros Hc. unfold prepare_creds. autorewrite with wp. by rewrite (wp_current_cred _ _ _ Hc). Qed.

Lemma flag_nproc_run k c new :
  kernel_wf k -> cred_of k (k_current k) = Some c ->
  exists k', flag_nproc_exceeded new k = Done tt k' /\ kernel_wf k' /\ k_user k' = k_user k /\
    k_current k' = k_current k /\ cred_of k' (k_current k) = Some c /\
    forall p, p <> k_current k -> k_tasks k' !! p = k_tasks k !! p.
Proof.
  intros Hk Hc. unfold cred_of in *. destruct (k_tasks k !! k_current k) as [t|] eqn:Ht; [|done].
  unfold flag_nproc_exceeded, current_cred, current_rlimit, task_rlimit, current_task, current,
    task_at, task_signal, signal_at, rlim_at, put_task. kernel_unfold. rewrite Ht.
  destruct (c_ucounts new =? c_ucounts (t_cred t)); [exists k; split_and!; try done; by rewrite Ht|].
  rewrite Ht.
  destruct (tw_signal _ _ (kw_tasks k Hk _ _ Ht)) as [sg Hsg]. rewrite Hsg.
  destruct (lookup_lt_is_Some_2 (rlim sg) (Z.to_nat RLIMIT_NPROC)) as [r Hr].
  { rewrite (kw_rlim k Hk _ _ Hsg). unfold RLIMIT_NPROC. lia. }
  rewrite Hr. rewrite Ht. eexists. split; [done|]. split_and!; try done.
  - by apply (kernel_wf_current k t _ (k_mms k)).
  - cbn. by rewrite lookup_insert_eq.
  - intros p Hp. cbn. by rewrite lookup_insert_ne.
Qed.

Lemma wp_fix_setgid k new old lsm Q :
  kernel_wf k ->
  (forall r, security_task_fix_setgid k new old lsm = r -> r < 0 -> Q r k) ->
  (forall k', installed k new k' -> Q 0 k') ->
  wp (fix_setgid_and_commit new old lsm) Q k.
Proof.
  intros Hk Hneg Hok. unfold fix_setgid_and_commit. autorewrite with wp.
  destruct (Z.ltb_spec (security_task_fix_setgid k new old lsm) 0); [rewrite wp_ret; by apply Hneg|].
  eapply wp_mono, commit_run; [|done]. intros r k' [-> Hi]. by apply Hok.
Qed.

Lemma wp_fix_setuid k c new old lsm Q :
  kernel_wf k -> cred_of k (k_current k) = Some c ->
  (forall r, security_task_fix_setuid k new old lsm = r -> r < 0 -> Q r k) ->
  (cred_ucounts k new = None -> Q (- EAGAIN) k) ->
  (forall u k', installed k (new <| c_ucounts := u |>) k' -> Q 0 k') ->
  wp (fix_setuid_and_commit new old lsm) Q k.
Proof.
  intros Hk Hc Hneg Hnone Hok. unfold fix_setuid_and_commit. autorewrite with wp.
  destruct (Z.ltb_spec (security_task_fix_setuid k new old lsm) 0); [rewrite wp_ret; by apply Hneg|].
  autorewrite with wp. destruct (cred_ucounts k new) as [u|]; [|rewrite wp_ret; by apply Hnone].
  autorewrite with wp.
  destruct (flag_nproc_run k c (new <| c_ucounts := u |>) Hk Hc) as (k1 & Hrun & Hwf & Hu & Hcur & _ & Hoth).
  rewrite (wp_run _ _ _ _ _ Hrun). eapply wp_mono, commit_run; [|done].
  intros r k' [-> [Hw' Hu' Hc' Hcr Ho']]. apply (Hok u). split; try done; try congruence.
  intros p Hp. rewrite Ho' by congruence. by apply Hoth.
Qed.

Lemma wp_with_user k changed new rest Q :
  (alloc_uid k (c_uid new) = None -> Q (- EAGAIN) k) ->
  (forall u, wp (rest (new <| c_user := u |>)) Q k) ->
  wp (with_user changed new rest) Q k.
Proof.
  intros Hnone Hsome. unfold with_user, set_user. destruct changed; autorewrite with wp.
  - destruct (alloc_uid k (c_uid new)) as [u|]; cbn; [apply Hsome|by apply Hnone].
  - specialize (Hsome (c_user new)). by destruct new.
Qed.
(** Rewrite the permission test of a call into the one of the rule. *)
Ltac permission b :=
  match goal with
  | |- context [if ?t then mret (- EPERM) else _] =>
      replace t with (negb b)
        by (cbn [allowed existsb negb andb orb];
            rewrite ?(Z.eqb_sym (c_uid _)), ?(Z.eqb_sym (c_euid _)), ?(Z.eqb_sym (c_suid _)),
              ?(Z.eqb_sym (c_gid _)), ?(Z.eqb_sym (c_egid _)), ?(Z.eqb_sym (c_sgid _));
            repeat match goal with |- context [?x =? ?y] => destruct (x =? y) end;
            repeat match goal with |- context [ns_capable_setid ?a ?b ?c] => destruct (ns_capable_setid a b c) end;
            reflexivity)
  end.
Ltac refused := left; split; [done|].

Lemma wp_test_id k (b : bool) (kid : Z) (rest : Kern kernel Z) Q :
  (b = false -> kid = no_id -> Q (- EINVAL) k) -> (b = true \/ kid <> no_id -> wp rest Q k) ->
  wp (if negb b && negb (uid_valid kid) then mret (- EINVAL) else rest) Q k.
Proof.
  intros Hbad Hok. unfold uid_valid. rewrite negb_involutive. destruct b; cbn; [by apply Hok; left|].
  destruct (Z.eqb_spec kid no_id); [rewrite wp_ret; by apply Hbad|]. by apply Hok; right.
Qed.

Ltac check_id :=
  apply wp_test_id; 
  [let Hb := fresh in let Hn := fresh in intros Hb Hn; refused; apply bad_id; cbn; rewrite Hb, Hn; rewrite !elem_of_cons; tauto|intros _].


(** Decide what a call sets: [arg] is the id or "no change". *)
Ltac decide_arg x :=
  let E := fresh "E" in destruct (x =? no_id) eqn:E.
Ltac test_allowed b :=
  permission b; let E := fresh "Hallow" in
  destruct b eqn:E; cbn [negb];
  [|rewrite wp_ret; refused; apply not_permitted; cbn [action_of kind_of make_kid ids_of cap_of];
    repeat match goal with Hn : (_ =? no_id) = _ |- _ => rewrite Hn end;
    cbn [rule]; rewrite E, ?andb_false_r; done].
Ltac commit_gid :=
  apply wp_fix_setgid;
  [done|intros ? ? ?; refused; by eapply lsm_gid
  |intros ? ?; right; split; [done|]; eexists; split; [eassumption|]].
Ltac commit_uid Hc :=
  eapply wp_fix_setuid;
  [done|exact Hc|intros ? ? ?; refused; by eapply lsm_uid|intros; refused; by eapply no_ucounts
  |intros ? ? ?; right; split; [done|]; eexists; split; [eassumption|]].
Ltac by_rule :=
  unfold accepted; cbn [action_of kind_of make_kid cap_of other];
  repeat match goal with Hn : (_ =? no_id) = _ |- _ => rewrite Hn end;
  unfold ids_of at 1; cbn [rule];
  repeat match goal with Hn : allowed _ _ _ = true |- _ => rewrite Hn end;
  cbn [andb keeps];
  repeat match goal with |- context [?x =? ?y] => destruct (x =? y) end; repeat split.

Lemma setregid_post k old r e :
  kernel_wf k -> cred_of k (k_current k) = Some old ->
  wp (setregid r e) (id_post k old (SetRegid r e)) k.
Proof.
  intros Hk Hc. unfold setregid, __sys_setregid. rewrite wp_bind, (wp_current_cred _ _ _ Hc).
  unfold id_post; cbn [is_fs]. do 2 check_id.
  rewrite wp_bind, (wp_prepare _ _ _ Hc).
  destruct (creds_available k) eqn:Hm; [|rewrite wp_ret; refused; by apply no_memory].
  unfold setid_capable. autorewrite with wp.
  decide_arg r; decide_arg e; cbn [negb andb orb].
  - commit_gid. by_rule.
  - test_allowed (allowed (ns_capable_setid k (c_user_ns old) CAP_SETGID) (Some (make_kgid (c_user_ns old) e)) [c_gid old; c_egid old; c_sgid old]). commit_gid. by_rule.
  - test_allowed (allowed (ns_capable_setid k (c_user_ns old) CAP_SETGID) (Some (make_kgid (c_user_ns old) r)) [c_gid old; c_egid old]). commit_gid. by_rule.
  - test_allowed (allowed (ns_capable_setid k (c_user_ns old) CAP_SETGID) (Some (make_kgid (c_user_ns old) r)) [c_gid old; c_egid old]).
    test_allowed (allowed (ns_capable_setid k (c_user_ns old) CAP_SETGID) (Some (make_kgid (c_user_ns old) e)) [c_gid old; c_egid old; c_sgid old]). commit_gid. by_rule.
Qed.

Ltac change_user :=
  apply wp_with_user; [intros; refused; by eapply no_user|intros ?].

Lemma setreuid_post k old r e :
  kernel_wf k -> cred_of k (k_current k) = Some old ->
  wp (setreuid r e) (id_post k old (SetReuid r e)) k.
Proof.
  intros Hk Hc. unfold setreuid, __sys_setreuid. rewrite wp_bind, (wp_current_cred _ _ _ Hc).
  unfold id_post; cbn [is_fs]. do 2 check_id.
  rewrite wp_bind, (wp_prepare _ _ _ Hc).
  destruct (creds_available k) eqn:Hm; [|rewrite wp_ret; refused; by apply no_memory].
  unfold setid_capable. autorewrite with wp.
  decide_arg r; decide_arg e; cbn [negb andb orb].
  - change_user. commit_uid Hc. by_rule.
  - test_allowed (allowed (ns_capable_setid k (c_user_ns old) CAP_SETUID) (Some (make_kuid (c_user_ns old) e)) [c_uid old; c_euid old; c_suid old]).
    change_user. commit_uid Hc. by_rule.
  - test_allowed (allowed (ns_capable_setid k (c_user_ns old) CAP_SETUID) (Some (make_kuid (c_user_ns old) r)) [c_uid old; c_euid old]).
    change_user. commit_uid Hc. by_rule.
  - test_allowed (allowed (ns_capable_setid k (c_user_ns old) CAP_SETUID) (Some (make_kuid (c_user_ns old) r)) [c_uid old; c_euid old]).
    test_allowed (allowed (ns_capable_setid k (c_user_ns old) CAP_SETUID) (Some (make_kuid (c_user_ns old) e)) [c_uid old; c_euid old; c_suid old]).
    change_user. commit_uid Hc. by_rule.
Qed.

Lemma setgid_post k old g :
  kernel_wf k -> cred_of k (k_current k) = Some old -> wp (setgid g) (id_post k old (SetGid g)) k.
Proof.
  intros Hk Hc. unfold setgid, __sys_setgid. rewrite wp_bind, (wp_current_cred _ _ _ Hc).
  unfold id_post; cbn [is_fs]. apply (wp_test_id k false);
    [intros _ Hn; refused; apply bad_id; cbn; rewrite Hn; by apply elem_of_cons; left|intros _].
  rewrite wp_bind, (wp_prepare _ _ _ Hc).
  destruct (creds_available k) eqn:Hm; [|rewrite wp_ret; refused; by apply no_memory].
  unfold setid_capable. autorewrite with wp.
  destruct (ns_capable_setid k (c_user_ns old) CAP_SETGID) eqn:Hcap.
  { commit_gid. unfold accepted. cbn. rewrite Hcap. done. }
  destruct (_ || _) eqn:Ht.
  - commit_gid. unfold accepted. cbn [action_of kind_of make_kid cap_of]. rewrite Hcap. cbn.
    rewrite orb_false_r, Ht. done.
  - rewrite wp_ret. refused. apply not_permitted. cbn [action_of kind_of make_kid cap_of]. rewrite Hcap. cbn.
    by rewrite orb_false_r, Ht.
Qed.

Lemma setuid_post k old u :
  kernel_wf k -> cred_of k (k_current k) = Some old -> wp (setuid u) (id_post k old (SetUid u)) k.
Proof.
  intros Hk Hc. unfold setuid, __sys_setuid. rewrite wp_bind, (wp_current_cred _ _ _ Hc).
  unfold id_post; cbn [is_fs]. apply (wp_test_id k false);
    [intros _ Hn; refused; apply bad_id; cbn; rewrite Hn; by apply elem_of_cons; left|intros _].
  rewrite wp_bind, (wp_prepare _ _ _ Hc).
  destruct (creds_available k) eqn:Hm; [|rewrite wp_ret; refused; by apply no_memory].
  unfold setid_capable. autorewrite with wp.
  destruct (ns_capable_setid k (c_user_ns old) CAP_SETUID) eqn:Hcap.
  { change_user. commit_uid Hc. unfold accepted. cbn. rewrite Hcap. done. }
  rewrite <- negb_orb. destruct (_ || _) eqn:Ht; cbn [negb].
  - commit_uid Hc. unfold accepted. cbn [action_of kind_of make_kid cap_of]. rewrite Hcap. cbn.
    rewrite orb_false_r, Ht. done.
  - rewrite wp_ret. refused. apply not_permitted. cbn [action_of kind_of make_kid cap_of]. rewrite Hcap. cbn.
    by rewrite orb_false_r, Ht.
Qed.

Lemma installed_same k c : kernel_wf k -> cred_of k (k_current k) = Some c -> installed k c k.
Proof. by split. Qed.

Ltac arg_of x kid :=
  lazymatch goal with
  | _ : (x =? no_id) = true |- _ => constr:(@None Z)
  | _ : (x =? no_id) = false |- _ => constr:(Some (kid x))
  end.
Ltac bool_eq :=
  cbn [allowed existsb keeps negb andb orb];
  repeat match goal with |- context [?x =? ?y] => destruct (x =? y) end;
  repeat match goal with |- context [ns_capable_setid ?a ?b ?c] => destruct (ns_capable_setid a b c) end;
  reflexivity.
Ltac arg_facts := repeat match goal with Hn : (_ =? no_id) = _ |- _ => rewrite Hn end.
(** One combination of "no change" arguments of a setres*id call; [g] are the
    fields, [finish] prepares, commits and compares the new credentials. *)
Ltac setres_case k old kid cap r e s gr ge gs gf finish :=
  let ra := arg_of r kid in let ea := arg_of e kid in let sa := arg_of s kid in
  let noop := constr:(keeps ra (gr old) && (keeps ea (ge old) && keeps ea (gf old)) && keeps sa (gs old)) in
  let l := constr:([gr old; ge old; gs old]) in
  let perm := constr:(allowed cap ra l && allowed cap ea l && allowed cap sa l) in
  let Hno := fresh "Hno" in let Hperm := fresh "Hperm" in
  lazymatch goal with |- wp (if ?t then mret 0 else _) _ _ => replace t with noop by bool_eq end;
  destruct noop eqn:Hno;
  [rewrite wp_ret; right; split; [done|]; exists old; split; [by apply installed_same|];
   unfold accepted; cbn [action_of kind_of make_kid cap_of other]; arg_facts; unfold ids_of at 1;
   cbn [rule]; rewrite Hno; done|];
  unfold setid_capable; rewrite wp_bind, wp_gets;
  lazymatch goal with |- wp (if ?t then _ else _) _ _ => replace t with (negb perm) by bool_eq end;
  destruct perm eqn:Hperm; cbn [negb];
  [|rewrite wp_ret; refused; apply not_permitted; cbn [action_of kind_of make_kid cap_of]; arg_facts;
    cbn [rule ids_of]; rewrite Hno, Hperm; done];
  finish Hno Hperm.
Ltac setres_done Hno Hperm :=
  unfold accepted; cbn [action_of kind_of make_kid cap_of other]; arg_facts; unfold ids_of at 1;
  cbn [rule]; rewrite Hno, Hperm; repeat split.

Lemma setresgid_post k old r e s :
  kernel_wf k -> cred_of k (k_current k) = Some old ->
  wp (setresgid r e s) (id_post k old (SetResgid r e s)) k.
Proof.
  intros Hk Hc. unfold setresgid, __sys_setresgid. rewrite wp_bind, (wp_current_cred _ _ _ Hc).
  unfold id_post; cbn [is_fs]. do 3 check_id.
  destruct (r =? no_id) eqn:Er, (e =? no_id) eqn:Ee, (s =? no_id) eqn:Es.
  all: setres_case k old (make_kgid (c_user_ns old)) (ns_capable_setid k (c_user_ns old) CAP_SETGID)
    r e s c_gid c_egid c_sgid c_fsgid ltac:(fun Hno Hperm =>
      rewrite wp_bind, (wp_prepare _ _ _ Hc);
      destruct (creds_available k) eqn:Hm; [|rewrite wp_ret; refused; by apply no_memory];
      commit_gid; setres_done Hno Hperm).
Qed.

Lemma setresuid_post k old r e s :
  kernel_wf k -> cred_of k (k_current k) = Some old ->
  wp (setresuid r e s) (id_post k old (SetResuid r e s)) k.
Proof.
  intros Hk Hc. unfold setresuid, __sys_setresuid. rewrite wp_bind, (wp_current_cred _ _ _ Hc).
  unfold id_post; cbn [is_fs]. do 3 check_id.
  destruct (r =? no_id) eqn:Er, (e =? no_id) eqn:Ee, (s =? no_id) eqn:Es.
  all: setres_case k old (make_kuid (c_user_ns old)) (ns_capable_setid k (c_user_ns old) CAP_SETUID)
    r e s c_uid c_euid c_suid c_fsuid ltac:(fun Hno Hperm =>
      rewrite wp_bind, (wp_prepare _ _ _ Hc);
      destruct (creds_available k) eqn:Hm; [|rewrite wp_ret; refused; by apply no_memory];
      change_user; commit_uid Hc; setres_done Hno Hperm).
Qed.

Lemma setfsuid_post k old u :
  kernel_wf k -> cred_of k (k_current k) = Some old -> wp (setfsuid u) (id_post k old (SetFsuid u)) k.
Proof.
  intros Hk Hc. unfold setfsuid, __sys_setfsuid. rewrite wp_bind, (wp_current_cred _ _ _ Hc).
  unfold id_post. cbn [is_fs]. case_match; [rewrite wp_ret; split; [done|by left]|].
  rewrite wp_bind, (wp_prepare _ _ _ Hc).
  destruct (creds_available k); [|rewrite wp_ret; split; [done|by left]].
  unfold setid_capable. autorewrite with wp.
  destruct (_ && _) eqn:Ht; [|rewrite wp_ret; split; [done|by left]].
  apply andb_true_iff in Ht as [Ht _]. autorewrite with wp.
  case_match; [|rewrite wp_ret; split; [done|by left]].
  rewrite wp_bind. eapply wp_mono, commit_run; [|done]. intros r k' [_ Hi]. rewrite wp_ret.
  split; [done|]. right. eexists. split; [exact Hi|]. unfold accepted. cbn in *.
  rewrite orb_false_r, !orb_assoc, Ht. done.
Qed.

Lemma setfsgid_post k old u :
  kernel_wf k -> cred_of k (k_current k) = Some old -> wp (setfsgid u) (id_post k old (SetFsgid u)) k.
Proof.
  intros Hk Hc. unfold setfsgid, __sys_setfsgid. rewrite wp_bind, (wp_current_cred _ _ _ Hc).
  unfold id_post. cbn [is_fs]. case_match; [rewrite wp_ret; split; [done|by left]|].
  rewrite wp_bind, (wp_prepare _ _ _ Hc).
  destruct (creds_available k); [|rewrite wp_ret; split; [done|by left]].
  unfold setid_capable. autorewrite with wp.
  destruct (_ && _) eqn:Ht; [|rewrite wp_ret; split; [done|by left]].
  apply andb_true_iff in Ht as [Ht _]. autorewrite with wp.
  case_match; [|rewrite wp_ret; split; [done|by left]].
  rewrite wp_bind. eapply wp_mono, commit_run; [|done]. intros r k' [_ Hi]. rewrite wp_ret.
  split; [done|]. right. eexists. split; [exact Hi|]. unfold accepted. cbn in *.
  rewrite orb_false_r, !orb_assoc, Ht. done.
Qed.

Lemma id_exec_post k old c :
  kernel_wf k -> cred_of k (k_current k) = Some old -> wp (id_exec c) (id_post k old c) k.
Proof.
  intros Hk Hc. destruct c; cbn [id_exec];
    auto using setregid_post, setgid_post, setreuid_post, setuid_post, setresuid_post, setresgid_post,
      setfsuid_post, setfsgid_post.
Qed.

(** Either way the caller ends up with credentials the rule produces. *)
Lemma id_exec_step k old c :
  kernel_wf k -> cred_of k (k_current k) = Some old ->
  wp (id_exec c)
     (fun _ k' => exists new, installed k new k' /\ c_user_ns new = c_user_ns old /\
        (ns_capable_setid k (c_user_ns old) (cap_of (kind_of c)) = false ->
         within (ids_of (kind_of c) old) (ids_of (kind_of c) new)) /\
        ids_of (other (kind_of c)) new = ids_of (other (kind_of c)) old) k.
Proof.
  intros Hk Hc. eapply wp_mono, id_exec_post; [|done..]. intros r k' Hp.
  assert (k' = k \/ exists new, installed k new k' /\ accepted k old c new) as [->|(new & Hi & Ha & Ho & Hn)].
  { unfold id_post in Hp. destruct (is_fs c); naive_solver. }
  - exists old. by split_and!.
  - exists new. split_and!; try done. intros Hcap. rewrite Hcap in Ha. by eapply rule_within.
Qed.

(** Ids of the given kinds are among those of [old]. *)
Definition among (kinds : list id_kind) (old c : cred) : Prop :=
  Forall (fun kind => within (ids_of kind old) (ids_of kind c)) kinds.

(** Tasks that run with such ids lack the capabilities for them. *)
Definition unprivileged (kinds : list id_kind) (old : cred) : Prop :=
  forall k c, cred_of k (k_current k) = Some c -> c_user_ns c = c_user_ns old -> among kinds old c ->
    Forall (fun kind => ns_capable_setid k (c_user_ns old) (cap_of kind) = false) kinds.

Lemma among_refl kinds old : among kinds old old.
Proof. unfold among. by induction kinds; constructor. Qed.

Lemma id_exec_all_among kinds cs k base old :
  kernel_wf k -> cred_of k (k_current k) = Some old -> c_user_ns old = c_user_ns base ->
  among kinds base old -> unprivileged kinds base ->
  wp (id_exec_all cs) (fun _ k' => exists new, installed k new k' /\ among kinds base new) k.
Proof.
  intros Hk Hc Hns0 Ham Hun. enough (forall k0 mid, installed k mid k0 -> c_user_ns mid = c_user_ns base ->
    among kinds base mid -> wp (id_exec_all cs) (fun _ k' => exists new,
      installed k new k' /\ among kinds base new) k0) as Hgo.
  { apply (Hgo k old); [by apply installed_same|done..]. }
  induction cs as [|c cs IH]; intros k0 mid Hi Hns Hw; cbn [id_exec_all]; [by exists mid|].
  rewrite wp_bind. pose proof (in_cred _ _ _ Hi) as Hcm. rewrite <- (in_current _ _ _ Hi) in Hcm.
  pose proof (Hun k0 mid Hcm Hns Hw) as Hcaps.
  eapply wp_mono, (id_exec_step k0 mid c); [|by apply (in_wf _ _ _ Hi)|done].
  intros _ k1 (new & [W1 U1 C1 N1 O1] & Hns1 & Hw1 & Ho1). apply (IH k1 new).
  - destruct Hi as [W0 U0 C0 N0 O0]. split; try done; try congruence.
    intros p Hp. rewrite O1 by congruence. by apply O0.
  - congruence.
  - unfold among in *. rewrite Forall_forall in *. intros kind Hkind.
    transitivity (ids_of kind mid); [by apply Hw|].
    destruct (decide (kind = kind_of c)) as [->|Hne].
    + apply Hw1. rewrite Hns. by apply Hcaps.
    + assert (other (kind_of c) = kind) as <- by (destruct kind, (kind_of c); done).
      by rewrite Ho1.
Qed.

(** C8: the eight set*id calls follow the rules.  Each of them either leaves the
    state as it was and returns the error of one of the possible reasons, or
    returns 0 with the ids the rule prescribes installed on the caller, the ids
    of the other kind and all other tasks unchanged; [setfsuid] and [setfsgid]
    return the old id. *)
Theorem id_calls_refine k old c :
  kernel_wf k -> cred_of k (k_current k) = Some old -> wp (id_exec c) (id_post k old c) k.
Proof. apply id_exec_post. Qed.

(** C18: a task without the capabilities never gets an id that was not already
    among its real, effective and saved ids (or its filesystem id, for that
    one), whatever sequence of set*id calls it makes. *)
Theorem ids_never_grow k old cs :
  kernel_wf k -> cred_of k (k_current k) = Some old -> unprivileged [Uids; Gids] old ->
  wp (id_exec_all cs)
     (fun _ k' => exists new, installed k new k' /\
        within (ids_of Uids old) (ids_of Uids new) /\ within (ids_of Gids old) (ids_of Gids new)) k.
Proof.
  intros Hk Hc Hun. eapply wp_mono, (id_exec_all_among [Uids; Gids] cs k old old); [|done|done|done|apply among_refl|done].
  intros [] k' (new & Hi & Ham). exists new. unfold among in Ham. rewrite !Forall_cons in Ham. tauto.
Qed.

(** The credentials with all four uids changed. *)
Definition all_uids (c : cred) (kuid : Z) : cred :=
  c <| c_uid := kuid |> <| c_euid := kuid |> <| c_suid := kuid |> <| c_fsuid := kuid |>.
Definition uids_at (k : kernel) (p : Z) : option ids := ids_of Uids <$> cred_of k p.

(** [setuid] drops privileges for good.  After a caller with the capability
    has set its uid, all four uids are the new one; if that user has no
    capability, no further sequence of set*id calls brings another uid back. *)
Theorem setuid_drops_for_good k old u cs :
  kernel_wf k -> cred_of k (k_current k) = Some old ->
  ns_capable_setid k (c_user_ns old) CAP_SETUID = true ->
  let kuid := make_kuid (c_user_ns old) u in
  unprivileged [Uids] (all_uids old kuid) ->
  wp (setuid u)
     (fun r k1 => r = 0 ->
        uids_at k1 (k_current k) = Some (mkIds kuid kuid kuid kuid) /\
        wp (id_exec_all cs) (fun _ k2 => uids_at k2 (k_current k) = Some (mkIds kuid kuid kuid kuid)) k1) k.
Proof.
  intros Hk Hc Hcap kuid Hun. eapply wp_mono, (setuid_post k old u); [|done..].
  intros r k1 [[_ Href]|[_ (new & Hi & Ha & _ & Hn)]] ->.
  { inversion Href; lia. }
  cbn [kind_of cap_of action_of make_kid] in Ha. rewrite Hcap in Ha. cbn [rule] in Ha.
  destruct (ids_of Uids old) eqn:Ho. apply (inj Some) in Ha. change (make_kuid _ _) with kuid in Ha.
  unfold uids_at. rewrite (in_cred _ _ _ Hi). cbn [fmap option_fmap option_map]. rewrite <- Ha. split; [done|].
  pose proof (in_cred _ _ _ Hi) as Hc1. rewrite <- (in_current _ _ _ Hi) in Hc1.
  eapply wp_mono, (id_exec_all_among [Uids] cs k1 (all_uids old kuid) new); [|by apply (in_wf _ _ _ Hi)|try done..].
  - intros _ k2 (new2 & Hi2 & Hw). pose proof (in_cred _ _ _ Hi2) as Hc2.
    rewrite (in_current _ _ _ Hi) in Hc2. rewrite Hc2. cbn [fmap option_fmap option_map].
    unfold among in Hw. rewrite Forall_singleton in Hw. destruct (ids_of Uids new2) as [a b c d].
    unfold within in Hw. cbn in Hw. rewrite !elem_of_cons, !elem_of_nil in Hw. f_equal. f_equal; tauto.
  - unfold among. rewrite Forall_singleton, <- Ha. reflexivity.
Qed.

(** Three ids stored at three places. *)
Lemma put_ids_stores `{!UserArchOk} k r e s rp ep sp :
  mappedb (k_user k) rp 4 = true -> mappedb (k_user k) ep 4 = true -> mappedb (k_user k) sp 4 = true ->
  wp (put_ids r e s rp ep sp)
     (fun ret k' => ret = 0 /\ k_tasks k' = k_tasks k /\
        k_user k' = write_bytes (write_bytes (write_bytes (k_user k) rp (le_bytes 4 r)) ep (le_bytes 4 e))
                      sp (le_bytes 4 s)) k.
Proof.
  intros Hr He Hs. unfold put_ids, k_put_user. kernel_unfold.
  assert (forall m a bs p, mappedb m p 4 = true -> mappedb (write_bytes m a bs) p 4 = true) as Hmap.
  { intros m a bs p. apply mapped_range_mono. intros x. apply is_Some_write_bytes. }
  rewrite put_user_ok by done. cbn [truthy Z.eqb negb user_accessed k_user].
  rewrite put_user_ok by (by apply Hmap). cbn [truthy Z.eqb negb user_accessed k_user].
  rewrite put_user_ok by (by apply Hmap, Hmap). done.
Qed.

(** what [setresuid] has set [getresuid] returns: the three ids, as seen from
    the caller's namespace. *)
Theorem setresuid_getresuid `{!UserArchOk} k old r e s rp ep sp :
  kernel_wf k -> cred_of k (k_current k) = Some old ->
  (forall x, x ∈ [r; e; s] -> x <> no_id /\ is_u32 x /\
     from_kuid_munged (c_user_ns old) (make_kuid (c_user_ns old) x) = x) ->
  mappedb (k_user k) rp 4 = true -> mappedb (k_user k) ep 4 = true -> mappedb (k_user k) sp 4 = true ->
  rp + 4 <= ep -> ep + 4 <= sp ->
  wp (setresuid r e s)
     (fun ret k1 => ret = 0 ->
        wp (getresuid rp ep sp) (fun ret' k2 => ret' = 0 /\
          le_val (read_bytes (k_user k2) rp 4) = r /\ le_val (read_bytes (k_user k2) ep 4) = e /\
          le_val (read_bytes (k_user k2) sp 4) = s) k1) k.
Proof.
  intros Hk Hc Hids Hrp Hep Hsp Hre Hes. eapply wp_mono, (setresuid_post k old r e s); [|done..].
  intros ret k1 [[_ Href]|[_ (new & Hi & Ha & _ & Hn)]] ->; [inversion Href; lia|].
  assert (forall x, x ∈ [r; e; s] -> (x =? no_id) = false) as Hset.
  { intros x Hx. apply Z.eqb_neq. by apply Hids. }
  assert (ids_of Uids new = ids_of Uids new /\ c_uid new = make_kuid (c_user_ns old) r /\
    c_euid new = make_kuid (c_user_ns old) e /\ c_suid new = make_kuid (c_user_ns old) s) as (_ & Er & Ee & Es).
  { cbn [action_of kind_of make_kid] in Ha. rewrite !Hset in Ha by (rewrite !elem_of_cons; tauto).
    unfold ids_of in Ha at 1. cbn [rule] in Ha.
    destruct (keeps _ _ && _ && _) eqn:Hno.
    - cbn [keeps] in Hno. bool_facts. injection Ha as Ea Eb Ec Ed. cbn in *. split_and!; congruence.
    - case_match; [|done]. injection Ha as Ea Eb Ec Ed. cbn in *. split_and!; congruence. }
  unfold getresuid. rewrite wp_bind.
  pose proof (in_cred _ _ _ Hi) as Hc1. rewrite <- (in_current _ _ _ Hi) in Hc1.
  rewrite (wp_current_cred _ _ _ Hc1), Hn, Er, Ee, Es.
  destruct (Hids r ltac:(rewrite !elem_of_cons; tauto)) as (_ & Ur & ->).
  destruct (Hids e ltac:(rewrite !elem_of_cons; tauto)) as (_ & Ue & ->).
  destruct (Hids s ltac:(rewrite !elem_of_cons; tauto)) as (_ & Us & ->).
  eapply wp_mono, put_ids_stores; rewrite ?(in_user _ _ _ Hi); [|done..].
  intros ret k2 (-> & _ & ->). split; [done|].
  assert (forall m a x, is_u32 x -> le_val (read_bytes (write_bytes m a (le_bytes 4 x)) a 4) = x) as Hrd.
  { intros m a x Hx. rewrite <- (length_le_bytes 4 x) at 2. rewrite read_write_bytes, le_val_bytes. by apply Z.mod_small. }
  rewrite !(read_bytes_frame _ sp), (read_bytes_frame _ ep) by (rewrite length_le_bytes; lia).
  split_and!; by apply Hrd.
Qed.
End Proofs.

(** ** Witnesses: an identity namespace; root has the capabilities *)
Definition sample_creds : CredEnv := {|
  make_kuid _ x := x;
  make_kgid _ x := x;
  from_kuid_munged _ x := x;
  from_kgid_munged _ x := x;
  creds_available _ := true;
  alloc_uid _ u := Some u;
  cred_ucounts _ c := Some (c_uid c);
  is_rlimit_overlimit _ _ _ _ := false;
  INIT_USER := 0;
  commit_creds new k :=
    match k_tasks k !! k_current k with
    | Some t => Done 0 (k <| k_tasks ::= <[k_current k := t <| t_cred := new |> <| pdeath_signal := 0 |>]> |>)
    | None => Crash NullDeref
    end;
|}.
#[global] Instance sample_creds_ok : @CredEnvOk sample_creds.
Proof.
  split. intros new k t Ht. exists 0, (k_mms k). split; [|done]. cbn. rewrite Ht. by destruct k.
Qed.

(** Capabilities follow the effective uid. *)
Definition root_env : KernelEnv := {|
  capable _ _ := true;
  ns_capable _ _ _ := true;
  ns_capable_setid k _ _ := bool_decide (c_euid <$> cred_of k (k_current k) = Some 0);
  security_task_setrlimit _ _ _ _ := 0;
  security_task_prlimit _ _ _ _ := 0;
  security_task_setnice _ _ _ := 0;
  security_task_fix_setuid _ _ _ _ := 0;
  security_task_fix_setgid _ _ _ _ := 0;
  security_task_setpgid _ _ _ := 0;
  security_task_getpgid _ _ := 0;
  security_task_getsid _ _ := 0;
  get_task_mm_ptr t := t_mm t;
  oom_badness _ _ _ _ _ := 100;
  totalram := 1000000;
  sysctl_nr_open := 1048576;
|}.

(** The caller is root, or, in [user_kernel], user 1000 with saved uid 1001. *)
Definition root_kernel : kernel := sample_kernel (write_bytes ∅ 4096 (replicate 16 255)).
Definition user_cred : cred := (sample_cred 1000) <| c_suid := 1001 |>.
Definition user_kernel : kernel :=
  root_kernel <| k_tasks ::= <[101 := (sample_task 1 301 201 0) <| t_cred := user_cred |>]> |>.

Lemma user_kernel_wf : kernel_wf user_kernel.
Proof.
  pose proof (kernel_wf_current root_kernel (sample_task 1 301 201 0)
    ((sample_task 1 301 201 0) <| t_cred := user_cred |>) (k_mms root_kernel)) as Hwf.
  apply Hwf; try done. apply sample_kernel_wf.
Qed.

Lemma user_unprivileged : let _ := root_env in unprivileged [Uids; Gids] user_cred.
Proof.
  intros env k c Hc _ Ham. unfold among in Ham. rewrite Forall_cons in Ham. destruct Ham as [(_ & He & _) _].
  assert (bool_decide (c_euid <$> cred_of k (k_current k) = Some 0) = false) as Hf.
  { apply bool_decide_eq_false. rewrite Hc. cbn. intros [= E]. cbn in He. rewrite E in He.
    rewrite !elem_of_cons, elem_of_nil in He. destruct He as [?|[?|[?|[]]]]; done. }
  by repeat constructor.
Qed.

Lemma id_calls_refine_witness :
  let _ := root_env in let _ := sample_creds in
  wp (id_exec (SetReuid no_id 1001)) (id_post user_kernel user_cred (SetReuid no_id 1001)) user_kernel.
Proof.
  intros env ce. apply (id_calls_refine user_kernel user_cred (SetReuid no_id 1001)); [apply user_kernel_wf | reflexivity].
Defined.

Lemma ids_never_grow_witness :
  let _ := root_env in let _ := sample_creds in
  wp (id_exec_all [SetReuid no_id 1001; SetUid 0; SetResuid 1001 1001 1001; SetGid 5])
     (fun _ k' => exists new, installed user_kernel new k' /\
        within (ids_of Uids user_cred) (ids_of Uids new) /\ within (ids_of Gids user_cred) (ids_of Gids new))
     user_kernel.
Proof.
  intros env ce.
  apply (ids_never_grow user_kernel user_cred [SetReuid no_id 1001; SetUid 0; SetResuid 1001 1001 1001; SetGid 5]);
    [apply user_kernel_wf | reflexivity | apply user_unprivileged].
Defined.

Lemma dropped_unprivileged :
  let _ := root_env in unprivileged [Uids] (all_uids (sample_cred 0) 1000).
Proof.
  intros env k c Hc _ Ham. unfold among in Ham. rewrite Forall_singleton in Ham. destruct Ham as (_ & He & _).
  assert (bool_decide (c_euid <$> cred_of k (k_current k) = Some 0) = false) as Hf.
  { apply bool_decide_eq_false. rewrite Hc. cbn. intros [= E]. cbn in He. rewrite E in He.
    rewrite !elem_of_cons, elem_of_nil in He. destruct He as [?|[?|[?|[]]]]; done. }
  by repeat constructor.
Qed.

Lemma setuid_drops_for_good_witness :
  let _ := root_env in let _ := sample_creds in
  let kuid := make_kuid (c_user_ns (sample_cred 0)) 1000 in
  wp (setuid 1000)
     (fun r k1 => r = 0 ->
        uids_at k1 (k_current root_kernel) = Some (mkIds kuid kuid kuid kuid) /\
        wp (id_exec_all [SetUid 0; SetResuid 0 0 0]) (fun _ k2 =>
          uids_at k2 (k_current root_kernel) = Some (mkIds kuid kuid kuid kuid)) k1) root_kernel.
Proof.
  intros env ce kuid. apply (setuid_drops_for_good root_kernel (sample_cred 0) 1000 [SetUid 0; SetResuid 0 0 0]);
    [apply sample_kernel_wf | reflexivity | reflexivity | apply dropped_unprivileged].
Defined.

Lemma setresuid_getresuid_witness :
  let _ := root_env in let _ := sample_creds in
  wp (setresuid 1000 1001 1002)
     (fun ret k1 => ret = 0 ->
        wp (getresuid 4096 4100 4104) (fun ret' k2 => ret' = 0 /\
          le_val (read_bytes (k_user k2) 4096 4) = 1000 /\ le_val (read_bytes (k_user k2) 4100 4) = 1001 /\
          le_val (read_bytes (k_user k2) 4104 4) = 1002) k1) root_kernel.
Proof.
  intros env ce. apply (setresuid_getresuid root_kernel (sample_cred 0) 1000 1001 1002 4096 4100 4104);
    [apply sample_kernel_wf | reflexivity | | vm_compute; reflexivity.. | lia | lia].
  intros x Hx. rewrite !elem_of_cons, elem_of_nil in Hx. unfold no_id, is_u32.
  split_and!; try done; destruct Hx as [->|[->|[->|[]]]]; lia.
Defined.
