(* ===== verification/Pgrp.v ===== *)
(** Process groups and sessions: [setpgid], [getpgid], [getsid], [setsid] and the
    id getters of [kernel/sys.c].

    A [struct pid] is an object; the signal struct of a process names the pid of
    its group and of its session.  The tasklist lock is not modelled: a call runs
    to its end before the next one.  The terminal, the process connector and the
    autogroup, which [setsid] notifies, are not part of the state. *)

From S2P Require Import Prelude Uaccess Kernel Cred.

Definition PF_FORKNOEXEC : Z := 64.

(** [kernel/pid.c]: the numbers of the caller's namespace, the first process of a
    group ([pid_task(pid, PIDTYPE_PGID)]) and [change_pid]. *)
Class PidEnv := {
  find_vpid : Z -> option Z;
  pid_vnr : Z -> Z;
  pgrp_task : kernel -> Z -> option Z;
  change_pid : Z -> pid_type -> Z -> Kern kernel unit;
}.

Section Calls.
Context `{UserArch} `{KernelEnv} `{CredEnv} `{PidEnv}.

Definition task_pid_vnr (t : task_struct) : Z := pid_vnr (t_pid t).
Definition task_tgid_vnr (t : task_struct) : Kern kernel Z := g ← task_tgid t; mret (pid_vnr g).

Definition getpid : Kern kernel Z := t ← current_task; task_tgid_vnr t.
Definition gettid : Kern kernel Z := t ← current_task; mret (task_pid_vnr t).
Definition getppid : Kern kernel Z :=
  rcu_read_lock;;
  t ← current_task;
  parent ← task_at (real_parent t);
  pid ← task_tgid_vnr parent;
  rcu_read_unlock;;
  mret pid.
Definition getuid : Kern kernel Z := c ← current_cred; mret (from_kuid_munged (c_user_ns c) (c_uid c)).
Definition geteuid : Kern kernel Z := c ← current_cred; mret (from_kuid_munged (c_user_ns c) (c_euid c)).
Definition getgid : Kern kernel Z := c ← current_cred; mret (from_kgid_munged (c_user_ns c) (c_gid c)).
Definition getegid : Kern kernel Z := c ← current_cred; mret (from_kgid_munged (c_user_ns c) (c_egid c)).

(** The checks and the change of [setpgid], between its lock and unlock. *)
Definition setpgid_locked (leader pid pgid : Z) : Kern kernel Z :=
  group_leader ← task_at leader;
  p ← find_task_by_vpid pid;
  match p with
  | None => mret (- ESRCH)
  | Some p =>
      tp ← task_at p;
      if negb (thread_group_leader tp) then mret (- EINVAL)
      else
      parent ← task_at (real_parent tp);
      sp ← task_session tp;
      sl ← task_session group_leader;
      let err :=
        if same_thread_group parent group_leader then
          if negb (sp =? sl) then - EPERM
          else if negb (truthy (Z.land (flags tp) PF_FORKNOEXEC)) then - EACCES
          else 0
        else if negb (p =? leader) then - ESRCH
        else 0 in
      if truthy err then mret err
      else
      sig ← task_signal tp;
      if truthy (Kernel.leader sig) then mret (- EPERM)
      else
      pgrp ← (if negb (pgid =? pid) then
                match find_vpid pgid with
                | None => mret None
                | Some pgrp =>
                    g ← gets (fun k => pgrp_task k pgrp);
                    match g with
                    | None => mret None
                    | Some g =>
                        tg ← task_at g;
                        sg ← task_session tg;
                        mret (if sg =? sl then Some pgrp else None)
                    end
                end
              else mret (Some (t_pid tp)));
      match pgrp with
      | None => mret (- EPERM)
      | Some pgrp =>
          err ← gets (fun k => security_task_setpgid k p pgid);
          if truthy err then mret err
          else
          cur ← task_pgrp tp;
          (if negb (cur =? pgrp) then change_pid p PIDTYPE_PGID pgrp else mret tt);;
          mret 0
      end
  end.

Definition setpgid (pid pgid : Z) : Kern kernel Z :=
  t ← current_task;
  gl ← task_at (group_leader t);
  let pid := if truthy pid then pid else task_pid_vnr gl in
  let pgid := if truthy pgid then pgid else pid in
  if pgid <? 0 then mret (- EINVAL)
  else
  rcu_read_lock;;
  err ← setpgid_locked (group_leader t) pid pgid;
  rcu_read_unlock;;
  mret err.

Definition do_getpgid (pid : Z) : Kern kernel Z :=
  rcu_read_lock;;
  retval ← (if negb (truthy pid) then
              t ← current_task;
              grp ← task_pgrp t;
              mret (pid_vnr grp)
            else
              p ← find_task_by_vpid pid;
              match p with
              | None => mret (- ESRCH)
              | Some p =>
                  t ← task_at p;
                  grp ← task_pgrp t;
                  if negb (truthy grp) then mret (- ESRCH)
                  else
                  retval ← gets (fun k => security_task_getpgid k p);
                  if truthy retval then mret retval else mret (pid_vnr grp)
              end);
  rcu_read_unlock;;
  mret retval.

Definition getpgid (pid : Z) : Kern kernel Z := do_getpgid pid.
Definition getpgrp : Kern kernel Z := do_getpgid 0.

Definition getsid (pid : Z) : Kern kernel Z :=
  rcu_read_lock;;
  retval ← (if negb (truthy pid) then
              t ← current_task;
              sid ← task_session t;
              mret (pid_vnr sid)
            else
              p ← find_task_by_vpid pid;
              match p with
              | None => mret (- ESRCH)
              | Some p =>
                  t ← task_at p;
                  sid ← task_session t;
                  if negb (truthy sid) then mret (- ESRCH)
                  else
                  retval ← gets (fun k => security_task_getsid k p);
                  if truthy retval then mret retval else mret (pid_vnr sid)
              end);
  rcu_read_unlock;;
  mret retval.

Definition set_special_pids (pid : Z) : Kern kernel unit :=
  t ← current_task;
  let curr := group_leader t in
  tc ← task_at curr;
  sid ← task_session tc;
  (if negb (sid =? pid) then change_pid curr PIDTYPE_SID pid else mret tt);;
  pgrp ← task_pgrp tc;
  if negb (pgrp =? pid) then change_pid curr PIDTYPE_PGID pid else mret tt.

Definition ksys_setsid : Kern kernel Z :=
  t ← current_task;
  gl ← task_at (group_leader t);
  let sid := t_pid gl in
  let session := pid_vnr sid in
  sig ← task_signal gl;
  if truthy (leader sig) then mret (- EPERM)
  else
  g ← gets (fun k => pgrp_task k sid);
  match g with
  | Some _ => mret (- EPERM)
  | None =>
      put_signal (t_signal gl) (sig <| leader := 1 |>);;
      set_special_pids sid;;
      mret session
  end.

Definition setsid : Kern kernel Z := ksys_setsid.

End Calls.

(** ** Processes, groups and sessions *)

(** A process: a group leader task and its signal struct. *)
Definition proc (k : kernel) (p : Z) (t : task_struct) (s : signal_struct) : Prop :=
  k_tasks k !! p = Some t /\ thread_group_leader t = true /\ k_signals k !! t_signal t = Some s.

Definition set_pid_field (ty : pid_type) (pid : Z) (s : signal_struct) : signal_struct :=
  match ty with
  | PIDTYPE_PID => s
  | PIDTYPE_TGID => s <| s_tgid := pid |>
  | PIDTYPE_PGID => s <| s_pgid := pid |>
  | PIDTYPE_SID => s <| s_sid := pid |>
  end.

(** What the code relies on in [kernel/pid.c]. *)
Class PidEnvOk `{PidEnv} : Prop := {
  change_pid_runs k p t s ty pid :
    k_tasks k !! p = Some t -> k_signals k !! t_signal t = Some s -> ty <> PIDTYPE_PID ->
    change_pid p ty pid k = Done tt (k <| k_signals ::= <[t_signal t := set_pid_field ty pid s]> |>);
  pgrp_task_some k g p : pgrp_task k g = Some p -> exists t s, proc k p t s /\ s_pgid s = g;
  pgrp_task_none k g p t s : pgrp_task k g = None -> proc k p t s -> s_pgid s <> g;
}.

(** The task table: every thread has its leader, processes have a signal struct
    and a pid of their own, parents are alive. *)
Record procs_ok (k : kernel) : Prop := {
  po_wf : kernel_wf k;
  po_leader p t : k_tasks k !! p = Some t ->
    exists l, k_tasks k !! group_leader t = Some l /\ thread_group_leader l = true /\ t_signal l = t_signal t;
  po_signal p q tp tq sp sq : proc k p tp sp -> proc k q tq sq -> t_signal tp = t_signal tq -> p = q;
  po_pid p q tp tq sp sq : proc k p tp sp -> proc k q tq sq -> t_pid tp = t_pid tq -> p = q;
  po_parent p t : k_tasks k !! p = Some t -> is_Some (k_tasks k !! real_parent t);
}.

(** A group lies within one session, also with the process it is named after, and
    a session leader leads a session and a group named after it. *)
Record sessions_ok (k : kernel) : Prop := {
  so_group p q tp tq sp sq : proc k p tp sp -> proc k q tq sq -> s_pgid sp = s_pgid sq -> s_sid sp = s_sid sq;
  so_name p q tp tq sp sq : proc k p tp sp -> proc k q tq sq -> s_pgid sq = t_pid tp -> s_sid sq = s_sid sp;
  so_leader p t s : proc k p t s -> truthy (leader s) = true -> s_pgid s = t_pid t /\ s_sid s = t_pid t;
}.

(** [k'] is [k] with the signal struct of the process [t] replaced. *)
Definition signal_changed (k : kernel) (t : task_struct) (s' : signal_struct) (k' : kernel) : Prop :=
  k_tasks k' = k_tasks k /\ k_signals k' = <[t_signal t := s']> (k_signals k) /\ k_mms k' = k_mms k /\
  k_vpids k' = k_vpids k /\ k_procs k' = k_procs k /\ k_current k' = k_current k /\ k_rcu k' = k_rcu k /\
  k_user k' = k_user k.
Definition unchanged (k k' : kernel) : Prop := same_objects k k' /\ k_user k' = k_user k.

Lemma signal_changed_wf k t s s' k' :
  kernel_wf k -> signal_changed k t s' k' -> k_signals k !! t_signal t = Some s -> rlim s' = rlim s -> kernel_wf k'.
Proof.
  intros [Wv Wt Wm Wr Wc Wp] (Ht & Hs & Hm & Hv & Hp & Hc & _) Hsg Hr. split.
  - intros nr p. rewrite Hv, Ht. apply Wv.
  - intros p tp. rewrite Ht. intros [? Hsig ?]%Wt. split; rewrite ?Hm; try done.
    rewrite Hs, lookup_insert. by case_decide.
  - intros p m. rewrite Hm. apply Wm.
  - intros p sg. rewrite Hs, lookup_insert. case_decide; [intros [= <-]; rewrite Hr|]; by eauto.
  - by rewrite Hc, Ht.
  - by rewrite Hp, Ht.
Qed.

(** The processes after the change. *)
Lemma proc_changed k p0 t0 s0 s' k' p t s :
  procs_ok k -> proc k p0 t0 s0 -> signal_changed k t0 s' k' -> proc k' p t s ->
  (p = p0 /\ t = t0 /\ s = s') \/ (p <> p0 /\ proc k p t s).
Proof.
  intros Hok (Ht0 & Hl0 & Hs0) (Ht & Hs & _) (Hp & Hl & Hsg). rewrite Ht in Hp. rewrite Hs in Hsg.
  rewrite lookup_insert in Hsg. case_decide as Heq.
  - left. assert (p = p0) as ->.
    { eapply (po_signal k Hok p p0 t t0 s0 s0); [|done..]. split_and!; try done. by rewrite <- Heq. }
    split_and!; try done; congruence.
  - right. split; [|done]. intros ->. congruence.
Qed.

Lemma procs_ok_changed k p0 t0 s0 s' k' :
  procs_ok k -> proc k p0 t0 s0 -> signal_changed k t0 s' k' -> rlim s' = rlim s0 -> procs_ok k'.
Proof.
  intros Hok Hp0 Hch Hr. pose proof Hch as (Ht & _). 
  assert (forall p t s, proc k' p t s -> exists s1, proc k p t s1) as Hback.
  { intros p t s Hp. destruct (proc_changed _ _ _ _ _ _ _ _ _ Hok Hp0 Hch Hp) as [(-> & -> & _)|[_ ?]]; eauto. }
  destruct Hok as [W L S P R]. split.
  - eapply signal_changed_wf; [done..| |done]. apply Hp0.
  - intros p t. rewrite Ht. apply L.
  - intros p q tp tq sp sq [? Hp]%Hback [? Hq]%Hback. by eapply S.
  - intros p q tp tq sp sq [? Hp]%Hback [? Hq]%Hback. by eapply P.
  - intros p t. rewrite Ht. apply R.
Qed.

Lemma procs_ok_same k k' : unchanged k k' -> procs_ok k -> procs_ok k'.
Proof.
  intros [Hs _] [W L S P R]. pose proof Hs as (Ht & Hsg & _).
  unfold proc in *. split; unfold proc; rewrite ?Ht, ?Hsg; try done. by eapply kernel_wf_same.
Qed.
Lemma sessions_ok_same k k' : unchanged k k' -> sessions_ok k -> sessions_ok k'.
Proof.
  intros [Hs _] [G N L]. pose proof Hs as (Ht & Hsg & _).
  unfold proc in *. split; unfold proc; rewrite ?Ht, ?Hsg; try done.
Qed.

(** A process joins a group of its session. *)
Lemma sessions_ok_join k p0 t0 s0 pgrp k' :
  procs_ok k -> sessions_ok k -> proc k p0 t0 s0 -> truthy (leader s0) = false ->
  pgrp = t_pid t0 \/ (exists g tg sg, proc k g tg sg /\ s_pgid sg = pgrp /\ s_sid sg = s_sid s0) ->
  signal_changed k t0 (s0 <| s_pgid := pgrp |>) k' -> sessions_ok k'.
Proof.
  intros Hok [G N L] Hp0 Hnl Hjoin Hch.
  assert (forall p t s, proc k' p t s -> exists s1, proc k p t s1 /\ s_sid s = s_sid s1 /\
    ((p = p0 /\ t = t0 /\ s1 = s0 /\ s_pgid s = pgrp /\ leader s = leader s0) \/ s = s1)) as Hback.
  { intros p t s Hp. destruct (proc_changed _ _ _ _ _ _ _ _ _ Hok Hp0 Hch Hp) as [(-> & -> & ->)|[_ ?]].
    - exists s0. split_and!; try done. left. done.
    - exists s. split_and!; try done. by right. }
  assert (forall q tq sq, proc k q tq sq -> s_pgid sq = pgrp -> s_sid sq = s_sid s0) as Hgrp.
  { intros q tq sq Hq Hpg. destruct Hjoin as [->|(g & tg & sg & Hg & Hpg' & <-)].
    - by eapply N.
    - eapply (G q g); [done..|]. congruence. }
  assert (forall q tq sq, proc k q tq sq -> pgrp = t_pid tq -> s_sid s0 = s_sid sq) as Hname.
  { intros q tq sq Hq Hpg. destruct Hjoin as [E|(g & tg & sg & Hg & Hpg' & <-)].
    - assert (q = p0) as -> by (eapply (po_pid k Hok); [done..|congruence]).
      destruct Hq as (Hq1 & _ & Hq2), Hp0 as (Hp1 & _ & Hp2). congruence.
    - eapply (N q g); [done..|]. congruence. }
  split.
  - intros p q tp tq sp sq Hp Hq Hpg.
    destruct (Hback _ _ _ Hp) as (sp1 & Hp1 & -> & [(-> & -> & -> & E1 & _)| ->]);
      destruct (Hback _ _ _ Hq) as (sq1 & Hq1 & -> & [(-> & -> & -> & E2 & _)| ->]); try done.
    + symmetry. eapply Hgrp; [done|]. congruence.
    + eapply Hgrp; [done|]. congruence.
    + by eapply G.
  - intros p q tp tq sp sq Hp Hq Hpg.
    destruct (Hback _ _ _ Hp) as (sp1 & Hp1 & -> & Hpc);
      destruct (Hback _ _ _ Hq) as (sq1 & Hq1 & -> & [(-> & -> & -> & E2 & _)| ->]).
    + eapply Hname; [done|]. congruence.
    + by eapply N.
  - intros p t s Hp Hlead. destruct (Hback _ _ _ Hp) as (s1 & Hp1 & Hsid & [(-> & -> & -> & _ & El)| ->]).
    + rewrite El in Hlead. congruence.
    + by eapply L.
Qed.

(** A process founds a session named after it. *)
Lemma sessions_ok_found k p0 t0 s0 k' :
  procs_ok k -> sessions_ok k -> proc k p0 t0 s0 ->
  (forall q tq sq, proc k q tq sq -> s_pgid sq <> t_pid t0) ->
  signal_changed k t0 (s0 <| leader := 1 |> <| s_sid := t_pid t0 |> <| s_pgid := t_pid t0 |>) k' ->
  sessions_ok k'.
Proof.
  intros Hok [G N L] Hp0 Hfree Hch.
  pose proof (fun p t s => proc_changed _ _ _ _ _ _ p t s Hok Hp0 Hch) as Hback.
  split.
  - intros p q tp tq sp sq Hp Hq Hpg.
    destruct (Hback _ _ _ Hp) as [(-> & -> & ->)|[Hp1 Hp2]], (Hback _ _ _ Hq) as [(-> & -> & ->)|[Hq1 Hq2]]; try done.
    + cbn in Hpg. destruct (Hfree _ _ _ Hq2). done.
    + cbn in Hpg. destruct (Hfree _ _ _ Hp2). done.
    + by eapply G.
  - intros p q tp tq sp sq Hp Hq Hpg.
    destruct (Hback _ _ _ Hp) as [(-> & -> & ->)|[Hp1 Hp2]], (Hback _ _ _ Hq) as [(-> & -> & ->)|[Hq1 Hq2]]; try done.
    + destruct (Hfree _ _ _ Hq2). done.
    + cbn in Hpg. destruct Hp1. by eapply (po_pid k Hok).
    + by eapply N.
  - intros p t s Hp Hl. destruct (Hback _ _ _ Hp) as [(-> & -> & ->)|[_ ?]]; [done|]. by eapply L.
Qed.

Section Behaviour.
Context `{UserArch} `{KernelEnv} `{CredEnv} `{PidEnvOk}.

(** The pids [setpgid] works with: 0 stands for the caller's process, and for the
    process itself. *)
Definition target_pid (k : kernel) (pid : Z) : Z :=
  if truthy pid then pid
  else match k_tasks k !! k_current k ≫= fun t => k_tasks k !! group_leader t with
       | Some gl => task_pid_vnr gl
       | None => 0
       end.
Definition target_pgid (k : kernel) (pid pgid : Z) : Z := if truthy pgid then pgid else target_pid k pid.

(** A group the process [t] may join: its own, or one with a member in its session. *)
Definition may_join (k : kernel) (t : task_struct) (s : signal_struct) (pgrp : Z) : Prop :=
  pgrp = t_pid t \/ exists g tg sg, proc k g tg sg /\ s_pgid sg = pgrp /\ s_sid sg = s_sid s.

Definition joined (k : kernel) (pid pgid : Z) (k' : kernel) : Prop :=
  exists p t s pgrp,
    k_vpids k !! pid = Some p /\ proc k p t s /\ truthy (leader s) = false /\
    (if decide (pgid = pid) then pgrp = t_pid t else find_vpid pgid = Some pgrp) /\
    may_join k t s pgrp /\ signal_changed k t (s <| s_pgid := pgrp |>) k'.

Lemma current_process k :
  procs_ok k -> exists t l sl, k_tasks k !! k_current k = Some t /\ proc k (group_leader t) l sl.
Proof.
  intros Hok. destruct (kw_current k (po_wf k Hok)) as [t Ht].
  destruct (po_leader k Hok _ _ Ht) as (l & Hl & Hlead & Hsg).
  destruct (tw_signal _ _ (kw_tasks k (po_wf k Hok) _ _ Hl)) as [sl Hsl].
  exists t, l, sl. done.
Qed.

Lemma task_process k p t :
  kernel_wf k -> k_tasks k !! p = Some t -> exists s, k_signals k !! t_signal t = Some s.
Proof. intros Hk Ht. by destruct (tw_signal _ _ (kw_tasks k Hk _ _ Ht)) as [s Hs]; exists s. Qed.

Lemma set_pgid_same k p t s pgrp :
  proc k p t s -> s_pgid s = pgrp -> <[t_signal t := s <| s_pgid := pgrp |>]> (k_signals k) = k_signals k.
Proof. intros (_ & _ & Hs) <-. apply insert_id. rewrite Hs. by destruct s. Qed.

Lemma setpgid_locked_behaviour k gl l sl pid pgid :
  procs_ok k -> proc k gl l sl ->
  wp (setpgid_locked gl pid pgid)
     (fun r k' => (r <> 0 /\ unchanged k k') \/ (r = 0 /\ joined k pid pgid k')) k.
Proof.
  intros Hok (Hl & Hlead & Hsl). pose proof (po_wf k Hok) as Hwf. unfold setpgid_locked.
  autorewrite with wp. rewrite (wp_task_at _ _ _ _ Hl). autorewrite with wp.
  set (k1 := k <| k_bare_lookups ::= _ |>).
  assert (forall r, r <> 0 -> (r <> 0 /\ unchanged k k1) \/ (r = 0 /\ joined k pid pgid k1)) as Hfail.
  { intros r Hr. left. split; [done|]. by repeat split. }
  assert (same_objects k k1) as Hk1 by (by repeat split).
  destruct (k_vpids k !! pid) as [p|] eqn:Hv; [|rewrite wp_ret; by apply Hfail].
  destruct (kw_vpids k Hwf _ _ Hv) as [tp Hp]. destruct (task_process k p tp Hwf Hp) as [sp Hsp].
  rewrite wp_bind, (wp_task_at p _ k1 tp Hp).
  destruct (thread_group_leader tp) eqn:Hlp; cbn [negb]; [|rewrite wp_ret; by apply Hfail].
  destruct (po_parent k Hok _ _ Hp) as [tr Hr].
  rewrite wp_bind, (wp_task_at (real_parent tp) _ k1 tr Hr). unfold task_session, task_pgrp.
  rewrite !wp_bind, (wp_task_signal tp _ k1 sp Hsp), wp_ret, !wp_bind, (wp_task_signal l _ k1 sl Hsl), wp_ret.
  match goal with |- wp (if truthy ?e then _ else _) _ _ => set (err := e) end.
  destruct (truthy err) eqn:Herr; [rewrite wp_ret; apply Hfail; by apply truthy_true|].
  assert (s_sid sp = s_sid sl) as Hsid.
  { unfold err in Herr. destruct (same_thread_group tr l).
    - by destruct (Z.eqb_spec (s_sid sp) (s_sid sl)).
    - destruct (Z.eqb_spec p gl) as [->|]; [congruence|done]. }
  rewrite wp_bind, (wp_task_signal tp _ k1 sp Hsp).
  destruct (truthy (leader sp)) eqn:Hnl; [rewrite wp_ret; by apply Hfail|].
  assert (forall pgrp, (if decide (pgid = pid) then pgrp = t_pid tp else find_vpid pgid = Some pgrp) ->
    may_join k tp sp pgrp ->
    wp (err0 ← gets (fun k => security_task_setpgid k p pgid);
        if truthy err0 then mret err0
        else cur ← (s ← task_signal tp; mret (s_pgid s));
             (if negb (cur =? pgrp) then change_pid p PIDTYPE_PGID pgrp else mret tt);; mret 0)
       (fun r k' => (r <> 0 /\ unchanged k k') \/ (r = 0 /\ joined k pid pgid k')) k1) as Hend.
  { intros pgrp Hname Hjoin. autorewrite with wp.
    destruct (truthy (security_task_setpgid k1 p pgid)) eqn:Hsec;
      [rewrite wp_ret; apply Hfail; by apply truthy_true|].
    rewrite !wp_bind, (wp_task_signal tp _ k1 sp Hsp), wp_ret, wp_bind.
    destruct (Z.eqb_spec (s_pgid sp) pgrp) as [Heq|Hne]; cbn [negb].
    - rewrite !wp_ret. right. split; [done|]. exists p, tp, sp, pgrp. split_and!; try done.
      split_and!; try done. symmetry. by apply (set_pgid_same k p).
    - rewrite (wp_run _ _ _ _ _ (change_pid_runs k1 p tp sp PIDTYPE_PGID pgrp Hp Hsp ltac:(done))), wp_ret.
      right. split; [done|]. exists p, tp, sp, pgrp. split_and!; try done. }
  rewrite wp_bind. destruct (Z.eqb_spec pgid pid) as [Heq|Hne]; cbn [negb].
  - rewrite wp_ret. apply Hend; [by rewrite decide_True|by left].
  - destruct (find_vpid pgid) as [pgrp|] eqn:Hfv; [|rewrite !wp_ret; by apply Hfail].
    autorewrite with wp. destruct (pgrp_task k1 pgrp) as [g|] eqn:Hg; [|rewrite !wp_ret; by apply Hfail].
    destruct (pgrp_task_some k1 pgrp g Hg) as (tg & sg & Hpg & Hpgid). pose proof Hpg as (Htg & _ & Hsg).
    rewrite !wp_bind, (wp_task_at g _ k1 tg Htg), !wp_bind, (wp_task_signal tg _ k1 sg Hsg), !wp_ret.
    destruct (Z.eqb_spec (s_sid sg) (s_sid sl)); [|rewrite wp_ret; by apply Hfail].
    apply Hend; [by rewrite decide_False|]. right. exists g, tg, sg. split_and!; try done. congruence.
Qed.

Lemma setpgid_behaviour k pid pgid :
  procs_ok k ->
  wp (setpgid pid pgid)
     (fun r k' => (r <> 0 /\ unchanged k k') \/
        (r = 0 /\ joined k (target_pid k pid) (target_pgid k pid pgid) k')) k.
Proof.
  intros Hok. destruct (current_process k Hok) as (t & l & sl & Ht & Hp). pose proof Hp as (Hl & Hlead & Hsl).
  unfold setpgid, current_task, current. autorewrite with wp.
  rewrite (wp_task_at _ _ _ _ Ht). autorewrite with wp. rewrite (wp_task_at _ _ _ _ Hl).
  assert (target_pid k pid = if truthy pid then pid else task_pid_vnr l) as <-.
  { unfold target_pid. rewrite Ht. cbn. by rewrite Hl. }
  change (if truthy pgid then pgid else target_pid k pid) with (target_pgid k pid pgid).
  set (x := target_pid k pid). set (y := target_pgid k pid pgid).
  case_match; [rewrite wp_ret; left; split; [done|]; by repeat split|].
  autorewrite with wp. set (k1 := k <| k_rcu ::= Z.succ |>).
  assert (procs_ok k1) as Hok1.
  { destruct Hok as [W ? ? ? ?]. split; try done. by apply kernel_wf_rcu. }
  eapply wp_mono, (setpgid_locked_behaviour k1 _ l sl x y Hok1 Hp).
  intros r k' [[Hr [(E1 & E2 & E3 & E4 & E5 & E6 & E7 & E8) Eu]]|[-> (p & tp & sp & pgrp & Hj)]];
    autorewrite with wp.
  - left. split; [done|]. repeat split; try done. cbn. rewrite E8. apply Z.pred_succ.
  - right. split; [done|]. exists p, tp, sp, pgrp.
    destruct Hj as (J1 & J2 & J3 & J4 & J5 & (C1 & C2 & C3 & C4 & C5 & C6 & C7 & C8)). split_and!; try done.
    repeat split; try done. cbn. rewrite C7. apply Z.pred_succ.
Qed.

(** The signal struct of a new session leader. *)
Definition session_leader (pid : Z) (s : signal_struct) : signal_struct :=
  s <| leader := 1 |> <| s_sid := pid |> <| s_pgid := pid |>.

Definition founded (k : kernel) (r : Z) (k' : kernel) : Prop :=
  exists t l s,
    k_tasks k !! k_current k = Some t /\ proc k (group_leader t) l s /\ truthy (leader s) = false /\
    (forall q tq sq, proc k q tq sq -> s_pgid sq <> t_pid l) /\
    r = pid_vnr (t_pid l) /\ signal_changed k l (session_leader (t_pid l) s) k'.

Lemma set_special_pids_run k t l s pid :
  k_tasks k !! k_current k = Some t -> k_tasks k !! group_leader t = Some l ->
  k_signals k !! t_signal l = Some s ->
  exists k', set_special_pids pid k = Done tt k' /\
    signal_changed k l (s <| s_sid := pid |> <| s_pgid := pid |>) k'.
Proof.
  intros Ht Hl Hs. unfold set_special_pids, current_task, current, task_session, task_pgrp.
  set (k1 := k <| k_signals ::= <[t_signal l := s <| s_sid := pid |>]> |>).
  set (k2 := k1 <| k_signals ::= <[t_signal l := s <| s_sid := pid |> <| s_pgid := pid |>]> |>).
  exists k2. split; [|repeat split; cbn; by rewrite insert_insert_eq].
  assert (k_signals k1 !! t_signal l = Some (s <| s_sid := pid |>)) as Hs1 by (cbn; by rewrite lookup_insert_eq).
  unfold task_at, task_signal, signal_at. kernel_unfold. rewrite Ht, Hl, Hs.
  assert ((if negb (s_sid s =? pid) then change_pid (group_leader t) PIDTYPE_SID pid else mret tt) k = Done tt k1) as Hstep.
  { destruct (Z.eqb_spec (s_sid s) pid) as [E|E]; cbn [negb].
    - unfold mret, kern_ret, k1. f_equal. destruct k, s. cbn in *. subst. by rewrite insert_id.
    - by rewrite (change_pid_runs k _ l s PIDTYPE_SID pid Hl Hs). }
  unfold mret, kern_ret in Hstep. rewrite Hstep, Hs1. change (s_pgid (s <| s_sid := pid |>)) with (s_pgid s).
  destruct (Z.eqb_spec (s_pgid s) pid) as [E|E]; cbn [negb].
  - f_equal. unfold k2. destruct k, s. unfold k1. cbn in *. subst. by rewrite insert_insert_eq.
  - by rewrite (change_pid_runs k1 _ l _ PIDTYPE_PGID pid Hl Hs1).
Qed.

Lemma setsid_run k t l s :
  k_tasks k !! k_current k = Some t -> proc k (group_leader t) l s ->
  wp setsid
     (fun r k' =>
        if truthy (leader s) || bool_decide (is_Some (pgrp_task k (t_pid l)))
        then r = - EPERM /\ unchanged k k'
        else r = pid_vnr (t_pid l) /\ signal_changed k l (session_leader (t_pid l) s) k') k.
Proof.
  intros Ht (Hl & Hlead & Hs).
  unfold setsid, ksys_setsid, current_task, current. autorewrite with wp.
  rewrite (wp_task_at _ _ _ _ Ht). autorewrite with wp. rewrite (wp_task_at _ _ _ _ Hl).
  rewrite wp_bind, (wp_task_signal _ _ _ _ Hs).
  destruct (truthy (leader s)) eqn:Hnl; cbn [orb]; [rewrite wp_ret; split; [done|]; by repeat split|].
  autorewrite with wp.
  destruct (pgrp_task k (t_pid l)) as [g|] eqn:Hg.
  { rewrite wp_ret, bool_decide_true by done. split; [done|]. by repeat split. }
  rewrite bool_decide_false by (by intros [? ?]).
  unfold put_signal. autorewrite with wp. set (k1 := k <| k_signals ::= _ |>).
  destruct (set_special_pids_run k1 t l (s <| leader := 1 |>) (t_pid l)) as (k2 & Hrun & Hch);
    [done..|cbn; by rewrite lookup_insert_eq|].
  rewrite (wp_run _ _ _ _ _ Hrun), wp_ret. split; [done|].
  destruct Hch as (C1 & C2 & C3). split_and!; try apply C3; [done|]. rewrite C2. cbn. apply insert_insert_eq.
Qed.

Lemma setsid_behaviour k :
  procs_ok k ->
  wp setsid (fun r k' => (r = - EPERM /\ unchanged k k') \/ founded k r k') k.
Proof.
  intros Hok. destruct (current_process k Hok) as (t & l & s & Ht & Hp).
  eapply wp_mono, setsid_run; [|done..]. intros r k' Hr.
  destruct (truthy (leader s)) eqn:Hnl; [by left|]. cbn [orb] in Hr.
  case_bool_decide as Hg; [by left|]. destruct Hr as [-> Hch]. right. exists t, l, s. split_and!; try done.
  intros q tq sq. apply pgrp_task_none. by apply eq_None_not_Some.
Qed.

(** ** Sequences of calls by different processes *)
Inductive pg_call := PSetpgid (pid pgid : Z) | PSetsid.
Definition pg_exec (c : pg_call) : Kern kernel Z :=
  match c with
  | PSetpgid pid pgid => setpgid pid pgid
  | PSetsid => setsid
  end.

(** The scheduler picks the task that makes the next call. *)
Fixpoint pg_run (cs : list (Z * pg_call)) : Kern kernel unit :=
  match cs with
  | [] => mret tt
  | (p, c) :: cs => modify (fun k => k <| k_current := p |>);; pg_exec c;; pg_run cs
  end.

Lemma pg_exec_ok k c :
  procs_ok k -> sessions_ok k ->
  wp (pg_exec c) (fun _ k' => procs_ok k' /\ sessions_ok k' /\ k_tasks k' = k_tasks k) k.
Proof.
  intros Hok Hses. destruct c as [pid pgid|]; cbn [pg_exec].
  - eapply wp_mono, setpgid_behaviour; [|done].
    intros r k' [[_ Hu]|[_ (p & t & s & pgrp & _ & Hp & Hnl & _ & Hj & Hch)]].
    + split_and!; [by eapply procs_ok_same|by eapply sessions_ok_same|apply Hu].
    + split_and!; [by eapply procs_ok_changed|by eapply sessions_ok_join|apply Hch].
  - eapply wp_mono, setsid_behaviour; [|done].
    intros r k' [[_ Hu]|(t & l & s & _ & Hp & _ & Hfree & _ & Hch)].
    + split_and!; [by eapply procs_ok_same|by eapply sessions_ok_same|apply Hu].
    + split_and!; [by eapply procs_ok_changed|by eapply sessions_ok_found|apply Hch].
Qed.

Lemma switch_task_ok k p :
  procs_ok k -> sessions_ok k -> is_Some (k_tasks k !! p) ->
  procs_ok (k <| k_current := p |>) /\ sessions_ok (k <| k_current := p |>).
Proof.
  intros [[Wv Wt Wm Wr Wc Wp] L S P R] [G N E] Hp. split; [split; try done|by split].
  split; try done. intros q t [? ? ?]%Wt. by split.
Qed.

(** C20: process groups stay within their session.  Whatever sequence of [setpgid]
    and [setsid] calls live tasks make, every call returns, the members of a
    process group are always in one session, also with the process the group is
    named after, and a session leader leads the session and the group that bear
    its pid. *)
Theorem groups_stay_in_sessions cs k :
  procs_ok k -> sessions_ok k -> Forall (fun c => is_Some (k_tasks k !! c.1)) cs ->
  wp (pg_run cs) (fun _ k' => procs_ok k' /\ sessions_ok k') k.
Proof.
  revert k. induction cs as [|[p c] cs IH]; intros k Hok Hses Hlive; cbn [pg_run]; [done|].
  apply Forall_cons in Hlive as [Hp Hlive]. autorewrite with wp.
  destruct (switch_task_ok k p Hok Hses Hp) as [Hok1 Hses1].
  eapply wp_mono, (pg_exec_ok _ c Hok1 Hses1). intros r k' (Hok' & Hses' & Ht).
  apply IH; [done..|]. by rewrite Ht.
Qed.

(** [setsid] makes the caller's process the leader of a new session and group
    that bear its pid, and nobody else changes; it fails, with -EPERM and no
    change, exactly when the process already leads a session or a group with its
    pid exists. *)
Theorem setsid_founds_session k t l s :
  k_tasks k !! k_current k = Some t -> proc k (group_leader t) l s ->
  wp setsid
     (fun r k' =>
        if truthy (leader s) || bool_decide (is_Some (pgrp_task k (t_pid l)))
        then r = - EPERM /\ unchanged k k'
        else r = pid_vnr (t_pid l) /\ signal_changed k l (session_leader (t_pid l) s) k') k.
Proof. apply setsid_run. Qed.

Lemma getpgid_run k pid p t s :
  k_vpids k !! pid = Some p -> k_tasks k !! p = Some t -> k_signals k !! t_signal t = Some s ->
  pid <> 0 -> s_pgid s <> 0 -> (forall k1, security_task_getpgid k1 p = 0) ->
  wp (getpgid pid) (fun r k' => r = pid_vnr (s_pgid s) /\ unchanged k k') k.
Proof.
  intros Hv Ht Hs Hpid Hgrp Hsec. unfold getpgid, do_getpgid, task_pgrp. autorewrite with wp.
  rewrite (proj2 (truthy_true pid) Hpid). cbn [negb]. autorewrite with wp.
  change (k_vpids (k <| k_rcu ::= Z.succ |>)) with (k_vpids k). rewrite Hv.
  match goal with |- wp _ _ ?k1 => rewrite wp_bind, (wp_task_at p _ k1 t Ht), !wp_bind, (wp_task_signal t _ k1 s Hs) end.
  rewrite wp_ret, (proj2 (truthy_true (s_pgid s)) Hgrp). cbn [negb]. autorewrite with wp. rewrite Hsec. cbn [truthy Z.eqb negb].
  rewrite wp_ret. split; [done|]. repeat split. cbn. apply Z.pred_succ.
Qed.

(** The numbers of the caller's namespace: a pid object found under a number, and
    the task it denotes, have that number. *)
Record numbers_ok (k : kernel) : Prop := {
  no_find nr x : find_vpid nr = Some x -> x <> 0 /\ pid_vnr x = nr;
  no_task nr p t : k_vpids k !! nr = Some p -> k_tasks k !! p = Some t -> t_pid t <> 0 /\ pid_vnr (t_pid t) = nr;
}.

(** what [setpgid] has set [getpgid] returns. *)
Theorem setpgid_getpgid k pid pgid :
  procs_ok k -> numbers_ok k -> pid <> 0 -> pgid <> 0 ->
  (forall k1 p, security_task_getpgid k1 p = 0) ->
  wp (setpgid pid pgid) (fun r k1 => r = 0 -> wp (getpgid pid) (fun r' k2 => r' = pgid /\ unchanged k1 k2) k1) k.
Proof.
  intros Hok Hnum Hpid Hpgid Hsec. eapply wp_mono, setpgid_behaviour; [|done].
  intros r k1 [[Hne _]|[_ (p & t & s & pgrp & Hv & (Ht & _ & Hs) & _ & Hname & _ & Hch)]] Hr; [done|].
  unfold target_pgid, target_pid in *. rewrite (proj2 (truthy_true pid) Hpid) in *.
  rewrite (proj2 (truthy_true pgid) Hpgid) in *. destruct Hch as (C1 & C2 & _ & C4 & _).
  assert (pgrp <> 0 /\ pid_vnr pgrp = pgid) as [Hnz <-].
  { case_decide as Heq; [|by apply (no_find k Hnum)]. subst pgrp. rewrite Heq. by eapply no_task. }
  eapply wp_mono, (getpgid_run k1 pid p t (s <| s_pgid := pgrp |>)); rewrite ?C4, ?C1, ?C2; try done.
  apply lookup_insert_eq.
Qed.
End Behaviour.

(** ** Witnesses

    Pid objects are their numbers; the first process of a group is found by a
    search of the task table. *)
Definition member (k : kernel) (g : Z) (pt : Z * task_struct) : bool :=
  thread_group_leader pt.2 && bool_decide (s_pgid <$> k_signals k !! t_signal pt.2 = Some g).
Definition sample_pids : PidEnv := {|
  find_vpid nr := if 0 <? nr then Some nr else None;
  pid_vnr x := x;
  pgrp_task k g := fst <$> List.find (member k g) (map_to_list (k_tasks k));
  change_pid p ty pid k :=
    match k_tasks k !! p with
    | Some t =>
        match k_signals k !! t_signal t with
        | Some s => Done tt (k <| k_signals ::= <[t_signal t := set_pid_field ty pid s]> |>)
        | None => Crash NullDeref
        end
    | None => Crash NullDeref
    end;
|}.

#[global] Instance sample_pids_ok : @PidEnvOk sample_pids.
Proof.
  split.
  - intros k p t s ty pid Ht Hs _. cbn. by rewrite Ht, Hs.
  - intros k g p. cbn. destruct (List.find _ _) as [[q t]|] eqn:Hf; [|done]. intros [= ->].
    apply find_some in Hf as [Hin [Hl Hg]%andb_true_iff]. cbn in *. apply bool_decide_eq_true in Hg.
    apply list_elem_of_In, elem_of_map_to_list in Hin.
    destruct (k_signals k !! t_signal t) as [s|] eqn:Hs; [|done]. exists t, s. split; [done|]. by injection Hg.
  - intros k g p t s. cbn. destruct (List.find _ _) eqn:Hf; [done|]. intros _ (Ht & Hl & Hs) Hg.
    pose proof (find_none _ _ Hf (p, t)) as Hm.
    rewrite <- list_elem_of_In, elem_of_map_to_list in Hm. specialize (Hm Ht).
    unfold member in Hm. cbn in Hm. rewrite Hl, Hs in Hm. cbn in Hm. apply bool_decide_eq_false in Hm. congruence.
Qed.

(** Two processes: 101 is the leader of session 1, 107 its child in a group of
    its own that has not yet called exec. *)
Definition child_task : task_struct := (sample_task 7 307 207 0) <| flags := PF_FORKNOEXEC |>.
Definition family_kernel : kernel :=
  (sample_kernel ∅)
    <| k_tasks := {[ 101 := sample_task 1 301 201 0; 107 := child_task ]} |>
    <| k_signals := {[ 201 := (sample_signal 101 1) <| leader := 1 |>;
                       207 := (sample_signal 107 7) <| s_sid := 1 |> ]} |>.

Lemma pair_lookup {A} (a b : Z) (x y : A) i v :
  ({[ a := x; b := y ]} : gmap Z A) !! i = Some v -> (i = a /\ v = x) \/ (i = b /\ v = y).
Proof. intros [[-> ->]|[_ [-> ->]%lookup_singleton_Some]]%lookup_insert_Some; auto. Qed.

Lemma family_proc p t s :
  proc family_kernel p t s ->
  (p = 101 /\ t = sample_task 1 301 201 0 /\ s = (sample_signal 101 1) <| leader := 1 |>) \/
  (p = 107 /\ t = child_task /\ s = (sample_signal 107 7) <| s_sid := 1 |>).
Proof.
  intros (Ht & _ & Hs). apply pair_lookup in Ht as [[-> ->]|[-> ->]]; vm_compute in Hs; injection Hs as <-; auto.
Qed.

Lemma family_ok : procs_ok family_kernel /\ sessions_ok family_kernel.
Proof.
  split; split.
  - split.
    + intros nr p [[-> ->]|[-> ->]]%pair_lookup; vm_compute; eauto.
    + intros p t [[-> ->]|[-> ->]]%pair_lookup; split; try (vm_compute; eauto; done).
    + intros p m [[-> ->]|[-> ->]]%pair_lookup; done.
    + intros p s [[-> ->]|[-> ->]]%pair_lookup; done.
    + vm_compute. eauto.
    + repeat constructor; vm_compute; eauto.
  - intros p t [[-> ->]|[-> ->]]%pair_lookup; eexists; split_and!; reflexivity.
  - intros p q tp tq sp sq [(-> & -> & ->)|(-> & -> & ->)]%family_proc [(-> & -> & ->)|(-> & -> & ->)]%family_proc; done.
  - intros p q tp tq sp sq [(-> & -> & ->)|(-> & -> & ->)]%family_proc [(-> & -> & ->)|(-> & -> & ->)]%family_proc; done.
  - intros p t [[-> ->]|[-> ->]]%pair_lookup; vm_compute; eauto.
  - intros p q tp tq sp sq [(-> & -> & ->)|(-> & -> & ->)]%family_proc [(-> & -> & ->)|(-> & -> & ->)]%family_proc; done.
  - intros p q tp tq sp sq [(-> & -> & ->)|(-> & -> & ->)]%family_proc [(-> & -> & ->)|(-> & -> & ->)]%family_proc; done.
  - intros p t s [(-> & -> & ->)|(-> & -> & ->)]%family_proc; done.
Qed.

Lemma groups_stay_in_sessions_witness :
  let _ := sample_env 0 in let _ := sample_pids in
  wp (pg_run [(101, PSetpgid 7 1); (107, PSetsid); (101, PSetsid); (107, PSetpgid 0 1)])
     (fun _ k' => procs_ok k' /\ sessions_ok k') family_kernel.
Proof.
  intros env pe.
  apply (groups_stay_in_sessions [(101, PSetpgid 7 1); (107, PSetsid); (101, PSetsid); (107, PSetpgid 0 1)] family_kernel);
    [apply family_ok | apply family_ok | repeat constructor; vm_compute; eauto].
Defined.

Lemma setsid_founds_session_witness :
  let _ := sample_env 0 in let _ := sample_pids in
  let s := (sample_signal 101 1) <| leader := 1 |> in
  wp setsid
     (fun r k' =>
        if truthy (leader s) || bool_decide (is_Some (pgrp_task family_kernel (t_pid (sample_task 1 301 201 0))))
        then r = - EPERM /\ unchanged family_kernel k'
        else r = pid_vnr (t_pid (sample_task 1 301 201 0)) /\
             signal_changed family_kernel (sample_task 1 301 201 0)
               (session_leader (t_pid (sample_task 1 301 201 0)) s) k') family_kernel.
Proof.
  intros env pe s. apply (setsid_founds_session family_kernel (sample_task 1 301 201 0) (sample_task 1 301 201 0) s);
    [reflexivity | split_and!; reflexivity].
Defined.

Lemma family_numbers : let _ := sample_pids in numbers_ok family_kernel.
Proof.
  intros pe. split.
  - intros nr x. cbn. destruct (Z.ltb_spec 0 nr); [|done]. intros [= <-]. split; [lia|done].
  - intros nr p t [[-> ->]|[-> ->]]%pair_lookup Ht; vm_compute in Ht; injection Ht as <-; done.
Qed.

Lemma setpgid_getpgid_witness :
  let _ := sample_env 0 in let _ := sample_pids in
  wp (setpgid 7 1) (fun r k1 => r = 0 -> wp (getpgid 7) (fun r' k2 => r' = 1 /\ unchanged k1 k2) k1) family_kernel.
Proof.
  intros env pe. apply (setpgid_getpgid family_kernel 7 1); [apply family_ok | apply family_numbers | lia | lia | done].
Defined.

(** The child does change its group there. *)
Lemma setpgid_succeeds :
  let _ := sample_env 0 in let _ := sample_pids in
  match setpgid 7 1 family_kernel with Done r _ => r = 0 | Crash _ => False end.
Proof. vm_compute. done. Qed.
