(* ===== verification/Prio.v ===== *)
(** Scheduling priorities: [setpriority] and [getpriority] of [kernel/sys.c].

    Both calls select tasks by process, process group or user and go through them
    one by one. *)

From S2P Require Import Prelude Uaccess Kernel Cred Pgrp.

Definition PRIO_PROCESS : Z := 0.
Definition PRIO_PGRP : Z := 1.
Definition PRIO_USER : Z := 2.
Definition MIN_NICE : Z := -20.
Definition MAX_NICE : Z := 19.
Definition CAP_SYS_NICE : Z := 23.

(** The rlimit form of a nice value: 1 to 40 for 19 to -20. *)
Definition nice_to_rlimit (nice : Z) : Z := MAX_NICE - nice + 1.

(** [kernel/sched/core.c], [kernel/user.c] and the threads
    [do_each_pid_thread(pgrp, PIDTYPE_PGID, p)] visits. *)
Class SchedEnv := {
  can_nice : kernel -> Z -> Z -> bool;
  set_user_nice : Z -> Z -> Kern kernel unit;
  find_user : Z -> option Z;
  pgrp_threads : kernel -> Z -> list Z;
}.

Section Calls.
Context `{UserArch} `{KernelEnv} `{CredEnv} `{PidEnv} `{SchedEnv}.

Definition set_one_prio_perm (p : Z) : Kern kernel bool :=
  cred ← current_cred;
  t ← task_at p;
  let pcred := t_cred t in
  if (c_uid pcred =? c_euid cred) || (c_euid pcred =? c_euid cred) then mret true
  else gets (fun k => ns_capable k (c_user_ns pcred) CAP_SYS_NICE).

Definition set_one_prio (p niceval error : Z) : Kern kernel Z :=
  perm ← set_one_prio_perm p;
  if negb perm then mret (- EPERM)
  else
  t ← task_at p;
  can ← gets (fun k => can_nice k p niceval);
  if (niceval <? task_nice t) && negb can then mret (- EACCES)
  else
  no_nice ← gets (fun k => security_task_setnice k p niceval);
  if truthy no_nice then mret no_nice
  else
  set_user_nice p niceval;;
  mret (if error =? - ESRCH then 0 else error).

(** [for_each_process_thread(g, p)]: all threads of all processes. *)
Definition process_threads : Kern kernel (list Z) :=
  l ← gets k_procs;
  for_each l (fun g acc => t ← task_at g; s ← task_signal t; mret (acc ++ thread_head s)) [].

(** The user [PRIO_USER] selects; [None] when nobody runs as that user. *)
Definition prio_uid (who : Z) : Kern kernel (option Z) :=
  cred ← current_cred;
  let uid := make_kuid (c_user_ns cred) who in
  if negb (truthy who) then mret (Some (c_uid cred))
  else if uid =? c_uid cred then mret (Some uid)
  else mret (match find_user uid with Some _ => Some uid | None => None end).

Definition user_task (uid : Z) (p : Z) (acc : list Z) : Kern kernel (list Z) :=
  t ← task_at p;
  mret (if (c_uid (t_cred t) =? uid) && truthy (task_pid_vnr t) then acc ++ [p] else acc).

(** The tasks the switch of both calls goes through. *)
Definition prio_tasks (which who : Z) : Kern kernel (list Z) :=
  if which =? PRIO_PROCESS then
    p ← (if truthy who then find_task_by_vpid who else c ← current; mret (Some c));
    mret (option_list p)
  else if which =? PRIO_PGRP then
    pgrp ← (if truthy who then mret (find_vpid who)
            else t ← current_task; g ← task_pgrp t; mret (Some g));
    match pgrp with
    | Some g => gets (fun k => pgrp_threads k g)
    | None => mret []
    end
  else
    uid ← prio_uid who;
    match uid with
    | Some uid => l ← process_threads; for_each l (user_task uid) []
    | None => mret []
    end.

Definition clamp_nice (niceval : Z) : Z :=
  let niceval := if niceval <? MIN_NICE then MIN_NICE else niceval in
  if MAX_NICE <? niceval then MAX_NICE else niceval.

Definition setpriority (which who niceval : Z) : Kern kernel Z :=
  if (PRIO_USER <? which) || (which <? PRIO_PROCESS) then mret (- EINVAL)
  else
  let niceval := clamp_nice niceval in
  rcu_read_lock;;
  l ← prio_tasks which who;
  error ← for_each l (fun p error => set_one_prio p niceval error) (- ESRCH);
  rcu_read_unlock;;
  mret error.

Definition max_nice (p retval : Z) : Kern kernel Z :=
  t ← task_at p;
  let niceval := nice_to_rlimit (task_nice t) in
  mret (if retval <? niceval then niceval else retval).

Definition getpriority (which who : Z) : Kern kernel Z :=
  if (PRIO_USER <? which) || (which <? PRIO_PROCESS) then mret (- EINVAL)
  else
  rcu_read_lock;;
  l ← prio_tasks which who;
  retval ← for_each l max_nice (- ESRCH);
  rcu_read_unlock;;
  mret retval.

End Calls.

(** What the code relies on in the scheduler and in [kernel/pid.c]. *)
Definition with_nice (n : Z) (t : task_struct) : task_struct := t <| static_prio := DEFAULT_PRIO + n |>.

Class SchedEnvOk `{SchedEnv} : Prop := {
  set_user_nice_runs k p t n :
    MIN_NICE <= n <= MAX_NICE -> k_tasks k !! p = Some t ->
    set_user_nice p n k = Done tt (k <| k_tasks ::= <[p := with_nice n t]> |>);
  pgrp_threads_spec k g p :
    p ∈ pgrp_threads k g <->
    exists t s, k_tasks k !! p = Some t /\ k_signals k !! t_signal t = Some s /\ s_pgid s = g;
}.

(** Every thread on a thread list is alive. *)
Definition threads_ok (k : kernel) : Prop :=
  forall q s p, k_signals k !! q = Some s -> p ∈ thread_head s -> is_Some (k_tasks k !! p).

(** ** The selected tasks *)
Section Behaviour.
Context `{UserArch} `{KernelEnv} `{CredEnv} `{PidEnv} `{SchedEnvOk}.

Definition threads_of (k : kernel) (p : Z) : list Z :=
  default [] (t ← k_tasks k !! p; s ← k_signals k !! t_signal t; Some (thread_head s)).
Definition all_threads (k : kernel) : list Z := concat (map (threads_of k) (k_procs k)).
Definition runs_as (k : kernel) (uid p : Z) : bool :=
  match k_tasks k !! p with
  | Some t => (c_uid (t_cred t) =? uid) && truthy (task_pid_vnr t)
  | None => false
  end.
Definition current_pgrp (k : kernel) : option Z :=
  t ← k_tasks k !! k_current k; s ← k_signals k !! t_signal t; Some (s_pgid s).
Definition selected_uid (k : kernel) (who : Z) : option Z :=
  c ← cred_of k (k_current k);
  let uid := make_kuid (c_user_ns c) who in
  if negb (truthy who) then Some (c_uid c)
  else if uid =? c_uid c then Some uid
  else (fun _ => uid) <$> find_user uid.

Definition targets (k : kernel) (which who : Z) : list Z :=
  if which =? PRIO_PROCESS then option_list (if truthy who then k_vpids k !! who else Some (k_current k))
  else if which =? PRIO_PGRP then
    match (if truthy who then find_vpid who else current_pgrp k) with
    | Some g => pgrp_threads k g
    | None => []
    end
  else
    match selected_uid k who with
    | Some uid => List.filter (runs_as k uid) (all_threads k)
    | None => []
    end.

Lemma process_threads_run k :
  kernel_wf k -> process_threads k = Done (all_threads k) k.
Proof.
  intros Hk. unfold process_threads, all_threads. kernel_unfold.
  enough (forall l acc, Forall (fun p => is_Some (k_tasks k !! p)) l ->
    for_each l (fun g acc => t ← task_at g; s ← task_signal t; mret (acc ++ thread_head s)) acc k
    = Done (acc ++ concat (map (threads_of k) l)) k) as Hgo by apply (Hgo _ [] (kw_procs k Hk)).
  induction l as [|p l IH]; intros acc Hl; cbn [for_each map concat].
  - by rewrite app_nil_r.
  - apply Forall_cons in Hl as [[t Ht] Hl]. destruct (task_process k p t Hk Ht) as [s Hs].
    assert (threads_of k p = thread_head s) as -> by (unfold threads_of; rewrite Ht; cbn; by rewrite Hs).
    unfold task_at, task_signal, signal_at in *. kernel_unfold. rewrite Ht, Hs.
    rewrite (IH (acc ++ thread_head s) Hl). by rewrite <- app_assoc.
Qed.

Lemma user_tasks_run k uid l acc :
  Forall (fun p => is_Some (k_tasks k !! p)) l ->
  for_each l (user_task uid) acc k = Done (acc ++ List.filter (runs_as k uid) l) k.
Proof.
  revert acc. induction l as [|p l IH]; intros acc Hl; cbn [for_each List.filter].
  - by rewrite app_nil_r.
  - apply Forall_cons in Hl as [[t Ht] Hl].
    assert (user_task uid p acc k = Done (if runs_as k uid p then acc ++ [p] else acc) k) as Hstep.
    { unfold user_task, task_at, runs_as. kernel_unfold. by rewrite Ht. }
    rewrite (bind_done _ _ _ _ _ Hstep). destruct (runs_as k uid p); rewrite IH by done; [|done].
    by rewrite <- app_assoc.
Qed.

Lemma all_threads_live k :
  threads_ok k -> Forall (fun p => is_Some (k_tasks k !! p)) (all_threads k).
Proof.
  intros Hth. unfold all_threads. apply Forall_concat, Forall_map, Forall_forall. intros q _. cbn.
  unfold threads_of. destruct (k_tasks k !! q) as [t|]; [|constructor]. cbn.
  destruct (k_signals k !! t_signal t) as [s|] eqn:Hs; [|constructor]. cbn.
  apply Forall_forall. intros p Hp. by eapply Hth.
Qed.

Lemma targets_live k which who :
  kernel_wf k -> threads_ok k -> Forall (fun p => is_Some (k_tasks k !! p)) (targets k which who).
Proof.
  intros Hk Hth. unfold targets. case_match.
  - case_match; [|by repeat constructor; apply Hk].
    destruct (k_vpids k !! who) as [p|] eqn:Hv; repeat constructor. by eapply kw_vpids.
  - case_match; [case_match; [|constructor]|case_match; [|constructor]].
    + apply Forall_forall. intros p (t & _ & Ht & _)%pgrp_threads_spec. eauto.
    + apply Forall_forall. intros p Hp%list_elem_of_In%filter_In.
      pose proof (all_threads_live k Hth) as Hall. rewrite Forall_forall in Hall.
      apply Hall, list_elem_of_In. tauto.
Qed.

Lemma prio_tasks_run k which who :
  kernel_wf k -> threads_ok k ->
  wp (prio_tasks which who) (fun l k' => l = targets k which who /\ unchanged k k') k.
Proof.
  intros Hk Hth. unfold prio_tasks, targets.
  destruct (kw_current k Hk) as [t Ht]. destruct (task_process k _ t Hk Ht) as [s Hs].
  assert (cred_of k (k_current k) = Some (t_cred t)) as Hc by (unfold cred_of; by rewrite Ht).
  case_match; [|case_match].
  - unfold current. destruct (truthy who); autorewrite with wp; by repeat split.
  - destruct (truthy who).
    + autorewrite with wp. case_match; by repeat split.
    + unfold current_task, current, task_pgrp. autorewrite with wp.
      rewrite (wp_task_at _ _ _ _ Ht). autorewrite with wp. rewrite (wp_task_signal _ _ _ _ Hs). autorewrite with wp.
      unfold current_pgrp. rewrite Ht. cbn. rewrite Hs. cbn. by repeat split.
  - unfold prio_uid, selected_uid. rewrite !wp_bind, (wp_current_cred _ _ _ Hc), Hc. cbn [mbind option_bind].
    assert (forall o, wp (match o with Some uid => l ← process_threads; for_each l (user_task uid) [] | None => mret [] end)
      (fun l k' => l = match o with Some uid => List.filter (runs_as k uid) (all_threads k) | None => [] end /\ unchanged k k') k) as Hgo.
    { intros [uid|]; [|by repeat split]. rewrite wp_bind, (wp_run _ _ _ _ _ (process_threads_run k Hk)).
      rewrite (wp_run _ _ _ _ _ (user_tasks_run k uid _ [] (all_threads_live k Hth))). by repeat split. }
    destruct (truthy who); cbn [negb]; [|rewrite wp_ret; apply (Hgo (Some _))].
    case_match; rewrite wp_ret; [apply (Hgo (Some _))|].
    destruct (find_user _); [apply (Hgo (Some _))|apply (Hgo None)].
Qed.


(** ** Changing the priorities *)

(** Some of the tasks that satisfy [P] have got the nice value [n]; nothing else
    has changed. *)
Record reniced (P : Z -> Prop) (n : Z) (k k' : kernel) : Prop := {
  rn_tasks p : k_tasks k' !! p = k_tasks k !! p \/ (P p /\ k_tasks k' !! p = with_nice n <$> k_tasks k !! p);
  rn_signals : k_signals k' = k_signals k;
  rn_mms : k_mms k' = k_mms k;
  rn_vpids : k_vpids k' = k_vpids k;
  rn_procs : k_procs k' = k_procs k;
  rn_current : k_current k' = k_current k;
  rn_rcu : k_rcu k' = k_rcu k;
  rn_user : k_user k' = k_user k;
}.

Lemma reniced_same P n k k' : unchanged k k' -> reniced P n k k'.
Proof. intros [(E1 & E2 & E3 & E4 & E5 & E6 & E7 & E8) E9]. split; try done. intros p. left. by rewrite E1. Qed.

Lemma reniced_trans (P : Z -> Prop) n k1 k2 k3 : reniced P n k1 k2 -> reniced P n k2 k3 -> reniced P n k1 k3.
Proof.
  intros [T1 ? ? ? ? ? ? ?] [T2 ? ? ? ? ? ? ?]. split; try congruence.
  intros p. destruct (T1 p) as [E1|[P1 E1]], (T2 p) as [E2|[P2 E2]]; rewrite E2, E1; auto.
  right. split; [done|]. by destruct (k_tasks k1 !! p).
Qed.

Lemma reniced_mono (P Q : Z -> Prop) n k k' : (forall p, P p -> Q p) -> reniced P n k k' -> reniced Q n k k'.
Proof. intros HPQ [T ? ? ? ? ? ? ?]. split; try done. intros p. destruct (T p) as [|[]]; auto. Qed.

(** A field that the nice value does not touch. *)
Lemma reniced_field {A} (f : task_struct -> A) P n k k' p :
  (forall t, f (with_nice n t) = f t) -> reniced P n k k' -> f <$> k_tasks k' !! p = f <$> k_tasks k !! p.
Proof.
  intros Hf Hr. destruct (rn_tasks _ _ _ _ Hr p) as [->|[_ ->]]; [done|].
  destruct (k_tasks k !! p); cbn; [|done]. by rewrite Hf.
Qed.

Lemma reniced_live P n k k' p : reniced P n k k' -> is_Some (k_tasks k !! p) -> is_Some (k_tasks k' !! p).
Proof.
  intros Hr [t Ht]. destruct (rn_tasks _ _ _ _ Hr p) as [->|[_ ->]]; rewrite Ht; [done|]. by eexists.
Qed.

Lemma reniced_wf P n k k' : reniced P n k k' -> kernel_wf k -> kernel_wf k'.
Proof.
  intros Hr [Wv Wt Wm Wr Wc Wp]. split.
  - intros nr p. rewrite (rn_vpids _ _ _ _ Hr). intros Hv. eapply reniced_live; [done|]. by eapply Wv.
  - intros p t Ht. pose proof (reniced_field (fun t => (usage t, t_signal t, t_mm t)) _ _ _ _ p ltac:(done) Hr) as Hf.
    rewrite Ht in Hf. destruct (k_tasks k !! p) as [t0|] eqn:Ht0; [|done]. injection Hf as E1 E2 E3.
    destruct (Wt _ _ Ht0) as [Hu Hs Hm].
    split; rewrite ?E1, ?E2, ?E3, ?(rn_signals _ _ _ _ Hr), ?(rn_mms _ _ _ _ Hr); done.
  - intros p m. rewrite (rn_mms _ _ _ _ Hr). apply Wm.
  - intros p s. rewrite (rn_signals _ _ _ _ Hr). apply Wr.
  - rewrite (rn_current _ _ _ _ Hr). by eapply reniced_live.
  - rewrite (rn_procs _ _ _ _ Hr). eapply Forall_impl; [exact Wp|]. intros p. by eapply reniced_live.
Qed.

(** The caller may change the priority of a task. *)
Definition may_renice (k : kernel) (p : Z) : Prop :=
  exists t c, k_tasks k !! p = Some t /\ cred_of k (k_current k) = Some c /\
    (c_uid (t_cred t) = c_euid c \/ c_euid (t_cred t) = c_euid c \/
     exists k1, ns_capable k1 (c_user_ns (t_cred t)) CAP_SYS_NICE = true).

Lemma may_renice_reniced P n k k' p : reniced P n k k' -> may_renice k' p -> may_renice k p.
Proof.
  intros Hr (t & c & Ht & Hc & Hp).
  pose proof (reniced_field t_cred _ _ _ _ p ltac:(done) Hr) as Hf. rewrite Ht in Hf.
  destruct (k_tasks k !! p) as [t0|] eqn:Ht0; [|done]. injection Hf as Hf.
  exists t0, c. rewrite <- Hf. split_and!; try done. unfold cred_of in *.
  rewrite <- Hc, (rn_current _ _ _ _ Hr). symmetry. by apply (reniced_field t_cred P n).
Qed.

Definition lsm_not_esrch : Prop := forall k p n, security_task_setnice k p n <> - ESRCH.

(** One task: an error leaves it alone. *)
Lemma set_one_prio_run k p n error :
  kernel_wf k -> is_Some (k_tasks k !! p) -> MIN_NICE <= n <= MAX_NICE -> lsm_not_esrch ->
  wp (set_one_prio p n error)
     (fun r k' => reniced (fun q => q = p /\ may_renice k q) n k k' /\
        ((r <> 0 /\ r <> - ESRCH /\ k' = k) \/
         (r = (if error =? - ESRCH then 0 else error) /\ k_tasks k' !! p = with_nice n <$> k_tasks k !! p))) k.
Proof.
  intros Hk [t Ht] Hn Hlsm. destruct (kw_current k Hk) as [tc Htc].
  assert (cred_of k (k_current k) = Some (t_cred tc)) as Hc by (unfold cred_of; by rewrite Htc).
  assert (reniced (fun q => q = p /\ may_renice k q) n k k) as Hself by (apply reniced_same; by repeat split).
  unfold set_one_prio, set_one_prio_perm. rewrite !wp_bind, (wp_current_cred _ _ _ Hc), wp_bind, (wp_task_at _ _ _ _ Ht).
  match goal with |- wp (if ?b then _ else _) _ _ => set (owner := b) end.
  assert (forall perm, perm = true -> may_renice k p -> wp (if negb perm then mret (- EPERM) else
     t ← task_at p; can ← gets (fun k => can_nice k p n);
     if (n <? task_nice t) && negb can then mret (- EACCES) else
     no_nice ← gets (fun k => security_task_setnice k p n);
     if truthy no_nice then mret no_nice else
     set_user_nice p n;; mret (if error =? - ESRCH then 0 else error))
     (fun r k' => reniced (fun q => q = p /\ may_renice k q) n k k' /\
        ((r <> 0 /\ r <> - ESRCH /\ k' = k) \/
         (r = (if error =? - ESRCH then 0 else error) /\ k_tasks k' !! p = with_nice n <$> k_tasks k !! p))) k) as Hrest.
  { intros perm -> Hmay. cbn [negb]. rewrite wp_bind, (wp_task_at _ _ _ _ Ht), wp_bind, wp_gets.
    case_match; [rewrite wp_ret; split; [done|by left]|]. rewrite wp_bind, wp_gets.
    destruct (truthy _) eqn:Htr; [rewrite wp_ret; split; [done|left]; bool_facts; split_and!; try done; apply Hlsm|].
    rewrite wp_bind, (wp_run _ _ _ _ _ (set_user_nice_runs k p t n Hn Ht)), wp_ret. split.
    - split; try done. intros q. cbn. rewrite lookup_insert. case_decide as E; [|by left].
      right. subst q. by rewrite Ht.
    - right. split; [done|]. cbn. by rewrite lookup_insert_eq, Ht. }
  destruct owner eqn:Ho; subst owner.
  - rewrite wp_ret. apply Hrest; [done|]. exists t, (t_cred tc). split_and!; try done.
    apply orb_true_iff in Ho as [?|?]; bool_facts; auto.
  - rewrite wp_gets. destruct (ns_capable k _ _) eqn:Hcap; [|cbn [negb]; rewrite wp_ret; split; [done|by left]].
    apply Hrest; [done|]. exists t, (t_cred tc). split_and!; try done. right; right. by exists k.
Qed.

Lemma set_all_run n l k error :
  kernel_wf k -> Forall (fun p => is_Some (k_tasks k !! p)) l -> MIN_NICE <= n <= MAX_NICE -> lsm_not_esrch ->
  wp (for_each l (fun p error => set_one_prio p n error) error)
     (fun r k' => reniced (fun q => q ∈ l /\ may_renice k q) n k k' /\
        (l = [] -> r = error) /\
        (r = 0 -> (error = 0 \/ error = - ESRCH) /\
           Forall (fun p => task_nice <$> k_tasks k' !! p = Some n) l)) k.
Proof.
  revert k error. induction l as [|p l IH]; intros k error Hk Hl Hn Hlsm; cbn [for_each].
  { rewrite wp_ret. split_and!; [by apply reniced_same; repeat split|done|auto]. }
  apply Forall_cons in Hl as [Hp Hl]. rewrite wp_bind.
  eapply wp_mono, set_one_prio_run; [|done..]. intros e1 k1 [Hr1 Hcase].
  eapply wp_mono, (IH k1 e1); [|by eapply reniced_wf| |done..].
  2:{ eapply Forall_impl; [exact Hl|]. intros q. by eapply reniced_live. }
  intros r k' (Hr2 & _ & Hzero). split_and!; [|done|].
  - eapply reniced_trans; (eapply reniced_mono; [|eassumption]); intros q Hq; rewrite elem_of_cons.
    + destruct Hq as [-> ?]. auto.
    + destruct Hq as [? Hq]. split; [auto|]. by eapply may_renice_reniced.
  - intros ->. destruct (Hzero eq_refl) as [He1 Hall].
    destruct Hcase as [(Hne & Hne' & _)|[He Hset]]; [tauto|].
    split; [destruct (Z.eqb_spec error (- ESRCH)); [by right|left; destruct He1; congruence]|].
    constructor; [|done]. destruct Hp as [t Ht]. rewrite Ht in Hset.
    assert (task_nice (with_nice n t) = n) as Hnice by (unfold task_nice; cbn; lia).
    destruct (rn_tasks _ _ _ _ Hr2 p) as [->|[_ ->]]; rewrite Hset; cbn; [by rewrite Hnice|].
    unfold task_nice; cbn. f_equal. lia.
Qed.

Lemma clamp_nice_range n : MIN_NICE <= clamp_nice n <= MAX_NICE.
Proof. unfold clamp_nice, MIN_NICE, MAX_NICE. repeat case_match; bool_facts; lia. Qed.

Lemma valid_which which :
  (PRIO_USER <? which) || (which <? PRIO_PROCESS) = false <-> 0 <= which <= 2.
Proof. unfold PRIO_USER, PRIO_PROCESS. rewrite orb_false_iff, !Z.ltb_ge. lia. Qed.

(** The selection does not depend on the nice values. *)
Lemma targets_stable P n k k' which who p :
  reniced P n k k' -> p ∈ targets k' which who <-> p ∈ targets k which who.
Proof.
  intros Hr. unfold targets.
  assert (forall q, t_signal <$> k_tasks k' !! q = t_signal <$> k_tasks k !! q) as Hsig.
  { intros q. by apply (reniced_field t_signal P n). }
  assert (forall A (g : signal_struct -> A) q,
    (t ← k_tasks k' !! q; s ← k_signals k' !! t_signal t; Some (g s)) =
    (t ← k_tasks k !! q; s ← k_signals k !! t_signal t; Some (g s))) as Hget.
  { intros A g q. specialize (Hsig q). rewrite (rn_signals _ _ _ _ Hr).
    destruct (k_tasks k' !! q), (k_tasks k !! q); try done. cbn in *. by injection Hsig as ->. }
  assert (selected_uid k' who = selected_uid k who) as ->.
  { unfold selected_uid, cred_of. by rewrite (rn_current _ _ _ _ Hr), (reniced_field t_cred P n k k'). }
  assert (current_pgrp k' = current_pgrp k) as ->.
  { unfold current_pgrp. rewrite (rn_current _ _ _ _ Hr). apply Hget. }
  rewrite (rn_vpids _ _ _ _ Hr), (rn_current _ _ _ _ Hr).
  case_match; [done|]. case_match; case_match; try done.
  - rewrite !pgrp_threads_spec. specialize (Hget _ s_pgid p).
    assert (forall k0, (exists t s, k_tasks k0 !! p = Some t /\ k_signals k0 !! t_signal t = Some s /\ s_pgid s = z) <->
      (t ← k_tasks k0 !! p; s ← k_signals k0 !! t_signal t; Some (s_pgid s)) = Some z) as Heq.
    { intros k0. split.
      - intros (t & s & -> & Hs & <-). cbn. by rewrite Hs.
      - destruct (k_tasks k0 !! p) as [t|]; cbn; [|done].
        destruct (k_signals k0 !! t_signal t) as [s|] eqn:Hs; cbn; [|done]. intros [= <-]. by exists t, s. }
    by rewrite !Heq, Hget.
  - assert (all_threads k' = all_threads k) as ->.
    { unfold all_threads, threads_of. rewrite (rn_procs _ _ _ _ Hr). f_equal. apply map_ext. intros q.
      by rewrite Hget. }
    rewrite (filter_ext (runs_as k' z) (runs_as k z)); [done|]. intros q. unfold runs_as.
    pose proof (reniced_field (fun t => (t_cred t, t_pid t)) P n k k' q ltac:(done) Hr) as Hf.
    destruct (k_tasks k' !! q), (k_tasks k !! q); try done. cbn in Hf. unfold task_pid_vnr. by injection Hf as -> ->.
Qed.

Lemma targets_rcu k f which who p :
  p ∈ targets (k <| k_rcu ::= f |>) which who <-> p ∈ targets k which who.
Proof.
  unfold targets. change (selected_uid (k <| k_rcu ::= f |>) who) with (selected_uid k who).
  change (current_pgrp (k <| k_rcu ::= f |>)) with (current_pgrp k).
  case_match; [done|]. case_match; case_match; try done. by rewrite !pgrp_threads_spec.
Qed.

Lemma setpriority_run k which who niceval :
  kernel_wf k -> threads_ok k -> lsm_not_esrch -> 0 <= which <= 2 ->
  let n := clamp_nice niceval in
  wp (setpriority which who niceval)
     (fun r k' => reniced (fun p => p ∈ targets k which who /\ may_renice k p) n k k' /\
        ((forall p, p ∉ targets k which who) -> r = - ESRCH) /\
        (r = 0 -> forall p, p ∈ targets k which who -> task_nice <$> k_tasks k' !! p = Some n)) k.
Proof.
  intros Hk Hth Hlsm Hw n. unfold setpriority. rewrite (proj2 (valid_which which) Hw). fold n.
  autorewrite with wp. set (k1 := k <| k_rcu ::= Z.succ |>).
  assert (kernel_wf k1) as Hk1 by (by apply kernel_wf_rcu).
  eapply wp_mono, (prio_tasks_run k1 which who Hk1 Hth). intros l k2 [-> Hu].
  assert (forall p, p ∈ targets k1 which who <-> p ∈ targets k which who) as Ht by (intros p; apply targets_rcu).
  pose proof (reniced_same (fun _ => False) n k1 k2 Hu) as Hr12.
  rewrite wp_bind.
  eapply wp_mono, set_all_run; [|by eapply reniced_wf| |apply clamp_nice_range|done].
  2:{ eapply Forall_impl; [by apply (targets_live k1)|]. intros q. by eapply reniced_live. }
  intros r k3 (Hr23 & Hnil & Hzero). autorewrite with wp.
  set (k4 := k3 <| k_rcu ::= Z.pred |>). split_and!.
  - destruct Hu as [(E1 & E2 & E3 & E4 & E5 & E6 & E7 & E8) E9].
    destruct Hr23 as [T1 T2 T3 T4 T5 T6 T7 T8].
    split; cbn; rewrite ?T2, ?T3, ?T4, ?T5, ?T6, ?T7, ?T8; try done; [|rewrite E8; apply Z.pred_succ].
    intros p. specialize (T1 p). rewrite E1 in T1. destruct T1 as [T1|[[Hin Hmay] T1]]; [by left|].
    right. split; [|done]. split; [by apply Ht|].
    destruct (may_renice_reniced _ _ _ _ _ Hr12 Hmay) as (t & c & ? & ? & ?). by exists t, c.
  - intros Hnone. apply Hnil. destruct (targets k1 which who) as [|p l]; [done|].
    destruct (Hnone p). apply Ht. by apply elem_of_cons; left.
  - intros Hr p Hp. destruct (Hzero Hr) as [_ Hall]. rewrite Forall_forall in Hall. by apply Hall, Ht.
Qed.

(** [setpriority] changes nothing but nice values.  Every task it changes was
    selected, gets the given value clamped to -20..19, and belongs to the caller's
    effective user unless the caller has [CAP_SYS_NICE]; without a selected task it
    returns -ESRCH. *)
Theorem setpriority_confined k which who niceval :
  kernel_wf k -> threads_ok k -> lsm_not_esrch -> 0 <= which <= 2 ->
  wp (setpriority which who niceval)
     (fun r k' => MIN_NICE <= clamp_nice niceval <= MAX_NICE /\
        reniced (fun p => p ∈ targets k which who /\ may_renice k p) (clamp_nice niceval) k k' /\
        ((forall p, p ∉ targets k which who) -> r = - ESRCH)) k.
Proof.
  intros Hk Hth Hlsm Hw. eapply wp_mono, setpriority_run; [|done..]. intros r k' (Hr & Hnil & _).
  split_and!; [by apply clamp_nice_range..|done|done].
Qed.

(** ** Reading the priorities *)
Definition prio_of (k : kernel) (p : Z) : Z :=
  match k_tasks k !! p with Some t => nice_to_rlimit (task_nice t) | None => 0 end.

Lemma max_all_run k l r :
  Forall (fun p => is_Some (k_tasks k !! p)) l ->
  for_each l max_nice r k = Done (foldl Z.max r (map (prio_of k) l)) k.
Proof.
  revert r. induction l as [|p l IH]; intros r Hl; cbn [for_each map foldl]; [done|].
  apply Forall_cons in Hl as [[t Ht] Hl].
  assert (max_nice p r k = Done (Z.max r (prio_of k p)) k) as Hstep.
  { unfold max_nice, task_at, prio_of. kernel_unfold. rewrite Ht. f_equal.
    destruct (Z.ltb_spec r (nice_to_rlimit (task_nice t))); lia. }
  by rewrite (bind_done _ _ _ _ _ Hstep), IH.
Qed.

Lemma foldl_max_spec r l :
  foldl Z.max r l = r /\ Forall (fun x => x <= r) l \/
  foldl Z.max r l ∈ l /\ r <= foldl Z.max r l /\ Forall (fun x => x <= foldl Z.max r l) l.
Proof.
  revert r. induction l as [|x l IH]; intros r; cbn; [by left|].
  destruct (IH (Z.max r x)) as [[-> Hall]|(Hin & Hle & Hall)].
  - destruct (Z.max_spec_le r x) as [[? ->]|[? ->]].
    + right. split_and!; [by apply elem_of_cons; left|done|]. constructor; [lia|].
      eapply Forall_impl; [exact Hall|]. intros. cbn in *. lia.
    + left. split; [done|]. constructor; [done|]. eapply Forall_impl; [exact Hall|]. cbn. lia.
  - right. split_and!; [by apply elem_of_cons; right|lia|]. constructor; [lia|done].
Qed.

Lemma getpriority_run k which who :
  kernel_wf k -> threads_ok k -> 0 <= which <= 2 ->
  wp (getpriority which who)
     (fun r k' => unchanged k k' /\ exists l, (forall p, p ∈ l <-> p ∈ targets k which who) /\
        r = foldl Z.max (- ESRCH) (map (prio_of k) l)) k.
Proof.
  intros Hk Hth Hw. unfold getpriority. rewrite (proj2 (valid_which which) Hw).
  autorewrite with wp. set (k1 := k <| k_rcu ::= Z.succ |>).
  assert (kernel_wf k1) as Hk1 by (by apply kernel_wf_rcu).
  eapply wp_mono, (prio_tasks_run k1 which who Hk1 Hth). intros l k2 [-> Hu].
  pose proof Hu as [(E1 & E2 & E3 & E4 & E5 & E6 & E7 & E8) E9].
  rewrite wp_bind. erewrite wp_run; [|apply max_all_run; rewrite E1; by apply (targets_live k1)].
  autorewrite with wp. split.
  - repeat split; cbn; try done. rewrite E8. apply Z.pred_succ.
  - exists (targets k1 which who). split.
    + apply targets_rcu.
    + f_equal. apply map_ext. intros p. unfold prio_of. by rewrite E1.
Qed.

(** [getpriority] returns the highest priority of the selected tasks, a number
    from 1 to 40, and -ESRCH when there is none; it changes nothing. *)
Theorem getpriority_is_maximum k which who :
  kernel_wf k -> threads_ok k -> 0 <= which <= 2 ->
  (forall p t, k_tasks k !! p = Some t -> MIN_NICE <= task_nice t <= MAX_NICE) ->
  wp (getpriority which who)
     (fun r k' => unchanged k k' /\
        ((r = - ESRCH /\ forall p, p ∉ targets k which who) \/
         (1 <= r <= 40 /\ (exists p, p ∈ targets k which who /\ r = prio_of k p) /\
          forall p, p ∈ targets k which who -> prio_of k p <= r))) k.
Proof.
  intros Hk Hth Hw Hnice. eapply wp_mono, getpriority_run; [|done..].
  intros r k' [Hu (l & Hl & ->)]. split; [done|].
  assert (forall p, p ∈ l -> 1 <= prio_of k p <= 40) as Hrange.
  { intros p Hp%Hl. pose proof (targets_live k which who Hk Hth) as Hlive. rewrite Forall_forall in Hlive.
    destruct (Hlive p Hp) as [t Ht]. unfold prio_of. rewrite Ht. specialize (Hnice p t Ht).
    unfold nice_to_rlimit, MIN_NICE, MAX_NICE in *. lia. }
  destruct (foldl_max_spec (- ESRCH) (map (prio_of k) l)) as [[-> Hall]|(Hin & _ & Hall)]; rewrite Forall_map, Forall_forall in Hall.
  - left. split; [done|]. intros p Hp%Hl. specialize (Hall p Hp). specialize (Hrange p Hp). unfold ESRCH in *. cbn in Hall. lia.
  - right. apply list_elem_of_fmap in Hin as (p & Hp & Hin). rewrite Hp in *. split_and!; [by apply Hrange..| |].
    + exists p. split; [by apply Hl|done].
    + intros q Hq. by apply Hall, Hl.
Qed.

(** what [setpriority] has set for a process, a group or a user [getpriority]
    returns for it: 20 minus the clamped nice value. *)
Theorem setpriority_getpriority k which who niceval :
  kernel_wf k -> threads_ok k -> lsm_not_esrch -> 0 <= which <= 2 ->
  wp (setpriority which who niceval)
     (fun r k1 => r = 0 ->
        wp (getpriority which who) (fun r' k2 => r' = 20 - clamp_nice niceval /\ unchanged k1 k2) k1) k.
Proof.
  intros Hk Hth Hlsm Hw. eapply wp_mono, setpriority_run; [|done..]. intros r k1 (Hr & Hnil & Hset) Hzero.
  assert (threads_ok k1) as Hth1.
  { intros q s p. rewrite (rn_signals _ _ _ _ Hr). intros Hs Hp. eapply reniced_live; [done|]. by eapply Hth. }
  eapply wp_mono, (getpriority_run k1 which who); [|by eapply reniced_wf|done..].
  intros r' k2 [Hu (l & Hl & ->)]. split; [|done].
  assert (Forall (fun x => x = 20 - clamp_nice niceval) (map (prio_of k1) l)) as Hall.
  { rewrite Forall_map. apply Forall_forall. intros p Hp%Hl. rewrite (targets_stable _ _ _ _ _ _ _ Hr) in Hp.
    specialize (Hset Hzero p Hp). unfold prio_of. destruct (k_tasks k1 !! p) as [t|]; [|done].
    cbn in Hset. injection Hset as ->. unfold nice_to_rlimit, MAX_NICE. cbn. lia. }
  pose proof (clamp_nice_range niceval). unfold MIN_NICE, MAX_NICE in *.
  destruct (foldl_max_spec (- ESRCH) (map (prio_of k1) l)) as [[_ Hle]|(Hin & _)].
  - destruct l as [|p l].
    + rewrite Hnil in Hzero; [done|]. intros p Hp. rewrite <- (targets_stable _ _ _ _ _ _ _ Hr), <- Hl in Hp.
      by apply not_elem_of_nil in Hp.
    + apply Forall_cons in Hall as [Hx _], Hle as [Hy _]. unfold ESRCH in *. lia.
  - rewrite Forall_forall in Hall. by apply Hall.
Qed.
End Behaviour.

(** ** Witnesses *)
Definition in_group (k : kernel) (g : Z) (pt : Z * task_struct) : bool :=
  bool_decide (s_pgid <$> k_signals k !! t_signal pt.2 = Some g).
Definition sample_sched : SchedEnv := {|
  can_nice _ _ _ := true;
  set_user_nice p n k :=
    match k_tasks k !! p with
    | Some t => Done tt (k <| k_tasks ::= <[p := with_nice n t]> |>)
    | None => Crash NullDeref
    end;
  find_user uid := Some uid;
  pgrp_threads k g := map fst (List.filter (in_group k g) (map_to_list (k_tasks k)));
|}.

#[global] Instance sample_sched_ok : @SchedEnvOk sample_sched.
Proof.
  split.
  - intros k p t n _ Ht. cbn. by rewrite Ht.
  - intros k g p. cbn. rewrite list_elem_of_In, in_map_iff. split.
    + intros ([q t] & <- & [Hin Hg]%filter_In). unfold in_group in Hg. cbn in *.
      apply bool_decide_eq_true in Hg. apply list_elem_of_In, elem_of_map_to_list in Hin.
      destruct (k_signals k !! t_signal t) as [s|] eqn:Hs; [|done]. exists t, s. split_and!; [done..|by injection Hg].
    + intros (t & s & Ht & Hs & <-). exists (p, t). split; [done|]. apply filter_In. split.
      * by apply list_elem_of_In, elem_of_map_to_list.
      * unfold in_group. cbn. rewrite Hs. by apply bool_decide_eq_true.
Qed.

Lemma family_threads : threads_ok family_kernel.
Proof.
  intros q s p [[-> ->]|[-> ->]]%pair_lookup [->|[]%not_elem_of_nil]%elem_of_cons; vm_compute; eauto.
Qed.

Lemma setpriority_confined_witness :
  let _ := sample_env 0 in let _ := sample_creds in let _ := sample_pids in let _ := sample_sched in
  wp (setpriority PRIO_USER 0 50)
     (fun r k' => MIN_NICE <= clamp_nice 50 <= MAX_NICE /\
        reniced (fun p => p ∈ targets family_kernel PRIO_USER 0 /\ may_renice family_kernel p)
          (clamp_nice 50) family_kernel k' /\
        ((forall p, p ∉ targets family_kernel PRIO_USER 0) -> r = - ESRCH)) family_kernel.
Proof.
  intros e1 e2 e3 e4. apply (setpriority_confined family_kernel PRIO_USER 0 50);
    [apply family_ok | apply family_threads | done | unfold PRIO_USER; lia].
Defined.

Lemma getpriority_is_maximum_witness :
  let _ := sample_env 0 in let _ := sample_creds in let _ := sample_pids in let _ := sample_sched in
  wp (getpriority PRIO_PGRP 7)
     (fun r k' => unchanged family_kernel k' /\
        ((r = - ESRCH /\ forall p, p ∉ targets family_kernel PRIO_PGRP 7) \/
         (1 <= r <= 40 /\ (exists p, p ∈ targets family_kernel PRIO_PGRP 7 /\ r = prio_of family_kernel p) /\
          forall p, p ∈ targets family_kernel PRIO_PGRP 7 -> prio_of family_kernel p <= r))) family_kernel.
Proof.
  intros e1 e2 e3 e4. apply (getpriority_is_maximum family_kernel PRIO_PGRP 7);
    [apply family_ok | apply family_threads | unfold PRIO_PGRP; lia |].
  intros p t [[-> ->]|[-> ->]]%pair_lookup; vm_compute; split; discriminate.
Defined.

Lemma setpriority_getpriority_witness :
  let _ := sample_env 0 in let _ := sample_creds in let _ := sample_pids in let _ := sample_sched in
  wp (setpriority PRIO_PGRP 7 (-100))
     (fun r k1 => r = 0 ->
        wp (getpriority PRIO_PGRP 7) (fun r' k2 => r' = 20 - clamp_nice (-100) /\ unchanged k1 k2) k1) family_kernel.
Proof.
  intros e1 e2 e3 e4. apply (setpriority_getpriority family_kernel PRIO_PGRP 7 (-100));
    [apply family_ok | apply family_threads | done | unfold PRIO_PGRP; lia].
Defined.

Lemma setpriority_succeeds :
  let _ := sample_env 0 in let _ := sample_creds in let _ := sample_pids in let _ := sample_sched in
  match setpriority PRIO_PGRP 7 (-100) family_kernel with Done r _ => r = 0 | Crash _ => False end.
Proof. vm_compute. done. Qed.
