(* ===== verification/Uts.v ===== *)
(** System names: [uname] and its old forms, [sethostname], [gethostname] and
    [setdomainname] of [kernel/sys.c], with the name of [include/linux/uts.h].

    The names live in the UTS namespace of the caller.  The semaphore [uts_sem]
    is not modelled: a call runs to its end before the next one. *)

From S2P Require Import Prelude Uaccess Kernel.

Definition __NEW_UTS_LEN : Z := 64.
Definition __OLD_UTS_LEN : Z := 8.
Definition UNAME26 : Z := 131072.
Definition PER_MASK : Z := 255.
Definition PER_LINUX32 : Z := 8.

(** The project's own system name. *)
Definition UTS_SYSNAME : list Z := bytes_of "Linux -- Kevin Secaida".
Definition UTS_DOMAINNAME : list Z := bytes_of "(none)".

(** [struct new_utsname]: six arrays of 65 bytes. *)
Record new_utsname := mkUtsname {
  sysname : list Z; nodename : list Z; release : list Z;
  version : list Z; machine : list Z; domainname : list Z;
}.
#[global] Instance eta_utsname : Eta new_utsname := fun u =>
  mkUtsname (sysname u) (nodename u) (release u) (version u) (machine u) (domainname u).

(** The kernel state with the caller's UTS namespace. *)
Record utsstate := mkUts { u_k : kernel; utsname : new_utsname; uts_user_ns : Z }.
#[global] Instance eta_uts : Eta utsstate := fun s => mkUts (u_k s) (utsname s) (uts_user_ns s).

Definition new_image (u : new_utsname) : list Z :=
  sysname u ++ nodename u ++ release u ++ version u ++ machine u ++ domainname u.
Definition old_image (u : new_utsname) : list Z :=
  sysname u ++ nodename u ++ release u ++ version u ++ machine u.
(** [struct oldold_utsname]: five arrays of 9 bytes, the last byte 0. *)
Definition oldold_image (u : new_utsname) : list Z :=
  let short f := take (Z.to_nat __OLD_UTS_LEN) f ++ [0] in
  short (sysname u) ++ short (nodename u) ++ short (release u) ++ short (version u) ++ short (machine u).

(** [isdigit] and [%u]. *)
Definition isdigit (c : Z) : bool := (48 <=? c) && (c <=? 57).
Fixpoint digits (fuel : nat) (n : Z) (acc : list Z) : list Z :=
  match fuel with
  | O => acc
  | S fuel =>
      let acc := 48 + n mod 10 :: acc in
      if n / 10 =? 0 then acc else digits fuel (n / 10) acc
  end.
(** Ten digits are enough for an [unsigned]. *)
Definition print_u (n : Z) : list Z := digits 10 n [].

(** [strlen]: the bytes before the first 0. *)
Fixpoint strlen (s : list Z) : nat :=
  match s with
  | [] => O
  | c :: s => if c =? 0 then O else S (strlen s)
  end.

Section Calls.
Context `{UserArch} `{KernelEnv}.
(* generated/utsrelease.h, generated/uapi/linux/version.h, asm/compat.h *)
Context (UTS_RELEASE : list Z) (LINUX_VERSION_PATCHLEVEL : Z) (COMPAT_UTS_MACHINE : list Z).

#[local] Abbreviation M := (Kern utsstate).
Definition ukern {A} (m : Kern kernel A) : M A := zoom u_k (fun k s => s <| u_k := k |>) m.

(** The loop of [override_release]: what follows the first three numbers. *)
Fixpoint skip_version (rest : list Z) (ndots : Z) : list Z :=
  match rest with
  | [] => []
  | c :: rest' =>
      let dot := c =? 46 in
      if dot && (3 <=? ndots + 1) then rest
      else if negb (isdigit c) && negb dot then rest
      else skip_version rest' (if dot then ndots + 1 else ndots)
  end.

(** [scnprintf(buf, size, "2.6.%u%s", v, rest)] into a zeroed buffer: the text that
    fits in front of the terminating 0. *)
Definition release26 (size : Z) : list Z :=
  take (Z.to_nat (size - 1))
    (bytes_of "2.6." ++ print_u (u32 (LINUX_VERSION_PATCHLEVEL + 60)) ++ skip_version UTS_RELEASE 0).

Definition override_release (addr len : Z) : M Z :=
  t ← ukern current_task;
  if truthy (Z.land (personality t) UNAME26) then
    let copy := Z.max 1 (Z.min len 65) in
    ukern (k_copy_to_user addr (release26 copy ++ [0]))
  else mret 0.

Definition override_architecture (addr : Z) : M Z :=
  t ← ukern current_task;
  if Z.land (personality t) PER_MASK =? PER_LINUX32
  then ukern (k_copy_to_user addr COMPAT_UTS_MACHINE)
  else mret 0.

(** The three forms of [uname]: copy the names out, then patch the release and the
    machine in user memory. *)
Definition newuname (name : Z) : M Z :=
  tmp ← gets utsname;
  uncopied ← ukern (k_copy_to_user name (new_image tmp));
  if truthy uncopied then mret (- EFAULT)
  else
  uncopied ← override_release (name + 130) 65;
  if truthy uncopied then mret (- EFAULT)
  else
  uncopied ← override_architecture (name + 260);
  if truthy uncopied then mret (- EFAULT) else mret 0.

Definition uname (name : Z) : M Z :=
  if negb (truthy name) then mret (- EFAULT)
  else
  tmp ← gets utsname;
  uncopied ← ukern (k_copy_to_user name (old_image tmp));
  if truthy uncopied then mret (- EFAULT)
  else
  uncopied ← override_release (name + 130) 65;
  if truthy uncopied then mret (- EFAULT)
  else
  uncopied ← override_architecture (name + 260);
  if truthy uncopied then mret (- EFAULT) else mret 0.

Definition olduname (name : Z) : M Z :=
  if negb (truthy name) then mret (- EFAULT)
  else
  tmp ← gets utsname;
  uncopied ← ukern (k_copy_to_user name (oldold_image tmp));
  if truthy uncopied then mret (- EFAULT)
  else
  uncopied ← override_architecture (name + 36);
  if truthy uncopied then mret (- EFAULT)
  else
  uncopied ← override_release (name + 18) 9;
  if truthy uncopied then mret (- EFAULT) else mret 0.

(** [memcpy] of the new name over the array and [memset] of the rest. *)
Definition stored_name (tmp : list Z) (len : Z) : list Z :=
  tmp ++ replicate (Z.to_nat (65 - len)) 0.

Definition sethostname (name len : Z) : M Z :=
  ns ← gets uts_user_ns;
  cap ← ukern (gets (fun k => ns_capable k ns CAP_SYS_ADMIN));
  if negb cap then mret (- EPERM)
  else if (len <? 0) || (__NEW_UTS_LEN <? len) then mret (- EINVAL)
  else
  '(tmp, uncopied) ← ukern (k_copy_from_user name len);
  if negb (truthy uncopied) then
    modify (fun s => s <| utsname ::= fun u => u <| nodename := stored_name tmp len |> |>);;
    mret 0
  else mret (- EFAULT).

Definition gethostname (name len : Z) : M Z :=
  if len <? 0 then mret (- EINVAL)
  else
  u ← gets utsname;
  let i := 1 + Z.of_nat (strlen (nodename u)) in
  let i := if len <? i then len else i in
  uncopied ← ukern (k_copy_to_user name (take (Z.to_nat i) (nodename u)));
  if truthy uncopied then mret (- EFAULT) else mret 0.

Definition setdomainname (name len : Z) : M Z :=
  ns ← gets uts_user_ns;
  cap ← ukern (gets (fun k => ns_capable k ns CAP_SYS_ADMIN));
  if negb cap then mret (- EPERM)
  else if (len <? 0) || (__NEW_UTS_LEN <? len) then mret (- EINVAL)
  else
  '(tmp, uncopied) ← ukern (k_copy_from_user name len);
  if negb (truthy uncopied) then
    modify (fun s => s <| utsname ::= fun u => u <| domainname := stored_name tmp len |> |>);;
    mret 0
  else mret (- EFAULT).

End Calls.

(** ** Properties *)
Section Behaviour.
Context `{UserArchOk} `{KernelEnv}.
Context (UTS_RELEASE : list Z) (LINUX_VERSION_PATCHLEVEL : Z) (COMPAT_UTS_MACHINE : list Z).

(** Every array has its 65 bytes and ends in a 0. *)
Definition name_ok (f : list Z) : Prop := length f = 65%nat /\ (strlen f < 65)%nat.
Record uts_wf (s : utsstate) : Prop := {
  uw_kernel : kernel_wf (u_k s);
  uw_fields : Forall name_ok [sysname (utsname s); nodename (utsname s); release (utsname s);
                              version (utsname s); machine (utsname s); domainname (utsname s)];
}.

Lemma wp_ukern {A} (m : Kern kernel A) (Q : A -> utsstate -> Prop) s :
  wp (ukern m) Q s <-> wp m (fun a k => Q a (s <| u_k := k |>)) (u_k s).
Proof. unfold wp, ukern, zoom. by destruct (m (u_k s)). Qed.

Lemma wp_ukern_gets {A} (f : kernel -> A) (Q : A -> utsstate -> Prop) s :
  wp (ukern (gets f)) Q s <-> Q (f (u_k s)) s.
Proof. by destruct s. Qed.

Lemma strlen_app (l r : list Z) : (forall b, b ∈ l -> b <> 0) -> strlen (l ++ 0 :: r) = length l.
Proof.
  induction l as [|b l IH]; intros Hl; [done|]. cbn.
  destruct (Z.eqb_spec b 0); [destruct (Hl b); [by apply elem_of_cons; left|done]|].
  f_equal. apply IH. intros c Hc. apply Hl. by apply elem_of_cons; right.
Qed.

Lemma strlen_bound (l r : list Z) : (strlen (l ++ 0%Z :: r) <= length l)%nat.
Proof. induction l as [|b l IH]; cbn; [lia|]. case_match; lia. Qed.

Lemma stored_name_ok tmp len :
  0 <= len <= __NEW_UTS_LEN -> blen tmp = len -> name_ok (stored_name tmp len).
Proof.
  unfold stored_name, __NEW_UTS_LEN, blen. intros Hlen Ht. split.
  - rewrite length_app, length_replicate. lia.
  - replace (Z.to_nat (65 - len)) with (S (Z.to_nat (64 - len))) by lia. cbn [replicate].
    pose proof (strlen_bound tmp (replicate (Z.to_nat (64 - len)) 0)). lia.
Qed.

Lemma copy_in_length k from n :
  0 <= n -> blen (copy_from_user (k_user k) from n (replicate (Z.to_nat n) 0)).1 = n.
Proof.
  intros Hn. unfold copy_from_user. assert (blen (replicate (Z.to_nat n) 0) = n) as Hl
    by (unfold blen; rewrite length_replicate; lia).
  case_match; [|done]. destruct (_copy_from_user_buffer (k_user k) from n _ Hn Hl) as (got & Hg & -> & _).
  unfold blen. rewrite length_app, length_read_bytes, length_replicate. lia.
Qed.

(** The two calls that set a name. *)
Lemma sethostname_run s name len :
  wp (sethostname name len)
     (fun r s' => if r =? 0
        then 0 <= len <= __NEW_UTS_LEN /\
             s' = s <| u_k := user_accessed (k_user (u_k s)) (u_k s) |>
                    <| utsname ::= fun u => u <| nodename := stored_name (read_bytes (k_user (u_k s)) name (Z.to_nat len)) len |> |>
        else utsname s' = utsname s /\ k_user (u_k s') = k_user (u_k s) /\ same_objects (u_k s) (u_k s')) s.
Proof.
  unfold sethostname. rewrite wp_bind, wp_gets, wp_bind, wp_ukern_gets.
  destruct (ns_capable _ _ _); cbn [negb]; [|rewrite wp_ret; by repeat split].
  destruct (_ || _) eqn:Hlen; [rewrite wp_ret; by repeat split|]. bool_facts.
  rewrite wp_bind, wp_ukern. unfold k_copy_from_user.
  pose proof (copy_in_length (u_k s) name len ltac:(lia)) as Hl.
  destruct (copy_from_user _ _ _ _) as [tmp uncopied] eqn:Hc.
  erewrite wp_run; [|cbv beta; by rewrite Hc]. cbv iota.
  destruct (truthy uncopied) eqn:Ht; cbn [negb]; autorewrite with wp; [by repeat split|]. bool_facts. subst uncopied.
  change (0 =? 0) with true. cbn [fst] in Hl. split; [lia|].
  assert (tmp = read_bytes (k_user (u_k s)) name (Z.to_nat len)) as ->; [|done].
  destruct (decide (len = 0)) as [->|].
  - unfold blen in Hl. destruct tmp; [done|cbn in Hl; lia].
  - eapply copy_from_user_done, Hc; [lia|]. unfold blen. rewrite length_replicate. lia.
Qed.

(** [gethostname] returns what [sethostname] has set.  A name of at most 64
    bytes without a 0 comes back followed by a 0, when the destination is mapped
    and longer than the name. *)
Theorem hostname_roundtrip s name len buf buflen :
  let bs := read_bytes (k_user (u_k s)) name (Z.to_nat len) in
  (forall b, b ∈ bs -> b <> 0) -> len < buflen -> can_copy_to (k_user (u_k s)) buf (len + 1) ->
  wp (sethostname name len)
     (fun r s1 => r = 0 ->
        wp (gethostname buf buflen)
           (fun r' s2 => r' = 0 /\ read_bytes (k_user (u_k s2)) buf (Z.to_nat (len + 1)) = bs ++ [0]) s1) s.
Proof.
  intros bs Hnz Hlen Hcan. eapply wp_mono, sethostname_run. intros r s1 Hr ->. cbn [Z.eqb] in Hr.
  destruct Hr as [Hrange ->]. unfold __NEW_UTS_LEN in Hrange.
  assert (length bs = Z.to_nat len) as Hbs by apply length_read_bytes.
  unfold gethostname. rewrite (proj2 (Z.ltb_ge buflen 0)) by lia. rewrite wp_bind, wp_gets.
  set (node := stored_name bs len).
  assert (strlen node = Z.to_nat len /\ take (S (Z.to_nat len)) node = bs ++ [0]) as [Hs Htk].
  { unfold node, stored_name. replace (Z.to_nat (65 - len)) with (S (Z.to_nat (64 - len))) by lia. cbn [replicate].
    rewrite strlen_app by done. split; [done|]. rewrite <- Hbs.
    rewrite firstn_app, firstn_all2 by lia. by replace (S (length bs) - length bs)%nat with 1%nat by lia. }
  match goal with |- context [nodename (utsname ?s1)] => change (nodename (utsname s1)) with node end. rewrite Hs.
  rewrite (proj2 (Z.ltb_ge buflen (1 + Z.of_nat (Z.to_nat len)))) by lia.
  replace (Z.to_nat (1 + Z.of_nat (Z.to_nat len))) with (S (Z.to_nat len)) by lia. rewrite Htk.
  rewrite wp_bind, wp_ukern. unfold k_copy_to_user.
  assert (blen (bs ++ [0]) = len + 1) as Hblen by (unfold blen; rewrite length_app; cbn; lia).
  erewrite wp_run; [|cbv beta; rewrite copy_to_user_ok; [done|by rewrite Hblen]].
  change (truthy 0) with false. cbv iota. rewrite wp_ret. split; [done|]. cbn.
  replace (Z.to_nat (len + 1)) with (length (bs ++ [0])) by (rewrite length_app; cbn; lia).
  apply read_write_bytes.
Qed.

(** *** [uname] *)

(** The release of a 2.6 personality fits into its array. *)
Lemma release26_fits size :
  1 <= size -> (length (release26 UTS_RELEASE LINUX_VERSION_PATCHLEVEL size ++ [0%Z]) <= Z.to_nat size)%nat.
Proof. intros Hs. unfold release26. rewrite length_app, length_take. cbn. lia. Qed.

(** What user memory holds after [newuname]. *)
Definition reported (s : utsstate) (t : task_struct) (name : Z) : gmap Z Z :=
  let m := write_bytes (k_user (u_k s)) name (new_image (utsname s)) in
  let m := if truthy (Z.land (personality t) UNAME26)
           then write_bytes m (name + 130) (release26 UTS_RELEASE LINUX_VERSION_PATCHLEVEL 65 ++ [0]) else m in
  if Z.land (personality t) PER_MASK =? PER_LINUX32
  then write_bytes m (name + 260) COMPAT_UTS_MACHINE else m.


Lemma wp_uts_current s t (Q : task_struct -> utsstate -> Prop) :
  k_tasks (u_k s) !! k_current (u_k s) = Some t -> wp (ukern current_task) Q s <-> Q t s.
Proof.
  intros Ht. rewrite wp_ukern. unfold current_task, current. rewrite wp_bind, wp_gets, (wp_task_at _ _ _ _ Ht).
  by destruct s.
Qed.

Lemma copy_out_cases k a bs (Q : Z -> kernel -> Prop) :
  (forall uncopied k', uncopied <> 0 -> k_tasks k' = k_tasks k -> k_current k' = k_current k -> Q uncopied k') ->
  Q 0 (user_accessed (write_bytes (k_user k) a bs) k) ->
  wp (k_copy_to_user a bs) Q k.
Proof.
  intros Hbad Hok. unfold k_copy_to_user. destruct (copy_to_user (k_user k) a bs) as [m uncopied] eqn:Hc.
  erewrite wp_run; [|cbv beta; by rewrite Hc]. destruct (decide (uncopied = 0)) as [->|Hne]; [|by apply Hbad].
  apply copy_to_user_done in Hc as ->. done.
Qed.

Lemma new_image_length s : uts_wf s -> length (new_image (utsname s)) = 390%nat.
Proof.
  intros [_ Hf]. rewrite !Forall_cons in Hf. destruct Hf as ([E1 _] & [E2 _] & [E3 _] & [E4 _] & [E5 _] & [E6 _] & _).
  unfold new_image. rewrite !length_app. lia.
Qed.

(** [newuname] reports the names of the namespace.  When it returns 0 the 390
    bytes at the destination are the six names, with a release that starts with
    2.6 for a task with that personality and the 32-bit machine for a 32-bit one;
    the names are unchanged, and no byte outside of the destination is written. *)
Theorem newuname_reports s t name :
  uts_wf s -> k_tasks (u_k s) !! k_current (u_k s) = Some t -> (length COMPAT_UTS_MACHINE <= 65)%nat ->
  wp (newuname UTS_RELEASE LINUX_VERSION_PATCHLEVEL COMPAT_UTS_MACHINE name)
     (fun r s' => utsname s' = utsname s /\
        (r = 0 -> k_user (u_k s') = reported s t name /\
           forall x, x < name \/ name + 390 <= x -> k_user (u_k s') !! x = k_user (u_k s) !! x)) s.
Proof.
  intros Hwf Ht Hmach. unfold newuname. rewrite wp_bind, wp_gets, wp_bind, wp_ukern.
  apply copy_out_cases.
  { intros u k' Hu _ _. rewrite (proj2 (truthy_true u) Hu), wp_ret. done. }
  change (truthy 0) with false. cbv iota. set (k1 := user_accessed _ (u_k s)).
  unfold override_release, override_architecture.
  rewrite !wp_bind. match goal with |- wp _ _ ?s1 => rewrite (wp_uts_current s1 t _ Ht) end.
  assert (forall k2 (Q : Z -> utsstate -> Prop), k_tasks k2 = k_tasks (u_k s) -> k_current k2 = k_current (u_k s) ->
    (forall r k', r <> 0 -> Q r (s <| u_k := k' |>)) ->
    (forall k', k_user k' = (if Z.land (personality t) PER_MASK =? PER_LINUX32
        then write_bytes (k_user k2) (name + 260) COMPAT_UTS_MACHINE else k_user k2) -> Q 0 (s <| u_k := k' |>)) ->
    wp (uncopied ← (t ← ukern current_task;
          if Z.land (personality t) PER_MASK =? PER_LINUX32 then ukern (k_copy_to_user (name + 260) COMPAT_UTS_MACHINE)
          else mret 0); if truthy uncopied then mret (- EFAULT) else mret 0) Q (s <| u_k := k2 |>)) as Harch.
  { intros k2 Q Et Ec Hbad Hok. rewrite !wp_bind.
    rewrite (wp_uts_current (s <| u_k := k2 |>) t) by (cbn; by rewrite Et, Ec).
    case_match.
    - rewrite wp_ukern. apply copy_out_cases.
      + intros u k' Hu _ _. rewrite (proj2 (truthy_true u) Hu), wp_ret. by apply Hbad.
      + change (truthy 0) with false. cbv iota. rewrite wp_ret. by apply Hok.
    - rewrite wp_ret. change (truthy 0) with false. cbv iota. rewrite wp_ret. by apply Hok. }
  pose proof (release26_fits 65 ltac:(lia)) as Hfit. pose proof (new_image_length s Hwf) as Hlen.
  destruct (truthy (Z.land (personality t) UNAME26)) eqn:H26.
  - change (Z.max 1 (Z.min 65 65)) with 65. rewrite wp_ukern. apply copy_out_cases.
    + intros u k' Hu _ _. rewrite (proj2 (truthy_true u) Hu), wp_ret. done.
    + change (truthy 0) with false. cbv iota. apply Harch; [done..| |]; [by intros|].
      intros k' Hk'. split; [done|]. intros _. split.
      * unfold reported. rewrite H26. exact Hk'.
      * intros x Hx. cbn. rewrite Hk'. case_match; cbn; rewrite ?lookup_write_bytes_out by lia; done.
  - rewrite wp_ret. change (truthy 0) with false. cbv iota. apply Harch; [done..| |]; [by intros|].
    intros k' Hk'. split; [done|]. intros _. split.
    + unfold reported. rewrite H26. exact Hk'.
    + intros x Hx. cbn. rewrite Hk'. case_match; cbn; rewrite ?lookup_write_bytes_out by lia; done.
Qed.
End Behaviour.

(** ** Witnesses *)
Definition pad65 (bs : list Z) : list Z := bs ++ replicate (65 - length bs) 0.
(** The namespace at boot, with the project's system name. *)
Definition boot_utsname : new_utsname :=
  mkUtsname (pad65 UTS_SYSNAME) (pad65 (bytes_of "usac")) (pad65 (bytes_of "6.8.0")) (pad65 (bytes_of "1"))
    (pad65 (bytes_of "x86_64")) (pad65 UTS_DOMAINNAME).
Definition uts_user : gmap Z Z := write_bytes (write_bytes ∅ 4096 (replicate 400 255)) 8192 (bytes_of "taro").
Definition boot_uts : utsstate := mkUts (sample_kernel uts_user) boot_utsname 0.

Lemma boot_uts_wf : uts_wf boot_uts.
Proof. split; [apply sample_kernel_wf|]. repeat constructor; vm_compute; done. Qed.

Lemma hostname_roundtrip_witness :
  let _ := sample_env 0 in
  let bs := read_bytes (k_user (u_k boot_uts)) 8192 (Z.to_nat 4) in
  wp (sethostname 8192 4)
     (fun r s1 => r = 0 ->
        wp (gethostname 4096 100)
           (fun r' s2 => r' = 0 /\ read_bytes (k_user (u_k s2)) 4096 (Z.to_nat (4 + 1)) = bs ++ [0]) s1) boot_uts.
Proof.
  intros env bs. apply (hostname_roundtrip boot_uts 8192 4 4096 100).
  - apply Forall_forall. vm_compute. repeat constructor; discriminate.
  - lia.
  - split_and!; vm_compute; done.
Defined.

Lemma newuname_reports_witness :
  let rel := bytes_of "6.8.0-usac" in let mach := bytes_of "i686" ++ [0] in
  wp (newuname rel 8 mach 4096)
     (fun r s' => utsname s' = utsname boot_uts /\
        (r = 0 -> k_user (u_k s') = reported rel 8 mach boot_uts (sample_task 1 301 201 0) 4096 /\
           forall x, x < 4096 \/ 4096 + 390 <= x -> k_user (u_k s') !! x = k_user (u_k boot_uts) !! x)) boot_uts.
Proof.
  intros rel mach. apply (newuname_reports rel 8 mach boot_uts (sample_task 1 301 201 0) 4096);
    [apply boot_uts_wf | reflexivity | vm_compute; lia].
Defined.
