(* ===== verification/Sysinfo.v ===== *)
(** System information: [sysinfo], its 32-bit form and [getcpu] of [kernel/sys.c]. *)

From S2P Require Import Prelude Uaccess Kernel.

(** [struct sysinfo] (112 bytes on a 64-bit machine) and [struct compat_sysinfo]. *)
Record sysinfo_t := mkSysinfo {
  uptime : Z; loads : Z * Z * Z;
  si_totalram : Z; si_freeram : Z; si_sharedram : Z; si_bufferram : Z;
  si_totalswap : Z; si_freeswap : Z;
  si_procs : Z;
  si_totalhigh : Z; si_freehigh : Z; mem_unit : Z;
}.
#[global] Instance eta_sysinfo : Eta sysinfo_t := fun i =>
  mkSysinfo (uptime i) (loads i) (si_totalram i) (si_freeram i) (si_sharedram i) (si_bufferram i)
    (si_totalswap i) (si_freeswap i) (si_procs i) (si_totalhigh i) (si_freehigh i) (mem_unit i).

(** Padding is zero: the structure is cleared first. *)
Definition sysinfo_image (i : sysinfo_t) : list Z :=
  let '(l0, l1, l2) := loads i in
  le_bytes 8 (uptime i) ++ le_bytes 8 l0 ++ le_bytes 8 l1 ++ le_bytes 8 l2 ++
  le_bytes 8 (si_totalram i) ++ le_bytes 8 (si_freeram i) ++ le_bytes 8 (si_sharedram i) ++
  le_bytes 8 (si_bufferram i) ++ le_bytes 8 (si_totalswap i) ++ le_bytes 8 (si_freeswap i) ++
  le_bytes 2 (si_procs i) ++ replicate 6 0 ++
  le_bytes 8 (si_totalhigh i) ++ le_bytes 8 (si_freehigh i) ++ le_bytes 4 (mem_unit i) ++ replicate 4 0.

Definition compat_sysinfo_image (i : sysinfo_t) : list Z :=
  let '(l0, l1, l2) := loads i in
  le_bytes 4 (uptime i) ++ le_bytes 4 l0 ++ le_bytes 4 l1 ++ le_bytes 4 l2 ++
  le_bytes 4 (si_totalram i) ++ le_bytes 4 (si_freeram i) ++ le_bytes 4 (si_sharedram i) ++
  le_bytes 4 (si_bufferram i) ++ le_bytes 4 (si_totalswap i) ++ le_bytes 4 (si_freeswap i) ++
  le_bytes 2 (si_procs i) ++ replicate 2 0 ++
  le_bytes 4 (si_totalhigh i) ++ le_bytes 4 (si_freehigh i) ++ le_bytes 4 (mem_unit i) ++ replicate 8 0.

(** What the rest of the kernel reports: the boot time of the caller's time
    namespace, the load averages, the number of threads, and the memory figures
    of [si_meminfo] and [si_swapinfo]. *)
Class SysinfoEnv := {
  boottime : kernel -> Z * Z;             (* tv_sec, tv_nsec *)
  avenrun : kernel -> Z * Z * Z;
  nr_threads_total : kernel -> Z;
  meminfo : kernel -> sysinfo_t -> sysinfo_t;
  smp_processor_id : kernel -> Z;
  cpu_to_node : Z -> Z;
}.

(** Apply a function to the eight memory figures. *)
Definition map_memory (f : Z -> Z) (i : sysinfo_t) : sysinfo_t :=
  i <| si_totalram ::= f |> <| si_freeram ::= f |> <| si_sharedram ::= f |> <| si_bufferram ::= f |>
    <| si_totalswap ::= f |> <| si_freeswap ::= f |> <| si_totalhigh ::= f |> <| si_freehigh ::= f |>.

(** [while (mem_unit > 1)]: the number of shifts, [None] when the total overflows. *)
Fixpoint count_bits {S} (fuel : nat) (unit bitcount mem_total : Z) : Kern S (option Z) :=
  match fuel with
  | O => crashed OutOfFuel
  | S fuel =>
      if 1 <? unit then
        let bitcount := bitcount + 1 in
        let unit := Z.shiftr unit 1 in
        let sav_total := mem_total in
        let mem_total := u64 (Z.shiftl mem_total 1) in
        if mem_total <? sav_total then mret None
        else count_bits fuel unit bitcount mem_total
      else mret (Some bitcount)
  end.

(** [while (s.mem_unit < PAGE_SIZE)]: the new unit and the number of shifts. *)
Fixpoint scale_unit {S} (fuel : nat) (unit bitcount : Z) : Kern S (Z * Z) :=
  match fuel with
  | O => crashed OutOfFuel
  | S fuel =>
      if unit <? PAGE_SIZE then scale_unit fuel (u32 (Z.shiftl unit 1)) (bitcount + 1)
      else mret (unit, bitcount)
  end.

(** A 32-bit unit reaches 1 after at most 31 shifts, and a page after at most 12. *)
Definition unit_fuel : nat := 33.

Section Calls.
Context `{UserArch} `{SysinfoEnv}.

Definition scale_memory (info : sysinfo_t) : Kern kernel sysinfo_t :=
  let mem_total := u64 (si_totalram info + si_totalswap info) in
  if (mem_total <? si_totalram info) || (mem_total <? si_totalswap info) then mret info
  else
  bitcount ← count_bits unit_fuel (mem_unit info) 0 mem_total;
  mret (match bitcount with
        | Some b => map_memory (fun x => u64 (Z.shiftl x b)) (info <| mem_unit := 1 |>)
        | None => info
        end).

Definition do_sysinfo : Kern kernel sysinfo_t :=
  k ← get;
  let '(tv_sec, tv_nsec) := boottime k in
  let info := mkSysinfo (tv_sec + (if truthy tv_nsec then 1 else 0)) (avenrun k) 0 0 0 0 0 0
                (u16 (nr_threads_total k)) 0 0 0 in
  scale_memory (meminfo k info).

Definition sysinfo (info : Z) : Kern kernel Z :=
  val ← do_sysinfo;
  uncopied ← k_copy_to_user info (sysinfo_image val);
  if truthy uncopied then mret (- EFAULT) else mret 0.

Definition upper_32_bits (x : Z) : Z := Z.shiftr x 32.

Definition scale_compat (s : sysinfo_t) : Kern kernel sysinfo_t :=
  if truthy (upper_32_bits (si_totalram s)) || truthy (upper_32_bits (si_totalswap s)) then
    '(unit, bitcount) ← scale_unit unit_fuel (mem_unit s) 0;
    mret (map_memory (fun x => Z.shiftr x bitcount) (s <| mem_unit := unit |>))
  else mret s.

Definition compat_sysinfo (info : Z) : Kern kernel Z :=
  s ← do_sysinfo;
  s ← scale_compat s;
  uncopied ← k_copy_to_user info (compat_sysinfo_image s);
  if truthy uncopied then mret (- EFAULT) else mret 0.

Definition getcpu (cpup nodep : Z) : Kern kernel Z :=
  cpu ← gets smp_processor_id;
  err ← (if truthy cpup then k_put_user 4 cpu cpup else mret 0);
  err' ← (if truthy nodep then k_put_user 4 (cpu_to_node cpu) nodep else mret 0);
  mret (if truthy (Z.lor err err') then - EFAULT else 0).

End Calls.

(** ** Properties *)

(** The memory a figure stands for, in bytes. *)
Definition in_bytes (i : sysinfo_t) (figure : sysinfo_t -> Z) : Z := figure i * mem_unit i.
Definition figures : list (sysinfo_t -> Z) :=
  [si_totalram; si_freeram; si_sharedram; si_bufferram; si_totalswap; si_freeswap; si_totalhigh; si_freehigh].

(** Plausible figures: free, shared and high memory are part of the total. *)
Record figures_ok (i : sysinfo_t) : Prop := {
  fo_nonneg : Forall (fun f => 0 <= f i) figures;
  fo_ram : si_freeram i <= si_totalram i /\ si_sharedram i <= si_totalram i /\ si_bufferram i <= si_totalram i /\
           si_totalhigh i <= si_totalram i /\ si_freehigh i <= si_totalram i;
  fo_swap : si_freeswap i <= si_totalswap i;
  fo_u64 : is_u64 (si_totalram i) /\ is_u64 (si_totalswap i);
}.

Lemma shl_overflow x : is_u64 x -> (u64 (Z.shiftl x 1) <? x) = negb (x <? 2 ^ 63).
Proof.
  unfold is_u64, u64. intros Hx. rewrite Z.shiftl_mul_pow2 by lia. change (2 ^ 1) with 2.
  destruct (Z.ltb_spec x (2 ^ 63)); cbn [negb].
  - rewrite Z.mod_small by lia. apply Z.ltb_ge. lia.
  - replace (x * 2) with ((x * 2 - 2 ^ 64) + 1 * 2 ^ 64) by lia. rewrite Z.mod_add by lia.
    rewrite Z.mod_small by lia. apply Z.ltb_lt. lia.
Qed.

(** The loop ends, and it detects an overflow of the product exactly. *)
Lemma count_bits_run {S} (s : S) b fuel c total :
  0 <= b < Z.of_nat fuel -> is_u64 total ->
  count_bits fuel (2 ^ b) c total s =
    Done (if total * 2 ^ b <? 2 ^ 64 then Some (c + b) else None) s.
Proof.
  revert b c total. induction fuel as [|fuel IH]; intros b c total Hb Ht; [lia|]. cbn [count_bits].
  destruct (decide (b = 0)) as [->|Hb0].
  - change (1 <? 2 ^ 0) with false. unfold is_u64 in Ht.
    rewrite (proj2 (Z.ltb_lt (total * 2 ^ 0) (2 ^ 64))) by lia. unfold mret, kern_ret. by rewrite Z.add_0_r.
  - assert (2 ^ b = 2 * 2 ^ (b - 1)) as Hpow by (rewrite <- Z.pow_succ_r by lia; f_equal; lia).
    pose proof (Z.pow_pos_nonneg 2 (b - 1) ltac:(lia) ltac:(lia)) as Hpos.
    rewrite (proj2 (Z.ltb_lt 1 (2 ^ b))) by lia. rewrite shl_overflow by done.
    destruct (Z.ltb_spec total (2 ^ 63)) as [Hlt|Hge]; cbn [negb].
    + assert (Z.shiftr (2 ^ b) 1 = 2 ^ (b - 1)) as ->.
      { rewrite Z.shiftr_div_pow2 by lia. change (2 ^ 1) with 2. rewrite Hpow.
        rewrite Z.mul_comm, Z.div_mul by lia. done. }
      assert (u64 (Z.shiftl total 1) = 2 * total) as ->.
      { unfold is_u64 in Ht. rewrite Z.shiftl_mul_pow2 by lia. change (2 ^ 1) with 2.
        rewrite u64_id by (unfold is_u64; lia). lia. }
      rewrite IH by (unfold is_u64 in *; lia). f_equal. rewrite Hpow.
      replace (2 * total * 2 ^ (b - 1)) with (total * (2 * 2 ^ (b - 1))) by lia.
      case_match; f_equal; lia.
    + rewrite (proj2 (Z.ltb_ge (total * 2 ^ b) (2 ^ 64))) by nia. done.
Qed.

(** the scaling of [do_sysinfo] terminates and loses nothing.  For a unit that
    is a power of two, if all of the memory and swap in bytes fits into 64 bits,
    the unit becomes 1 and every figure the same number of bytes; if it does not,
    nothing is changed.  Either way each figure stands for the same memory. *)
Theorem sysinfo_scaling_exact k info b :
  figures_ok info -> 0 <= b < 32 -> mem_unit info = 2 ^ b ->
  wp (scale_memory info)
     (fun info' k' => k' = k /\
        (if (si_totalram info + si_totalswap info) * 2 ^ b <? 2 ^ 64
         then mem_unit info' = 1 else info' = info) /\
        Forall (fun f => in_bytes info' f = in_bytes info f) figures) k.
Proof.
  intros [Hnn Hram Hswap [Hr Hs]] Hb Hu. unfold scale_memory.
  unfold figures in Hnn. rewrite !Forall_cons in Hnn. unfold is_u64 in Hr, Hs.
  pose proof (Z.pow_pos_nonneg 2 b ltac:(lia) ltac:(lia)) as Hpos.
  set (total := si_totalram info + si_totalswap info).
  assert (forall P, P -> P /\ Forall (fun f => in_bytes info f = in_bytes info f) figures) as Hsame
    by (intros P HP; split; [done|]; by repeat constructor).
  destruct (decide (total < 2 ^ 64)) as [Hsum|Hsum].
  2:{ (* the addition wraps *)
      assert (u64 total = total - 2 ^ 64) as ->.
      { unfold u64. replace total with ((total - 2 ^ 64) + 1 * 2 ^ 64) at 1 by lia.
        rewrite Z.mod_add, Z.mod_small by (unfold total; lia). done. }
      rewrite (proj2 (Z.ltb_lt (total - 2 ^ 64) (si_totalram info))) by (unfold total; lia). cbn [orb].
      rewrite wp_ret. rewrite (proj2 (Z.ltb_ge (total * 2 ^ b) (2 ^ 64))) by nia. by split_and!; repeat constructor. }
  rewrite u64_id by (unfold is_u64, total in *; lia).
  rewrite (proj2 (Z.ltb_ge total (si_totalram info))), (proj2 (Z.ltb_ge total (si_totalswap info))) by (unfold total; lia).
  cbn [orb]. rewrite wp_bind, Hu.
  rewrite (wp_run _ _ _ _ _ (count_bits_run k b unit_fuel 0 total ltac:(unfold unit_fuel; lia) ltac:(unfold is_u64, total in *; lia))).
  rewrite wp_ret. split; [done|].
  destruct (Z.ltb_spec (total * 2 ^ b) (2 ^ 64)) as [Hfit|Hover]; [|by split; [|repeat constructor]].
  split; [done|]. rewrite Z.add_0_l.
  assert (forall x, 0 <= x <= total -> u64 (Z.shiftl x b) * 1 = x * 2 ^ b) as Hscale.
  { intros x Hx. rewrite Z.shiftl_mul_pow2 by lia. rewrite u64_id by (unfold is_u64; nia). lia. }
  unfold in_bytes. rewrite Hu. unfold total in Hscale. repeat constructor; apply Hscale; lia.
Qed.

Lemma scale_unit_run {S} (s : S) d fuel c :
  0 <= d <= 12 -> d < Z.of_nat fuel ->
  scale_unit fuel (2 ^ (12 - d)) c s = Done (PAGE_SIZE, c + d) s.
Proof.
  revert d c. induction fuel as [|fuel IH]; intros d c Hd Hf; [lia|]. cbn [scale_unit].
  destruct (decide (d = 0)) as [->|Hd0].
  - change (2 ^ (12 - 0) <? PAGE_SIZE) with false. unfold mret, kern_ret. by rewrite Z.add_0_r.
  - assert (2 ^ (12 - d) < PAGE_SIZE) as Hlt.
    { change PAGE_SIZE with (2 ^ 12). apply Z.pow_lt_mono_r; lia. }
    rewrite (proj2 (Z.ltb_lt (2 ^ (12 - d)) PAGE_SIZE)) by done.
    assert (u32 (Z.shiftl (2 ^ (12 - d)) 1) = 2 ^ (12 - (d - 1))) as ->.
    { rewrite Z.shiftl_mul_pow2 by lia. change (2 ^ 1) with 2. unfold PAGE_SIZE in Hlt.
      pose proof (Z.pow_pos_nonneg 2 (12 - d) ltac:(lia) ltac:(lia)).
      rewrite u32_id by (unfold is_u32; lia). replace (12 - (d - 1)) with (Z.succ (12 - d)) by lia.
      rewrite Z.pow_succ_r by lia. lia. }
    rewrite IH by lia. do 2 f_equal. lia.
Qed.

(** the 32-bit form terminates and rounds down.  With a unit that is a power of
    two up to a page, every figure it returns stands for at most the memory it
    was, less than a page below it, and when ram and swap are below 16 TiB the
    totals fit into the 32-bit fields. *)
Theorem compat_sysinfo_rounds k info b :
  figures_ok info -> 0 <= b <= 12 -> mem_unit info = 2 ^ b ->
  wp (scale_compat info)
     (fun info' k' => k' = k /\
        Forall (fun f => in_bytes info f - PAGE_SIZE < in_bytes info' f <= in_bytes info f) figures /\
        (in_bytes info si_totalram < 2 ^ 44 -> in_bytes info si_totalswap < 2 ^ 44 ->
         is_u32 (si_totalram info') /\ is_u32 (si_totalswap info'))) k.
Proof.
  intros [Hnn _ _ [Hr Hs]] Hb Hu. unfold scale_compat, upper_32_bits.
  unfold figures in Hnn. rewrite !Forall_cons in Hnn. unfold is_u64 in Hr, Hs.
  assert (forall x, 0 <= x -> truthy (Z.shiftr x 32) = false -> is_u32 x) as Hsmall.
  { intros x Hx Ht. bool_facts. rewrite Z.shiftr_div_pow2 in Ht by lia. unfold is_u32.
    split; [done|]. pose proof (Z.mod_pos_bound x (2 ^ 32) ltac:(lia)). pose proof (Z.div_mod x (2 ^ 32) ltac:(lia)). lia. }
  destruct (truthy _ || truthy _) eqn:Hup.
  2:{ apply orb_false_iff in Hup as [Hu1 Hu2]. rewrite wp_ret. split_and!; [done| |].
      - unfold in_bytes, PAGE_SIZE. repeat constructor; lia.
      - intros _ _. split; by apply Hsmall; try lia. }
  rewrite wp_bind, Hu. replace (2 ^ b) with (2 ^ (12 - (12 - b))) by (f_equal; lia).
  rewrite (wp_run _ _ _ _ _ (scale_unit_run k (12 - b) unit_fuel 0 ltac:(lia) ltac:(unfold unit_fuel; lia))).
  rewrite wp_ret, Z.add_0_l. split; [done|].
  pose proof (Z.pow_pos_nonneg 2 b ltac:(lia) ltac:(lia)) as Hpb.
  pose proof (Z.pow_pos_nonneg 2 (12 - b) ltac:(lia) ltac:(lia)) as Hpd.
  assert (2 ^ (12 - b) * 2 ^ b = PAGE_SIZE) as Hpage.
  { rewrite <- Z.pow_add_r by lia. by replace (12 - b + b) with 12 by lia. }
  assert (forall x, x * 2 ^ b - PAGE_SIZE < Z.shiftr x (12 - b) * PAGE_SIZE <= x * 2 ^ b) as Hround.
  { intros x. rewrite Z.shiftr_div_pow2 by lia. pose proof (Z.div_mod x (2 ^ (12 - b)) ltac:(lia)) as Hdm.
    pose proof (Z.mod_pos_bound x (2 ^ (12 - b)) ltac:(lia)).
    set (q := x / 2 ^ (12 - b)) in *. set (r := x mod 2 ^ (12 - b)) in *. rewrite <- Hpage. nia. }
  unfold in_bytes. rewrite Hu. split; [repeat constructor; apply Hround|].
  assert (forall x, 0 <= x -> x * 2 ^ b < 2 ^ 44 -> is_u32 (Z.shiftr x (12 - b))) as Hfits.
  { intros x Hx Hlt. specialize (Hround x). unfold is_u32. split; [by apply Z.shiftr_nonneg|].
    unfold PAGE_SIZE in Hround. lia. }
  intros H1' H2'. split; apply Hfits; cbn; lia || done.
Qed.

(** ** Witnesses: 8 GiB of ram and 2 GiB of swap in pages *)
Definition sample_info : sysinfo_t := mkSysinfo 100 (1, 2, 3) 2097152 1048576 4096 8192 524288 524288 150 0 0 4096.
Definition sample_info_bytes : sysinfo_t := mkSysinfo 100 (1, 2, 3) 8589934592 4294967296 4096 8192 2147483648 2147483648 150 0 0 1.

Lemma sysinfo_scaling_exact_witness :
  wp (scale_memory sample_info)
     (fun info' k' => k' = sample_kernel ∅ /\
        (if (si_totalram sample_info + si_totalswap sample_info) * 2 ^ 12 <? 2 ^ 64
         then mem_unit info' = 1 else info' = sample_info) /\
        Forall (fun f => in_bytes info' f = in_bytes sample_info f) figures) (sample_kernel ∅).
Proof.
  apply (sysinfo_scaling_exact (sample_kernel ∅) sample_info 12); [|lia|reflexivity].
  split; cbn; unfold is_u64; repeat constructor; cbn; lia.
Defined.

Lemma compat_sysinfo_rounds_witness :
  wp (scale_compat sample_info_bytes)
     (fun info' k' => k' = sample_kernel ∅ /\
        Forall (fun f => in_bytes sample_info_bytes f - PAGE_SIZE < in_bytes info' f <= in_bytes sample_info_bytes f) figures /\
        (in_bytes sample_info_bytes si_totalram < 2 ^ 44 -> in_bytes sample_info_bytes si_totalswap < 2 ^ 44 ->
         is_u32 (si_totalram info') /\ is_u32 (si_totalswap info'))) (sample_kernel ∅).
Proof.
  apply (compat_sysinfo_rounds (sample_kernel ∅) sample_info_bytes 0); [|lia|reflexivity].
  split; cbn; unfold is_u64; repeat constructor; cbn; lia.
Defined.
