(* ===== verification/Rusage.v ===== *)
(** Resource usage: [times], [getrusage] and [umask] of [kernel/sys.c].

    The counters of a process are spread over its live threads, the signal struct
    (dead threads) and the fields for reaped children.  [getrusage] samples them
    without the lock first and, when a writer got in between, once more under the
    lock.  The writer is an arbitrary change of the state after the first sample.
    [force_successful_syscall_return] has no effect on the modelled state. *)

From S2P Require Import Prelude Uaccess Kernel.

Definition RUSAGE_SELF : Z := 0.
Definition RUSAGE_CHILDREN : Z := -1.
Definition RUSAGE_BOTH : Z := -2.
Definition RUSAGE_THREAD : Z := 1.
Definition S_IRWXUGO : Z := 511.

(** [struct rusage]; the fields Linux does not maintain are 0. *)
Record rusage := mkRusage {
  ru_utime : Z * Z; ru_stime : Z * Z; ru_maxrss : Z;
  ru_minflt : Z; ru_majflt : Z; ru_inblock : Z; ru_oublock : Z; ru_nvcsw : Z; ru_nivcsw : Z;
}.
#[global] Instance eta_rusage : Eta rusage := fun r =>
  mkRusage (ru_utime r) (ru_stime r) (ru_maxrss r) (ru_minflt r) (ru_majflt r)
    (ru_inblock r) (ru_oublock r) (ru_nvcsw r) (ru_nivcsw r).
Definition rusage_zero : rusage := mkRusage (0, 0) (0, 0) 0 0 0 0 0 0 0.

Definition rusage_image (r : rusage) : list Z :=
  le_bytes 8 (ru_utime r).1 ++ le_bytes 8 (ru_utime r).2 ++
  le_bytes 8 (ru_stime r).1 ++ le_bytes 8 (ru_stime r).2 ++
  le_bytes 8 (ru_maxrss r) ++ replicate 24 0 ++
  le_bytes 8 (ru_minflt r) ++ le_bytes 8 (ru_majflt r) ++ replicate 8 0 ++
  le_bytes 8 (ru_inblock r) ++ le_bytes 8 (ru_oublock r) ++ replicate 24 0 ++
  le_bytes 8 (ru_nvcsw r) ++ le_bytes 8 (ru_nivcsw r).

Record tms := mkTms { tms_utime : Z; tms_stime : Z; tms_cutime : Z; tms_cstime : Z }.
Definition tms_image (t : tms) : list Z :=
  le_bytes 8 (tms_utime t) ++ le_bytes 8 (tms_stime t) ++ le_bytes 8 (tms_cutime t) ++ le_bytes 8 (tms_cstime t).
Definition compat_tms_image (t : tms) : list Z :=
  le_bytes 4 (tms_utime t) ++ le_bytes 4 (tms_stime t) ++ le_bytes 4 (tms_cutime t) ++ le_bytes 4 (tms_cstime t).

(** [kernel/sched/cputime.c], [kernel/time/] and the I/O accounting. *)
Class TimeEnv := {
  thread_group_cputime_adjusted : kernel -> Z -> Z * Z;   (* user, system; in ns *)
  task_cputime_adjusted : kernel -> Z -> Z * Z;
  task_io_get_inblock : task_struct -> Z;
  task_io_get_oublock : task_struct -> Z;
  nsec_to_clock_t : Z -> Z;
  ns_to_kernel_old_timeval : Z -> Z * Z;
  jiffies : kernel -> Z;
  jiffies_64_to_clock_t : Z -> Z;
  clock_t_to_jiffies : Z -> Z;
  compat_jiffies_to_clock_t : Z -> Z;
  put_compat_rusage : rusage -> Z -> Kern kernel Z;
}.

Section Calls.
Context `{UserArch} `{KernelEnv} `{TimeEnv}.

Definition do_sys_times : Kern kernel tms :=
  p ← current;
  '(tgutime, tgstime) ← gets (fun k => thread_group_cputime_adjusted k p);
  t ← task_at p;
  s ← task_signal t;
  mret (mkTms (nsec_to_clock_t tgutime) (nsec_to_clock_t tgstime)
              (nsec_to_clock_t (cutime s)) (nsec_to_clock_t (cstime s))).

Definition times (tbuf : Z) : Kern kernel Z :=
  uncopied ← (if truthy tbuf then
                tmp ← do_sys_times;
                k_copy_to_user tbuf (tms_image tmp)
              else mret 0);
  if truthy uncopied then mret (- EFAULT)
  else gets (fun k => jiffies_64_to_clock_t (jiffies k)).

Definition clock_t_to_compat_clock_t (x : Z) : Z := compat_jiffies_to_clock_t (clock_t_to_jiffies x).

Definition compat_times (tbuf : Z) : Kern kernel Z :=
  uncopied ← (if truthy tbuf then
                t ← do_sys_times;
                k_copy_to_user tbuf
                  (compat_tms_image
                     (mkTms (clock_t_to_compat_clock_t (tms_utime t)) (clock_t_to_compat_clock_t (tms_stime t))
                            (clock_t_to_compat_clock_t (tms_cutime t)) (clock_t_to_compat_clock_t (tms_cstime t))))
              else mret 0);
  if truthy uncopied then mret (- EFAULT)
  else gets (fun k => compat_jiffies_to_clock_t (jiffies k)).

(** [r->ru_x += c.x] for the six counters. *)
Definition add_counters (c : counters) (r : rusage) : rusage :=
  r <| ru_nvcsw ::= fun x => s64 (x + nvcsw c) |> <| ru_nivcsw ::= fun x => s64 (x + nivcsw c) |>
    <| ru_minflt ::= fun x => s64 (x + min_flt c) |> <| ru_majflt ::= fun x => s64 (x + maj_flt c) |>
    <| ru_inblock ::= fun x => s64 (x + inblock c) |> <| ru_oublock ::= fun x => s64 (x + oublock c) |>.
Definition set_counters (c : counters) (r : rusage) : rusage :=
  r <| ru_nvcsw := s64 (nvcsw c) |> <| ru_nivcsw := s64 (nivcsw c) |>
    <| ru_minflt := s64 (min_flt c) |> <| ru_majflt := s64 (maj_flt c) |>
    <| ru_inblock := s64 (inblock c) |> <| ru_oublock := s64 (oublock c) |>.

(** The counters of a thread; the block counts come from its I/O accounting. *)
Definition thread_counters (t : task_struct) : counters :=
  let c := t_counters t in
  mkCounters (nvcsw c) (nivcsw c) (min_flt c) (maj_flt c) (task_io_get_inblock t) (task_io_get_oublock t).

Definition accumulate_thread_rusage (t : Z) (r : rusage) : Kern kernel rusage :=
  t ← task_at t; mret (add_counters (thread_counters t) r).

(** One sample of the shared counters, with the user and system time and the
    resident-set maximum. *)
Definition sample_rusage (sigp : Z) (who : Z) : Kern kernel (rusage * Z * Z * Z) :=
  sig ← signal_at sigp;
  let r := rusage_zero in
  if (who =? RUSAGE_BOTH) || (who =? RUSAGE_CHILDREN) || (who =? RUSAGE_SELF) then
    let children := (who =? RUSAGE_BOTH) || (who =? RUSAGE_CHILDREN) in
    let r := if children then set_counters (reaped sig) r else r in
    let utime := if children then cutime sig else 0 in
    let stime := if children then cstime sig else 0 in
    let rss := if children then cmaxrss sig else 0 in
    if who =? RUSAGE_CHILDREN then mret (r, utime, stime, rss)
    else
    let r := add_counters (dead sig) r in
    let rss := if rss <? maxrss sig then maxrss sig else rss in
    rcu_read_lock;;
    r ← for_each (thread_head sig) accumulate_thread_rusage r;
    rcu_read_unlock;;
    mret (r, utime, stime, rss)
  else crashed KernelBug.

(** The end of the routine: the high-water mark of the address space and the
    conversions. *)
Definition finish_rusage (p : Z) (use_mm : bool) (r : rusage) (utime stime rss : Z) : Kern kernel rusage :=
  rss ← (if use_mm then
           mm ← get_task_mm p;
           if truthy mm then
             m ← mm_at mm;
             mmput mm;;
             mret (setmax_mm_hiwater_rss rss m)
           else mret rss
         else mret rss);
  mret (r <| ru_maxrss := s64 (rss * (PAGE_SIZE / 1024)) |>
          <| ru_utime := ns_to_kernel_old_timeval utime |>
          <| ru_stime := ns_to_kernel_old_timeval stime |>).

(** [writer]: what a writer of the counters did during the first sample, if any;
    the sample is thrown away then. *)
Definition do_getrusage (writer : option (kernel -> kernel)) (p who : Z) : Kern kernel rusage :=
  t ← task_at p;
  let sigp := t_signal t in
  if who =? RUSAGE_THREAD then
    c ← current;
    '(utime, stime) ← gets (fun k => task_cputime_adjusted k c);
    r ← accumulate_thread_rusage p rusage_zero;
    sig ← signal_at sigp;
    finish_rusage p true r utime stime (maxrss sig)
  else
  first ← sample_rusage sigp who;
  '(r, utime, stime, rss) ←
    match writer with
    | Some w => modify w;; sample_rusage sigp who
    | None => mret first
    end;
  if who =? RUSAGE_CHILDREN then finish_rusage p false r utime stime rss
  else
  '(tgutime, tgstime) ← gets (fun k => thread_group_cputime_adjusted k p);
  finish_rusage p true r (u64 (utime + tgutime)) (u64 (stime + tgstime)) rss.

Definition getrusage (writer : option (kernel -> kernel)) (who ru : Z) : Kern kernel Z :=
  if negb (who =? RUSAGE_SELF) && negb (who =? RUSAGE_CHILDREN) && negb (who =? RUSAGE_THREAD) then mret (- EINVAL)
  else
  p ← current;
  r ← do_getrusage writer p who;
  uncopied ← k_copy_to_user ru (rusage_image r);
  if truthy uncopied then mret (- EFAULT) else mret 0.

Definition compat_getrusage (writer : option (kernel -> kernel)) (who ru : Z) : Kern kernel Z :=
  if negb (who =? RUSAGE_SELF) && negb (who =? RUSAGE_CHILDREN) && negb (who =? RUSAGE_THREAD) then mret (- EINVAL)
  else
  p ← current;
  r ← do_getrusage writer p who;
  put_compat_rusage r ru.

Definition umask (mask : Z) : Kern kernel Z :=
  t ← current_task;
  old ← gets (fun k => k_fs k !! t_fs t);
  old ← deref NullDeref old;
  modify (fun k => k <| k_fs ::= <[t_fs t := Z.land mask S_IRWXUGO]> |>);;
  mret old.

End Calls.

(** ** Properties *)

(** The counters a request adds up: those of reaped children, of dead threads and
    of the live threads. *)
Definition parts `{TimeEnv} (k : kernel) (sig : signal_struct) (who : Z) : list counters :=
  (if (who =? RUSAGE_BOTH) || (who =? RUSAGE_CHILDREN) then [reaped sig] else []) ++
  (if (who =? RUSAGE_BOTH) || (who =? RUSAGE_SELF)
   then dead sig :: omap (fun p => thread_counters <$> k_tasks k !! p) (thread_head sig) else []).

Definition total (f : counters -> Z) (l : list counters) : Z := foldr Z.add 0 (f <$> l).

(** The six fields of a result with the counters they report. *)
Definition reports (r : rusage) (l : list counters) : Prop :=
  ru_nvcsw r = s64 (total nvcsw l) /\ ru_nivcsw r = s64 (total nivcsw l) /\
  ru_minflt r = s64 (total min_flt l) /\ ru_majflt r = s64 (total maj_flt l) /\
  ru_inblock r = s64 (total inblock l) /\ ru_oublock r = s64 (total oublock l).

Lemma s64_add_l a b : s64 (s64 a + b) = s64 (a + b).
Proof.
  unfold s64. f_equal. replace ((a + 2 ^ 63) mod 2 ^ 64 - 2 ^ 63 + b + 2 ^ 63)
    with ((a + 2 ^ 63) mod 2 ^ 64 + b) by lia.
  rewrite Z.add_mod_idemp_l by lia. f_equal. lia.
Qed.

Lemma total_app f l1 l2 : total f (l1 ++ l2) = total f l1 + total f l2.
Proof. unfold total. rewrite fmap_app. induction l1; cbn in *; lia. Qed.

Lemma total_snoc f l c : total f (l ++ [c]) = total f l + f c.
Proof. rewrite total_app. unfold total. cbn. lia. Qed.

Lemma reports_add r l c : reports r l -> reports (add_counters c r) (l ++ [c]).
Proof.
  intros (E1 & E2 & E3 & E4 & E5 & E6). unfold reports. rewrite !total_snoc.
  cbn. rewrite E1, E2, E3, E4, E5, E6, !s64_add_l. done.
Qed.

Lemma reports_nil : reports rusage_zero [].
Proof. done. Qed.

Lemma reports_set c : reports (set_counters c rusage_zero) [c].
Proof. unfold reports, total. cbn. rewrite !Z.add_0_r. done. Qed.

Section Behaviour.
Context `{UserArch} `{KernelEnv} `{TimeEnv}.

(** A request for shared counters: not that of a single thread. *)
Definition shared (who : Z) : Prop := who = RUSAGE_BOTH \/ who = RUSAGE_CHILDREN \/ who = RUSAGE_SELF.

Definition threads_live (k : kernel) (sig : signal_struct) : Prop :=
  Forall (fun p => is_Some (k_tasks k !! p)) (thread_head sig).

Definition with_children (who : Z) (z : Z) : Z :=
  if (who =? RUSAGE_BOTH) || (who =? RUSAGE_CHILDREN) then z else 0.
Definition peak (sig : signal_struct) (who : Z) : Z :=
  let c := with_children who (cmaxrss sig) in
  if who =? RUSAGE_CHILDREN then c else Z.max c (maxrss sig).

Lemma rcu_balanced (k : kernel) : (k <| k_rcu ::= Z.succ |>) <| k_rcu ::= Z.pred |> = k.
Proof. destruct k. cbn. by rewrite Z.pred_succ. Qed.

Lemma accumulate_run k l r cs :
  Forall (fun p => is_Some (k_tasks k !! p)) l -> reports r cs ->
  exists r', for_each l accumulate_thread_rusage r k = Done r' k /\
    reports r' (cs ++ omap (fun p => thread_counters <$> k_tasks k !! p) l).
Proof.
  intros Hl. revert r cs. induction Hl as [|p l [t Ht] _ IH]; intros r cs Hr.
  { exists r. by rewrite app_nil_r. }
  destruct (IH (add_counters (thread_counters t) r) (cs ++ [thread_counters t])) as (r' & Hrun & Hr').
  { by apply reports_add. }
  exists r'. cbn [for_each omap list_omap]. rewrite Ht. cbn [fmap option_fmap option_map].
  split; [|by rewrite <- app_assoc in Hr'].
  erewrite bind_done; [exact Hrun|].
  unfold accumulate_thread_rusage, task_at. kernel_unfold. by rewrite Ht.
Qed.

(** The walk over the threads, inside its RCU section. *)
Lemma walk_run k l r cs :
  Forall (fun p => is_Some (k_tasks k !! p)) l -> reports r cs ->
  exists r', (forall A (c : rusage -> Kern kernel A),
      (rcu_read_lock;; r ← for_each l accumulate_thread_rusage r; rcu_read_unlock;; c r) k = c r' k) /\
    reports r' (cs ++ omap (fun p => thread_counters <$> k_tasks k !! p) l).
Proof.
  intros Hl Hr. pose (k1 := k <| k_rcu ::= Z.succ |>).
  assert (Forall (fun p => is_Some (k_tasks k1 !! p)) l) as Hl1 by exact Hl.
  destruct (accumulate_run k1 l r cs Hl1 Hr) as (r' & Hrun & Hr').
  exists r'. split; [|exact Hr']. intros A c.
  rewrite (bind_done rcu_read_lock _ k tt k1) by done.
  rewrite (bind_done _ _ k1 r' k1) by exact Hrun.
  rewrite (bind_done rcu_read_unlock _ k1 tt (k1 <| k_rcu ::= Z.pred |>)) by done.
  unfold k1. by rewrite rcu_balanced.
Qed.

Lemma sample_run k sigp sig who :
  k_signals k !! sigp = Some sig -> threads_live k sig -> shared who ->
  exists r, sample_rusage sigp who k
    = Done (r, with_children who (cutime sig), with_children who (cstime sig), peak sig who) k /\
    reports r (parts k sig who).
Proof.
  intros Hs Hl Hw. unfold sample_rusage.
  rewrite (bind_done (signal_at sigp) _ k sig k) by (unfold signal_at; kernel_unfold; by rewrite Hs).
  assert (forall a b, (if a <? b then b else a) = Z.max a b) as Hmax.
  { intros a b. destruct (Z.ltb_spec a b); lia. }
  destruct Hw as [-> | [-> | ->]].
  - change (parts k sig RUSAGE_BOTH) with ([reaped sig; dead sig] ++ omap (fun p => thread_counters <$> k_tasks k !! p) (thread_head sig)).
    destruct (walk_run k (thread_head sig) (add_counters (dead sig) (set_counters (reaped sig) rusage_zero))
      [reaped sig; dead sig] Hl) as (r & Hrun & Hr); [apply (reports_add _ [reaped sig]), reports_set|].
    exists r. split; [|exact Hr]. etransitivity; [apply Hrun|]. cbv beta. by rewrite Hmax.
  - eexists. split; [reflexivity|]. apply reports_set.
  - change (parts k sig RUSAGE_SELF) with ([dead sig] ++ omap (fun p => thread_counters <$> k_tasks k !! p) (thread_head sig)).
    destruct (walk_run k (thread_head sig) (add_counters (dead sig) rusage_zero) [dead sig] Hl)
      as (r & Hrun & Hr); [apply (reports_add _ []), reports_nil|].
    exists r. split; [|exact Hr]. etransitivity; [apply Hrun|]. cbv beta. by rewrite Hmax.
Qed.

(* get_task_mm() returns the task's own mm or NULL *)
Context (own_mm : forall t, get_task_mm_ptr t = t_mm t \/ get_task_mm_ptr t = 0).

(** The resident-set maximum with the high-water mark of the address space. *)
Definition peak_with_mm (k : kernel) (t : task_struct) (rss : Z) : Z :=
  if get_task_mm_ptr t =? 0 then rss
  else match k_mms k !! get_task_mm_ptr t with
       | Some m => Z.max rss (get_mm_hiwater_rss m)
       | None => rss
       end.

Definition finished (r : rusage) (utime stime rss : Z) : rusage :=
  r <| ru_maxrss := s64 (rss * (PAGE_SIZE / 1024)) |>
    <| ru_utime := ns_to_kernel_old_timeval utime |> <| ru_stime := ns_to_kernel_old_timeval stime |>.

(** The reference to the address space is dropped again. *)
Lemma finish_rusage_run k p t use_mm r utime stime rss :
  kernel_wf k -> k_tasks k !! p = Some t ->
  finish_rusage p use_mm r utime stime rss k
  = Done (finished r utime stime (if (use_mm : bool) then peak_with_mm k t rss else rss)) k.
Proof.
  intros Hk Ht. unfold finish_rusage. destruct use_mm; [|done].
  unfold peak_with_mm, get_task_mm, task_at. kernel_unfold. rewrite Ht. unfold truthy.
  destruct (Z.eqb_spec (get_task_mm_ptr t) 0) as [->|Hne]; [done|]. cbn [negb].
  assert (is_Some (k_mms k !! get_task_mm_ptr t)) as [m Hm].
  { destruct (own_mm t) as [E|E]; rewrite E in *; [|done]. by destruct (tw_mm _ _ (kw_tasks k Hk _ _ Ht)). }
  unfold mm_at, mmput, mm_at, put_mm. kernel_unfold. rewrite Hm.
  rewrite (proj2 (Z.eqb_neq _ _) Hne). cbn -[get_mm_hiwater_rss]. rewrite lookup_insert_eq. cbn -[get_mm_hiwater_rss].
  rewrite lookup_insert_eq. cbn -[get_mm_hiwater_rss].
  pose proof (kw_mms k Hk _ _ Hm). destruct (Z.eqb_spec (Z.succ (mm_users m)) 1); [lia|].
  f_equal.
  - unfold setmax_mm_hiwater_rss, finished. change (get_mm_hiwater_rss _) with (get_mm_hiwater_rss m).
    assert ((if rss <? get_mm_hiwater_rss m then get_mm_hiwater_rss m else rss) = Z.max rss (get_mm_hiwater_rss m))
      as -> by (destruct (Z.ltb_spec rss (get_mm_hiwater_rss m)); lia).
    done.
  - pose proof (mm_users_roundtrip k _ m Hm) as Hr. destruct k. cbn in *. by rewrite Hr.
Qed.

(** User and system time: of the reaped children, plus, unless only they are asked
    for, of the thread group. *)
Definition cpu_time (k : kernel) (p who : Z) (own : Z * Z -> Z) (children : Z) : Z :=
  if who =? RUSAGE_CHILDREN then children
  else u64 (with_children who children + own (thread_group_cputime_adjusted k p)).

Lemma getrusage_run k p t sig who :
  kernel_wf k -> k_tasks k !! p = Some t -> k_signals k !! t_signal t = Some sig ->
  threads_live k sig -> shared who ->
  exists r, reports r (parts k sig who) /\
    do_getrusage None p who k
    = Done (finished r (cpu_time k p who fst (cutime sig)) (cpu_time k p who snd (cstime sig))
              (if who =? RUSAGE_CHILDREN then peak sig who else peak_with_mm k t (peak sig who))) k.
Proof.
  intros Hk Ht Hs Hl Hw. destruct (sample_run k _ sig who Hs Hl Hw) as (r & Hrun & Hr).
  exists r. split; [done|]. unfold do_getrusage, cpu_time.
  rewrite (bind_done (task_at p) _ k t k) by (unfold task_at; kernel_unfold; by rewrite Ht). cbv zeta.
  assert ((who =? RUSAGE_THREAD) = false) as -> by (destruct Hw as [-> | [-> | ->]]; done).
  erewrite bind_done by exact Hrun. erewrite bind_done by done. cbv beta iota.
  destruct (Z.eqb_spec who RUSAGE_CHILDREN) as [->|_]; [by apply (finish_rusage_run k p t false)|].
  erewrite bind_done by done. destruct (thread_group_cputime_adjusted k p) as [u v].
  by apply (finish_rusage_run k p t true).
Qed.

(** [getrusage] adds the usage up.  For a process, its children or both, the
    six counters are the sums over the reaped children, the dead threads and the
    live threads that the request covers, wrapped to 64 bits; the memory maximum,
    in KB, takes in the high-water mark of the address space; and the state is as
    before, locks and the reference to the address space included. *)
Theorem getrusage_adds_up k p t sig who :
  kernel_wf k -> k_tasks k !! p = Some t -> k_signals k !! t_signal t = Some sig ->
  threads_live k sig -> shared who ->
  wp (do_getrusage None p who)
     (fun r k' => k' = k /\ reports r (parts k sig who) /\
        ru_utime r = ns_to_kernel_old_timeval (cpu_time k p who fst (cutime sig)) /\
        ru_stime r = ns_to_kernel_old_timeval (cpu_time k p who snd (cstime sig)) /\
        ru_maxrss r = s64 (4 * (if who =? RUSAGE_CHILDREN then peak sig who
                                else peak_with_mm k t (peak sig who)))) k.
Proof.
  intros Hk Ht Hs Hl Hw. destruct (getrusage_run k p t sig who Hk Ht Hs Hl Hw) as (r & Hr & Hrun).
  rewrite wp_run by exact Hrun. split_and!; [done|exact Hr|done..|].
  cbn. f_equal. rewrite Z.mul_comm. done.
Qed.

(** a torn sample is never used.  When a writer changes the counters during the
    lockless sample, the call does what it would have done from the state after
    the writer, as if the first sample had not been taken. *)
Theorem getrusage_discards_torn_sample k p t sig who w :
  k_tasks k !! p = Some t -> k_signals k !! t_signal t = Some sig ->
  threads_live k sig -> shared who -> t_signal <$> k_tasks (w k) !! p = Some (t_signal t) ->
  do_getrusage (Some w) p who k = do_getrusage None p who (w k).
Proof.
  intros Ht Hs Hl Hw Hsame. destruct (sample_run k _ sig who Hs Hl Hw) as (r & Hrun & _).
  destruct (k_tasks (w k) !! p) as [t'|] eqn:Ht'; [|done]. cbn in Hsame. injection Hsame as Hsame.
  unfold do_getrusage.
  rewrite (bind_done (task_at p) _ k t k) by (unfold task_at; kernel_unfold; by rewrite Ht).
  rewrite (bind_done (task_at p) _ (w k) t' (w k)) by (unfold task_at; kernel_unfold; by rewrite Ht').
  cbv zeta. rewrite Hsame.
  assert ((who =? RUSAGE_THREAD) = false) as -> by (destruct Hw as [-> | [-> | ->]]; done).
  erewrite bind_done by exact Hrun. kernel_unfold. by destruct (sample_rusage (t_signal t) who (w k)).
Qed.

(** The state with the file-creation mask of an [fs_struct] set. *)
Definition with_umask (k : kernel) (fs mask : Z) : kernel := k <| k_fs ::= <[fs := mask]> |>.

Lemma umask_run k t old mask :
  k_tasks k !! k_current k = Some t -> k_fs k !! t_fs t = Some old ->
  umask mask k = Done old (with_umask k (t_fs t) (Z.land mask S_IRWXUGO)).
Proof.
  intros Ht Ho. unfold umask, current_task, current, task_at. kernel_unfold. rewrite Ht, Ho. done.
Qed.

(** [umask] returns the old mask and installs the permission bits of the new
    one for every task that shares the [fs_struct]; the next call returns them. *)
Theorem umask_swaps k t old mask mask' :
  k_tasks k !! k_current k = Some t -> k_fs k !! t_fs t = Some old ->
  wp (umask mask)
     (fun r k1 => r = old /\ k_tasks k1 = k_tasks k /\
        (forall fs, k_fs k1 !! fs = if decide (fs = t_fs t) then Some (Z.land mask S_IRWXUGO) else k_fs k !! fs) /\
        wp (umask mask') (fun r' _ => r' = Z.land mask 511) k1) k.
Proof.
  intros Ht Ho. rewrite wp_run by (by apply umask_run). split_and!; [done..| |].
  - intros fs. unfold with_umask. cbn. rewrite lookup_insert. repeat case_decide; congruence.
  - rewrite wp_run; [|eapply umask_run; [exact Ht|apply lookup_insert_eq]]. done.
Qed.

Context `{!UserArchOk}.

(** the [getrusage] call.  A request other than self, children or thread is
    refused with -EINVAL and no change.  For the process and its children the
    record is copied out: 0 means all 144 bytes are there, and -EFAULT that only a
    first part is; nothing but user memory changes. *)
Theorem getrusage_call k t sig who ru :
  kernel_wf k -> k_tasks k !! k_current k = Some t -> k_signals k !! t_signal t = Some sig ->
  threads_live k sig -> who <> RUSAGE_THREAD ->
  wp (getrusage None who ru)
     (fun ret k' =>
        (ret = - EINVAL /\ k' = k /\ who <> RUSAGE_SELF /\ who <> RUSAGE_CHILDREN) \/
        exists r got, reports r (parts k sig who) /\ length (rusage_image r) = 144%nat /\ (got <= 144)%nat /\
          k' = user_accessed (write_bytes (k_user k) ru (take got (rusage_image r))) k /\
          ret = if decide (got = 144%nat) then 0 else - EFAULT) k.
Proof.
  intros Hk Ht Hs Hl Hth. unfold getrusage.
  destruct (negb (who =? RUSAGE_SELF) && negb (who =? RUSAGE_CHILDREN) && negb (who =? RUSAGE_THREAD)) eqn:Hwho.
  { rewrite wp_ret. left. bool_facts. done. }
  assert (shared who) as Hw.
  { unfold shared. destruct (Z.eqb_spec who RUSAGE_SELF), (Z.eqb_spec who RUSAGE_CHILDREN),
      (Z.eqb_spec who RUSAGE_THREAD); try done; auto. }
  destruct (getrusage_run k (k_current k) t sig who Hk Ht Hs Hl Hw) as (r & Hr & Hrun).
  rewrite wp_bind, (wp_run current _ k (k_current k) k) by done.
  rewrite wp_bind, wp_run by exact Hrun. apply wp_copy_out. intros got Hgot. right.
  assert (forall x, length (rusage_image x) = 144%nat) as Hlen.
  { intros x. unfold rusage_image. rewrite !length_app, !length_le_bytes, !length_replicate. done. }
  rewrite Hlen in *. eexists (finished r _ _ _), got. split_and!; [exact Hr|apply Hlen|done|reflexivity|done].
Qed.
End Behaviour.

(** ** Concrete runs *)
#[global] Instance sample_times : TimeEnv := {|
  thread_group_cputime_adjusted _ _ := (3000000, 1000000);
  task_cputime_adjusted _ _ := (2000000, 500000);
  task_io_get_inblock t := ioac_read_bytes (ioac t) / 512;
  task_io_get_oublock t := ioac_write_bytes (ioac t) / 512;
  nsec_to_clock_t ns := ns / 10000000;
  ns_to_kernel_old_timeval ns := (ns / 1000000000, ns mod 1000000000 / 1000);
  jiffies _ := 5000;
  jiffies_64_to_clock_t x := x;
  clock_t_to_jiffies x := x;
  compat_jiffies_to_clock_t x := x;
  put_compat_rusage _ _ := mret 0;
|}.

(** Two children were reaped and one thread has died. *)
Definition busy_signal : signal_struct :=
  (sample_signal 101 1) <| dead := mkCounters 5 2 40 1 0 8 |> <| reaped := mkCounters 7 3 90 4 16 0 |>
    <| cutime := 9000000 |> <| cmaxrss := 70 |> <| maxrss := 30 |>.
Definition busy_kernel : kernel :=
  (sample_kernel ∅) <| k_signals ::= <[201 := busy_signal]> |>.

Lemma busy_kernel_wf : kernel_wf busy_kernel.
Proof.
  destruct (sample_kernel_wf ∅) as [Wv Wt Wm Wr Wc Wp]. split; try done.
  - intros p t [Hu [s Hs] Hmm]%Wt. split; try done. unfold busy_kernel. cbn.
    rewrite lookup_insert. by case_decide.
  - intros p s. unfold busy_kernel. cbn -[sample_kernel]. rewrite lookup_insert. case_decide.
    + intros [= <-]. done.
    + apply Wr.
Qed.

Lemma busy_live : threads_live busy_kernel busy_signal.
Proof. repeat constructor. by eexists. Qed.

Lemma sample_own_mm t : let _ := sample_env 0 in get_task_mm_ptr t = t_mm t \/ get_task_mm_ptr t = 0.
Proof. cbn. case_match; auto. Qed.

Lemma getrusage_adds_up_witness :
  let _ := sample_env 0 in
  wp (do_getrusage None 101 RUSAGE_BOTH)
     (fun r k' => k' = busy_kernel /\ reports r (parts busy_kernel busy_signal RUSAGE_BOTH) /\
        ru_utime r = ns_to_kernel_old_timeval (cpu_time busy_kernel 101 RUSAGE_BOTH fst (cutime busy_signal)) /\
        ru_stime r = ns_to_kernel_old_timeval (cpu_time busy_kernel 101 RUSAGE_BOTH snd (cstime busy_signal)) /\
        ru_maxrss r = s64 (4 * (if RUSAGE_BOTH =? RUSAGE_CHILDREN then peak busy_signal RUSAGE_BOTH
          else peak_with_mm busy_kernel (sample_task 1 301 201 0) (peak busy_signal RUSAGE_BOTH)))) busy_kernel.
Proof.
  intros env. apply (getrusage_adds_up sample_own_mm busy_kernel 101 (sample_task 1 301 201 0) busy_signal).
  - exact busy_kernel_wf.
  - reflexivity.
  - reflexivity.
  - exact busy_live.
  - left. reflexivity.
Defined.

(** A child is reaped during the sample: its context switches are added. *)
Definition reaping (k : kernel) : kernel :=
  k <| k_signals ::= <[201 := busy_signal <| reaped := mkCounters 107 3 90 4 16 0 |>]> |>.

Lemma getrusage_discards_torn_sample_witness :
  let _ := sample_env 0 in
  do_getrusage (Some reaping) 101 RUSAGE_CHILDREN busy_kernel = do_getrusage None 101 RUSAGE_CHILDREN (reaping busy_kernel) /\
  (do_getrusage (Some reaping) 101 RUSAGE_CHILDREN busy_kernel <> do_getrusage None 101 RUSAGE_CHILDREN busy_kernel).
Proof.
  intros env. split.
  - apply (getrusage_discards_torn_sample busy_kernel 101 (sample_task 1 301 201 0) busy_signal);
      [reflexivity|reflexivity|exact busy_live|right; left; reflexivity|reflexivity].
  - vm_compute. discriminate.
Defined.

Lemma umask_swaps_witness :
  wp (umask 4095)
     (fun r k1 => r = 18 /\ k_tasks k1 = k_tasks busy_kernel /\
        (forall fs, k_fs k1 !! fs = if decide (fs = 400) then Some (Z.land 4095 S_IRWXUGO) else k_fs busy_kernel !! fs) /\
        wp (umask 0) (fun r' _ => r' = Z.land 4095 511) k1) busy_kernel.
Proof. apply (umask_swaps busy_kernel (sample_task 1 301 201 0) 18 4095 0); reflexivity. Defined.

Lemma getrusage_call_witness :
  let _ := sample_env 0 in
  let _ := simple_arch in
  wp (getrusage None RUSAGE_SELF 4096)
     (fun ret k' =>
        (ret = - EINVAL /\ k' = busy_kernel /\ RUSAGE_SELF <> RUSAGE_SELF /\ RUSAGE_SELF <> RUSAGE_CHILDREN) \/
        exists r got, reports r (parts busy_kernel busy_signal RUSAGE_SELF) /\ length (rusage_image r) = 144%nat /\
          (got <= 144)%nat /\
          k' = user_accessed (write_bytes (k_user busy_kernel) 4096 (take got (rusage_image r))) busy_kernel /\
          ret = if decide (got = 144%nat) then 0 else - EFAULT) busy_kernel.
Proof.
  intros env arch. apply (getrusage_call sample_own_mm busy_kernel (sample_task 1 301 201 0) busy_signal).
  - exact busy_kernel_wf.
  - reflexivity.
  - reflexivity.
  - exact busy_live.
  - discriminate.
Defined.
