(* ===== verification/Prctl.v ===== *)
(** Process control: [prctl] of [kernel/sys.c] with its helpers.

    The call changes fields of the calling task, its signal struct and its address
    space.  The semaphore [mmap_lock], the spin lock [arg_lock] and [task_lock] are
    not modelled: a call runs to its end before the next one.  The model is of a
    kernel with CONFIG_CHECKPOINT_RESTORE, CONFIG_ANON_VMA_NAME, CONFIG_SCHED_CORE
    and CONFIG_KSM, not for PA-RISC. *)

From S2P Require Import Prelude Uaccess Kernel.

(** ** Constants of the user interface ([prctl(2)]) *)
Definition PR_SET_PDEATHSIG : Z := 1.
Definition PR_GET_PDEATHSIG : Z := 2.
Definition PR_GET_DUMPABLE : Z := 3.
Definition PR_SET_DUMPABLE : Z := 4.
Definition PR_GET_TIMING : Z := 13.
Definition PR_SET_TIMING : Z := 14.
Definition PR_TIMING_STATISTICAL : Z := 0.
Definition PR_SET_NAME : Z := 15.
Definition PR_GET_NAME : Z := 16.
Definition PR_SET_TIMERSLACK : Z := 29.
Definition PR_GET_TIMERSLACK : Z := 30.
Definition PR_MCE_KILL : Z := 33.
Definition PR_MCE_KILL_GET : Z := 34.
Definition PR_MCE_KILL_CLEAR : Z := 0.
Definition PR_MCE_KILL_SET : Z := 1.
Definition PR_MCE_KILL_LATE : Z := 0.
Definition PR_MCE_KILL_EARLY : Z := 1.
Definition PR_MCE_KILL_DEFAULT : Z := 2.
Definition PR_SET_MM : Z := 35.
Definition PR_SET_CHILD_SUBREAPER : Z := 36.
Definition PR_GET_CHILD_SUBREAPER : Z := 37.
Definition PR_SET_NO_NEW_PRIVS : Z := 38.
Definition PR_GET_NO_NEW_PRIVS : Z := 39.
Definition PR_GET_TID_ADDRESS : Z := 40.
Definition PR_SET_THP_DISABLE : Z := 41.
Definition PR_GET_THP_DISABLE : Z := 42.
Definition PR_MPX_ENABLE_MANAGEMENT : Z := 43.
Definition PR_MPX_DISABLE_MANAGEMENT : Z := 44.
Definition PR_SET_IO_FLUSHER : Z := 57.
Definition PR_GET_IO_FLUSHER : Z := 58.
Definition PR_SET_MDWE : Z := 65.
Definition PR_GET_MDWE : Z := 66.
Definition PR_MDWE_REFUSE_EXEC_GAIN : Z := 1.
Definition PR_MDWE_NO_INHERIT : Z := 2.
Definition PR_SET_MEMORY_MERGE : Z := 67.
Definition PR_GET_MEMORY_MERGE : Z := 68.
Definition PR_GET_AUXV : Z := 1096112214.
Definition PR_SET_VMA : Z := 1398164801.
Definition PR_SET_VMA_ANON_NAME : Z := 0.

Definition PR_SET_MM_START_CODE : Z := 1.
Definition PR_SET_MM_END_CODE : Z := 2.
Definition PR_SET_MM_START_DATA : Z := 3.
Definition PR_SET_MM_END_DATA : Z := 4.
Definition PR_SET_MM_START_STACK : Z := 5.
Definition PR_SET_MM_START_BRK : Z := 6.
Definition PR_SET_MM_BRK : Z := 7.
Definition PR_SET_MM_ARG_START : Z := 8.
Definition PR_SET_MM_ARG_END : Z := 9.
Definition PR_SET_MM_ENV_START : Z := 10.
Definition PR_SET_MM_ENV_END : Z := 11.
Definition PR_SET_MM_AUXV : Z := 12.
Definition PR_SET_MM_EXE_FILE : Z := 13.
Definition PR_SET_MM_MAP : Z := 14.
Definition PR_SET_MM_MAP_SIZE : Z := 15.

Definition SUID_DUMP_DISABLE : Z := 0.
Definition SUID_DUMP_USER : Z := 1.
Definition _NSIG : Z := 64.
Definition TASK_COMM_LEN : Z := 16.
(* include/linux/sched.h *)
Definition PF_MCE_PROCESS : Z := 128.
Definition PF_MEMALLOC_NOIO : Z := 524288.
Definition PF_LOCAL_THROTTLE : Z := 1048576.
Definition PF_MCE_EARLY : Z := 134217728.
Definition PR_IO_FLUSHER : Z := Z.lor PF_MEMALLOC_NOIO PF_LOCAL_THROTTLE.

(** The controls an architecture may define; where it does not, the macro of
    [kernel/sys.c], or the weak function, returns -EINVAL. *)
Inductive arch_control :=
| SET_UNALIGN_CTL | GET_UNALIGN_CTL | SET_FPEMU_CTL | GET_FPEMU_CTL | SET_FPEXC_CTL | GET_FPEXC_CTL
| GET_ENDIAN | SET_ENDIAN | GET_TSC_CTL | SET_TSC_CTL | GET_FP_MODE | SET_FP_MODE
| SVE_SET_VL | SVE_GET_VL | SME_SET_VL | SME_GET_VL
| PAC_RESET_KEYS | PAC_SET_ENABLED_KEYS | PAC_GET_ENABLED_KEYS
| SET_TAGGED_ADDR_CTRL | GET_TAGGED_ADDR_CTRL | RISCV_V_SET_CONTROL | RISCV_V_GET_CONTROL
| arch_prctl_spec_ctrl_get | arch_prctl_spec_ctrl_set.

(** Services of other parts of the kernel the switch passes its arguments on to. *)
Inductive service :=
| prctl_get_seccomp | prctl_set_seccomp | perf_event_task_disable | perf_event_task_enable
| set_syscall_user_dispatch | sched_core_share_pid | ksm_enable_merge_any | ksm_disable_merge_any.

Class PrctlEnv := {
  TASK_SIZE : Z;
  mmap_min_addr : Z;
  AT_VECTOR_SIZE : Z;
  (* bit numbers of mm->flags, include/linux/sched/coredump.h *)
  MMF_DISABLE_THP : Z;
  MMF_HAS_MDWE : Z;
  MMF_HAS_MDWE_NO_INHERIT : Z;
  MMF_VM_MERGE_ANY : Z;
  get_dumpable : mm_struct -> Z;
  set_dumpable : Z -> mm_struct -> mm_struct;
  (* security/ and kernel/capability.c *)
  security_task_prctl : kernel -> Z -> Z -> Z -> Z -> Z -> Z;
  checkpoint_restore_ns_capable : kernel -> Z -> bool;
  (* fs/: the file of a descriptor, its type, mount and permission *)
  fdget : kernel -> Z -> option Z;
  S_ISREG : kernel -> Z -> bool;
  path_noexec : kernel -> Z -> bool;
  file_permission_exec : kernel -> Z -> Z;
  replace_mm_exe_file : Z -> Z -> Kern kernel Z;
  (* fs/exec.c: the name stored for a buffer *)
  set_task_comm : list Z -> task_struct -> task_struct;
  get_task_comm : task_struct -> list Z;
  (* lib/strncpy_from_user.c: the buffer after the call and the result *)
  strncpy_from_user : gmap Z Z -> Z -> Z -> list Z -> list Z * Z;
  (* mm/: strndup_user gives the string without its 0, or an error *)
  strndup_user : kernel -> Z -> Z -> Z + list Z;
  anon_vma_name_alloc : kernel -> list Z -> bool;
  madvise_set_anon_name : Z -> Z -> Z -> option (list Z) -> Kern kernel Z;
  find_vma : kernel -> Z -> Z -> bool;
  mmap_write_lock_killable : kernel -> bool;       (* interrupted *)
  (* kernel/fork.c, include/linux/pid.h *)
  walk_process_tree : Z -> (Z -> Kern kernel Z) -> Kern kernel unit;
  is_child_reaper : kernel -> Z -> bool;
  arch_defined : arch_control -> option (list Z -> Kern kernel Z);
  served : service -> list Z -> Kern kernel Z;
}.

(** [struct prctl_mm_map]: the addresses, the auxiliary vector and the new
    executable; 104 bytes. *)
Record prctl_mm_map := mkPrctlMap { map_layout : mm_layout; map_auxv : Z; map_auxv_size : Z; map_exe_fd : Z }.
Definition sizeof_prctl_mm_map : Z := 104.

(** The object an image of 104 bytes stands for. *)
Definition prctl_map_of (bs : list Z) : prctl_mm_map :=
  let w i := u64 (le_val (take 8 (drop (8 * i) bs))) in
  mkPrctlMap
    (mkLayout (w 0%nat) (w 1%nat) (w 2%nat) (w 3%nat) (w 4%nat) (w 5%nat) (w 6%nat)
              (w 7%nat) (w 8%nat) (w 9%nat) (w 10%nat))
    (w 11%nat) (u32 (le_val (take 4 (drop 96 bs)))) (u32 (le_val (take 4 (drop 100 bs)))).

(** The members [validate_prctl_map_addr] finds through its table of offsets. *)
Definition offsets : list (mm_layout -> Z) :=
  [start_code; end_code; start_data; end_data; start_brk; brk; start_stack;
   arg_start; arg_end; env_start; env_end].

Section Calls.
Context `{UserArch} `{KernelEnv} `{PrctlEnv}.

Definition current_mm : Kern kernel Z := t ← current_task; mret (t_mm t).

Definition prctl_set_mm_exe_file (mm fd : Z) : Kern kernel Z :=
  exe ← gets (fun k => fdget k fd);
  match exe with
  | None => mret (- EBADF)
  | Some file =>
      reg ← gets (fun k => S_ISREG k file);
      noexec ← gets (fun k => path_noexec k file);
      if negb reg || noexec then mret (- EACCES)
      else
      err ← gets (fun k => file_permission_exec k file);
      if truthy err then mret err else replace_mm_exe_file mm file
  end.

Definition check_order (ok : bool) : Z := if ok then 0 else - EINVAL.

Definition validate_prctl_map_addr (l : mm_layout) : Kern kernel Z :=
  let mmap_max_addr := TASK_SIZE in
  if existsb (fun member => (mmap_max_addr <=? member l) || (member l <? mmap_min_addr)) offsets
  then mret (- EINVAL)
  else
  let error := Z.lor (Z.lor (Z.lor (Z.lor
                 (check_order (start_code l <? end_code l))
                 (check_order (start_data l <=? end_data l)))
                 (check_order (start_brk l <=? brk l)))
                 (check_order (arg_start l <=? arg_end l)))
                 (check_order (env_start l <=? env_end l)) in
  if truthy error then mret error
  else
  limit ← current_rlimit RLIMIT_DATA;
  if truthy (check_data_rlimit limit (brk l) (start_brk l) (end_data l) (start_data l))
  then mret (- EINVAL)
  else mret 0.

Definition sizeof_auxv : Z := 8 * AT_VECTOR_SIZE.

(** A buffer of [AT_VECTOR_SIZE] words that starts with [bs], the rest and in any
    case the last two words 0. *)
Definition user_auxv (bs : list Z) : list Z :=
  take (Z.to_nat (sizeof_auxv - 16)) (bs ++ replicate (Z.to_nat (sizeof_auxv - blen bs)) 0) ++ replicate 16 0.

Definition set_layout (mm : Z) (l : mm_layout) : Kern kernel unit :=
  m ← mm_at mm; put_mm mm (m <| layout := l |>).
(** [memcpy(mm->saved_auxv, bs, len)]. *)
Definition set_saved_auxv (mm : Z) (bs : list Z) : Kern kernel unit :=
  m ← mm_at mm; put_mm mm (m <| saved_auxv ::= fun old => write_at old 0 bs |>).

(** The stages of [prctl_set_mm_map]: read the new auxiliary vector, replace the
    executable, store. *)
Definition map_read_auxv (map : prctl_mm_map) : Kern kernel (Z * list Z) :=
  let size := map_auxv_size map in
  if truthy size then
    if negb (truthy (map_auxv map)) || (sizeof_auxv <? size) then mret (- EINVAL, [])
    else
    '(aux, uncopied) ← k_copy_from_user (map_auxv map) size;
    mret (if truthy uncopied then - EFAULT else 0, aux)
  else mret (0, []).

Definition map_replace_exe (mm exe_fd : Z) : Kern kernel Z :=
  if negb (exe_fd =? 2 ^ 32 - 1) then
    t ← current_task;
    cap ← gets (fun k => checkpoint_restore_ns_capable k (c_user_ns (t_cred t)));
    if negb cap then mret (- EPERM) else prctl_set_mm_exe_file mm exe_fd
  else mret 0.

Definition map_store (mm : Z) (map : prctl_mm_map) (aux : list Z) : Kern kernel Z :=
  set_layout mm (map_layout map);;
  (if truthy (map_auxv_size map) then set_saved_auxv mm (user_auxv aux) else mret tt);;
  mret 0.

Definition prctl_set_mm_map (opt addr data_size : Z) : Kern kernel Z :=
  mm ← current_mm;
  if opt =? PR_SET_MM_MAP_SIZE then k_put_user 4 sizeof_prctl_mm_map addr
  else if negb (data_size =? sizeof_prctl_mm_map) then mret (- EINVAL)
  else
  '(bs, uncopied) ← k_copy_from_user addr sizeof_prctl_mm_map;
  if truthy uncopied then mret (- EFAULT)
  else
  let map := prctl_map_of bs in
  error ← validate_prctl_map_addr (map_layout map);
  if truthy error then mret error
  else
  '(error, aux) ← map_read_auxv map;
  if truthy error then mret error
  else
  error ← map_replace_exe mm (map_exe_fd map);
  if truthy error then mret error
  else map_store mm map aux.

Definition prctl_set_auxv (mm addr len : Z) : Kern kernel Z :=
  if sizeof_auxv <? len then mret (- EINVAL)
  else
  '(bs, uncopied) ← k_copy_from_user addr len;
  if truthy uncopied then mret (- EFAULT)
  else
  set_saved_auxv mm (take (Z.to_nat len) (user_auxv bs));;
  mret 0.

(** The first switch of [prctl_set_mm]: the member an option names. *)
Definition set_member (opt addr : Z) (l : mm_layout) : option mm_layout :=
  if opt =? PR_SET_MM_START_CODE then Some (l <| start_code := addr |>)
  else if opt =? PR_SET_MM_END_CODE then Some (l <| end_code := addr |>)
  else if opt =? PR_SET_MM_START_DATA then Some (l <| start_data := addr |>)
  else if opt =? PR_SET_MM_END_DATA then Some (l <| end_data := addr |>)
  else if opt =? PR_SET_MM_START_STACK then Some (l <| start_stack := addr |>)
  else if opt =? PR_SET_MM_START_BRK then Some (l <| start_brk := addr |>)
  else if opt =? PR_SET_MM_BRK then Some (l <| brk := addr |>)
  else if opt =? PR_SET_MM_ARG_START then Some (l <| arg_start := addr |>)
  else if opt =? PR_SET_MM_ARG_END then Some (l <| arg_end := addr |>)
  else if opt =? PR_SET_MM_ENV_START then Some (l <| env_start := addr |>)
  else if opt =? PR_SET_MM_ENV_END then Some (l <| env_end := addr |>)
  else None.

(** The second switch: the options that need a mapping at the address. *)
Definition needs_vma (opt : Z) : bool :=
  (opt =? PR_SET_MM_START_STACK) || (opt =? PR_SET_MM_ARG_START) || (opt =? PR_SET_MM_ARG_END) ||
  (opt =? PR_SET_MM_ENV_START) || (opt =? PR_SET_MM_ENV_END).

Definition prctl_set_mm (opt addr arg4 arg5 : Z) : Kern kernel Z :=
  mm ← current_mm;
  if truthy arg5 ||
     (truthy arg4 && (negb (opt =? PR_SET_MM_AUXV) && negb (opt =? PR_SET_MM_MAP) && negb (opt =? PR_SET_MM_MAP_SIZE)))
  then mret (- EINVAL)
  else if (opt =? PR_SET_MM_MAP) || (opt =? PR_SET_MM_MAP_SIZE) then prctl_set_mm_map opt addr arg4
  else
  cap ← gets (fun k => capable k CAP_SYS_RESOURCE);
  if negb cap then mret (- EPERM)
  else if opt =? PR_SET_MM_EXE_FILE then prctl_set_mm_exe_file mm (u32 addr)
  else if opt =? PR_SET_MM_AUXV then prctl_set_auxv mm addr arg4
  else if (TASK_SIZE <=? addr) || (addr <? mmap_min_addr) then mret (- EINVAL)
  else
  vma ← gets (fun k => find_vma k mm addr);
  m ← mm_at mm;
  match set_member opt addr (layout m) with
  | None => mret (- EINVAL)
  | Some l =>
      error ← validate_prctl_map_addr l;
      if truthy error then mret error
      else if needs_vma opt && negb vma then mret (- EFAULT)
      else set_layout mm l;; mret 0
  end.

Definition prctl_get_tid_address (me tid_addr : Z) : Kern kernel Z :=
  t ← task_at me; k_put_user 8 (clear_child_tid t) tid_addr.

(** The visitor of the process tree: 1 to descend, 0 to skip. *)
Definition propagate_has_child_subreaper (p : Z) : Kern kernel Z :=
  t ← task_at p;
  s ← task_signal t;
  reaper ← gets (fun k => is_child_reaper k (t_pid t));
  if has_child_subreaper s || reaper then mret 0
  else put_signal (t_signal t) (s <| has_child_subreaper := true |>);; mret 1.

Definition ANON_VMA_NAME_MAX_LEN : Z := 80.
(* backslash, backquote, dollar, brackets *)
Definition ANON_VMA_NAME_INVALID_CHARS : list Z := [92; 96; 36; 91; 93].

Definition is_valid_name_char (ch : Z) : bool :=
  (31 <? ch) && (ch <? 127) && negb (bool_decide (ch ∈ ANON_VMA_NAME_INVALID_CHARS)).

Definition prctl_set_vma (opt addr size arg : Z) : Kern kernel Z :=
  mm ← current_mm;
  if opt =? PR_SET_VMA_ANON_NAME then
    if truthy arg then
      name ← gets (fun k => strndup_user k arg ANON_VMA_NAME_MAX_LEN);
      match name with
      | inl err => mret err
      | inr name =>
          if negb (forallb is_valid_name_char name) then mret (- EINVAL)
          else
          ok ← gets (fun k => anon_vma_name_alloc k name);
          if negb ok then mret (- ENOMEM) else madvise_set_anon_name mm addr size (Some name)
      end
    else madvise_set_anon_name mm addr size None
  else mret (- EINVAL).

Definition mdwe_bits (m : mm_struct) : Z :=
  Z.lor (if test_bit MMF_HAS_MDWE (mm_flags m) then PR_MDWE_REFUSE_EXEC_GAIN else 0)
        (if test_bit MMF_HAS_MDWE_NO_INHERIT (mm_flags m) then PR_MDWE_NO_INHERIT else 0).
Definition get_current_mdwe : Kern kernel Z := mm ← current_mm; m ← mm_at mm; mret (mdwe_bits m).

Definition prctl_set_mdwe (bits arg3 arg4 arg5 : Z) : Kern kernel Z :=
  if truthy arg3 || truthy arg4 || truthy arg5 then mret (- EINVAL)
  else if truthy (Z.land bits (Z.lnot (Z.lor PR_MDWE_REFUSE_EXEC_GAIN PR_MDWE_NO_INHERIT))) then mret (- EINVAL)
  else if truthy (Z.land bits PR_MDWE_NO_INHERIT) && negb (truthy (Z.land bits PR_MDWE_REFUSE_EXEC_GAIN))
  then mret (- EINVAL)
  else
  current_bits ← get_current_mdwe;
  if truthy current_bits && negb (current_bits =? bits) then mret (- EPERM)
  else
  mm ← current_mm;
  m ← mm_at mm;
  let m := if truthy (Z.land bits PR_MDWE_NO_INHERIT) then m <| mm_flags ::= set_bit MMF_HAS_MDWE_NO_INHERIT |> else m in
  let m := if truthy (Z.land bits PR_MDWE_REFUSE_EXEC_GAIN) then m <| mm_flags ::= set_bit MMF_HAS_MDWE |> else m in
  put_mm mm m;;
  mret 0.

Definition prctl_get_mdwe (arg2 arg3 arg4 arg5 : Z) : Kern kernel Z :=
  if truthy arg2 || truthy arg3 || truthy arg4 || truthy arg5 then mret (- EINVAL) else get_current_mdwe.

Definition prctl_get_auxv (addr len : Z) : Kern kernel Z :=
  mm ← current_mm;
  m ← mm_at mm;
  let size := Z.min sizeof_auxv len in
  uncopied ← (if truthy size then k_copy_to_user addr (take (Z.to_nat size) (saved_auxv m)) else mret 0);
  if truthy uncopied then mret (- EFAULT) else mret sizeof_auxv.

(** What [current->field = v] does. *)
Definition set_current (f : task_struct -> task_struct) : Kern kernel unit :=
  p ← current; t ← task_at p; put_task p (f t).

Definition arch_ctl (c : arch_control) (args : list Z) : Kern kernel Z :=
  match arch_defined c with Some f => f args | None => mret (- EINVAL) end.

(** ** The switch, by groups of cases; each ends in the cases that follow. *)

(** [PR_SET_PDEATHSIG] to [PR_SET_DUMPABLE]. *)
Definition prctl_signal_dump (option arg2 : Z) (rest : Kern kernel Z) : Kern kernel Z :=
  if option =? PR_SET_PDEATHSIG then
    if negb (arg2 <=? _NSIG) then mret (- EINVAL)
    else set_current (fun t => t <| pdeath_signal := s32 arg2 |>);; mret 0
  else if option =? PR_GET_PDEATHSIG then t ← current_task; k_put_user 4 (pdeath_signal t) arg2
  else if option =? PR_GET_DUMPABLE then mm ← current_mm; m ← mm_at mm; mret (get_dumpable m)
  else if option =? PR_SET_DUMPABLE then
    if negb (arg2 =? SUID_DUMP_DISABLE) && negb (arg2 =? SUID_DUMP_USER) then mret (- EINVAL)
    else mm ← current_mm; m ← mm_at mm; put_mm mm (set_dumpable arg2 m);; mret 0
  else rest.

(** [PR_GET_TIMING] to [PR_GET_NAME], and the timer slack. *)
Definition prctl_name_time (option arg2 : Z) (rest : Kern kernel Z) : Kern kernel Z :=
  if option =? PR_GET_TIMING then mret PR_TIMING_STATISTICAL
  else if option =? PR_SET_TIMING then mret (if negb (arg2 =? PR_TIMING_STATISTICAL) then - EINVAL else 0)
  else if option =? PR_SET_NAME then
    k ← get;
    let '(buf, res) := strncpy_from_user (k_user k) arg2 (TASK_COMM_LEN - 1)
                         (replicate (Z.to_nat (TASK_COMM_LEN - 1)) 0) in
    if res <? 0 then mret (- EFAULT)
    else set_current (set_task_comm (buf ++ [0]));; mret 0
  else if option =? PR_GET_NAME then
    t ← current_task;
    uncopied ← k_copy_to_user arg2 (get_task_comm t);
    if truthy uncopied then mret (- EFAULT) else mret 0
  else if option =? PR_GET_TIMERSLACK then t ← current_task; mret (s64 (timer_slack_ns t))
  else if option =? PR_SET_TIMERSLACK then
    set_current (fun t => t <| timer_slack_ns := if arg2 <=? 0 then default_timer_slack_ns t else arg2 |>);; mret 0
  else rest.

(** [PR_MCE_KILL] and [PR_MCE_KILL_GET]. *)
Definition set_flags (on off : Z) (t : task_struct) : task_struct :=
  t <| flags ::= fun f => Z.land (Z.lor f on) (Z.lnot off) |>.
Definition prctl_mce (option arg2 arg3 arg4 arg5 : Z) (rest : Kern kernel Z) : Kern kernel Z :=
  if option =? PR_MCE_KILL then
    if truthy (Z.lor arg4 arg5) then mret (- EINVAL)
    else if arg2 =? PR_MCE_KILL_CLEAR then
      if negb (arg3 =? 0) then mret (- EINVAL) else set_current (set_flags 0 PF_MCE_PROCESS);; mret 0
    else if arg2 =? PR_MCE_KILL_SET then
      set_current (set_flags PF_MCE_PROCESS 0);;
      if arg3 =? PR_MCE_KILL_EARLY then set_current (set_flags PF_MCE_EARLY 0);; mret 0
      else if arg3 =? PR_MCE_KILL_LATE then set_current (set_flags 0 PF_MCE_EARLY);; mret 0
      else if arg3 =? PR_MCE_KILL_DEFAULT then
        set_current (set_flags 0 (Z.lor PF_MCE_EARLY PF_MCE_PROCESS));; mret 0
      else mret (- EINVAL)
    else mret (- EINVAL)
  else if option =? PR_MCE_KILL_GET then
    if truthy (Z.lor (Z.lor (Z.lor arg2 arg3) arg4) arg5) then mret (- EINVAL)
    else
    t ← current_task;
    mret (if truthy (Z.land (flags t) PF_MCE_PROCESS)
          then if truthy (Z.land (flags t) PF_MCE_EARLY) then PR_MCE_KILL_EARLY else PR_MCE_KILL_LATE
          else PR_MCE_KILL_DEFAULT)
  else rest.

(** [if (arg || ...) return -EINVAL;] in front of a case. *)
Definition unused (args : list Z) (m : Kern kernel Z) : Kern kernel Z :=
  if existsb truthy args then mret (- EINVAL) else m.

(** The cases an architecture defines, by the number of the option. *)
Definition prctl_arch (option arg2 arg3 arg4 arg5 : Z) (rest : Kern kernel Z) : Kern kernel Z :=
  match option with
  | 5 => arch_ctl GET_UNALIGN_CTL [arg2]
  | 6 => arch_ctl SET_UNALIGN_CTL [arg2]
  | 9 => arch_ctl GET_FPEMU_CTL [arg2]
  | 10 => arch_ctl SET_FPEMU_CTL [arg2]
  | 11 => arch_ctl GET_FPEXC_CTL [arg2]
  | 12 => arch_ctl SET_FPEXC_CTL [arg2]
  | 19 => arch_ctl GET_ENDIAN [arg2]
  | 20 => arch_ctl SET_ENDIAN [arg2]
  | 25 => arch_ctl GET_TSC_CTL [arg2]
  | 26 => arch_ctl SET_TSC_CTL [arg2]
  | 45 => arch_ctl SET_FP_MODE [arg2]
  | 46 => arch_ctl GET_FP_MODE []
  | 50 => arch_ctl SVE_SET_VL [arg2]
  | 51 => arch_ctl SVE_GET_VL []
  | 63 => arch_ctl SME_SET_VL [arg2]
  | 64 => arch_ctl SME_GET_VL []
  | 52 => unused [arg3; arg4; arg5] (arch_ctl arch_prctl_spec_ctrl_get [arg2])
  | 53 => unused [arg4; arg5] (arch_ctl arch_prctl_spec_ctrl_set [arg2; arg3])
  | 54 => unused [arg3; arg4; arg5] (arch_ctl PAC_RESET_KEYS [arg2])
  | 60 => unused [arg4; arg5] (arch_ctl PAC_SET_ENABLED_KEYS [arg2; arg3])
  | 61 => unused [arg2; arg3; arg4; arg5] (arch_ctl PAC_GET_ENABLED_KEYS [])
  | 55 => unused [arg3; arg4; arg5] (arch_ctl SET_TAGGED_ADDR_CTRL [arg2])
  | 56 => unused [arg2; arg3; arg4; arg5] (arch_ctl GET_TAGGED_ADDR_CTRL [])
  | 69 => arch_ctl RISCV_V_SET_CONTROL [arg2]
  | 70 => arch_ctl RISCV_V_GET_CONTROL []
  | _ => rest
  end.

(** The cases other parts of the kernel serve. *)
Definition prctl_service (option arg2 arg3 arg4 arg5 : Z) (rest : Kern kernel Z) : Kern kernel Z :=
  match option with
  | 21 => served prctl_get_seccomp []
  | 22 => served prctl_set_seccomp [arg2; arg3]
  | 31 => served perf_event_task_disable []
  | 32 => served perf_event_task_enable []
  | 59 => served set_syscall_user_dispatch [arg2; arg3; arg4; arg5]
  | 62 => served sched_core_share_pid [arg2; arg3; arg4; arg5]
  | _ => rest
  end.

(** [PR_SET_MM] to [PR_GET_NO_NEW_PRIVS]. *)
Definition prctl_process (option arg2 arg3 arg4 arg5 : Z) (rest : Kern kernel Z) : Kern kernel Z :=
  if option =? PR_SET_MM then prctl_set_mm (s32 arg2) arg3 arg4 arg5
  else if option =? PR_GET_TID_ADDRESS then me ← current; prctl_get_tid_address me arg2
  else if option =? PR_SET_CHILD_SUBREAPER then
    me ← current;
    t ← task_at me;
    s ← task_signal t;
    put_signal (t_signal t) (s <| is_child_subreaper := truthy arg2 |>);;
    if negb (truthy arg2) then mret 0
    else walk_process_tree me propagate_has_child_subreaper;; mret 0
  else if option =? PR_GET_CHILD_SUBREAPER then
    t ← current_task; s ← task_signal t; k_put_user 4 (c_bool (is_child_subreaper s)) arg2
  else if option =? PR_SET_NO_NEW_PRIVS then
    if negb (arg2 =? 1) then mret (- EINVAL)
    else unused [arg3; arg4; arg5] (set_current task_set_no_new_privs;; mret 0)
  else if option =? PR_GET_NO_NEW_PRIVS then
    unused [arg2; arg3; arg4; arg5] (t ← current_task; mret (c_bool (task_no_new_privs t)))
  else rest.

(** [PR_GET_THP_DISABLE] to [PR_GET_IO_FLUSHER]. *)
Definition prctl_thp_io (option arg2 arg3 arg4 arg5 : Z) (rest : Kern kernel Z) : Kern kernel Z :=
  if option =? PR_GET_THP_DISABLE then
    unused [arg2; arg3; arg4; arg5]
      (mm ← current_mm; m ← mm_at mm; mret (c_bool (test_bit MMF_DISABLE_THP (mm_flags m))))
  else if option =? PR_SET_THP_DISABLE then
    unused [arg3; arg4; arg5]
      (interrupted ← gets mmap_write_lock_killable;
       if (interrupted : bool) then mret (- EINTR)
       else
       mm ← current_mm;
       m ← mm_at mm;
       put_mm mm (m <| mm_flags ::= if truthy arg2 then set_bit MMF_DISABLE_THP else clear_bit MMF_DISABLE_THP |>);;
       mret 0)
  else if (option =? PR_MPX_ENABLE_MANAGEMENT) || (option =? PR_MPX_DISABLE_MANAGEMENT) then mret (- EINVAL)
  else if option =? PR_SET_IO_FLUSHER then
    cap ← gets (fun k => capable k CAP_SYS_RESOURCE);
    if negb cap then mret (- EPERM)
    else unused [arg3; arg4; arg5]
      (if arg2 =? 1 then set_current (set_flags PR_IO_FLUSHER 0);; mret 0
       else if negb (truthy arg2) then set_current (set_flags 0 PR_IO_FLUSHER);; mret 0
       else mret (- EINVAL))
  else if option =? PR_GET_IO_FLUSHER then
    cap ← gets (fun k => capable k CAP_SYS_RESOURCE);
    if negb cap then mret (- EPERM)
    else unused [arg2; arg3; arg4; arg5]
      (t ← current_task; mret (c_bool (Z.land (flags t) PR_IO_FLUSHER =? PR_IO_FLUSHER)))
  else rest.

(** [PR_SET_MDWE] to [PR_GET_MEMORY_MERGE]. *)
Definition prctl_memory (option arg2 arg3 arg4 arg5 : Z) (rest : Kern kernel Z) : Kern kernel Z :=
  if option =? PR_SET_MDWE then prctl_set_mdwe arg2 arg3 arg4 arg5
  else if option =? PR_GET_MDWE then prctl_get_mdwe arg2 arg3 arg4 arg5
  else if option =? PR_SET_VMA then prctl_set_vma arg2 arg3 arg4 arg5
  else if option =? PR_GET_AUXV then unused [arg4; arg5] (prctl_get_auxv arg2 arg3)
  else if option =? PR_SET_MEMORY_MERGE then
    unused [arg3; arg4; arg5]
      (interrupted ← gets mmap_write_lock_killable;
       if (interrupted : bool) then mret (- EINTR)
       else
       mm ← current_mm;
       served (if truthy arg2 then ksm_enable_merge_any else ksm_disable_merge_any) [mm])
  else if option =? PR_GET_MEMORY_MERGE then
    unused [arg2; arg3; arg4; arg5]
      (mm ← current_mm; m ← mm_at mm; mret (c_bool (test_bit MMF_VM_MERGE_ANY (mm_flags m))))
  else rest.

Definition prctl (option arg2 arg3 arg4 arg5 : Z) : Kern kernel Z :=
  error ← gets (fun k => security_task_prctl k option arg2 arg3 arg4 arg5);
  if negb (error =? - ENOSYS) then mret error
  else
  prctl_signal_dump option arg2 (
  prctl_arch option arg2 arg3 arg4 arg5 (
  prctl_name_time option arg2 (
  prctl_service option arg2 arg3 arg4 arg5 (
  prctl_mce option arg2 arg3 arg4 arg5 (
  prctl_process option arg2 arg3 arg4 arg5 (
  prctl_thp_io option arg2 arg3 arg4 arg5 (
  prctl_memory option arg2 arg3 arg4 arg5 (
  mret (- EINVAL))))))))).

End Calls.

(** ** What no call may weaken *)
Section Guards.
Context `{PrctlEnv}.

(** All addresses lie in the user range and the pairs are ordered. *)
Record layout_ok (l : mm_layout) : Prop := {
  lo_range : Forall (fun member => mmap_min_addr <= member l < TASK_SIZE) offsets;
  lo_code : start_code l < end_code l;
  lo_data : start_data l <= end_data l;
  lo_brk : start_brk l <= brk l;
  lo_arg : arg_start l <= arg_end l;
  lo_env : env_start l <= env_end l;
}.

(** An auxiliary vector of full length that ends with an [AT_NULL] entry. *)
Definition auxv_ok (aux : list Z) : Prop :=
  length aux = Z.to_nat sizeof_auxv /\
  forall i : nat, (Z.to_nat (sizeof_auxv - 16) <= i < Z.to_nat sizeof_auxv)%nat -> aux !! i = Some 0.

Record task_guard (t t' : task_struct) : Prop := {
  tg_nnp : task_no_new_privs t = true -> task_no_new_privs t' = true;
  tg_mm : t_mm t' = t_mm t;
  tg_signal : t_signal t' = t_signal t;
  tg_usage : usage t' = usage t;
}.

Record mm_guard (m m' : mm_struct) : Prop := {
  mg_mdwe : mdwe_bits m <> 0 -> mdwe_bits m' = mdwe_bits m;
  mg_layout : layout m' = layout m \/ layout_ok (layout m');
  mg_auxv : auxv_ok (saved_auxv m) -> auxv_ok (saved_auxv m');
  mg_users : mm_users m' = mm_users m;
}.

Record guarded (k k' : kernel) : Prop := {
  gd_current : k_current k' = k_current k;
  gd_tasks p t : k_tasks k !! p = Some t -> exists t', k_tasks k' !! p = Some t' /\ task_guard t t';
  gd_mms q m : k_mms k !! q = Some m -> exists m', k_mms k' !! q = Some m' /\ mm_guard m m';
}.

#[global] Instance task_guard_preorder : PreOrder task_guard.
Proof.
  split; [by split|]. intros t1 t2 t3 [A1 B1 C1 D1] [A2 B2 C2 D2]. split; try congruence. auto.
Qed.

#[global] Instance mm_guard_preorder : PreOrder mm_guard.
Proof.
  split; [split; auto|]. intros m1 m2 m3 [A1 B1 C1 D1] [A2 B2 C2 D2]. split; auto; try congruence.
  - intros Hne. rewrite <- (A1 Hne). apply A2. by rewrite A1.
  - destruct B2 as [->|]; auto.
Qed.

#[global] Instance guarded_preorder : PreOrder guarded.
Proof.
  split.
  - intros k. split; [done|..]; intros q x Hx; exists x; by split.
  - intros k1 k2 k3 [A1 B1 C1] [A2 B2 C2]. split; [congruence|..].
    + intros p t (t1 & Ht1 & G1)%B1. destruct (B2 _ _ Ht1) as (t2 & Ht2 & G2). exists t2. split; [done|by etransitivity].
    + intros q m (m1 & Hm1 & G1)%C1. destruct (C2 _ _ Hm1) as (m2 & Hm2 & G2). exists m2. split; [done|by etransitivity].
Qed.

(** A well-formed state whose caller is a user process. *)
Record user_state (k : kernel) : Prop := {
  us_wf : kernel_wf k;
  us_mm t : k_tasks k !! k_current k = Some t -> t_mm t <> 0;
}.

(** [m] returns from [k], the state stays well formed and nothing is weakened. *)
Definition good {A} (k : kernel) (m : Kern kernel A) : Prop :=
  wp m (fun _ k' => user_state k' /\ guarded k k') k.

Lemma pgood_ret {A} k (a : A) : user_state k -> good k (mret a).
Proof. intros Hk. split; [done|reflexivity]. Qed.

Lemma pgood_bind {A B} k (m : Kern kernel A) (f : A -> Kern kernel B) :
  good k m -> (forall a k', user_state k' -> guarded k k' -> good k' (f a)) -> good k (m ≫= f).
Proof.
  unfold good. intros Hm Hf. rewrite wp_bind. eapply wp_mono, Hm. intros a k' [Hk' Hg].
  eapply wp_mono, Hf; [|done..]. intros b k'' [? ?]. split; [done|]. by etransitivity.
Qed.

Lemma pgood_gets {A B} k (g : kernel -> A) (f : A -> Kern kernel B) : good k (f (g k)) -> good k (gets g ≫= f).
Proof. unfold good. by rewrite wp_bind, wp_gets. Qed.

Lemma pgood_current {B} k (f : Z -> Kern kernel B) : good k (f (k_current k)) -> good k (current ≫= f).
Proof. apply pgood_gets. Qed.

Lemma good_task_at {B} k p t (f : task_struct -> Kern kernel B) :
  k_tasks k !! p = Some t -> good k (f t) -> good k (task_at p ≫= f).
Proof. intros Ht. unfold good. by rewrite wp_bind, (wp_task_at p _ k t Ht). Qed.

(** Reading the calling task, its signal struct and its address space. *)
Lemma good_current_task {B} k (f : task_struct -> Kern kernel B) :
  user_state k -> (forall t, k_tasks k !! k_current k = Some t -> t_mm t <> 0 -> good k (f t)) ->
  good k (current_task ≫= f).
Proof.
  intros [Hk Hmm] Hf. destruct (kw_current k Hk) as [t Ht]. specialize (Hf t Ht (Hmm t Ht)).
  unfold good, current_task in *. rewrite !wp_bind. unfold current. rewrite wp_gets.
  by rewrite (wp_task_at _ _ k t Ht).
Qed.

Lemma good_signal {B} k p t (f : signal_struct -> Kern kernel B) :
  user_state k -> k_tasks k !! p = Some t ->
  (forall s, k_signals k !! t_signal t = Some s -> good k (f s)) -> good k (task_signal t ≫= f).
Proof.
  intros [Hk _] Ht Hf. destruct (tw_signal _ _ (kw_tasks k Hk _ _ Ht)) as [s Hs]. specialize (Hf s Hs).
  unfold good in *. by rewrite wp_bind, (wp_task_signal t _ k s Hs).
Qed.

Lemma current_mm_run k : user_state k -> exists q m, current_mm k = Done q k /\ k_mms k !! q = Some m.
Proof.
  intros Hk. destruct (kw_current k (us_wf k Hk)) as [t Ht].
  destruct (tw_mm _ _ (kw_tasks k (us_wf k Hk) _ _ Ht)) as [E|[m Hm]]; [by destruct (us_mm k Hk t Ht)|].
  exists (t_mm t), m. split; [|done]. unfold current_mm, current_task, current, task_at. kernel_unfold. by rewrite Ht.
Qed.

Lemma good_current_mm {B} k (f : Z -> Kern kernel B) :
  user_state k -> (forall q m, k_mms k !! q = Some m -> good k (f q)) -> good k (current_mm ≫= f).
Proof.
  intros Hk Hf. destruct (current_mm_run k Hk) as (q & m & Hrun & Hm).
  unfold good. rewrite wp_bind, (wp_run _ _ k q k Hrun). by apply (Hf q m).
Qed.

Lemma good_mm_at {B} k q m (f : mm_struct -> Kern kernel B) :
  k_mms k !! q = Some m -> good k (f m) -> good k (mm_at q ≫= f).
Proof. intros Hm. unfold good. by rewrite wp_bind, (wp_mm_at q _ k m Hm). Qed.

(** *** Changing an object *)
Lemma user_state_put k p t t' :
  user_state k -> k_tasks k !! p = Some t -> task_guard t t' ->
  let k' := k <| k_tasks ::= <[p := t']> |> in user_state k' /\ guarded k k'.
Proof.
  intros [[Wv Wt Wm Wr Wc Wp] Hmm] Ht Hg k'.
  assert (forall q x, k_tasks k !! q = Some x -> exists x', k_tasks k' !! q = Some x' /\ task_guard x x') as Hq.
  { intros q x Hx. unfold k'. cbn. rewrite lookup_insert. case_decide as E.
    - subst q. rewrite Ht in Hx. injection Hx as <-. by exists t'.
    - exists x. split; [done|reflexivity]. }
  assert (forall q, is_Some (k_tasks k !! q) -> is_Some (k_tasks k' !! q)) as Hdom.
  { intros q [x Hx]. destruct (Hq _ _ Hx) as (x' & Hx' & _). by exists x'. }
  split; [split|split; [done|exact Hq|]].
  - split; try done.
    + intros nr q Hv. apply Hdom. by eapply Wv.
    + intros q x. unfold k'. cbn. intros [[<- <-]|[_ Hx]]%lookup_insert_Some; [|by destruct (Wt _ _ Hx)].
      destruct (Wt _ _ Ht) as [U S M], Hg as [_ Gm Gs Gu]. split; cbn; by rewrite ?Gm, ?Gs, ?Gu.
    + by apply Hdom.
    + eapply Forall_impl; [exact Wp|]. intros q. apply Hdom.
  - intros x. unfold k'. cbn. intros [[E <-]|[_ Hx]]%lookup_insert_Some; [|by apply Hmm].
    rewrite (tg_mm _ _ Hg). apply Hmm. by rewrite <- E.
  - intros q m Hm. exists m. split; [done|reflexivity].
Qed.

Lemma good_set_current k (f : task_struct -> task_struct) :
  user_state k -> (forall t, task_guard t (f t)) -> good k (set_current f).
Proof.
  intros Hk Hf. destruct (kw_current k (us_wf k Hk)) as [t Ht].
  unfold set_current. apply pgood_current, (good_task_at k _ t); [done|].
  apply (user_state_put k _ t (f t)); auto.
Qed.

Lemma good_put_mm k q m m' :
  user_state k -> k_mms k !! q = Some m -> mm_guard m m' -> good k (put_mm q m').
Proof.
  intros [[Wv Wt Wm Wr Wc Wp] Hmm] Hm Hg. unfold good, put_mm. rewrite wp_modify.
  split; [split; [split; cbn; try done|done]|split; cbn; [done| |]].
  - intros p t [U S M]%Wt. split; cbn; [done..|]. destruct M as [?|M]; [by left|right].
    rewrite lookup_insert. by case_decide.
  - intros p x [[<- <-]|[_ Hx]]%lookup_insert_Some; [|by eapply Wm]. rewrite (mg_users _ _ Hg). by eapply Wm.
  - intros p t Ht. exists t. split; [done|reflexivity].
  - intros p x Hx. rewrite lookup_insert. case_decide as E.
    + subst p. rewrite Hm in Hx. injection Hx as <-. by exists m'.
    + exists x. split; [done|reflexivity].
Qed.

Lemma good_put_signal k q s s' :
  user_state k -> k_signals k !! q = Some s -> rlim s' = rlim s -> good k (put_signal q s').
Proof.
  intros [[Wv Wt Wm Wr Wc Wp] Hmm] Hs Hr. unfold good, put_signal. rewrite wp_modify.
  split; [split; [split; cbn; try done|done]|split; cbn; [done| |]].
  - intros p t [U S M]%Wt. split; cbn; [done| |done]. rewrite lookup_insert. by case_decide.
  - intros p x [[<- <-]|[_ Hx]]%lookup_insert_Some; [rewrite Hr|]; by eapply Wr.
  - intros p t Ht. exists t. split; [done|reflexivity].
  - intros p x Hx. exists x. split; [done|reflexivity].
Qed.

(** Accesses to user memory change nothing else. *)
Lemma user_state_accessed k mem : user_state k -> user_state (user_accessed mem k) /\ guarded k (user_accessed mem k).
Proof.
  intros [[Wv Wt Wm Wr Wc Wp] Hmm]. split; [split; [split; cbn; try done|done]|split; [done|..]].
  - intros p t [U S M]%Wt. by split.
  - intros p t Ht. exists t. split; [done|reflexivity].
  - intros p x Hx. exists x. split; [done|reflexivity].
Qed.

Context `{UserArch}.
Lemma pgood_put_user k n x ptr : user_state k -> good k (k_put_user n x ptr).
Proof.
  intros Hk. unfold good, k_put_user, wp. destruct (put_user (k_user k) n x ptr). by apply user_state_accessed.
Qed.
Lemma good_copy_to k to bs : user_state k -> good k (k_copy_to_user to bs).
Proof.
  intros Hk. unfold good, k_copy_to_user, wp. destruct (copy_to_user (k_user k) to bs). by apply user_state_accessed.
Qed.
Lemma good_copy_from k from n : user_state k -> good k (k_copy_from_user from n).
Proof. intros Hk. by apply user_state_accessed. Qed.

End Guards.

Create HintDb prctl.
#[export] Hint Resolve pgood_ret good_set_current pgood_put_user good_copy_to good_copy_from : prctl.

(** ** Laws of the outside code *)

(** A routine that returns and leaves what is guarded exactly as it was. *)
Record untouched `{PrctlEnv} (k k' : kernel) : Prop := {
  ut_state : user_state k';
  ut_current : k_current k' = k_current k;
  ut_tasks p t : k_tasks k !! p = Some t -> exists t', k_tasks k' !! p = Some t' /\
    task_no_new_privs t' = task_no_new_privs t /\ t_mm t' = t_mm t /\ t_signal t' = t_signal t /\ usage t' = usage t;
  ut_mms q m : k_mms k !! q = Some m -> exists m', k_mms k' !! q = Some m' /\
    mdwe_bits m' = mdwe_bits m /\ layout m' = layout m /\ saved_auxv m' = saved_auxv m /\ mm_users m' = mm_users m;
}.
Definition outside `{PrctlEnv} {A} (m : Kern kernel A) : Prop :=
  forall k, user_state k -> wp m (fun _ k' => untouched k k') k.

Class PrctlEnvOk `{KernelEnv} `{PrctlEnv} : Prop := {
  po_auxv : 2 <= AT_VECTOR_SIZE;
  po_bits : 0 <= MMF_DISABLE_THP /\ 0 <= MMF_HAS_MDWE /\ 0 <= MMF_HAS_MDWE_NO_INHERIT /\
    MMF_HAS_MDWE <> MMF_HAS_MDWE_NO_INHERIT /\
    MMF_DISABLE_THP <> MMF_HAS_MDWE /\ MMF_DISABLE_THP <> MMF_HAS_MDWE_NO_INHERIT;
  (* the dumpable mode has bits of its own *)
  po_dumpable v m : exists fl, set_dumpable v m = m <| mm_flags := fl |> /\
    forall b, b ∈ [MMF_HAS_MDWE; MMF_HAS_MDWE_NO_INHERIT] -> Z.testbit fl b = Z.testbit (mm_flags m) b;
  po_comm buf t : exists c, set_task_comm buf t = t <| comm := c |>;
  po_exe mm file : outside (replace_mm_exe_file mm file);
  po_madvise mm addr size name : outside (madvise_set_anon_name mm addr size name);
  po_arch c f args : arch_defined c = Some f -> outside (f args);
  po_served sv args : outside (served sv args);
  (* the walk calls the visitor on tasks, and does nothing else *)
  po_walk top visitor (I : kernel -> Prop) k :
    (forall p k1, I k1 -> is_Some (k_tasks k1 !! p) -> wp (visitor p) (fun _ k2 => I k2) k1) ->
    I k -> wp (walk_process_tree top visitor) (fun _ k2 => I k2) k;
}.

Section Cases.
Context `{UserArch} `{KernelEnv} `{PrctlEnv} `{!PrctlEnvOk}.

Lemma untouched_guarded k k' : untouched k k' -> user_state k' /\ guarded k k'.
Proof.
  intros [Hs Hc Ht Hm]. split; [done|split; [done|..]].
  - intros p t (t' & Ht' & N & E1 & E2 & E3)%Ht. exists t'. split; [done|]. split; try done. by rewrite N.
  - intros q m (m' & Hm' & E1 & E2 & E3 & E4)%Hm. exists m'. split; [done|]. split; auto. by rewrite E3.
Qed.

Lemma pgood_outside {A} k (m : Kern kernel A) : outside m -> user_state k -> good k m.
Proof. intros Hm Hk. eapply wp_mono, (Hm k Hk). intros a k'. apply untouched_guarded. Qed.

Lemma good_arch k c args : user_state k -> good k (arch_ctl c args).
Proof.
  intros Hk. unfold arch_ctl. destruct (arch_defined c) as [f|] eqn:Hf; [|by apply pgood_ret].
  apply pgood_outside; [by eapply po_arch|done].
Qed.

Lemma good_unused k args (m : Kern kernel Z) : user_state k -> good k m -> good k (unused args m).
Proof. intros Hk Hm. unfold unused. case_match; [by apply pgood_ret|done]. Qed.

Lemma good_set_ret k f (v : Z) : user_state k -> (forall t, task_guard t (f t)) -> good k (set_current f;; mret v).
Proof. intros Hk Hf. apply pgood_bind; auto with prctl. Qed.

(** *** Addresses *)
Lemma validate_run k l :
  user_state k -> wp (validate_prctl_map_addr l) (fun r k' => k' = k /\ (r = 0 -> layout_ok l)) k.
Proof.
  intros Hk. unfold validate_prctl_map_addr.
  destruct (existsb _ offsets) eqn:Hrange; [by rewrite wp_ret|].
  assert (Forall (fun member => mmap_min_addr <= member l < TASK_SIZE) offsets) as Hall.
  { apply Forall_forall. intros member Hin. apply not_true_iff_false in Hrange.
    destruct ((TASK_SIZE <=? member l) || (member l <? mmap_min_addr)) eqn:Ho.
    - destruct Hrange. apply existsb_exists. exists member. split; [by apply list_elem_of_In|done].
    - bool_facts. lia. }
  match goal with |- context [truthy ?e] => destruct (truthy e) eqn:He end.
  { rewrite wp_ret. split; [done|]. intros E. rewrite E in He. done. }
  assert (start_code l < end_code l /\ start_data l <= end_data l /\ start_brk l <= brk l /\
          arg_start l <= arg_end l /\ env_start l <= env_end l) as (? & ? & ? & ? & ?).
  { unfold check_order in He.
    destruct (Z.ltb_spec (start_code l) (end_code l)), (Z.leb_spec (start_data l) (end_data l)),
      (Z.leb_spec (start_brk l) (brk l)), (Z.leb_spec (arg_start l) (arg_end l)),
      (Z.leb_spec (env_start l) (env_end l)); first [done|discriminate He]. }
  destruct (kw_current k (us_wf k Hk)) as [t Ht]. destruct (tw_signal _ _ (kw_tasks k (us_wf k Hk) _ _ Ht)) as [s Hs].
  assert (is_Some (rlim s !! Z.to_nat RLIMIT_DATA)) as [rl Hrl].
  { apply lookup_lt_is_Some. rewrite (kw_rlim k (us_wf k Hk) _ _ Hs). unfold RLIMIT_DATA. lia. }
  unfold current_rlimit, current_task, current, task_rlimit. rewrite !wp_bind, wp_gets, (wp_task_at _ _ k t Ht).
  rewrite wp_bind, (wp_task_signal t _ k s Hs), wp_bind, (wp_rlim_at s _ _ k rl Hrl), wp_ret.
  case_match; rewrite wp_ret; [done|]. split; [done|]. by split.
Qed.

Lemma good_validate k l (f : Z -> Kern kernel Z) :
  user_state k -> (forall r, (r = 0 -> layout_ok l) -> good k (f r)) -> good k (validate_prctl_map_addr l ≫= f).
Proof.
  intros Hk Hf. unfold good. rewrite wp_bind. eapply wp_mono, (validate_run k l Hk).
  intros r k' [-> Hr]. by apply Hf.
Qed.

Lemma good_set_layout k q m l :
  user_state k -> k_mms k !! q = Some m -> layout_ok l -> good k (set_layout q l).
Proof.
  intros Hk Hm Hl. unfold set_layout. apply (good_mm_at k q m); [done|].
  eapply good_put_mm; [done..|]. split; auto.
Qed.

(** *** The auxiliary vector *)
Lemma lookup_user_auxv bs (i : nat) :
  blen bs <= sizeof_auxv -> (Z.to_nat (sizeof_auxv - 16) <= i < Z.to_nat sizeof_auxv)%nat -> user_auxv bs !! i = Some 0.
Proof.
  intros Hb Hi. pose proof po_auxv. unfold user_auxv, sizeof_auxv, blen in *.
  rewrite lookup_app_r; rewrite length_take, length_app, length_replicate; [|lia].
  apply lookup_replicate. split; [done|lia].
Qed.

Lemma length_user_auxv bs : blen bs <= sizeof_auxv -> length (user_auxv bs) = Z.to_nat sizeof_auxv.
Proof.
  intros Hb. pose proof po_auxv. unfold user_auxv, sizeof_auxv, blen in *.
  rewrite length_app, length_take, length_app, !length_replicate. lia.
Qed.

Lemma auxv_ok_write old bs n :
  blen bs <= sizeof_auxv -> auxv_ok old -> auxv_ok (write_at old 0 (take n (user_auxv bs))).
Proof.
  intros Hb [Hlen Hlast]. pose proof (length_user_auxv bs Hb) as Hl.
  assert (length (take n (user_auxv bs)) <= length old)%nat as Hle by (rewrite length_take; lia).
  split; [by rewrite length_write_at|]. intros i Hi. rewrite lookup_write_at by done.
  case_decide as Hc; [|by apply Hlast]. rewrite Nat.sub_0_r.
  rewrite length_take in Hc. rewrite lookup_take_lt by lia. by apply lookup_user_auxv.
Qed.

Lemma good_set_auxv k q m bs n :
  user_state k -> k_mms k !! q = Some m -> blen bs <= sizeof_auxv ->
  good k (set_saved_auxv q (take n (user_auxv bs))).
Proof.
  intros Hk Hm Hb. unfold set_saved_auxv. apply (good_mm_at k q m); [done|].
  eapply good_put_mm; [done..|]. split; auto. intros Ha. by apply auxv_ok_write.
Qed.

Context `{!UserArchOk}.

Lemma good_copy_from_bind {B} k from n (f : list Z * Z -> Kern kernel B) :
  0 <= n -> user_state k ->
  (forall bs u k', blen bs = n -> user_state k' -> guarded k k' -> good k' (f (bs, u))) ->
  good k (k_copy_from_user from n ≫= f).
Proof.
  intros Hn Hk Hf. unfold good, k_copy_from_user. rewrite wp_bind. unfold wp at 1.
  destruct (user_state_accessed k (k_user k) Hk) as [Hk' Hg].
  set (old := replicate (Z.to_nat n) 0).
  assert (blen old = n) as Hold by (unfold blen, old; rewrite length_replicate; lia).
  assert (blen (copy_from_user (k_user k) from n old).1 = n) as Hl.
  { unfold copy_from_user. case_match; [|done].
    destruct (_copy_from_user_buffer (k_user k) from n old Hn Hold) as (got & Hgot & -> & _).
    unfold blen. rewrite length_app, length_read_bytes, length_replicate. lia. }
  destruct (copy_from_user (k_user k) from n old) as [bs u].
  eapply wp_mono, (Hf bs u _ Hl Hk' Hg). intros b k'' [? ?]. split; [done|]. by etransitivity.
Qed.

(** Objects stay where they are. *)
Lemma guarded_mm k k' q m : guarded k k' -> k_mms k !! q = Some m -> exists m', k_mms k' !! q = Some m'.
Proof. intros Hg (m' & Hm' & _)%(gd_mms _ _ Hg). by exists m'. Qed.

Lemma good_exe_file k mm fd : user_state k -> good k (prctl_set_mm_exe_file mm fd).
Proof.
  intros Hk. unfold prctl_set_mm_exe_file. apply pgood_gets. case_match; [|by apply pgood_ret].
  do 2 apply pgood_gets. case_match; [by apply pgood_ret|]. apply pgood_gets.
  case_match; [by apply pgood_ret|]. by apply pgood_outside; [apply po_exe|].
Qed.

Lemma good_assoc {A B C} k (m : Kern kernel A) (g : A -> Kern kernel B) (f : B -> Kern kernel C) :
  good k (m ≫= fun a => g a ≫= f) -> good k ((m ≫= g) ≫= f).
Proof.
  unfold good. rewrite !wp_bind. apply wp_mono. intros a k'. by rewrite wp_bind.
Qed.

Lemma good_read_auxv k map (f : Z * list Z -> Kern kernel Z) :
  user_state k -> 0 <= map_auxv_size map ->
  (forall e aux k', blen aux <= sizeof_auxv -> user_state k' -> guarded k k' -> good k' (f (e, aux))) ->
  good k (map_read_auxv map ≫= f).
Proof.
  intros Hk Hpos Hf. pose proof po_auxv as Hat.
  assert (forall e, good k (f (e, []))) as Hnil.
  { intros e. apply Hf; [unfold blen, sizeof_auxv; cbn; lia|done|reflexivity]. }
  unfold map_read_auxv. cbv zeta. destruct (truthy (map_auxv_size map)); [|apply Hnil].
  destruct (negb _ || _) eqn:Hbad; [apply Hnil|]. bool_facts.
  apply good_assoc, good_copy_from_bind; [done..|]. intros bs u k' Hl Hk' Hg. apply Hf; [lia|done..].
Qed.

Lemma good_replace_exe k mm fd : user_state k -> good k (map_replace_exe mm fd).
Proof.
  intros Hk. unfold map_replace_exe. case_match; [|by apply pgood_ret].
  apply good_current_task; [done|]. intros t _ _. apply pgood_gets.
  case_match; [by apply pgood_ret|by apply good_exe_file].
Qed.

Lemma good_map_store k q m map aux :
  user_state k -> k_mms k !! q = Some m -> layout_ok (map_layout map) -> blen aux <= sizeof_auxv ->
  good k (map_store q map aux).
Proof.
  intros Hk Hm Hl Hb. unfold map_store. apply pgood_bind; [by eapply good_set_layout|]. intros _ k1 Hk1 Hg1.
  destruct (guarded_mm _ _ _ _ Hg1 Hm) as [m1 Hm1].
  apply pgood_bind; [|intros; by apply pgood_ret]. case_match; [|by apply pgood_ret].
  rewrite <- (take_ge (user_auxv aux) (length (user_auxv aux))) by done. by eapply good_set_auxv.
Qed.

Lemma good_set_mm_map k opt addr data_size : user_state k -> good k (prctl_set_mm_map opt addr data_size).
Proof.
  intros Hk. unfold prctl_set_mm_map. apply good_current_mm; [done|]. intros q m Hm.
  case_match; [by apply pgood_put_user|]. case_match; [by apply pgood_ret|].
  apply good_copy_from_bind; [done|done|]. intros bs u k1 _ Hk1 Hg1.
  case_match; [by apply pgood_ret|]. cbv zeta. apply good_validate; [done|]. intros r Hl.
  destruct (truthy r) eqn:Hr; [by apply pgood_ret|]. bool_facts. specialize (Hl Hr).
  apply good_read_auxv; [done|apply u32_range|]. intros e aux k2 Hb Hk2 Hg2. case_match; [by apply pgood_ret|].
  apply pgood_bind; [by apply good_replace_exe|]. intros e' k3 Hk3 Hg3. case_match; [by apply pgood_ret|].
  destruct (guarded_mm k k3 q m) as [m3 Hm3]; [by do 2 (etransitivity; [eassumption|])|done|].
  by eapply good_map_store.
Qed.

Lemma good_prctl_set_auxv k q m addr len :
  user_state k -> k_mms k !! q = Some m -> 0 <= len -> good k (prctl_set_auxv q addr len).
Proof.
  intros Hk Hm Hlen. unfold prctl_set_auxv. destruct (Z.ltb_spec sizeof_auxv len); [by apply pgood_ret|].
  apply good_copy_from_bind; [done..|]. intros bs u k1 Hl Hk1 Hg. case_match; [by apply pgood_ret|].
  destruct (guarded_mm _ _ _ _ Hg Hm) as [m1 Hm1].
  apply pgood_bind; [eapply good_set_auxv; [done..|lia]|]. intros. by apply pgood_ret.
Qed.

Lemma good_prctl_set_mm k opt addr arg4 arg5 : user_state k -> 0 <= arg4 -> good k (prctl_set_mm opt addr arg4 arg5).
Proof.
  intros Hk H4. unfold prctl_set_mm. apply good_current_mm; [done|]. intros q m Hm.
  case_match; [by apply pgood_ret|]. case_match; [by apply good_set_mm_map|].
  apply pgood_gets. case_match; [by apply pgood_ret|]. case_match; [by apply good_exe_file|].
  case_match; [by eapply good_prctl_set_auxv|]. case_match; [by apply pgood_ret|].
  apply pgood_gets, (good_mm_at k q m); [done|]. destruct (set_member opt addr (layout m)) as [l|]; [|by apply pgood_ret].
  apply good_validate; [done|]. intros r Hl. destruct (truthy r) eqn:Hr; [by apply pgood_ret|]. bool_facts.
  case_match; [by apply pgood_ret|].
  apply pgood_bind; [eapply good_set_layout; eauto|]. intros. by apply pgood_ret.
Qed.

(** *** The remaining helpers *)
Lemma good_set_vma k opt addr size arg : user_state k -> good k (prctl_set_vma opt addr size arg).
Proof.
  intros Hk. unfold prctl_set_vma. apply good_current_mm; [done|]. intros q m Hm.
  case_match; [|by apply pgood_ret]. case_match; [|by apply pgood_outside; [apply po_madvise|]].
  apply pgood_gets. case_match; [by apply pgood_ret|]. case_match; [by apply pgood_ret|].
  apply pgood_gets. case_match; [by apply pgood_ret|]. by apply pgood_outside; [apply po_madvise|].
Qed.

Lemma good_get_auxv k addr len : user_state k -> good k (prctl_get_auxv addr len).
Proof.
  intros Hk. unfold prctl_get_auxv. apply good_current_mm; [done|]. intros q m Hm.
  apply (good_mm_at k q m); [done|]. cbv zeta. apply pgood_bind.
  - case_match; [by apply good_copy_to|by apply pgood_ret].
  - intros u k1 Hk1 _. case_match; by apply pgood_ret.
Qed.

Lemma mdwe_bits_flags m m' :
  (forall b, b ∈ [MMF_HAS_MDWE; MMF_HAS_MDWE_NO_INHERIT] -> Z.testbit (mm_flags m') b = Z.testbit (mm_flags m) b) ->
  mdwe_bits m' = mdwe_bits m.
Proof.
  intros Hb. unfold mdwe_bits, test_bit. rewrite !Hb; [done|by right; left|by left].
Qed.

(** A change of the flags that leaves the two bits alone. *)
Lemma mm_guard_flags m fl :
  (forall b, b ∈ [MMF_HAS_MDWE; MMF_HAS_MDWE_NO_INHERIT] -> Z.testbit fl b = Z.testbit (mm_flags m) b) ->
  mm_guard m (m <| mm_flags := fl |>).
Proof. intros Hb. split; auto. intros _. by apply mdwe_bits_flags. Qed.

(** What [prctl_set_mdwe] stores. *)
Definition with_mdwe (bits : Z) (m : mm_struct) : mm_struct :=
  let m := if truthy (Z.land bits PR_MDWE_NO_INHERIT) then m <| mm_flags ::= set_bit MMF_HAS_MDWE_NO_INHERIT |> else m in
  if truthy (Z.land bits PR_MDWE_REFUSE_EXEC_GAIN) then m <| mm_flags ::= set_bit MMF_HAS_MDWE |> else m.

Lemma with_mdwe_flags bits m :
  test_bit MMF_HAS_MDWE (mm_flags (with_mdwe bits m))
    = truthy (Z.land bits PR_MDWE_REFUSE_EXEC_GAIN) || test_bit MMF_HAS_MDWE (mm_flags m) /\
  test_bit MMF_HAS_MDWE_NO_INHERIT (mm_flags (with_mdwe bits m))
    = truthy (Z.land bits PR_MDWE_NO_INHERIT) || test_bit MMF_HAS_MDWE_NO_INHERIT (mm_flags m).
Proof.
  destruct po_bits as (B0 & B1 & B2 & B3 & _).
  assert (forall f a b, 0 <= a -> Z.testbit (Z.setbit f a) b = (a =? b) || Z.testbit f b) as Hset.
  { intros f a b Ha. by apply Z.setbit_eqb. }
  unfold with_mdwe, test_bit, set_bit.
  destruct (truthy (Z.land bits PR_MDWE_NO_INHERIT)), (truthy (Z.land bits PR_MDWE_REFUSE_EXEC_GAIN));
    cbn -[Z.setbit Z.testbit]; rewrite ?Hset by done;
    rewrite ?Z.eqb_refl, ?(proj2 (Z.eqb_neq MMF_HAS_MDWE MMF_HAS_MDWE_NO_INHERIT)),
      ?(proj2 (Z.eqb_neq MMF_HAS_MDWE_NO_INHERIT MMF_HAS_MDWE)) by done; done.
Qed.

Lemma with_mdwe_bits bits m :
  bits ∈ [0; 1; 3] -> mdwe_bits (with_mdwe bits m) = Z.lor bits (mdwe_bits m).
Proof.
  intros Hin. unfold mdwe_bits. destruct (with_mdwe_flags bits m) as [-> ->].
  rewrite !elem_of_cons, elem_of_nil in Hin.
  destruct Hin as [-> | [-> | [-> | []]]];
    destruct (test_bit MMF_HAS_MDWE (mm_flags m)), (test_bit MMF_HAS_MDWE_NO_INHERIT (mm_flags m)); done.
Qed.

(** The combinations the checks let through. *)
Lemma mdwe_accepted bits :
  0 <= bits -> truthy (Z.land bits (Z.lnot (Z.lor PR_MDWE_REFUSE_EXEC_GAIN PR_MDWE_NO_INHERIT))) = false ->
  truthy (Z.land bits PR_MDWE_NO_INHERIT) && negb (truthy (Z.land bits PR_MDWE_REFUSE_EXEC_GAIN)) = false ->
  bits ∈ [0; 1; 3].
Proof.
  intros Hb Hmask Hdep. bool_facts. change (Z.lor PR_MDWE_REFUSE_EXEC_GAIN PR_MDWE_NO_INHERIT) with (Z.ones 2) in Hmask.
  rewrite <- Z.ldiff_land, Z.ldiff_ones_r, Z.shiftr_div_pow2, Z.shiftl_mul_pow2 in Hmask by lia.
  assert (bits < 4) by (pose proof (Z.div_mod bits (2 ^ 2)); pose proof (Z.mod_pos_bound bits (2 ^ 2)); lia).
  assert (bits = 0 \/ bits = 1 \/ bits = 2 \/ bits = 3) as Hc by lia.
  destruct Hc as [-> | [-> | [-> | ->]]]; [by left|by right; left|discriminate Hdep|by do 2 right; left].
Qed.

Lemma set_mdwe_run k q m bits arg3 arg4 arg5 :
  current_mm k = Done q k -> k_mms k !! q = Some m -> 0 <= bits ->
  prctl_set_mdwe bits arg3 arg4 arg5 k =
    if truthy arg3 || truthy arg4 || truthy arg5 || negb (bool_decide (bits ∈ [0; 1; 3])) then Done (- EINVAL) k
    else if truthy (mdwe_bits m) && negb (mdwe_bits m =? bits) then Done (- EPERM) k
    else Done 0 (k <| k_mms ::= <[q := with_mdwe bits m]> |>).
Proof.
  intros Hq Hm Hb. unfold prctl_set_mdwe. destruct (truthy arg3 || truthy arg4 || truthy arg5); [done|]. cbn [orb].
  destruct (truthy (Z.land bits (Z.lnot _))) eqn:Hmask.
  { rewrite bool_decide_false; [done|]. intros Hin. rewrite !elem_of_cons, elem_of_nil in Hin.
    by destruct Hin as [-> | [-> | [-> | []]]]. }
  destruct (truthy (Z.land bits PR_MDWE_NO_INHERIT) && _) eqn:Hdep.
  { rewrite bool_decide_false; [done|]. intros Hin. rewrite !elem_of_cons, elem_of_nil in Hin.
    by destruct Hin as [-> | [-> | [-> | []]]]. }
  rewrite bool_decide_true by (by apply mdwe_accepted). cbn [negb].
  assert (get_current_mdwe k = Done (mdwe_bits m) k) as Hcur.
  { unfold get_current_mdwe. rewrite (bind_done _ _ _ _ _ Hq). unfold mm_at. kernel_unfold. by rewrite Hm. }
  rewrite (bind_done _ _ _ _ _ Hcur). case_match; [done|].
  rewrite (bind_done _ _ _ _ _ Hq). unfold mm_at, put_mm. kernel_unfold. by rewrite Hm.
Qed.

Lemma mm_guard_mdwe m bits :
  bits ∈ [0; 1; 3] -> truthy (mdwe_bits m) && negb (mdwe_bits m =? bits) = false -> mm_guard m (with_mdwe bits m).
Proof.
  intros Hin Hc. split.
  - intros Hne. rewrite with_mdwe_bits by done. apply andb_false_iff in Hc as [Hc|Hc]; bool_facts; [done|].
    rewrite Hc. apply Z.lor_diag.
  - left. unfold with_mdwe. by repeat case_match.
  - unfold with_mdwe. by repeat case_match.
  - unfold with_mdwe. by repeat case_match.
Qed.

Lemma good_set_mdwe k bits arg3 arg4 arg5 : user_state k -> 0 <= bits -> good k (prctl_set_mdwe bits arg3 arg4 arg5).
Proof.
  intros Hk Hb. destruct (current_mm_run k Hk) as (q & m & Hq & Hm). unfold good, wp.
  rewrite (set_mdwe_run k q m) by done. destruct (_ || negb (bool_decide _)) eqn:Hbad; [by apply (pgood_ret k 0)|].
  destruct (truthy (mdwe_bits m) && _) eqn:Hc; [by apply (pgood_ret k 0)|]. apply orb_false_iff in Hbad as [_ Hin].
  apply negb_false_iff, bool_decide_eq_true in Hin. apply (good_put_mm k q m); [done..|]. by apply mm_guard_mdwe.
Qed.

(** *** The groups of cases *)
Lemma task_guard_flags t f : task_guard t (t <| flags ::= f |>).
Proof. by split. Qed.
Lemma task_guard_set_flags t on off : task_guard t (set_flags on off t).
Proof. apply task_guard_flags. Qed.
Lemma task_guard_nnp t : task_guard t (task_set_no_new_privs t).
Proof. split; try done. intros _. change (Z.testbit (Z.setbit (atomic_flags t) 0) 0 = true). by rewrite Z.setbit_eq. Qed.
Lemma task_guard_comm buf t : task_guard t (set_task_comm buf t).
Proof. destruct (po_comm buf t) as [c ->]. by split. Qed.

#[local] Hint Resolve pgood_ret good_set_ret pgood_put_user good_copy_to good_arch good_unused
  task_guard_set_flags task_guard_nnp task_guard_comm : prctl.

(** Decide the tests of a group; what is left are its cases. *)
Ltac prctl_cases :=
  repeat match goal with |- good _ (if ?b then _ else _) => destruct b end; auto with prctl.

Lemma good_signal_dump k option arg2 rest :
  user_state k -> good k rest -> good k (prctl_signal_dump option arg2 rest).
Proof.
  intros Hk Hrest. unfold prctl_signal_dump. prctl_cases.
  - apply good_set_ret; [done|]. by split.
  - apply good_current_task; [done|]. intros t _ _. by apply pgood_put_user.
  - apply good_current_mm; [done|]. intros q m Hm. apply (good_mm_at k q m); [done|]. by apply pgood_ret.
  - apply good_current_mm; [done|]. intros q m Hm. apply (good_mm_at k q m); [done|].
    apply pgood_bind; [|intros; by apply pgood_ret]. apply (good_put_mm k q m); [done..|].
    destruct (po_dumpable arg2 m) as (fl & -> & Hfl). by apply mm_guard_flags.
Qed.

Lemma good_name_time k option arg2 rest :
  user_state k -> good k rest -> good k (prctl_name_time option arg2 rest).
Proof.
  intros Hk Hrest. unfold prctl_name_time. prctl_cases.
  - unfold good. rewrite wp_bind, wp_get. destruct (strncpy_from_user _ _ _ _) as [buf res].
    destruct (res <? 0); [by apply (pgood_ret k (- EFAULT))|]. by apply good_set_ret; [|apply task_guard_comm].
  - apply good_current_task; [done|]. intros t _ _. apply pgood_bind; [by apply good_copy_to|].
    intros u k1 Hk1 _. case_match; by apply pgood_ret.
  - apply good_current_task; [done|]. intros t _ _. by apply pgood_ret.
  - apply good_set_ret; [done|]. by split.
Qed.

Lemma good_mce k option arg2 arg3 arg4 arg5 rest :
  user_state k -> good k rest -> good k (prctl_mce option arg2 arg3 arg4 arg5 rest).
Proof.
  intros Hk Hrest. unfold prctl_mce. prctl_cases.
  - apply pgood_bind; [apply good_set_current; [done|intros t; apply task_guard_set_flags]|]. intros _ k1 Hk1 _. prctl_cases.
  - apply good_current_task; [done|]. intros t _ _. by apply pgood_ret.
Qed.

Lemma good_prctl_arch k option arg2 arg3 arg4 arg5 rest :
  user_state k -> good k rest -> good k (prctl_arch option arg2 arg3 arg4 arg5 rest).
Proof. intros Hk Hrest. unfold prctl_arch. repeat case_match; auto with prctl. Qed.

Lemma good_prctl_service k option arg2 arg3 arg4 arg5 rest :
  user_state k -> good k rest -> good k (prctl_service option arg2 arg3 arg4 arg5 rest).
Proof.
  intros Hk Hrest. unfold prctl_service.
  repeat case_match; try done; by apply pgood_outside; [apply po_served|].
Qed.

(** The visitor of the tree, and with it the walk. *)
Lemma good_visitor k p : user_state k -> is_Some (k_tasks k !! p) -> good k (propagate_has_child_subreaper p).
Proof.
  intros Hk [t Ht]. unfold propagate_has_child_subreaper. apply (good_task_at k p t); [done|].
  apply (good_signal k p t); [done..|]. intros s Hs. apply pgood_gets. case_match; [by apply pgood_ret|].
  apply pgood_bind; [by apply (good_put_signal k _ s)|]. intros. by apply pgood_ret.
Qed.

Lemma good_walk k top : user_state k -> good k (walk_process_tree top propagate_has_child_subreaper).
Proof.
  intros Hk. apply (po_walk top propagate_has_child_subreaper (fun k1 => user_state k1 /\ guarded k k1)).
  - intros p k1 [Hk1 Hg1] Hp. eapply wp_mono, (good_visitor k1 p Hk1 Hp). intros r k2 [Hk2 Hg2].
    split; [done|]. by etransitivity.
  - split; [done|reflexivity].
Qed.

Lemma good_process k option arg2 arg3 arg4 arg5 rest :
  user_state k -> 0 <= arg4 -> good k rest -> good k (prctl_process option arg2 arg3 arg4 arg5 rest).
Proof.
  intros Hk H4 Hrest. unfold prctl_process. prctl_cases.
  - by apply good_prctl_set_mm.
  - apply pgood_current. unfold prctl_get_tid_address. destruct (kw_current k (us_wf k Hk)) as [t Ht].
    apply (good_task_at k _ t); [done|]. by apply pgood_put_user.
  - apply pgood_current. destruct (kw_current k (us_wf k Hk)) as [t Ht]. apply (good_task_at k _ t); [done|].
    apply (good_signal k (k_current k) t); [done..|]. intros s Hs. apply pgood_bind; [by apply (good_put_signal k _ s)|].
    intros _ k1 Hk1 Hg. prctl_cases. apply pgood_bind; [by apply good_walk|]. intros. by apply pgood_ret.
  - apply good_current_task; [done|]. intros t Ht _. apply (good_signal k (k_current k) t); [done..|]. intros. by apply pgood_put_user.
  - apply good_unused; [done|]. apply good_current_task; [done|]. intros. by apply pgood_ret.
Qed.

Lemma thp_keeps_mdwe arg2 m b :
  b ∈ [MMF_HAS_MDWE; MMF_HAS_MDWE_NO_INHERIT] ->
  Z.testbit ((if truthy arg2 then set_bit MMF_DISABLE_THP else clear_bit MMF_DISABLE_THP) (mm_flags m)) b
  = Z.testbit (mm_flags m) b.
Proof.
  intros Hb. destruct po_bits as (B0 & _ & _ & _ & B1 & B2). rewrite !elem_of_cons, elem_of_nil in Hb.
  assert (MMF_DISABLE_THP <> b) as Hne by (destruct Hb as [-> | [-> | []]]; done).
  destruct (truthy arg2); unfold set_bit, clear_bit; [by apply Z.setbit_neq|by apply Z.clearbit_neq].
Qed.

Lemma good_thp_io k option arg2 arg3 arg4 arg5 rest :
  user_state k -> good k rest -> good k (prctl_thp_io option arg2 arg3 arg4 arg5 rest).
Proof.
  intros Hk Hrest. unfold prctl_thp_io. prctl_cases.
  - apply good_unused; [done|]. apply good_current_mm; [done|]. intros q m Hm.
    apply (good_mm_at k q m); [done|]. by apply pgood_ret.
  - apply good_unused; [done|]. apply pgood_gets. prctl_cases. apply good_current_mm; [done|]. intros q m Hm.
    apply (good_mm_at k q m); [done|]. apply pgood_bind; [|intros; by apply pgood_ret].
    apply (good_put_mm k q m); [done..|]. apply (mm_guard_flags m), thp_keeps_mdwe.
  - apply pgood_gets. prctl_cases. apply good_unused; [done|]. prctl_cases.
  - apply pgood_gets. prctl_cases. apply good_unused; [done|]. apply good_current_task; [done|].
    intros. by apply pgood_ret.
Qed.

Lemma good_memory k option arg2 arg3 arg4 arg5 rest :
  user_state k -> 0 <= arg2 -> good k rest -> good k (prctl_memory option arg2 arg3 arg4 arg5 rest).
Proof.
  intros Hk H2' Hrest. unfold prctl_memory. prctl_cases.
  - by apply good_set_mdwe.
  - unfold prctl_get_mdwe, get_current_mdwe. prctl_cases. apply good_current_mm; [done|]. intros q m Hm.
    apply (good_mm_at k q m); [done|]. by apply pgood_ret.
  - by apply good_set_vma.
  - apply good_unused; [done|]. by apply good_get_auxv.
  - apply good_unused; [done|]. apply pgood_gets. prctl_cases. apply good_current_mm; [done|]. intros q m Hm.
    by apply pgood_outside; [apply po_served|].
  - apply good_unused; [done|]. apply good_current_mm; [done|]. intros q m Hm.
    apply (good_mm_at k q m); [done|]. by apply pgood_ret.
Qed.

(** Every call of [prctl], with every option. *)
Lemma good_prctl k option arg2 arg3 arg4 arg5 :
  user_state k -> 0 <= arg2 -> 0 <= arg4 -> good k (prctl option arg2 arg3 arg4 arg5).
Proof.
  intros Hk Ha2 Ha4. unfold prctl. apply pgood_gets. prctl_cases.
  apply good_signal_dump; [done|]. apply good_prctl_arch; [done|]. apply good_name_time; [done|].
  apply good_prctl_service; [done|]. apply good_mce; [done|]. apply good_process; [done..|].
  apply good_thp_io; [done|]. apply good_memory; [done..|]. by apply pgood_ret.
Qed.

(** A sequence of calls with their arguments. *)
Definition prctl_call : Type := Z * Z * Z * Z * Z.
Fixpoint prctl_all (cs : list prctl_call) : Kern kernel unit :=
  match cs with
  | [] => mret tt
  | (option, arg2, arg3, arg4, arg5) :: cs => prctl option arg2 arg3 arg4 arg5;; prctl_all cs
  end.
Definition unsigned_args (c : prctl_call) : Prop :=
  let '(_, arg2, arg3, arg4, arg5) := c in is_u64 arg2 /\ is_u64 arg3 /\ is_u64 arg4 /\ is_u64 arg5.

Lemma good_prctl_all cs k : Forall unsigned_args cs -> user_state k -> good k (prctl_all cs).
Proof.
  intros Hcs. revert k.
  induction Hcs as [|[[[[option arg2] arg3] arg4] arg5] cs (A2 & _ & A4 & _) _ IH]; intros k Hk; cbn [prctl_all].
  - by apply pgood_ret.
  - apply pgood_bind; [apply good_prctl; [done|apply A2|apply A4]|]. intros _ k1 Hk1 _. by apply IH.
Qed.


(* the security modules leave the option to the switch *)
Context (no_lsm : forall k option arg2 arg3 arg4 arg5, security_task_prctl k option arg2 arg3 arg4 arg5 = - ENOSYS).

Lemma prctl_switch k option arg2 arg3 arg4 arg5 :
  prctl option arg2 arg3 arg4 arg5 k =
    prctl_signal_dump option arg2 (prctl_arch option arg2 arg3 arg4 arg5 (prctl_name_time option arg2 (
    prctl_service option arg2 arg3 arg4 arg5 (prctl_mce option arg2 arg3 arg4 arg5 (
    prctl_process option arg2 arg3 arg4 arg5 (prctl_thp_io option arg2 arg3 arg4 arg5 (
    prctl_memory option arg2 arg3 arg4 arg5 (mret (- EINVAL))))))))) k.
Proof. unfold prctl. rewrite (bind_done _ _ k (- ENOSYS) k); [done|]. unfold gets. by rewrite no_lsm. Qed.

Lemma get_mdwe_run k q m :
  current_mm k = Done q k -> k_mms k !! q = Some m -> prctl PR_GET_MDWE 0 0 0 0 k = Done (mdwe_bits m) k.
Proof.
  intros Hq Hm. rewrite prctl_switch. change (get_current_mdwe k = Done (mdwe_bits m) k).
  unfold get_current_mdwe. rewrite (bind_done _ _ _ _ _ Hq). unfold mm_at. kernel_unfold. by rewrite Hm.
Qed.

Lemma current_mm_guarded k k' q : user_state k -> guarded k k' -> current_mm k = Done q k -> current_mm k' = Done q k'.
Proof.
  intros Hk Hg. destruct (kw_current k (us_wf k Hk)) as [t Ht]. destruct (gd_tasks _ _ Hg _ _ Ht) as (t' & Ht' & [_ Hmm _ _]).
  rewrite <- (gd_current _ _ Hg) in Ht'. unfold current_mm, current_task, current, task_at. kernel_unfold.
  rewrite Ht, Ht'. intros [= <-]. by rewrite Hmm.
Qed.

(** refusing executable memory is for good.  After a successful [PR_SET_MDWE]
    with some bits, whatever [prctl] calls follow, [PR_GET_MDWE] returns these bits. *)
Theorem mdwe_set_is_final k bits cs :
  user_state k -> 0 < bits -> Forall unsigned_args cs ->
  wp (prctl PR_SET_MDWE bits 0 0 0)
     (fun r k1 => r = 0 ->
        wp (prctl_all cs) (fun _ k2 => wp (prctl PR_GET_MDWE 0 0 0 0) (fun r' k3 => r' = bits /\ k3 = k2) k2) k1) k.
Proof.
  intros Hk Hb Hcs. destruct (current_mm_run k Hk) as (q & m & Hq & Hm).
  pose proof (good_prctl k PR_SET_MDWE bits 0 0 0 Hk ltac:(lia) ltac:(lia)) as Hgood. revert Hgood. unfold good, wp.
  rewrite prctl_switch. change (prctl_signal_dump _ _ _ k) with (prctl_set_mdwe bits 0 0 0 k).
  rewrite (set_mdwe_run k q m) by (done || lia). cbn [truthy Z.eqb negb orb].
  destruct (bool_decide (bits ∈ [0; 1; 3])) eqn:Hin; [|done]. cbn [negb].
  destruct (truthy (mdwe_bits m) && negb (mdwe_bits m =? bits)) eqn:Hc; [done|].
  apply bool_decide_eq_true in Hin. set (k1 := k <| k_mms ::= <[q := with_mdwe bits m]> |>). intros [Hk1 Hg1] _.
  assert (mdwe_bits (with_mdwe bits m) = bits) as Hbits.
  { rewrite with_mdwe_bits by done. apply andb_false_iff in Hc as [Hc|Hc]; bool_facts; rewrite Hc; [apply Z.lor_0_r|apply Z.lor_diag]. }
  change (wp (prctl_all cs) (fun _ k2 => wp (prctl PR_GET_MDWE 0 0 0 0) (fun r' k3 => r' = bits /\ k3 = k2) k2) k1).
  pose proof (good_prctl_all cs k1 Hcs Hk1) as Hall.
  eapply wp_mono, Hall. intros _ k2 [Hk2 Hg2].
  assert (k_mms k1 !! q = Some (with_mdwe bits m)) as Hm1 by apply lookup_insert_eq.
  destruct (gd_mms _ _ Hg2 _ _ Hm1) as (m2 & Hm2 & [Hmd _ _ _]).
  rewrite (wp_run _ _ k2 _ _ (get_mdwe_run k2 q m2 (current_mm_guarded k1 k2 q Hk1 Hg2 (current_mm_guarded k k1 q Hk Hg1 Hq)) Hm2)).
  split; [|done]. rewrite Hmd, Hbits; [done|]. rewrite Hbits. lia.
Qed.

(** only valid names reach the memory map.  [prctl_set_vma] either returns an
    error without a change or passes on no name or one of printable characters
    without the excluded ones. *)
Theorem vma_names_valid k opt addr size arg :
  user_state k ->
  (exists r, prctl_set_vma opt addr size arg k = Done r k /\ (r = - EINVAL \/ r = - ENOMEM \/ strndup_user k arg ANON_VMA_NAME_MAX_LEN = inl r)) \/
  exists mm name, prctl_set_vma opt addr size arg k = madvise_set_anon_name mm addr size name k /\
    (name = None <-> arg = 0) /\
    forall n, name = Some n -> strndup_user k arg ANON_VMA_NAME_MAX_LEN = inr n /\
      Forall (fun ch => 32 <= ch <= 126 /\ ch ∉ [92; 96; 36; 91; 93]) n.
Proof.
  intros Hk. destruct (current_mm_run k Hk) as (q & m & Hq & Hm). unfold prctl_set_vma.
  rewrite (bind_done _ _ _ _ _ Hq). destruct (opt =? PR_SET_VMA_ANON_NAME); [|left; eexists; split; [done|by left]].
  destruct (truthy arg) eqn:Harg; bool_facts; [|right; exists q, None; by split_and!].
  change ((gets ?g ≫= ?f) k) with (f (g k) k). cbv beta. destruct (strndup_user k arg _) as [e|n] eqn:Hn.
  { left. exists e. split; [done|]. by right; right. }
  destruct (forallb is_valid_name_char n) eqn:Hv; cbn [negb]; [|left; eexists; split; [done|by left]].
  change ((gets ?g ≫= ?f) k) with (f (g k) k). cbv beta. destruct (anon_vma_name_alloc k n); cbn [negb]; [|left; eexists; split; [done|by right; left]].
  right. exists q, (Some n). split_and!; [done|done|]. intros n' [= <-]. split; [done|].
  apply Forall_forall. intros ch Hch.
  rewrite forallb_forall in Hv. specialize (Hv ch (proj1 (list_elem_of_In _ _) Hch)). unfold is_valid_name_char in Hv.
  bool_facts. match goal with Hd : bool_decide _ = false |- _ => apply bool_decide_eq_false in Hd end. split; [lia|done].
Qed.

Lemma set_current_run k t f :
  k_tasks k !! k_current k = Some t -> set_current f k = Done tt (k <| k_tasks ::= <[k_current k := f t]> |>).
Proof. intros Ht. unfold set_current, current, task_at, put_task. kernel_unfold. by rewrite Ht. Qed.

(** a refused [PR_MCE_KILL] changes the policy.  With [PR_MCE_KILL_SET] and an
    unknown policy the call returns -EINVAL, but the process flag has been set: a
    task that had the default policy has one of its own afterwards. *)
Theorem mce_refused_changes_policy k t arg3 :
  k_tasks k !! k_current k = Some t -> arg3 ∉ [PR_MCE_KILL_EARLY; PR_MCE_KILL_LATE; PR_MCE_KILL_DEFAULT] ->
  wp (prctl PR_MCE_KILL PR_MCE_KILL_SET arg3 0 0)
     (fun r k1 => r = - EINVAL /\
        wp (prctl PR_MCE_KILL_GET 0 0 0 0) (fun r' k2 => r' <> PR_MCE_KILL_DEFAULT /\ k2 = k1) k1) k.
Proof.
  intros Ht Hun. rewrite !not_elem_of_cons in Hun. destruct Hun as (U1 & U2 & U3 & _).
  set (t1 := set_flags PF_MCE_PROCESS 0 t). set (k1 := k <| k_tasks ::= <[k_current k := t1]> |>).
  rewrite (wp_run _ _ k (- EINVAL) k1).
  2:{ rewrite prctl_switch.
      change (prctl_signal_dump _ _ _ k) with ((set_current (set_flags PF_MCE_PROCESS 0);;
        if arg3 =? PR_MCE_KILL_EARLY then set_current (set_flags PF_MCE_EARLY 0);; mret 0
        else if arg3 =? PR_MCE_KILL_LATE then set_current (set_flags 0 PF_MCE_EARLY);; mret 0
        else if arg3 =? PR_MCE_KILL_DEFAULT then
          set_current (set_flags 0 (Z.lor PF_MCE_EARLY PF_MCE_PROCESS));; mret 0
        else mret (- EINVAL)) k).
      rewrite (bind_done _ _ _ _ _ (set_current_run k t _ Ht)).
      by rewrite (proj2 (Z.eqb_neq _ _) U1), (proj2 (Z.eqb_neq _ _) U2), (proj2 (Z.eqb_neq _ _) U3). }
  split; [done|]. unfold wp. rewrite prctl_switch.
  assert (k_tasks k1 !! k_current k1 = Some t1) as Ht1 by apply lookup_insert_eq.
  assert (truthy (Z.land (flags t1) PF_MCE_PROCESS) = true) as Hflag.
  { apply truthy_true. intros E. apply (f_equal (fun z => Z.testbit z 7)) in E. unfold t1, set_flags in E.
    change (flags _) with (Z.land (Z.lor (flags t) PF_MCE_PROCESS) (Z.lnot 0)) in E.
    rewrite !Z.land_spec, Z.lor_spec, Z.lnot_spec, Z.bits_0 in E by lia.
    change (Z.testbit PF_MCE_PROCESS 7) with true in E. by rewrite orb_true_r in E. }
  change (prctl_signal_dump _ _ _ k1) with ((t ← current_task;
    mret (if truthy (Z.land (flags t) PF_MCE_PROCESS)
          then if truthy (Z.land (flags t) PF_MCE_EARLY) then PR_MCE_KILL_EARLY else PR_MCE_KILL_LATE
          else PR_MCE_KILL_DEFAULT)) k1).
  rewrite (bind_done current_task _ k1 t1 k1)
    by (unfold current_task, current, task_at; kernel_unfold; by rewrite Ht1).
  rewrite Hflag. destruct (truthy (Z.land (flags t1) PF_MCE_EARLY)); (split; [discriminate|done]).
Qed.

(** the check of a memory map is exact.  It changes nothing and accepts
    precisely the maps whose addresses are in the user range, whose pairs are in
    order and whose data fits RLIMIT_DATA; the others get -EINVAL. *)
Theorem validate_accepts_exactly k l rl :
  user_state k -> rlim_of k (k_current k) RLIMIT_DATA = Some rl ->
  wp (validate_prctl_map_addr l)
     (fun r k' => k' = k /\ (r = 0 \/ r = - EINVAL) /\
        (r = 0 <-> layout_ok l /\
           check_data_rlimit (rlim_cur rl) (brk l) (start_brk l) (end_data l) (start_data l) = 0)) k.
Proof.
  intros Hk Hrl. unfold validate_prctl_map_addr.
  destruct (existsb _ offsets) eqn:Hrange.
  { rewrite wp_ret. split_and!; [done|by right|]. split; [done|]. intros [[Hr _ _ _ _ _] _].
    apply existsb_exists in Hrange as (member & Hin%list_elem_of_In & Ho). rewrite Forall_forall in Hr.
    specialize (Hr member Hin). apply orb_true_iff in Ho as [Ho|Ho]; bool_facts; lia. }
  assert (Forall (fun member => mmap_min_addr <= member l < TASK_SIZE) offsets) as Hall.
  { apply Forall_forall. intros member Hin. apply not_true_iff_false in Hrange.
    destruct ((TASK_SIZE <=? member l) || (member l <? mmap_min_addr)) eqn:Ho; [|bool_facts; lia].
    destruct Hrange. apply existsb_exists. exists member. split; [by apply list_elem_of_In|done]. }
  unfold check_order.
  destruct (Z.ltb_spec (start_code l) (end_code l)), (Z.leb_spec (start_data l) (end_data l)),
    (Z.leb_spec (start_brk l) (brk l)), (Z.leb_spec (arg_start l) (arg_end l)),
    (Z.leb_spec (env_start l) (env_end l));
    match goal with |- context [truthy ?e] => let b := eval vm_compute in (truthy e) in change (truthy e) with b end;
    cbv iota; try (rewrite wp_ret; split_and!; [done|by right|split; [done|intros [[] _]; lia]]).
  unfold rlim_of in Hrl. destruct (k_tasks k !! k_current k) as [t|] eqn:Ht; [|done]. cbn in Hrl.
  destruct (k_signals k !! t_signal t) as [sg|] eqn:Hs; [|done]. cbn in Hrl.
  unfold current_rlimit, current_task, current, task_rlimit. rewrite !wp_bind, wp_gets, (wp_task_at _ _ k t Ht).
  rewrite wp_bind, (wp_task_signal t _ k sg Hs), wp_bind, (wp_rlim_at sg _ _ k rl Hrl), wp_ret.
  case_match eqn:Hd; bool_facts; rewrite wp_ret; split_and!; auto; (split; [|tauto || done]); [done|].
  intros _. split; [by split|done].
Qed.
End Cases.

(** ** Concrete runs *)
Fixpoint visit_all (l : list Z) (visitor : Z -> Kern kernel Z) : Kern kernel unit :=
  match l with
  | [] => mret tt
  | p :: l =>
      live ← gets (fun k => bool_decide (is_Some (k_tasks k !! p)));
      (if (live : bool) then visitor p;; mret tt else mret tt);;
      visit_all l visitor
  end.

(** x86-64 with no further service; the walk visits all processes. *)
#[global] Instance sample_prctl : PrctlEnv := {|
  TASK_SIZE := 2 ^ 47 - 4096;
  mmap_min_addr := 65536;
  AT_VECTOR_SIZE := 2;
  MMF_DISABLE_THP := 24;
  MMF_HAS_MDWE := 28;
  MMF_HAS_MDWE_NO_INHERIT := 29;
  MMF_VM_MERGE_ANY := 30;
  get_dumpable m := Z.land (mm_flags m) 3;
  set_dumpable v m := if v =? 1 then m <| mm_flags := Z.setbit (mm_flags m) 0 |>
                      else m <| mm_flags := Z.clearbit (mm_flags m) 0 |>;
  security_task_prctl _ _ _ _ _ _ := - ENOSYS;
  checkpoint_restore_ns_capable _ _ := true;
  fdget _ fd := if fd =? 3 then Some 900 else None;
  S_ISREG _ _ := true;
  path_noexec _ _ := false;
  file_permission_exec _ _ := 0;
  replace_mm_exe_file _ _ := mret 0;
  set_task_comm buf t := t <| comm := buf |>;
  get_task_comm := comm;
  strncpy_from_user m a n _ := (read_bytes m a (Z.to_nat n), n);
  strndup_user k a n := inr (read_bytes (k_user k) a 4);
  anon_vma_name_alloc _ _ := true;
  madvise_set_anon_name _ _ _ _ := mret 0;
  find_vma _ _ _ := true;
  mmap_write_lock_killable _ := false;
  walk_process_tree _ visitor := l ← gets k_procs; visit_all l visitor;
  is_child_reaper _ _ := false;
  arch_defined _ := None;
  served _ _ := mret 0;
|}.

Lemma outside_ret {A} (a : A) : outside (mret a).
Proof.
  intros k Hk. split; [done|done|..]; intros q x Hx; exists x; by split_and!.
Qed.

Lemma visit_all_inv l visitor (I : kernel -> Prop) k :
  (forall p k1, I k1 -> is_Some (k_tasks k1 !! p) -> wp (visitor p) (fun _ k2 => I k2) k1) ->
  I k -> wp (visit_all l visitor) (fun _ k2 => I k2) k.
Proof.
  intros Hv. revert k. induction l as [|p l IH]; intros k Hk; cbn [visit_all]; [done|].
  rewrite wp_bind, wp_gets, wp_bind. case_bool_decide as Hp.
  - rewrite wp_bind. eapply wp_mono, (Hv p k Hk Hp). intros r k1 Hk1. rewrite wp_ret. by apply IH.
  - rewrite wp_ret. by apply IH.
Qed.

#[global] Instance sample_prctl_ok : @PrctlEnvOk (sample_env 0) sample_prctl.
Proof.
  split.
  - done.
  - by split_and!.
  - intros v m. cbn. destruct (v =? 1); eexists; (split; [done|]);
      intros b Hb; rewrite !elem_of_cons, elem_of_nil in Hb;
      destruct Hb as [-> | [-> | []]]; (by apply Z.setbit_neq) || (by apply Z.clearbit_neq).
  - intros buf t. by exists buf.
  - intros. apply outside_ret.
  - intros. apply outside_ret.
  - intros c f args Hf. discriminate Hf.
  - intros. apply outside_ret.
  - intros top visitor I k Hv Hk. cbn. rewrite wp_bind, wp_gets. by apply visit_all_inv.
Qed.

Lemma sample_no_lsm k option arg2 arg3 arg4 arg5 :
  @security_task_prctl sample_prctl k option arg2 arg3 arg4 arg5 = - ENOSYS.
Proof. reflexivity. Qed.

Lemma sample_user_state : user_state (sample_kernel ∅).
Proof. split; [apply sample_kernel_wf|]. intros t. vm_compute. by intros [= <-]. Qed.


Lemma mdwe_set_is_final_witness :
  let _ := sample_env 0 in
  let _ := simple_arch in
  let cs := [(PR_SET_MDWE, 0, 0, 0, 0); (PR_SET_DUMPABLE, 0, 0, 0, 0)] in
  wp (prctl PR_SET_MDWE 3 0 0 0)
     (fun r k1 => r = 0 ->
        wp (prctl_all cs) (fun _ k2 => wp (prctl PR_GET_MDWE 0 0 0 0) (fun r' k3 => r' = 3 /\ k3 = k2) k2) k1)
     (sample_kernel ∅).
Proof.
  intros env arch cs. apply (mdwe_set_is_final sample_no_lsm (sample_kernel ∅) 3 cs).
  - exact sample_user_state.
  - reflexivity.
  - unfold cs. repeat constructor; vm_compute; discriminate.
Defined.

Lemma vma_names_valid_witness :
  let _ := sample_env 0 in
  let _ := simple_arch in
  (exists r, prctl_set_vma 0 65536 4096 0 (sample_kernel ∅) = Done r (sample_kernel ∅) /\
     (r = - EINVAL \/ r = - ENOMEM \/ strndup_user (sample_kernel ∅) 0 ANON_VMA_NAME_MAX_LEN = inl r)) \/
  exists mm name, prctl_set_vma 0 65536 4096 0 (sample_kernel ∅) = madvise_set_anon_name mm 65536 4096 name (sample_kernel ∅) /\
    (name = None <-> 0 = 0) /\
    forall n, name = Some n -> strndup_user (sample_kernel ∅) 0 ANON_VMA_NAME_MAX_LEN = inr n /\
      Forall (fun ch => 32 <= ch <= 126 /\ ch ∉ [92; 96; 36; 91; 93]) n.
Proof. intros env arch. apply (vma_names_valid (sample_kernel ∅) 0 65536 4096 0 sample_user_state). Defined.

Lemma mce_refused_changes_policy_witness :
  let _ := sample_env 0 in
  let _ := simple_arch in
  wp (prctl PR_MCE_KILL PR_MCE_KILL_SET 7 0 0)
     (fun r k1 => r = - EINVAL /\
        wp (prctl PR_MCE_KILL_GET 0 0 0 0) (fun r' k2 => r' <> PR_MCE_KILL_DEFAULT /\ k2 = k1) k1) (sample_kernel ∅).
Proof.
  intros env arch. apply (mce_refused_changes_policy sample_no_lsm (sample_kernel ∅) (sample_task 1 301 201 0) 7).
  - reflexivity.
  - rewrite !not_elem_of_cons. split_and!; [discriminate..|]. apply not_elem_of_nil.
Defined.

Lemma validate_accepts_exactly_witness :
  let _ := sample_env 0 in
  let _ := simple_arch in
  let l := mkLayout 65536 70000 70000 80000 90000 95000 200000 100000 110000 110000 120000 in
  let rl := mkRlimit RLIM_INFINITY RLIM_INFINITY in
  wp (validate_prctl_map_addr l)
     (fun r k' => k' = sample_kernel ∅ /\ (r = 0 \/ r = - EINVAL) /\
        (r = 0 <-> layout_ok l /\
           check_data_rlimit (rlim_cur rl) (brk l) (start_brk l) (end_data l) (start_data l) = 0)) (sample_kernel ∅).
Proof.
  intros env arch l rl. apply (validate_accepts_exactly (sample_kernel ∅) l rl).
  - exact sample_user_state.
  - reflexivity.
Defined.
