(* ===== verification/ProcModules.v ===== *)
(** The loadable modules that publish CPU, memory and disk figures under /proc:
    [Modulos/CPU/cpu.c], [Modulos/RAM/ram.c] and [Modulos/STORAGE/disk.c].

    The three share one state: the entries of /proc, the [seq_file] objects that
    are allocated, the path references held, and what was written to the reader.
    A line of output is the list of its numbers; [printk] is left out. *)

From S2P Require Import Prelude.

Record mstate := mkMstate {
  entries : gset string;       (* names under /proc *)
  seq_files : Z;               (* allocated by single_open *)
  path_refs : Z;               (* references taken by kern_path *)
  prev_total : Z;              (* cpu.c *)
  prev_idle : Z;
  output : list (list Z);      (* newest first *)
}.
#[global] Instance eta_mstate : Eta mstate := fun s =>
  mkMstate (entries s) (seq_files s) (path_refs s) (prev_total s) (prev_idle s) (output s).
#[local] Abbreviation M := (Kern mstate).

Definition seq_printf (args : list Z) : M unit := modify (fun s => s <| output ::= cons args |>).

(** ** What is outside of the repository: [fs/proc/], [fs/seq_file.c], [fs/namei.c] *)
Class ProcEnv := {
  proc_create : string -> M bool;          (* false: NULL *)
  remove_proc_entry : string -> M unit;
  single_open : M Z;
  single_release : M unit;
  kern_path : M Z;
}.

(** Their documented behaviour.  [proc_create] makes the entry or returns NULL,
    [single_open] allocates one object that [single_release] frees, [kern_path]
    takes a reference on success; an error changes nothing. *)
Class ProcEnvOk `{ProcEnv} : Prop := {
  proc_create_ok name s :
    proc_create name s = Done true (s <| entries ::= union {[name]} |>) \/ proc_create name s = Done false s;
  remove_proc_entry_ok name s : remove_proc_entry name s = Done tt (s <| entries ::= fun e => e ∖ {[name]} |>);
  single_open_ok s :
    single_open s = Done 0 (s <| seq_files ::= Z.succ |>) \/ exists e, e < 0 /\ single_open s = Done e s;
  single_release_ok s : single_release s = Done tt (s <| seq_files ::= Z.pred |>);
  kern_path_ok s :
    kern_path s = Done 0 (s <| path_refs ::= Z.succ |>) \/ exists e, e < 0 /\ kern_path s = Done e s;
}.

(** The operations a module registers: how it prints, and what closing the file
    does, [None] for a missing [proc_release]. *)
Record proc_ops := mkOps { proc_show : M Z; proc_release : option (M unit) }.

(** A process opens the file, reads it and closes it. *)
Definition session `{ProcEnv} (ops : proc_ops) : M Z :=
  err ← single_open;
  if truthy err then mret err
  else
  r ← proc_show ops;
  match proc_release ops with Some release => release | None => mret tt end;;
  mret r.

(** ** Modulos/CPU/cpu.c *)
Module Cpu.
(** [kcpustat_cpu(cpu).cpustat], the fields the module reads, in its order. *)
Record cpustat := mkCpustat {
  user : Z; nice : Z; system : Z; idle_time : Z; iowait : Z;
  irq : Z; softirq : Z; steal : Z; guest : Z; guest_nice : Z;
}.

Definition total_cpu (c : cpustat) : Z :=
  u64 (user c + nice c + system c + idle_time c + iowait c + irq c + softirq c + steal c + guest c + guest_nice c).

Definition get_cpu_times (cpus : list cpustat) : Z * Z :=
  fold_left (fun '(total, idle) c => (u64 (total + total_cpu c), u64 (idle + idle_time c))) cpus (0, 0).

Definition usage_of (total idle prev_total prev_idle : Z) : Z :=
  if negb (prev_total =? 0) && negb (prev_idle =? 0) then
    let delta_total := u64 (total - prev_total) in
    let delta_idle := u64 (idle - prev_idle) in
    if 0 <? delta_total then u32 (u64 (10000 * u64 (delta_total - delta_idle)) / delta_total) else 0
  else 0.

Definition escribir_a_proc (cpus : list cpustat) : M Z :=
  s ← get;
  let '(total, idle) := get_cpu_times cpus in
  let usage := usage_of total idle (prev_total s) (prev_idle s) in
  modify (fun s => s <| prev_total := total |> <| prev_idle := idle |>);;
  seq_printf [usage / 100; usage mod 100];;
  mret 0.

Definition archivo_operaciones `{ProcEnv} (cpus : list cpustat) : proc_ops := mkOps (escribir_a_proc cpus) (Some single_release).

Definition modulo_init `{ProcEnv} : M Z :=
  entry ← proc_create "cpu_so2_201602404";
  mret (if (entry : bool) then 0 else - ENOMEM).
Definition modulo_cleanup `{ProcEnv} : M unit := remove_proc_entry "cpu_so2_201602404".
End Cpu.

(** ** Modulos/RAM/ram.c *)
Module Ram.
(** The members of [struct sysinfo] that [si_meminfo] fills in for the module. *)
Record meminfo := mkMeminfo { totalram : Z; freeram : Z; bufferram : Z; sharedram : Z; mem_unit : Z }.

Definition escribir_a_proc (inf : meminfo) : M Z :=
  let total := u64 (totalram inf * mem_unit inf) in
  let used := u64 (total - u64 ((freeram inf + bufferram inf + sharedram inf) * mem_unit inf)) in
  let free := u64 (freeram inf * mem_unit inf) in
  if total =? 0 then crashed DivByZero
  else
  seq_printf [total; used; u64 (used * 100) / total; free];;
  mret 0.

(** No [proc_release]. *)
Definition archivo_operaciones (inf : meminfo) : proc_ops := mkOps (escribir_a_proc inf) None.

(** The result of [proc_create] is not looked at. *)
Definition modulo_init `{ProcEnv} : M Z := proc_create "ram_so2_201602404";; mret 0.
Definition modulo_cleanup `{ProcEnv} : M unit := remove_proc_entry "ram_so2_201602404".
End Ram.

(** ** Modulos/STORAGE/disk.c *)
Module Disk.
Record kstatfs := mkStatfs { f_blocks : Z; f_bfree : Z; f_bavail : Z; f_bsize : Z }.

Definition to_gb (blocks bsize : Z) : Z := Z.shiftr (u64 (blocks * bsize)) 30.

(** [stats]: what [vfs_statfs] reports, [None] for an error.  An error line has no
    number. *)
Definition write_storage_stats `{ProcEnv} (stats : option kstatfs) : M Z :=
  err ← kern_path;
  if truthy err then seq_printf [];; mret 0
  else
  match stats with
  | None => seq_printf [];; mret 0
  | Some st =>
      let total_space_gb := to_gb (f_blocks st) (f_bsize st) in
      let free_space_gb := to_gb (f_bfree st) (f_bsize st) in
      let available_space_gb := to_gb (f_bavail st) (f_bsize st) in
      seq_printf [total_space_gb; free_space_gb; available_space_gb];;
      mret 0
  end.

Definition storage_stats_ops `{ProcEnv} (stats : option kstatfs) : proc_ops :=
  mkOps (write_storage_stats stats) (Some single_release).

Definition storage_stats_init `{ProcEnv} : M Z :=
  entry ← proc_create "disk_so2_201602404";
  mret (if (entry : bool) then 0 else - ENOMEM).
Definition storage_stats_exit `{ProcEnv} : M unit := remove_proc_entry "disk_so2_201602404".
End Disk.

(** ** The CPU figure *)

(** The times of all CPUs, before they are brought to 64 bits. *)
Definition exact_total (cpus : list Cpu.cpustat) : Z :=
  foldr (fun c acc => Cpu.user c + Cpu.nice c + Cpu.system c + Cpu.idle_time c + Cpu.iowait c + Cpu.irq c +
                      Cpu.softirq c + Cpu.steal c + Cpu.guest c + Cpu.guest_nice c + acc) 0 cpus.
Definition exact_idle (cpus : list Cpu.cpustat) : Z := foldr (fun c acc => Cpu.idle_time c + acc) 0 cpus.


Lemma get_cpu_times_exact cpus : Cpu.get_cpu_times cpus = (u64 (exact_total cpus), u64 (exact_idle cpus)).
Proof.
  assert (forall l t i, fold_left (fun '(total, idle) c => (u64 (total + Cpu.total_cpu c), u64 (idle + Cpu.idle_time c)))
    l (u64 t, u64 i) = (u64 (t + exact_total l), u64 (i + exact_idle l))) as Hfold.
  { induction l as [|c l IH]; intros t i; cbn [fold_left exact_total exact_idle foldr]; [by rewrite !Z.add_0_r|].
    assert (u64 (u64 t + Cpu.total_cpu c) = u64 (t + (Cpu.user c + Cpu.nice c + Cpu.system c + Cpu.idle_time c +
      Cpu.iowait c + Cpu.irq c + Cpu.softirq c + Cpu.steal c + Cpu.guest c + Cpu.guest_nice c))) as -> by apply u64_add_idemp.
    rewrite u64_add_l, IH. f_equal; f_equal; unfold exact_total, exact_idle; lia. }
  apply (Hfold cpus 0 0).
Qed.

Lemma usage_exact t i t0 i0 :
  0 < t0 -> 0 < i0 -> t0 < t < 2 ^ 64 -> i0 <= i < 2 ^ 64 -> i - i0 <= t - t0 -> 10000 * (t - t0) < 2 ^ 64 ->
  Cpu.usage_of t i t0 i0 = 10000 * (t - t0 - (i - i0)) / (t - t0) /\
  0 <= 10000 * (t - t0 - (i - i0)) / (t - t0) <= 10000.
Proof.
  intros Ht0 Hi0 Ht Hi Hd Hov.
  assert (0 <= 10000 * (t - t0 - (i - i0)) / (t - t0) <= 10000) as Hr.
  { split; [apply Z.div_pos; lia|]. apply Z.div_le_upper_bound; lia. }
  split; [|done]. unfold Cpu.usage_of.
  rewrite (proj2 (Z.eqb_neq t0 0)), (proj2 (Z.eqb_neq i0 0)) by lia. cbn [negb andb]. cbv zeta.
  rewrite (u64_id (t - t0)), (u64_id (i - i0)) by (unfold is_u64; lia).
  rewrite (proj2 (Z.ltb_lt 0 (t - t0))) by lia.
  rewrite (u64_id (t - t0 - (i - i0))) by (unfold is_u64; lia).
  rewrite (u64_id (10000 * _)) by (unfold is_u64; lia). apply u32_id. unfold is_u32. lia.
Qed.

(** Two readings of the CPU file, with the times of each. *)
Definition two_reads (before after : list Cpu.cpustat) : M Z :=
  Cpu.escribir_a_proc before;; Cpu.escribir_a_proc after.

(** the CPU module reports the busy share.  When the counters do not go back, the
    idle time grows by no more than the total, and less than 2^64 / 10000 units have
    passed, the second of two readings is the busy share since the first in
    hundredths of a percent, at most 100.00. *)
Theorem cpu_usage_exact s before after :
  0 < exact_total before -> 0 < exact_idle before ->
  exact_total before < exact_total after < 2 ^ 64 -> exact_idle before <= exact_idle after < 2 ^ 64 ->
  let total := exact_total after - exact_total before in
  let busy := total - (exact_idle after - exact_idle before) in
  0 <= busy -> 10000 * total < 2 ^ 64 ->
  wp (two_reads before after)
     (fun r s' => r = 0 /\ exists usage, head (output s') = Some [usage / 100; usage mod 100] /\
        usage = 10000 * busy / total /\ 0 <= usage <= 10000) s.
Proof.
  intros Ht Hi Htt Hii total busy Hb Hov. unfold two_reads, Cpu.escribir_a_proc.
  autorewrite with wp. rewrite !get_cpu_times_exact. cbv beta iota zeta. autorewrite with wp.
  unfold seq_printf. autorewrite with wp. split; [done|]. eexists. split; [reflexivity|].
  rewrite !u64_id by (unfold is_u64; lia).
  destruct (usage_exact (exact_total after) (exact_idle after) (exact_total before) (exact_idle before)) as [E R]; try lia.
  change (Cpu.usage_of _ _ _ _) with (Cpu.usage_of (exact_total after) (exact_idle after) (exact_total before) (exact_idle before)).
  rewrite E. split; [done|exact R].
Qed.

(** the CPU figure overflows.  When all CPUs were busy for so long that 10000 times
    the elapsed time exceeds 64 bits, the product wraps and the module reports less
    than 100.00 percent. *)
Theorem cpu_usage_overflows t i t0 :
  0 < t0 < t -> t < 2 ^ 64 -> 0 < i < 2 ^ 64 -> 2 ^ 64 <= 10000 * (t - t0) < 2 ^ 65 ->
  Cpu.usage_of t i t0 i = (10000 * (t - t0) - 2 ^ 64) / (t - t0) /\ Cpu.usage_of t i t0 i < 10000.
Proof.
  intros Ht Htt Hi Hov.
  assert (u64 (10000 * (t - t0)) = 10000 * (t - t0) - 2 ^ 64) as Hw.
  { unfold u64. symmetry. apply (Z.mod_unique _ _ 1); lia. }
  assert (0 <= (10000 * (t - t0) - 2 ^ 64) / (t - t0) < 10000) as Hr.
  { split; [apply Z.div_pos; lia|]. apply Z.div_lt_upper_bound; lia. }
  assert (Cpu.usage_of t i t0 i = (10000 * (t - t0) - 2 ^ 64) / (t - t0)) as E.
  { unfold Cpu.usage_of. rewrite (proj2 (Z.eqb_neq t0 0)), (proj2 (Z.eqb_neq i 0)) by lia. cbn [negb andb]. cbv zeta.
    rewrite Z.sub_diag. change (u64 0) with 0. rewrite (u64_id (t - t0)) by (unfold is_u64; lia).
    rewrite (proj2 (Z.ltb_lt 0 (t - t0))) by lia. rewrite Z.sub_0_r, (u64_id (t - t0)), Hw by (unfold is_u64; lia).
    apply u32_id. unfold is_u32. lia. }
  rewrite E. split; [done|lia].
Qed.

(** ** Resources *)
Section Resources.
Context `{ProcEnvOk}.

(** Print and close, once the file is open. *)
Lemma session_opened (ops : proc_ops) (Q : Z -> mstate -> Prop) s :
  (forall e, e < 0 -> Q e s) ->
  wp (r ← proc_show ops; match proc_release ops with Some release => release | None => mret tt end;; mret r) Q
     (s <| seq_files ::= Z.succ |>) ->
  wp (session ops) Q s.
Proof.
  intros Herr Hok. unfold session. rewrite wp_bind. unfold wp at 1.
  destruct (single_open_ok s) as [->|(e & He & ->)]; [exact Hok|].
  rewrite (proj2 (truthy_true e)) by lia. by apply Herr.
Qed.

(** the disk module leaks path references.  A session frees the object it opened
    and stores the three sizes in GB, but when the partition is found the reference
    [kern_path] took is still held afterwards. *)
Theorem disk_session_leaks_path s st :
  wp (session (Disk.storage_stats_ops (Some st)))
     (fun r s' => seq_files s' = seq_files s /\
        (path_refs s' = path_refs s \/
         path_refs s' = path_refs s + 1 /\ r = 0 /\
         head (output s') = Some [Disk.to_gb (Disk.f_blocks st) (Disk.f_bsize st);
           Disk.to_gb (Disk.f_bfree st) (Disk.f_bsize st); Disk.to_gb (Disk.f_bavail st) (Disk.f_bsize st)])) s.
Proof.
  apply session_opened; [auto|]. cbn [proc_show proc_release Disk.storage_stats_ops].
  unfold Disk.write_storage_stats. rewrite wp_bind. set (s1 := s <| seq_files ::= Z.succ |>).
  rewrite wp_bind. unfold wp at 1. destruct (kern_path_ok s1) as [->|(e & He & ->)].
  - change (truthy 0) with false. cbv iota zeta. unfold seq_printf. autorewrite with wp.
    erewrite wp_run by apply single_release_ok. rewrite wp_ret. cbn.
    split; [lia|]. right. split_and!; [lia|done|done].
  - rewrite (proj2 (truthy_true e)) by lia. unfold seq_printf. autorewrite with wp.
    erewrite wp_run by apply single_release_ok. rewrite wp_ret. cbn. split; [lia|by left].
Qed.

Fixpoint sessions (n : nat) (ops : proc_ops) : M Z :=
  match n with
  | O => mret 0
  | S n => r ← session ops; opened ← sessions n ops; mret (if r =? 0 then opened + 1 else opened)
  end.

(** the memory module leaks.  Every successful session of it leaves the object
    that [single_open] allocated behind: after any number of sessions as many are
    left as sessions succeeded. *)
Theorem ram_sessions_leak n inf s :
  0 < Ram.totalram inf * Ram.mem_unit inf < 2 ^ 64 ->
  wp (sessions n (Ram.archivo_operaciones inf))
     (fun opened s' => seq_files s' = seq_files s + opened /\ 0 <= opened <= Z.of_nat n) s.
Proof.
  intros Hnz. revert s. induction n as [|n IH]; intros s; cbn [sessions]; [rewrite wp_ret; lia|].
  assert (forall r s1, seq_files s1 = seq_files s + (if r =? 0 then 1 else 0) ->
    wp (opened ← sessions n (Ram.archivo_operaciones inf); mret (if r =? 0 then opened + 1 else opened))
       (fun opened s' => seq_files s' = seq_files s + opened /\ 0 <= opened <= Z.of_nat (S n)) s1) as Hnext.
  { intros r s1 Hs1. rewrite wp_bind. eapply wp_mono, IH. intros opened s2 [Hs2 Ho]. rewrite wp_ret.
    destruct (r =? 0); lia. }
  rewrite wp_bind. apply session_opened.
  - intros e He. apply Hnext. destruct (Z.eqb_spec e 0); lia.
  - cbn [proc_show proc_release Ram.archivo_operaciones]. unfold Ram.escribir_a_proc, seq_printf. cbv zeta.
    rewrite (u64_id (_ * _)) by (unfold is_u64; lia). rewrite (proj2 (Z.eqb_neq _ 0)) by lia.
    erewrite wp_run by reflexivity. apply (Hnext 0). cbn. lia.
Qed.
End Resources.

(** ** Concrete runs *)
#[global] Instance sample_proc : ProcEnv := {|
  proc_create name := modify (fun s => s <| entries ::= union {[name]} |>);; mret true;
  remove_proc_entry name := modify (fun s => s <| entries ::= fun e => e ∖ {[name]} |>);
  single_open := modify (fun s => s <| seq_files ::= Z.succ |>);; mret 0;
  single_release := modify (fun s => s <| seq_files ::= Z.pred |>);
  kern_path := modify (fun s => s <| path_refs ::= Z.succ |>);; mret 0;
|}.
#[global] Instance sample_proc_ok : ProcEnvOk.
Proof. split; intros; try (by left); done. Qed.
Definition fresh : mstate := mkMstate ∅ 0 0 0 0 [].

Lemma cpu_usage_exact_witness :
  let before := [Cpu.mkCpustat 100 0 50 850 0 0 0 0 0 0] in
  let after := [Cpu.mkCpustat 175 0 50 875 0 0 0 0 0 0] in
  let total := exact_total after - exact_total before in
  let busy := total - (exact_idle after - exact_idle before) in
  wp (two_reads before after)
     (fun r s' => r = 0 /\ exists usage, head (output s') = Some [usage / 100; usage mod 100] /\
        usage = 10000 * busy / total /\ 0 <= usage <= 10000) fresh.
Proof. intros before after total busy. apply (cpu_usage_exact fresh before after); vm_compute; split || idtac; done. Defined.

Lemma cpu_usage_overflows_witness :
  Cpu.usage_of (2 ^ 51 + 1) 5 1 5 = (10000 * (2 ^ 51 + 1 - 1) - 2 ^ 64) / (2 ^ 51 + 1 - 1) /\
  Cpu.usage_of (2 ^ 51 + 1) 5 1 5 < 10000.
Proof. apply (cpu_usage_overflows (2 ^ 51 + 1) 5 1); lia. Defined.

Lemma ram_sessions_leak_witness :
  let inf := Ram.mkMeminfo 1000 400 50 10 4096 in
  wp (sessions 3 (Ram.archivo_operaciones inf))
     (fun opened s' => seq_files s' = seq_files fresh + opened /\ 0 <= opened <= Z.of_nat 3) fresh.
Proof. intros inf. apply (ram_sessions_leak 3 inf fresh). vm_compute. done. Defined.
