(* ===== verification/Stats.v ===== *)
(** The statistics syscalls: [kernel/usac/taro_estadisticas_ind.c],
    [taro_estadisticas_tod.c], [memory_snapshot.c] and [io_throttle.c].

    Each gathers numbers from kernel objects into a C struct and copies it to
    user memory.  A struct is a record with the byte image the compiler gives
    it; padding is what the stack held. *)

From S2P Require Import Prelude Uaccess Kernel.

(** ** Memory of a process: [taro_estadisticas_ind.c] *)
Record process_mem_stats := mkStats {
  st_pid : Z;
  reserved_kb : Z;
  committed_kb : Z;
  committed_pct : Z;
  oom_score : Z;
}.

Definition sizeof_stats : Z := 40.

(** The object in memory; [stack] is what its 40 bytes held before. *)
Definition stats_image (stack : list Z) (st : process_mem_stats) : list Z :=
  le_bytes 4 (st_pid st) ++ take 4 (drop 4 stack) ++
  le_bytes 8 (reserved_kb st) ++ le_bytes 8 (committed_kb st) ++ le_bytes 8 (committed_pct st) ++
  le_bytes 4 (oom_score st) ++ take 4 (drop 36 stack).

Definition pages_kb (pages : Z) : Z := u64 (pages * PAGE_SIZE) / 1024.
Definition percent (committed reserved : Z) : Z :=
  if 0 <? reserved then u64 (committed * 100) / reserved else 0.

(** [badness] is an [unsigned long], so is its product with [oom_score_adj]. *)
Definition score_of (badness oom_score_adj : Z) : Z :=
  let badness := u64 badness in
  let badness := u64 (badness + u64 (badness * u64 oom_score_adj) / 1000) in
  s32 (if 1000 <? badness then 1000 else if badness <? 0 then 0 else badness).

Section Ind.
Context `{UserArch} `{KernelEnv}.
Context (stack : list Z).

(** The fields of [local_stats] for a task and its address space. *)
Definition local_stats (task mm pid total_pages : Z) : Kern kernel process_mem_stats :=
  m ← mm_at mm;
  badness ← gets (fun k => oom_badness (k_tasks k) (k_signals k) (k_mms k) task total_pages);
  t ← task_at task;
  sg ← task_signal t;
  mret (mkStats pid (pages_kb (total_vm m)) (pages_kb (get_mm_rss m))
    (percent (pages_kb (get_mm_rss m)) (pages_kb (total_vm m)))
    (score_of badness (oom_score_adj sg))).

(** The loop over all processes, inside the RCU section. *)
Fixpoint all_stats (l : list Z) (total_pages stats stats_len copied : Z) : Kern kernel Z :=
  match l with
  | [] => rcu_read_unlock;; mret copied
  | task :: l =>
      if stats_len <? u64 (copied + sizeof_stats) then rcu_read_unlock;; mret (- ENOSPC)
      else
      t ← task_at task;
      if t_mm t =? 0 then all_stats l total_pages stats stats_len copied
      else
      st ← local_stats task (t_mm t) (t_nr t) total_pages;
      uncopied ← k_copy_to_user (stats + copied) (stats_image stack st);
      if truthy uncopied then rcu_read_unlock;; mret (- EFAULT)
      else all_stats l total_pages stats stats_len (u64 (copied + sizeof_stats))
  end.

Definition taro_ind_mem_stats (pid stats stats_len : Z) : Kern kernel Z :=
  if (stats =? 0) || (stats_len =? 0) then mret (- EINVAL)
  else
  let total_pages := totalram_pages in
  if 0 <? pid then
    rcu_read_lock;;
    task ← find_task_by_vpid pid;
    match task with
    | None => rcu_read_unlock;; mret (- ESRCH)
    | Some task =>
        get_task_struct task;;
        rcu_read_unlock;;
        t ← task_at task;
        if t_mm t =? 0 then put_task_struct task;; mret (- EFAULT)
        else
        st ← local_stats task (t_mm t) pid total_pages;
        put_task_struct task;;
        uncopied ← k_copy_to_user stats (stats_image stack st);
        if truthy uncopied then mret (- EFAULT) else mret sizeof_stats
    end
  else
    rcu_read_lock;;
    l ← gets k_procs;
    all_stats l total_pages stats stats_len 0.

End Ind.

(** ** Memory of all processes: [taro_estadisticas_tod.c] *)
Record total_mem_stats := mkTotals { total_reserved_mb : Z; total_committed_mb : Z }.

Definition totals_image (t : total_mem_stats) : list Z :=
  le_bytes 8 (total_reserved_mb t) ++ le_bytes 8 (total_committed_mb t).

Definition pages_mb (pages : Z) : Z := u64 (pages * PAGE_SIZE) / (1024 * 1024).

Section Tod.
Context `{UserArch} `{KernelEnv}.

Definition add_totals (task : Z) (local_totals : total_mem_stats) : Kern kernel total_mem_stats :=
  mm ← get_task_mm task;
  if mm =? 0 then mret local_totals
  else
  m ← mm_at mm;
  let local_totals := mkTotals (u64 (total_reserved_mb local_totals + pages_mb (total_vm m)))
                               (u64 (total_committed_mb local_totals + pages_mb (get_mm_rss m))) in
  mmput mm;;
  mret local_totals.

Definition taro_tod_mem_stats (totals : Z) : Kern kernel Z :=
  if totals =? 0 then mret (- EINVAL)
  else if negb (access_ok totals 16) then mret (- EFAULT)
  else
  rcu_read_lock;;
  l ← gets k_procs;
  local_totals ← for_each l add_totals (mkTotals 0 0);
  rcu_read_unlock;;
  uncopied ← k_copy_to_user totals (totals_image local_totals);
  if truthy uncopied then mret (- EFAULT) else mret 0.

End Tod.

(** ** The system's memory: [memory_snapshot.c]

    What [si_meminfo], [si_swapinfo], [global_node_page_state] and
    [total_swapcache_pages] report is a parameter. *)
Record meminfo := mkMeminfo {
  si_totalram : Z; si_freeram : Z; si_totalswap : Z; si_freeswap : Z;
  nr_active_anon : Z; nr_active_file : Z; nr_inactive_anon : Z; nr_inactive_file : Z;
  nr_swapcache : Z;
}.

Record mem_snapshot := mkSnapshot {
  total_memory : Z; free_memory : Z; active_pages : Z; inactive_pages : Z;
  swap_total : Z; swap_cached : Z; swap_used : Z;
}.

Definition snapshot_image (s : mem_snapshot) : list Z :=
  le_bytes 8 (total_memory s) ++ le_bytes 8 (free_memory s) ++ le_bytes 8 (active_pages s) ++
  le_bytes 8 (inactive_pages s) ++ le_bytes 8 (swap_total s) ++ le_bytes 8 (swap_cached s) ++
  le_bytes 8 (swap_used s).

Definition to_kb (pages : Z) : Z := u64 (Z.shiftl pages (PAGE_SHIFT - 10)).

Definition take_snapshot (si : meminfo) : mem_snapshot := {|
  total_memory := to_kb (si_totalram si);
  free_memory := to_kb (si_freeram si);
  active_pages := u64 (nr_active_anon si + nr_active_file si);
  inactive_pages := u64 (nr_inactive_anon si + nr_inactive_file si);
  swap_total := to_kb (si_totalswap si);
  swap_cached := to_kb (nr_swapcache si);
  swap_used := to_kb (u64 (si_totalswap si - si_freeswap si));
|}.

(** ** I/O of a process: [io_throttle.c] *)
Record io_stats := mkIoStats {
  bytes_read : Z; bytes_written : Z; read_syscalls : Z; write_syscalls : Z; io_wait_time : Z;
}.

Definition io_image (s : io_stats) : list Z :=
  le_bytes 8 (bytes_read s) ++ le_bytes 8 (bytes_written s) ++ le_bytes 8 (read_syscalls s) ++
  le_bytes 8 (write_syscalls s) ++ le_bytes 8 (io_wait_time s).

Definition io_of (a : io_accounting) : io_stats :=
  mkIoStats (ioac_read_bytes a) (ioac_write_bytes a) (ioac_syscr a) (ioac_syscw a) 0.

Section Snapshot.
Context `{UserArch}.

Definition capture_memory_snapshot (si : meminfo) (snapshot : Z) : Kern kernel Z :=
  uncopied ← k_copy_to_user snapshot (snapshot_image (take_snapshot si));
  if truthy uncopied then mret (- EFAULT) else mret 0.

(** [pid_task(find_vpid(pid), PIDTYPE_PID)] is the lookup of [find_task_by_vpid]. *)
Definition get_io_throttle (pid stats : Z) : Kern kernel Z :=
  rcu_read_lock;;
  task ← find_task_by_vpid pid;
  match task with
  | None => rcu_read_unlock;; mret (- ESRCH)
  | Some task =>
      t ← task_at task;
      let io_stat := io_of (ioac t) in
      rcu_read_unlock;;
      uncopied ← k_copy_to_user stats (io_image io_stat);
      if truthy uncopied then mret (- EFAULT) else mret 0
  end.

End Snapshot.

(** ** Arithmetic of the reported numbers *)

Lemma pages_kb_exact pages : 0 <= pages < 2 ^ 52 -> pages_kb pages = 4 * pages.
Proof.
  intros Hp. unfold pages_kb, PAGE_SIZE. rewrite u64_id by (unfold is_u64; lia).
  replace (pages * 4096) with (4 * pages * 1024) by lia. by apply Z.div_mul.
Qed.

Lemma percent_pages r v :
  0 <= r <= v -> v < 2 ^ 52 ->
  percent (4 * r) (4 * v) = (if 0 <? v then r * 100 / v else 0) /\
  0 <= percent (4 * r) (4 * v) <= 100.
Proof.
  intros Hr Hv. unfold percent. destruct (Z.ltb_spec 0 v).
  - rewrite (proj2 (Z.ltb_lt 0 (4 * v))), u64_id by (unfold is_u64; lia).
    replace (4 * r * 100) with (4 * (r * 100)) by lia.
    rewrite Z.div_mul_cancel_l by lia. split; [done|]. split.
    + apply Z.div_pos; lia.
    + apply Z.div_le_upper_bound; lia.
  - rewrite (proj2 (Z.ltb_ge 0 (4 * v))) by lia. lia.
Qed.

Lemma score_of_u64 badness adj :
  score_of badness adj =
    Z.min 1000 (u64 (u64 badness + u64 (u64 badness * u64 adj) / 1000)).
Proof.
  unfold score_of. set (b := u64 (u64 badness + _)).
  assert (0 <= b) by apply u64_range.
  rewrite s32_id by (unfold is_s32; repeat case_match; bool_facts; lia).
  repeat case_match; bool_facts; lia.
Qed.

Lemma score_of_range badness adj : 0 <= score_of badness adj <= 1000.
Proof.
  rewrite score_of_u64. pose proof (u64_range (u64 badness + u64 (u64 badness * u64 adj) / 1000)) as Hr.
  unfold is_u64 in Hr. lia.
Qed.

(** With a non-negative adjustment and a small badness the score is the intended one. *)
Lemma score_of_intended badness adj :
  0 <= badness < 2 ^ 50 -> 0 <= adj <= 1000 ->
  score_of badness adj = Z.min 1000 (badness + badness * adj / 1000).
Proof.
  intros Hb Ha. rewrite score_of_u64.
  rewrite (u64_id badness), (u64_id adj) by (unfold is_u64; lia).
  assert (0 <= badness * adj <= badness * 1000) by nia.
  assert (0 <= badness * adj / 1000 <= badness).
  { split; [apply Z.div_pos; lia|]. apply Z.div_le_upper_bound; lia. }
  rewrite (u64_id (badness * adj)) by (unfold is_u64; lia).
  by rewrite u64_id by (unfold is_u64; lia).
Qed.

(** A negative adjustment wraps around: the score is the maximum. *)
Lemma score_of_negative_adj badness adj :
  0 < badness < 2 ^ 50 -> - 1000 <= adj < 0 -> score_of badness adj = 1000.
Proof.
  intros Hb Ha. rewrite score_of_u64. rewrite (u64_id badness) by (unfold is_u64; lia).
  assert (u64 (badness * u64 adj) = 2 ^ 64 + badness * adj) as ->.
  { unfold u64. rewrite Z.mul_mod_idemp_r by lia.
    symmetry. apply (Z.mod_unique _ _ (-1)); nia. }
  assert (- 2 ^ 60 < badness * adj < 0) by nia.
  assert (9223372036854775 <= (2 ^ 64 + badness * adj) / 1000 < 18446744073709552) as Hd.
  { split; [apply Z.div_le_lower_bound; lia|]. apply Z.div_lt_upper_bound; lia. }
  rewrite u64_id by (unfold is_u64; lia). lia.
Qed.

(** A task that must not be killed has the badness [LONG_MIN]: without an
    adjustment its score is the maximum too. *)
Lemma score_of_unkillable : score_of (- 2 ^ 63) 0 = 1000.
Proof. done. Qed.

(** ** Behaviour of the per-process statistics *)
Section IndBehaviour.
Context `{UserArchOk} `{KernelEnv}.
Context (stack : list Z) (Hstack : length stack = 40%nat).

(** The record of a process, none when it has no address space. *)
Definition stats_of (k : kernel) (task pid : Z) : option process_mem_stats :=
  t ← k_tasks k !! task;
  m ← k_mms k !! t_mm t;
  sg ← k_signals k !! t_signal t;
  if t_mm t =? 0 then None
  else Some (mkStats pid (pages_kb (total_vm m)) (pages_kb (get_mm_rss m))
    (percent (pages_kb (get_mm_rss m)) (pages_kb (total_vm m)))
    (score_of (oom_badness (k_tasks k) (k_signals k) (k_mms k) task totalram_pages) (oom_score_adj sg))).

Lemma length_stats_image st : length (stats_image stack st) = 40%nat.
Proof.
  unfold stats_image. rewrite !length_app, !length_le_bytes, !length_take, !length_drop. lia.
Qed.

(** What the loop and the lookup see of a well-formed task. *)
Lemma stats_of_task k task pid t :
  kernel_wf k -> k_tasks k !! task = Some t ->
  if t_mm t =? 0 then stats_of k task pid = None
  else exists st, stats_of k task pid = Some st /\
         local_stats task (t_mm t) pid totalram_pages k = Done st k.
Proof.
  intros Hk Ht. destruct (kw_tasks k Hk _ _ Ht) as [_ [sg Hsg] Hm]. unfold stats_of.
  rewrite Ht. cbn. rewrite Hsg.
  destruct (Z.eqb_spec (t_mm t) 0) as [->|Hne].
  { by destruct (k_mms k !! 0). }
  destruct Hm as [|[m Hm]]; [done|]. rewrite Hm. cbn. eexists. split; [done|].
  unfold local_stats, mm_at, task_at, task_signal, signal_at. kernel_unfold.
  rewrite Hm. cbn. rewrite Ht. cbn. by rewrite Hsg.
Qed.

Lemma stats_of_same k k' task pid : same_objects k k' -> stats_of k' task pid = stats_of k task pid.
Proof. intros (Ht & Hs & Hm & _). unfold stats_of. by rewrite Ht, Hs, Hm. Qed.

(** One process: the lookup is protected, the reference is given back, and the
    record goes to user memory. *)
Definition one_post (k : kernel) (pid stats : Z) (r : Z) (k' : kernel) : Prop :=
  same_objects k k' /\ k_bare_lookups k' = k_bare_lookups k /\
  match k_vpids k !! pid with
  | None => r = - ESRCH /\ k_user k' = k_user k
  | Some task =>
      match stats_of (holding k task) task pid with
      | None => r = - EFAULT /\ k_user k' = k_user k
      | Some st => exists got, (got <= 40)%nat /\
          r = (if decide (got = 40%nat) then 40 else - EFAULT) /\
          k_user k' = write_bytes (k_user k) stats (take got (stats_image stack st))
      end
  end.


Lemma ind_one_behaviour k pid stats len :
  kernel_wf k -> 0 <= k_rcu k -> 0 < pid -> stats <> 0 -> len <> 0 ->
  wp (taro_ind_mem_stats stack pid stats len) (one_post k pid stats) k.
Proof.
  intros Hk Hrcu Hpid Hs Hl. unfold taro_ind_mem_stats, one_post.
  rewrite (proj2 (Z.eqb_neq _ _) Hs), (proj2 (Z.eqb_neq _ _) Hl), (proj2 (Z.ltb_lt _ _) Hpid).
  cbn [orb]. autorewrite with wp.
  destruct (k_vpids k !! pid) as [task|] eqn:Hv; change (k_vpids (k <| k_rcu ::= Z.succ |>)) with (k_vpids k);
    rewrite Hv; autorewrite with wp; set (k1 := (k <| k_rcu ::= Z.succ |>) <| k_bare_lookups ::= _ |>);
    assert (k_bare_lookups k1 = k_bare_lookups k) as Hb1
      by (cbn; by rewrite (proj2 (Z.ltb_lt 0 (Z.succ (k_rcu k)))) by lia).
  2:{ split_and!; try done. unfold k1. repeat split. cbn. by rewrite Z.pred_succ. }
  destruct (kw_vpids k Hk _ _ Hv) as [t Ht].
  rewrite (wp_run _ _ _ _ _ (holding_get k1 task t Ht)). autorewrite with wp.
  set (k2 := (holding k1 task) <| k_rcu ::= Z.pred |>).
  assert (same_objects (holding k task) k2 /\ k_user k2 = k_user k /\ k_bare_lookups k2 = k_bare_lookups k)
    as (Hk2 & Hu2 & Hb2).
  { unfold k2, holding. change (k_tasks k1) with (k_tasks k). rewrite Ht. repeat split; [|done].
    cbn. by rewrite Z.pred_succ. }
  pose proof (kernel_wf_same _ _ Hk2 (holding_wf k task t Hk Ht)) as Hwf2.
  rewrite <- (stats_of_same _ k2 task pid Hk2).
  assert (is_Some (k_tasks k2 !! task)) as [t2 Ht2].
  { unfold k2, holding. change (k_tasks k1) with (k_tasks k). rewrite Ht. cbn. rewrite lookup_insert_eq. by eexists. }
  pose proof (stats_of_task k2 task pid t2 Hwf2 Ht2) as Hst.
  pose proof (holding_put k task t k2 Hk Ht (proj1 Hk2)) as Hput. set (k3 := k2 <| k_tasks := k_tasks k |>) in *.
  assert (same_objects k k3) as Hk3.
  { unfold k3, k2, holding. change (k_tasks k1) with (k_tasks k). rewrite Ht. repeat split.
    cbn. by rewrite Z.pred_succ. }
  rewrite (wp_task_at _ _ _ t2) by done. destruct (t_mm t2 =? 0).
  { rewrite Hst. autorewrite with wp. rewrite (wp_run _ _ _ _ _ Hput), wp_ret.
    split_and!; done. }
  destruct Hst as (st & -> & Hrun). rewrite wp_bind, (wp_run _ _ _ _ _ Hrun).
  rewrite wp_bind, (wp_run _ _ _ _ _ Hput).
  apply wp_copy_out. rewrite length_stats_image. intros got Hgot. split_and!; [done..|].
  exists got. split_and!; [done..|]. change (k_user k3) with (k_user k2). by rewrite Hu2.
Qed.

(** All processes: the loop stops with -ENOSPC as soon as no room for a whole
    record is left, also before a process that has none. *)
Fixpoint fits (l : list (option process_mem_stats)) (copied len : Z)
  : bool * list process_mem_stats :=
  match l with
  | [] => (true, [])
  | o :: l =>
      if len <? copied + sizeof_stats then (false, [])
      else match o with
           | None => fits l copied len
           | Some st => let '(ok, written) := fits l (copied + sizeof_stats) len in (ok, st :: written)
           end
  end.

Definition all_records (k : kernel) (l : list Z) : list (option process_mem_stats) :=
  map (fun p => t ← k_tasks k !! p; stats_of k p (t_nr t)) l.

(** Every record of a buffer of [len] bytes can be written. *)
Definition user_buffer (m : gmap Z Z) (stats len : Z) : Prop :=
  forall off, 0 <= off -> off + sizeof_stats <= len -> can_copy_to m (stats + off) sizeof_stats.

Definition all_post (k : kernel) (stats copied : Z) (res : bool * list process_mem_stats)
    (r : Z) (k' : kernel) : Prop :=
  r = (if res.1 then copied + 40 * Z.of_nat (length res.2) else - ENOSPC) /\
  same_objects (k <| k_rcu ::= Z.pred |>) k' /\
  k_user k' = write_bytes (k_user k) (stats + copied) (concat (map (stats_image stack) res.2)) /\
  k_bare_lookups k' = k_bare_lookups k /\
  k_rcu_faults k' = k_rcu_faults k + (if 0 <? k_rcu k then Z.of_nat (length res.2) else 0).

Lemma all_records_same k k' l : same_objects k k' -> all_records k' l = all_records k l.
Proof.
  intros Hk. apply map_ext. intros p. rewrite (proj1 Hk).
  destruct (k_tasks k !! p); [|done]. by apply stats_of_same.
Qed.

Lemma all_stats_behaviour stats len l : forall k copied,
  kernel_wf k -> Forall (fun p => is_Some (k_tasks k !! p)) l ->
  0 <= copied <= len -> len + 40 < 2 ^ 64 -> user_buffer (k_user k) stats len ->
  wp (all_stats stack l totalram_pages stats len copied)
     (all_post k stats copied (fits (all_records k l) copied len)) k.
Proof.
  induction l as [|p l IH]; intros k copied Hk Hl Hc Hlen Hbuf; cbn [all_stats all_records map fits].
  { autorewrite with wp. repeat split; cbn; try done; [lia|]. case_match; lia. }
  inversion Hl as [|?? [t Ht] Hl']; subst.
  rewrite u64_id by (unfold is_u64, sizeof_stats; lia).
  destruct (Z.ltb_spec len (copied + sizeof_stats)) as [|Hroom].
  { autorewrite with wp. repeat split; cbn; try done. case_match; lia. }
  rewrite wp_bind, (wp_task_at _ _ _ t) by done. rewrite Ht. cbn [mbind option_bind].
  pose proof (stats_of_task k p (t_nr t) t Hk Ht) as Hst. destruct (t_mm t =? 0).
  { rewrite Hst. by apply IH. }
  destruct Hst as (st & -> & Hrun). rewrite wp_bind, (wp_run _ _ _ _ _ Hrun), wp_bind.
  unfold k_copy_to_user at 1. unfold wp at 1.
  rewrite copy_to_user_ok.
  2:{ unfold blen. rewrite length_stats_image. apply Hbuf; unfold sizeof_stats in *; lia. }
  cbn [truthy negb Z.eqb].
  set (k1 := user_accessed _ k).
  assert (same_objects k k1) as Hk1 by (by repeat split).
  specialize (IH k1 (copied + sizeof_stats) (kernel_wf_same _ _ Hk1 Hk) Hl').
  rewrite (all_records_same k k1) in IH by done. fold (all_records k l).
  destruct (fits (all_records k l) (copied + sizeof_stats) len) as [ok w].
  eapply wp_mono, IH; [| unfold sizeof_stats in *; lia | done |].
  - intros r k' (Hr & Hs & Hu & Hb & Hf). split_and!.
    + rewrite Hr. cbn [fst snd length]. unfold sizeof_stats. destruct ok; lia.
    + etransitivity; [|exact Hs]. by repeat split.
    + rewrite Hu. unfold k1. cbn [user_accessed k_user fst snd map concat].
      rewrite <- write_bytes_app, length_stats_image. f_equal. unfold sizeof_stats. lia.
    + done.
    + rewrite Hf. unfold k1. cbn. destruct (0 <? k_rcu k); lia.
  - intros off Ho Hoff. apply can_copy_to_write. by apply Hbuf.
Qed.

Lemma fits_prefix l copied len : (fits l copied len).2 `prefix_of` omap id l.
Proof.
  revert copied. induction l as [|[st|] l IH]; intros copied; cbn; [done|..].
  - case_match; [apply prefix_nil|]. specialize (IH (copied + sizeof_stats)).
    destruct (fits l _ len). by apply prefix_cons.
  - case_match; [apply prefix_nil|]. apply IH.
Qed.

(** Room for one more record than there are processes with memory is enough. *)
Lemma fits_enough l copied len :
  copied + 40 * Z.of_nat (S (length (omap id l))) <= len -> fits l copied len = (true, omap id l).
Proof.
  revert copied. induction l as [|[st|] l IH]; intros copied Hlen; [done|..];
    cbn [fits app omap list_omap id length fst snd] in *; unfold sizeof_stats in *.
  - rewrite (proj2 (Z.ltb_ge len (copied + 40))) by lia. by rewrite IH by lia.
  - rewrite (proj2 (Z.ltb_ge len (copied + 40))) by lia. by apply IH.
Qed.

Lemma fits_short l copied len :
  len < copied + 40 * Z.of_nat (length (omap id l)) -> copied <= len -> (fits l copied len).1 = false.
Proof.
  revert copied. induction l as [|[st|] l IH]; intros copied Hlen Hc; cbn [fits app omap list_omap id length fst snd] in *; [lia|..];
    unfold sizeof_stats in *.
  - destruct (Z.ltb_spec len (copied + 40)); [done|]. specialize (IH (copied + 40)).
    destruct (fits l _ len). apply IH; lia.
  - destruct (Z.ltb_spec len (copied + 40)); [done|]. apply IH; lia.
Qed.

(** A process without memory at the end needs room for a record too. *)
Lemma fits_last_none l copied len :
  len < copied + 40 * Z.of_nat (S (length (omap id l))) -> copied <= len ->
  (fits (l ++ [None]) copied len).1 = false.
Proof.
  revert copied. induction l as [|[st|] l IH]; intros copied Hlen Hc; cbn [fits app omap list_omap id length fst snd] in *; unfold sizeof_stats in *.
  - by rewrite (proj2 (Z.ltb_lt len (copied + 40))) by lia.
  - destruct (Z.ltb_spec len (copied + 40)); [done|]. specialize (IH (copied + 40)).
    destruct (fits _ _ len). apply IH; lia.
  - destruct (Z.ltb_spec len (copied + 40)); [done|]. apply IH; lia.
Qed.

Lemma fits_true l copied len : (fits l copied len).1 = true -> (fits l copied len).2 = omap id l.
Proof.
  revert copied. induction l as [|[st|] l IH]; intros copied; cbn; [done|..]; case_match; try done.
  - specialize (IH (copied + sizeof_stats)). destruct (fits l _ len). cbn [fits app omap list_omap id length fst snd] in *. intros ?. f_equal. by apply IH.
  - apply IH.
Qed.

(** The records of the processes that have memory, in process order. *)
Definition process_records (k : kernel) : list process_mem_stats := omap id (all_records k (k_procs k)).

Lemma ind_all_behaviour k pid stats len :
  kernel_wf k -> 0 <= k_rcu k -> pid <= 0 -> stats <> 0 -> 0 < len -> len + 40 < 2 ^ 64 ->
  user_buffer (k_user k) stats len ->
  wp (taro_ind_mem_stats stack pid stats len)
     (fun r k' => same_objects k k' /\
        let res := fits (all_records k (k_procs k)) 0 len in
        r = (if res.1 then 40 * Z.of_nat (length res.2) else - ENOSPC) /\
        k_user k' = write_bytes (k_user k) stats (concat (map (stats_image stack) res.2)) /\
        k_rcu_faults k' = k_rcu_faults k + Z.of_nat (length res.2)) k.
Proof.
  intros Hk Hrcu Hpid Hs Hl Hlen Hbuf. unfold taro_ind_mem_stats.
  rewrite (proj2 (Z.eqb_neq _ _) Hs), (proj2 (Z.eqb_neq len 0)), (proj2 (Z.ltb_ge 0 pid)) by lia.
  cbn [orb]. autorewrite with wp.
  set (k1 := k <| k_rcu ::= Z.succ |>).
  assert (kernel_wf k1) as Hk1 by (by apply kernel_wf_rcu).
  eapply wp_mono, all_stats_behaviour; try done; [|apply Hk|lia].
  intros r k' (Hr & Hsame & Hu & _ & Hf).
  change (all_records k1 (k_procs k1)) with (all_records k (k_procs k)) in *.
  cbv zeta. split_and!.
  - etransitivity; [|exact Hsame]. repeat split. cbn. by rewrite Z.pred_succ.
  - rewrite Hr. by rewrite Z.add_0_l.
  - rewrite Hu. by rewrite Z.add_0_r.
  - rewrite Hf. unfold k1. cbn. by rewrite (proj2 (Z.ltb_lt 0 (Z.succ (k_rcu k)))) by lia.
Qed.

(** for a positive pid [taro_ind_mem_stats] looks the process up under the
    RCU lock, gives back the reference it takes, changes no kernel object, and
    either copies the 40-byte record of the process and returns 40, or returns
    -ESRCH for an unknown pid and -EFAULT for a process without memory or a user
    buffer that does not take all bytes.  The length the caller passes plays no
    role: 40 bytes are written to a buffer of any length. *)
Theorem ind_one_process k pid stats len :
  kernel_wf k -> 0 <= k_rcu k -> 0 < pid -> stats <> 0 -> len <> 0 ->
  wp (taro_ind_mem_stats stack pid stats len) (one_post k pid stats) k.
Proof. apply ind_one_behaviour. Qed.

(** for a pid that is not positive the call writes the records of a prefix
    of the processes with memory, in process order and without gaps.  It returns
    their total size when all of them were written, which is the case whenever
    the buffer has room for one more record, and -ENOSPC otherwise, which is the
    case whenever the buffer is too small for them.  Each record is copied to
    user memory, which may sleep, inside of the RCU read-side section. *)
Theorem ind_all_processes k pid stats len :
  kernel_wf k -> 0 <= k_rcu k -> pid <= 0 -> stats <> 0 -> 0 < len -> len + 40 < 2 ^ 64 ->
  user_buffer (k_user k) stats len ->
  wp (taro_ind_mem_stats stack pid stats len)
     (fun r k' => same_objects k k' /\
        let recs := process_records k in
        exists written, written `prefix_of` recs /\
          k_user k' = write_bytes (k_user k) stats (concat (map (stats_image stack) written)) /\
          k_rcu_faults k' = k_rcu_faults k + Z.of_nat (length written) /\
          (r = 40 * Z.of_nat (length recs) /\ written = recs \/ r = - ENOSPC) /\
          (40 * Z.of_nat (S (length recs)) <= len -> r = 40 * Z.of_nat (length recs)) /\
          (len < 40 * Z.of_nat (length recs) -> r = - ENOSPC)) k.
Proof.
  intros Hk Hrcu Hpid Hs Hl Hlen Hbuf. eapply wp_mono, ind_all_behaviour; [|done..].
  intros r k' (Hsame & Hr & Hu & Hf). split; [done|].
  change (omap id (all_records k (k_procs k))) with (process_records k). cbv zeta.
  set (l := all_records k (k_procs k)) in *. exists (fits l 0 len).2.
  pose proof (fits_true l 0 len) as Htrue.
  split_and!; [apply fits_prefix | done | done | | |].
  - subst r. destruct (fits l 0 len) as [[|] w]; [left|by right]. cbn in *. by rewrite Htrue.
  - intros Hroom. rewrite Hr, fits_enough by done. done.
  - intros Hshort. rewrite Hr, fits_short by (done || lia). done.
Qed.

(** when the last process of the list has no memory of its own, a buffer
    that holds the records of all others exactly is refused with -ENOSPC. *)
Theorem ind_all_exact_buffer_refused k pid stats l :
  kernel_wf k -> 0 <= k_rcu k -> pid <= 0 -> stats <> 0 ->
  all_records k (k_procs k) = l ++ [None] ->
  let len := 40 * Z.of_nat (length (process_records k)) in
  0 < len -> len + 40 < 2 ^ 64 -> user_buffer (k_user k) stats len ->
  wp (taro_ind_mem_stats stack pid stats len) (fun r _ => r = - ENOSPC) k.
Proof.
  intros Hk Hrcu Hpid Hs Hl len Hpos Hlt Hbuf.
  eapply wp_mono, ind_all_behaviour; [|done..]. intros r k' (_ & Hr & _). rewrite Hr.
  assert (process_records k = omap id l) as Hp.
  { unfold process_records. rewrite Hl, omap_app. cbn. by rewrite app_nil_r. }
  rewrite Hl, fits_last_none; [done| |lia]. unfold len. rewrite Hp. lia.
Qed.

End IndBehaviour.

(** the memory figures of a record are exact: reserved and committed
    kilobytes are four times the pages, and the percentage is the rounded-down
    share of the committed pages, at most 100. *)
Theorem ind_record_figures `{KernelEnv} k task pid st :
  stats_of k task pid = Some st ->
  exists t m, k_tasks k !! task = Some t /\ k_mms k !! t_mm t = Some m /\
    (0 <= get_mm_rss m <= total_vm m -> total_vm m < 2 ^ 52 ->
     reserved_kb st = 4 * total_vm m /\ committed_kb st = 4 * get_mm_rss m /\
     committed_pct st = (if 0 <? total_vm m then get_mm_rss m * 100 / total_vm m else 0) /\
     0 <= committed_pct st <= 100).
Proof.
  unfold stats_of. destruct (k_tasks k !! task) as [t|]; [|done]. cbn.
  destruct (k_mms k !! t_mm t) as [m|] eqn:Hm; [|done]. cbn.
  destruct (k_signals k !! t_signal t) as [sg|]; [|done]. cbn. case_match; [done|]. intros [= <-].
  exists t, m. split_and!; [done..|]. intros Hr Hv. cbn.
  rewrite !pages_kb_exact by lia.
  split_and!; try done; by apply percent_pages.
Qed.

(** the reported OOM score is between 0 and 1000.  For a non-negative
    adjustment it is the badness raised by that many thousandths and capped; a
    negative adjustment, meant to protect a process, makes the unsigned product
    wrap around and yields the maximum 1000, and so does the badness LONG_MIN of
    a process that must not be killed. *)
Theorem ind_oom_score badness adj :
  0 <= badness < 2 ^ 50 -> - 1000 <= adj <= 1000 ->
  0 <= score_of badness adj <= 1000 /\
  score_of badness adj = (if (adj <? 0) && (0 <? badness) then 1000
                          else Z.min 1000 (badness + badness * Z.max 0 adj / 1000)) /\
  score_of (- 2 ^ 63) 0 = 1000.
Proof.
  intros Hb Ha. split; [apply score_of_range|]. split; [|apply score_of_unkillable].
  destruct (Z.ltb_spec adj 0), (Z.ltb_spec 0 badness); cbn [andb].
  - apply score_of_negative_adj; lia.
  - assert (badness = 0) as -> by lia. rewrite score_of_u64. done.
  - rewrite Z.max_r by lia. apply score_of_intended; lia.
  - rewrite Z.max_r by lia. apply score_of_intended; lia.
Qed.

(** ** Behaviour of the totals *)
Definition sum (l : list Z) : Z := foldr Z.add 0 l.

(** Rounding each term down loses less than one unit per term. *)
Lemma sum_div d l :
  0 < d -> sum (map (fun x => x / d) l) <= sum l / d /\
           sum l / d <= sum (map (fun x => x / d) l) + Z.of_nat (length l).
Proof.
  intros Hd. induction l as [|x l IH]; cbn [map sum foldr length]; [by rewrite Z.div_0_l by lia|].
  fold (sum l) in *. fold (sum (map (fun x => x / d) l)) in *.
  assert (x / d + sum l / d <= (x + sum l) / d <= x / d + sum l / d + 1) as Hs; [|lia].
  pose proof (Z.div_mod x d ltac:(lia)). pose proof (Z.mod_pos_bound x d Hd).
  pose proof (Z.div_mod (sum l) d ltac:(lia)). pose proof (Z.mod_pos_bound (sum l) d Hd).
  split.
  - apply Z.div_le_lower_bound; nia.
  - assert ((x + sum l) / d < x / d + sum l / d + 2); [|lia].
    apply Z.div_lt_upper_bound; nia.
Qed.

Section TodBehaviour.
Context `{UserArchOk} `{KernelEnv}.
(* get_task_mm() returns the task's own mm or NULL *)
Context (get_task_mm_own : forall t, get_task_mm_ptr t = t_mm t \/ get_task_mm_ptr t = 0).

(** The address spaces the traversal adds up, in process order. *)
Definition proc_mm (k : kernel) (p : Z) : option mm_struct :=
  t ← k_tasks k !! p;
  if get_task_mm_ptr t =? 0 then None else k_mms k !! get_task_mm_ptr t.
Definition proc_mms (k : kernel) (l : list Z) : list mm_struct := omap (proc_mm k) l.

(** One process: the reference to its mm is taken and given back. *)
Lemma add_totals_run k p acc :
  kernel_wf k -> is_Some (k_tasks k !! p) ->
  exists k',
    add_totals p acc k = Done
      (match proc_mm k p with
       | Some m => mkTotals (u64 (total_reserved_mb acc + pages_mb (total_vm m)))
                            (u64 (total_committed_mb acc + pages_mb (get_mm_rss m)))
       | None => acc
       end) k' /\
    same_objects k k' /\ k_user k' = k_user k.
Proof.
  intros Hk [t Ht]. unfold proc_mm, add_totals, get_task_mm, task_at. kernel_unfold. rewrite Ht. cbn.
  destruct (Z.eqb_spec (get_task_mm_ptr t) 0) as [->|Hne].
  { exists k. by repeat split. }
  assert (is_Some (k_mms k !! get_task_mm_ptr t)) as [m Hm].
  { destruct (get_task_mm_own t) as [E|E]; rewrite E in *; [|done].
    destruct (tw_mm _ _ (kw_tasks k Hk _ _ Ht)); done. }
  rewrite (proj2 (truthy_true _) Hne). unfold mmput, mm_at, put_mm. kernel_unfold. rewrite Hm. cbn.
  rewrite (proj2 (Z.eqb_neq _ _) Hne). cbn. rewrite !lookup_insert_eq. cbn. rewrite !lookup_insert_eq. cbn.
  pose proof (kw_mms k Hk _ _ Hm).
  destruct (Z.eqb_spec (Z.succ (mm_users m)) 1); [lia|].
  eexists. split; [done|]. repeat split. cbn. by apply mm_users_roundtrip.
Qed.

Lemma proc_mms_same k k' l : same_objects k k' -> proc_mms k' l = proc_mms k l.
Proof.
  intros (Ht & _ & Hm & _). unfold proc_mms. f_equal. unfold proc_mm. by rewrite Ht, Hm.
Qed.

Definition totals_of (l : list mm_struct) (a b : Z) : total_mem_stats :=
  mkTotals (u64 (a + sum (map (fun m => pages_mb (total_vm m)) l)))
           (u64 (b + sum (map (fun m => pages_mb (get_mm_rss m)) l))).

Lemma totals_of_cons m l a b :
  totals_of (m :: l) a b =
  totals_of l (u64 (a + pages_mb (total_vm m))) (u64 (b + pages_mb (get_mm_rss m))).
Proof. unfold totals_of, sum. cbn. rewrite !u64_add_l. by rewrite !Z.add_assoc. Qed.

Lemma for_each_totals l : forall k a b,
  kernel_wf k -> Forall (fun p => is_Some (k_tasks k !! p)) l ->
  is_u64 a -> is_u64 b ->
  exists k', for_each l add_totals (mkTotals a b) k = Done (totals_of (proc_mms k l) a b) k' /\
    same_objects k k' /\ k_user k' = k_user k.
Proof.
  induction l as [|p l IH]; intros k a b Hk Hl Ha Hb.
  { exists k. split; [|done]. unfold totals_of. cbn. by rewrite !Z.add_0_r, !u64_id. }
  inversion Hl as [|?? Hp Hl']; subst.
  destruct (add_totals_run k p (mkTotals a b) Hk Hp) as (k1 & Hrun & Hsame & Hu).
  cbn [for_each]. kernel_unfold. rewrite Hrun. cbn [total_reserved_mb total_committed_mb].
  assert (Forall (fun p => is_Some (k_tasks k1 !! p)) l) as Hl1 by (by rewrite (proj1 Hsame)).
  pose proof (kernel_wf_same _ _ Hsame Hk) as Hk1.
  unfold proc_mms. cbn [omap list_omap].
  destruct (proc_mm k p) as [m|].
  - destruct (IH k1 (u64 (a + pages_mb (total_vm m))) (u64 (b + pages_mb (get_mm_rss m)))) as (k2 & -> & Hs2 & Hu2);
      [done|done|apply u64_range|apply u64_range|].
    exists k2. rewrite proc_mms_same with (k := k) by done. fold (proc_mms k l).
    rewrite totals_of_cons. split; [done|]. split; [by etransitivity|congruence].
  - destruct (IH k1 a b) as (k2 & -> & Hs2 & Hu2); [done..|].
    exists k2. rewrite proc_mms_same with (k := k) by done.
    split; [done|]. split; [by etransitivity|congruence].
Qed.

Lemma tod_behaviour k totals :
  kernel_wf k -> totals <> 0 -> can_copy_to (k_user k) totals 16 ->
  wp (taro_tod_mem_stats totals)
     (fun r k' => r = 0 /\ same_objects k k' /\
        k_user k' = write_bytes (k_user k) totals (totals_image (totals_of (proc_mms k (k_procs k)) 0 0))) k.
Proof.
  intros Hk Ht Hc. unfold taro_tod_mem_stats. rewrite (proj2 (Z.eqb_neq _ _) Ht).
  destruct Hc as (Hc1 & Hc2 & Hc3 & Hc4). rewrite Hc3. cbn [negb]. autorewrite with wp.
  set (k1 := k <| k_rcu ::= Z.succ |>).
  destruct (for_each_totals (k_procs k1) k1 0 0) as (k2 & Hrun & Hs & Hu);
    [by apply kernel_wf_rcu | apply Hk | unfold is_u64; lia | unfold is_u64; lia |].
  rewrite (wp_run _ _ _ _ _ Hrun), wp_bind, wp_rcu_read_unlock. apply wp_copy_out_ok.
  { change (k_user (k2 <| k_rcu ::= Z.pred |>)) with (k_user k2). rewrite Hu. by split_and!. }
  split_and!; [done| |by cbn; rewrite Hu].
  unfold same_objects in *. cbn in *. destruct_and!. split_and!; try done.
  match goal with H : k_rcu k2 = _ |- _ => rewrite H end. by rewrite Z.pred_succ.
Qed.

Lemma reserved_sum (mms : list mm_struct) :
  let bytes := sum (map (fun m => total_vm m * PAGE_SIZE) mms) in
  let s := sum (map (fun m => pages_mb (total_vm m)) mms) in
  (forall m, m ∈ mms -> 0 <= total_vm m) -> bytes < 2 ^ 64 ->
  0 <= bytes /\ 0 <= s /\ s <= bytes / (1024 * 1024) <= s + Z.of_nat (length mms).
Proof.
  intros bytes s Hpos Hbytes.
  assert (0 <= bytes /\ 0 <= s /\ s = sum (map (fun x => x / (1024 * 1024)) (map (fun m => total_vm m * PAGE_SIZE) mms)))
    as (Hb & Hs & E).
  { induction mms as [|m l IH]; [done|]. unfold bytes, s in *. cbn [map sum foldr] in *.
    change (foldr Z.add 0) with sum in *.
    assert (0 <= total_vm m * PAGE_SIZE) by (unfold PAGE_SIZE; pose proof (Hpos m ltac:(set_solver)); lia).
    destruct IH as (Hb & Hs & E); [intros; apply Hpos; set_solver | lia |].
    unfold pages_mb in *. rewrite u64_id by (unfold is_u64; lia).
    pose proof (Z.div_pos (total_vm m * PAGE_SIZE) (1024 * 1024)). split_and!; lia. }
  split_and!; [done..| |]; rewrite E;
  pose proof (sum_div (1024 * 1024) (map (fun m => total_vm m * PAGE_SIZE) mms) ltac:(lia)) as [Hl Hr];
  by rewrite length_map in Hr.
Qed.

(** [taro_tod_mem_stats] leaves in user memory the sums, over the processes
    whose address space it can get, of the reserved and of the committed
    megabytes, each rounded down per process; every address space keeps its
    reference count.  As long as the bytes fit 64 bits, the reported sum is at
    most the true number of megabytes and less than it by at most one per
    process. *)
Theorem tod_totals k totals :
  kernel_wf k -> totals <> 0 -> can_copy_to (k_user k) totals 16 ->
  let mms := proc_mms k (k_procs k) in
  let bytes := sum (map (fun m => total_vm m * PAGE_SIZE) mms) in
  (forall m, m ∈ mms -> 0 <= total_vm m) -> bytes < 2 ^ 64 ->
  wp (taro_tod_mem_stats totals)
     (fun r k' => r = 0 /\ same_objects k k' /\
        exists reserved committed,
          k_user k' = write_bytes (k_user k) totals (totals_image (mkTotals reserved committed)) /\
          committed = u64 (sum (map (fun m => pages_mb (get_mm_rss m)) mms)) /\
          reserved <= bytes / (1024 * 1024) <= reserved + Z.of_nat (length mms)) k.
Proof.
  intros Hk Ht Hc mms bytes Hpos Hbytes. eapply wp_mono, tod_behaviour; [|done..].
  intros r k' (-> & Hs & Hu). split_and!; [done..|]. fold mms in Hu.
  eexists _, _. split; [exact Hu|]. split; [done|].
  destruct (reserved_sum mms) as (Hb & Hs' & Hle & Hge); [done..|].
  rewrite Z.add_0_l, u64_id; [done|]. unfold is_u64. split; [done|].
  eapply Z.le_lt_trans, Hbytes. etransitivity; [exact Hle|]. apply Z.div_le_upper_bound; [lia|]. fold bytes in Hb. lia.
Qed.

End TodBehaviour.

(** ** Behaviour of the snapshot and of the I/O statistics *)
Section SnapshotBehaviour.
Context `{UserArchOk}.

Lemma to_kb_exact pages : 0 <= pages < 2 ^ 62 -> to_kb pages = 4 * pages.
Proof.
  intros Hp. unfold to_kb. change (PAGE_SHIFT - 10) with 2. rewrite Z.shiftl_mul_pow2 by lia.
  rewrite u64_id by (unfold is_u64; lia). lia.
Qed.

(** [capture_memory_snapshot] either stores all 56 bytes of the snapshot and
    returns 0 or returns -EFAULT with a prefix of them stored.  For page counts
    below 2^62 memory and swap are reported in kilobytes, free memory never
    exceeds total memory and used swap is total less free, while the active and
    inactive figures are numbers of pages. *)
Theorem snapshot_figures k si snapshot :
  0 <= si_freeram si <= si_totalram si -> si_totalram si < 2 ^ 62 ->
  0 <= si_freeswap si <= si_totalswap si -> si_totalswap si < 2 ^ 62 ->
  wp (capture_memory_snapshot si snapshot)
     (fun r k' => same_objects k k' /\
        exists got, (got <= 56)%nat /\ r = (if decide (got = 56%nat) then 0 else - EFAULT) /\
          k_user k' = write_bytes (k_user k) snapshot (take got (snapshot_image (take_snapshot si)))) k /\
  let s := take_snapshot si in
  total_memory s = 4 * si_totalram si /\ 0 <= free_memory s <= total_memory s /\
  swap_total s = 4 * si_totalswap si /\ swap_used s = swap_total s - 4 * si_freeswap si /\
  active_pages s = u64 (nr_active_anon si + nr_active_file si).
Proof.
  intros Hf Ht Hsf Hst. split.
  - apply wp_copy_out. intros got Hgot.
    assert (length (snapshot_image (take_snapshot si)) = 56%nat) as Hlen
      by (unfold snapshot_image; by rewrite !length_app, !length_le_bytes).
    rewrite Hlen in *. split; [by repeat split|]. by exists got.
  - cbn. rewrite (u64_id (si_totalswap si - si_freeswap si)) by (unfold is_u64; lia).
    rewrite !to_kb_exact by lia. split_and!; lia.
Qed.

(** [get_io_throttle] looks the process up under the RCU lock, leaves every
    kernel object alone, returns -ESRCH for an unknown pid, and otherwise stores
    the four I/O counters of the task followed by a zero wait time; 0 means that
    all 40 bytes arrived. *)
Theorem io_throttle_counters k pid stats :
  kernel_wf k -> 0 <= k_rcu k ->
  wp (get_io_throttle pid stats)
     (fun r k' => same_objects k k' /\ k_bare_lookups k' = k_bare_lookups k /\
        match k_vpids k !! pid ≫= fun p => k_tasks k !! p with
        | None => r = - ESRCH /\ k_user k' = k_user k
        | Some t => exists got, (got <= 40)%nat /\ r = (if decide (got = 40%nat) then 0 else - EFAULT) /\
            k_user k' = write_bytes (k_user k) stats (take got (io_image (io_of (ioac t))))
        end) k.
Proof.
  intros Hk Hrcu. unfold get_io_throttle. autorewrite with wp.
  change (k_vpids (k <| k_rcu ::= Z.succ |>)) with (k_vpids k).
  set (k1 := (k <| k_rcu ::= Z.succ |>) <| k_bare_lookups ::= _ |>).
  assert (k_bare_lookups k1 = k_bare_lookups k) as Hb1
    by (cbn; by rewrite (proj2 (Z.ltb_lt 0 (Z.succ (k_rcu k)))) by lia).
  destruct (k_vpids k !! pid) as [p|] eqn:Hv; cbn [mbind option_bind].
  - destruct (kw_vpids k Hk _ _ Hv) as [t Ht]. rewrite Ht, wp_bind, (wp_task_at _ _ _ t) by done.
    rewrite wp_bind, wp_rcu_read_unlock. apply wp_copy_out. intros got Hgot.
    assert (length (io_image (io_of (ioac t))) = 40%nat) as Hlen
      by (unfold io_image; by rewrite !length_app, !length_le_bytes).
    rewrite Hlen in *. split_and!; [|done|by exists got].
    unfold k1. repeat split. cbn. by rewrite Z.pred_succ.
  - autorewrite with wp. split_and!; [|done..]. unfold k1. repeat split. cbn. by rewrite Z.pred_succ.
Qed.

End SnapshotBehaviour.

(** ** Concrete runs *)
Definition user_page : gmap Z Z := write_bytes ∅ 4096 (replicate 200 255).
Definition stats_kernel : kernel := sample_kernel user_page.
Definition stack40 : list Z := replicate 40 170.

Lemma user_page_ok a n :
  4096 <= a -> 0 <= n -> a + n <= 4296 -> can_copy_to user_page a n.
Proof.
  intros Ha Hn Hl. unfold user_page. apply stored_can_copy_to; rewrite ?length_replicate; lia.
Qed.

Lemma ind_one_process_witness :
  let _ := sample_env 0 in
  wp (taro_ind_mem_stats stack40 7 4096 1) (one_post stack40 stats_kernel 7 4096) stats_kernel.
Proof.
  intros env. apply (ind_one_process stack40 eq_refl stats_kernel 7 4096 1);
    [apply sample_kernel_wf | done | lia | done | done].
Defined.

Lemma stats_buffer : user_buffer (k_user stats_kernel) 4096 160.
Proof. intros off Ho Hl. unfold sizeof_stats in *. apply user_page_ok; lia. Qed.

Lemma ind_all_processes_witness :
  let _ := sample_env 0 in
  let recs := process_records stats_kernel in
  length recs = 2%nat /\
  wp (taro_ind_mem_stats stack40 0 4096 160)
     (fun r k' => same_objects stats_kernel k' /\
        exists written, written `prefix_of` recs /\
          k_user k' = write_bytes (k_user stats_kernel) 4096 (concat (map (stats_image stack40) written)) /\
          k_rcu_faults k' = k_rcu_faults stats_kernel + Z.of_nat (length written) /\
          (r = 40 * Z.of_nat (length recs) /\ written = recs \/ r = - ENOSPC) /\
          (40 * Z.of_nat (S (length recs)) <= 160 -> r = 40 * Z.of_nat (length recs)) /\
          (160 < 40 * Z.of_nat (length recs) -> r = - ENOSPC)) stats_kernel.
Proof.
  intros env recs. split; [done|].
  apply (ind_all_processes stack40 eq_refl stats_kernel 0 4096 160);
    [apply sample_kernel_wf | done | done | done | lia | lia | apply stats_buffer].
Defined.

(** The same system with a kernel thread, pid 9, at the end of the list. *)
Definition kthread_kernel : kernel := {|
  k_tasks := {[ 107 := sample_task 7 307 207 1000; 109 := sample_task 9 0 207 0 ]};
  k_signals := {[ 207 := sample_signal 107 7 ]};
  k_mms := {[ 307 := sample_mm ]};
  k_fs := ∅;
  k_vpids := {[ 7 := 107; 9 := 109 ]};
  k_procs := [107; 109];
  k_current := 107;
  k_user := user_page;
  k_rcu := 0; k_bare_lookups := 0; k_rcu_faults := 0; k_cpu_timers := []; k_log := [];
|}.

Lemma kthread_kernel_wf : kernel_wf kthread_kernel.
Proof.
  assert (forall {A} (a b : Z) (x y : A) i v, ({[ a := x; b := y ]} : gmap Z A) !! i = Some v ->
    (i = a /\ v = x) \/ (i = b /\ v = y)) as Hpair.
  { intros A a b x y i v [[-> ->]|[_ [-> ->]%lookup_singleton_Some]]%lookup_insert_Some; auto. }
  split; cbn.
  - intros nr p [[-> ->]|[-> ->]]%Hpair; eauto.
  - intros p t [[-> ->]|[-> ->]]%Hpair; split; cbn; eauto; lia.
  - intros p m [<- <-]%lookup_singleton_Some. cbn. lia.
  - intros p s [<- <-]%lookup_singleton_Some. done.
  - eauto.
  - repeat constructor; eauto.
Qed.

Lemma ind_all_exact_buffer_refused_witness :
  let _ := sample_env 0 in
  wp (taro_ind_mem_stats stack40 0 4096 40) (fun r _ => r = - ENOSPC) kthread_kernel.
Proof.
  intros env.
  apply (ind_all_exact_buffer_refused stack40 eq_refl kthread_kernel 0 4096
           (take 1 (all_records kthread_kernel [107; 109])));
    [apply kthread_kernel_wf | done | done | done | by vm_compute | by vm_compute | by vm_compute |].
  intros off Ho Hl. change (40 * _) with 40 in Hl. unfold sizeof_stats in *. apply user_page_ok; lia.
Defined.

Lemma ind_record_figures_witness :
  let _ := sample_env 0 in
  exists st, stats_of stats_kernel 107 7 = Some st /\
  exists t m, k_tasks stats_kernel !! 107 = Some t /\ k_mms stats_kernel !! t_mm t = Some m /\
    (0 <= get_mm_rss m <= total_vm m -> total_vm m < 2 ^ 52 ->
     reserved_kb st = 4 * total_vm m /\ committed_kb st = 4 * get_mm_rss m /\
     committed_pct st = (if 0 <? total_vm m then get_mm_rss m * 100 / total_vm m else 0) /\
     0 <= committed_pct st <= 100).
Proof.
  intros env. eexists. split; [by vm_compute|]. apply (ind_record_figures stats_kernel 107 7). by vm_compute.
Defined.

Lemma ind_oom_score_witness :
  0 <= score_of 500 (-250) <= 1000 /\
  score_of 500 (-250) = 1000 /\
  score_of (- 2 ^ 63) 0 = 1000.
Proof. apply (ind_oom_score 500 (-250)); lia. Defined.

Lemma tod_totals_witness :
  let _ := sample_env 0 in
  let mms := proc_mms stats_kernel (k_procs stats_kernel) in
  let bytes := sum (map (fun m => total_vm m * PAGE_SIZE) mms) in
  wp (taro_tod_mem_stats 4096)
     (fun r k' => r = 0 /\ same_objects stats_kernel k' /\
        exists reserved committed,
          k_user k' = write_bytes (k_user stats_kernel) 4096 (totals_image (mkTotals reserved committed)) /\
          committed = u64 (sum (map (fun m => pages_mb (get_mm_rss m)) mms)) /\
          reserved <= bytes / (1024 * 1024) <= reserved + Z.of_nat (length mms)) stats_kernel.
Proof.
  intros env mms bytes. refine (tod_totals _ stats_kernel 4096 _ _ _ _ _).
  - intros t. cbn. case_match; auto.
  - apply sample_kernel_wf.
  - done.
  - apply user_page_ok; lia.
  - apply Forall_forall. change (Forall (fun m => 0 <= total_vm m) [sample_mm; sample_mm]).
    repeat constructor; cbn; lia.
  - by vm_compute.
Defined.

Lemma snapshot_figures_witness :
  let si := mkMeminfo 1000000 250000 500000 400000 10 20 30 40 5 in
  wp (capture_memory_snapshot si 4096)
     (fun r k' => same_objects stats_kernel k' /\
        exists got, (got <= 56)%nat /\ r = (if decide (got = 56%nat) then 0 else - EFAULT) /\
          k_user k' = write_bytes (k_user stats_kernel) 4096 (take got (snapshot_image (take_snapshot si)))) stats_kernel.
Proof.
  intros si. apply (snapshot_figures stats_kernel si 4096); cbn; lia.
Defined.

Lemma io_throttle_counters_witness :
  wp (get_io_throttle 7 4096)
     (fun r k' => same_objects stats_kernel k' /\ k_bare_lookups k' = k_bare_lookups stats_kernel /\
        exists got, (got <= 40)%nat /\ r = (if decide (got = 40%nat) then 0 else - EFAULT) /\
            k_user k' = write_bytes (k_user stats_kernel) 4096 (take got (io_image (mkIoStats 8192 4096 10 5 0)))) stats_kernel.
Proof. apply (io_throttle_counters stats_kernel 7 4096); [apply sample_kernel_wf | done]. Defined.
