(* ===== verification/Track.v ===== *)
(** Syscall tracking: [kernel/usac/track_syscalls.c].

    Four counters, allocated by the first call of [track_syscall_usage], are
    bumped by hooks in the open, close, read and write system calls.  The second
    part models the unprotected [count++] of several CPUs as interleaved loads
    and stores. *)

From S2P Require Import Prelude Uaccess Kernel.

Record timespec64 := mkTime { tv_sec : Z; tv_nsec : Z }.
Record syscall_usage := mkUsage { count : Z; time_last_used : timespec64 }.
#[global] Instance eta_usage : Eta syscall_usage := fun u => mkUsage (count u) (time_last_used u).

Definition MAX_SYS_CALLS : Z := 4.
Definition zero_usage : syscall_usage := mkUsage 0 (mkTime 0 0).

Record trstate := mkTr {
  tr_k : kernel;
  syscall_counters : option (list syscall_usage);   (* NULL until allocated *)
}.
#[global] Instance eta_tr : Eta trstate := fun s => mkTr (tr_k s) (syscall_counters s).

Definition usage_image (u : syscall_usage) : list Z :=
  le_bytes 8 (count u) ++ le_bytes 8 (tv_sec (time_last_used u)) ++ le_bytes 8 (tv_nsec (time_last_used u)).

Section Track.
Context `{UserArch}.

(** [kzalloc]: whether the allocator has memory. *)
Definition init_syscall_counters (kzalloc : bool) : Kern trstate Z :=
  let p := if kzalloc then Some (replicate (Z.to_nat MAX_SYS_CALLS) zero_usage) else None in
  modify (fun s => s <| syscall_counters := p |>);;
  mret (if p is Some _ then 0 else - ENOMEM).

(** [syscall_counters[syscall_id]]. *)
Definition counter_at (cs : list syscall_usage) (syscall_id : Z) : option syscall_usage :=
  if syscall_id <? 0 then None else cs !! Z.to_nat syscall_id.
Definition set_counter_at (syscall_id : Z) (u : syscall_usage) : Kern trstate unit :=
  modify (fun s => s <| syscall_counters ::= fmap (M := option) <[Z.to_nat syscall_id := u]> |>).

(** [now] is what [ktime_get_real_ts64] returns. *)
Definition track_syscall (syscall_id : Z) (now : timespec64) : Kern trstate unit :=
  counters ← gets syscall_counters;
  match counters with
  | None => mret tt
  | Some cs =>
      if MAX_SYS_CALLS <=? syscall_id then mret tt
      else
      u ← deref OutOfBounds (counter_at cs syscall_id);
      set_counter_at syscall_id (u <| count := u64 (count u + 1) |>);;
      set_counter_at syscall_id (mkUsage (u64 (count u + 1)) now)
  end.

Definition track_syscall_usage (kzalloc : bool) (statistics : Z) : Kern trstate Z :=
  counters ← gets syscall_counters;
  err ← (if counters is None then init_syscall_counters kzalloc else mret 0);
  if truthy err then mret (- ENOMEM)
  else
  counters ← gets syscall_counters;
  cs ← deref NullDeref counters;
  resultadoCopia ← zoom tr_k (fun k s => s <| tr_k := k |>)
    (k_copy_to_user statistics (concat (map usage_image cs)));
  if truthy resultadoCopia then mret (- EFAULT) else mret 0.

(** ** Runs

    A history of hook invocations and of calls of [track_syscall_usage]. *)
Inductive event :=
  | Hook (syscall_id : Z) (now : timespec64)
  | Usage (kzalloc : bool) (statistics : Z).

Fixpoint run_events (es : list event) : Kern trstate unit :=
  match es with
  | [] => mret tt
  | Hook i now :: es => track_syscall i now;; run_events es
  | Usage kz p :: es => track_syscall_usage kz p;; run_events es
  end.

(** What the counters should be: the number of hook invocations, and the time of
    the last one, since the first call that could allocate them. *)
Fixpoint since_allocated (es : list event) : option (list event) :=
  match es with
  | [] => None
  | Usage true _ :: es => Some es
  | _ :: es => since_allocated es
  end.

Definition bump (u : syscall_usage) (i : Z) (e : event) : syscall_usage :=
  match e with
  | Hook j now => if j =? i then mkUsage (u64 (count u + 1)) now else u
  | Usage _ _ => u
  end.
Definition usage_of (i : Z) (es : list event) : syscall_usage := fold_left (fun u e => bump u i e) es zero_usage.

Definition hooks_of (i : Z) (es : list event) : list timespec64 :=
  omap (fun e => if e is Hook j now then (if j =? i then Some now else None) else None) es.

(** ** Lemmas *)
Lemma fold_bump i es : forall u, is_u64 (count u) ->
  let u' := fold_left (fun u e => bump u i e) es u in
  count u' = u64 (count u + Z.of_nat (length (hooks_of i es))) /\
  time_last_used u' = default (time_last_used u) (last (hooks_of i es)).
Proof.
  induction es as [|e es IH]; intros u Hu; cbn [fold_left].
  { cbn. by rewrite Z.add_0_r, u64_id. }
  destruct e as [j now|kz p]; [|by apply IH].
  unfold hooks_of in *. cbn [bump omap list_omap]. destruct (j =? i); [|by apply IH].
  destruct (IH (mkUsage (u64 (count u + 1)) now)) as [Hc Ht]; [apply u64_range|].
  rewrite Hc, Ht. cbn [length count time_last_used]. split.
  - unfold u64. rewrite Z.add_mod_idemp_l by lia. f_equal. lia.
  - rewrite last_cons. by destruct (last _).
Qed.

Definition counters_for (es : list event) : list syscall_usage :=
  map (fun i => usage_of (Z.of_nat i) es) (seq 0 4).

Lemma usage_of_snoc i es e : usage_of i (es ++ [e]) = bump (usage_of i es) i e.
Proof. unfold usage_of. by rewrite fold_left_app. Qed.

Lemma lookup_counters_for es (i : nat) :
  (i < 4)%nat -> counters_for es !! i = Some (usage_of (Z.of_nat i) es).
Proof. intros Hi. unfold counters_for. rewrite list_lookup_fmap, lookup_seq_lt by done. done. Qed.

Lemma counters_for_hook es (i : nat) now :
  (i < 4)%nat ->
  <[i := mkUsage (u64 (count (usage_of (Z.of_nat i) es) + 1)) now]> (counters_for es)
  = counters_for (es ++ [Hook (Z.of_nat i) now]).
Proof.
  intros Hi. apply list_eq. intros j. destruct (decide (j < 4)%nat) as [Hj|Hj].
  - rewrite lookup_counters_for, usage_of_snoc by done. cbn [bump].
    destruct (decide (j = i)) as [->|Hne].
    + rewrite Z.eqb_refl. by apply list_lookup_insert_eq.
    + rewrite list_lookup_insert_ne, lookup_counters_for by done.
      by rewrite (proj2 (Z.eqb_neq (Z.of_nat i) (Z.of_nat j))) by lia.
  - rewrite !(proj2 (lookup_ge_None _ _)); [done|by rewrite ?length_insert; cbn; lia..].
Qed.

Lemma counters_for_other es e :
  (forall i : nat, (i < 4)%nat -> bump (usage_of (Z.of_nat i) es) (Z.of_nat i) e = usage_of (Z.of_nat i) es) ->
  counters_for (es ++ [e]) = counters_for es.
Proof.
  intros He. unfold counters_for. apply map_ext_in. intros i Hi%in_seq.
  rewrite usage_of_snoc. apply He. lia.
Qed.

Lemma since_allocated_snoc es e :
  since_allocated (es ++ [e]) =
    match since_allocated es with
    | Some l => Some (l ++ [e])
    | None => if e is Usage true _ then Some [] else None
    end.
Proof.
  induction es as [|e' es IH]; cbn; [by destruct e as [|[] ?]|].
  destruct e' as [|[] ?]; done.
Qed.

(** The event is one the program can make: no hook passes a negative number. *)
Definition valid_event (e : event) : Prop :=
  match e with
  | Hook i _ => 0 <= i
  | Usage _ _ => True
  end.

Definition counters_ok (done : list event) (s : trstate) : Prop :=
  syscall_counters s = counters_for <$> since_allocated done.

Lemma track_syscall_ok done s i now :
  counters_ok done s -> 0 <= i ->
  wp (track_syscall i now) (fun _ s' => counters_ok (done ++ [Hook i now]) s' /\ tr_k s' = tr_k s) s.
Proof.
  intros Hs Hi. unfold track_syscall, counters_ok, counter_at, set_counter_at in *.
  rewrite since_allocated_snoc. autorewrite with wp. rewrite Hs.
  destruct (since_allocated done) as [l|]; cbn [fmap option_fmap option_map]; [|by autorewrite with wp].
  destruct (Z.leb_spec MAX_SYS_CALLS i) as [Hm|Hm]; unfold MAX_SYS_CALLS in Hm.
  { autorewrite with wp. rewrite Hs. split; [|done]. cbn. f_equal. symmetry. apply counters_for_other.
    intros j Hj. cbn. by rewrite (proj2 (Z.eqb_neq i (Z.of_nat j))) by lia. }
  rewrite (proj2 (Z.ltb_ge i 0)), lookup_counters_for by lia. rewrite Z2Nat.id by lia.
  autorewrite with wp. cbn [deref]. autorewrite with wp. split; [|done]. cbn. rewrite Hs. cbn. f_equal.
  rewrite list_insert_insert_eq. rewrite <- (Z2Nat.id i) at 2 by lia.
  rewrite counters_for_hook by lia. by rewrite Z2Nat.id by lia.
Qed.

Lemma track_usage_ok done s kz p :
  counters_ok done s ->
  wp (track_syscall_usage kz p) (fun r s' => counters_ok (done ++ [Usage kz p]) s' /\
     (r = - ENOMEM <-> since_allocated (done ++ [Usage kz p]) = None)) s.
Proof.
  intros Hs. unfold track_syscall_usage, counters_ok, init_syscall_counters in *.
  rewrite since_allocated_snoc. autorewrite with wp. rewrite Hs.
  assert (forall (Q : Z -> trstate -> Prop) s0 bs, (forall r k, r <> - ENOMEM -> Q r (s0 <| tr_k := k |>)) ->
    wp (zoom tr_k (fun k s => s <| tr_k := k |>) (k_copy_to_user p bs))
       (fun r => wp (if truthy r then mret (- EFAULT) else mret 0) Q) s0) as Hcopy.
  { intros Q s0 bs HQ. unfold k_copy_to_user. kernel_unfold. destruct (copy_to_user _ p bs) as [m r].
    destruct (truthy r); by apply HQ. }
  destruct (since_allocated done) as [l|]; cbn [fmap option_fmap option_map].
  - autorewrite with wp. cbn [truthy Z.eqb negb]. autorewrite with wp. rewrite Hs. cbn [deref fmap option_fmap option_map]. autorewrite with wp.
    apply Hcopy. intros r k Hr. split; [|done]. rewrite counters_for_other by done. exact Hs.
  - autorewrite with wp. destruct kz; cbn [truthy Z.eqb negb Z.opp ENOMEM].
    + autorewrite with wp. rewrite (wp_run _ _ _ (replicate 4 zero_usage) _ eq_refl), wp_bind. apply Hcopy.
      intros r k Hr. done.
    + autorewrite with wp. done.
Qed.

Lemma run_events_ok es : forall done s,
  counters_ok done s -> Forall valid_event es ->
  wp (run_events es) (fun _ s' => counters_ok (done ++ es) s') s.
Proof.
  induction es as [|e es IH]; intros done s Hs Hv; cbn [run_events].
  { by rewrite app_nil_r. }
  inversion Hv as [|?? He Hes]; subst. replace (done ++ e :: es) with ((done ++ [e]) ++ es)
    by (by rewrite <- app_assoc).
  destruct e as [i now|kz p]; rewrite wp_bind.
  - eapply wp_mono, track_syscall_ok; [|done..]. intros _ s' [Hs' _]. by apply IH.
  - eapply wp_mono, track_usage_ok; [|done]. intros r s' [Hs' _]. by apply IH.
Qed.

(** every history of hook invocations with non-negative numbers and of calls
    of [track_syscall_usage] runs without a fault, and afterwards the counters
    are NULL as long as no call could allocate them; from then on counter i is
    the number of hook invocations for i since the allocation, modulo 2^64, and
    its time is that of the last of them. *)
Theorem counters_count_hooks es s :
  syscall_counters s = None -> Forall valid_event es ->
  wp (run_events es)
     (fun _ s' => match since_allocated es with
        | None => syscall_counters s' = None
        | Some later => exists cs, syscall_counters s' = Some cs /\ length cs = 4%nat /\
            forall i u, cs !! i = Some u ->
              count u = u64 (Z.of_nat (length (hooks_of (Z.of_nat i) later))) /\
              time_last_used u = default (mkTime 0 0) (last (hooks_of (Z.of_nat i) later))
        end) s.
Proof.
  intros Hs Hv. eapply wp_mono, (run_events_ok es [] s); [|done..].
  intros ? s' Hs'. unfold counters_ok in Hs'. rewrite app_nil_l in Hs'.
  destruct (since_allocated es) as [later|]; [|done].
  exists (counters_for later). split_and!; [done..|]. intros i u Hi.
  assert (i < 4)%nat by (apply lookup_lt_Some in Hi; cbn in Hi; lia).
  rewrite lookup_counters_for in Hi by done. injection Hi as <-.
  destruct (fold_bump (Z.of_nat i) later zero_usage) as [Hc Ht]; [unfold is_u64; cbn; lia|].
  split; [exact Hc | exact Ht].
Qed.

(** a call of [track_syscall_usage] with an accessible buffer returns 0 and
    stores the 96 bytes of the four counters: those in force, or four zeroed ones
    when it is the call that allocates them; when the allocation fails it returns
    -ENOMEM and stores nothing. *)
Theorem usage_reports_counters `{!UserArchOk} s kz statistics :
  (forall cs, syscall_counters s = Some cs -> length cs = 4%nat) ->
  can_copy_to (k_user (tr_k s)) statistics 96 ->
  wp (track_syscall_usage kz statistics)
     (fun r s' =>
        match (match syscall_counters s with
               | Some cs => Some cs
               | None => if kz then Some (replicate 4 zero_usage) else None
               end) with
        | None => r = - ENOMEM /\ s' = s
        | Some cs => r = 0 /\ syscall_counters s' = Some cs /\
            k_user (tr_k s') = write_bytes (k_user (tr_k s)) statistics (concat (map usage_image cs))
        end) s.
Proof.
  intros Hlen Hc.
  assert (forall cs, length cs = 4%nat -> blen (concat (map usage_image cs)) = 96) as H96.
  { intros cs Hcs. do 4 (destruct cs as [|? cs]; [done|]). destruct cs; [|done]. unfold blen. cbn [map concat].
    unfold usage_image. by rewrite !length_app, !length_le_bytes. }
  unfold track_syscall_usage, init_syscall_counters, k_copy_to_user. kernel_unfold.
  destruct s as [k [cs|]]; cbn in *.
  - rewrite copy_to_user_ok by (rewrite H96 by auto; done). done.
  - destruct kz; [|done]. change (Z.to_nat MAX_SYS_CALLS) with 4%nat.
    cbn. rewrite copy_to_user_ok; [done|].
    exact (eq_ind_r (can_copy_to (k_user k) statistics) Hc (H96 (replicate 4 zero_usage) eq_refl)).
Qed.

(** the bound check is one-sided: once the counters exist, a negative number
    indexes outside of the array. *)
Theorem track_negative_out_of_bounds s cs i now :
  syscall_counters s = Some cs -> i < 0 -> track_syscall i now s = Crash OutOfBounds.
Proof.
  intros Hs Hi. unfold track_syscall, counter_at. kernel_unfold. rewrite Hs.
  rewrite (proj2 (Z.leb_gt MAX_SYS_CALLS i)), (proj2 (Z.ltb_lt i 0)) by (unfold MAX_SYS_CALLS; lia).
  done.
Qed.

End Track.

(** ** Concurrent hooks

    [syscall_counters[id].count++] is a load and a store without a lock.  Each
    CPU that runs the hook is [Ready], has [Loaded] a value, or is [Finished]. *)
Inductive cpu := Ready | Loaded (v : Z) | Finished.
Record race := mkRace { r_count : Z; r_cpus : list cpu }.

Inductive race_step : race -> race -> Prop :=
  | race_load c cpus i :
      cpus !! i = Some Ready ->
      race_step (mkRace c cpus) (mkRace c (<[i := Loaded c]> cpus))
  | race_store c cpus i v :
      cpus !! i = Some (Loaded v) ->
      race_step (mkRace c cpus) (mkRace (u64 (v + 1)) (<[i := Finished]> cpus)).

Definition finished (p : cpu) : bool := if p is Finished then true else false.
Definition num_finished (cpus : list cpu) : Z := Z.of_nat (length (List.filter finished cpus)).

Lemma num_finished_insert cpus i p q :
  cpus !! i = Some p -> finished p = false ->
  num_finished (<[i := q]> cpus) = num_finished cpus + c_bool (finished q).
Proof.
  intros Hi Hp. unfold num_finished. revert i Hi. induction cpus as [|x cpus IH]; intros [|i] Hi; try done.
  - cbn in Hi. injection Hi as ->. cbn [insert list_insert List.filter]. rewrite Hp.
    destruct (finished q); cbn [length c_bool]; lia.
  - specialize (IH i Hi). change (<[S i := q]> (x :: cpus)) with (x :: <[i := q]> cpus).
    cbn [List.filter]. destruct (finished x); cbn [length]; lia.
Qed.

Lemma num_finished_le cpus : 0 <= num_finished cpus <= Z.of_nat (length cpus).
Proof.
  unfold num_finished. induction cpus as [|x cpus IH]; [done|]. cbn [List.filter length].
  destruct (finished x); cbn [length]; lia.
Qed.

(** The count never runs ahead of the finished increments, and each increment
    that finished left its mark unless a later one overwrote it. *)
Record race_inv (c0 : Z) (s : race) : Prop := {
  ri_low : c0 <= r_count s;
  ri_high : r_count s <= c0 + num_finished (r_cpus s);
  ri_mark : 0 < num_finished (r_cpus s) -> c0 < r_count s;
  ri_loaded i v : r_cpus s !! i = Some (Loaded v) -> c0 <= v <= c0 + num_finished (r_cpus s);
}.

Lemma race_inv_step c0 s s' :
  0 <= c0 -> c0 + Z.of_nat (length (r_cpus s)) < 2 ^ 64 ->
  race_inv c0 s -> race_step s s' -> race_inv c0 s' /\ length (r_cpus s') = length (r_cpus s).
Proof.
  intros Hc Hb [Hl Hh Hm Hv] Hs. destruct Hs as [c cpus i Hi|c cpus i v Hi]; cbn in *;
    (split; [|apply length_insert]);
    pose proof (num_finished_insert cpus i _ (Loaded c) Hi eq_refl) as Hn1;
    pose proof (num_finished_insert cpus i _ Finished Hi eq_refl) as Hn2; cbn in Hn1, Hn2;
    pose proof (num_finished_le (<[i := Finished]> cpus)) as Hle; rewrite length_insert in Hle.
  - split; cbn; try lia. intros j w [(_ & [= <-] & _)|[_ Hw]]%list_lookup_insert_Some; [lia|].
    apply Hv in Hw. lia.
  - apply Hv in Hi as Hiv. rewrite u64_id by (unfold is_u64; lia). split; cbn; try lia.
    intros j w [(_ & [=] & _)|[_ Hw]]%list_lookup_insert_Some. apply Hv in Hw. lia.
Qed.

Lemma race_inv_reachable c0 s s' :
  0 <= c0 -> c0 + Z.of_nat (length (r_cpus s)) < 2 ^ 64 ->
  race_inv c0 s -> rtc race_step s s' -> race_inv c0 s' /\ length (r_cpus s') = length (r_cpus s).
Proof.
  intros Hc Hb Hi Hr. induction Hr as [s|s s1 s2 Hs _ IH]; [done|].
  destruct (race_inv_step c0 s s1 Hc Hb Hi Hs) as [Hi1 Hl]. rewrite <- Hl. apply IH; [by rewrite Hl|done].
Qed.

(** Stores of CPUs that all loaded the same value. *)
Lemma race_overwrite c c0 (fin : list cpu) n :
  rtc race_step (mkRace c (fin ++ replicate (S n) (Loaded c0)))
                (mkRace (u64 (c0 + 1)) (fin ++ replicate (S n) Finished)).
Proof.
  revert c fin. induction n as [|n IH]; intros c fin; cbn [replicate];
    (eapply rtc_l; [eapply (race_store c _ (length fin)), list_lookup_middle; done|]);
    rewrite insert_app_r_alt, Nat.sub_diag by lia; cbn [insert list_insert]; [done|].
  specialize (IH (u64 (c0 + 1)) (fin ++ [Finished])). rewrite <- !app_assoc in IH. apply IH.
Qed.

Lemma race_load_all c (ld : list cpu) n :
  rtc race_step (mkRace c (ld ++ replicate n Ready)) (mkRace c (ld ++ replicate n (Loaded c))).
Proof.
  revert ld. induction n as [|n IH]; intros ld; [done|]. cbn [replicate]. eapply rtc_l.
  - eapply (race_load c _ (length ld)), list_lookup_middle. done.
  - rewrite insert_app_r_alt, Nat.sub_diag by lia. cbn [insert list_insert].
    specialize (IH (ld ++ [Loaded c])). rewrite <- !app_assoc in IH. apply IH.
Qed.

(** when n CPUs run the hook for the same call at once, then under every
    interleaving of their loads and stores the final count lies between c0 + 1
    and c0 + n, and there is an interleaving for which all but one of the n
    increments are lost. *)
Theorem concurrent_hooks_lose_updates c0 n :
  0 <= c0 -> c0 + Z.of_nat (S n) < 2 ^ 64 ->
  let start := mkRace c0 (replicate (S n) Ready) in
  (forall c, rtc race_step start (mkRace c (replicate (S n) Finished)) ->
     c0 + 1 <= c <= c0 + Z.of_nat (S n)) /\
  rtc race_step start (mkRace (c0 + 1) (replicate (S n) Finished)).
Proof.
  intros Hc Hb start. split.
  - intros c Hr.
    assert (forall m, num_finished (replicate m Ready) = 0) as H0.
    { intros m. unfold num_finished. by induction m. }
    assert (forall m, num_finished (replicate m Finished) = Z.of_nat m) as H1.
    { intros m. unfold num_finished. induction m; [done|]. cbn [replicate List.filter finished length] in *. lia. }
    apply (race_inv_reachable c0) in Hr as [[? Hh Hm _] _]; [|done|by cbn [r_cpus start]; rewrite length_replicate|].
    + cbn [r_cpus r_count] in Hh, Hm. rewrite H1 in Hh, Hm. lia.
    + split; cbn [r_cpus r_count start]; rewrite ?H0; try lia. by intros i v [? _]%lookup_replicate.
  - etransitivity; [apply (race_load_all c0 [] (S n))|].
    pose proof (race_overwrite c0 c0 [] n) as Ho. by rewrite u64_id in Ho by (unfold is_u64; lia).
Qed.

(** ** Concrete runs *)
Definition track_start : trstate := mkTr (sample_kernel (write_bytes ∅ 4096 (replicate 200 255))) None.
Definition sample_events : list event :=
  [Hook 0 (mkTime 5 0); Usage true 4096; Hook 0 (mkTime 6 1); Hook 2 (mkTime 7 0); Hook 0 (mkTime 8 2); Hook 9 (mkTime 9 0)].

Lemma counters_count_hooks_witness :
  syscall_counters track_start = None /\
  wp (run_events sample_events)
     (fun _ s' => exists cs, syscall_counters s' = Some cs /\ length cs = 4%nat /\
        forall i u, cs !! i = Some u ->
          count u = u64 (Z.of_nat (length (hooks_of (Z.of_nat i) (drop 2 sample_events)))) /\
          time_last_used u = default (mkTime 0 0) (last (hooks_of (Z.of_nat i) (drop 2 sample_events)))) track_start.
Proof.
  split; [done|]. apply (counters_count_hooks sample_events track_start); [done|].
  repeat constructor; cbn; lia.
Defined.

Lemma usage_reports_counters_witness :
  wp (track_syscall_usage true 4096)
     (fun r s' => r = 0 /\ syscall_counters s' = Some (replicate 4 zero_usage) /\
        k_user (tr_k s') = write_bytes (k_user (tr_k track_start)) 4096
          (concat (map usage_image (replicate 4 zero_usage)))) track_start.
Proof.
  apply (usage_reports_counters track_start true 4096); [done|].
  apply stored_can_copy_to; rewrite ?length_replicate; lia.
Defined.

Lemma track_negative_out_of_bounds_witness :
  track_syscall (-1) (mkTime 0 0) (mkTr (tr_k track_start) (Some (replicate 4 zero_usage))) = Crash OutOfBounds.
Proof. apply (track_negative_out_of_bounds _ (replicate 4 zero_usage)); [done | lia]. Defined.

Lemma concurrent_hooks_lose_updates_witness :
  let start := mkRace 10 (replicate 3 Ready) in
  (forall c, rtc race_step start (mkRace c (replicate 3 Finished)) -> 11 <= c <= 13) /\
  rtc race_step start (mkRace 11 (replicate 3 Finished)).
Proof. apply (concurrent_hooks_lose_updates 10 2); lia. Defined.
