(* ===== verification/Tamalloc.v ===== *)
(** Lazy allocation: [kernel/usac/taro_tamalloc.c].

    The syscall rounds the size up to pages and asks [do_mmap], which is not in
    the repository and a parameter here, for a private anonymous mapping. *)

From S2P Require Import Prelude Uaccess Kernel.

Definition PROT_READ : Z := 1.
Definition PROT_WRITE : Z := 2.
Definition MAP_PRIVATE : Z := 2.
Definition MAP_ANONYMOUS : Z := 32.
Definition MAP_NORESERVE : Z := 16384.
Definition VM_READ : Z := 1.
Definition VM_WRITE : Z := 2.
Definition VM_MAYREAD : Z := 16.
Definition VM_MAYWRITE : Z := 32.

Record mmap_request := mkMmap {
  mr_addr : Z; mr_len : Z; mr_prot : Z; mr_flags : Z; mr_vm_flags : Z; mr_pgoff : Z;
}.

Definition MAX_ERRNO : Z := 4095.
(** [IS_ERR_VALUE]: the last page of addresses encodes error numbers. *)
Definition IS_ERR_VALUE (x : Z) : bool := u64 (- MAX_ERRNO) <=? x.

Section Tamalloc.
Context (do_mmap : mmap_request -> Kern kernel Z).

Definition lazy_mapping (len : Z) : mmap_request :=
  mkMmap 0 len (Z.lor PROT_READ PROT_WRITE)
    (Z.lor (Z.lor MAP_PRIVATE MAP_ANONYMOUS) MAP_NORESERVE)
    (Z.lor (Z.lor (Z.lor VM_READ VM_WRITE) VM_MAYREAD) VM_MAYWRITE) 0.

Definition taro_tamalloc (size : Z) : Kern kernel Z :=
  if size =? 0 then
    pr_info "taro_tamalloc: Tamaño de memoria no puede ser 0." [];;
    mret (- EINVAL)
  else
  let aligned_size := PAGE_ALIGN size in
  if aligned_size =? 0 then
    pr_info "taro_tamalloc: Error en la alineación del tamaño." [];;
    mret (- ENOMEM)
  else
  addr ← do_mmap (lazy_mapping aligned_size);
  if IS_ERR_VALUE addr then
    pr_info "taro_tamalloc: Error al mapear la memoria virtual." [];;
    mret (s64 addr)
  else
    pr_info "taro_tamalloc: Memoria asignada exitosamente en 0x%lx, tamaño: %zu bytes" [addr; aligned_size];;
    mret (s64 addr).

(** ** Lemmas *)
Lemma land_page_mask x : Z.land x PAGE_MASK = PAGE_SIZE * (x / PAGE_SIZE).
Proof.
  unfold PAGE_MASK, PAGE_SIZE. change (4096 - 1) with (Z.ones 12).
  rewrite <- Z.ldiff_land, Z.ldiff_ones_r by lia.
  rewrite Z.shiftl_mul_pow2, Z.shiftr_div_pow2 by lia. change (2 ^ 12) with 4096. lia.
Qed.

(** Rounding up to pages: exact, except that the last page of sizes wraps to 0. *)
Lemma PAGE_ALIGN_spec size :
  is_u64 size ->
  if size <=? 2 ^ 64 - PAGE_SIZE
  then size <= PAGE_ALIGN size < size + PAGE_SIZE /\ PAGE_ALIGN size mod PAGE_SIZE = 0
  else PAGE_ALIGN size = 0.
Proof.
  intros Hs. unfold PAGE_ALIGN. rewrite land_page_mask. unfold is_u64, PAGE_SIZE in *.
  destruct (Z.leb_spec size (2 ^ 64 - 4096)).
  - rewrite u64_id by (unfold is_u64; lia).
    pose proof (Z.div_mod (size + (4096 - 1)) 4096 ltac:(lia)).
    pose proof (Z.mod_pos_bound (size + (4096 - 1)) 4096 ltac:(lia)).
    split; [lia|]. rewrite Z.mul_comm. by apply Z.mod_mul.
  - assert (u64 (size + (4096 - 1)) = size + 4095 - 2 ^ 64) as ->.
    { unfold u64. symmetry. apply (Z.mod_unique _ _ 1); lia. }
    rewrite Z.div_small by lia. done.
Qed.

Lemma err_value_negative addr : is_u64 addr -> IS_ERR_VALUE addr = true -> - 4095 <= s64 addr < 0.
Proof.
  unfold IS_ERR_VALUE, is_u64. intros Ha He. bool_facts. change (u64 (- MAX_ERRNO)) with (2 ^ 64 - 4095) in He.
  assert (s64 addr = addr - 2 ^ 64) as ->; [|lia].
  unfold s64. assert ((addr + 2 ^ 63) mod 2 ^ 64 = addr - 2 ^ 63) as ->; [|lia].
  symmetry. apply (Z.mod_unique _ _ 1); lia.
Qed.

(** [taro_tamalloc] refuses size 0 with -EINVAL and, with -ENOMEM, exactly
    the sizes of the last page below 2^64, whose rounding wraps to 0; no mapping
    is made in these cases.  For every other size it makes one request, for the
    smallest number of whole pages that holds the size, returns the address the
    kernel chose, and passes an error of the mapping on as a negative number. *)
Theorem tamalloc_maps_whole_pages size k :
  is_u64 size -> (forall req k addr k', do_mmap req k = Done addr k' -> is_u64 addr) ->
  match taro_tamalloc size k with
  | Done r k' =>
      (size = 0 /\ r = - EINVAL /\ same_objects k k') \/
      (2 ^ 64 - PAGE_SIZE < size /\ r = - ENOMEM /\ same_objects k k') \/
      (exists len addr k1, do_mmap (lazy_mapping len) k = Done addr k1 /\ same_objects k1 k' /\
         size <= len < size + PAGE_SIZE /\ len mod PAGE_SIZE = 0 /\ r = s64 addr /\
         (IS_ERR_VALUE addr = true -> - 4095 <= r < 0))
  | Crash c => exists len, do_mmap (lazy_mapping len) k = Crash c
  end.
Proof.
  intros Hs Hmm. unfold taro_tamalloc, pr_info. kernel_unfold.
  destruct (Z.eqb_spec size 0) as [->|Hne]; [left; by repeat split|].
  pose proof (PAGE_ALIGN_spec size Hs) as Ha. destruct (Z.leb_spec size (2 ^ 64 - PAGE_SIZE)) as [|Hbig].
  2:{ rewrite Ha. right. left. by repeat split. }
  destruct Ha as [Hr Hm]. unfold is_u64 in Hs.
  rewrite (proj2 (Z.eqb_neq (PAGE_ALIGN size) 0)) by lia.
  destruct (do_mmap (lazy_mapping (PAGE_ALIGN size)) k) as [addr k1|c] eqn:Hd; [|by eexists].
  pose proof (Hmm _ _ _ _ Hd) as Hu.
  destruct (IS_ERR_VALUE addr) eqn:He; right; right; exists (PAGE_ALIGN size), addr, k1;
    (split_and!; [done | by repeat split | lia | lia | done | done | by apply err_value_negative]).
Qed.

End Tamalloc.

(** A kernel that maps everything at one address. *)
Definition sample_mmap (req : mmap_request) : Kern kernel Z := mret (2 ^ 46).

Lemma tamalloc_maps_whole_pages_witness :
  let k := sample_kernel ∅ in
  match taro_tamalloc sample_mmap 5000 k with
  | Done r k' =>
      (5000 = 0 /\ r = - EINVAL /\ same_objects k k') \/
      (2 ^ 64 - PAGE_SIZE < 5000 /\ r = - ENOMEM /\ same_objects k k') \/
      (exists len addr k1, sample_mmap (lazy_mapping len) k = Done addr k1 /\ same_objects k1 k' /\
         5000 <= len < 5000 + PAGE_SIZE /\ len mod PAGE_SIZE = 0 /\ r = s64 addr /\
         (IS_ERR_VALUE addr = true -> - 4095 <= r < 0))
  | Crash c => exists len, sample_mmap (lazy_mapping len) k = Crash c
  end.
Proof.
  apply (tamalloc_maps_whole_pages sample_mmap 5000 (sample_kernel ∅)); [unfold is_u64; lia|].
  intros req k addr k' [= <- _]. unfold is_u64. lia.
Defined.
