(* ===== verification/Vfs.v ===== *)
(** The objects of the virtual file system that [fs/open.c] and
    [fs/read_write.c] work on.

    Open files, inodes, address spaces and dentries are shared objects addressed
    by pointers; the descriptor table maps descriptors to open files.  The file
    systems behind them ([struct file_operations]), path lookup, the security
    modules and [struct iov_iter] are not in the repository: they are the fields
    of the classes [Uio] and [VfsEnv], and what the code relies on are the laws of
    [UioOk] and [VfsEnvOk].

    Whatever a routine has to give back (a borrowed descriptor, a write section of
    a super block, an inode lock, a reference to a path, ...) is an entry of the
    ledger [v_held].  The judgement [good R d m D Q] says that a routine that
    starts with [d] on the ledger returns with [D] on it and a value satisfying
    [Q], keeps the state well-formed and relates the states before and after by
    [R]; it composes along the code. *)

From S2P Require Import Prelude Uaccess Kernel Track.

(** ** Flag words *)
Definition has (w flag : Z) : bool := truthy (Z.land w flag).

Definition FMODE_READ : Z := 0x1.
Definition FMODE_WRITE : Z := 0x2.
Definition FMODE_LSEEK : Z := 0x4.
Definition FMODE_PREAD : Z := 0x8.
Definition FMODE_PWRITE : Z := 0x10.
Definition FMODE_UNSIGNED_OFFSET : Z := 0x2000.
Definition FMODE_PATH : Z := 0x4000.
Definition FMODE_ATOMIC_POS : Z := 0x8000.
Definition FMODE_WRITER : Z := 0x10000.
Definition FMODE_CAN_READ : Z := 0x20000.
Definition FMODE_CAN_WRITE : Z := 0x40000.
Definition FMODE_OPENED : Z := 0x80000.
Definition FMODE_STREAM : Z := 0x200000.
Definition FMODE_CAN_ODIRECT : Z := 0x400000.
Definition FMODE_BACKING : Z := 0x2000000.
Definition FMODE_BUF_WASYNC : Z := 0x80000000.

Definition O_ACCMODE : Z := 0x3.
Definition O_WRONLY : Z := 0x1.
Definition O_RDWR : Z := 0x2.
Definition O_CREAT : Z := 0x40.
Definition O_EXCL : Z := 0x80.
Definition O_NOCTTY : Z := 0x100.
Definition O_TRUNC : Z := 0x200.
Definition O_APPEND : Z := 0x400.
Definition O_NONBLOCK : Z := 0x800.
Definition O_DSYNC : Z := 0x1000.
Definition O_DIRECT : Z := 0x4000.
Definition O_LARGEFILE : Z := 0x8000.
Definition O_DIRECTORY : Z := 0x10000.
Definition O_NOFOLLOW : Z := 0x20000.
Definition O_CLOEXEC : Z := 0x80000.
Definition __O_SYNC : Z := 0x100000.
Definition O_PATH : Z := 0x200000.
Definition __O_TMPFILE : Z := 0x400000.

Definition MAY_EXEC : Z := 0x1.
Definition MAY_WRITE : Z := 0x2.
Definition MAY_READ : Z := 0x4.
Definition MAY_APPEND : Z := 0x8.
Definition MAY_ACCESS : Z := 0x10.
Definition MAY_CHDIR : Z := 0x40.

Definition S_IFMT : Z := 0xf000.
Definition S_ISTYPE (ty mode : Z) : bool := Z.land mode S_IFMT =? ty.
Definition S_ISFIFO : Z -> bool := S_ISTYPE 0x1000.
Definition S_ISCHR : Z -> bool := S_ISTYPE 0x2000.
Definition S_ISDIR : Z -> bool := S_ISTYPE 0x4000.
Definition S_ISBLK : Z -> bool := S_ISTYPE 0x6000.
Definition S_ISREG : Z -> bool := S_ISTYPE 0x8000.
Definition S_ISSOCK : Z -> bool := S_ISTYPE 0xc000.
Definition special_file (mode : Z) : bool := S_ISCHR mode || S_ISBLK mode || S_ISFIFO mode || S_ISSOCK mode.

Definition S_APPEND : Z := 0x4.
Definition S_IMMUTABLE : Z := 0x8.
Definition S_SWAPFILE : Z := 0x100.

Definition EIOCBQUEUED : Z := 529.
Definition OFFSET_MAX : Z := 2 ^ 63 - 1.
Definition MAX_NON_LFS : Z := 2 ^ 31 - 1.
Definition MAX_RW_COUNT : Z := 0x7ffff000.    (* INT_MAX & PAGE_MASK *)

(** ** Objects *)
Record inode := mkInode {
  i_mode : Z;
  i_flags : Z;
  i_size : Z;
  i_sb : Z;
  i_mapping : Z;
  i_fop : Z;
}.
#[global] Instance eta_inode : Eta inode := fun i =>
  mkInode (i_mode i) (i_flags i) (i_size i) (i_sb i) (i_mapping i) (i_fop i).

Definition IS_APPEND (i : inode) : bool := has (i_flags i) S_APPEND.
Definition IS_IMMUTABLE (i : inode) : bool := has (i_flags i) S_IMMUTABLE.
Definition IS_SWAPFILE (i : inode) : bool := has (i_flags i) S_SWAPFILE.

Record address_space := mkMapping {
  host : Z;
  direct_IO : bool;          (* a_ops && a_ops->direct_IO *)
  nr_thps : Z;
}.

Record path := mkPath { p_mnt : Z; p_dentry : Z }.
#[global] Instance path_eq_dec : EqDecision path.
Proof. solve_decision. Defined.

Record file := mkFile {
  f_mode : Z;
  f_flags : Z;
  f_iocb_flags : Z;
  f_pos : Z;
  f_version : Z;
  f_op : Z;
  f_inode : Z;
  f_mapping : Z;
  f_path : path;
}.
#[global] Instance eta_file : Eta file := fun f =>
  mkFile (f_mode f) (f_flags f) (f_iocb_flags f) (f_pos f) (f_version f) (f_op f) (f_inode f)
         (f_mapping f) (f_path f).

(** What a routine holds and has to give back. *)
Inductive resource :=
  | FileRef (file : Z)            (* a reference to an open file *)
  | NewFile (file : Z)            (* a file that is not open yet *)
  | PosRef (file : Z)             (* fdget_pos: the same, and possibly f_pos_lock *)
  | FileWrite (file : Z)          (* file_start_write, kiocb_start_write *)
  | SbWrite (sb : Z)              (* sb_start_write *)
  | MntWrite (mnt : Z)            (* mnt_want_write *)
  | MntAccess (mnt : Z)           (* mnt_get_write_access *)
  | WriteAccess (inode : Z)       (* get_write_access *)
  | ReadCount (inode : Z)         (* i_readcount_inc *)
  | FopsRef (fop : Z)             (* fops_get: the module of the operations *)
  | InodeLock (inode : Z)
  | InodeRef (inode : Z)          (* a delegated inode to wait for *)
  | PathRef (p : path)
  | NameRef (name : Z)
  | UnusedFd (fd : Z)             (* get_unused_fd_flags *)
  | IovVec.                       (* the vector import_iovec may allocate *)
#[global] Instance resource_eq_dec : EqDecision resource.
Proof. solve_decision. Defined.

(** Calls of notification, accounting and signal routines, which are outside of
    the repository and of which the code uses no result. *)
Inductive vfs_event :=
  | NotifyAccess (file : Z) | NotifyModify (file : Z) | NotifyOpen (file : Z)
  | Rchar (n : Z) | Wchar (n : Z) | Syscr | Syscw
  | SendSig (sig : Z) | Unsupported (op : string) (file : Z)
  | AuditFile (file : Z) | FlushLocks (file : Z) | DropPages (mapping : Z) | Hangup.

Record vfs := mkVfs {
  v_tr : trstate;                   (* the kernel objects and the call counters *)
  v_files : gmap Z file;
  v_inodes : gmap Z inode;
  v_mappings : gmap Z address_space;
  v_dentries : gmap Z Z;            (* dentry to inode *)
  v_fdt : gmap Z Z;                 (* descriptor to open file *)
  v_held : list resource;
  v_events : list vfs_event;        (* newest first *)
  v_data : gmap Z (list Z);         (* file contents, touched by file systems only *)
  v_fs : gmap Z (path * path);      (* fs_struct to the working and the root directory *)
}.
#[global] Instance eta_vfs : Eta vfs := fun s =>
  mkVfs (v_tr s) (v_files s) (v_inodes s) (v_mappings s) (v_dentries s)
        (v_fdt s) (v_held s) (v_events s) (v_data s) (v_fs s).

Definition v_k (s : vfs) : kernel := tr_k (v_tr s).
Definition on_kernel {A} (m : Kern kernel A) : Kern vfs A :=
  zoom v_k (fun k s => s <| v_tr ::= fun t => t <| tr_k := k |> |>) m.

Record kiocb := mkKiocb {
  ki_filp : Z; ki_pos : Z; ki_flags : Z;
  ki_sync : bool;                   (* no ki_complete *)
}.
#[global] Instance eta_kiocb : Eta kiocb := fun i =>
  mkKiocb (ki_filp i) (ki_pos i) (ki_flags i) (ki_sync i).

(** ** Primitives *)
Definition note (e : vfs_event) : Kern vfs unit := modify (fun s => s <| v_events ::= cons e |>).

Definition acquire (r : resource) : Kern vfs unit := modify (fun s => s <| v_held ::= cons r |>).

Fixpoint drop_first (r : resource) (l : list resource) : option (list resource) :=
  match l with
  | [] => None
  | x :: l => if decide (x = r) then Some l else cons x <$> drop_first r l
  end.

(** Giving back what is not held is a bug. *)
Definition release (r : resource) : Kern vfs unit :=
  held ← gets v_held;
  held ← deref KernelBug (drop_first r held);
  modify (fun s => s <| v_held := held |>).

Definition file_at (p : Z) : Kern vfs file :=
  f ← gets (fun s => v_files s !! p); deref UseAfterFree f.
Definition put_file (p : Z) (f : file) : Kern vfs unit := modify (fun s => s <| v_files ::= <[p := f]> |>).
Definition set_f_pos (p pos : Z) : Kern vfs unit := f ← file_at p; put_file p (f <| f_pos := pos |>).

Definition inode_at (p : Z) : Kern vfs inode :=
  i ← gets (fun s => v_inodes s !! p); deref UseAfterFree i.
Definition mapping_at (p : Z) : Kern vfs address_space :=
  m ← gets (fun s => v_mappings s !! p); deref UseAfterFree m.

(** [file_inode(file)] and [file->f_mapping->host], dereferenced. *)
Definition file_inode (p : Z) : Kern vfs inode := f ← file_at p; inode_at (f_inode f).
Definition mapping_inode (p : Z) : Kern vfs inode :=
  f ← file_at p; m ← mapping_at (f_mapping f); inode_at (host m).

(** [fdget] finds the file of a descriptor, but not one opened with [O_PATH],
    which only [fdget_raw] returns. *)
Definition fdget_raw (fd : Z) : Kern vfs (option Z) :=
  o ← gets (fun s => v_fdt s !! fd);
  match o with
  | Some p => acquire (FileRef p);; mret (Some p)
  | None => mret None
  end.
Definition fd_file (s : vfs) (fd : Z) : option Z :=
  match v_fdt s !! fd with
  | Some p => match v_files s !! p with
              | Some f => if has (f_mode f) FMODE_PATH then None else Some p
              | None => None
              end
  | None => None
  end.
Definition fdget (fd : Z) : Kern vfs (option Z) :=
  o ← gets (fun s => fd_file s fd);
  match o with
  | Some p => acquire (FileRef p);; mret (Some p)
  | None => mret None
  end.
Definition fdput (p : Z) : Kern vfs unit := release (FileRef p).
Definition fdget_pos (fd : Z) : Kern vfs (option Z) :=
  o ← gets (fun s => fd_file s fd);
  match o with
  | Some p => acquire (PosRef p);; mret (Some p)
  | None => mret None
  end.
Definition fdput_pos (p : Z) : Kern vfs unit := release (PosRef p).

Definition file_start_write (p : Z) : Kern vfs unit := acquire (FileWrite p).
Definition file_end_write (p : Z) : Kern vfs unit := release (FileWrite p).
Definition inode_lock (p : Z) : Kern vfs unit := acquire (InodeLock p).
Definition inode_unlock (p : Z) : Kern vfs unit := release (InodeLock p).

Definition fsnotify_access (p : Z) : Kern vfs unit := note (NotifyAccess p).
Definition fsnotify_modify (p : Z) : Kern vfs unit := note (NotifyModify p).
Definition add_rchar (n : Z) : Kern vfs unit := note (Rchar n).
Definition add_wchar (n : Z) : Kern vfs unit := note (Wchar n).
Definition inc_syscr : Kern vfs unit := note Syscr.
Definition inc_syscw : Kern vfs unit := note Syscw.

Definition init_sync_kiocb (p : Z) (f : file) : kiocb := mkKiocb p 0 (f_iocb_flags f) true.

(** ** What is outside of the repository

    [lib/iov_iter.c]: an iterator over the segments of memory of a transfer. *)
Class Uio := {
  iov_iter : Type;
  iov_iter_count : iov_iter -> Z;
  iter_iov_addr : iov_iter -> Z;
  iter_iov_len : iov_iter -> Z;
  iov_iter_advance : iov_iter -> Z -> iov_iter;
  iov_iter_truncate : iov_iter -> Z -> iov_iter;
  iov_iter_ubuf : Z -> Z -> iov_iter;
  iov_iter_kvec : Z -> Z -> iov_iter;
  (* import_iovec(): the result, and the iterator when it is not an error *)
  import_iovec : kernel -> bool -> Z -> Z -> Z * iov_iter;
  (* the segments that are left, with their lengths *)
  iter_segs : iov_iter -> list (Z * Z);
}.

Definition is_errno (r : Z) : Prop := - 4095 <= r < 0.
(** 0, or an error. *)
Definition status (r : Z) : Prop := - 4095 <= r <= 0.

Definition seg_total (l : list (Z * Z)) : Z := foldr (fun x n => x.2 + n) 0 l.

Class UioOk `{Uio} : Prop := {
  iter_seg_len i : Forall (fun x => 0 <= x.2) (iter_segs i);
  iter_count_segs i : iov_iter_count i = seg_total (iter_segs i);
  iter_first_seg i : iov_iter_count i <> 0 ->
    exists empty, Forall (fun x => x.2 = 0) empty /\
      iter_segs i = (iter_iov_addr i, iter_iov_len i) :: empty
                    ++ iter_segs (iov_iter_advance i (iter_iov_len i));
  iter_ubuf_count a n : 0 <= n -> iov_iter_count (iov_iter_ubuf a n) = n;
  iter_kvec_count a n : 0 <= n -> iov_iter_count (iov_iter_kvec a n) = n;
  iter_truncate_count i n : 0 <= n -> iov_iter_count (iov_iter_truncate i n) = Z.min n (iov_iter_count i);
  import_iovec_ret k dest v n :
    let '(r, i) := import_iovec k dest v n in
    is_errno r \/ (r = iov_iter_count i /\ r <= MAX_RW_COUNT);
}.

(** [struct file_operations], the security module, and [fs/splice.c].  A method
    that is not there is [None].  A position pointer is an optional value, and
    comes back with what was stored through it. *)
Class VfsEnv `{Uio} := {
  s_maxbytes : Z -> Z;           (* of a super block *)
  fop_llseek : Z -> option (Z -> Z -> Z -> Kern vfs Z);
  fop_read : Z -> option (Z -> Z -> Z -> option Z -> Kern vfs (Z * option Z));
  fop_write : Z -> option (Z -> Z -> Z -> option Z -> Kern vfs (Z * option Z));
  fop_read_iter : Z -> option (kiocb -> iov_iter -> Kern vfs (Z * kiocb * iov_iter));
  fop_write_iter : Z -> option (kiocb -> iov_iter -> Kern vfs (Z * kiocb * iov_iter));
  security_file_permission : vfs -> Z -> Z -> Z;
  fsnotify_file_area_perm : vfs -> Z -> Z -> option Z -> Z -> Z;
  kiocb_set_rw_flags : vfs -> kiocb -> Z -> Z * kiocb;
}.

(** ** Well-formed states *)
Section Wf.
Context `{VfsEnv}.

(** The methods the mode bits promise are there. *)
Record file_wf (f : file) : Prop := {
  fw_read : has (f_mode f) FMODE_CAN_READ = true ->
    has (f_mode f) FMODE_READ = true /\ (is_Some (fop_read (f_op f)) \/ is_Some (fop_read_iter (f_op f)));
  fw_write : has (f_mode f) FMODE_CAN_WRITE = true ->
    has (f_mode f) FMODE_WRITE = true /\ (is_Some (fop_write (f_op f)) \/ is_Some (fop_write_iter (f_op f)));
  fw_llseek : has (f_mode f) FMODE_LSEEK = true -> is_Some (fop_llseek (f_op f));
  fw_pos : is_s64 (f_pos f);
}.

Record open_file (s : vfs) (p : Z) (f : file) : Prop := {
  of_file : v_files s !! p = Some f;
  of_wf : file_wf f;
  of_inode : is_Some (v_inodes s !! f_inode f);
  of_mapping : is_Some (v_mappings s !! f_mapping f);
  of_dentry : v_dentries s !! p_dentry (f_path f) = Some (f_inode f);
}.

Definition holds (p : Z) (d : list resource) : Prop := FileRef p ∈ d \/ PosRef p ∈ d.

Record vfs_wf (s : vfs) : Prop := {
  vw_kernel : kernel_wf (v_k s);
  vw_counters cs : syscall_counters (v_tr s) = Some cs -> length cs = 4%nat;
  vw_fdt fd p : v_fdt s !! fd = Some p -> exists f, open_file s p f;
  vw_held p : holds p (v_held s) -> exists f, open_file s p f;
  vw_inode p i : v_inodes s !! p = Some i ->
    0 <= i_size i < 2 ^ 63 /\ is_Some (v_mappings s !! i_mapping i);
  vw_mapping p m : v_mappings s !! p = Some m -> is_Some (v_inodes s !! host m);
  vw_dentry d p : v_dentries s !! d = Some p -> is_Some (v_inodes s !! p);
  vw_path p : PathRef p ∈ v_held s -> is_Some (v_dentries s !! p_dentry p);
  vw_new p : NewFile p ∈ v_held s ->
    is_Some (v_files s !! p) /\ (forall fd, v_fdt s !! fd <> Some p) /\ ~ holds p (v_held s);
  vw_fs t : k_tasks (v_k s) !! k_current (v_k s) = Some t -> is_Some (v_fs s !! t_fs t);
}.

(** What code of other subsystems may do while it runs on behalf of a call:
    change user memory, the contents, sizes, modes and flags of inodes. *)
Record outside (s s' : vfs) : Prop := {
  out_objects : same_objects (v_k s) (v_k s');
  out_mapped a : is_Some (k_user (v_k s) !! a) -> is_Some (k_user (v_k s') !! a);
  out_counters : syscall_counters (v_tr s') = syscall_counters (v_tr s);
  out_files : v_files s' = v_files s;
  out_inodes p i : v_inodes s !! p = Some i -> exists i', v_inodes s' !! p = Some i' /\
    Z.land (i_mode i') S_IFMT = Z.land (i_mode i) S_IFMT /\ i_sb i' = i_sb i /\ i_fop i' = i_fop i;
  out_inodes_wf p i : v_inodes s' !! p = Some i ->
    0 <= i_size i < 2 ^ 63 /\ is_Some (v_mappings s' !! i_mapping i);
  out_mappings p : host <$> v_mappings s' !! p = host <$> v_mappings s !! p;
  out_dentries : v_dentries s' = v_dentries s;
  out_fdt : v_fdt s' = v_fdt s;
  out_held : v_held s' = v_held s;
  out_events : v_events s' = v_events s;
  out_fs : v_fs s' = v_fs s;
}.

(** A file system may move the position of the file it is asked to. *)
Definition moved (p : Z) (s s' : vfs) : Prop :=
  exists s1 f pos ver, outside s s1 /\ v_files s1 !! p = Some f /\ is_s64 pos /\
    s' = s1 <| v_files ::= <[p := f <| f_pos := pos |> <| f_version := ver |>]> |>.

Definition rw_ret (n r : Z) : Prop := is_errno r \/ 0 <= r <= n.
Definition pos_ok (pos : option Z) : Prop := if pos is Some z then is_s64 z else True.
Definition pos_after (pos pos' : option Z) : Prop := pos_ok pos' /\ (is_Some pos' <-> is_Some pos).
End Wf.

(** What the file systems promise. *)
Class VfsEnvOk `{VfsEnv} : Prop := {
  s_maxbytes_range sb : 0 <= s_maxbytes sb < 2 ^ 63;
  fop_llseek_ok o op p off whence s :
    fop_llseek o = Some op -> vfs_wf s -> holds p (v_held s) -> is_s64 off ->
    wp (op p off whence) (fun r s' => moved p s s' /\ is_s64 r) s;
  fop_read_ok o op p buf n pos s :
    fop_read o = Some op -> vfs_wf s -> holds p (v_held s) -> 0 <= n -> pos_ok pos ->
    wp (op p buf n pos) (fun '(r, pos') s' => outside s s' /\ rw_ret n r /\ pos_after pos pos') s;
  fop_write_ok o op p buf n pos s :
    fop_write o = Some op -> vfs_wf s -> holds p (v_held s) -> 0 <= n -> pos_ok pos ->
    wp (op p buf n pos) (fun '(r, pos') s' => outside s s' /\ rw_ret n r /\ pos_after pos pos') s;
  (* only an asynchronous request is queued *)
  fop_read_iter_ok o op iocb i s :
    fop_read_iter o = Some op -> vfs_wf s -> holds (ki_filp iocb) (v_held s) -> is_s64 (ki_pos iocb) ->
    wp (op iocb i) (fun '(r, iocb', i') s' => outside s s' /\ rw_ret (iov_iter_count i) r /\
      is_s64 (ki_pos iocb') /\ ki_filp iocb' = ki_filp iocb /\
      (ki_sync iocb = true -> r <> - EIOCBQUEUED)) s;
  fop_write_iter_ok o op iocb i s :
    fop_write_iter o = Some op -> vfs_wf s -> holds (ki_filp iocb) (v_held s) -> is_s64 (ki_pos iocb) ->
    wp (op iocb i) (fun '(r, iocb', i') s' => outside s s' /\ rw_ret (iov_iter_count i) r /\
      is_s64 (ki_pos iocb') /\ ki_filp iocb' = ki_filp iocb /\
      (ki_sync iocb = true -> r <> - EIOCBQUEUED)) s;
  (* a security module grants with 0 and refuses with an error *)
  security_file_permission_ret s p mask : status (security_file_permission s p mask);
  fsnotify_perm_ret s p mask pos n : status (fsnotify_file_area_perm s p mask pos n);
  kiocb_flags_ret s iocb fl :
    let '(r, iocb') := kiocb_set_rw_flags s iocb fl in
    status r /\ ki_filp iocb' = ki_filp iocb /\ ki_pos iocb' = ki_pos iocb /\ ki_sync iocb' = ki_sync iocb;
}.

(** ** Dereferences *)
Lemma wp_file_at p Q s f : v_files s !! p = Some f -> wp (file_at p) Q s <-> Q f s.
Proof. intros Hf. unfold file_at. autorewrite with wp. by rewrite Hf. Qed.
Lemma wp_inode_at p Q s i : v_inodes s !! p = Some i -> wp (inode_at p) Q s <-> Q i s.
Proof. intros Hi. unfold inode_at. autorewrite with wp. by rewrite Hi. Qed.
Lemma wp_mapping_at p Q s m : v_mappings s !! p = Some m -> wp (mapping_at p) Q s <-> Q m s.
Proof. intros Hm. unfold mapping_at. autorewrite with wp. by rewrite Hm. Qed.

(** ** The ledger logic *)
Section Logic.
Context `{VfsEnv}.
Implicit Types (d : list resource) (p : Z) (s : vfs).

(** Steps that leave open files, descriptors, counters and tasks alone, and forget
    no dentry and no inode. *)
Record still (s s' : vfs) : Prop := {
  st_files : v_files s' = v_files s;
  st_fdt : v_fdt s' = v_fdt s;
  st_counters : syscall_counters (v_tr s') = syscall_counters (v_tr s);
  st_objects : same_objects (v_k s) (v_k s');
  st_mapped a : is_Some (k_user (v_k s) !! a) -> is_Some (k_user (v_k s') !! a);
  st_dentries : v_dentries s' = v_dentries s;
  st_inodes p : is_Some (v_inodes s !! p) -> is_Some (v_inodes s' !! p);
  st_fs : v_fs s' = v_fs s;
}.
#[global] Instance still_pre : PreOrder still.
Proof.
  split.
  - intros s. by split.
  - intros s1 s2 s3 [] []. split; try congruence; [by etrans|auto..].
Qed.

(** The relation between the states before and after that a proof keeps track of. *)
Class Frame (R : vfs -> vfs -> Prop) : Prop := {
  frame_pre : PreOrder R;
  frame_still s s' : still s s' -> R s s';
}.
Definition same_table (s s' : vfs) : Prop := v_fdt s' = v_fdt s.
#[global] Instance frame_same_table : Frame same_table.
Proof.
  split; [split; [done|by intros s1 s2 s3 ? ?; unfold same_table in *; congruence]|]. by intros s s' [].
Qed.
#[global] Instance frame_of_still : Frame still.
Proof. split; [apply _|done]. Qed.

Definition good {A} (R : vfs -> vfs -> Prop) d (m : Kern vfs A) (D : A -> list resource) (Q : A -> Prop) : Prop :=
  forall s h, vfs_wf s -> v_held s = d ++ h ->
  wp m (fun a s' => vfs_wf s' /\ v_held s' = D a ++ h /\ R s s' /\ Q a) s.

Context {R : vfs -> vfs -> Prop} `{!Frame R}.

Lemma frame_refl s : R s s.
Proof. apply frame_still. by split. Qed.
Lemma frame_trans s1 s2 s3 : R s1 s2 -> R s2 s3 -> R s1 s3.
Proof. destruct frame_pre. eauto. Qed.
#[local] Hint Resolve frame_refl : core.

Lemma good_ret {A} d (a : A) (Q : A -> Prop) : Q a -> good R d (mret a) (fun _ => d) Q.
Proof. intros HQ s h Hs Hh. by rewrite wp_ret. Qed.

Lemma good_bind {A B} d (m : Kern vfs A) D Q (k : A -> Kern vfs B) D' Q' :
  good R d m D Q -> (forall a, Q a -> good R (D a) (k a) D' Q') -> good R d (m ≫= k) D' Q'.
Proof.
  intros Hm Hk s h Hs Hh. rewrite wp_bind. eapply wp_mono; [|by apply Hm].
  intros a s1 (Hs1 & Hh1 & HR1 & HQ). eapply wp_mono; [|by apply (Hk a HQ)].
  intros b s2 (? & ? & HR2 & ?). split_and!; try done. by eapply frame_trans.
Qed.

Lemma good_mono {A} d (m : Kern vfs A) D (Q Q' : A -> Prop) :
  good R d m D Q -> (forall a, Q a -> Q' a) -> good R d m D Q'.
Proof.
  intros Hm HQ s h Hs Hh. eapply wp_mono; [|by apply Hm].
  intros a s' (? & ? & ? & ?). eauto.
Qed.

Lemma good_ledger {A} d (m : Kern vfs A) D D' (Q : A -> Prop) :
  good R d m D Q -> (forall a, Q a -> D a = D' a) -> good R d m D' Q.
Proof.
  intros Hm HD s h Hs Hh. eapply wp_mono; [|by apply Hm].
  intros a s' (? & Hh' & ? & ?). by rewrite <- HD.
Qed.

(** A routine that holds nothing of its own may run while more is held. *)
Lemma good_under {A} d r (m : Kern vfs A) (Q : A -> Prop) :
  good R d m (fun _ => d) Q -> good R (d ++ r) m (fun _ => d ++ r) Q.
Proof.
  intros Hm s h Hs Hh. rewrite <- app_assoc in *. by apply Hm.
Qed.

Lemma good_deref {A B} d c (o : option A) a (k : A -> Kern vfs B) D Q :
  o = Some a -> good R d (k a) D Q -> good R d (deref c o ≫= k) D Q.
Proof. intros -> Hk s h Hs Hh. rewrite wp_bind. cbn [deref]. rewrite wp_ret. by apply Hk. Qed.

Lemma good_gets {A} d (g : vfs -> A) (Q : A -> Prop) :
  (forall s, vfs_wf s -> Q (g s)) -> good R d (gets g) (fun _ => d) Q.
Proof. intros HQ s h Hs Hh. rewrite wp_gets. auto 6. Qed.

Lemma good_gets_any {A} d (g : vfs -> A) : good R d (gets g) (fun _ => d) (fun _ => True).
Proof. by apply good_gets. Qed.

Lemma vfs_wf_held s r d :
  vfs_wf s -> v_held s = r :: d -> vfs_wf (s <| v_held := d |>).
Proof.
  intros [] Hh. split; cbn; try done.
  - intros fd p Hp. destruct (vw_fdt0 _ _ Hp) as [f []]. by exists f.
  - intros p Hp. destruct (vw_held0 p) as [f []]; [|by exists f].
    rewrite Hh. destruct Hp; [left|right]; by right.
  - intros p Hp. apply vw_path0. rewrite Hh. by right.
  - intros p Hp. destruct (vw_new0 p) as (? & ? & Hno); [rewrite Hh; by right|]. split_and!; try done.
    intros Hd. apply Hno. rewrite Hh. destruct Hd; [left|right]; by right.
Qed.

Lemma good_release d r : good R (r :: d) (release r) (fun _ => d) (fun _ => True).
Proof.
  intros s h Hs Hh. unfold release. autorewrite with wp. rewrite Hh. cbn.
  rewrite decide_True by done. cbn. split_and!; try done; [by eapply vfs_wf_held|].
  apply frame_still. by split.
Qed.

Definition plain (r : resource) : Prop :=
  match r with FileRef _ | PosRef _ | PathRef _ | NewFile _ => False | _ => True end.

Lemma good_acquire d r : plain r -> good R d (acquire r) (fun _ => r :: d) (fun _ => True).
Proof.
  intros Hr s h Hs Hh. unfold acquire. rewrite wp_modify.
  split_and!; [|cbn; by rewrite Hh|apply frame_still; by split|done].
  destruct Hs. split; cbn; try done.
  - intros fd p Hp. destruct (vw_fdt0 _ _ Hp) as [f []]. by exists f.
  - intros p [Hp|Hp]; (apply elem_of_cons in Hp as [<-|Hp]; [done|]).
    + destruct (vw_held0 p) as [f []]; [by left|by exists f].
    + destruct (vw_held0 p) as [f []]; [by right|by exists f].
  - intros p [<-|Hp]%elem_of_cons; [done|auto].
  - intros p [<-|Hp]%elem_of_cons; [done|]. destruct (vw_new0 p Hp) as (? & ? & Hno). split_and!; try done.
    intros [Hd|Hd]; (apply elem_of_cons in Hd as [<-|Hd]; [done|]); apply Hno; [by left|by right].
Qed.

Lemma good_note d e : good R d (note e) (fun _ => d) (fun _ => True).
Proof.
  intros s h [] Hh. unfold note. rewrite wp_modify.
  split_and!; [|done|apply frame_still; by split|done]. split; cbn; try done.
  - intros fd p Hp. destruct (vw_fdt0 _ _ Hp) as [f []]. by exists f.
  - intros p Hp. destruct (vw_held0 p) as [f []]; [done|by exists f].
Qed.

Lemma holds_app p d h : holds p d -> holds p (d ++ h).
Proof. intros [Hp|Hp]; [left|right]; apply elem_of_app; by left. Qed.

Lemma held_file s d h p :
  vfs_wf s -> v_held s = d ++ h -> holds p d -> exists f, open_file s p f.
Proof. intros Hs Hh Hp. apply (vw_held s Hs). rewrite Hh. by apply holds_app. Qed.

Lemma good_file_at d p : holds p d -> good R d (file_at p) (fun _ => d) file_wf.
Proof.
  intros Hp s h Hs Hh. destruct (held_file s d h p) as [f []]; try done. by rewrite wp_file_at.
Qed.

Definition inode_wf (i : inode) : Prop := 0 <= i_size i < 2 ^ 63.

Lemma good_file_inode d p : holds p d -> good R d (file_inode p) (fun _ => d) inode_wf.
Proof.
  intros Hp s h Hs Hh. destruct (held_file s d h p) as [f [Hf ? [i Hi] ? ?]]; try done.
  unfold file_inode. rewrite wp_bind, wp_file_at, wp_inode_at by done.
  split_and!; try done. by destruct (vw_inode s Hs _ _ Hi).
Qed.

Lemma good_mapping_inode d p : holds p d -> good R d (mapping_inode p) (fun _ => d) inode_wf.
Proof.
  intros Hp s h Hs Hh. destruct (held_file s d h p) as [f [Hf ? ? [m Hm] ?]]; try done.
  destruct (vw_mapping s Hs _ _ Hm) as [i Hi].
  unfold mapping_inode. rewrite wp_bind, wp_file_at, wp_bind, wp_mapping_at, wp_inode_at by done.
  split_and!; try done. by destruct (vw_inode s Hs _ _ Hi).
Qed.

(** States that differ in user memory and in what file systems keep. *)
Lemma outside_open s s' p f : outside s s' -> open_file s p f -> open_file s' p f.
Proof.
  intros [] [Hf Hw [i Hi] [m Hm] Hd]. split; [by rewrite out_files0|done| | |by rewrite out_dentries0].
  - destruct (out_inodes0 _ _ Hi) as (i' & -> & _). eauto.
  - specialize (out_mappings0 (f_mapping f)). rewrite Hm in out_mappings0.
    destruct (v_mappings s' !! f_mapping f); [eauto|done].
Qed.

Lemma outside_wf s s' : vfs_wf s -> outside s s' -> vfs_wf s'.
Proof.
  intros Hs Ho. pose proof Ho as []. split.
  - by eapply kernel_wf_same, vw_kernel.
  - intros cs. rewrite out_counters0. by apply vw_counters.
  - intros fd p. rewrite out_fdt0. intros Hp. destruct (vw_fdt s Hs _ _ Hp) as [f Hf].
    exists f. by eapply outside_open.
  - intros p. rewrite out_held0. intros Hp. destruct (vw_held s Hs _ Hp) as [f Hf].
    exists f. by eapply outside_open.
  - done.
  - intros p m Hm. specialize (out_mappings0 p). rewrite Hm in out_mappings0.
    destruct (v_mappings s !! p) as [m'|] eqn:Hm'; [|done]. injection out_mappings0 as Heq.
    destruct (vw_mapping s Hs _ _ Hm') as [i Hi]. rewrite Heq.
    destruct (out_inodes0 _ _ Hi) as (i' & -> & _). eauto.
  - intros d p. rewrite out_dentries0. intros Hd. destruct (vw_dentry s Hs _ _ Hd) as [i Hi].
    destruct (out_inodes0 _ _ Hi) as (i' & -> & _). eauto.
  - intros p. rewrite out_held0, out_dentries0. by apply vw_path.
  - intros p. rewrite out_held0, out_files0, out_fdt0. by apply vw_new.
  - destruct out_objects0 as (-> & _ & _ & _ & _ & _ & -> & _). rewrite out_fs0. apply Hs.
Qed.

Lemma open_file_insert s p f q g f' :
  open_file s q g -> v_files s !! p = Some f ->
  file_wf f' -> f_inode f' = f_inode f -> f_mapping f' = f_mapping f -> f_path f' = f_path f ->
  exists g', open_file (s <| v_files ::= <[p := f']> |>) q g'.
Proof.
  intros [Hq ? ? ? ?] Hp Hw Hi Hm Hd. destruct (decide (p = q)) as [->|Hne].
  - rewrite Hp in Hq. injection Hq as ->. exists f'.
    split; cbn; rewrite ?lookup_insert_eq, ?Hi, ?Hm, ?Hd; done.
  - exists g. split; cbn; rewrite ?lookup_insert_ne; done.
Qed.

Lemma vfs_wf_put_file s p f f' :
  vfs_wf s -> v_files s !! p = Some f ->
  file_wf f' -> f_inode f' = f_inode f -> f_mapping f' = f_mapping f -> f_path f' = f_path f ->
  vfs_wf (s <| v_files ::= <[p := f']> |>).
Proof.
  intros Hs Hp ? ? ? ?. destruct Hs. split; cbn; try done.
  - intros fd q Hq. destruct (vw_fdt0 _ _ Hq) as [g Hg]. by eapply open_file_insert.
  - intros q Hq. destruct (vw_held0 _ Hq) as [g Hg]. by eapply open_file_insert.
  - intros q Hq. destruct (vw_new0 q Hq) as (? & ? & ?). split_and!; try done.
    rewrite lookup_insert. by case_decide.
Qed.

Lemma file_wf_pos f pos v : file_wf f -> is_s64 pos -> file_wf (f <| f_pos := pos |> <| f_version := v |>).
Proof. intros [] ?. by split. Qed.

Lemma vfs_wf_pos s p f pos v :
  vfs_wf s -> open_file s p f -> is_s64 pos ->
  vfs_wf (s <| v_files ::= <[p := f <| f_pos := pos |> <| f_version := v |>]> |>).
Proof.
  intros Hs [] Hp. eapply vfs_wf_put_file; try done. by apply file_wf_pos.
Qed.

Lemma good_set_f_pos d p pos :
  holds p d -> is_s64 pos -> good same_table d (set_f_pos p pos) (fun _ => d) (fun _ => True).
Proof.
  intros Hp Hpos s h Hs Hh. destruct (held_file s d h p) as [f Hf]; try done.
  unfold set_f_pos, put_file. rewrite wp_bind, wp_file_at, wp_modify by apply Hf.
  split_and!; [|done|done|done]. pose proof (vfs_wf_pos s p f pos (f_version f) Hs Hf Hpos) as Hw.
  by destruct f.
Qed.

Lemma moved_table p s s' : moved p s s' -> same_table s s'.
Proof. intros (s1 & f & pos & v & Ho & _ & _ & ->). exact (out_fdt _ _ Ho). Qed.

Lemma moved_wf p s s' : vfs_wf s -> holds p (v_held s) -> moved p s s' -> vfs_wf s' /\ v_held s' = v_held s.
Proof.
  intros Hs Hp (s1 & f & pos & v & Ho & Hf & Hpos & ->). pose proof (outside_wf _ _ Hs Ho) as Hs1.
  split; [|exact (out_held _ _ Ho)].
  destruct (vw_held s1 Hs1 p) as [g Hg]; [by rewrite (out_held _ _ Ho)|].
  pose proof (of_file _ _ _ Hg) as Hg'. rewrite Hf in Hg'. injection Hg' as <-. by apply vfs_wf_pos.
Qed.

Lemma wf_acquire_ref s r p f fd :
  vfs_wf s -> r = FileRef p \/ r = PosRef p -> open_file s p f -> v_fdt s !! fd = Some p -> vfs_wf (s <| v_held ::= cons r |>).
Proof.
  intros Hs Hr Hf Hfd. assert (forall q g, open_file s q g -> open_file (s <| v_held ::= cons r |>) q g) as Ho
    by (intros q g []; by split).
  destruct Hs. split; cbn; try done.
  - intros fd0 q Hq. destruct (vw_fdt0 _ _ Hq) as [g Hg]. eauto.
  - intros q Hq. assert (q = p \/ holds q (v_held s)) as [->|Hq']; [|by eauto|].
    + destruct Hq as [Hq|Hq]; apply elem_of_cons in Hq as [Hq|Hq]; unfold holds; naive_solver.
    + destruct (vw_held0 _ Hq') as [g Hg]. eauto.
  - intros q [Hq|Hq]%elem_of_cons; [by destruct Hr; subst|auto].
  - intros q [Hq|Hq]%elem_of_cons; [by destruct Hr; subst|]. destruct (vw_new0 q Hq) as (? & Hn & Hno).
    split_and!; try done. intros Hd. assert (q = p \/ holds q (v_held s)) as [->|]; [|by eapply Hn|done].
    destruct Hd as [Hd|Hd]; apply elem_of_cons in Hd as [Hd|Hd]; unfold holds; naive_solver.
Qed.

Lemma fd_file_Some s fd p : fd_file s fd = Some p -> v_fdt s !! fd = Some p.
Proof. unfold fd_file. repeat case_match; naive_solver. Qed.

Lemma good_fdget d fd :
  good R d (fdget fd) (fun o => if o is Some p then FileRef p :: d else d) (fun _ => True).
Proof.
  intros s h Hs Hh. unfold fdget. rewrite wp_bind, wp_gets.
  destruct (fd_file s fd) as [p|] eqn:Hp; [|by rewrite wp_ret].
  apply fd_file_Some in Hp. destruct (vw_fdt s Hs _ _ Hp) as [f Hf].
  unfold acquire. autorewrite with wp.
  split_and!; [eapply wf_acquire_ref; eauto|by cbn; rewrite Hh|apply frame_still; by split|done].
Qed.

Lemma good_fdget_raw d fd :
  good R d (fdget_raw fd) (fun o => if o is Some p then FileRef p :: d else d) (fun _ => True).
Proof.
  intros s h Hs Hh. unfold fdget_raw. rewrite wp_bind, wp_gets.
  destruct (v_fdt s !! fd) as [p|] eqn:Hp; [|by rewrite wp_ret].
  destruct (vw_fdt s Hs _ _ Hp) as [f Hf].
  unfold acquire. autorewrite with wp.
  split_and!; [eapply wf_acquire_ref; eauto|by cbn; rewrite Hh|apply frame_still; by split|done].
Qed.

Lemma good_fdget_pos d fd :
  good R d (fdget_pos fd) (fun o => if o is Some p then PosRef p :: d else d) (fun _ => True).
Proof.
  intros s h Hs Hh. unfold fdget_pos. rewrite wp_bind, wp_gets.
  destruct (fd_file s fd) as [p|] eqn:Hp; [|by rewrite wp_ret].
  apply fd_file_Some in Hp. destruct (vw_fdt s Hs _ _ Hp) as [f Hf].
  unfold acquire. autorewrite with wp.
  split_and!; [eapply wf_acquire_ref; eauto|by cbn; rewrite Hh|apply frame_still; by split|done].
Qed.
End Logic.

Section LogicKernel.
Context `{VfsEnv} {R : vfs -> vfs -> Prop} `{!Frame R}.
Implicit Types (d : list resource) (s : vfs).

Lemma vfs_wf_tr s t :
  vfs_wf s -> kernel_wf (tr_k t) ->
  (forall u, k_tasks (tr_k t) !! k_current (tr_k t) = Some u -> is_Some (v_fs s !! t_fs u)) ->
  (forall cs, syscall_counters t = Some cs -> length cs = 4%nat) -> vfs_wf (s <| v_tr := t |>).
Proof.
  intros [] Hk Hu Hc. split; cbn; try done.
  - intros fd p Hp. destruct (vw_fdt0 _ _ Hp) as [f []]. by exists f.
  - intros p Hp. destruct (vw_held0 p) as [f []]; [done|by exists f].
Qed.

Lemma vfs_wf_kernel s k :
  vfs_wf s -> same_objects (v_k s) k -> vfs_wf (s <| v_tr ::= fun t => t <| tr_k := k |> |>).
Proof.
  intros Hs Hk. apply (vfs_wf_tr s); [done|by eapply kernel_wf_same, vw_kernel| |cbn; apply Hs].
  cbn. destruct Hk as (-> & _ & _ & _ & _ & _ & -> & _). apply Hs.
Qed.

(** A routine that works on the kernel objects only. *)
Lemma good_on_kernel {A} d (m : Kern kernel A) (Q : A -> Prop) :
  (forall k, kernel_wf k -> wp m (fun a k' => same_objects k k' /\
     (forall x, is_Some (k_user k !! x) -> is_Some (k_user k' !! x)) /\ Q a) k) ->
  good R d (on_kernel m) (fun _ => d) Q.
Proof.
  intros Hm s h Hs Hh. specialize (Hm (v_k s) (vw_kernel s Hs)). unfold on_kernel, zoom, wp in *.
  destruct (m (v_k s)) as [a k'|c]; [|done]. destruct Hm as (Hk & Hu & HQ).
  split_and!; try done; [|apply frame_still; by split].
  by apply vfs_wf_kernel.
Qed.

Context `{!UserArch} `{!UserArchOk}.

Lemma same_user_accessed k m : same_objects k (user_accessed m k).
Proof. by repeat split. Qed.

Lemma good_copy_to_user d a bs :
  good R d (on_kernel (k_copy_to_user a bs)) (fun _ => d) (fun r => 0 <= r <= blen bs).
Proof.
  apply good_on_kernel. intros k Hk. unfold k_copy_to_user, wp.
  pose proof (copy_to_user_res (k_user k) a bs) as Hp.
  pose proof (copy_to_user_prefix (k_user k) a bs) as Hm.
  destruct (copy_to_user (k_user k) a bs) as [m r]. split_and!; [apply same_user_accessed| |apply Hp|apply Hp].
  intros x Hx. cbn. rewrite Hm. by apply is_Some_write_bytes.
Qed.

Lemma good_copy_from_user d a n :
  good R d (on_kernel (k_copy_from_user a n)) (fun _ => d) (fun _ => True).
Proof.
  apply good_on_kernel. intros k Hk. unfold k_copy_from_user, wp. split_and!; [apply same_user_accessed|done|done].
Qed.

Lemma good_put_user d n x a : good R d (on_kernel (k_put_user n x a)) (fun _ => d) (fun _ => True).
Proof.
  apply good_on_kernel. intros k Hk. unfold k_put_user, put_user, wp.
  destruct (put_user_faults _ _ _); (split_and!; [apply same_user_accessed| |done]); [done|].
  intros y Hy. by apply is_Some_write_bytes.
Qed.
End LogicKernel.

Section LogicOps.
Context `{VfsEnvOk} {R : vfs -> vfs -> Prop} `{!Frame R}.
Implicit Types (d : list resource) (p : Z) (s : vfs).

Lemma outside_still s s' : outside s s' -> still s s'.
Proof.
  intros Ho. destruct Ho as [? ? ? ? Hi ? ? ? ? ? ? ?]. split; try done.
  intros p [i Hp]. destruct (Hi _ _ Hp) as (i' & -> & _). eauto.
Qed.

Lemma good_outside {A} d (m : Kern vfs A) (Q : A -> Prop) :
  (forall s h, vfs_wf s -> v_held s = d ++ h -> wp m (fun a s' => outside s s' /\ Q a) s) ->
  good R d m (fun _ => d) Q.
Proof.
  intros Hm s h Hs Hh. eapply wp_mono; [|by eapply Hm]. intros a s' [Ho HQ].
  split_and!; [by eapply outside_wf|by rewrite (out_held _ _ Ho)| |done].
  apply frame_still. by apply outside_still.
Qed.

Lemma held_holds s d h p : v_held s = d ++ h -> holds p d -> holds p (v_held s).
Proof. intros -> Hp. by apply holds_app. Qed.

Lemma good_op_llseek d o op p off whence :
  fop_llseek o = Some op -> holds p d -> is_s64 off -> good same_table d (op p off whence) (fun _ => d) is_s64.
Proof.
  intros Hop Hp Hoff s h Hs Hh. pose proof (held_holds _ _ _ _ Hh Hp) as Hp'.
  eapply wp_mono; [|by eapply fop_llseek_ok]. intros r s' [Hm Hr].
  destruct (moved_wf p s s') as [? Heq]; try done. split_and!; [done|by rewrite Heq|by eapply moved_table|done].
Qed.

Lemma good_op_read d o op p buf n pos :
  fop_read o = Some op -> holds p d -> 0 <= n -> pos_ok pos ->
  good R d (op p buf n pos) (fun _ => d) (fun x => rw_ret n x.1 /\ pos_after pos x.2).
Proof.
  intros. apply good_outside. intros s h Hs Hh.
  eapply wp_mono; [|eapply fop_read_ok; try done; by eapply held_holds].
  by intros [r pos'] s' (? & ? & ?).
Qed.

Lemma good_op_write d o op p buf n pos :
  fop_write o = Some op -> holds p d -> 0 <= n -> pos_ok pos ->
  good R d (op p buf n pos) (fun _ => d) (fun x => rw_ret n x.1 /\ pos_after pos x.2).
Proof.
  intros. apply good_outside. intros s h Hs Hh.
  eapply wp_mono; [|eapply fop_write_ok; try done; by eapply held_holds].
  by intros [r pos'] s' (? & ? & ?).
Qed.

Definition iter_post (iocb : kiocb) (n : Z) (x : Z * kiocb * iov_iter) : Prop :=
  rw_ret n x.1.1 /\ is_s64 (ki_pos x.1.2) /\ ki_filp x.1.2 = ki_filp iocb /\
  (ki_sync iocb = true -> x.1.1 <> - EIOCBQUEUED).

Lemma good_op_read_iter d o op iocb i :
  fop_read_iter o = Some op -> holds (ki_filp iocb) d -> is_s64 (ki_pos iocb) ->
  good R d (op iocb i) (fun _ => d) (iter_post iocb (iov_iter_count i)).
Proof.
  intros. apply good_outside. intros s h Hs Hh.
  eapply wp_mono; [|eapply fop_read_iter_ok; try done; by eapply held_holds].
  by intros [[r iocb'] i'] s' (? & ?).
Qed.

Lemma good_op_write_iter d o op iocb i :
  fop_write_iter o = Some op -> holds (ki_filp iocb) d -> is_s64 (ki_pos iocb) ->
  good R d (op iocb i) (fun _ => d) (iter_post iocb (iov_iter_count i)).
Proof.
  intros. apply good_outside. intros s h Hs Hh.
  eapply wp_mono; [|eapply fop_write_iter_ok; try done; by eapply held_holds].
  by intros [[r iocb'] i'] s' (? & ?).
Qed.
End LogicOps.

(** The hook of the call counters. *)
Section LogicTrack.
Context `{VfsEnv} `{!UserArch}.

Definition v_track (id : Z) (now : timespec64) : Kern vfs unit :=
  zoom v_tr (fun t s => s <| v_tr := t |>) (track_syscall id now).

Lemma good_track d id now :
  0 <= id < 4 -> good same_table d (v_track id now) (fun _ => d) (fun _ => True).
Proof.
  intros Hid s h Hs Hh.
  assert (wp (track_syscall id now) (fun _ t => tr_k t = tr_k (v_tr s) /\
    forall cs, syscall_counters t = Some cs -> length cs = 4%nat) (v_tr s)) as Hm.
  { unfold track_syscall. rewrite wp_bind, wp_gets.
    destruct (syscall_counters (v_tr s)) as [cs|] eqn:Hcs; [|rewrite wp_ret; by rewrite Hcs].
    pose proof (vw_counters s Hs cs Hcs) as Hlen. unfold MAX_SYS_CALLS.
    destruct (Z.leb_spec 4 id); [lia|]. rewrite wp_bind. unfold counter_at.
    destruct (Z.ltb_spec id 0); [lia|].
    destruct (lookup_lt_is_Some_2 cs (Z.to_nat id)) as [u Hu]; [lia|]. rewrite Hu.
    unfold deref, set_counter_at. rewrite wp_ret. autorewrite with wp. split; [done|].
    cbn. rewrite Hcs. cbn. intros cs' [= <-]. by rewrite !length_insert. }
  unfold v_track, zoom, wp in *. destruct (track_syscall id now (v_tr s)) as [[] t|]; [|done].
  destruct Hm as [Hk Hc]. split_and!; try done. apply vfs_wf_tr; [done| | |done]; rewrite Hk; apply Hs.
Qed.
End LogicTrack.

(** ** Automation *)
Section Hints.
Context `{VfsEnv} {R : vfs -> vfs -> Prop} `{!Frame R}.
Implicit Types (d : list resource) (p : Z).

Lemma good_fdput d p : good R (FileRef p :: d) (fdput p) (fun _ => d) (fun _ => True).
Proof. apply good_release. Qed.
Lemma good_fdput_pos d p : good R (PosRef p :: d) (fdput_pos p) (fun _ => d) (fun _ => True).
Proof. apply good_release. Qed.
Lemma good_start_write d p : good R d (file_start_write p) (fun _ => FileWrite p :: d) (fun _ => True).
Proof. by apply good_acquire. Qed.
Lemma good_end_write d p : good R (FileWrite p :: d) (file_end_write p) (fun _ => d) (fun _ => True).
Proof. apply good_release. Qed.
Lemma good_inode_lock d p : good R d (inode_lock p) (fun _ => InodeLock p :: d) (fun _ => True).
Proof. by apply good_acquire. Qed.
Lemma good_inode_unlock d p : good R (InodeLock p :: d) (inode_unlock p) (fun _ => d) (fun _ => True).
Proof. apply good_release. Qed.
Lemma good_fsnotify_access d p : good R d (fsnotify_access p) (fun _ => d) (fun _ => True).
Proof. apply good_note. Qed.
Lemma good_fsnotify_modify d p : good R d (fsnotify_modify p) (fun _ => d) (fun _ => True).
Proof. apply good_note. Qed.
Lemma good_add_rchar d n : good R d (add_rchar n) (fun _ => d) (fun _ => True).
Proof. apply good_note. Qed.
Lemma good_add_wchar d n : good R d (add_wchar n) (fun _ => d) (fun _ => True).
Proof. apply good_note. Qed.
Lemma good_inc_syscr d : good R d inc_syscr (fun _ => d) (fun _ => True).
Proof. apply good_note. Qed.
Lemma good_inc_syscw d : good R d inc_syscw (fun _ => d) (fun _ => True).
Proof. apply good_note. Qed.
Lemma good_skip d : good R d (mret tt) (fun _ => d) (fun _ => True).
Proof. by apply good_ret. Qed.

(** [if (c) call();] for a call that holds nothing afterwards. *)
Lemma good_when d (c : bool) (m : Kern vfs unit) :
  good R d m (fun _ => d) (fun _ => True) ->
  good R d (if c then m else mret tt) (fun _ => d) (fun _ => True).
Proof. intros Hm. destruct c; [done|apply good_skip]. Qed.

Lemma holds_file_here p d : holds p (FileRef p :: d).
Proof. left. by left. Qed.
Lemma holds_pos_here p d : holds p (PosRef p :: d).
Proof. right. by left. Qed.
Lemma holds_cons p r d : holds p d -> holds p (r :: d).
Proof. intros [Hp|Hp]; [left|right]; by right. Qed.
End Hints.

Create HintDb good.
#[export] Hint Resolve good_fdput good_fdput_pos good_start_write good_end_write good_inode_lock
  good_inode_unlock good_fsnotify_access good_fsnotify_modify good_add_rchar good_add_wchar
  good_inc_syscr good_inc_syscw good_skip good_when good_note good_fdget good_fdget_raw good_fdget_pos
  good_gets_any good_file_at good_file_inode good_mapping_inode good_set_f_pos good_copy_to_user
  good_copy_from_user good_put_user : good.
#[export] Hint Resolve holds_file_here holds_pos_here holds_cons : good.
#[export] Hint Extern 0 (Frame _) => (typeclasses eauto) : good.

(** One step of a routine: the next call, a branch, or the end. *)
Ltac good_step :=
  cbn beta iota;
  match goal with
  | |- good _ _ (match ?x with _ => _ end) _ _ => destruct x eqn:?
  | |- good _ _ (mbind _ _) _ _ => eapply good_bind; [solve [eauto 4 with good] | intros ? ?]
  | |- good _ _ (mret _) _ _ => apply good_ret
  end.
Ltac good_auto := repeat good_step; try done.
