(* ===== verification/Seek.v ===== *)
(** File positions: the llseek family of [fs/read_write.c].

    The positions are 64-bit signed numbers and sums wrap around; the theorems
    relate the routines to a seek on the integers, where nothing wraps.  The lock
    [f_lock] only orders concurrent [SEEK_CUR] calls and is left out. *)

From S2P Require Import Prelude Uaccess Kernel Track Vfs.

Definition SEEK_SET : Z := 0.
Definition SEEK_CUR : Z := 1.
Definition SEEK_END : Z := 2.
Definition SEEK_DATA : Z := 3.
Definition SEEK_HOLE : Z := 4.
Definition SEEK_MAX : Z := SEEK_HOLE.

Section Seek.
Context `{UserArch} `{VfsEnv}.

Definition unsigned_offsets (f : file) : bool := has (f_mode f) FMODE_UNSIGNED_OFFSET.

Definition vfs_setpos (p offset maxsize : Z) : Kern vfs Z :=
  f ← file_at p;
  if (offset <? 0) && negb (unsigned_offsets f) then mret (- EINVAL)
  else if maxsize <? offset then mret (- EINVAL)
  else
  (if negb (offset =? f_pos f) then put_file p (f <| f_pos := offset |> <| f_version := 0 |>) else mret tt);;
  mret offset.

Definition generic_file_llseek_size (p offset whence maxsize eof : Z) : Kern vfs Z :=
  if whence =? SEEK_END then vfs_setpos p (s64 (offset + eof)) maxsize
  else if whence =? SEEK_CUR then
    f ← file_at p;
    if offset =? 0 then mret (f_pos f)
    else vfs_setpos p (s64 (f_pos f + offset)) maxsize
  else if whence =? SEEK_DATA then
    if u64 eof <=? u64 offset then mret (- ENXIO) else vfs_setpos p offset maxsize
  else if whence =? SEEK_HOLE then
    if u64 eof <=? u64 offset then mret (- ENXIO) else vfs_setpos p eof maxsize
  else vfs_setpos p offset maxsize.

Definition generic_file_llseek (p offset whence : Z) : Kern vfs Z :=
  inode ← mapping_inode p;
  generic_file_llseek_size p offset whence (s_maxbytes (i_sb inode)) (i_size inode).

Definition fixed_size_llseek (p offset whence size : Z) : Kern vfs Z :=
  if (whence =? SEEK_SET) || (whence =? SEEK_CUR) || (whence =? SEEK_END)
  then generic_file_llseek_size p offset whence size size
  else mret (- EINVAL).

Definition no_seek_end_llseek (p offset whence : Z) : Kern vfs Z :=
  if (whence =? SEEK_SET) || (whence =? SEEK_CUR)
  then generic_file_llseek_size p offset whence OFFSET_MAX 0
  else mret (- EINVAL).

Definition no_seek_end_llseek_size (p offset whence size : Z) : Kern vfs Z :=
  if (whence =? SEEK_SET) || (whence =? SEEK_CUR)
  then generic_file_llseek_size p offset whence size 0
  else mret (- EINVAL).

Definition noop_llseek (p offset whence : Z) : Kern vfs Z := f ← file_at p; mret (f_pos f).

(** The switch of [default_llseek]: [inl] is a jump to [out] with the given result,
    [inr] the offset to go to. *)
Definition default_target (f : file) (i_size offset whence : Z) : Z + Z :=
  if whence =? SEEK_END then inr (s64 (offset + i_size))
  else if whence =? SEEK_CUR then
    if offset =? 0 then inl (f_pos f) else inr (s64 (offset + f_pos f))
  else if whence =? SEEK_DATA then
    if i_size <=? offset then inl (- ENXIO) else inr offset
  else if whence =? SEEK_HOLE then
    if i_size <=? offset then inl (- ENXIO) else inr i_size
  else inr offset.

Definition default_llseek (p offset whence : Z) : Kern vfs Z :=
  f ← file_at p;
  inode_lock (f_inode f);;
  inode ← file_inode p;
  retval ← match default_target f (i_size inode) offset whence with
           | inl retval => mret retval
           | inr offset =>
               if (0 <=? offset) || unsigned_offsets f then
                 (if negb (offset =? f_pos f)
                  then put_file p (f <| f_pos := offset |> <| f_version := 0 |>) else mret tt);;
                 mret offset
               else mret (- EINVAL)
           end;
  inode_unlock (f_inode f);;
  mret retval.

Definition vfs_llseek (p offset whence : Z) : Kern vfs Z :=
  f ← file_at p;
  if negb (has (f_mode f) FMODE_LSEEK) then mret (- ESPIPE)
  else
  llseek ← deref NullDeref (fop_llseek (f_op f));
  llseek p offset whence.

Definition ksys_lseek (fd offset whence : Z) : Kern vfs Z :=
  o ← fdget_pos fd;
  match o with
  | None => mret (- EBADF)
  | Some p =>
      retval ← (if whence <=? SEEK_MAX then
                  res ← vfs_llseek p offset whence;
                  let retval := s64 res in
                  mret (if negb (res =? retval) then - EOVERFLOW else retval)
                else mret (- EINVAL));
      fdput_pos p;;
      mret retval
  end.

Definition lseek (fd offset whence : Z) : Kern vfs Z := ksys_lseek fd offset whence.
Definition compat_lseek (fd offset whence : Z) : Kern vfs Z := ksys_lseek fd (s32 offset) whence.

(** [((loff_t) offset_high << 32) | offset_low]. *)
Definition glue_offset (offset_high offset_low : Z) : Z :=
  s64 (Z.lor (u64 (Z.shiftl offset_high 32)) offset_low).

Definition llseek (fd offset_high offset_low result whence : Z) : Kern vfs Z :=
  o ← fdget_pos fd;
  match o with
  | None => mret (- EBADF)
  | Some p =>
      retval ← (if SEEK_MAX <? whence then mret (- EINVAL)
                else
                offset ← vfs_llseek p (glue_offset offset_high offset_low) whence;
                if 0 <=? offset then
                  uncopied ← on_kernel (k_copy_to_user result (le_bytes 8 offset));
                  mret (if truthy uncopied then - EFAULT else 0)
                else mret (s32 offset));
      fdput_pos p;;
      mret retval
  end.

(** ** The seek on the integers *)
Definition seek_target (pos eof offset whence : Z) : Z :=
  if whence =? SEEK_END then eof + offset
  else if whence =? SEEK_CUR then pos + offset
  else if whence =? SEEK_HOLE then eof
  else offset.

Definition looks_for_data (whence : Z) : bool := (whence =? SEEK_DATA) || (whence =? SEEK_HOLE).

(** The result of a seek in a file of size [eof] that may grow to [maxsize]. *)
Definition seek_result (pos eof maxsize offset whence : Z) : Z :=
  let target := seek_target pos eof offset whence in
  if looks_for_data whence && negb ((0 <=? offset) && (offset <? eof)) then - ENXIO
  else if (whence =? SEEK_CUR) && (offset =? 0) then pos
  else if (0 <=? target) && (target <=? maxsize) then target
  else - EINVAL.

(** The file after a seek with result [r]. *)
Definition seek_file (f : file) (r : Z) : file :=
  if (0 <=? r) && negb (r =? f_pos f) then f <| f_pos := r |> <| f_version := 0 |> else f.

(** ** Lemmas *)
Lemma s64_cases z : - 2 ^ 63 <= z < 2 ^ 64 ->
  (s64 z = z /\ z < 2 ^ 63) \/ (s64 z = z - 2 ^ 64 /\ 2 ^ 63 <= z).
Proof.
  intros Hz. destruct (Z.lt_ge_cases z (2 ^ 63)) as [Hlt|Hge].
  - left. split; [|done]. apply s64_id. unfold is_s64. lia.
  - right. split; [|done]. unfold s64. replace (z + 2 ^ 63) with (z - 2 ^ 63 + 1 * 2 ^ 64) by lia.
    rewrite Z.mod_add, Z.mod_small by lia. lia.
Qed.

Lemma s64_low z : - 2 ^ 64 <= z < - 2 ^ 63 -> 0 <= s64 z.
Proof.
  intros Hz. unfold s64. replace (z + 2 ^ 63) with (z + 2 ^ 63 + 2 ^ 64 + (-1) * 2 ^ 64) by lia.
  rewrite Z.mod_add, Z.mod_small by lia. lia.
Qed.

Lemma put_same_file s p f : v_files s !! p = Some f -> s <| v_files ::= <[p := f]> |> = s.
Proof. intros Hf. destruct s. cbn in *. f_equal. by apply insert_id. Qed.

Lemma setpos_run s p f offset maxsize :
  v_files s !! p = Some f -> unsigned_offsets f = false ->
  vfs_setpos p offset maxsize s =
    let r := if (0 <=? offset) && (offset <=? maxsize) then offset else - EINVAL in
    Done r (s <| v_files ::= <[p := seek_file f r]> |>).
Proof.
  intros Hf Hu. pose proof (put_same_file s p f Hf) as Hid.
  unfold vfs_setpos, file_at, put_file. kernel_unfold. rewrite Hf, Hu. cbn.
  rewrite andb_true_r. unfold seek_file.
  destruct (Z.ltb_spec offset 0), (Z.leb_spec 0 offset); try lia; cbn.
  { f_equal. by rewrite <- Hid at 1. }
  destruct (Z.ltb_spec maxsize offset), (Z.leb_spec offset maxsize); try lia; cbn.
  { f_equal. by rewrite <- Hid at 1. }
  destruct (Z.leb_spec 0 offset); [|lia].
  destruct (Z.eqb_spec offset (f_pos f)); cbn; [f_equal; by rewrite <- Hid at 1|done].
Qed.

(** Outside of [0, 2^63) a position that wraps around is refused or exceeds every
    maximal size. *)
Lemma wrapped_target a b maxsize :
  0 <= a < 2 ^ 63 -> is_s64 b -> 0 <= maxsize < 2 ^ 63 ->
  (if (0 <=? s64 (a + b)) && (s64 (a + b) <=? maxsize) then s64 (a + b) else - EINVAL) =
  (if (0 <=? a + b) && (a + b <=? maxsize) then a + b else - EINVAL).
Proof.
  unfold is_s64. intros Ha Hb Hm.
  destruct (s64_cases (a + b)) as [[-> ?]|[-> ?]]; [lia|done|].
  destruct (Z.leb_spec 0 (a + b - 2 ^ 64)); [lia|].
  destruct (Z.leb_spec (a + b) maxsize); [lia|]. by rewrite andb_false_r.
Qed.

(** The unsigned comparison of [SEEK_DATA] and [SEEK_HOLE] also catches negative
    offsets. *)
Lemma unsigned_past_end eof offset :
  0 <= eof < 2 ^ 63 -> is_s64 offset ->
  (u64 eof <=? u64 offset) = negb ((0 <=? offset) && (offset <? eof)).
Proof.
  unfold is_s64. intros Heof Hoff. rewrite (u64_id eof) by (unfold is_u64; lia).
  destruct (Z.leb_spec 0 offset).
  - rewrite u64_id by (unfold is_u64; lia). cbn.
    destruct (Z.leb_spec eof offset), (Z.ltb_spec offset eof); try lia; done.
  - replace (u64 offset) with (offset + 2 ^ 64); [by apply Z.leb_le; lia|].
    unfold u64. rewrite <- (Z.mod_add offset 1), Z.mod_small by lia. lia.
Qed.

Lemma seek_file_same f r : r = f_pos f \/ r < 0 -> seek_file f r = f.
Proof.
  intros Hr. unfold seek_file. destruct (Z.leb_spec 0 r), (Z.eqb_spec r (f_pos f)); try done. lia.
Qed.

Lemma generic_run s p f offset whence maxsize eof :
  v_files s !! p = Some f -> unsigned_offsets f = false -> 0 <= f_pos f < 2 ^ 63 ->
  0 <= eof < 2 ^ 63 -> 0 <= maxsize < 2 ^ 63 -> is_s64 offset ->
  generic_file_llseek_size p offset whence maxsize eof s =
    let r := seek_result (f_pos f) eof maxsize offset whence in
    Done r (s <| v_files ::= <[p := seek_file f r]> |>).
Proof.
  intros Hf Hu Hpos Heof Hmax Hoff. pose proof (put_same_file s p f Hf) as Hid.
  pose proof (unsigned_past_end eof offset Heof Hoff) as Hdata.
  unfold generic_file_llseek_size, seek_result, looks_for_data, seek_target.
  destruct (Z.eqb_spec whence SEEK_END) as [->|_]; cbn [SEEK_END SEEK_DATA SEEK_HOLE SEEK_CUR Z.eqb Pos.eqb orb andb].
  { rewrite (setpos_run s p f) by done. cbv zeta.
    by rewrite (Z.add_comm offset eof), wrapped_target by done. }
  destruct (Z.eqb_spec whence SEEK_CUR) as [->|_]; cbn [SEEK_END SEEK_DATA SEEK_HOLE SEEK_CUR Z.eqb Pos.eqb orb andb].
  { rewrite (bind_done _ _ s f s) by (unfold file_at; kernel_unfold; by rewrite Hf).
    destruct (Z.eqb_spec offset 0); cbv zeta.
    - rewrite seek_file_same by auto. by rewrite Hid.
    - rewrite (setpos_run s p f) by done. cbv zeta. by rewrite wrapped_target by done. }
  destruct (Z.eqb_spec whence SEEK_DATA) as [->|_]; cbn [SEEK_END SEEK_DATA SEEK_HOLE SEEK_CUR Z.eqb Pos.eqb orb andb].
  { rewrite Hdata. destruct (negb _); cbv zeta.
    - rewrite seek_file_same by (right; done). by rewrite Hid.
    - by rewrite (setpos_run s p f). }
  destruct (Z.eqb_spec whence SEEK_HOLE) as [->|_]; cbn [SEEK_END SEEK_DATA SEEK_HOLE SEEK_CUR Z.eqb Pos.eqb orb andb].
  { rewrite Hdata. destruct (negb _); cbv zeta.
    - rewrite seek_file_same by (right; done). by rewrite Hid.
    - by rewrite (setpos_run s p f). }
  by rewrite (setpos_run s p f).
Qed.
(** The size and the limit that count for a file: those of the inode of its mapping. *)
Definition host_inode (s : vfs) (f : file) : option inode :=
  m ← v_mappings s !! f_mapping f; v_inodes s !! host m.

Lemma mapping_inode_run s p f i :
  v_files s !! p = Some f -> host_inode s f = Some i -> mapping_inode p s = Done i s.
Proof.
  unfold host_inode, mapping_inode, file_at, mapping_at, inode_at. kernel_unfold. intros ->.
  destruct (v_mappings s !! f_mapping f) as [m|]; cbn; [|done]. intros ->. done.
Qed.

Lemma host_inode_wf s p f : vfs_wf s -> open_file s p f -> exists i, host_inode s f = Some i /\ inode_wf i.
Proof.
  intros Hs [? ? ? [m Hm] ?]. destruct (vw_mapping s Hs _ _ Hm) as [i Hi]. exists i.
  unfold host_inode. rewrite Hm. cbn. split; [done|]. by destruct (vw_inode s Hs _ _ Hi).
Qed.

(** Borrowing a descriptor around a call that leaves the ledger alone. *)
Lemma fdget_pos_run s fd p :
  fd_file s fd = Some p -> fdget_pos fd s = Done (Some p) (s <| v_held ::= cons (PosRef p) |>).
Proof. intros Hp. unfold fdget_pos, acquire. kernel_unfold. by rewrite Hp. Qed.

Lemma fdput_pos_run s p h : v_held s = PosRef p :: h -> fdput_pos p s = Done tt (s <| v_held := h |>).
Proof.
  intros Hh. unfold fdput_pos, release. kernel_unfold. rewrite Hh. cbn. by rewrite decide_True.
Qed.

Lemma fd_file_open s fd p :
  vfs_wf s -> fd_file s fd = Some p -> exists f, open_file s p f.
Proof. intros Hs Hp. by eapply vw_fdt, fd_file_Some. Qed.

(** What [lseek] does on a file whose file system uses [generic_file_llseek]. *)
Definition lseek_result (s : vfs) (f : file) (offset whence : Z) : Z :=
  if SEEK_MAX <? whence then - EINVAL
  else if negb (has (f_mode f) FMODE_LSEEK) then - ESPIPE
  else match host_inode s f with
       | Some i => seek_result (f_pos f) (i_size i) (s_maxbytes (i_sb i)) offset whence
       | None => 0
       end.

Lemma seek_result_range pos eof maxsize offset whence :
  is_s64 pos -> 0 <= maxsize < 2 ^ 63 -> is_s64 (seek_result pos eof maxsize offset whence).
Proof.
  unfold is_s64, seek_result. intros. repeat case_match; bool_facts; unfold ENXIO, EINVAL; try lia.
Qed.
End Seek.

(** ** Theorems *)
Section SeekTheorems.
Context `{UserArch} `{VfsEnvOk}.

Lemma vfs_llseek_generic s p f i offset whence :
  v_files s !! p = Some f -> host_inode s f = Some i -> inode_wf i ->
  fop_llseek (f_op f) = Some generic_file_llseek -> unsigned_offsets f = false ->
  0 <= f_pos f < 2 ^ 63 -> is_s64 offset -> whence <= SEEK_MAX ->
  vfs_llseek p offset whence s =
    let r := lseek_result s f offset whence in Done r (s <| v_files ::= <[p := seek_file f r]> |>).
Proof.
  intros Hf Hi Hiw Hop Hu Hpos Hoff Hw. unfold vfs_llseek, lseek_result. cbv zeta.
  rewrite (proj2 (Z.ltb_ge SEEK_MAX whence)) by done.
  rewrite (bind_done _ _ s f s) by (unfold file_at; kernel_unfold; by rewrite Hf).
  destruct (has (f_mode f) FMODE_LSEEK); cbn [negb].
  2:{ rewrite seek_file_same by (by right). by rewrite (put_same_file s p f). }
  rewrite (bind_done _ _ s generic_file_llseek s) by (by rewrite Hop).
  unfold generic_file_llseek. rewrite (bind_done _ _ s i s) by (by eapply mapping_inode_run).
  rewrite Hi. by rewrite (generic_run s p f) by (done || apply s_maxbytes_range).
Qed.

(** C17: On a file system that seeks with [generic_file_llseek], [lseek] computes
    the seek on the integers: whatever wraps around at 64 bits is refused, the
    result is the new position, a refused seek leaves the file alone, a file
    that cannot seek answers -ESPIPE, an unknown descriptor -EBADF and an unknown
    mode -EINVAL; nothing else in the state changes. *)
Theorem lseek_refines s fd offset whence :
  vfs_wf s -> is_s64 offset ->
  (forall p f, fd_file s fd = Some p -> v_files s !! p = Some f ->
    fop_llseek (f_op f) = Some generic_file_llseek /\ unsigned_offsets f = false /\ 0 <= f_pos f) ->
  match fd_file s fd with
  | None => lseek fd offset whence s = Done (- EBADF) s
  | Some p => exists f, v_files s !! p = Some f /\
      let r := lseek_result s f offset whence in
      lseek fd offset whence s = Done r (s <| v_files ::= <[p := seek_file f r]> |>)
  end.
Proof.
  intros Hs Hoff Hgen. unfold lseek, ksys_lseek. destruct (fd_file s fd) as [p|] eqn:Hp.
  2:{ unfold fdget_pos. kernel_unfold. by rewrite Hp. }
  destruct (fd_file_open s fd p Hs Hp) as [f Hf]. exists f. split; [apply Hf|]. cbv zeta.
  destruct (Hgen p f eq_refl (of_file _ _ _ Hf)) as (Hop & Hu & Hpos).
  destruct (host_inode_wf s p f Hs Hf) as (i & Hi & Hiw).
  pose proof (fw_pos f (of_wf _ _ _ Hf)) as Hfp.
  pose (s1 := s <| v_held ::= cons (PosRef p) |>).
  rewrite (bind_done _ _ s (Some p) s1) by (by apply fdget_pos_run).
  set (r := lseek_result s f offset whence).
  assert (is_s64 r) as Hr.
  { unfold r, lseek_result. rewrite Hi. repeat case_match; try (unfold is_s64, EINVAL, ESPIPE; lia).
    apply seek_result_range; [done|apply s_maxbytes_range]. }
  pose (s2 := s1 <| v_files ::= <[p := seek_file f r]> |>).
  rewrite (bind_done _ _ s1 r s2).
  - rewrite (bind_done _ _ s2 tt (s2 <| v_held := v_held s |>)) by (by apply fdput_pos_run).
    by destruct s.
  - destruct (Z.leb_spec whence SEEK_MAX) as [Hw|Hw].
    + rewrite (bind_done _ _ s1 r s2).
      * rewrite (s64_id r), Z.eqb_refl by done. done.
      * unfold s2, r. apply (vfs_llseek_generic s1 p f i); try done; [apply Hf|].
        unfold is_s64 in Hfp. lia.
    + unfold s2, r, lseek_result. rewrite (proj2 (Z.ltb_lt SEEK_MAX whence)) by done.
      rewrite seek_file_same by (by right). rewrite put_same_file by apply Hf. done.
Qed.
(** What [default_llseek] adds to the generic seek: no limit but the position's
    width, and no check that the offset of a search is not negative. *)
Lemma default_target_spec f size offset whence :
  0 <= f_pos f < 2 ^ 63 -> 0 <= size < 2 ^ 63 -> is_s64 offset -> unsigned_offsets f = false ->
  looks_for_data whence && (offset <? 0) = false ->
  (match default_target f size offset whence with
   | inl r => r
   | inr t => if (0 <=? t) || unsigned_offsets f then t else - EINVAL
   end) = seek_result (f_pos f) size OFFSET_MAX offset whence.
Proof.
  intros Hpos Hsize Hoff Hu Hneg. rewrite Hu.
  unfold default_target, seek_result, seek_target, looks_for_data in *. unfold is_s64 in Hoff.
  assert (forall a, 0 <= a < 2 ^ 63 -> (if (0 <=? s64 (offset + a)) || false then s64 (offset + a) else - EINVAL)
    = (if (0 <=? a + offset) && (a + offset <=? OFFSET_MAX) then a + offset else - EINVAL)) as Hsum.
  { intros a Ha. rewrite <- wrapped_target by (unfold is_s64, OFFSET_MAX; lia).
    rewrite orb_false_r, (Z.add_comm a). pose proof (s64_range (offset + a)) as Hr. unfold is_s64 in Hr.
    destruct (Z.leb_spec (s64 (offset + a)) OFFSET_MAX); [by rewrite andb_true_r|unfold OFFSET_MAX in *; lia]. }
  assert (0 <= offset -> (0 <=? offset) && (offset <? size) = (offset <? size)) as Hin.
  { intros ?. by rewrite (proj2 (Z.leb_le 0 offset)). }
  assert (forall t, t < 2 ^ 63 -> (if (0 <=? t) || false then t else - EINVAL)
    = (if (0 <=? t) && (t <=? OFFSET_MAX) then t else - EINVAL)) as Hsame.
  { intros t Ht. rewrite orb_false_r, (proj2 (Z.leb_le t OFFSET_MAX)), andb_true_r by (unfold OFFSET_MAX; lia). done. }
  destruct (Z.eqb_spec whence SEEK_END) as [->|_]; cbn [SEEK_END SEEK_DATA SEEK_HOLE SEEK_CUR Z.eqb Pos.eqb orb andb] in *.
  { by apply Hsum. }
  destruct (Z.eqb_spec whence SEEK_CUR) as [->|_]; cbn [SEEK_END SEEK_DATA SEEK_HOLE SEEK_CUR Z.eqb Pos.eqb orb andb] in *.
  { destruct (offset =? 0); [done|by apply Hsum]. }
  destruct (Z.eqb_spec whence SEEK_DATA) as [->|_]; cbn [SEEK_END SEEK_DATA SEEK_HOLE SEEK_CUR Z.eqb Pos.eqb orb andb] in *.
  { bool_facts. rewrite Hin, <- Z.leb_antisym by lia. destruct (size <=? offset); [done|]. apply Hsame. lia. }
  destruct (Z.eqb_spec whence SEEK_HOLE) as [->|_]; cbn [SEEK_END SEEK_DATA SEEK_HOLE SEEK_CUR Z.eqb Pos.eqb orb andb] in *.
  { bool_facts. rewrite Hin, <- Z.leb_antisym by lia. destruct (size <=? offset); [done|]. apply Hsame. lia. }
  apply Hsame. lia.
Qed.

Lemma default_run s p f i offset whence :
  v_files s !! p = Some f -> v_inodes s !! f_inode f = Some i -> inode_wf i ->
  0 <= f_pos f < 2 ^ 63 -> is_s64 offset -> unsigned_offsets f = false ->
  let r := match default_target f (i_size i) offset whence with
           | inl r => r
           | inr t => if (0 <=? t) || unsigned_offsets f then t else - EINVAL
           end in
  (forall r', default_target f (i_size i) offset whence = inl r' -> r' = f_pos f \/ r' < 0) /\
  default_llseek p offset whence s = Done r (s <| v_files ::= <[p := seek_file f r]> |>).
Proof.
  intros Hf Hi Hiw Hpos Hoff Hu r.
  assert (forall r', default_target f (i_size i) offset whence = inl r' -> r' = f_pos f \/ r' < 0) as Hout.
  { intros r'. unfold default_target. repeat case_match; intros [= <-]; auto; right; done. }
  split; [done|]. pose proof (put_same_file s p f Hf) as Hid.
  unfold default_llseek, inode_lock, inode_unlock, acquire, release, file_inode, inode_at, file_at, put_file.
  unfold r. kernel_unfold. rewrite Hf. cbn. rewrite Hf. cbn. rewrite Hi. cbn.
  destruct (default_target f (i_size i) offset whence) as [r'|t].
  - cbn. rewrite decide_True by done. cbn. rewrite seek_file_same by eauto.
    f_equal. rewrite <- Hid at 2. by destruct s.
  - rewrite Hu, orb_false_r. unfold seek_file.
    destruct (Z.leb_spec 0 t); cbn.
    + rewrite (proj2 (Z.leb_le 0 t)) by done.
      destruct (Z.eqb_spec t (f_pos f)); cbn; rewrite decide_True by done; cbn.
      * f_equal. rewrite <- Hid at 2. by destruct s.
      * by destruct s.
    + rewrite decide_True by done. cbn. f_equal. rewrite <- Hid at 2. by destruct s.
Qed.
(** [default_llseek] is the seek on the integers in a file that may grow to
    2^63 - 1 bytes, except that it compares the offset of a search as a signed
    number: [SEEK_DATA] from a negative offset answers -EINVAL, and [SEEK_HOLE]
    from a negative offset succeeds and moves to the end of the file, where
    [generic_file_llseek] answers -ENXIO.  The inode lock is released. *)
Theorem default_llseek_exact s p f i offset whence :
  v_files s !! p = Some f -> v_inodes s !! f_inode f = Some i -> inode_wf i ->
  0 <= f_pos f < 2 ^ 63 -> is_s64 offset -> unsigned_offsets f = false ->
  let r := if looks_for_data whence && (offset <? 0)
           then if whence =? SEEK_HOLE then i_size i else - EINVAL
           else seek_result (f_pos f) (i_size i) OFFSET_MAX offset whence in
  default_llseek p offset whence s = Done r (s <| v_files ::= <[p := seek_file f r]> |>).
Proof.
  intros Hf Hi Hiw Hpos Hoff Hu r. destruct (default_run s p f i offset whence) as [_ ->]; try done.
  cbv zeta. assert (forall x y, x = y -> Done x (s <| v_files ::= <[p := seek_file f x]> |>)
    = Done y (s <| v_files ::= <[p := seek_file f y]> |>)) as Heq by (by intros x y ->).
  apply Heq. unfold r. destruct (looks_for_data whence && (offset <? 0)) eqn:Hneg.
  2:{ by apply default_target_spec. }
  unfold looks_for_data in Hneg. bool_facts. unfold inode_wf in Hiw. rewrite Hu.
  assert (offset < 0 /\ (whence = SEEK_DATA \/ whence = SEEK_HOLE)) as [Hlt [-> | ->]].
  { destruct_and?. bool_facts. split; [done|]. unfold is_true in *. destruct (Z.eqb_spec whence SEEK_DATA); [auto|].
    destruct (Z.eqb_spec whence SEEK_HOLE); [auto|]. naive_solver. }
  all: unfold default_target; cbn [SEEK_END SEEK_DATA SEEK_HOLE SEEK_CUR Z.eqb Pos.eqb orb andb].
  - destruct (Z.leb_spec (i_size i) offset); [lia|]. destruct (Z.leb_spec 0 offset); [lia|done].
  - destruct (Z.leb_spec (i_size i) offset); [lia|]. destruct (Z.leb_spec 0 (i_size i)); [done|lia].
Qed.

(** ** Safety *)
Lemma good_vfs_llseek d p offset whence :
  holds p d -> is_s64 offset -> good same_table d (vfs_llseek p offset whence) (fun _ => d) is_s64.
Proof.
  intros Hp Hoff. unfold vfs_llseek. eapply good_bind; [by apply good_file_at|]. intros f Hf.
  destruct (has (f_mode f) FMODE_LSEEK) eqn:Hl; cbn [negb]; [|apply good_ret; unfold is_s64, ESPIPE; lia].
  destruct (fw_llseek f Hf Hl) as [op Hop].
  eapply good_deref; [done|]. by eapply good_op_llseek.
Qed.
#[local] Hint Resolve good_vfs_llseek : good.

Lemma good_lseek d fd offset whence :
  is_s64 offset -> good same_table d (lseek fd offset whence) (fun _ => d) is_s64.
Proof.
  intros Hoff. unfold lseek, ksys_lseek. good_step. destruct a as [p|]; [|apply good_ret; unfold is_s64, EBADF; lia].
  eapply good_bind with (D := fun _ => PosRef p :: d) (Q := is_s64).
  - destruct (whence <=? SEEK_MAX); [|apply good_ret; unfold is_s64, EINVAL; lia].
    good_step. apply good_ret. rewrite s64_id, Z.eqb_refl by done. done.
  - intros r Hr. good_auto.
Qed.

Lemma glue_range hi lo : is_s64 (glue_offset hi lo).
Proof. apply s64_range. Qed.
#[local] Hint Resolve glue_range : good.

Lemma good_llseek `{!UserArchOk} d fd hi lo result whence :
  good same_table d (llseek fd hi lo result whence) (fun _ => d) (fun _ => True).
Proof.
  unfold llseek. good_step. destruct a as [p|]; [|by apply good_ret].
  eapply good_bind with (D := fun _ => PosRef p :: d) (Q := fun _ => True); [|intros; good_auto].
  destruct (SEEK_MAX <? whence); good_auto.
Qed.
(** Two states that differ at most in user memory. *)
Definition user_only (s s' : vfs) : Prop :=
  exists m, s' = s <| v_tr ::= fun t => t <| tr_k ::= user_accessed m |> |>.

(** The tail of [llseek]: a position is copied to the caller. *)
Definition store_pos (result offset : Z) : Kern vfs Z :=
  if 0 <=? offset then
    uncopied ← on_kernel (k_copy_to_user result (le_bytes 8 offset));
    mret (if truthy uncopied then - EFAULT else 0)
  else mret (s32 offset).

Definition stored (result r : Z) (s : vfs) (r' : Z) (s' : vfs) : Prop :=
  if 0 <=? r
  then user_only s s' /\ (r' = - EFAULT \/ r' = 0 /\ read_bytes (k_user (v_k s')) result 8 = le_bytes 8 r)
  else r' = s32 r /\ s' = s.

Lemma store_pos_run `{!UserArchOk} s result r :
  exists r' s', store_pos result r s = Done r' s' /\ stored result r s r' s'.
Proof.
  unfold store_pos, stored. destruct (0 <=? r); [|by exists (s32 r), s].
  unfold on_kernel, zoom, k_copy_to_user. kernel_unfold.
  pose proof (copy_to_user_prefix (k_user (v_k s)) result (le_bytes 8 r)) as Hm.
  destruct (copy_to_user _ _ _) as [m u]. subst m. eexists _, _. split; [done|].
  split; [by eexists|]. destruct (truthy u) eqn:Hu; bool_facts; [by left|right].
  split; [done|]. subst u. rewrite Z.sub_0_r. unfold blen. rewrite Nat2Z.id, firstn_all.
  exact (read_write_bytes (k_user (v_k s)) result (le_bytes 8 r)).
Qed.

Definition drop_pos (p r : Z) : Kern vfs Z := fdput_pos p;; mret r.

(** [llseek] is [lseek] with the offset in two halves: it moves the file in the
    same way, and stores the position [lseek] returns at [result] (or answers
    -EFAULT after having moved); an error comes back as it is, cut to 32 bits.
    Apart from that store the two calls leave the same state. *)
Theorem llseek_agrees `{!UserArchOk} s fd hi lo result whence :
  vfs_wf s ->
  wp (lseek fd (glue_offset hi lo) whence) (fun r s1 =>
    wp (llseek fd hi lo result whence) (fun r' s2 => stored result r s1 r' s2) s) s.
Proof.
  intros Hs. unfold lseek, ksys_lseek, llseek. destruct (fd_file s fd) as [p|] eqn:Hp.
  2:{ assert (fdget_pos fd s = Done None s) as Hget by (unfold fdget_pos; kernel_unfold; by rewrite Hp).
      rewrite wp_bind, (wp_run _ _ _ _ _ Hget), wp_ret, wp_bind, (wp_run _ _ _ _ _ Hget), wp_ret.
      unfold stored. by cbn. }
  pose (s1 := s <| v_held ::= cons (PosRef p) |>).
  pose proof (fdget_pos_run s fd p Hp) as Hget. fold s1 in Hget.
  destruct (fd_file_open s fd p Hs Hp) as [f Hf].
  assert (vfs_wf s1) as Hs1 by (eapply wf_acquire_ref; eauto using fd_file_Some).
  assert (forall r s2, v_held s2 = v_held s1 -> drop_pos p r s2 = Done r (s2 <| v_held := v_held s |>)) as Hput.
  { intros r s2 Hh. unfold drop_pos. by rewrite (bind_done _ _ s2 tt (s2 <| v_held := v_held s |>)) by (by apply fdput_pos_run). }
  unfold drop_pos in Hput.
  rewrite wp_bind, (wp_run _ _ _ _ _ Hget). rewrite Z.ltb_antisym. destruct (whence <=? SEEK_MAX); cbn [negb].
  2:{ rewrite wp_bind, wp_ret, (wp_run _ _ _ _ _ (Hput _ s1 eq_refl)), wp_bind, (wp_run _ _ _ _ _ Hget).
      rewrite wp_bind, wp_ret, (wp_run _ _ _ _ _ (Hput _ s1 eq_refl)). by cbn. }
  pose proof (good_vfs_llseek [PosRef p] p (glue_offset hi lo) whence (holds_pos_here _ _) (glue_range hi lo) s1 (v_held s) Hs1 eq_refl) as Hrun.
  apply wp_done in Hrun as (r & s2 & Hrun & Hs2 & Hh & _ & Hr).
  assert (v_held s2 = v_held s1) as Hh2 by done.
  rewrite wp_bind, wp_bind, (wp_run _ _ _ _ _ Hrun), s64_id, Z.eqb_refl, wp_ret by done. cbn [negb].
  rewrite (wp_run _ _ _ _ _ (Hput r s2 Hh2)), wp_bind, (wp_run _ _ _ _ _ Hget).
  rewrite wp_bind, wp_bind, (wp_run _ _ _ _ _ Hrun). change (if 0 <=? r then _ else _) with (store_pos result r).
  destruct (store_pos_run s2 result r) as (r' & s3 & Hst & Hpost).
  rewrite (wp_run _ _ _ _ _ Hst). unfold stored in *.
  destruct (0 <=? r); [destruct Hpost as [[m ->] Hpost]|destruct Hpost as [-> ->]].
  - erewrite wp_run by (by apply Hput). split; [by exists m|done].
  - by erewrite wp_run by (by apply Hput).
Qed.
End SeekTheorems.
