(* ===== verification/ReadWrite.v ===== *)
(** Reading and writing: [rw_verify_area] to [pwrite64] of [fs/read_write.c].

    A position pointer is an optional value; a routine that stores through it
    returns what it stored beside its result.  The system calls [read] and [write]
    first call the hook of the call counters, as the repository changed them to.
    A routine whose caller has already read the [struct file] takes the record
    [filp] along with the pointer; nothing changes it in between. *)

From S2P Require Import Prelude Uaccess Kernel Track Vfs Seek.

Definition READ : Z := 0.
Definition WRITE : Z := 1.
Definition __NR_read : Z := 0.
Definition __NR_write : Z := 1.

Section ReadWrite.
Context `{UserArch} `{VfsEnv}.

(** The checks of [rw_verify_area] on the area itself: 0 or an error. *)
Definition verify_pos (f : file) (ppos : option Z) (count : Z) : Z :=
  match ppos with
  | None => 0
  | Some pos =>
      if pos <? 0 then
        if negb (unsigned_offsets f) then - EINVAL
        else if u64 (- pos) <=? count then - EOVERFLOW else 0
      else if s64 (pos + count) <? 0 then
        if negb (unsigned_offsets f) then - EINVAL else 0
      else 0
  end.

Definition rw_verify_area (read_write p : Z) (ppos : option Z) (count : Z) : Kern vfs Z :=
  let mask := if read_write =? READ then MAY_READ else MAY_WRITE in
  if s64 count <? 0 then mret (- EINVAL)
  else
  f ← file_at p;
  let err := verify_pos f ppos count in
  if truthy err then mret err
  else
  ret ← gets (fun s => security_file_permission s p mask);
  if truthy ret then mret ret
  else gets (fun s => fsnotify_file_area_perm s p mask ppos count).

Definition call_read_iter (filp : file) (kiocb : kiocb) (iter : iov_iter) : Kern vfs (Z * Vfs.kiocb * iov_iter) :=
  read_iter ← deref NullDeref (fop_read_iter (f_op filp));
  read_iter kiocb iter.
Definition call_write_iter (filp : file) (kiocb : kiocb) (iter : iov_iter) : Kern vfs (Z * Vfs.kiocb * iov_iter) :=
  write_iter ← deref NullDeref (fop_write_iter (f_op filp));
  write_iter kiocb iter.

Definition new_sync_read (p : Z) (filp : file) (buf len : Z) (ppos : option Z) : Kern vfs (Z * option Z) :=
  let kiocb := init_sync_kiocb p filp in
  '(ret, kiocb, _) ← call_read_iter filp (kiocb <| ki_pos := default 0 ppos |>) (iov_iter_ubuf buf len);
  if ret =? - EIOCBQUEUED then crashed KernelBug
  else mret (ret, (fun _ => ki_pos kiocb) <$> ppos).

Definition warn_unsupported (p : Z) (op : string) : Kern vfs Z := note (Unsupported op p);; mret (- EINVAL).

Definition __kernel_read (p buf count : Z) (pos : option Z) : Kern vfs (Z * option Z) :=
  let iov_len := Z.min count MAX_RW_COUNT in
  f ← file_at p;
  if negb (has (f_mode f) FMODE_READ) then mret (- EINVAL, pos)
  else if negb (has (f_mode f) FMODE_CAN_READ) then mret (- EINVAL, pos)
  else
  match fop_read_iter (f_op f), fop_read (f_op f) with
  | Some read_iter, None =>
      let kiocb := init_sync_kiocb p f in
      '(ret, kiocb, _) ← read_iter (kiocb <| ki_pos := default 0 pos |>) (iov_iter_kvec buf iov_len);
      (if 0 <? ret then fsnotify_access p;; add_rchar ret else mret tt);;
      inc_syscr;;
      mret (ret, if 0 <? ret then (fun _ => ki_pos kiocb) <$> pos else pos)
  | _, _ => ret ← warn_unsupported p "read"; mret (ret, pos)
  end.

Definition kernel_read (p buf count : Z) (pos : option Z) : Kern vfs (Z * option Z) :=
  ret ← rw_verify_area READ p pos count;
  if truthy ret then mret (ret, pos)
  else __kernel_read p buf count pos.

Definition vfs_read (p buf count : Z) (pos : option Z) : Kern vfs (Z * option Z) :=
  f ← file_at p;
  if negb (has (f_mode f) FMODE_READ) then mret (- EBADF, pos)
  else if negb (has (f_mode f) FMODE_CAN_READ) then mret (- EINVAL, pos)
  else if negb (access_ok buf count) then mret (- EFAULT, pos)
  else
  ret ← rw_verify_area READ p pos count;
  if truthy ret then mret (ret, pos)
  else
  let count := if MAX_RW_COUNT <? count then MAX_RW_COUNT else count in
  '(ret, pos) ← match fop_read (f_op f), fop_read_iter (f_op f) with
                | Some read, _ => read p buf count pos
                | None, Some _ => new_sync_read p f buf count pos
                | None, None => mret (- EINVAL, pos)
                end;
  (if 0 <? ret then fsnotify_access p;; add_rchar ret else mret tt);;
  inc_syscr;;
  mret (ret, pos).

Definition new_sync_write (p : Z) (filp : file) (buf len : Z) (ppos : option Z) : Kern vfs (Z * option Z) :=
  let kiocb := init_sync_kiocb p filp in
  '(ret, kiocb, _) ← call_write_iter filp (kiocb <| ki_pos := default 0 ppos |>) (iov_iter_ubuf buf len);
  if ret =? - EIOCBQUEUED then crashed KernelBug
  else mret (ret, if 0 <? ret then (fun _ => ki_pos kiocb) <$> ppos else ppos).

Definition __kernel_write_iter (p : Z) (from : iov_iter) (pos : option Z) : Kern vfs (Z * option Z) :=
  f ← file_at p;
  if negb (has (f_mode f) FMODE_WRITE) then mret (- EBADF, pos)
  else if negb (has (f_mode f) FMODE_CAN_WRITE) then mret (- EINVAL, pos)
  else
  match fop_write_iter (f_op f), fop_write (f_op f) with
  | Some write_iter, None =>
      let kiocb := init_sync_kiocb p f in
      '(ret, kiocb, _) ← write_iter (kiocb <| ki_pos := default 0 pos |>) from;
      (if 0 <? ret then fsnotify_modify p;; add_wchar ret else mret tt);;
      inc_syscw;;
      mret (ret, if 0 <? ret then (fun _ => ki_pos kiocb) <$> pos else pos)
  | _, _ => ret ← warn_unsupported p "write"; mret (ret, pos)
  end.

Definition __kernel_write (p buf count : Z) (pos : option Z) : Kern vfs (Z * option Z) :=
  __kernel_write_iter p (iov_iter_kvec buf (Z.min count MAX_RW_COUNT)) pos.

Definition kernel_write (p buf count : Z) (pos : option Z) : Kern vfs (Z * option Z) :=
  ret ← rw_verify_area WRITE p pos count;
  if truthy ret then mret (ret, pos)
  else
  file_start_write p;;
  ret ← __kernel_write p buf count pos;
  file_end_write p;;
  mret ret.

Definition vfs_write (p buf count : Z) (pos : option Z) : Kern vfs (Z * option Z) :=
  f ← file_at p;
  if negb (has (f_mode f) FMODE_WRITE) then mret (- EBADF, pos)
  else if negb (has (f_mode f) FMODE_CAN_WRITE) then mret (- EINVAL, pos)
  else if negb (access_ok buf count) then mret (- EFAULT, pos)
  else
  ret ← rw_verify_area WRITE p pos count;
  if truthy ret then mret (ret, pos)
  else
  let count := if MAX_RW_COUNT <? count then MAX_RW_COUNT else count in
  file_start_write p;;
  '(ret, pos) ← match fop_write (f_op f), fop_write_iter (f_op f) with
                | Some write, _ => write p buf count pos
                | None, Some _ => new_sync_write p f buf count pos
                | None, None => mret (- EINVAL, pos)
                end;
  (if 0 <? ret then fsnotify_modify p;; add_wchar ret else mret tt);;
  inc_syscw;;
  file_end_write p;;
  mret (ret, pos).

(** [None] for a stream. *)
Definition file_ppos (f : file) : option Z := if has (f_mode f) FMODE_STREAM then None else Some (f_pos f).

(** [if (ret >= 0 && ppos) f.file->f_pos = pos]. *)
Definition store_ppos (p ret : Z) (pos : option Z) : Kern vfs unit :=
  match pos with
  | Some pos => if 0 <=? ret then set_f_pos p pos else mret tt
  | None => mret tt
  end.

Definition ksys_read (fd buf count : Z) : Kern vfs Z :=
  o ← fdget_pos fd;
  match o with
  | None => mret (- EBADF)
  | Some p =>
      f ← file_at p;
      '(ret, pos) ← vfs_read p buf count (file_ppos f);
      store_ppos p ret pos;;
      fdput_pos p;;
      mret ret
  end.

Definition read (now : timespec64) (fd buf count : Z) : Kern vfs Z :=
  v_track __NR_read now;;
  ksys_read fd buf count.

Definition ksys_write (fd buf count : Z) : Kern vfs Z :=
  o ← fdget_pos fd;
  match o with
  | None => mret (- EBADF)
  | Some p =>
      f ← file_at p;
      '(ret, pos) ← vfs_write p buf count (file_ppos f);
      store_ppos p ret pos;;
      fdput_pos p;;
      mret ret
  end.

Definition write (now : timespec64) (fd buf count : Z) : Kern vfs Z :=
  v_track __NR_write now;;
  ksys_write fd buf count.

Definition ksys_pread64 (fd buf count pos : Z) : Kern vfs Z :=
  if pos <? 0 then mret (- EINVAL)
  else
  o ← fdget fd;
  match o with
  | None => mret (- EBADF)
  | Some p =>
      f ← file_at p;
      ret ← (if has (f_mode f) FMODE_PREAD then '(ret, _) ← vfs_read p buf count (Some pos); mret ret
             else mret (- ESPIPE));
      fdput p;;
      mret ret
  end.
Definition pread64 (fd buf count pos : Z) : Kern vfs Z := ksys_pread64 fd buf count pos.

Definition ksys_pwrite64 (fd buf count pos : Z) : Kern vfs Z :=
  if pos <? 0 then mret (- EINVAL)
  else
  o ← fdget fd;
  match o with
  | None => mret (- EBADF)
  | Some p =>
      f ← file_at p;
      ret ← (if has (f_mode f) FMODE_PWRITE then '(ret, _) ← vfs_write p buf count (Some pos); mret ret
             else mret (- ESPIPE));
      fdput p;;
      mret ret
  end.
Definition pwrite64 (fd buf count pos : Z) : Kern vfs Z := ksys_pwrite64 fd buf count pos.
End ReadWrite.

(** ** Safety *)
Section RwSafe.
Context `{UserArch} `{UioOk} `{!VfsEnv} `{!VfsEnvOk} {R : vfs -> vfs -> Prop} `{!Frame R}.
Implicit Types (d : list resource) (p : Z).

Lemma truthy_status r : status r -> truthy r = true -> is_errno r.
Proof. unfold status, is_errno. intros ? ?. bool_facts. lia. Qed.

Lemma rw_ret_errno n r : is_errno r -> rw_ret n r.
Proof. by left. Qed.

Lemma pos_after_refl pos : pos_ok pos -> pos_after pos pos.
Proof. by split. Qed.

Lemma verify_pos_status f ppos count : status (verify_pos f ppos count).
Proof. unfold verify_pos, status, EINVAL, EOVERFLOW. repeat case_match; lia. Qed.

Lemma good_verify d rw p ppos count :
  holds p d ->
  good R d (rw_verify_area rw p ppos count) (fun _ => d) (fun r => status r /\ (r = 0 -> 0 <= s64 count)).
Proof.
  intros Hp. unfold rw_verify_area. destruct (Z.ltb_spec (s64 count) 0).
  { apply good_ret. unfold status, EINVAL. lia. }
  good_step. destruct (truthy (verify_pos a ppos count)) eqn:Hv.
  { apply good_ret. split; [apply verify_pos_status|done]. }
  eapply good_bind with (D := fun _ => d) (Q := status);
    [apply good_gets; intros; apply security_file_permission_ret|].
  intros r Hr. destruct (truthy r); [by apply good_ret|].
  apply good_gets. intros s _. split; [apply fsnotify_perm_ret|done].
Qed.

Definition rw_post (n : Z) (pos : option Z) (x : Z * option Z) : Prop := rw_ret n x.1 /\ pos_after pos x.2.

Lemma rw_post_errno n pos r : is_errno r -> pos_ok pos -> rw_post n pos (r, pos).
Proof. intros ? ?. split; [by apply rw_ret_errno|by apply pos_after_refl]. Qed.

Lemma kiocb_post p filp pos n x :
  pos_ok pos -> iter_post ((init_sync_kiocb p filp) <| ki_pos := default 0 pos |>) n x ->
  rw_post n pos (x.1.1, (fun _ => ki_pos x.1.2) <$> pos) /\ x.1.1 <> - EIOCBQUEUED.
Proof.
  intros Hpos (Hr & Hs & _ & Hq). split; [|by apply Hq]. split; [done|].
  destruct pos; split; done.
Qed.

Lemma kiocb_pos_ok pos : pos_ok pos -> is_s64 (default 0 pos).
Proof. destruct pos; [done|]. intros _. cbn. unfold is_s64. lia. Qed.

Lemma good_new_sync_read d p filp buf len ppos :
  is_Some (fop_read_iter (f_op filp)) -> holds p d -> 0 <= len -> pos_ok ppos ->
  good R d (new_sync_read p filp buf len ppos) (fun _ => d) (rw_post len ppos).
Proof.
  intros [op Hop] Hp Hlen Hpos. unfold new_sync_read, call_read_iter.
  eapply good_bind.
  { eapply good_deref; [done|]. eapply good_op_read_iter; [done|done|by apply kiocb_pos_ok]. }
  intros [[r iocb] i] Hx. apply kiocb_post in Hx as [Hx Hq]; [|done].
  rewrite iter_ubuf_count in Hx by done. cbn in *.
  destruct (Z.eqb_spec r (- EIOCBQUEUED)); [done|]. by apply good_ret.
Qed.

Lemma good_new_sync_write d p filp buf len ppos :
  is_Some (fop_write_iter (f_op filp)) -> holds p d -> 0 <= len -> pos_ok ppos ->
  good R d (new_sync_write p filp buf len ppos) (fun _ => d) (rw_post len ppos).
Proof.
  intros [op Hop] Hp Hlen Hpos. unfold new_sync_write, call_write_iter.
  eapply good_bind.
  { eapply good_deref; [done|]. eapply good_op_write_iter; [done|done|by apply kiocb_pos_ok]. }
  intros [[r iocb] i] Hx. apply kiocb_post in Hx as [Hx Hq]; [|done].
  rewrite iter_ubuf_count in Hx by done. cbn in *.
  destruct (Z.eqb_spec r (- EIOCBQUEUED)); [done|]. apply good_ret.
  destruct (0 <? r); [done|]. split; [apply Hx|by apply pos_after_refl].
Qed.

Lemma good_rw_error d e n pos :
  is_errno e -> pos_ok pos -> good R d (mret (e, pos)) (fun _ => d) (rw_post n pos).
Proof. intros He Hpos. apply good_ret. by apply rw_post_errno. Qed.

Lemma good_warn d p op n pos :
  pos_ok pos -> good R d (ret ← warn_unsupported p op; mret (ret, pos)) (fun _ => d) (rw_post n pos).
Proof.
  intros Hpos. eapply good_bind with (D := fun _ => d) (Q := is_errno); [|by intros; apply good_rw_error].
  unfold warn_unsupported. eapply good_bind; [apply good_note|]. intros ? _. by apply good_ret.
Qed.

(** The end of every transfer: notification and accounting. *)
Lemma good_account {A} d ret (ev1 ev2 ev3 : Kern vfs unit) (x : A) (Q : A -> Prop) :
  good R d ev1 (fun _ => d) (fun _ => True) -> good R d ev2 (fun _ => d) (fun _ => True) ->
  good R d ev3 (fun _ => d) (fun _ => True) -> Q x ->
  good R d ((if 0 <? ret then ev1;; ev2 else mret tt);; ev3;; mret x) (fun _ => d) Q.
Proof.
  intros H1' H2' H3' HQ. eapply good_bind with (D := fun _ => d) (Q := fun _ => True).
  - destruct (0 <? ret); [|by apply good_ret]. eapply good_bind; [exact H1'|]. by intros ? _.
  - intros _ _. eapply good_bind; [exact H3'|]. intros ? _. by apply good_ret.
Qed.

Definition clamp (count : Z) : Z := Z.min count MAX_RW_COUNT.
Lemma clamp_if count : (if MAX_RW_COUNT <? count then MAX_RW_COUNT else count) = clamp count.
Proof. unfold clamp. destruct (Z.ltb_spec MAX_RW_COUNT count); lia. Qed.

Lemma good_vfs_read d p buf count pos :
  holds p d -> 0 <= count -> pos_ok pos ->
  good R d (vfs_read p buf count pos) (fun _ => d) (rw_post (clamp count) pos).
Proof.
  intros Hp Hcount Hpos. unfold vfs_read. eapply good_bind; [by apply good_file_at|]. intros f Hf.
  destruct (has (f_mode f) FMODE_READ); cbn [negb]; [|by apply good_rw_error].
  destruct (has (f_mode f) FMODE_CAN_READ) eqn:Hcan; cbn [negb]; [|by apply good_rw_error].
  destruct (access_ok buf count); cbn [negb]; [|by apply good_rw_error].
  eapply good_bind; [by apply good_verify|]. intros r [Hr _].
  destruct (truthy r) eqn:Ht; [by apply good_rw_error; [apply truthy_status|]|]. rewrite clamp_if.
  assert (0 <= clamp count) as Hc by (unfold clamp, MAX_RW_COUNT; lia).
  eapply good_bind with (D := fun _ => d) (Q := rw_post (clamp count) pos).
  - destruct (fw_read f Hf Hcan) as [_ Hops].
    destruct (fop_read (f_op f)) as [op|] eqn:Hop; [by eapply good_op_read|].
    destruct Hops as [[? [=]]|[op' Hop']]. rewrite Hop'. apply good_new_sync_read; eauto.
  - intros [ret pos'] Hx. apply good_account; eauto with good.
Qed.

Lemma good_vfs_write d p buf count pos :
  holds p d -> 0 <= count -> pos_ok pos ->
  good R d (vfs_write p buf count pos) (fun _ => d) (rw_post (clamp count) pos).
Proof.
  intros Hp Hcount Hpos. unfold vfs_write. eapply good_bind; [by apply good_file_at|]. intros f Hf.
  destruct (has (f_mode f) FMODE_WRITE); cbn [negb]; [|by apply good_rw_error].
  destruct (has (f_mode f) FMODE_CAN_WRITE) eqn:Hcan; cbn [negb]; [|by apply good_rw_error].
  destruct (access_ok buf count); cbn [negb]; [|by apply good_rw_error].
  eapply good_bind; [by apply good_verify|]. intros r [Hr _].
  destruct (truthy r) eqn:Ht; [by apply good_rw_error; [apply truthy_status|]|]. rewrite clamp_if.
  assert (0 <= clamp count) as Hc by (unfold clamp, MAX_RW_COUNT; lia).
  eapply good_bind; [apply good_start_write|]. intros ? _.
  eapply good_bind with (D := fun _ => FileWrite p :: d) (Q := rw_post (clamp count) pos).
  - destruct (fw_write f Hf Hcan) as [_ Hops].
    destruct (fop_write (f_op f)) as [op|] eqn:Hop; [eapply good_op_write; eauto with good|].
    destruct Hops as [[? [=]]|[op' Hop']]. rewrite Hop'. apply good_new_sync_write; eauto with good.
  - intros [ret pos'] Hx.
    eapply good_bind with (D := fun _ => FileWrite p :: d) (Q := fun _ => True); [|intros ? _; good_auto].
    destruct (0 <? ret); good_auto. apply good_note.
Qed.

Lemma good___kernel_read d p buf count pos :
  holds p d -> 0 <= count -> pos_ok pos ->
  good R d (__kernel_read p buf count pos) (fun _ => d) (rw_post (clamp count) pos).
Proof.
  intros Hp Hcount Hpos. unfold __kernel_read. eapply good_bind; [by apply good_file_at|]. intros f Hf.
  destruct (has (f_mode f) FMODE_READ); cbn [negb]; [|by apply good_rw_error].
  destruct (has (f_mode f) FMODE_CAN_READ) eqn:Hcan; cbn [negb]; [|by apply good_rw_error].
  destruct (fop_read_iter (f_op f)) as [op|] eqn:Hop; [|by apply good_warn].
  destruct (fop_read (f_op f)); [by apply good_warn|].
  eapply good_bind; [eapply good_op_read_iter; [done|done|by apply kiocb_pos_ok]|].
  intros [[r iocb] i] Hx. apply kiocb_post in Hx as [Hx Hq]; [|done]. cbn in *.
  rewrite iter_kvec_count in Hx by (unfold MAX_RW_COUNT; lia).
  apply good_account; eauto with good.
  destruct (0 <? r); [done|]. split; [apply Hx|by apply pos_after_refl].
Qed.

Lemma good___kernel_write_iter d p from pos :
  holds p d -> pos_ok pos ->
  good R d (__kernel_write_iter p from pos) (fun _ => d) (rw_post (iov_iter_count from) pos).
Proof.
  intros Hp Hpos. unfold __kernel_write_iter. eapply good_bind; [by apply good_file_at|]. intros f Hf.
  destruct (has (f_mode f) FMODE_WRITE); cbn [negb]; [|by apply good_rw_error].
  destruct (has (f_mode f) FMODE_CAN_WRITE) eqn:Hcan; cbn [negb]; [|by apply good_rw_error].
  destruct (fop_write_iter (f_op f)) as [op|] eqn:Hop; [|by apply good_warn].
  destruct (fop_write (f_op f)); [by apply good_warn|].
  eapply good_bind; [eapply good_op_write_iter; [done|done|by apply kiocb_pos_ok]|].
  intros [[r iocb] i] Hx. apply kiocb_post in Hx as [Hx Hq]; [|done]. cbn in *.
  apply good_account; eauto with good.
  destruct (0 <? r); [done|]. split; [apply Hx|by apply pos_after_refl].
Qed.

Lemma good_kernel_read d p buf count pos :
  holds p d -> 0 <= count -> pos_ok pos ->
  good R d (kernel_read p buf count pos) (fun _ => d) (rw_post (clamp count) pos).
Proof.
  intros Hp Hc Hpos. unfold kernel_read. eapply good_bind; [by apply good_verify|]. intros r [Hr _].
  destruct (truthy r) eqn:Ht; [|by apply good___kernel_read].
  apply good_ret. by apply rw_post_errno; [apply truthy_status|].
Qed.

Lemma good_kernel_write d p buf count pos :
  holds p d -> 0 <= count -> pos_ok pos ->
  good R d (kernel_write p buf count pos) (fun _ => d) (rw_post (clamp count) pos).
Proof.
  intros Hp Hc Hpos. unfold kernel_write. eapply good_bind; [by apply good_verify|]. intros r [Hr _].
  destruct (truthy r) eqn:Ht.
  { apply good_ret. by apply rw_post_errno; [apply truthy_status|]. }
  good_step. eapply good_bind.
  { apply good___kernel_write_iter; [by apply holds_cons|done]. }
  intros x Hx. rewrite iter_kvec_count in Hx by (unfold MAX_RW_COUNT; lia). good_auto.
Qed.
End RwSafe.

(** ** The system calls *)

(** Steps that change no open file but the position of [p]. *)
Record pos_moved (p : Z) (s s' : vfs) : Prop := {
  pm_others q : q <> p -> v_files s' !! q = v_files s !! q;
  pm_file f : v_files s !! p = Some f -> exists pos, v_files s' !! p = Some (f <| f_pos := pos |>);
  pm_fdt : v_fdt s' = v_fdt s;
  pm_counters : syscall_counters (v_tr s') = syscall_counters (v_tr s);
  pm_objects : same_objects (v_k s) (v_k s');
}.

Lemma still_pos_moved p s s' : still s s' -> pos_moved p s s'.
Proof.
  intros [Hs ? ? ? _]. split; try done; [by rewrite Hs|]. intros f Hf. exists (f_pos f).
  rewrite Hs, Hf. by destruct f.
Qed.

Section RwCalls.
Context `{UserArch} `{UioOk} `{!VfsEnv} `{!VfsEnvOk}.
Implicit Types (d : list resource) (p : Z).

Lemma file_ppos_ok f : file_wf f -> pos_ok (file_ppos f).
Proof. intros Hf. unfold file_ppos. destruct (has _ _); [done|]. apply Hf. Qed.

Lemma good_store_ppos d p ret pos :
  holds p d -> pos_ok pos -> good same_table d (store_ppos p ret pos) (fun _ => d) (fun _ => True).
Proof.
  intros Hp Hpos. unfold store_ppos. destruct pos as [pos|]; [|apply good_skip].
  apply good_when. by apply good_set_f_pos.
Qed.

Lemma good_ksys_read d fd buf count :
  0 <= count -> good same_table d (ksys_read fd buf count) (fun _ => d) (rw_ret (clamp count)).
Proof.
  intros Hc. unfold ksys_read. good_step. destruct a as [p|]; [|by apply good_ret, rw_ret_errno].
  good_step. eapply good_bind; [apply good_vfs_read; eauto using file_ppos_ok with good|].
  intros [r pos] [Hr [Hpos _]]. eapply good_bind; [apply good_store_ppos; eauto with good|].
  intros ? _. good_auto.
Qed.

Lemma good_ksys_write d fd buf count :
  0 <= count -> good same_table d (ksys_write fd buf count) (fun _ => d) (rw_ret (clamp count)).
Proof.
  intros Hc. unfold ksys_write. good_step. destruct a as [p|]; [|by apply good_ret, rw_ret_errno].
  good_step. eapply good_bind; [apply good_vfs_write; eauto using file_ppos_ok with good|].
  intros [r pos] [Hr [Hpos _]]. eapply good_bind; [apply good_store_ppos; eauto with good|].
  intros ? _. good_auto.
Qed.

Lemma good_read d now fd buf count :
  0 <= count -> good same_table d (read now fd buf count) (fun _ => d) (rw_ret (clamp count)).
Proof.
  intros Hc. eapply good_bind; [apply good_track; unfold __NR_read; lia|].
  intros ? _. by apply good_ksys_read.
Qed.

Lemma good_write d now fd buf count :
  0 <= count -> good same_table d (write now fd buf count) (fun _ => d) (rw_ret (clamp count)).
Proof.
  intros Hc. eapply good_bind; [apply good_track; unfold __NR_write; lia|].
  intros ? _. by apply good_ksys_write.
Qed.

(** Reading and writing at a given position, for any frame: no file is moved. *)
Lemma good_pread64 {R} `{!Frame R} d fd buf count pos :
  0 <= count -> pos < 2 ^ 63 -> good R d (pread64 fd buf count pos) (fun _ => d) (rw_ret (clamp count)).
Proof.
  intros Hc Hpos. unfold pread64, ksys_pread64. destruct (Z.ltb_spec pos 0); [by apply good_ret, rw_ret_errno|].
  good_step. destruct a as [p|]; [|by apply good_ret, rw_ret_errno]. good_step.
  eapply good_bind with (D := fun _ => FileRef p :: d) (Q := rw_ret (clamp count)); [|intros; good_auto].
  destruct (has _ _); [|by apply good_ret, rw_ret_errno].
  eapply good_bind; [apply good_vfs_read; [eauto with good|done|cbn; unfold is_s64; lia]|].
  intros [r pos'] [Hr _]. by apply good_ret.
Qed.

Lemma good_pwrite64 {R} `{!Frame R} d fd buf count pos :
  0 <= count -> pos < 2 ^ 63 -> good R d (pwrite64 fd buf count pos) (fun _ => d) (rw_ret (clamp count)).
Proof.
  intros Hc Hpos. unfold pwrite64, ksys_pwrite64. destruct (Z.ltb_spec pos 0); [by apply good_ret, rw_ret_errno|].
  good_step. destruct a as [p|]; [|by apply good_ret, rw_ret_errno]. good_step.
  eapply good_bind with (D := fun _ => FileRef p :: d) (Q := rw_ret (clamp count)); [|intros; good_auto].
  destruct (has _ _); [|by apply good_ret, rw_ret_errno].
  eapply good_bind; [apply good_vfs_write; [eauto with good|done|cbn; unfold is_s64; lia]|].
  intros [r pos'] [Hr _]. by apply good_ret.
Qed.

(** ** What the calls do to positions *)

(** The outcome of a transfer through descriptor [fd] at the file's own position. *)
Definition transferred (s : vfs) (fd count r : Z) (s' : vfs) : Prop :=
  vfs_wf s' /\ v_held s' = v_held s /\ rw_ret (clamp count) r /\
  match fd_file s fd with
  | None => r = - EBADF /\ s' = s
  | Some p => pos_moved p s s' /\
      forall f, v_files s !! p = Some f ->
        r < 0 \/ has (f_mode f) FMODE_STREAM = true -> v_files s' = v_files s
  end.

Lemma store_ppos_spec s p f ret pos :
  v_files s !! p = Some f ->
  store_ppos p ret pos s = Done tt
    (if pos is Some z then if 0 <=? ret then s <| v_files ::= <[p := f <| f_pos := z |>]> |> else s else s).
Proof.
  intros Hf. unfold store_ppos, set_f_pos, file_at, put_file. destruct pos as [z|]; [|done].
  destruct (0 <=? ret); [|done]. kernel_unfold. by rewrite Hf.
Qed.

(** The common shape of [ksys_read] and [ksys_write]. *)
Definition ksys_rw (xfer : Z -> option Z -> Kern vfs (Z * option Z)) (fd : Z) : Kern vfs Z :=
  o ← fdget_pos fd;
  match o with
  | None => mret (- EBADF)
  | Some p =>
      f ← file_at p;
      '(ret, pos) ← xfer p (file_ppos f);
      store_ppos p ret pos;;
      fdput_pos p;;
      mret ret
  end.

Lemma ksys_rw_spec xfer s fd count :
  (forall d p pos, holds p d -> pos_ok pos ->
     good still d (xfer p pos) (fun _ => d) (rw_post (clamp count) pos)) ->
  vfs_wf s -> wp (ksys_rw xfer fd) (fun r s' => transferred s fd count r s') s.
Proof.
  intros Hx Hs. unfold ksys_rw, transferred. destruct (fd_file s fd) as [p|] eqn:Hp.
  2:{ assert (fdget_pos fd s = Done None s) as Hget by (unfold fdget_pos; kernel_unfold; by rewrite Hp).
      rewrite wp_bind, (wp_run _ _ _ _ _ Hget), wp_ret. split_and!; try done. by left. }
  destruct (fd_file_open s fd p Hs Hp) as [f Hf].
  pose (s1 := s <| v_held ::= cons (PosRef p) |>).
  assert (vfs_wf s1) as Hs1 by (eapply wf_acquire_ref; eauto using fd_file_Some).
  rewrite wp_bind, (wp_run _ _ _ _ _ (fdget_pos_run s fd p Hp)). fold s1.
  rewrite wp_bind, (wp_file_at p _ s1 f) by apply Hf. rewrite wp_bind.
  eapply wp_mono; [|by apply (Hx [PosRef p] p (file_ppos f) (holds_pos_here _ _)
    (file_ppos_ok f (of_wf _ _ _ Hf)) s1 (v_held s))].
  intros [r pos] s2 (Hs2 & Hh2 & Hst & Hr & Hpos & Hsome). destruct Hst as [Hfiles Hfdt Hc Ho _].
  assert (v_files s2 !! p = Some f) as Hf2 by (rewrite Hfiles; apply Hf).
  rewrite wp_bind, (wp_run _ _ _ _ _ (store_ppos_spec s2 p f r pos Hf2)), wp_bind.
  set (s3 := if pos is Some z then _ else s2).
  assert (v_held s3 = PosRef p :: v_held s) as Hh3 by (unfold s3; repeat case_match; done).
  rewrite (wp_run _ _ _ _ _ (fdput_pos_run s3 p _ Hh3)), wp_ret.
  assert (vfs_wf s3) as Hs3.
  { unfold s3. destruct pos as [z|]; [|done]. destruct (0 <=? r); [|done].
    eapply vfs_wf_put_file; try done. pose proof (file_wf_pos f z (f_version f) (of_wf _ _ _ Hf) Hpos).
    by destruct f. }
  split_and!; [by eapply vfs_wf_held|done|done| |].
  - unfold s3. split; cbn.
    + intros q Hq. destruct pos as [z|]; [destruct (0 <=? r)|]; cbn; rewrite ?Hfiles; try done.
      by rewrite lookup_insert_ne.
    + intros g Hg. assert (g = f) as -> by (destruct Hf; congruence).
      destruct pos as [z|]; [destruct (0 <=? r)|]; cbn; rewrite ?lookup_insert_eq; eauto;
        exists (f_pos f); rewrite Hf2; by destruct f.
    + unfold s1 in Hfdt. by repeat case_match.
    + by repeat case_match.
    + by repeat case_match.
  - intros g Hg Hneg. assert (g = f) as -> by (destruct Hf; congruence). unfold s3.
    destruct pos as [z|]; [|done]. destruct (Z.leb_spec 0 r); [|done].
    destruct Hneg as [?|Hstream]; [lia|]. exfalso. unfold file_ppos in Hsome. rewrite Hstream in Hsome.
    destruct Hsome as [Hsome _]. by destruct Hsome as [? [=]].
Qed.

(** C26: [read] and [write] go through without a fault and return an error, or at
    most [count] and at most MAX_RW_COUNT bytes; of all open files they change
    none but the position of the one behind the descriptor, and not even that when
    they fail or when it is a stream; every reference they took is given back. *)
Theorem rw_position s fd buf count :
  vfs_wf s -> 0 <= count ->
  wp (ksys_read fd buf count) (fun r s' => transferred s fd count r s') s /\
  wp (ksys_write fd buf count) (fun r s' => transferred s fd count r s') s.
Proof.
  intros Hs Hc. split.
  - apply (ksys_rw_spec (fun p => vfs_read p buf count)); [|done]. intros. by apply good_vfs_read.
  - apply (ksys_rw_spec (fun p => vfs_write p buf count)); [|done]. intros. by apply good_vfs_write.
Qed.

(** [pread64] and [pwrite64] leave the position of every open file alone. *)
Theorem positioned_io_moves_nothing s fd buf count pos :
  vfs_wf s -> 0 <= count -> pos < 2 ^ 63 ->
  wp (pread64 fd buf count pos) (fun r s' => v_files s' = v_files s /\ v_held s' = v_held s /\ rw_ret (clamp count) r) s /\
  wp (pwrite64 fd buf count pos) (fun r s' => v_files s' = v_files s /\ v_held s' = v_held s /\ rw_ret (clamp count) r) s.
Proof.
  intros Hs Hc Hpos. split.
  - eapply wp_mono; [|by apply (good_pread64 (R := still) [] fd buf count pos)].
    intros r s' (_ & ? & [? ? ? ? _ _ _ _] & ?). done.
  - eapply wp_mono; [|by apply (good_pwrite64 (R := still) [] fd buf count pos)].
    intros r s' (_ & ? & [? ? ? ? _ _ _ _] & ?). done.
Qed.

(** ** The verified area *)

(** The bytes [pos, pos + count) can be addressed: below 2^63, or below 2^64 for a
    file whose offsets count as unsigned. *)
Definition addressable (f : file) (pos count : Z) : bool :=
  (count <? 2 ^ 63) &&
  if unsigned_offsets f then u64 pos + count <? 2 ^ 64 else (0 <=? pos) && (pos + count <? 2 ^ 63).

Lemma verify_pos_addressable f pos count :
  is_s64 pos -> 0 <= count < 2 ^ 63 ->
  verify_pos f (Some pos) count =
    if addressable f pos count then 0 else if unsigned_offsets f then - EOVERFLOW else - EINVAL.
Proof.
  unfold is_s64, verify_pos, addressable. intros Hpos Hc.
  rewrite (proj2 (Z.ltb_lt count (2 ^ 63))) by lia. cbn [andb].
  destruct (Z.ltb_spec pos 0).
  - assert (u64 pos = pos + 2 ^ 64) as ->
      by (unfold u64; rewrite <- (Z.mod_add pos 1), Z.mod_small by lia; lia).
    rewrite (u64_id (- pos)) by (unfold is_u64; lia). destruct (unsigned_offsets f); cbn [negb].
    + destruct (Z.leb_spec (- pos) count), (Z.ltb_spec (pos + 2 ^ 64 + count) (2 ^ 64)); lia.
    + destruct (Z.leb_spec 0 pos); [lia|done].
  - rewrite (u64_id pos) by (unfold is_u64; lia). destruct (Z.leb_spec 0 pos); [|lia]. cbn [andb].
    destruct (s64_cases (pos + count)) as [[-> ?]|[-> ?]]; [lia| |].
    + destruct (Z.ltb_spec (pos + count) 0); [lia|].
      rewrite (proj2 (Z.ltb_lt (pos + count) (2 ^ 63))) by lia.
      rewrite (proj2 (Z.ltb_lt (pos + count) (2 ^ 64))) by lia. by destruct (unsigned_offsets f).
    + destruct (Z.ltb_spec (pos + count - 2 ^ 64) 0); [|lia].
      rewrite (proj2 (Z.ltb_ge (pos + count) (2 ^ 63))) by lia.
      rewrite (proj2 (Z.ltb_lt (pos + count) (2 ^ 64))) by lia. by destruct (unsigned_offsets f).
Qed.

(** [rw_verify_area] refuses exactly the areas that cannot be addressed: the
    sum of position and count never wraps around unnoticed, for signed and for
    unsigned offsets.  An area that can be addressed is left to the security module
    and the notification, whose first objection is the answer. *)
Theorem rw_verify_area_exact s rw p f pos count :
  v_files s !! p = Some f -> is_s64 pos -> is_u64 count ->
  let mask := if rw =? READ then MAY_READ else MAY_WRITE in
  rw_verify_area rw p (Some pos) count s = Done
    (if addressable f pos count then
       let ret := security_file_permission s p mask in
       if truthy ret then ret else fsnotify_file_area_perm s p mask (Some pos) count
     else if unsigned_offsets f && (count <? 2 ^ 63) then - EOVERFLOW else - EINVAL) s.
Proof.
  intros Hf Hpos Hc mask. unfold is_u64 in Hc. unfold rw_verify_area. fold mask.
  destruct (s64_cases count) as [[-> Hlt]|[-> Hge]]; [lia| |].
  - destruct (Z.ltb_spec count 0); [lia|].
    rewrite (bind_done _ _ s f s) by (unfold file_at; kernel_unfold; by rewrite Hf).
    rewrite (verify_pos_addressable f pos count) by (done || lia).
    rewrite (proj2 (Z.ltb_lt count (2 ^ 63))), andb_true_r by done.
    destruct (addressable f pos count); [|by destruct (unsigned_offsets f)].
    cbn [truthy negb Z.eqb]. kernel_unfold. by destruct (truthy _).
  - destruct (Z.ltb_spec (count - 2 ^ 64) 0); [|lia]. unfold addressable.
    rewrite (proj2 (Z.ltb_ge count (2 ^ 63))) by done. cbn [andb]. by rewrite andb_false_r.
Qed.

(** ** The call counters *)
Definition count_call (id : Z) (now : timespec64) (cs : option (list syscall_usage)) : option (list syscall_usage) :=
  (fun cs => alter (fun u => mkUsage (u64 (count u + 1)) now) (Z.to_nat id) cs) <$> cs.

Lemma v_track_run s id now :
  vfs_wf s -> 0 <= id < 4 ->
  v_track id now s = Done tt (s <| v_tr ::= fun t => t <| syscall_counters ::= count_call id now |> |>).
Proof.
  intros Hs Hid. unfold v_track, zoom, track_syscall, count_call. kernel_unfold.
  destruct s as [[k [cs|]] ? ? ? ? ? ? ? ? ?]; cbn in *; [|done].
  pose proof (vw_counters _ Hs cs eq_refl) as Hlen. unfold MAX_SYS_CALLS, counter_at.
  destruct (Z.leb_spec 4 id); [lia|]. destruct (Z.ltb_spec id 0); [lia|].
  destruct (lookup_lt_is_Some_2 cs (Z.to_nat id)) as [u Hu]; [lia|]. rewrite Hu. cbn.
  do 4 f_equal. rewrite list_insert_insert_eq, list_insert_alter.
  apply list_alter_ext; [|done]. intros x Hx. by rewrite Hu in Hx; injection Hx as ->.
Qed.

Lemma vfs_wf_counted s id now :
  vfs_wf s -> vfs_wf (s <| v_tr ::= fun t => t <| syscall_counters ::= count_call id now |> |>).
Proof.
  intros Hs. apply (vfs_wf_tr s); [done|by apply vw_kernel|apply Hs|]. unfold count_call. cbn.
  intros cs Hcs. apply fmap_Some in Hcs as (cs' & Hcs' & ->). rewrite length_alter. by eapply vw_counters.
Qed.

Lemma transferred_counters s fd count r s' :
  transferred s fd count r s' -> syscall_counters (v_tr s') = syscall_counters (v_tr s).
Proof.
  intros (_ & _ & _ & Hp). destruct (fd_file s fd); [by destruct Hp as [[] _]|by destruct Hp as [_ ->]].
Qed.

(** Every [read] and every [write] is counted once, under its own number and
    with the time of the call, whatever becomes of it; [pread64] and [pwrite64]
    transfer the same data and are not counted. *)
Theorem rw_counted s now fd buf count pos :
  vfs_wf s -> 0 <= count -> pos < 2 ^ 63 ->
  let counters s := syscall_counters (v_tr s) in
  wp (read now fd buf count) (fun _ s' => counters s' = count_call __NR_read now (counters s)) s /\
  wp (write now fd buf count) (fun _ s' => counters s' = count_call __NR_write now (counters s)) s /\
  wp (pread64 fd buf count pos) (fun _ s' => counters s' = counters s) s /\
  wp (pwrite64 fd buf count pos) (fun _ s' => counters s' = counters s) s.
Proof.
  intros Hs Hc Hpos counters. split_and!.
  - unfold read. rewrite wp_bind, (wp_run _ _ _ _ _ (v_track_run s __NR_read now Hs ltac:(by unfold __NR_read))).
    eapply wp_mono; [|apply (ksys_rw_spec (fun p => vfs_read p buf count)); [intros; by apply good_vfs_read|by apply vfs_wf_counted]].
    intros r s' Ht. apply transferred_counters in Ht. done.
  - unfold write. rewrite wp_bind, (wp_run _ _ _ _ _ (v_track_run s __NR_write now Hs ltac:(by unfold __NR_write))).
    eapply wp_mono; [|apply (ksys_rw_spec (fun p => vfs_write p buf count)); [intros; by apply good_vfs_write|by apply vfs_wf_counted]].
    intros r s' Ht. apply transferred_counters in Ht. done.
  - eapply wp_mono; [|by apply (good_pread64 (R := still) [] fd buf count pos)].
    intros r s' (_ & _ & [? ? ? ? _ _ _ _] & _). done.
  - eapply wp_mono; [|by apply (good_pwrite64 (R := still) [] fd buf count pos)].
    intros r s' (_ & _ & [? ? ? ? _ _ _ _] & _). done.
Qed.
End RwCalls.
