(* ===== verification/VecIo.v ===== *)
(** Vectored I/O: [do_iter_readv_writev] to the [preadv2] and [pwritev2] calls of
    [fs/read_write.c].

    [iov_iter] is an interface (class [Uio]); a file without the iterator methods
    is served segment by segment by [do_loop_readv_writev], whose loop takes the
    number of segments as fuel. *)

From S2P Require Import Prelude Uaccess Kernel Track Vfs Seek ReadWrite.

Definition RWF_HIPRI : Z := 1.

Section VecIo.
Context `{UserArch} `{VfsEnv}.

Definition do_iter_readv_writev (p : Z) (filp : file) (iter : iov_iter) (ppos : option Z) (type flags : Z)
  : Kern vfs (Z * option Z * iov_iter) :=
  '(ret, kiocb) ← gets (fun s => kiocb_set_rw_flags s (init_sync_kiocb p filp) flags);
  if truthy ret then mret (ret, ppos, iter)
  else
  let kiocb := kiocb <| ki_pos := default 0 ppos |> in
  '(ret, kiocb, iter) ← (if type =? READ then call_read_iter filp kiocb iter
                         else call_write_iter filp kiocb iter);
  if ret =? - EIOCBQUEUED then crashed KernelBug
  else mret (ret, (fun _ => ki_pos kiocb) <$> ppos, iter).

(** The loop over the segments; [xfer] reads or writes one of them. *)
Fixpoint rw_loop (fuel : nat) (xfer : Z -> Z -> option Z -> Kern vfs (Z * option Z))
    (iter : iov_iter) (ppos : option Z) (ret : Z) : Kern vfs (Z * option Z * iov_iter) :=
  if iov_iter_count iter =? 0 then mret (ret, ppos, iter)
  else
  match fuel with
  | O => crashed OutOfFuel
  | S fuel =>
      '(nr, ppos) ← xfer (iter_iov_addr iter) (iter_iov_len iter) ppos;
      if nr <? 0 then mret (if ret =? 0 then nr else ret, ppos, iter)
      else
      let ret := s64 (ret + nr) in
      if negb (nr =? iter_iov_len iter) then mret (ret, ppos, iter)
      else rw_loop fuel xfer (iov_iter_advance iter nr) ppos ret
  end.

Definition do_loop_readv_writev (p : Z) (filp : file) (iter : iov_iter) (ppos : option Z) (type flags : Z)
  : Kern vfs (Z * option Z * iov_iter) :=
  if has flags (Z.lnot RWF_HIPRI) then mret (- EOPNOTSUPP, ppos, iter)
  else
  let xfer addr len ppos :=
    op ← deref NullDeref (if type =? READ then fop_read (f_op filp) else fop_write (f_op filp));
    op p addr len ppos in
  rw_loop (length (iter_segs iter)) xfer iter ppos 0.

Definition vfs_iocb_iter_read (p : Z) (iocb : kiocb) (iter : iov_iter) : Kern vfs (Z * kiocb * iov_iter) :=
  f ← file_at p;
  if negb (bool_decide (is_Some (fop_read_iter (f_op f)))) then mret (- EINVAL, iocb, iter)
  else if negb (has (f_mode f) FMODE_READ) then mret (- EBADF, iocb, iter)
  else if negb (has (f_mode f) FMODE_CAN_READ) then mret (- EINVAL, iocb, iter)
  else
  let tot_len := iov_iter_count iter in
  if tot_len =? 0 then fsnotify_access p;; mret (0, iocb, iter)
  else
  ret ← rw_verify_area READ p (Some (ki_pos iocb)) tot_len;
  if ret <? 0 then mret (ret, iocb, iter)
  else
  '(ret, iocb, iter) ← call_read_iter f iocb iter;
  (if 0 <=? ret then fsnotify_access p else mret tt);;
  mret (ret, iocb, iter).

Definition vfs_iter_read (p : Z) (iter : iov_iter) (ppos : option Z) (flags : Z)
  : Kern vfs (Z * option Z * iov_iter) :=
  f ← file_at p;
  if negb (bool_decide (is_Some (fop_read_iter (f_op f)))) then mret (- EINVAL, ppos, iter)
  else if negb (has (f_mode f) FMODE_READ) then mret (- EBADF, ppos, iter)
  else if negb (has (f_mode f) FMODE_CAN_READ) then mret (- EINVAL, ppos, iter)
  else
  let tot_len := iov_iter_count iter in
  if tot_len =? 0 then fsnotify_access p;; mret (0, ppos, iter)
  else
  ret ← rw_verify_area READ p ppos tot_len;
  if ret <? 0 then mret (ret, ppos, iter)
  else
  '(ret, ppos, iter) ← do_iter_readv_writev p f iter ppos READ flags;
  (if 0 <=? ret then fsnotify_access p else mret tt);;
  mret (ret, ppos, iter).

(** A queued request keeps its write section. *)
Definition vfs_iocb_iter_write (p : Z) (iocb : kiocb) (iter : iov_iter) : Kern vfs (Z * kiocb * iov_iter) :=
  f ← file_at p;
  if negb (bool_decide (is_Some (fop_write_iter (f_op f)))) then mret (- EINVAL, iocb, iter)
  else if negb (has (f_mode f) FMODE_WRITE) then mret (- EBADF, iocb, iter)
  else if negb (has (f_mode f) FMODE_CAN_WRITE) then mret (- EINVAL, iocb, iter)
  else
  let tot_len := iov_iter_count iter in
  if tot_len =? 0 then mret (0, iocb, iter)
  else
  ret ← rw_verify_area WRITE p (Some (ki_pos iocb)) tot_len;
  if ret <? 0 then mret (ret, iocb, iter)
  else
  acquire (FileWrite (ki_filp iocb));;
  '(ret, iocb, iter) ← call_write_iter f iocb iter;
  (if negb (ret =? - EIOCBQUEUED) then release (FileWrite (ki_filp iocb)) else mret tt);;
  (if 0 <? ret then fsnotify_modify p else mret tt);;
  mret (ret, iocb, iter).

Definition vfs_iter_write (p : Z) (iter : iov_iter) (ppos : option Z) (flags : Z)
  : Kern vfs (Z * option Z * iov_iter) :=
  f ← file_at p;
  if negb (has (f_mode f) FMODE_WRITE) then mret (- EBADF, ppos, iter)
  else if negb (has (f_mode f) FMODE_CAN_WRITE) then mret (- EINVAL, ppos, iter)
  else if negb (bool_decide (is_Some (fop_write_iter (f_op f)))) then mret (- EINVAL, ppos, iter)
  else
  let tot_len := iov_iter_count iter in
  if tot_len =? 0 then mret (0, ppos, iter)
  else
  ret ← rw_verify_area WRITE p ppos tot_len;
  if ret <? 0 then mret (ret, ppos, iter)
  else
  file_start_write p;;
  '(ret, ppos, iter) ← do_iter_readv_writev p f iter ppos WRITE flags;
  (if 0 <? ret then fsnotify_modify p else mret tt);;
  file_end_write p;;
  mret (ret, ppos, iter).

(** The transfer of [vfs_readv] and [vfs_writev]: by iterator or by hand. *)
Definition vec_transfer (p : Z) (f : file) (iter : iov_iter) (pos : option Z) (type flags : Z) : Kern vfs (Z * option Z) :=
  '(ret, pos, _) ← (if bool_decide (is_Some (if type =? READ then fop_read_iter (f_op f) else fop_write_iter (f_op f)))
                    then do_iter_readv_writev p f iter pos type flags
                    else do_loop_readv_writev p f iter pos type flags);
  mret (ret, pos).

Definition vfs_readv (p vec vlen : Z) (pos : option Z) (flags : Z) : Kern vfs (Z * option Z) :=
  f ← file_at p;
  if negb (has (f_mode f) FMODE_READ) then mret (- EBADF, pos)
  else if negb (has (f_mode f) FMODE_CAN_READ) then mret (- EINVAL, pos)
  else
  '(ret, iter) ← gets (fun s => import_iovec (v_k s) true vec vlen);
  if ret <? 0 then mret (ret, pos)
  else
  acquire IovVec;;
  let tot_len := iov_iter_count iter in
  '(ret, pos) ← (if tot_len =? 0 then mret (ret, pos)
                 else
                 ret ← rw_verify_area READ p pos tot_len;
                 if ret <? 0 then mret (ret, pos)
                 else vec_transfer p f iter pos READ flags);
  (if 0 <=? ret then fsnotify_access p else mret tt);;
  release IovVec;;
  mret (ret, pos).

Definition vfs_writev (p vec vlen : Z) (pos : option Z) (flags : Z) : Kern vfs (Z * option Z) :=
  f ← file_at p;
  if negb (has (f_mode f) FMODE_WRITE) then mret (- EBADF, pos)
  else if negb (has (f_mode f) FMODE_CAN_WRITE) then mret (- EINVAL, pos)
  else
  '(ret, iter) ← gets (fun s => import_iovec (v_k s) false vec vlen);
  if ret <? 0 then mret (ret, pos)
  else
  acquire IovVec;;
  let tot_len := iov_iter_count iter in
  '(ret, pos) ← (if tot_len =? 0 then mret (ret, pos)
                 else
                 ret ← rw_verify_area WRITE p pos tot_len;
                 if ret <? 0 then mret (ret, pos)
                 else
                 file_start_write p;;
                 '(ret, pos) ← vec_transfer p f iter pos WRITE flags;
                 (if 0 <? ret then fsnotify_modify p else mret tt);;
                 file_end_write p;;
                 mret (ret, pos));
  release IovVec;;
  mret (ret, pos).

Definition do_readv (fd vec vlen flags : Z) : Kern vfs Z :=
  o ← fdget_pos fd;
  ret ← match o with
        | None => mret (- EBADF)
        | Some p =>
            f ← file_at p;
            '(ret, pos) ← vfs_readv p vec vlen (file_ppos f) flags;
            store_ppos p ret pos;;
            fdput_pos p;;
            mret ret
        end;
  (if 0 <? ret then add_rchar ret else mret tt);;
  inc_syscr;;
  mret ret.

Definition do_writev (fd vec vlen flags : Z) : Kern vfs Z :=
  o ← fdget_pos fd;
  ret ← match o with
        | None => mret (- EBADF)
        | Some p =>
            f ← file_at p;
            '(ret, pos) ← vfs_writev p vec vlen (file_ppos f) flags;
            store_ppos p ret pos;;
            fdput_pos p;;
            mret ret
        end;
  (if 0 <? ret then add_wchar ret else mret tt);;
  inc_syscw;;
  mret ret.

Definition pos_from_hilo (high low : Z) : Z :=
  s64 (Z.lor (u64 (Z.shiftl (u64 (Z.shiftl high 32)) 32)) low).

Definition do_preadv (fd vec vlen pos flags : Z) : Kern vfs Z :=
  if pos <? 0 then mret (- EINVAL)
  else
  o ← fdget fd;
  ret ← match o with
        | None => mret (- EBADF)
        | Some p =>
            f ← file_at p;
            ret ← (if has (f_mode f) FMODE_PREAD then '(ret, _) ← vfs_readv p vec vlen (Some pos) flags; mret ret
                   else mret (- ESPIPE));
            fdput p;;
            mret ret
        end;
  (if 0 <? ret then add_rchar ret else mret tt);;
  inc_syscr;;
  mret ret.

Definition do_pwritev (fd vec vlen pos flags : Z) : Kern vfs Z :=
  if pos <? 0 then mret (- EINVAL)
  else
  o ← fdget fd;
  ret ← match o with
        | None => mret (- EBADF)
        | Some p =>
            f ← file_at p;
            ret ← (if has (f_mode f) FMODE_PWRITE then '(ret, _) ← vfs_writev p vec vlen (Some pos) flags; mret ret
                   else mret (- ESPIPE));
            fdput p;;
            mret ret
        end;
  (if 0 <? ret then add_wchar ret else mret tt);;
  inc_syscw;;
  mret ret.

Definition readv (fd vec vlen : Z) : Kern vfs Z := do_readv fd vec vlen 0.
Definition writev (fd vec vlen : Z) : Kern vfs Z := do_writev fd vec vlen 0.
Definition preadv (fd vec vlen pos_l pos_h : Z) : Kern vfs Z :=
  do_preadv fd vec vlen (pos_from_hilo pos_h pos_l) 0.
Definition preadv2 (fd vec vlen pos_l pos_h flags : Z) : Kern vfs Z :=
  let pos := pos_from_hilo pos_h pos_l in
  if pos =? -1 then do_readv fd vec vlen flags
  else do_preadv fd vec vlen pos flags.
Definition pwritev (fd vec vlen pos_l pos_h : Z) : Kern vfs Z :=
  do_pwritev fd vec vlen (pos_from_hilo pos_h pos_l) 0.
Definition pwritev2 (fd vec vlen pos_l pos_h flags : Z) : Kern vfs Z :=
  let pos := pos_from_hilo pos_h pos_l in
  if pos =? -1 then do_writev fd vec vlen flags
  else do_pwritev fd vec vlen pos flags.

(** The compat calls pass the position in 32-bit halves. *)
Definition compat_preadv64 (fd vec vlen pos : Z) : Kern vfs Z := do_preadv fd vec vlen pos 0.
Definition compat_preadv (fd vec vlen pos_low pos_high : Z) : Kern vfs Z :=
  do_preadv fd vec vlen (glue_offset pos_high pos_low) 0.
Definition compat_preadv64v2 (fd vec vlen pos flags : Z) : Kern vfs Z :=
  if pos =? -1 then do_readv fd vec vlen flags else do_preadv fd vec vlen pos flags.
Definition compat_preadv2 (fd vec vlen pos_low pos_high flags : Z) : Kern vfs Z :=
  let pos := glue_offset pos_high pos_low in
  if pos =? -1 then do_readv fd vec vlen flags else do_preadv fd vec vlen pos flags.
Definition compat_pwritev64 (fd vec vlen pos : Z) : Kern vfs Z := do_pwritev fd vec vlen pos 0.
Definition compat_pwritev (fd vec vlen pos_low pos_high : Z) : Kern vfs Z :=
  do_pwritev fd vec vlen (glue_offset pos_high pos_low) 0.
Definition compat_pwritev64v2 (fd vec vlen pos flags : Z) : Kern vfs Z :=
  if pos =? -1 then do_writev fd vec vlen flags else do_pwritev fd vec vlen pos flags.
Definition compat_pwritev2 (fd vec vlen pos_low pos_high flags : Z) : Kern vfs Z :=
  let pos := glue_offset pos_high pos_low in
  if pos =? -1 then do_writev fd vec vlen flags else do_pwritev fd vec vlen pos flags.
End VecIo.

(** ** Safety *)
Section VecSafe.
Context `{UserArch} `{UioOk} `{!VfsEnv} `{!VfsEnvOk} {R : vfs -> vfs -> Prop} `{!Frame R}.
Implicit Types (d : list resource) (p : Z).

Definition vec_post (n : Z) (pos : option Z) (x : Z * option Z * iov_iter) : Prop := rw_post n pos x.1.

Lemma good_do_iter d p filp iter ppos type flags :
  is_Some (if type =? READ then fop_read_iter (f_op filp) else fop_write_iter (f_op filp)) ->
  holds p d -> pos_ok ppos ->
  good R d (do_iter_readv_writev p filp iter ppos type flags) (fun _ => d) (vec_post (iov_iter_count iter) ppos).
Proof.
  intros [op Hop] Hp Hpos. unfold do_iter_readv_writev.
  eapply good_bind with (D := fun _ => d) (Q := fun x => status x.1 /\ ki_filp x.2 = p /\ ki_sync x.2 = true).
  { apply good_gets. intros s _. pose proof (kiocb_flags_ret s (init_sync_kiocb p filp) flags) as Hk.
    destruct (kiocb_set_rw_flags _ _ _). naive_solver. }
  intros [r iocb] (Hr & Hfilp & Hsync). destruct (truthy r) eqn:Ht.
  { apply good_ret. apply rw_post_errno; [by apply truthy_status|done]. }
  pose (kio := iocb <| ki_pos := default 0 ppos |>).
  eapply good_bind with (D := fun _ => d) (Q := iter_post kio (iov_iter_count iter)).
  { unfold call_read_iter, call_write_iter. destruct (type =? READ).
    - eapply good_deref; [done|].
      eapply good_op_read_iter; [done|cbn in *; by rewrite Hfilp|by apply kiocb_pos_ok].
    - eapply good_deref; [done|].
      eapply good_op_write_iter; [done|cbn in *; by rewrite Hfilp|by apply kiocb_pos_ok]. }
  intros [[ret kio'] iter'] (Hret & Hs & _ & Hq). cbn in *.
  destruct (Z.eqb_spec ret (- EIOCBQUEUED)) as [->|_]; [by destruct Hq|].
  apply good_ret. split; [done|]. by destruct ppos; split.
Qed.

Lemma seg_total_app l1 l2 : seg_total (l1 ++ l2) = seg_total l1 + seg_total l2.
Proof. induction l1 as [|x l1 IH]; cbn; [done|]. unfold seg_total in *. rewrite IH. lia. Qed.
Lemma seg_total_empty l : Forall (fun x => x.2 = 0) l -> seg_total l = 0.
Proof. induction 1 as [|x l Hx _ IH]; cbn; [done|]. unfold seg_total in *. lia. Qed.
Lemma seg_total_nonneg l : Forall (fun x => 0 <= x.2) l -> 0 <= seg_total l.
Proof. induction 1 as [|x l Hx _ IH]; cbn; [done|]. unfold seg_total in *. lia. Qed.

Lemma iter_count_nonneg i : 0 <= iov_iter_count i.
Proof. rewrite iter_count_segs. apply seg_total_nonneg, iter_seg_len. Qed.

(** Passing over the first segment leaves fewer segments and the rest of the bytes. *)
Lemma iter_advance_first i :
  iov_iter_count i <> 0 ->
  let i' := iov_iter_advance i (iter_iov_len i) in
  0 <= iter_iov_len i /\ iov_iter_count i = iter_iov_len i + iov_iter_count i' /\
  (length (iter_segs i') < length (iter_segs i))%nat.
Proof.
  intros Hi i'. destruct (iter_first_seg i Hi) as (empty & He & Hsegs).
  pose proof (iter_seg_len i) as Hlen. rewrite (iter_count_segs i), (iter_count_segs i').
  fold i' in Hsegs. clearbody i'. rewrite Hsegs in *. apply Forall_cons in Hlen as [Hlen _].
  cbn in Hlen. split; [done|]. change (seg_total (_ :: empty ++ iter_segs i')) with (iter_iov_len i + seg_total (empty ++ iter_segs i')).
  rewrite seg_total_app, (seg_total_empty empty) by done. cbn [length]. rewrite length_app. lia.
Qed.

Lemma pos_after_trans a b c : pos_after a b -> pos_after b c -> pos_after a c.
Proof. intros [? ?] [? ?]. split; [done|]. naive_solver. Qed.

Lemma good_rw_loop d xfer n fuel : forall iter ppos ret,
  (forall a len pos, 0 <= len -> pos_ok pos -> good R d (xfer a len pos) (fun _ => d) (rw_post len pos)) ->
  (length (iter_segs iter) <= fuel)%nat -> 0 <= ret -> ret + iov_iter_count iter <= n -> n < 2 ^ 63 ->
  pos_ok ppos ->
  good R d (rw_loop fuel xfer iter ppos ret) (fun _ => d) (vec_post n ppos).
Proof.
  induction fuel as [|fuel IH]; intros iter ppos ret Hx Hfuel Hret Hn Hmax Hpos;
    pose proof (iter_count_nonneg iter) as Hc; cbn [rw_loop];
    destruct (Z.eqb_spec (iov_iter_count iter) 0) as [|Hne];
    try (apply good_ret; split; [right; cbn; lia|by apply pos_after_refl]);
    destruct (iter_advance_first iter Hne) as (Hlen & Hsum & Hless); [lia|].
  pose proof (iter_count_nonneg (iov_iter_advance iter (iter_iov_len iter))) as Hc'.
  eapply good_bind; [by apply Hx|]. intros [nr pos'] [Hnr Hpos'].
  cbn in Hnr, Hpos'. destruct (Z.ltb_spec nr 0).
  { apply good_ret. split; [|done]. cbn. destruct (Z.eqb_spec ret 0); [|right; lia].
    left. destruct Hnr as [Hnr|?]; [done|lia]. }
  destruct Hnr as [[_ ?]|Hnr]; [lia|].
  rewrite s64_id by (unfold is_s64; lia).
  destruct (Z.eqb_spec nr (iter_iov_len iter)) as [->|]; cbn [negb].
  - eapply good_mono; [apply IH; try done; [lia|lia|lia|apply Hpos']|].
    intros [[r pos''] i] [Hr Hp]. split; [done|]. by eapply pos_after_trans.
  - apply good_ret. split; [right; cbn; lia|done].
Qed.

Lemma good_do_loop d p filp iter ppos type flags :
  is_Some (if type =? READ then fop_read (f_op filp) else fop_write (f_op filp)) ->
  holds p d -> pos_ok ppos -> iov_iter_count iter < 2 ^ 63 ->
  good R d (do_loop_readv_writev p filp iter ppos type flags) (fun _ => d) (vec_post (iov_iter_count iter) ppos).
Proof.
  intros [op Hop] Hp Hpos Hn. unfold do_loop_readv_writev.
  destruct (has flags _); [by apply good_ret, rw_post_errno|].
  apply good_rw_loop; try done. intros a len pos Hlen Hpos'.
  eapply good_deref; [done|]. destruct (type =? READ); [by eapply good_op_read|by eapply good_op_write].
Qed.

Lemma good_vec_transfer d p f iter pos type flags :
  is_Some (if type =? READ then fop_read (f_op f) else fop_write (f_op f)) \/
  is_Some (if type =? READ then fop_read_iter (f_op f) else fop_write_iter (f_op f)) ->
  holds p d -> pos_ok pos -> iov_iter_count iter < 2 ^ 63 ->
  good R d (vec_transfer p f iter pos type flags) (fun _ => d) (rw_post (iov_iter_count iter) pos).
Proof.
  intros Hops Hp Hpos Hn. unfold vec_transfer.
  eapply good_bind with (D := fun _ => d) (Q := vec_post (iov_iter_count iter) pos).
  - case_bool_decide as Hi; [by apply good_do_iter|]. apply good_do_loop; naive_solver.
  - intros [[r pos'] i] Hx. by apply good_ret.
Qed.

Lemma good_import d dest vec vlen :
  good R d (gets (fun s => import_iovec (v_k s) dest vec vlen)) (fun _ => d)
    (fun x => is_errno x.1 \/ x.1 = iov_iter_count x.2 /\ x.1 <= MAX_RW_COUNT).
Proof.
  apply good_gets. intros s _. pose proof (import_iovec_ret (v_k s) dest vec vlen) as Hi.
  by destruct (import_iovec _ _ _ _).
Qed.

Lemma rw_post_mono n m pos x : n <= m -> rw_post n pos x -> rw_post m pos x.
Proof. intros ? [[?|?] ?]; split; try done; [by left|right; lia]. Qed.

Lemma good_vfs_readv d p vec vlen pos flags :
  holds p d -> pos_ok pos ->
  good R d (vfs_readv p vec vlen pos flags) (fun _ => d) (rw_post MAX_RW_COUNT pos).
Proof.
  intros Hp Hpos. unfold vfs_readv. eapply good_bind; [by apply good_file_at|]. intros f Hf.
  destruct (has (f_mode f) FMODE_READ); cbn [negb]; [|by apply good_rw_error].
  destruct (has (f_mode f) FMODE_CAN_READ) eqn:Hcan; cbn [negb]; [|by apply good_rw_error].
  eapply good_bind; [apply good_import|]. intros [r iter] Hr. cbn in Hr.
  destruct (Z.ltb_spec r 0) as [Hlt|Hge].
  { apply good_rw_error; [|done]. pose proof (iter_count_nonneg iter). destruct Hr; [done|lia]. }
  destruct Hr as [[? ?]|[-> Hmax]]; [lia|]. unfold MAX_RW_COUNT in Hmax.
  eapply good_bind; [by apply good_acquire|]. intros ? _.
  eapply good_bind with (D := fun _ => IovVec :: d) (Q := rw_post MAX_RW_COUNT pos).
  - destruct (Z.eqb_spec (iov_iter_count iter) 0).
    { apply good_ret. split; [right; cbn; unfold MAX_RW_COUNT; lia|by apply pos_after_refl]. }
    eapply good_bind; [apply good_verify; by apply holds_cons|]. intros r [Hr _].
    destruct (Z.ltb_spec r 0); [apply good_rw_error; [unfold status, is_errno in *; lia|done]|].
    eapply good_mono; [apply good_vec_transfer; [|by apply holds_cons|done|lia]|].
    + cbn. by destruct (fw_read f Hf Hcan).
    + intros x. apply rw_post_mono. unfold MAX_RW_COUNT. lia.
  - intros [ret pos'] Hx. eapply good_bind; [eauto with good|]. intros ? _.
    eapply good_bind; [apply good_release|]. intros ? _. by apply good_ret.
Qed.

Lemma good_vfs_writev d p vec vlen pos flags :
  holds p d -> pos_ok pos ->
  good R d (vfs_writev p vec vlen pos flags) (fun _ => d) (rw_post MAX_RW_COUNT pos).
Proof.
  intros Hp Hpos. unfold vfs_writev. eapply good_bind; [by apply good_file_at|]. intros f Hf.
  destruct (has (f_mode f) FMODE_WRITE); cbn [negb]; [|by apply good_rw_error].
  destruct (has (f_mode f) FMODE_CAN_WRITE) eqn:Hcan; cbn [negb]; [|by apply good_rw_error].
  eapply good_bind; [apply good_import|]. intros [r iter] Hr. cbn in Hr.
  destruct (Z.ltb_spec r 0) as [Hlt|Hge].
  { apply good_rw_error; [|done]. pose proof (iter_count_nonneg iter). destruct Hr; [done|lia]. }
  destruct Hr as [[? ?]|[-> Hmax]]; [lia|]. unfold MAX_RW_COUNT in Hmax.
  eapply good_bind; [by apply good_acquire|]. intros ? _.
  eapply good_bind with (D := fun _ => IovVec :: d) (Q := rw_post MAX_RW_COUNT pos).
  - destruct (Z.eqb_spec (iov_iter_count iter) 0).
    { apply good_ret. split; [right; cbn; unfold MAX_RW_COUNT; lia|by apply pos_after_refl]. }
    eapply good_bind; [apply good_verify; by apply holds_cons|]. intros r [Hr _].
    destruct (Z.ltb_spec r 0); [apply good_rw_error; [unfold status, is_errno in *; lia|done]|].
    good_step. eapply good_bind; [apply good_vec_transfer; [|eauto with good|done|lia]|].
    + cbn. by destruct (fw_write f Hf Hcan).
    + intros [ret pos'] Hx. eapply good_bind; [eauto with good|]. intros ? _. good_step.
      apply good_ret. eapply rw_post_mono, Hx. unfold MAX_RW_COUNT. lia.
  - intros [ret pos'] Hx. eapply good_bind; [apply good_release|]. intros ? _. by apply good_ret.
Qed.

(** The accounting the vectored calls end with. *)
Lemma good_vec_account d (ret : Z) (ev1 ev2 : Kern vfs unit) (Q : Z -> Prop) :
  good R d ev1 (fun _ => d) (fun _ => True) -> good R d ev2 (fun _ => d) (fun _ => True) -> Q ret ->
  good R d ((if 0 <? ret then ev1 else mret tt);; ev2;; mret ret) (fun _ => d) Q.
Proof.
  intros H1' H2' HQ. eapply good_bind; [by apply good_when|]. intros ? _.
  eapply good_bind; [exact H2'|]. intros ? _. by apply good_ret.
Qed.

Lemma good_do_preadv d fd vec vlen pos flags :
  pos < 2 ^ 63 -> good R d (do_preadv fd vec vlen pos flags) (fun _ => d) (rw_ret MAX_RW_COUNT).
Proof.
  intros Hpos. unfold do_preadv. destruct (Z.ltb_spec pos 0); [by apply good_ret, rw_ret_errno|].
  good_step. eapply good_bind with (D := fun _ => d) (Q := rw_ret MAX_RW_COUNT);
    [|intros; apply good_vec_account; eauto with good].
  destruct a as [p|]; [|by apply good_ret, rw_ret_errno]. good_step.
  eapply good_bind with (D := fun _ => FileRef p :: d) (Q := rw_ret MAX_RW_COUNT); [|intros; good_auto].
  destruct (has _ _); [|by apply good_ret, rw_ret_errno].
  eapply good_bind; [apply good_vfs_readv; [eauto with good|cbn; unfold is_s64; lia]|].
  intros [r pos'] [Hr _]. by apply good_ret.
Qed.

Lemma good_do_pwritev d fd vec vlen pos flags :
  pos < 2 ^ 63 -> good R d (do_pwritev fd vec vlen pos flags) (fun _ => d) (rw_ret MAX_RW_COUNT).
Proof.
  intros Hpos. unfold do_pwritev. destruct (Z.ltb_spec pos 0); [by apply good_ret, rw_ret_errno|].
  good_step. eapply good_bind with (D := fun _ => d) (Q := rw_ret MAX_RW_COUNT);
    [|intros; apply good_vec_account; eauto with good].
  destruct a as [p|]; [|by apply good_ret, rw_ret_errno]. good_step.
  eapply good_bind with (D := fun _ => FileRef p :: d) (Q := rw_ret MAX_RW_COUNT); [|intros; good_auto].
  destruct (has _ _); [|by apply good_ret, rw_ret_errno].
  eapply good_bind; [apply good_vfs_writev; [eauto with good|cbn; unfold is_s64; lia]|].
  intros [r pos'] [Hr _]. by apply good_ret.
Qed.
End VecSafe.

Section VecTheorems.
Context `{UserArch} `{UioOk} `{!VfsEnv} `{!VfsEnvOk}.

Lemma good_do_readv d fd vec vlen flags :
  good same_table d (do_readv fd vec vlen flags) (fun _ => d) (rw_ret MAX_RW_COUNT).
Proof.
  unfold do_readv. good_step. eapply good_bind with (D := fun _ => d) (Q := rw_ret MAX_RW_COUNT);
    [|intros; apply good_vec_account; eauto with good].
  destruct a as [p|]; [|by apply good_ret, rw_ret_errno]. good_step.
  eapply good_bind; [apply good_vfs_readv; eauto using file_ppos_ok with good|].
  intros [r pos] [Hr [Hpos _]]. eapply good_bind; [apply good_store_ppos; eauto with good|].
  intros ? _. good_auto.
Qed.

Lemma good_do_writev d fd vec vlen flags :
  good same_table d (do_writev fd vec vlen flags) (fun _ => d) (rw_ret MAX_RW_COUNT).
Proof.
  unfold do_writev. good_step. eapply good_bind with (D := fun _ => d) (Q := rw_ret MAX_RW_COUNT);
    [|intros; apply good_vec_account; eauto with good].
  destruct a as [p|]; [|by apply good_ret, rw_ret_errno]. good_step.
  eapply good_bind; [apply good_vfs_writev; eauto using file_ppos_ok with good|].
  intros [r pos] [Hr [Hpos _]]. eapply good_bind; [apply good_store_ppos; eauto with good|].
  intros ? _. good_auto.
Qed.

(** ** Transfers on behalf of other kernel code *)
Definition iocb_post (n : Z) (x : Z * kiocb * iov_iter) : Prop := rw_ret n x.1.1.

Lemma good_vfs_iocb_iter_read {R} `{!Frame R} d p iocb iter :
  holds p d -> ki_filp iocb = p -> is_s64 (ki_pos iocb) ->
  good R d (vfs_iocb_iter_read p iocb iter) (fun _ => d) (iocb_post (iov_iter_count iter)).
Proof.
  intros Hp Hfilp Hpos. unfold vfs_iocb_iter_read. pose proof (iter_count_nonneg iter).
  eapply good_bind; [by apply good_file_at|]. intros f Hf.
  case_bool_decide as Hop; cbn [negb]; [|by apply good_ret, rw_ret_errno].
  destruct (has (f_mode f) FMODE_READ); cbn [negb]; [|by apply good_ret, rw_ret_errno].
  destruct (has (f_mode f) FMODE_CAN_READ); cbn [negb]; [|by apply good_ret, rw_ret_errno].
  destruct (Z.eqb_spec (iov_iter_count iter) 0).
  { good_step. apply good_ret. right. cbn. lia. }
  eapply good_bind; [by apply good_verify|]. intros r [Hr _].
  destruct (Z.ltb_spec r 0); [apply good_ret; left; unfold status, is_errno in *; cbn; lia|].
  destruct Hop as [op Hop].
  eapply good_bind; [eapply good_deref; [done|]; eapply good_op_read_iter; [done|by rewrite Hfilp|done]|].
  intros [[ret iocb'] iter'] [Hret _]. eapply good_bind; [eauto with good|]. intros ? _. by apply good_ret.
Qed.

Lemma good_vfs_iter_read {R} `{!Frame R} d p iter ppos flags :
  holds p d -> pos_ok ppos ->
  good R d (vfs_iter_read p iter ppos flags) (fun _ => d) (vec_post (iov_iter_count iter) ppos).
Proof.
  intros Hp Hpos. unfold vfs_iter_read. pose proof (iter_count_nonneg iter).
  eapply good_bind; [by apply good_file_at|]. intros f Hf.
  case_bool_decide as Hop; cbn [negb]; [|by apply good_ret, rw_post_errno].
  destruct (has (f_mode f) FMODE_READ); cbn [negb]; [|by apply good_ret, rw_post_errno].
  destruct (has (f_mode f) FMODE_CAN_READ); cbn [negb]; [|by apply good_ret, rw_post_errno].
  destruct (Z.eqb_spec (iov_iter_count iter) 0).
  { good_step. apply good_ret. split; [right; cbn; lia|by apply pos_after_refl]. }
  eapply good_bind; [by apply good_verify|]. intros r [Hr _].
  destruct (Z.ltb_spec r 0); [apply good_ret, rw_post_errno; [unfold status, is_errno in *; lia|done]|].
  eapply good_bind; [by apply good_do_iter|].
  intros [[ret pos'] iter'] Hx. eapply good_bind; [eauto with good|]. intros ? _. by apply good_ret.
Qed.

Lemma good_vfs_iter_write {R} `{!Frame R} d p iter ppos flags :
  holds p d -> pos_ok ppos ->
  good R d (vfs_iter_write p iter ppos flags) (fun _ => d) (vec_post (iov_iter_count iter) ppos).
Proof.
  intros Hp Hpos. unfold vfs_iter_write. pose proof (iter_count_nonneg iter).
  eapply good_bind; [by apply good_file_at|]. intros f Hf.
  destruct (has (f_mode f) FMODE_WRITE); cbn [negb]; [|by apply good_ret, rw_post_errno].
  destruct (has (f_mode f) FMODE_CAN_WRITE); cbn [negb]; [|by apply good_ret, rw_post_errno].
  case_bool_decide as Hop; cbn [negb]; [|by apply good_ret, rw_post_errno].
  destruct (Z.eqb_spec (iov_iter_count iter) 0).
  { apply good_ret. split; [right; cbn; lia|by apply pos_after_refl]. }
  eapply good_bind; [by apply good_verify|]. intros r [Hr _].
  destruct (Z.ltb_spec r 0); [apply good_ret, rw_post_errno; [unfold status, is_errno in *; lia|done]|].
  good_step. eapply good_bind; [by apply good_do_iter; [|apply holds_cons|]|].
  intros [[ret pos'] iter'] Hx. eapply good_bind; [eauto with good|]. intros ? _. good_auto.
Qed.

(** A request that is not asynchronous is never queued, so its write section ends. *)
Lemma good_vfs_iocb_iter_write {R} `{!Frame R} d p iocb iter :
  holds p d -> ki_filp iocb = p -> ki_sync iocb = true -> is_s64 (ki_pos iocb) ->
  good R d (vfs_iocb_iter_write p iocb iter) (fun _ => d) (iocb_post (iov_iter_count iter)).
Proof.
  intros Hp Hfilp Hsync Hpos. unfold vfs_iocb_iter_write. pose proof (iter_count_nonneg iter).
  eapply good_bind; [by apply good_file_at|]. intros f Hf.
  case_bool_decide as Hop; cbn [negb]; [|by apply good_ret, rw_ret_errno].
  destruct (has (f_mode f) FMODE_WRITE); cbn [negb]; [|by apply good_ret, rw_ret_errno].
  destruct (has (f_mode f) FMODE_CAN_WRITE); cbn [negb]; [|by apply good_ret, rw_ret_errno].
  destruct (Z.eqb_spec (iov_iter_count iter) 0); [apply good_ret; right; cbn; lia|].
  eapply good_bind; [by apply good_verify|]. intros r [Hr _].
  destruct (Z.ltb_spec r 0); [apply good_ret; left; unfold status, is_errno in *; cbn; lia|].
  destruct Hop as [op Hop]. eapply good_bind; [by apply good_acquire|]. intros ? _.
  eapply good_bind; [eapply good_deref; [done|]; eapply good_op_write_iter;
    [done|rewrite Hfilp; by apply holds_cons|done]|].
  intros [[ret iocb'] iter'] (Hret & _ & Hsame & Hq). cbn in *. rewrite Hsame.
  destruct (Z.eqb_spec ret (- EIOCBQUEUED)) as [->|_]; [by destruct Hq|]. cbn [negb].
  eapply good_bind; [apply good_release|]. intros ? _.
  eapply good_bind; [eauto with good|]. intros ? _. by apply good_ret.
Qed.

(** ** The loop by segments *)

(** One transfer per segment, until one fails or is short. *)
Fixpoint seg_loop (xfer : Z -> Z -> option Z -> Kern vfs (Z * option Z)) (segs : list (Z * Z))
    (ppos : option Z) (ret : Z) : Kern vfs (Z * option Z) :=
  match segs with
  | [] => mret (ret, ppos)
  | (addr, len) :: segs =>
      '(nr, ppos) ← xfer addr len ppos;
      if nr <? 0 then mret (if ret =? 0 then nr else ret, ppos)
      else if nr =? len then seg_loop xfer segs ppos (s64 (ret + nr))
      else mret (s64 (ret + nr), ppos)
  end.

Definition no_iter (x : Z * option Z * iov_iter) : Kern vfs (Z * option Z) := mret x.1.

Lemma rw_loop_segs xfer fuel : forall iter ppos ret s,
  Forall (fun x => 0 < x.2) (iter_segs iter) -> (length (iter_segs iter) <= fuel)%nat ->
  (rw_loop fuel xfer iter ppos ret ≫= no_iter) s = seg_loop xfer (iter_segs iter) ppos ret s.
Proof.
  induction fuel as [|fuel IH]; intros iter ppos ret s Hpos Hfuel; cbn [rw_loop].
  { destruct (iter_segs iter) as [|x l] eqn:Hsegs; [|cbn in Hfuel; lia].
    rewrite iter_count_segs, Hsegs. done. }
  destruct (Z.eqb_spec (iov_iter_count iter) 0) as [H0'|Hne].
  { destruct (iter_segs iter) as [|[a n] l] eqn:Hsegs; [done|]. exfalso.
    rewrite iter_count_segs, Hsegs in H0'. apply Forall_cons in Hpos as [Hn Hl].
    pose proof (seg_total_nonneg l ltac:(eapply Forall_impl; [done|]; cbn; lia)).
    cbn in *. unfold seg_total in *. lia. }
  destruct (iter_first_seg iter Hne) as (empty & He & Hsegs).
  assert (empty = []) as ->.
  { destruct empty as [|x empty]; [done|]. exfalso. rewrite Hsegs in Hpos.
    apply Forall_cons in Hpos as [_ Hpos]. apply Forall_cons in Hpos as [? _].
    apply Forall_cons in He as [? _]. lia. }
  cbn [app] in Hsegs. rewrite Hsegs in *. apply Forall_cons in Hpos as [Hn Hpos]. cbn [seg_loop length] in *.
  kernel_unfold. destruct (xfer _ _ ppos s) as [[nr pos'] s'|c]; [|done].
  destruct (nr <? 0); [done|]. destruct (Z.eqb_spec nr (iter_iov_len iter)) as [->|]; [|done].
  cbn [negb]. apply IH; [done|lia].
Qed.

(** Without iterator methods a vector is transferred segment by segment, in
    order, through the file's [read] or [write], until one call fails or is short;
    an error is reported only if nothing was transferred before it.  The loop
    terminates: it makes at most one call per segment.  (The vector has no empty
    segments.) *)
Theorem do_loop_by_segments s p filp iter ppos type flags op :
  has flags (Z.lnot RWF_HIPRI) = false ->
  (if type =? READ then fop_read (f_op filp) else fop_write (f_op filp)) = Some op ->
  Forall (fun x => 0 < x.2) (iter_segs iter) ->
  (do_loop_readv_writev p filp iter ppos type flags ≫= no_iter) s
  = seg_loop (op p) (iter_segs iter) ppos 0 s.
Proof.
  intros Hfl Hop Hpos. unfold do_loop_readv_writev. rewrite Hfl, Hop. cbn [deref].
  change (fun a n q => mret op ≫= (fun op => op p a n q)) with (op p).
  by rewrite rw_loop_segs.
Qed.

(** ** Positions in halves *)
Lemma pos_from_hilo_low high low : is_u64 low -> pos_from_hilo high low = s64 low.
Proof.
  intros Hl. unfold pos_from_hilo. f_equal. rewrite <- (Z.lor_0_l low) at 2. f_equal. unfold u64.
  rewrite Z.shiftl_mul_pow2 by lia. rewrite Z.mul_mod_idemp_l by lia.
  rewrite Z.shiftl_mul_pow2, <- Z.mul_assoc by lia. change (2 ^ 32 * 2 ^ 32) with (2 ^ 64). by rewrite Z.mod_mul.
Qed.

Lemma glue_offset_sum hi lo : 0 <= lo < 2 ^ 32 -> 0 <= hi < 2 ^ 32 -> glue_offset hi lo = s64 (hi * 2 ^ 32 + lo).
Proof.
  intros Hl Hh. unfold glue_offset. rewrite Z.shiftl_mul_pow2 by lia.
  rewrite u64_id by (unfold is_u64; lia). f_equal.
  assert (Z.land (hi * 2 ^ 32) lo = 0) as Hdisj.
  { apply Z.bits_inj'. intros n Hn. rewrite Z.land_spec, Z.bits_0. destruct (Z.lt_ge_cases n 32).
    - by rewrite Z.mul_pow2_bits_low.
    - rewrite <- (Z.mod_small lo (2 ^ 32)), Z.mod_pow2_bits_high by lia. by rewrite andb_false_r. }
  rewrite <- Z.lxor_lor by done. symmetry. by apply Z.add_nocarry_lxor.
Qed.

(** The 32-bit entries [preadv], [pwritev], [preadv2] and [pwritev2], which take
    the position in two halves, are the 64-bit ones at the combined position; the
    64-bit ones take it from their first word and ignore the second. *)
Theorem compat_positions_agree fd vec vlen lo hi hi' flags :
  0 <= lo < 2 ^ 32 -> 0 <= hi < 2 ^ 32 ->
  let pos := hi * 2 ^ 32 + lo in
  compat_preadv fd vec vlen lo hi = preadv fd vec vlen pos hi' /\
  compat_pwritev fd vec vlen lo hi = pwritev fd vec vlen pos hi' /\
  compat_preadv2 fd vec vlen lo hi flags = preadv2 fd vec vlen pos hi' flags /\
  compat_pwritev2 fd vec vlen lo hi flags = pwritev2 fd vec vlen pos hi' flags.
Proof.
  intros Hl Hh pos.
  unfold compat_preadv, compat_pwritev, compat_preadv2, compat_pwritev2, preadv, pwritev, preadv2, pwritev2.
  rewrite glue_offset_sum, pos_from_hilo_low by (done || unfold is_u64; lia). done.
Qed.
End VecTheorems.
