(* ===== verification/CopyRange.v ===== *)
(** Copies between files: [sendfile], [copy_file_range] and the checks before a
    write, of [fs/read_write.c].

    [fs/splice.c] and the methods of the file systems are the fields of the class
    [SpliceEnv].  Offsets are kept at 64 bits, signed or unsigned as in the code. *)

From S2P Require Import Prelude Uaccess Kernel Track Vfs Seek ReadWrite.

Definition SPLICE_F_NONBLOCK : Z := 2.
Definition COPY_FILE_SPLICE : Z := 2 ^ 31.
Definition REMAP_FILE_CAN_SHORTEN : Z := 2.
Definition SIGXFSZ : Z := 25.
Definition IOCB_NOWAIT : Z := 0x8.
Definition IOCB_APPEND : Z := 0x10.
Definition IOCB_DIRECT : Z := 0x20000.

Class SpliceEnv := {
  get_pipe_info : vfs -> Z -> option Z;
  (* in, its position, out, its position, length, flags; the result and both positions *)
  do_splice_direct : Z -> Z -> Z -> Z -> Z -> Z -> Kern vfs (Z * Z * Z);
  (* in, pipe, position, length, flags; the result and the position *)
  splice_file_to_pipe : Z -> Z -> Z -> Z -> Z -> Kern vfs (Z * Z);
  (* the address of f_op->copy_file_range, 0 for NULL, and what it does *)
  fop_copy_file_range : Z -> Z;
  call_copy_file_range : Z -> Z -> Z -> Z -> Z -> Z -> Z -> Kern vfs Z;
  fop_remap_file_range : Z -> option (Z -> Z -> Z -> Z -> Z -> Z -> Kern vfs Z);
}.

Section Copy.
Context `{UserArch} `{VfsEnv} `{!SpliceEnv}.

(** ** The checks before a write *)

(** The result, and the number of bytes that may be written. *)
Definition generic_write_check_limits (p pos count : Z) : Kern vfs (Z * Z) :=
  inode ← mapping_inode p;
  let max_size := s_maxbytes (i_sb inode) in
  limit ← on_kernel (current_rlimit RLIMIT_FSIZE);
  let limit := s64 limit in
  if negb (u64 limit =? RLIM_INFINITY) && (limit <=? pos) then
    note (SendSig SIGXFSZ);; mret (- EFBIG, count)
  else
  let count := if negb (u64 limit =? RLIM_INFINITY) then Z.min count (s64 (limit - pos)) else count in
  f ← file_at p;
  let max_size := if negb (has (f_flags f) O_LARGEFILE) then MAX_NON_LFS else max_size in
  if max_size <=? pos then mret (- EFBIG, count)
  else mret (0, Z.min count (s64 (max_size - pos))).

Definition generic_write_checks_count (iocb : kiocb) (count : Z) : Kern vfs (Z * kiocb * Z) :=
  let p := ki_filp iocb in
  inode ← mapping_inode p;
  if IS_SWAPFILE inode then mret (- ETXTBSY, iocb, count)
  else if count =? 0 then mret (0, iocb, count)
  else
  let iocb := if has (ki_flags iocb) IOCB_APPEND then iocb <| ki_pos := i_size inode |> else iocb in
  f ← file_at p;
  if has (ki_flags iocb) IOCB_NOWAIT
     && negb (has (ki_flags iocb) IOCB_DIRECT || has (f_mode f) FMODE_BUF_WASYNC)
  then mret (- EINVAL, iocb, count)
  else
  '(ret, count) ← generic_write_check_limits p (ki_pos iocb) count;
  mret (ret, iocb, count).

Definition generic_write_checks (iocb : kiocb) (from : iov_iter) : Kern vfs (Z * kiocb * iov_iter) :=
  '(ret, iocb, count) ← generic_write_checks_count iocb (s64 (iov_iter_count from));
  if truthy ret then mret (ret, iocb, from)
  else
  let from := iov_iter_truncate from (u64 count) in
  mret (iov_iter_count from, iocb, from).

Definition generic_file_rw_checks (p_in p_out : Z) : Kern vfs Z :=
  inode_in ← file_inode p_in;
  inode_out ← file_inode p_out;
  if S_ISDIR (i_mode inode_in) || S_ISDIR (i_mode inode_out) then mret (- EISDIR)
  else if negb (S_ISREG (i_mode inode_in)) || negb (S_ISREG (i_mode inode_out)) then mret (- EINVAL)
  else
  file_in ← file_at p_in;
  file_out ← file_at p_out;
  if negb (has (f_mode file_in) FMODE_READ) || negb (has (f_mode file_out) FMODE_WRITE)
     || has (f_flags file_out) O_APPEND
  then mret (- EBADF)
  else mret 0.

(** ** [sendfile] *)

(** From [if (retval > 0)] to the label [fput_out]. *)
Definition sendfile_done (p_in p_out : Z) (ppos : option Z) (max retval pos out_pos : Z) : Kern vfs (Z * option Z) :=
  (if 0 <? retval then
     add_rchar retval;; add_wchar retval;;
     fsnotify_access p_in;; fsnotify_modify p_out;;
     set_f_pos p_out out_pos;;
     (if ppos is Some _ then mret tt else set_f_pos p_in pos)
   else mret tt);;
  inc_syscr;; inc_syscw;;
  mret (if max <? pos then - EOVERFLOW else retval,
        if 0 <? retval then (fun _ => pos) <$> ppos else ppos).

Definition sendfile_splice (p_in p_out : Z) (ppos : option Z) (max pos count : Z) : Kern vfs (Z * option Z) :=
  file_out ← file_at p_out;
  let out_pos := f_pos file_out in
  opipe ← gets (fun s => get_pipe_info s p_out);
  match opipe with
  | None =>
      retval ← rw_verify_area WRITE p_out (Some out_pos) count;
      if retval <? 0 then mret (retval, ppos)
      else
      '(retval, pos, out_pos) ← do_splice_direct p_in pos p_out out_pos count 0;
      sendfile_done p_in p_out ppos max retval pos out_pos
  | Some opipe =>
      let fl := if has (f_flags file_out) O_NONBLOCK then SPLICE_F_NONBLOCK else 0 in
      '(retval, pos) ← splice_file_to_pipe p_in opipe pos count fl;
      sendfile_done p_in p_out ppos max retval pos out_pos
  end.

(** From the lookup of the output file on; [pos] is where the input starts. *)
Definition sendfile_out (out_fd p_in : Z) (ppos : option Z) (pos count max : Z) : Kern vfs (Z * option Z) :=
  o ← fdget out_fd;
  match o with
  | None => mret (- EBADF, ppos)
  | Some p_out =>
      file_out ← file_at p_out;
      ret ← (if negb (has (f_mode file_out) FMODE_WRITE) then mret (- EBADF, ppos)
             else
             in_inode ← file_inode p_in;
             out_inode ← file_inode p_out;
             let max := if max =? 0 then Z.min (s_maxbytes (i_sb in_inode)) (s_maxbytes (i_sb out_inode)) else max in
             if u64 max <? u64 (pos + count) then
               if max <=? pos then mret (- EOVERFLOW, ppos)
               else sendfile_splice p_in p_out ppos max pos (u64 (max - pos))
             else sendfile_splice p_in p_out ppos max pos count);
      fdput p_out;;
      mret ret
  end.

Definition do_sendfile (out_fd in_fd : Z) (ppos : option Z) (count max : Z) : Kern vfs (Z * option Z) :=
  o ← fdget in_fd;
  match o with
  | None => mret (- EBADF, ppos)
  | Some p_in =>
      file_in ← file_at p_in;
      ret ← (if negb (has (f_mode file_in) FMODE_READ) then mret (- EBADF, ppos)
             else
             let pos := default (f_pos file_in) ppos in
             if bool_decide (is_Some ppos) && negb (has (f_mode file_in) FMODE_PREAD) then mret (- ESPIPE, ppos)
             else
             retval ← rw_verify_area READ p_in (Some pos) count;
             if retval <? 0 then mret (retval, ppos)
             else
             let count := if MAX_RW_COUNT <? count then MAX_RW_COUNT else count in
             sendfile_out out_fd p_in ppos pos count max);
      fdput p_in;;
      mret ret
  end.
End Copy.

(** ** System calls on top of [do_sendfile] *)
Section CopyCalls.
Context `{UserArch} `{VfsEnv} `{!SpliceEnv}.

(** The forms differ in the width of the caller's offset and in the limit. *)
Definition sendfile (out_fd in_fd offset count : Z) : Kern vfs Z :=
  if truthy offset then
    '(off, fault) ← on_kernel (k_get_user 8 offset);
    if truthy fault then mret (- EFAULT)
    else
    '(ret, pos) ← do_sendfile out_fd in_fd (Some (s64 off)) count MAX_NON_LFS;
    fault ← on_kernel (k_put_user 8 (default 0 pos) offset);
    if truthy fault then mret (- EFAULT) else mret ret
  else '(ret, _) ← do_sendfile out_fd in_fd None count 0; mret ret.

Definition sendfile64 (out_fd in_fd offset count : Z) : Kern vfs Z :=
  if truthy offset then
    '(bs, uncopied) ← on_kernel (k_copy_from_user offset 8);
    if truthy uncopied then mret (- EFAULT)
    else
    '(ret, pos) ← do_sendfile out_fd in_fd (Some (s64 (le_val bs))) count 0;
    fault ← on_kernel (k_put_user 8 (default 0 pos) offset);
    if truthy fault then mret (- EFAULT) else mret ret
  else '(ret, _) ← do_sendfile out_fd in_fd None count 0; mret ret.

Definition compat_sendfile (out_fd in_fd offset count : Z) : Kern vfs Z :=
  if truthy offset then
    '(off, fault) ← on_kernel (k_get_user 4 offset);
    if truthy fault then mret (- EFAULT)
    else
    '(ret, pos) ← do_sendfile out_fd in_fd (Some (s32 off)) count MAX_NON_LFS;
    fault ← on_kernel (k_put_user 4 (default 0 pos) offset);
    if truthy fault then mret (- EFAULT) else mret ret
  else '(ret, _) ← do_sendfile out_fd in_fd None count 0; mret ret.

Definition compat_sendfile64 (out_fd in_fd offset count : Z) : Kern vfs Z := sendfile64 out_fd in_fd offset count.

(** ** [copy_file_range] *)
Definition generic_copy_file_checks (p_in pos_in p_out pos_out req_count flags : Z) : Kern vfs (Z * Z) :=
  ret ← generic_file_rw_checks p_in p_out;
  if truthy ret then mret (ret, req_count)
  else
  file_in ← file_at p_in;
  file_out ← file_at p_out;
  inode_in ← file_inode p_in;
  inode_out ← file_inode p_out;
  let copy_in := fop_copy_file_range (f_op file_in) in
  let copy_out := fop_copy_file_range (f_op file_out) in
  if negb (has flags COPY_FILE_SPLICE)
     && (if truthy copy_out then negb (copy_in =? copy_out) else negb (i_sb inode_in =? i_sb inode_out))
  then mret (- EXDEV, req_count)
  else if IS_IMMUTABLE inode_out then mret (- EPERM, req_count)
  else if IS_SWAPFILE inode_in || IS_SWAPFILE inode_out then mret (- ETXTBSY, req_count)
  else
  let count := req_count in
  if (u64 (pos_in + count) <? u64 pos_in) || (u64 (pos_out + count) <? u64 pos_out)
  then mret (- EOVERFLOW, req_count)
  else
  let size_in := i_size inode_in in
  let count := if size_in <=? pos_in then 0 else Z.min count (u64 (size_in - pos_in)) in
  '(ret, count) ← generic_write_check_limits p_out pos_out (s64 count);
  if truthy ret then mret (ret, req_count)
  else
  let count := u64 count in
  if (f_inode file_in =? f_inode file_out)
     && (u64 pos_in <? u64 (pos_out + count)) && (u64 pos_out <? u64 (pos_in + count))
  then mret (- EINVAL, req_count)
  else mret (0, count).

(** The choice of the copy method: the result so far, and whether to splice. *)
Definition copy_method (p_in pos_in p_out pos_out len flags : Z) : Kern vfs (Z * bool) :=
  let splice := has flags COPY_FILE_SPLICE in
  file_in ← file_at p_in;
  file_out ← file_at p_out;
  inode_in ← file_inode p_in;
  inode_out ← file_inode p_out;
  let samesb := i_sb inode_in =? i_sb inode_out in
  let copy := fop_copy_file_range (f_op file_out) in
  if negb splice && truthy copy then
    ret ← call_copy_file_range copy p_in pos_in p_out pos_out len flags;
    mret (ret, splice)
  else
  match (if negb splice && samesb then fop_remap_file_range (f_op file_in) else None) with
  | Some remap =>
      ret ← remap p_in pos_in p_out pos_out (Z.min MAX_RW_COUNT len) REMAP_FILE_CAN_SHORTEN;
      mret (ret, splice || (ret <=? 0))
  | None => mret (0, splice || samesb)
  end.

Definition vfs_copy_file_range (p_in pos_in p_out pos_out len flags : Z) : Kern vfs Z :=
  if has flags (Z.lnot COPY_FILE_SPLICE) then mret (- EINVAL)
  else
  '(ret, len) ← generic_copy_file_checks p_in pos_in p_out pos_out len flags;
  if truthy ret then mret ret
  else
  ret ← rw_verify_area READ p_in (Some pos_in) len;
  if truthy ret then mret ret
  else
  ret ← rw_verify_area WRITE p_out (Some pos_out) len;
  if truthy ret then mret ret
  else if len =? 0 then mret 0
  else
  file_start_write p_out;;
  '(ret, splice) ← copy_method p_in pos_in p_out pos_out len flags;
  file_end_write p_out;;
  ret ← (if (splice : bool) then
           '(ret, _, _) ← do_splice_direct p_in pos_in p_out pos_out (Z.min len MAX_RW_COUNT) 0;
           mret ret
         else mret ret);
  (if 0 <? ret then
     fsnotify_access p_in;; add_rchar ret;; fsnotify_modify p_out;; add_wchar ret
   else mret tt);;
  inc_syscr;; inc_syscw;;
  mret ret.

(** [off_in] and [off_out] are pointers, 0 for NULL: where a copy starts. *)
Definition copy_start (off p : Z) : Kern vfs (option Z) :=
  if truthy off then
    '(bs, uncopied) ← on_kernel (k_copy_from_user off 8);
    mret (if truthy uncopied then None else Some (s64 (le_val bs)))
  else f ← file_at p; mret (Some (f_pos f)).

(** Advances the position or the offset after a copy; the new return value. *)
Definition copy_advance (off p pos ret : Z) : Kern vfs Z :=
  if truthy off then
    uncopied ← on_kernel (k_copy_to_user off (le_bytes 8 pos));
    mret (if truthy uncopied then - EFAULT else ret)
  else set_f_pos p pos;; mret ret.

Definition copy_both (off_in p_in off_out p_out len flags : Z) : Kern vfs Z :=
  pos_in ← copy_start off_in p_in;
  match pos_in with
  | None => mret (- EFAULT)
  | Some pos_in =>
      pos_out ← copy_start off_out p_out;
      match pos_out with
      | None => mret (- EFAULT)
      | Some pos_out =>
          if negb (flags =? 0) then mret (- EINVAL)
          else
          ret ← vfs_copy_file_range p_in pos_in p_out pos_out len flags;
          if 0 <? ret then
            r ← copy_advance off_in p_in (s64 (pos_in + ret)) ret;
            copy_advance off_out p_out (s64 (pos_out + ret)) r
          else mret ret
      end
  end.

Definition copy_file_range (fd_in off_in fd_out off_out len flags : Z) : Kern vfs Z :=
  o ← fdget fd_in;
  match o with
  | None => mret (- EBADF)
  | Some p_in =>
      o ← fdget fd_out;
      ret ← match o with
            | None => mret (- EBADF)
            | Some p_out =>
                ret ← copy_both off_in p_in off_out p_out len flags;
                fdput p_out;;
                mret ret
            end;
      fdput p_in;;
      mret ret
  end.
End CopyCalls.

(** ** Safety *)
Class SpliceEnvOk `{VfsEnv} `{!SpliceEnv} : Prop := {
  do_splice_direct_ok p pos q qpos n fl s :
    vfs_wf s -> holds p (v_held s) -> holds q (v_held s) -> 0 <= n -> is_s64 pos -> is_s64 qpos ->
    wp (do_splice_direct p pos q qpos n fl)
      (fun '(r, pos', qpos') s' => outside s s' /\ rw_ret n r /\ is_s64 pos' /\ is_s64 qpos') s;
  splice_file_to_pipe_ok p pipe pos n fl s :
    vfs_wf s -> holds p (v_held s) -> 0 <= n -> is_s64 pos ->
    wp (splice_file_to_pipe p pipe pos n fl) (fun '(r, pos') s' => outside s s' /\ rw_ret n r /\ is_s64 pos') s;
  copy_file_range_ok c p pos q qpos n fl s :
    c <> 0 -> vfs_wf s -> holds p (v_held s) -> holds q (v_held s) -> 0 <= n ->
    wp (call_copy_file_range c p pos q qpos n fl) (fun r s' => outside s s' /\ rw_ret n r) s;
  remap_file_range_ok o op p pos q qpos n fl s :
    fop_remap_file_range o = Some op -> vfs_wf s -> holds p (v_held s) -> holds q (v_held s) -> 0 <= n ->
    wp (op p pos q qpos n fl) (fun r s' => outside s s' /\ rw_ret n r) s;
}.

Section CopySafe.
Context `{UserArchOk} `{UioOk} `{!VfsEnv} `{!VfsEnvOk} `{!SpliceEnv} `{!SpliceEnvOk}.
Context {R : vfs -> vfs -> Prop} `{!Frame R}.
Implicit Types (d : list resource) (p : Z).

Lemma current_rlimit_run k r :
  kernel_wf k -> 0 <= r < 16 ->
  exists l, rlim_of k (k_current k) r = Some l /\ current_rlimit r k = Done (rlim_cur l) k.
Proof.
  intros Hk Hr. destruct (kw_current k Hk) as [t Ht]. destruct (tw_signal _ _ (kw_tasks k Hk _ _ Ht)) as [sg Hsg].
  pose proof (kw_rlim k Hk _ _ Hsg) as Hlen.
  destruct (lookup_lt_is_Some_2 (rlim sg) (Z.to_nat r)) as [l Hl]; [lia|]. exists l.
  unfold rlim_of, current_rlimit, task_rlimit, task_signal, signal_at, rlim_at, current_task, current, task_at.
  kernel_unfold. rewrite Ht. cbn. rewrite Hsg. cbn. by rewrite Hl.
Qed.

Lemma good_current_rlimit d r :
  0 <= r < 16 -> good R d (on_kernel (current_rlimit r)) (fun _ => d) (fun _ => True).
Proof.
  intros Hr. apply good_on_kernel. intros k Hk. destruct (current_rlimit_run k r Hk Hr) as (l & _ & Hrun).
  rewrite (wp_run _ _ _ _ _ Hrun). done.
Qed.

Lemma good_get_user d n a : good R d (on_kernel (k_get_user n a)) (fun _ => d) (fun _ => True).
Proof. apply good_on_kernel. intros k Hk. unfold k_get_user, wp. split_and!; [apply same_user_accessed|done|done]. Qed.

Lemma good_write_check_limits d p pos count :
  holds p d ->
  good R d (generic_write_check_limits p pos count) (fun _ => d) (fun x => status x.1).
Proof.
  intros Hp. unfold generic_write_check_limits. good_step.
  eapply good_bind; [apply good_current_rlimit; unfold RLIMIT_FSIZE; lia|]. intros l _. cbv zeta.
  destruct (_ && _).
  { eapply good_bind; [apply good_note|]. intros ? _. by apply good_ret. }
  good_step. destruct (_ <=? pos); by apply good_ret.
Qed.

Lemma good_rw_checks d p q :
  holds p d -> holds q d -> good R d (generic_file_rw_checks p q) (fun _ => d) status.
Proof.
  intros Hp Hq. unfold generic_file_rw_checks. do 2 good_step. destruct (_ || _); [by apply good_ret|].
  destruct (_ || _); [by apply good_ret|]. do 2 good_step. destruct (_ || _); by apply good_ret.
Qed.

Lemma good_copy_checks d p pos q qpos n flags :
  holds p d -> holds q d -> 0 <= n ->
  good R d (generic_copy_file_checks p pos q qpos n flags) (fun _ => d) (fun x => status x.1 /\ 0 <= x.2).
Proof.
  intros Hp Hq Hn. unfold generic_copy_file_checks.
  eapply good_bind; [by apply good_rw_checks|]. intros r Hr.
  destruct (truthy r); [by apply good_ret|]. do 4 good_step. cbv zeta.
  destruct (_ && _); [by apply good_ret|]. destruct (IS_IMMUTABLE _); [by apply good_ret|].
  destruct (IS_SWAPFILE _ || _); [by apply good_ret|]. destruct (_ || _); [by apply good_ret|].
  eapply good_bind; [by apply good_write_check_limits|]. intros [ret count] Hret.
  destruct (truthy ret); [by apply good_ret|]. destruct (_ && _); [by apply good_ret|].
  apply good_ret. split; [done|]. apply u64_range.
Qed.

Lemma good_splice_direct d p pos q qpos n fl :
  holds p d -> holds q d -> 0 <= n -> is_s64 pos -> is_s64 qpos ->
  good R d (do_splice_direct p pos q qpos n fl) (fun _ => d)
    (fun x => rw_ret n x.1.1 /\ is_s64 x.1.2 /\ is_s64 x.2).
Proof.
  intros. apply good_outside. intros s h Hs Hh.
  eapply wp_mono; [|apply do_splice_direct_ok; try done; by eapply held_holds].
  by intros [[r pos'] qpos'] s' (? & ? & ? & ?).
Qed.

Lemma good_copy_method d p pos q qpos n flags :
  holds p d -> holds q d -> 0 <= n ->
  good R d (copy_method p pos q qpos n flags) (fun _ => d) (fun x => rw_ret n x.1).
Proof.
  intros Hp Hq Hn. unfold copy_method. do 4 good_step. cbv zeta.
  destruct (_ && truthy _) eqn:Hc.
  - apply andb_true_iff in Hc as [_ Hc%truthy_true].
    eapply good_bind with (D := fun _ => d) (Q := rw_ret n); [|intros; by apply good_ret].
    apply good_outside. intros s h Hs Hh.
    apply copy_file_range_ok; [exact Hc|exact Hs|by eapply held_holds|by eapply held_holds|exact Hn].
  - destruct (if _ && _ then _ else _) as [op|] eqn:Hop; [|apply good_ret; right; cbn; lia].
    assert (fop_remap_file_range (f_op a) = Some op) as Hremap by (clear -Hop; by case_match).
    eapply good_bind with (D := fun _ => d) (Q := rw_ret n); [|intros; by apply good_ret].
    eapply good_mono with (Q := rw_ret (Z.min MAX_RW_COUNT n)); [|intros r [?|?]; [by left|right; lia]].
    apply good_outside. intros s h Hs Hh. eapply remap_file_range_ok;
      [exact Hremap|done|by eapply held_holds|by eapply held_holds|unfold MAX_RW_COUNT; lia].
Qed.

Lemma good_vfs_copy d p pos q qpos n flags :
  holds p d -> holds q d -> 0 <= n -> is_s64 pos -> is_s64 qpos ->
  good R d (vfs_copy_file_range p pos q qpos n flags) (fun _ => d) (fun _ => True).
Proof.
  intros Hp Hq Hn Hpos Hqpos. unfold vfs_copy_file_range. destruct (has flags _); [by apply good_ret|].
  eapply good_bind; [by apply good_copy_checks|]. intros [r len] [_ Hlen]. cbn in Hlen.
  destruct (truthy r); [by apply good_ret|].
  eapply good_bind; [by apply good_verify|]. intros r1 _. destruct (truthy r1); [by apply good_ret|].
  eapply good_bind; [by apply good_verify|]. intros r2 _. destruct (truthy r2); [by apply good_ret|].
  destruct (len =? 0); [by apply good_ret|]. good_step.
  eapply good_bind; [apply good_copy_method; eauto with good|]. intros [ret splice] _. good_step.
  eapply good_bind with (D := fun _ => d) (Q := fun _ => True).
  - destruct splice; [|by apply good_ret].
    eapply good_bind; [apply good_splice_direct; try done; unfold MAX_RW_COUNT; lia|].
    intros [[r' ?] ?] _. by apply good_ret.
  - intros r' _. eapply good_bind with (D := fun _ => d) (Q := fun _ => True); [|intros; good_auto].
    destruct (0 <? r'); [|by apply good_ret]. good_auto. apply good_note.
Qed.
End CopySafe.

Section CopyCallsSafe.
Context `{UserArchOk} `{UioOk} `{!VfsEnv} `{!VfsEnvOk} `{!SpliceEnv} `{!SpliceEnvOk}.
Implicit Types (d : list resource) (p : Z).

Lemma good_copy_start d off p :
  holds p d -> good same_table d (copy_start off p) (fun _ => d) pos_ok.
Proof.
  intros Hp. unfold copy_start. destruct (truthy off).
  - good_step. destruct a as [bs u]. apply good_ret. destruct (truthy u); [done|]. apply s64_range.
  - good_step. apply good_ret. cbn. by apply fw_pos.
Qed.

Lemma good_copy_advance d off p pos ret :
  holds p d -> is_s64 pos -> good same_table d (copy_advance off p pos ret) (fun _ => d) (fun _ => True).
Proof.
  intros Hp Hpos. unfold copy_advance. destruct (truthy off); [good_auto|].
  eapply good_bind; [by apply good_set_f_pos|]. intros ? _. by apply good_ret.
Qed.

Lemma good_copy_file_range d fd_in off_in fd_out off_out len flags :
  0 <= len ->
  good same_table d (copy_file_range fd_in off_in fd_out off_out len flags) (fun _ => d) (fun _ => True).
Proof.
  intros Hlen. unfold copy_file_range. good_step. destruct a as [p|]; [|by apply good_ret].
  good_step. eapply good_bind with (D := fun _ => FileRef p :: d) (Q := fun _ => True); [|intros; good_auto].
  destruct a as [q|]; [|by apply good_ret].
  eapply good_bind with (D := fun _ => FileRef q :: FileRef p :: d) (Q := fun _ => True); [|intros; good_auto].
  assert (holds p (FileRef q :: FileRef p :: d)) as Hp by eauto with good.
  assert (holds q (FileRef q :: FileRef p :: d)) as Hq by eauto with good.
  unfold copy_both. eapply good_bind; [by apply good_copy_start|]. intros [pos|] Hpos; [|by apply good_ret].
  eapply good_bind; [by apply good_copy_start|]. intros [qpos|] Hqpos; [|by apply good_ret].
  destruct (flags =? 0); [|by apply good_ret]. cbn [negb].
  eapply good_bind; [by apply good_vfs_copy|]. intros ret _. destruct (0 <? ret); [|by apply good_ret].
  eapply good_bind; [apply good_copy_advance; [done|apply s64_range]|]. intros r _.
  apply good_copy_advance; [done|apply s64_range].
Qed.

Definition send_post (ppos : option Z) (x : Z * option Z) : Prop := pos_after ppos x.2.

Lemma good_sendfile_done d p q ppos max retval pos qpos :
  holds p d -> holds q d -> is_s64 pos -> is_s64 qpos -> pos_ok ppos ->
  good same_table d (sendfile_done p q ppos max retval pos qpos) (fun _ => d) (send_post ppos).
Proof.
  intros Hp Hq Hpos Hqpos Hppos. unfold sendfile_done.
  eapply good_bind with (D := fun _ => d) (Q := fun _ => True).
  - destruct (0 <? retval); [|by apply good_ret]. repeat good_step; [done|by apply good_set_f_pos].
  - intros ? _. do 2 good_step. apply good_ret. unfold send_post. cbn.
    destruct (0 <? retval); [|by apply pos_after_refl]. by destruct ppos; split.
Qed.

Lemma good_sendfile_splice d p q ppos max pos n :
  holds p d -> holds q d -> is_s64 pos -> pos_ok ppos -> 0 <= n ->
  good same_table d (sendfile_splice p q ppos max pos n) (fun _ => d) (send_post ppos).
Proof.
  intros Hp Hq Hpos Hppos Hn. unfold sendfile_splice. eapply good_bind; [by apply good_file_at|].
  intros f Hf. pose proof (fw_pos f Hf) as Hfp. good_step. destruct a as [pipe|].
  - eapply good_bind with (D := fun _ => d) (Q := fun x => rw_ret n x.1 /\ is_s64 x.2).
    + apply good_outside. intros s h Hs Hh.
      eapply wp_mono; [|apply splice_file_to_pipe_ok; try done; by eapply held_holds].
      by intros [r pos'] s' (? & ? & ?).
    + intros [r pos'] [_ ?]. by apply good_sendfile_done.
  - eapply good_bind; [by apply good_verify|]. intros r _.
    destruct (r <? 0); [apply good_ret; by apply pos_after_refl|].
    eapply good_bind; [by apply good_splice_direct|]. intros [[r' pos'] qpos'] (_ & ? & ?).
    by apply good_sendfile_done.
Qed.

Lemma good_do_sendfile d out_fd in_fd ppos count max :
  0 <= count -> pos_ok ppos ->
  good same_table d (do_sendfile out_fd in_fd ppos count max) (fun _ => d) (send_post ppos).
Proof.
  intros Hc Hppos. unfold do_sendfile.
  assert (forall d r, good same_table d (mret (r, ppos)) (fun _ => d) (send_post ppos)) as Hret
    by (intros; apply good_ret; by apply pos_after_refl).
  good_step. destruct a as [p|]; [|apply Hret]. eapply good_bind; [apply good_file_at; eauto with good|].
  intros f Hf. eapply good_bind with (D := fun _ => FileRef p :: d) (Q := send_post ppos); [|intros; good_auto].
  destruct (has (f_mode f) FMODE_READ); cbn [negb]; [|apply Hret].
  assert (is_s64 (default (f_pos f) ppos)) as Hpos by (destruct ppos; [done|apply Hf]).
  destruct (_ && _); [apply Hret|].
  eapply good_bind; [apply good_verify; eauto with good|]. intros r _. destruct (r <? 0); [apply Hret|].
  rewrite clamp_if. assert (0 <= clamp count) by (unfold clamp, MAX_RW_COUNT; lia).
  unfold sendfile_out. good_step. destruct a as [q|]; [|apply Hret]. good_step.
  eapply good_bind with (D := fun _ => FileRef q :: FileRef p :: d) (Q := send_post ppos); [|intros; good_auto].
  destruct (has (f_mode a) FMODE_WRITE); cbn [negb]; [|apply Hret].
  eapply good_bind; [apply good_file_inode; eauto with good|]. intros i1 _.
  eapply good_bind; [apply good_file_inode; eauto with good|]. intros i2 _. cbv zeta.
  destruct (u64 _ <? _); [destruct (_ <=? _); [apply Hret|]|]; apply good_sendfile_splice; eauto with good.
  apply u64_range.
Qed.

Lemma good_sendfile d out_fd in_fd offset count :
  0 <= count -> good same_table d (sendfile out_fd in_fd offset count) (fun _ => d) (fun _ => True).
Proof.
  intros Hc. unfold sendfile. destruct (truthy offset).
  - eapply good_bind; [apply good_get_user|]. intros [off fault] _. destruct (truthy fault); [by apply good_ret|].
    eapply good_bind; [apply good_do_sendfile; [done|apply s64_range]|]. intros [ret pos] _. good_auto.
  - eapply good_bind; [by apply good_do_sendfile|]. intros [ret pos] _. by apply good_ret.
Qed.

Lemma good_sendfile64 d out_fd in_fd offset count :
  0 <= count -> good same_table d (sendfile64 out_fd in_fd offset count) (fun _ => d) (fun _ => True).
Proof.
  intros Hc. unfold sendfile64. destruct (truthy offset).
  - good_step. destruct a as [bs u]. destruct (truthy u); [by apply good_ret|].
    eapply good_bind; [apply good_do_sendfile; [done|apply s64_range]|]. intros [ret pos] _. good_auto.
  - eapply good_bind; [by apply good_do_sendfile|]. intros [ret pos] _. by apply good_ret.
Qed.

Lemma good_compat_sendfile d out_fd in_fd offset count :
  0 <= count -> good same_table d (compat_sendfile out_fd in_fd offset count) (fun _ => d) (fun _ => True).
Proof.
  intros Hc. unfold compat_sendfile. destruct (truthy offset).
  - eapply good_bind; [apply good_get_user|]. intros [off fault] _. destruct (truthy fault); [by apply good_ret|].
    eapply good_bind; [apply good_do_sendfile; [done|]|].
    + cbn. pose proof (s32_range off). unfold is_s32, is_s64 in *. lia.
    + intros [ret pos] _. good_auto.
  - eapply good_bind; [by apply good_do_sendfile|]. intros [ret pos] _. by apply good_ret.
Qed.
End CopyCallsSafe.

(** ** The limits of a write *)
Section Limits.
Context `{UserArch} `{VfsEnvOk} `{!SpliceEnv}.

(** The end of the area a file may be written to: the process limit as the code
    reads it, a signed number, and the limit of the file system or, without
    [O_LARGEFILE], 2^31 - 1. *)
Definition file_max (f : file) (i : inode) : Z :=
  if has (f_flags f) O_LARGEFILE then s_maxbytes (i_sb i) else MAX_NON_LFS.
Definition limit_reached (l pos : Z) : bool := negb (l =? RLIM_INFINITY) && (s64 l <=? pos).
Definition write_room (l max : Z) : Z := if l =? RLIM_INFINITY then max else Z.min (s64 l) max.

Lemma u64_s64 z : u64 (s64 z) = u64 z.
Proof.
  unfold u64, s64. rewrite Zminus_mod_idemp_l. f_equal. lia.
Qed.

Definition limits_post (s : vfs) (f : file) (i : inode) (l pos count : Z) (x : Z * Z) (s' : vfs) : Prop :=
  (x.1 = if pos <? write_room l (file_max f i) then 0 else - EFBIG) /\
  (x.1 = 0 -> x.2 = Z.min count (write_room l (file_max f i) - pos)) /\
  s' = if limit_reached l pos then s <| v_events ::= cons (SendSig SIGXFSZ) |> else s.

(** A distance that fits, or wraps to a negative number. *)
Lemma s64_distance a b : is_s64 a -> is_s64 b -> b < a ->
  0 < s64 (a - b) /\ s64 (a - b) = a - b \/ s64 (a - b) < 0 /\ b < 0.
Proof.
  unfold is_s64. intros Ha Hb Hab. destruct (s64_cases (a - b)) as [[-> ?]|[-> ?]]; [lia|left; lia|right; lia].
Qed.

(** At any position; the number of bytes can only be wrong, and is then negative, if the
    position is negative. *)
Lemma write_limits_any s p f i rl pos count :
  vfs_wf s -> v_files s !! p = Some f -> host_inode s f = Some i ->
  rlim_of (v_k s) (k_current (v_k s)) RLIMIT_FSIZE = Some rl -> is_u64 (rlim_cur rl) ->
  is_s64 pos -> 0 <= count < 2 ^ 63 ->
  wp (generic_write_check_limits p pos count) (fun x s' =>
    let room := write_room (rlim_cur rl) (file_max f i) in
    (x.1 = if pos <? room then 0 else - EFBIG) /\
    (x.1 = 0 -> is_s64 x.2 /\ (x.2 = Z.min count (room - pos) /\ 0 <= x.2 \/ x.2 < 0 /\ pos < 0)) /\
    s' = if limit_reached (rlim_cur rl) pos then s <| v_events ::= cons (SendSig SIGXFSZ) |> else s) s.
Proof.
  intros Hs Hf Hi Hl Hlu Hpos Hcount. set (l := rlim_cur rl) in *. unfold generic_write_check_limits.
  rewrite wp_bind, (wp_run _ _ _ _ _ (mapping_inode_run s p f i Hf Hi)). cbv zeta.
  destruct (current_rlimit_run (v_k s) RLIMIT_FSIZE (vw_kernel s Hs) ltac:(by unfold RLIMIT_FSIZE)) as (l' & Hl' & Hrun).
  rewrite Hl in Hl'. injection Hl' as <-.
  assert (on_kernel (current_rlimit RLIMIT_FSIZE) s = Done l s) as Hok.
  { unfold on_kernel, zoom. rewrite Hrun. by destruct s as [[] ? ? ? ? ? ? ? ? ?]. }
  rewrite wp_bind, (wp_run _ _ _ _ _ Hok), u64_s64, (u64_id l) by done.
  fold (limit_reached l pos). unfold write_room, file_max.
  pose proof (s_maxbytes_range (i_sb i)) as Hmax. pose proof (s64_range l) as Hsl.
  set (max := if has (f_flags f) O_LARGEFILE then s_maxbytes (i_sb i) else MAX_NON_LFS).
  assert (0 <= max < 2 ^ 63) by (unfold max, MAX_NON_LFS; destruct (has _ _); lia).
  assert (is_s64 max) as Hsm by (unfold is_s64; lia).
  destruct (limit_reached l pos) eqn:Hr; unfold limit_reached in Hr.
  - unfold note. autorewrite with wp. apply andb_true_iff in Hr as [Hne Hle].
    destruct (Z.eqb_spec l RLIM_INFINITY); [done|]. bool_facts.
    rewrite (proj2 (Z.ltb_ge pos (Z.min (s64 l) max))) by lia. done.
  - rewrite wp_bind, (wp_file_at p _ s f) by done.
    replace (if negb (has (f_flags f) O_LARGEFILE) then MAX_NON_LFS else s_maxbytes (i_sb i)) with max
      by (unfold max; by destruct (has _ _)).
    destruct (Z.eqb_spec l RLIM_INFINITY) as [_|Hne]; cbn [negb] in *; destruct (Z.leb_spec max pos); rewrite wp_ret.
    + by rewrite (proj2 (Z.ltb_ge pos max)).
    + rewrite (proj2 (Z.ltb_lt pos max)) by lia. split_and!; [done|intros _; cbn|done].
      destruct (s64_distance max pos) as [[? E]|[? ?]]; [done..| |]; pose proof (s64_range (max - pos)); unfold is_s64 in *; lia.
    + by rewrite (proj2 (Z.ltb_ge pos _)) by lia.
    + assert (pos < s64 l) by (cbn in Hr; lia). rewrite (proj2 (Z.ltb_lt pos (Z.min (s64 l) max))) by lia.
      split_and!; [done|intros _; cbn|done].
      pose proof (s64_range (max - pos)). pose proof (s64_range (s64 l - pos)).
      destruct (s64_distance max pos) as [[? E]|[? ?]], (s64_distance (s64 l) pos) as [[? E']|[? ?]]; try done; unfold is_s64 in *; lia.
Qed.

Lemma write_limits_spec s p f i rl pos count :
  vfs_wf s -> v_files s !! p = Some f -> host_inode s f = Some i ->
  rlim_of (v_k s) (k_current (v_k s)) RLIMIT_FSIZE = Some rl -> is_u64 (rlim_cur rl) ->
  0 <= pos < 2 ^ 63 -> 0 <= count < 2 ^ 63 ->
  wp (generic_write_check_limits p pos count) (limits_post s f i (rlim_cur rl) pos count) s.
Proof.
  intros Hs Hf Hi Hl Hlu Hpos Hcount.
  eapply wp_mono; [|apply (write_limits_any s p f i rl pos count); try done; unfold is_s64; lia].
  intros x s' (Hx & Hok & Hs'). split_and!; [done| |done]. intros E. destruct (Hok E) as [_ [[? _]|[_ ?]]]; [done|lia].
Qed.

(** Before a write of [count] bytes at [pos], [generic_write_check_limits] grants
    exactly the bytes below the process limit and below the limit of the file, at
    least one, or answers -EFBIG; it sends SIGXFSZ exactly when the process limit
    was the reason.  It changes nothing else. *)
Theorem write_limits_exact s p f i rl pos count :
  vfs_wf s -> v_files s !! p = Some f -> host_inode s f = Some i ->
  rlim_of (v_k s) (k_current (v_k s)) RLIMIT_FSIZE = Some rl -> is_u64 (rlim_cur rl) ->
  0 <= pos < 2 ^ 63 -> 0 <= count < 2 ^ 63 ->
  wp (generic_write_check_limits p pos count) (limits_post s f i (rlim_cur rl) pos count) s.
Proof. apply write_limits_spec. Qed.

(** A file size limit of 2^63 or more that is not "unlimited" is read as a
    negative number: the process gets SIGXFSZ and -EFBIG for every write, even of
    an empty file, although the limit is far beyond any file size. *)
Theorem huge_fsize_limit_refuses s p f i rl pos count :
  vfs_wf s -> v_files s !! p = Some f -> host_inode s f = Some i ->
  rlim_of (v_k s) (k_current (v_k s)) RLIMIT_FSIZE = Some rl ->
  2 ^ 63 <= rlim_cur rl < RLIM_INFINITY -> 0 <= pos < 2 ^ 63 -> 0 <= count < 2 ^ 63 ->
  wp (generic_write_check_limits p pos count) (fun x s' =>
    x.1 = - EFBIG /\ s' = s <| v_events ::= cons (SendSig SIGXFSZ) |>) s.
Proof.
  intros Hs Hf Hi Hl Hlim Hpos Hcount. unfold RLIM_INFINITY in Hlim.
  eapply wp_mono; [|apply (write_limits_spec s p f i rl); try done; unfold is_u64; lia].
  intros [r n] s' (Hr & _ & ->). unfold limit_reached, write_room in *. cbn in Hr.
  rewrite (proj2 (Z.eqb_neq (rlim_cur rl) RLIM_INFINITY)) in * by (unfold RLIM_INFINITY; lia).
  destruct (s64_cases (rlim_cur rl)) as [[_ ?]|[Heq _]]; [lia|lia|]. rewrite Heq in *. cbn [negb andb].
  rewrite (proj2 (Z.leb_le _ pos)) by lia. split; [|done]. rewrite Hr, (proj2 (Z.ltb_ge pos _)) by lia. done.
Qed.

(** ** The checks of a copy *)
Lemma u64_wraps p c : is_u64 c -> (u64 (p + c) <? u64 p) = (2 ^ 64 <=? u64 p + c).
Proof.
  unfold is_u64. intros Hc. pose proof (u64_range p) as Hp. unfold is_u64 in Hp.
  assert (u64 (p + c) = u64 (u64 p + c)) as -> by (unfold u64; by rewrite Zplus_mod_idemp_l).
  destruct (Z.leb_spec (2 ^ 64) (u64 p + c)) as [Hge|Hlt].
  - apply Z.ltb_lt. unfold u64 at 1. rewrite <- (Z.mod_add _ (-1)), Z.mod_small by lia. lia.
  - apply Z.ltb_ge. rewrite (u64_id (_ + c)) by (unfold is_u64; lia). lia.
Qed.

Lemma u64_of_s64 p : is_s64 p -> u64 p = if p <? 0 then p + 2 ^ 64 else p.
Proof.
  unfold is_s64. intros Hp. destruct (Z.ltb_spec p 0).
  - unfold u64. rewrite <- (Z.mod_add _ 1), Z.mod_small by lia. lia.
  - apply u64_id. unfold is_u64. lia.
Qed.

(** A request to copy [req] bytes, with the files, their inodes, the inode whose pages
    the target's are, and the limit of the process. *)
Section CopyRequest.
Context (f g : file) (i j hi : inode) (rl : rlimit) (pos_in pos_out req flags : Z).

Definition copy_room : Z := write_room (rlim_cur rl) (file_max g hi).
Definition copy_count : Z := Z.min req (Z.min (Z.max 0 (i_size i - pos_in)) (copy_room - pos_out)).
Definition copy_crosses : bool :=
  negb (has flags COPY_FILE_SPLICE) &&
  (if truthy (fop_copy_file_range (f_op g)) then negb (fop_copy_file_range (f_op f) =? fop_copy_file_range (f_op g))
   else negb (i_sb i =? i_sb j)).

(** Why a copy is refused. *)
Inductive copy_error : Z -> Prop :=
| copy_directory : S_ISDIR (i_mode i) = true \/ S_ISDIR (i_mode j) = true -> copy_error (- EISDIR)
| copy_special : S_ISREG (i_mode i) = false \/ S_ISREG (i_mode j) = false -> copy_error (- EINVAL)
| copy_mode : has (f_mode f) FMODE_READ = false \/ has (f_mode g) FMODE_WRITE = false \/ has (f_flags g) O_APPEND = true ->
    copy_error (- EBADF)
| copy_cross : copy_crosses = true -> copy_error (- EXDEV)
| copy_immutable : IS_IMMUTABLE j = true -> copy_error (- EPERM)
| copy_swapfile : IS_SWAPFILE i = true \/ IS_SWAPFILE j = true -> copy_error (- ETXTBSY)
| copy_wraps : 2 ^ 64 <= u64 pos_in + req \/ 2 ^ 64 <= u64 pos_out + req -> copy_error (- EOVERFLOW)
| copy_too_far : copy_room <= pos_out -> copy_error (- EFBIG)
| copy_overlaps : f_inode f = f_inode g ->
    (0 <= pos_out -> pos_in < pos_out + copy_count /\ pos_out < pos_in + copy_count) -> copy_error (- EINVAL).

(** What holds of the [n] bytes granted otherwise.  A number of 2^63 bytes or more, which is
    negative as an [ssize_t], is possible for a negative position in the target. *)
Record copy_granted (n : Z) : Prop := {
  cg_readable : has (f_mode f) FMODE_READ = true;
  cg_writable : has (f_mode g) FMODE_WRITE = true /\ has (f_flags g) O_APPEND = false;
  cg_regular : S_ISREG (i_mode i) = true /\ S_ISREG (i_mode j) = true /\
    IS_IMMUTABLE j = false /\ IS_SWAPFILE i = false /\ IS_SWAPFILE j = false;
  cg_together : copy_crosses = false;
  cg_nowrap : u64 pos_in + req < 2 ^ 64 /\ u64 pos_out + req < 2 ^ 64;
  cg_room : pos_out < copy_room;
  cg_range : is_u64 n /\ (2 ^ 63 <= n -> pos_out < 0);
  cg_exact : n < 2 ^ 63 -> n = copy_count;
  cg_count : n < 2 ^ 63 -> 0 <= n <= req;
  cg_source : n < 2 ^ 63 -> n = 0 \/ pos_in + n <= i_size i;
  cg_target : n < 2 ^ 63 -> pos_out + n <= file_max g hi /\
    (rlim_cur rl <> RLIM_INFINITY -> pos_out + n <= s64 (rlim_cur rl));
  cg_disjoint : n < 2 ^ 63 -> f_inode f = f_inode g -> pos_out + n <= pos_in \/ pos_in + n <= pos_out;
}.

Lemma rw_checks_run s p q :
  v_files s !! p = Some f -> v_files s !! q = Some g ->
  v_inodes s !! f_inode f = Some i -> v_inodes s !! f_inode g = Some j ->
  exists r, generic_file_rw_checks p q s = Done r s /\
    (r = 0 /\ S_ISREG (i_mode i) = true /\ S_ISREG (i_mode j) = true /\ has (f_mode f) FMODE_READ = true /\
      has (f_mode g) FMODE_WRITE = true /\ has (f_flags g) O_APPEND = false \/ r <> 0 /\ copy_error r).
Proof.
  intros Hf Hg Hi Hj. unfold generic_file_rw_checks, file_inode, file_at, inode_at. kernel_unfold.
  rewrite Hf. cbn. rewrite Hi. cbn. rewrite Hg. cbn. rewrite Hj. cbn.
  destruct (S_ISDIR (i_mode i) || S_ISDIR (i_mode j)) eqn:Hd.
  { eexists. split; [done|]. right. split; [done|]. apply copy_directory. by apply orb_true_iff. }
  destruct (S_ISREG (i_mode i)) eqn:Ei; [|eexists; split; [done|]; right; split; [done|]; apply copy_special; auto].
  destruct (S_ISREG (i_mode j)) eqn:Ej; [|eexists; split; [done|]; right; split; [done|]; apply copy_special; auto].
  cbn. rewrite Hf. cbn. rewrite Hg. cbn.
  destruct (has (f_mode f) FMODE_READ) eqn:Er, (has (f_mode g) FMODE_WRITE) eqn:Ew, (has (f_flags g) O_APPEND) eqn:Ea; cbn [negb orb];
    eexists; (split; [done|]); first [by left; split_and! | right; split; [done|]; apply copy_mode; auto].
Qed.

(** The bytes up to the end of the source. *)
Lemma copy_to_eof :
  is_s64 pos_in -> 0 <= req -> 0 <= i_size i < 2 ^ 63 -> u64 pos_in + req < 2 ^ 64 ->
  let n := if i_size i <=? pos_in then 0 else Z.min req (u64 (i_size i - pos_in)) in
  n = Z.min req (Z.max 0 (i_size i - pos_in)) /\ n < 2 ^ 63.
Proof.
  intros Hp Hr Hs Hw n. rewrite (u64_of_s64 _ Hp) in Hw. unfold is_s64 in Hp. unfold n. destruct (Z.leb_spec (i_size i) pos_in); [lia|].
  rewrite u64_id by (unfold is_u64; lia). destruct (Z.ltb_spec pos_in 0); lia.
Qed.

(** The comparison of unsigned numbers decides whether the areas overlap. *)
Lemma overlap_exact n :
  is_s64 pos_in -> is_s64 pos_out -> 0 <= n <= req -> u64 pos_in + req < 2 ^ 64 -> u64 pos_out + req < 2 ^ 64 ->
  pos_in + n < 2 ^ 63 -> pos_out + n < 2 ^ 63 ->
  (u64 pos_in <? u64 (pos_out + n)) && (u64 pos_out <? u64 (pos_in + n)) = (pos_in <? pos_out + n) && (pos_out <? pos_in + n).
Proof.
  intros Hi Ho Hn Wi Wo Ei Eo. assert (forall p, is_s64 p -> u64 p + req < 2 ^ 64 -> u64 (p + n) = u64 p + n) as E.
  { intros p Hp W. rewrite (u64_of_s64 p Hp) in *. unfold is_s64 in Hp. destruct (Z.ltb_spec p 0).
    - unfold u64. rewrite <- (Z.mod_add _ 1), Z.mod_small by lia. lia.
    - apply u64_id. unfold is_u64. lia. }
  rewrite (E _ Hi Wi), (E _ Ho Wo), !u64_of_s64 in * by done. unfold is_s64 in *.
  apply eq_true_iff_eq. rewrite !andb_true_iff, !Z.ltb_lt. destruct (Z.ltb_spec pos_in 0), (Z.ltb_spec pos_out 0); lia.
Qed.

(** From the number of bytes up to the end of the source to the result. *)
Lemma copy_checks_count s q n :
  vfs_wf s -> v_files s !! q = Some g -> host_inode s g = Some hi ->
  rlim_of (v_k s) (k_current (v_k s)) RLIMIT_FSIZE = Some rl -> is_u64 (rlim_cur rl) ->
  is_s64 pos_in -> is_s64 pos_out -> 0 <= i_size i < 2 ^ 63 ->
  u64 pos_in + req < 2 ^ 64 -> u64 pos_out + req < 2 ^ 64 ->
  n = Z.min req (Z.max 0 (i_size i - pos_in)) -> 0 <= n < 2 ^ 63 ->
  wp ('(ret, count) ← generic_write_check_limits q pos_out (s64 n);
      if truthy ret then mret (ret, req)
      else
      let count := u64 count in
      if (f_inode f =? f_inode g) && (u64 pos_in <? u64 (pos_out + count)) && (u64 pos_out <? u64 (pos_in + count))
      then mret (- EINVAL, req)
      else mret (0, count)) (fun '(r, m) s' =>
    (s' = s \/ r = - EFBIG /\ s' = s <| v_events ::= cons (SendSig SIGXFSZ) |>) /\
    (r = 0 /\ pos_out < copy_room /\ is_u64 m /\ (2 ^ 63 <= m -> pos_out < 0) /\
      (m < 2 ^ 63 -> m = copy_count /\ 0 <= m /\ (f_inode f = f_inode g -> pos_out + m <= pos_in \/ pos_in + m <= pos_out)) \/
     m = req /\ copy_error r)) s.
Proof.
  intros Hs Hg Hhi Hl Hlu Hpi Hpo Hsize Wi Wo En Hn. rewrite (s64_id n) by (unfold is_s64; lia). rewrite wp_bind.
  eapply wp_mono; [|by apply (write_limits_any s q g hi rl)].
  intros [r m] s' (Hr & Hm & Hs'). cbn in Hr, Hm. fold copy_room in Hr, Hm.
  destruct (Z.ltb_spec pos_out copy_room) as [Hroom|Hroom]; subst r.
  2: { cbn. split; [destruct (limit_reached _ _); auto|]. right. split; [done|by apply copy_too_far]. }
  assert (s' = s) as -> .
  { rewrite Hs'. unfold limit_reached. unfold copy_room, write_room in Hroom. destruct (_ =? _); [done|].
    by rewrite (proj2 (Z.leb_gt _ _)) by lia. }
  change (truthy 0) with false. cbv iota. destruct (Hm eq_refl) as [Hm64 Hcase]. cbv zeta.
  assert (is_u64 (u64 m)) by apply u64_range.
  assert (copy_room < 2 ^ 63) as Hmax.
  { unfold copy_room, write_room, file_max. pose proof (s_maxbytes_range (i_sb hi)).
    assert (MAX_NON_LFS < 2 ^ 63) by done. destruct (_ =? _), (has _ _); lia. }
  destruct Hcase as [[Em Hm0]|[Hneg Hpneg]].
  - assert (m = copy_count) as Ec by (unfold copy_count; lia). rewrite !(u64_id m) in * by (unfold is_u64, is_s64 in *; lia).
    rewrite <- andb_assoc, overlap_exact by (try done; unfold is_s64 in *; lia).
    destruct (Z.eqb_spec (f_inode f) (f_inode g)) as [Ef|Ef]; cbn [andb].
    + destruct (Z.ltb_spec pos_in (pos_out + m)), (Z.ltb_spec pos_out (pos_in + m)); cbn [andb]; rewrite wp_ret; (split; [by left|]).
      1: right; split; [done|]; apply copy_overlaps; [done|]; by rewrite <- Ec.
      all: left; split_and!; [done|done|done|lia|intros _; split_and!; [done|done|lia]].
    + rewrite wp_ret. split; [by left|]. left. split_and!; [done|done|done|lia|]. intros _. by split_and!.
  - assert (2 ^ 63 <= u64 m) by (rewrite (u64_of_s64 m Hm64), (proj2 (Z.ltb_lt m 0)) by done; unfold is_s64 in Hm64; lia).
    destruct (Z.eqb_spec (f_inode f) (f_inode g)) as [Ef|Ef]; cbn [andb]; [destruct (_ && _)|]; rewrite wp_ret; (split; [by left|]).
    1: right; split; [done|]; apply copy_overlaps; [done|lia].
    all: left; split_and!; [done|done|done|lia|lia].
Qed.
End CopyRequest.

End Limits.
