(* ===== verification/OpenFlags.v ===== *)
(** Open flags: [build_open_how] and [build_open_flags] of [fs/open.c].

    Both are pure functions on flag words.  [struct open_how] is what user space
    asks for, [struct open_flags] what path lookup gets; the theorems say which
    requests are refused and what an accepted one looks like. *)

From S2P Require Import Prelude Uaccess Kernel Track Vfs.

Definition FASYNC : Z := 0x2000.
Definition O_NOATIME : Z := 0x40000.
Definition __FMODE_NONOTIFY : Z := 0x4000000.
Definition VALID_OPEN_FLAGS : Z :=
  Z.lor O_ACCMODE (Z.lor O_CREAT (Z.lor O_EXCL (Z.lor O_NOCTTY (Z.lor O_TRUNC (Z.lor O_APPEND
  (Z.lor O_NONBLOCK (Z.lor __O_SYNC (Z.lor O_DSYNC (Z.lor FASYNC (Z.lor O_DIRECT (Z.lor O_LARGEFILE
  (Z.lor O_DIRECTORY (Z.lor O_NOFOLLOW (Z.lor O_NOATIME (Z.lor O_CLOEXEC (Z.lor O_PATH __O_TMPFILE)))))))))))))))).
Definition O_PATH_FLAGS : Z := Z.lor O_DIRECTORY (Z.lor O_NOFOLLOW (Z.lor O_PATH O_CLOEXEC)).
Definition WILL_CREATE (flags : Z) : bool := has flags (Z.lor O_CREAT __O_TMPFILE).

Definition S_IALLUGO : Z := 0xfff.
Definition S_IFREG : Z := 0x8000.

Definition RESOLVE_NO_XDEV : Z := 0x1.
Definition RESOLVE_NO_MAGICLINKS : Z := 0x2.
Definition RESOLVE_NO_SYMLINKS : Z := 0x4.
Definition RESOLVE_BENEATH : Z := 0x8.
Definition RESOLVE_IN_ROOT : Z := 0x10.
Definition RESOLVE_CACHED : Z := 0x20.
Definition VALID_RESOLVE_FLAGS : Z := 0x3f.

Definition LOOKUP_FOLLOW : Z := 0x1.
Definition LOOKUP_DIRECTORY : Z := 0x2.
Definition LOOKUP_REVAL : Z := 0x20.
Definition LOOKUP_OPEN : Z := 0x100.
Definition LOOKUP_CREATE : Z := 0x200.
Definition LOOKUP_EXCL : Z := 0x400.
Definition LOOKUP_EMPTY : Z := 0x4000.
Definition LOOKUP_NO_SYMLINKS : Z := 0x10000.
Definition LOOKUP_NO_MAGICLINKS : Z := 0x20000.
Definition LOOKUP_NO_XDEV : Z := 0x40000.
Definition LOOKUP_BENEATH : Z := 0x80000.
Definition LOOKUP_IN_ROOT : Z := 0x100000.
Definition LOOKUP_CACHED : Z := 0x200000.

Record open_how := mkHow { how_flags : Z; how_mode : Z; how_resolve : Z }.
#[global] Instance eta_how : Eta open_how := fun h => mkHow (how_flags h) (how_mode h) (how_resolve h).

Record open_flags := mkOpenFlags {
  open_flag : Z; op_mode : Z; acc_mode : Z; intent : Z; lookup_flags : Z;
}.

(** [ACC_MODE(x)]: a table indexed by the access mode. *)
Definition ACC_MODE (x : Z) : Z := nth (Z.to_nat (Z.land x O_ACCMODE)) [4; 2; 6; 6] 0.

Definition build_open_how (flags mode : Z) : open_how :=
  let how := mkHow (Z.land flags VALID_OPEN_FLAGS) (Z.land mode S_IALLUGO) 0 in
  let how := if has (how_flags how) O_PATH then how <| how_flags ::= fun fl => Z.land fl O_PATH_FLAGS |> else how in
  if negb (WILL_CREATE (how_flags how)) then how <| how_mode := 0 |> else how.

Definition when_set (cond : bool) (bits w : Z) : Z := if cond then Z.lor w bits else w.

(** The refusals, up to the handling of [O_PATH]; [flags] are stripped. *)
Definition flags_refused (how : open_how) (flags : Z) : bool :=
  has flags (Z.lnot VALID_OPEN_FLAGS) ||
  has (how_resolve how) (Z.lnot VALID_RESOLVE_FLAGS) ||
  (has (how_resolve how) RESOLVE_BENEATH && has (how_resolve how) RESOLVE_IN_ROOT) ||
  (if WILL_CREATE flags then has (how_mode how) (Z.lnot S_IALLUGO) else negb (how_mode how =? 0)) ||
  (Z.land flags (Z.lor O_DIRECTORY O_CREAT) =? Z.lor O_DIRECTORY O_CREAT) ||
  (has flags __O_TMPFILE && (negb (has flags O_DIRECTORY) || negb (has (ACC_MODE (how_flags how)) MAY_WRITE))) ||
  (has flags O_PATH && has flags (Z.lnot O_PATH_FLAGS)).

(** [lookup_flags] from the flags and the resolve bits. *)
Definition lookup_of (flags resolve : Z) : Z :=
  when_set (has resolve RESOLVE_CACHED) LOOKUP_CACHED
  (when_set (has resolve RESOLVE_IN_ROOT) LOOKUP_IN_ROOT
  (when_set (has resolve RESOLVE_BENEATH) LOOKUP_BENEATH
  (when_set (has resolve RESOLVE_NO_SYMLINKS) LOOKUP_NO_SYMLINKS
  (when_set (has resolve RESOLVE_NO_MAGICLINKS) LOOKUP_NO_MAGICLINKS
  (when_set (has resolve RESOLVE_NO_XDEV) LOOKUP_NO_XDEV
  (when_set (negb (has flags O_NOFOLLOW)) LOOKUP_FOLLOW
  (when_set (has flags O_DIRECTORY) LOOKUP_DIRECTORY 0))))))).

(** [inl] is an error. *)
Definition build_open_flags (how : open_how) : Z + open_flags :=
  let flags := Z.land (how_flags how) (Z.lnot (Z.lor __FMODE_NONOTIFY O_CLOEXEC)) in
  if flags_refused how flags then inl (- EINVAL)
  else
  let op_mode := if WILL_CREATE flags then Z.lor (how_mode how) S_IFREG else 0 in
  let acc_mode := if has flags O_PATH then 0 else ACC_MODE (how_flags how) in
  let flags := when_set (has flags __O_SYNC) O_DSYNC flags in
  let open_flag := flags in
  let acc_mode := when_set (has flags O_TRUNC) MAY_WRITE acc_mode in
  let acc_mode := when_set (has flags O_APPEND) MAY_APPEND acc_mode in
  let intent := if has flags O_PATH then 0 else LOOKUP_OPEN in
  let intent := when_set (has flags O_CREAT) LOOKUP_CREATE intent in
  let excl := has flags O_CREAT && has flags O_EXCL in
  let intent := when_set excl LOOKUP_EXCL intent in
  let flags := when_set excl O_NOFOLLOW flags in
  if has (how_resolve how) RESOLVE_CACHED && has flags (Z.lor O_TRUNC (Z.lor O_CREAT __O_TMPFILE))
  then inl (- EAGAIN)
  else inr (mkOpenFlags open_flag op_mode acc_mode intent (lookup_of flags (how_resolve how))).

(** ** Flag words bit by bit *)
Lemma has_single w k : 0 <= k -> has w (2 ^ k) = Z.testbit w k.
Proof.
  intros Hk. unfold has, truthy. destruct (Z.testbit w k) eqn:Hb.
  - destruct (Z.eqb_spec (Z.land w (2 ^ k)) 0) as [E|]; [|done].
    assert (Z.testbit (Z.land w (2 ^ k)) k = true) as Ht
      by (rewrite Z.land_spec, Hb, Z.pow2_bits_true by done; done).
    rewrite E, Z.bits_0 in Ht. done.
  - destruct (Z.eqb_spec (Z.land w (2 ^ k)) 0) as [|E]; [done|]. exfalso. apply E.
    apply Z.bits_inj'. intros n Hn. rewrite Z.land_spec, Z.bits_0.
    destruct (Z.eq_dec n k) as [->|]; [by rewrite Hb|].
    rewrite Z.pow2_bits_false by lia. apply andb_false_r.
Qed.

Lemma has_lor w a b : has w (Z.lor a b) = has w a || has w b.
Proof. unfold has. by rewrite Z.land_lor_distr_r, truthy_lor. Qed.
Lemma has_lor_l v w a : has (Z.lor v w) a = has v a || has w a.
Proof. unfold has. by rewrite Z.land_lor_distr_l, truthy_lor. Qed.

(** [w] has no bits outside of [m]. *)
Lemma has_outside w m : has w (Z.lnot m) = false <-> Z.land w m = w.
Proof.
  unfold has. rewrite truthy_false. rewrite <- Z.ldiff_land. split; intros Hw.
  - apply Z.bits_inj'. intros n Hn. apply (f_equal (fun z => Z.testbit z n)) in Hw.
    rewrite Z.ldiff_spec, Z.bits_0 in Hw. rewrite Z.land_spec. by destruct (Z.testbit w n), (Z.testbit m n).
  - rewrite <- Hw. apply Z.bits_inj'. intros n Hn. rewrite Z.ldiff_spec, Z.land_spec, Z.bits_0.
    by destruct (Z.testbit w n), (Z.testbit m n).
Qed.

Lemma land_two w i j :
  0 <= i -> 0 <= j -> i <> j ->
  (Z.land w (Z.lor (2 ^ i) (2 ^ j)) =? Z.lor (2 ^ i) (2 ^ j)) = Z.testbit w i && Z.testbit w j.
Proof.
  intros Hi Hj Hij. destruct (Z.testbit w i && Z.testbit w j) eqn:E.
  - apply andb_true_iff in E as [Ei Ej]. apply Z.eqb_eq, Z.bits_inj'. intros n Hn.
    rewrite Z.land_spec, Z.lor_spec, !Z.pow2_bits_eqb by done.
    destruct (Z.eqb_spec i n); [subst n; by rewrite Ei|].
    destruct (Z.eqb_spec j n); [subst n; by rewrite Ej|]. apply andb_false_r.
  - apply Z.eqb_neq. intros Heq. apply andb_false_iff in E as [E|E].
    + apply (f_equal (fun z => Z.testbit z i)) in Heq.
      rewrite Z.land_spec, Z.lor_spec, E, Z.pow2_bits_true in Heq by done. done.
    + apply (f_equal (fun z => Z.testbit z j)) in Heq.
      rewrite Z.land_spec, Z.lor_spec, E, (Z.pow2_bits_true j), orb_true_r in Heq by done. done.
Qed.

(** Every flag is a single bit. *)
Lemma has_O_CREAT w : has w O_CREAT = Z.testbit w 6. Proof. by apply (has_single w 6). Qed.
Lemma has_O_EXCL w : has w O_EXCL = Z.testbit w 7. Proof. by apply (has_single w 7). Qed.
Lemma has_O_TRUNC w : has w O_TRUNC = Z.testbit w 9. Proof. by apply (has_single w 9). Qed.
Lemma has_O_APPEND w : has w O_APPEND = Z.testbit w 10. Proof. by apply (has_single w 10). Qed.
Lemma has_O_DIRECTORY w : has w O_DIRECTORY = Z.testbit w 16. Proof. by apply (has_single w 16). Qed.
Lemma has_O_NOFOLLOW w : has w O_NOFOLLOW = Z.testbit w 17. Proof. by apply (has_single w 17). Qed.
Lemma has_O_SYNC w : has w __O_SYNC = Z.testbit w 20. Proof. by apply (has_single w 20). Qed.
Lemma has_O_PATH w : has w O_PATH = Z.testbit w 21. Proof. by apply (has_single w 21). Qed.
Lemma has_O_TMPFILE w : has w __O_TMPFILE = Z.testbit w 22. Proof. by apply (has_single w 22). Qed.

Create Rewrite HintDb flag.
#[export] Hint Rewrite has_O_CREAT has_O_EXCL has_O_TRUNC has_O_APPEND has_O_DIRECTORY has_O_NOFOLLOW
  has_O_SYNC has_O_PATH has_O_TMPFILE has_lor has_lor_l : flag.
#[export] Hint Rewrite Z.land_spec Z.lor_spec : flag.

(** ** Which requests are refused *)
Lemma acc_mode_land flags m : Z.land m O_ACCMODE = O_ACCMODE -> ACC_MODE (Z.land flags m) = ACC_MODE flags.
Proof. intros Hm. unfold ACC_MODE. by rewrite <- Z.land_assoc, Hm. Qed.

(** What [open] refuses although it drops the flags it does not know. *)
Definition open_refused (flags : Z) : bool :=
  negb (has flags O_PATH) &&
  ((has flags O_DIRECTORY && has flags O_CREAT) ||
   (has flags __O_TMPFILE && (negb (has flags O_DIRECTORY) || negb (has (ACC_MODE flags) MAY_WRITE)))).

Definition stripped (how : open_how) : Z :=
  Z.land (how_flags how) (Z.lnot (Z.lor __FMODE_NONOTIFY O_CLOEXEC)).

Lemma land_absorb a m n : Z.land n m = n -> Z.land (Z.land a n) m = Z.land a n.
Proof. intros Hn. by rewrite <- Z.land_assoc, Hn. Qed.

Lemma land_stripped w m : Z.land w m = w -> Z.land (Z.land w (Z.lnot m)) m = 0.
Proof.
  intros _. apply Z.bits_inj'. intros n Hn. rewrite !Z.land_spec, Z.lnot_spec, Z.bits_0 by done.
  by destruct (Z.testbit w n), (Z.testbit m n).
Qed.

Lemma land_swap_sub w a m : Z.land w m = w -> Z.land (Z.land w a) m = Z.land w a.
Proof. intros Hw. by rewrite (Z.land_comm w a), <- Z.land_assoc, Hw. Qed.

(** The bits that matter survive the stripping. *)
Lemma stripped_bit how k :
  0 <= k -> k <> 19 -> k <> 26 -> Z.testbit (stripped how) k = Z.testbit (how_flags how) k.
Proof.
  intros Hk H19 H26. unfold stripped. rewrite Z.land_spec, Z.lnot_spec, Z.lor_spec by done.
  change __FMODE_NONOTIFY with (2 ^ 26). change O_CLOEXEC with (2 ^ 19).
  rewrite !Z.pow2_bits_false by lia. apply andb_true_r.
Qed.

Lemma refused_cases how :
  let w := how_flags how in
  how_resolve how = 0 -> Z.land w VALID_OPEN_FLAGS = w ->
  (if WILL_CREATE w then Z.land (how_mode how) S_IALLUGO = how_mode how else how_mode how = 0) ->
  flags_refused how (stripped how) =
    (has w O_DIRECTORY && has w O_CREAT) ||
    (has w __O_TMPFILE && (negb (has w O_DIRECTORY) || negb (has (ACC_MODE w) MAY_WRITE))) ||
    (has w O_PATH && has (stripped how) (Z.lnot O_PATH_FLAGS)).
Proof.
  intros w Hres Hvalid Hmode. unfold flags_refused. rewrite Hres.
  change (has 0 (Z.lnot VALID_RESOLVE_FLAGS)) with false. change (has 0 RESOLVE_BENEATH) with false.
  assert (has (stripped how) (Z.lnot VALID_OPEN_FLAGS) = false) as ->.
  { apply has_outside. by apply land_swap_sub. }
  assert (WILL_CREATE (stripped how) = WILL_CREATE w) as ->.
  { unfold WILL_CREATE. autorewrite with flag. by rewrite !stripped_bit by lia. }
  assert ((if WILL_CREATE w then has (how_mode how) (Z.lnot S_IALLUGO) else negb (how_mode how =? 0)) = false) as ->.
  { destruct (WILL_CREATE w); [by apply has_outside|by rewrite Hmode]. }
  change O_DIRECTORY with (2 ^ 16) at 1 2. change O_CREAT with (2 ^ 6) at 1 2.
  rewrite land_two, !stripped_bit by lia. cbn [orb andb].
  rewrite !has_O_TMPFILE, !has_O_DIRECTORY, !has_O_PATH, has_O_CREAT, !stripped_bit by lia. done.
Qed.

(** The request [open] makes of an [O_PATH] flag word, and of any other. *)
Definition path_flags (flags : Z) : Z := Z.land (Z.land flags VALID_OPEN_FLAGS) O_PATH_FLAGS.
Definition known_flags (flags : Z) : Z := Z.land flags VALID_OPEN_FLAGS.

Lemma known_bit flags k : Z.testbit VALID_OPEN_FLAGS k = true -> Z.testbit (known_flags flags) k = Z.testbit flags k.
Proof. intros Hk. unfold known_flags. by rewrite Z.land_spec, Hk, andb_true_r. Qed.

Lemma path_bit flags k : Z.testbit O_PATH_FLAGS k = false -> Z.testbit (path_flags flags) k = false.
Proof. intros Hk. unfold path_flags. by rewrite Z.land_spec, Hk, andb_false_r. Qed.

Lemma path_creates_nothing flags : WILL_CREATE (path_flags flags) = false.
Proof. unfold WILL_CREATE. by rewrite has_lor, has_O_CREAT, has_O_TMPFILE, !path_bit. Qed.

Lemma build_how_eq flags mode :
  build_open_how flags mode =
    if has flags O_PATH then mkHow (path_flags flags) 0 0
    else mkHow (known_flags flags) (if WILL_CREATE (known_flags flags) then Z.land mode S_IALLUGO else 0) 0.
Proof.
  unfold build_open_how. cbn [how_flags]. fold (known_flags flags).
  assert (has (known_flags flags) O_PATH = has flags O_PATH) as -> by (by rewrite !has_O_PATH, known_bit).
  destruct (has flags O_PATH).
  - change (update_field how_flags _ _) with (mkHow (path_flags flags) (Z.land mode S_IALLUGO) 0).
    cbn [how_flags]. by rewrite path_creates_nothing.
  - cbn [how_flags]. by destruct (WILL_CREATE (known_flags flags)).
Qed.

Lemma path_not_refused flags : flags_refused (mkHow (path_flags flags) 0 0) (stripped (mkHow (path_flags flags) 0 0)) = false.
Proof.
  rewrite refused_cases; [|done| |by cbn [how_flags]; rewrite path_creates_nothing].
  - cbn [how_flags]. rewrite has_O_CREAT, has_O_TMPFILE, !path_bit by done. rewrite andb_false_r. cbn [orb andb].
    replace (has (stripped _) (Z.lnot O_PATH_FLAGS)) with false; [by rewrite andb_false_r|].
    symmetry. apply has_outside, land_swap_sub. by apply land_absorb.
  - by apply land_absorb.
Qed.

Lemma plain_refused flags mode :
  has flags O_PATH = false -> (if WILL_CREATE (known_flags flags) then Z.land mode S_IALLUGO = mode else mode = 0) ->
  let how := mkHow (known_flags flags) mode 0 in
  flags_refused how (stripped how) = open_refused flags.
Proof.
  intros Hpath Hmode how. unfold open_refused. rewrite Hpath. cbn [negb andb].
  rewrite refused_cases; [|done|by apply land_absorb|done]. cbn [how_flags how].
  assert (has (known_flags flags) O_PATH = false) as -> by (rewrite has_O_PATH in *; by rewrite known_bit).
  rewrite andb_false_l, orb_false_r, !has_O_DIRECTORY, !has_O_CREAT, !has_O_TMPFILE, !known_bit by done.
  unfold known_flags. by rewrite acc_mode_land.
Qed.

(** [open] and [openat] drop unknown flags, reduce an [O_PATH] request to the flags
    it may carry and clear a mode nobody asked for; after that they refuse, with
    -EINVAL, exactly the combination of [O_CREAT] and [O_DIRECTORY] and a temporary
    file without [O_DIRECTORY] or without write access.  Every other flag word and
    mode is accepted. *)
Theorem open_accepts_exactly flags mode :
  if open_refused flags then build_open_flags (build_open_how flags mode) = inl (- EINVAL)
  else exists op, build_open_flags (build_open_how flags mode) = inr op.
Proof.
  assert (how_resolve (build_open_how flags mode) = 0 /\
    flags_refused (build_open_how flags mode) (stripped (build_open_how flags mode)) = open_refused flags) as [Hres Hr].
  { rewrite build_how_eq. destruct (has flags O_PATH) eqn:Hpath.
    - split; [done|]. rewrite path_not_refused. unfold open_refused. by rewrite Hpath.
    - split; [done|]. apply plain_refused; [done|]. destruct (WILL_CREATE _); [by apply land_absorb|done]. }
  unfold build_open_flags. fold (stripped (build_open_how flags mode)). rewrite Hr.
  destruct (open_refused flags); [done|].
  rewrite Hres. change (has 0 RESOLVE_CACHED) with false. cbn [andb]. eauto.
Qed.

(** ** What an accepted request looks like *)
Lemma has_when_set c bits w b : has (when_set c bits w) b = (c && has bits b) || has w b.
Proof. unfold when_set. destruct c; [|done]. rewrite has_lor_l. cbn. by rewrite orb_comm. Qed.

(** The requests [openat2] documents as invalid. *)
Inductive invalid_request (how : open_how) : Prop :=
| unknown_flag : Z.land (how_flags how) (Z.lor VALID_OPEN_FLAGS __FMODE_NONOTIFY) <> how_flags how -> invalid_request how
| unknown_resolve : Z.land (how_resolve how) VALID_RESOLVE_FLAGS <> how_resolve how -> invalid_request how
| two_scopes : has (how_resolve how) RESOLVE_BENEATH = true -> has (how_resolve how) RESOLVE_IN_ROOT = true ->
    invalid_request how
| unknown_mode : WILL_CREATE (how_flags how) = true -> Z.land (how_mode how) S_IALLUGO <> how_mode how -> invalid_request how
| useless_mode : WILL_CREATE (how_flags how) = false -> how_mode how <> 0 -> invalid_request how
| created_directory : has (how_flags how) O_DIRECTORY = true -> has (how_flags how) O_CREAT = true -> invalid_request how
| tmpfile_nowhere : has (how_flags how) __O_TMPFILE = true -> has (how_flags how) O_DIRECTORY = false -> invalid_request how
| tmpfile_readonly : has (how_flags how) __O_TMPFILE = true -> has (ACC_MODE (how_flags how)) MAY_WRITE = false ->
    invalid_request how
| busy_path : has (how_flags how) O_PATH = true ->
    Z.land (how_flags how) (Z.lor O_PATH_FLAGS __FMODE_NONOTIFY) <> how_flags how -> invalid_request how.

(** Those that cannot be served from the cache alone, although they ask for it. *)
Definition uncacheable (how : open_how) : bool :=
  has (how_resolve how) RESOLVE_CACHED &&
  (has (how_flags how) O_TRUNC || has (how_flags how) O_CREAT || has (how_flags how) __O_TMPFILE).

(** What path lookup may rely on. *)
Record flags_wf (how : open_how) (op : open_flags) : Prop := {
  ow_flag k : 0 <= k ->
    Z.testbit (open_flag op) k =
      Z.testbit (how_flags how) k && negb (k =? 19) && negb (k =? 26) || (k =? 12) && has (how_flags how) __O_SYNC;
  ow_known : Z.land (open_flag op) VALID_OPEN_FLAGS = open_flag op;
  ow_cloexec : has (open_flag op) O_CLOEXEC = false;
  ow_sync : has (open_flag op) __O_SYNC = true -> has (open_flag op) O_DSYNC = true;
  ow_mode : if WILL_CREATE (open_flag op)
            then op_mode op = Z.lor (how_mode how) S_IFREG /\ Z.land (how_mode how) S_IALLUGO = how_mode how
            else op_mode op = 0 /\ how_mode how = 0;
  ow_path : has (open_flag op) O_PATH = true -> acc_mode op = 0 /\ intent op = 0;
  ow_access : has (open_flag op) O_PATH = false ->
    has (acc_mode op) MAY_READ = has (ACC_MODE (how_flags how)) MAY_READ /\
    has (acc_mode op) MAY_WRITE = has (ACC_MODE (how_flags how)) MAY_WRITE || has (open_flag op) O_TRUNC /\
    has (acc_mode op) MAY_APPEND = has (open_flag op) O_APPEND;
  ow_intent : has (open_flag op) O_PATH = false ->
    has (intent op) LOOKUP_OPEN = true /\ has (intent op) LOOKUP_CREATE = has (open_flag op) O_CREAT /\
    has (intent op) LOOKUP_EXCL = has (open_flag op) O_CREAT && has (open_flag op) O_EXCL;
  ow_follow : has (lookup_flags op) LOOKUP_FOLLOW =
    negb (has (open_flag op) O_NOFOLLOW || has (open_flag op) O_CREAT && has (open_flag op) O_EXCL);
  ow_directory : has (lookup_flags op) LOOKUP_DIRECTORY = has (open_flag op) O_DIRECTORY;
  ow_scoped : has (lookup_flags op) LOOKUP_BENEATH && has (lookup_flags op) LOOKUP_IN_ROOT = false;
  ow_resolve_known : Z.land (how_resolve how) VALID_RESOLVE_FLAGS = how_resolve how;
  ow_resolve :
    has (lookup_flags op) LOOKUP_NO_SYMLINKS = has (how_resolve how) RESOLVE_NO_SYMLINKS /\
    has (lookup_flags op) LOOKUP_NO_MAGICLINKS = has (how_resolve how) RESOLVE_NO_MAGICLINKS /\
    has (lookup_flags op) LOOKUP_NO_XDEV = has (how_resolve how) RESOLVE_NO_XDEV /\
    has (lookup_flags op) LOOKUP_BENEATH = has (how_resolve how) RESOLVE_BENEATH /\
    has (lookup_flags op) LOOKUP_IN_ROOT = has (how_resolve how) RESOLVE_IN_ROOT /\
    has (lookup_flags op) LOOKUP_CACHED = has (how_resolve how) RESOLVE_CACHED;
}.

Ltac has_const :=
  repeat match goal with
  | |- context [has ?a ?b] =>
      first [is_const a | constr_eq a 0]; is_const b;
      let r := eval vm_compute in (has a b) in change (has a b) with r
  end.

Lemma lookup_bits flags resolve :
  has (lookup_of flags resolve) LOOKUP_FOLLOW = negb (has flags O_NOFOLLOW) /\
  has (lookup_of flags resolve) LOOKUP_DIRECTORY = has flags O_DIRECTORY /\
  has (lookup_of flags resolve) LOOKUP_NO_SYMLINKS = has resolve RESOLVE_NO_SYMLINKS /\
  has (lookup_of flags resolve) LOOKUP_NO_MAGICLINKS = has resolve RESOLVE_NO_MAGICLINKS /\
  has (lookup_of flags resolve) LOOKUP_NO_XDEV = has resolve RESOLVE_NO_XDEV /\
  has (lookup_of flags resolve) LOOKUP_BENEATH = has resolve RESOLVE_BENEATH /\
  has (lookup_of flags resolve) LOOKUP_IN_ROOT = has resolve RESOLVE_IN_ROOT /\
  has (lookup_of flags resolve) LOOKUP_CACHED = has resolve RESOLVE_CACHED.
Proof.
  unfold lookup_of. split_and!; rewrite !has_when_set; has_const;
    rewrite ?andb_false_r, ?andb_true_r, ?orb_false_r; cbn [orb]; done.
Qed.

(** The open flag with its synchronisation bits completed. *)
Definition synced (v : Z) : Z := when_set (has v __O_SYNC) O_DSYNC v.

Lemma synced_has v b : has O_DSYNC b = false -> has (synced v) b = has v b.
Proof. intros Hb. unfold synced. by rewrite has_when_set, Hb, andb_false_r. Qed.

Lemma synced_known v : Z.land v VALID_OPEN_FLAGS = v -> Z.land (synced v) VALID_OPEN_FLAGS = synced v.
Proof.
  intros Hv. unfold synced, when_set. destruct (has v __O_SYNC); [|done].
  by rewrite Z.land_lor_distr_l, Hv.
Qed.

Lemma stripped_cloexec how : has (stripped how) O_CLOEXEC = false.
Proof.
  change O_CLOEXEC with (2 ^ 19). rewrite has_single by done. unfold stripped.
  rewrite Z.land_spec, Z.lnot_spec, Z.lor_spec by done. change O_CLOEXEC with (2 ^ 19).
  rewrite (Z.pow2_bits_true 19), orb_true_r by done. apply andb_false_r.
Qed.

Lemma stripped_inside how m :
  Z.lor m O_CLOEXEC = m ->
  has (stripped how) (Z.lnot m) = false <-> Z.land (how_flags how) (Z.lor m __FMODE_NONOTIFY) = how_flags how.
Proof.
  intros Hm. rewrite <- has_outside. unfold has, stripped. rewrite <- Z.land_assoc, <- Z.lnot_lor.
  by rewrite <- Z.lor_assoc, (Z.lor_comm O_CLOEXEC), Hm, Z.lor_comm.
Qed.

Lemma stripped_will_create how : WILL_CREATE (stripped how) = WILL_CREATE (how_flags how).
Proof. unfold WILL_CREATE. autorewrite with flag. by rewrite !stripped_bit by lia. Qed.

(** The code's check refuses exactly the invalid requests. *)
Lemma refused_invalid how : flags_refused how (stripped how) = true <-> invalid_request how.
Proof.
  assert (forall m, Z.lor m O_CLOEXEC = m -> has (stripped how) (Z.lnot m) = true <->
    Z.land (how_flags how) (Z.lor m __FMODE_NONOTIFY) <> how_flags how) as Hin.
  { intros m Hm. rewrite <- not_false_iff_true. by rewrite (stripped_inside how m Hm). }
  assert (forall w m, has w (Z.lnot m) = true <-> Z.land w m <> w) as Hout.
  { intros w m. rewrite <- not_false_iff_true. by rewrite has_outside. }
  assert ((Z.land (stripped how) (Z.lor O_DIRECTORY O_CREAT) =? Z.lor O_DIRECTORY O_CREAT)
    = has (how_flags how) O_DIRECTORY && has (how_flags how) O_CREAT) as Hdir.
  { change O_DIRECTORY with (2 ^ 16). change O_CREAT with (2 ^ 6). by rewrite land_two, !has_single, !stripped_bit by lia. }
  unfold flags_refused. rewrite Hdir, !stripped_will_create, !has_O_TMPFILE, !has_O_DIRECTORY, !has_O_PATH, !stripped_bit by lia.
  rewrite <- has_O_TMPFILE, <- has_O_DIRECTORY, <- has_O_PATH. rewrite !orb_true_iff, !andb_true_iff, orb_true_iff, !negb_true_iff.
  rewrite !Hin by done. rewrite !Hout. split.
  - intros [[[[[[?|?]|[? ?]]|Hmode]|[? ?]]|[? [?|?]]]|[? ?]]; try by econstructor.
    destruct (WILL_CREATE (how_flags how)) eqn:Hw.
    + by eapply unknown_mode, Hout.
    + eapply useless_mode; [done|]. by apply Z.eqb_neq, negb_true_iff.
  - intros [?|?|? ?|Hw ?|Hw ?|? ?|? ?|? ?|? ?]; try rewrite Hw; rewrite ?Hout, ?negb_true_iff, ?Z.eqb_neq; tauto.
Qed.

Lemma not_refused how v :
  flags_refused how v = false ->
  Z.land v VALID_OPEN_FLAGS = v /\
  Z.land (how_resolve how) VALID_RESOLVE_FLAGS = how_resolve how /\
  has (how_resolve how) RESOLVE_BENEATH && has (how_resolve how) RESOLVE_IN_ROOT = false /\
  (if WILL_CREATE v then Z.land (how_mode how) S_IALLUGO = how_mode how else how_mode how = 0) /\
  (has v O_PATH = true -> Z.land v O_PATH_FLAGS = v).
Proof.
  unfold flags_refused. intros Hr. repeat (apply orb_false_iff in Hr as [Hr ?]).
  split_and!; [by apply has_outside|by apply has_outside|done| |].
  - destruct (WILL_CREATE v); [by apply has_outside|by apply Z.eqb_eq, negb_false_iff].
  - intros Hp. rewrite Hp in *. by apply has_outside.
Qed.

Lemma acc_mode_append flags : has (ACC_MODE flags) MAY_APPEND = false.
Proof.
  unfold ACC_MODE. set (n := Z.to_nat _). clearbody n. by do 4 (destruct n as [|n]; [done|]); destruct n.
Qed.

Lemma synced_bit how k :
  0 <= k -> Z.testbit (synced (stripped how)) k =
    Z.testbit (how_flags how) k && negb (k =? 19) && negb (k =? 26) || (k =? 12) && has (how_flags how) __O_SYNC.
Proof.
  intros Hk. assert (Z.testbit (stripped how) k = Z.testbit (how_flags how) k && negb (k =? 19) && negb (k =? 26)) as <-.
  { unfold stripped. rewrite Z.land_spec, Z.lnot_spec, Z.lor_spec by done. change __FMODE_NONOTIFY with (2 ^ 26). change O_CLOEXEC with (2 ^ 19).
    rewrite !Z.pow2_bits_eqb, negb_orb, !(Z.eqb_sym k) by done. by destruct (Z.testbit _ k), (19 =? k), (26 =? k). }
  unfold synced, when_set. rewrite !has_O_SYNC, stripped_bit by done. destruct (Z.testbit (how_flags how) 20); [|by rewrite andb_false_r, orb_false_r].
  rewrite Z.lor_spec. change O_DSYNC with (2 ^ 12). by rewrite Z.pow2_bits_eqb, (Z.eqb_sym k), andb_true_r by done.
Qed.

Lemma accepted_wf how op : build_open_flags how = inr op -> flags_wf how op.
Proof.
  unfold build_open_flags. fold (stripped how). set (v := stripped how).
  pose proof (stripped_cloexec how) as Hclo. fold v in Hclo.
  destruct (flags_refused how v) eqn:Hr; [done|]. destruct (not_refused how v Hr) as (Hkn & Hrk & Hsc & Hmode & Hpath).
  fold (synced v). cbv zeta.
  destruct (_ && has _ (Z.lor O_TRUNC _)); [done|]. intros [= <-].
  assert (forall b, has O_DSYNC b = false -> has (synced v) b = has v b) as Hs by (intros; by apply synced_has).
  set (excl := has (synced v) O_CREAT && has (synced v) O_EXCL).
  destruct (lookup_bits (when_set excl O_NOFOLLOW (synced v)) (how_resolve how)) as (Hl1 & Hl2 & Hl3 & Hl4 & Hl5 & Hl6 & Hl7 & Hl8).
  rewrite has_when_set in Hl1, Hl2. change (has O_NOFOLLOW O_NOFOLLOW) with true in Hl1.
  change (has O_NOFOLLOW O_DIRECTORY) with false in Hl2. rewrite andb_true_r in Hl1. rewrite andb_false_r in Hl2.
  split; cbn [open_flag op_mode acc_mode intent lookup_flags].
  - intros k Hk. by apply synced_bit.
  - by apply synced_known.
  - by rewrite Hs.
  - intros Hsync. rewrite Hs in Hsync by done. unfold synced. rewrite has_when_set, Hsync. done.
  - assert (WILL_CREATE (synced v) = WILL_CREATE v) as -> by (unfold WILL_CREATE; by rewrite Hs).
    by destruct (WILL_CREATE v).
  - intros Hp. rewrite Hs in Hp by done. rewrite !Hs by done. rewrite Hp.
    assert (forall b, Z.land O_PATH_FLAGS b = 0 -> has v b = false) as Hno.
    { intros b Hb. rewrite <- (Hpath Hp). unfold has. by rewrite <- Z.land_assoc, Hb, Z.land_0_r. }
    unfold excl. rewrite !Hs by done. by rewrite !(Hno O_TRUNC), !(Hno O_APPEND), !(Hno O_CREAT) by done.
  - intros Hp. rewrite Hs in Hp by done. rewrite Hp, !has_when_set, acc_mode_append. has_const.
    rewrite !andb_false_r, !andb_true_r, !orb_false_r. cbn [orb]. split_and!; [done|apply orb_comm|done].
  - intros Hp. rewrite Hp, !has_when_set. has_const. by rewrite ?andb_false_r, ?andb_true_r, ?orb_false_r.
  - by rewrite Hl1, orb_comm.
  - rewrite Hl2. done.
  - by rewrite Hl6, Hl7.
  - done.
  - done.
Qed.

