(* ===== verification/Open.v ===== *)
(** Opening and closing files: [do_dentry_open] and its callers, the open and close
    system calls of [fs/open.c].

    A file that is being opened is [NewFile] on the ledger; [do_dentry_open] turns
    it into an open file, which then owns the references it was given, or undoes
    everything.  Path lookup ([do_filp_open]), the allocation of files and
    descriptors and the release of files are the fields of the class [OpenEnv]. *)

From S2P Require Import Prelude Uaccess Kernel Track Vfs Seek ReadWrite OpenFlags.

Definition __NR_open : Z := 2.
Definition __NR_close : Z := 3.
Definition AT_FDCWD : Z := -100.
Definition ERESTARTSYS : Z := 512.
Definition ERESTARTNOINTR : Z := 513.
Definition ERESTARTNOHAND : Z := 514.
Definition ERESTART_RESTARTBLOCK : Z := 516.
Definition CAP_SYS_TTY_CONFIG : Z := 26.

Class OpenEnv := {
  empty_fops : Z;
  fop_open : Z -> option (Z -> Z -> Kern vfs Z);      (* inode and file *)
  fop_flush : Z -> option (Z -> Kern vfs Z);
  fops_get : vfs -> Z -> Z;                           (* 0 when their module is gone *)
  iocb_flags : file -> Z;
  backing_file_user_path : Z -> path;
  (* 0 grants, an error refuses *)
  get_write_access : vfs -> Z -> Z;
  mnt_get_write_access : vfs -> Z -> Z;
  security_file_open : vfs -> Z -> Z;
  break_lease : vfs -> Z -> Z -> Z;
  put_file_access : Z -> Kern vfs unit;               (* fs/internal.h *)
  (* an error or a file *)
  alloc_empty_file : Z -> Kern vfs (Z + Z);
  alloc_empty_file_noaccount : Z -> Kern vfs (Z + Z);
  vfs_create : path -> Z -> Kern vfs Z;
  fput : Z -> Kern vfs unit;
  __fput_sync : Z -> Kern vfs unit;
  file_count : vfs -> Z -> Z;
  (* fs/namei.c *)
  do_filp_open : Z -> Z -> open_flags -> Kern vfs (Z + Z);
  do_file_open_root : path -> Z -> open_flags -> Kern vfs (Z + Z);
  getname : vfs -> Z -> Z + Z;
  getname_kernel : vfs -> Z -> Z + Z;
  (* fs/file.c *)
  get_unused_fd_flags : vfs -> Z -> Z;
  __close_range : Z -> Z -> Z -> Kern vfs Z;
  force_o_largefile : bool;
}.

(** A call that returns 0 and holds [r], or an error and nothing. *)
Definition try_acquire (st : vfs -> Z) (r : resource) : Kern vfs Z :=
  error ← gets st;
  if truthy error then mret error else acquire r;; mret 0.

Section Open.
Context `{UserArch} `{VfsEnv} `{!OpenEnv}.

Definition path_get (pa : path) : Kern vfs unit := acquire (PathRef pa).
Definition path_put (pa : path) : Kern vfs unit := release (PathRef pa).

(** [fops_get] pins the module that has the operations, [fops_put] lets it go. *)
Definition get_fops (fop : Z) : Kern vfs Z :=
  op ← gets (fun s => fops_get s fop);
  (if op =? 0 then mret tt else acquire (FopsRef op));;
  mret op.
Definition fops_put (op : Z) : Kern vfs unit := if op =? 0 then mret tt else release (FopsRef op).

Definition file_get_write_access (p : Z) (f : file) : Kern vfs Z :=
  let mnt := p_mnt (f_path f) in
  error ← try_acquire (fun s => get_write_access s (f_inode f)) (WriteAccess (f_inode f));
  if truthy error then mret error
  else
  error ← try_acquire (fun s => mnt_get_write_access s mnt) (MntAccess mnt);
  if truthy error then release (WriteAccess (f_inode f));; mret error
  else
  if has (f_mode f) FMODE_BACKING then
    let user_mnt := p_mnt (backing_file_user_path p) in
    error ← try_acquire (fun s => mnt_get_write_access s user_mnt) (MntAccess user_mnt);
    if truthy error then
      release (MntAccess mnt);; release (WriteAccess (f_inode f));; mret error
    else mret 0
  else mret 0.

(** The labels [cleanup_file] and [cleanup_all]. *)
Definition cleanup_file (p error : Z) : Kern vfs Z :=
  f ← file_at p;
  path_put (f_path f);;
  put_file p (f <| f_path := mkPath 0 0 |> <| f_inode := 0 |>);;
  mret error.
Definition cleanup_all (p error : Z) : Kern vfs Z :=
  let error := if 0 <? error then - EINVAL else error in
  f ← file_at p;
  fops_put (f_op f);;
  put_file_access p;;
  cleanup_file p error.

(** The access to the inode that goes with the mode: readers are counted, writers
    need write access. *)
Definition open_access (p : Z) (f : file) (inode : inode) : Kern vfs Z :=
  if Z.land (f_mode f) (Z.lor FMODE_READ FMODE_WRITE) =? FMODE_READ then
    acquire (ReadCount (f_inode f));; mret 0
  else if has (f_mode f) FMODE_WRITE && negb (special_file (i_mode inode)) then
    error ← file_get_write_access p f;
    if truthy error then mret error
    else put_file p (f <| f_mode ::= Z.lor FMODE_WRITER |>);; mret 0
  else mret 0.

Definition or_mode (cond : bool) (bits : Z) (f : file) : file :=
  if cond then f <| f_mode ::= Z.lor bits |> else f.

(** The mode and flags of a file whose [open] succeeded. *)
Definition finish_file (direct_io : bool) (f : file) : file :=
  let f := or_mode true FMODE_OPENED f in
  let f := or_mode (has (f_mode f) FMODE_READ
                    && bool_decide (is_Some (fop_read (f_op f)) \/ is_Some (fop_read_iter (f_op f))))
                   FMODE_CAN_READ f in
  let f := or_mode (has (f_mode f) FMODE_WRITE
                    && bool_decide (is_Some (fop_write (f_op f)) \/ is_Some (fop_write_iter (f_op f))))
                   FMODE_CAN_WRITE f in
  let f := if has (f_mode f) FMODE_LSEEK && negb (bool_decide (is_Some (fop_llseek (f_op f))))
           then f <| f_mode ::= fun m => Z.land m (Z.lnot FMODE_LSEEK) |> else f in
  let f := or_mode direct_io FMODE_CAN_ODIRECT f in
  let f := f <| f_flags ::= fun fl => Z.land fl (Z.lnot (Z.lor O_CREAT (Z.lor O_EXCL (Z.lor O_NOCTTY O_TRUNC)))) |> in
  f <| f_iocb_flags := iocb_flags f |>.

Definition open_finish (p ino : Z) : Kern vfs Z :=
  f ← file_at p;
  m ← mapping_at (f_mapping f);
  let f := finish_file (direct_IO m) f in
  put_file p f;;
  _ ← inode_at (host m);                              (* file_ra_state_init *)
  if has (f_flags f) O_DIRECT && negb (has (f_mode f) FMODE_CAN_ODIRECT) then mret (- EINVAL)
  else
  inode ← inode_at ino;
  im ← mapping_at (i_mapping inode);
  (if has (f_mode f) FMODE_WRITE && truthy (nr_thps im) then note (DropPages (i_mapping inode)) else mret tt);;
  note (NotifyOpen p);;
  mret 0.

(** From the choice of the operations to the call of [open]. *)
Definition open_methods (p ino : Z) (inode : inode) (open : option (Z -> Z -> Kern vfs Z)) : Kern vfs Z :=
  f ← file_at p;
  op ← get_fops (i_fop inode);
  let f := or_mode (S_ISREG (i_mode inode) || S_ISDIR (i_mode inode)) FMODE_ATOMIC_POS f in
  let f := f <| f_op := op |> in
  put_file p f;;
  if op =? 0 then cleanup_all p (- ENODEV)
  else
  error ← gets (fun s => security_file_open s p);
  if truthy error then cleanup_all p error
  else
  error ← gets (fun s => break_lease s (f_inode f) (f_flags f));
  if truthy error then cleanup_all p error
  else
  put_file p (or_mode true (Z.lor FMODE_LSEEK (Z.lor FMODE_PREAD FMODE_PWRITE)) f);;
  error ← match (if open is Some o then Some o else fop_open op) with
          | Some open => open ino p
          | None => mret 0
          end;
  if truthy error then cleanup_all p error
  else open_finish p ino.

Definition do_dentry_open (p ino : Z) (open : option (Z -> Z -> Kern vfs Z)) : Kern vfs Z :=
  f ← file_at p;
  path_get (f_path f);;
  inode ← inode_at ino;
  let f := f <| f_inode := ino |> <| f_mapping := i_mapping inode |> in
  put_file p f;;
  if has (f_flags f) O_PATH then
    put_file p (f <| f_mode := Z.lor FMODE_PATH FMODE_OPENED |> <| f_op := empty_fops |>);; mret 0
  else
  error ← open_access p f inode;
  if truthy error then cleanup_file p error
  else open_methods p ino inode open.

Definition finish_open (p dentry : Z) (open : option (Z -> Z -> Kern vfs Z)) : Kern vfs Z :=
  f ← file_at p;
  if has (f_mode f) FMODE_OPENED then crashed KernelBug
  else
  put_file p (f <| f_path ::= fun pa => mkPath (p_mnt pa) dentry |>);;
  ino ← gets (fun s => v_dentries s !! dentry);
  ino ← deref UseAfterFree ino;
  do_dentry_open p ino open.

Definition finish_no_open (p dentry : Z) : Kern vfs Z :=
  f ← file_at p;
  put_file p (f <| f_path ::= fun pa => mkPath (p_mnt pa) dentry |>);;
  mret 0.

Definition vfs_open (pa : path) (p : Z) : Kern vfs Z :=
  f ← file_at p;
  put_file p (f <| f_path := pa |>);;
  ino ← gets (fun s => v_dentries s !! p_dentry pa);
  ino ← deref UseAfterFree ino;
  do_dentry_open p ino None.

(** A file, or an error ([ERR_PTR]). *)
Definition dentry_open (pa : path) (flags : Z) : Kern vfs (Z + Z) :=
  if p_mnt pa =? 0 then crashed KernelBug
  else
  f ← alloc_empty_file flags;
  match f with
  | inl e => mret (inl e)
  | inr p =>
      error ← vfs_open pa p;
      if truthy error then fput p;; mret (inl error) else mret (inr p)
  end.

Definition dentry_create (pa : path) (flags mode : Z) : Kern vfs (Z + Z) :=
  f ← alloc_empty_file flags;
  match f with
  | inl e => mret (inl e)
  | inr p =>
      error ← vfs_create pa mode;
      error ← (if truthy error then mret error else vfs_open pa p);
      if truthy error then fput p;; mret (inl error) else mret (inr p)
  end.

Definition kernel_file_open (pa : path) (flags ino : Z) : Kern vfs (Z + Z) :=
  f ← alloc_empty_file_noaccount flags;
  match f with
  | inl e => mret (inl e)
  | inr p =>
      f ← file_at p;
      put_file p (f <| f_path := pa |>);;
      error ← do_dentry_open p ino None;
      if truthy error then fput p;; mret (inl error) else mret (inr p)
  end.

Definition file_open_name (name flags mode : Z) : Kern vfs (Z + Z) :=
  match build_open_flags (build_open_how flags mode) with
  | inl err => mret (inl err)
  | inr op => do_filp_open AT_FDCWD name op
  end.

Definition filp_open (filename flags mode : Z) : Kern vfs (Z + Z) :=
  name ← gets (fun s => getname_kernel s filename);
  match name with
  | inl e => mret (inl e)
  | inr name =>
      acquire (NameRef name);;
      file ← file_open_name name flags mode;
      release (NameRef name);;
      mret file
  end.

Definition file_open_root (root : path) (filename flags mode : Z) : Kern vfs (Z + Z) :=
  match build_open_flags (build_open_how flags mode) with
  | inl err => mret (inl err)
  | inr op => do_file_open_root root filename op
  end.

(** The file becomes visible under the descriptor, which owns the reference. *)
Definition fd_install (fd p : Z) : Kern vfs unit :=
  modify (fun s => s <| v_fdt ::= <[fd := p]> |>);;
  release (FileRef p);;
  release (UnusedFd fd).

Definition do_sys_openat2 (dfd filename : Z) (how : open_how) : Kern vfs Z :=
  match build_open_flags how with
  | inl err => mret err
  | inr op =>
      tmp ← gets (fun s => getname s filename);
      match tmp with
      | inl e => mret e
      | inr tmp =>
          acquire (NameRef tmp);;
          fd ← gets (fun s => get_unused_fd_flags s (how_flags how));
          fd ← (if 0 <=? fd then
                  acquire (UnusedFd fd);;
                  f ← do_filp_open dfd tmp op;
                  match f with
                  | inl e => release (UnusedFd fd);; mret e
                  | inr p => fd_install fd p;; mret fd
                  end
                else mret fd);
          release (NameRef tmp);;
          mret fd
      end
  end.

Definition do_sys_open (dfd filename flags mode : Z) : Kern vfs Z :=
  do_sys_openat2 dfd filename (build_open_how flags mode).

Definition with_largefile (flags : Z) : Z := if force_o_largefile then Z.lor flags O_LARGEFILE else flags.

Definition open (now : timespec64) (filename flags mode : Z) : Kern vfs Z :=
  v_track __NR_open now;;
  do_sys_open AT_FDCWD filename (with_largefile flags) mode.
Definition openat (dfd filename flags mode : Z) : Kern vfs Z :=
  do_sys_open dfd filename (with_largefile flags) mode.

Definition OPEN_HOW_SIZE_VER0 : Z := 24.
Definition how_of_bytes (bs : list Z) : open_how :=
  mkHow (le_val (take 8 bs)) (le_val (take 8 (drop 8 bs))) (le_val (take 8 (drop 16 bs))).
Definition openat2 (dfd filename how usize : Z) : Kern vfs Z :=
  if usize <? OPEN_HOW_SIZE_VER0 then mret (- EINVAL)
  else
  '(bs, err) ← on_kernel (fun k =>
     Done (copy_struct_from_user (k_user k) (replicate 24 0) OPEN_HOW_SIZE_VER0 OPEN_HOW_SIZE_VER0 how usize)
          (user_accessed (k_user k) k));
  if truthy err then mret err
  else
  let tmp := how_of_bytes bs in
  let tmp := if negb (has (how_flags tmp) O_PATH) && force_o_largefile
             then tmp <| how_flags ::= fun fl => Z.lor fl O_LARGEFILE |> else tmp in
  do_sys_openat2 dfd filename tmp.

Definition compat_open (filename flags mode : Z) : Kern vfs Z := do_sys_open AT_FDCWD filename flags mode.
Definition compat_openat (dfd filename flags mode : Z) : Kern vfs Z := do_sys_open dfd filename flags mode.
Definition creat (pathname mode : Z) : Kern vfs Z :=
  do_sys_open AT_FDCWD pathname (with_largefile (Z.lor O_CREAT (Z.lor O_WRONLY O_TRUNC))) mode.

(** ** Closing *)
Definition filp_flush (p : Z) : Kern vfs Z :=
  n ← gets (fun s => file_count s p);
  if n =? 0 then mret 0
  else
  f ← file_at p;
  retval ← match fop_flush (f_op f) with Some flush => flush p | None => mret 0 end;
  (if negb (has (f_mode f) FMODE_PATH) then note (FlushLocks p) else mret tt);;
  mret retval.

Definition filp_close (p : Z) : Kern vfs Z :=
  retval ← filp_flush p;
  fput p;;
  mret retval.

(** [file_close_fd]: takes the file out of the table, with its reference. *)
Definition file_close_fd (fd : Z) : Kern vfs (option Z) :=
  o ← gets (fun s => v_fdt s !! fd);
  match o with
  | None => mret None
  | Some p =>
      acquire (FileRef p);;
      modify (fun s => s <| v_fdt ::= delete fd |>);;
      mret (Some p)
  end.

Definition restart_code (retval : Z) : bool :=
  (retval =? - ERESTARTSYS) || (retval =? - ERESTARTNOINTR)
  || (retval =? - ERESTARTNOHAND) || (retval =? - ERESTART_RESTARTBLOCK).

Definition close (now : timespec64) (fd : Z) : Kern vfs Z :=
  v_track __NR_close now;;
  file ← file_close_fd fd;
  match file with
  | None => mret (- EBADF)
  | Some p =>
      retval ← filp_flush p;
      __fput_sync p;;
      mret (if restart_code retval then - EINTR else retval)
  end.

Definition close_range (fd max_fd flags : Z) : Kern vfs Z := __close_range fd max_fd flags.

Definition vhangup `{KernelEnv} : Kern vfs Z :=
  ok ← gets (fun s => capable (v_k s) CAP_SYS_TTY_CONFIG);
  if (ok : bool) then note Hangup;; mret 0 else mret (- EPERM).

(** ** [open] methods for file systems *)
Definition generic_file_open (ino p : Z) : Kern vfs Z :=
  inode ← inode_at ino;
  f ← file_at p;
  mret (if negb (has (f_flags f) O_LARGEFILE) && (MAX_NON_LFS <? i_size inode) then - EOVERFLOW else 0).

Definition nonseekable_open (ino p : Z) : Kern vfs Z :=
  f ← file_at p;
  put_file p (f <| f_mode ::= fun m => Z.land m (Z.lnot (Z.lor FMODE_LSEEK (Z.lor FMODE_PREAD FMODE_PWRITE))) |>);;
  mret 0.

Definition stream_open (ino p : Z) : Kern vfs Z :=
  f ← file_at p;
  put_file p (f <| f_mode ::= fun m =>
    Z.lor (Z.land m (Z.lnot (Z.lor FMODE_LSEEK (Z.lor FMODE_PREAD (Z.lor FMODE_PWRITE FMODE_ATOMIC_POS)))))
          FMODE_STREAM |>);;
  mret 0.
End Open.

(** ** What the callees promise *)
Section OpenLaws.
Context `{VfsEnv} `{!OpenEnv}.

(** The descriptor table, the files in it and the call counters stay as they are. *)
Record kept (s s' : vfs) : Prop := {
  kp_fdt : v_fdt s' = v_fdt s;
  kp_files fd p : v_fdt s !! fd = Some p -> v_files s' !! p = v_files s !! p;
  kp_counters : syscall_counters (v_tr s') = syscall_counters (v_tr s);
}.

(** What an open file owns besides its path: see [put_file_access] and
    [file_put_write_access] of [fs/internal.h]. *)
Definition write_refs (p : Z) (f : file) : list resource :=
  (if has (f_mode f) FMODE_BACKING then [MntAccess (p_mnt (backing_file_user_path p))] else [])
  ++ [MntAccess (p_mnt (f_path f)); WriteAccess (f_inode f)].
Definition access_refs (p : Z) (f : file) : list resource :=
  if Z.land (f_mode f) (Z.lor FMODE_READ FMODE_WRITE) =? FMODE_READ then [ReadCount (f_inode f)]
  else if has (f_mode f) FMODE_WRITER then write_refs p f
  else [].
(** The module of its operations; the operations of an [O_PATH] file have none. *)
Definition fops_refs (f : file) : list resource := if f_op f =? 0 then [] else [FopsRef (f_op f)].
Definition file_refs (p : Z) (f : file) : list resource :=
  (if has (f_mode f) FMODE_PATH then [] else fops_refs f) ++ access_refs p f.

(** The mode bits that belong to [do_dentry_open]. *)
Definition OWN_BITS : Z :=
  Z.lor FMODE_READ (Z.lor FMODE_WRITE (Z.lor FMODE_PATH (Z.lor FMODE_WRITER
  (Z.lor FMODE_CAN_READ (Z.lor FMODE_CAN_WRITE (Z.lor FMODE_OPENED FMODE_BACKING)))))).

(** An [open] method may replace the operations ([replace_fops]: the module of the old
    ones is let go, that of the new ones, which are not NULL, is held) and the mapping and
    set or clear the other bits. *)
Definition open_method (op : Z -> Z -> Kern vfs Z) : Prop :=
  forall ino p s f l, vfs_wf s -> v_held s = FopsRef (f_op f) :: l -> NewFile p ∈ l ->
  v_files s !! p = Some f -> f_inode f = ino -> f_op f <> 0 ->
  is_Some (v_inodes s !! ino) -> is_Some (v_mappings s !! f_mapping f) -> is_s64 (f_pos f) ->
  wp (op ino p) (fun r s' => - 4095 <= r /\ exists s1 f', outside s s1 /\
    s' = s1 <| v_files ::= <[p := f']> |> <| v_held := FopsRef (f_op f') :: l |> /\
    f_inode f' = f_inode f /\ f_path f' = f_path f /\ f_op f' <> 0 /\
    Z.land (f_mode f') OWN_BITS = Z.land (f_mode f) OWN_BITS /\
    is_s64 (f_pos f') /\ is_Some (v_mappings s1 !! f_mapping f')) s.

(** A file fresh from [alloc_empty_file]. *)
Record new_file (f : file) : Prop := {
  nf_bits : Z.land (f_mode f) (Z.lor FMODE_PATH (Z.lor FMODE_WRITER
    (Z.lor FMODE_CAN_READ (Z.lor FMODE_CAN_WRITE FMODE_OPENED)))) = 0;
  nf_pos : is_s64 (f_pos f);
}.
Definition allocated (s : vfs) (r : Z + Z) (s' : vfs) : Prop :=
  match r with
  | inl e => is_errno e /\ outside s s'
  | inr p => v_files s !! p = None /\ exists f, new_file f /\
      s' = s <| v_files ::= <[p := f]> |> <| v_held ::= cons (NewFile p) |>
  end.
(** A new open file, with a reference for the caller. *)
Definition found (s : vfs) (r : Z + Z) (s' : vfs) : Prop :=
  vfs_wf s' /\ kept s s' /\
  match r with
  | inl e => is_errno e /\ v_held s' = v_held s
  | inr p => v_held s' = FileRef p :: v_held s /\ forall fd, v_fdt s !! fd <> Some p
  end.
Definition let_go (h : list resource) (s s' : vfs) : Prop := vfs_wf s' /\ v_held s' = h /\ kept s s'.
End OpenLaws.

Class OpenEnvOk `{VfsEnv} `{!OpenEnv} : Prop := {
  fop_open_ok o op : fop_open o = Some op -> open_method op;
  fop_flush_ok o op p s : fop_flush o = Some op -> vfs_wf s -> holds p (v_held s) ->
    wp (op p) (fun r s' => outside s s' /\ status r) s;
  empty_fops_empty : fop_flush empty_fops = None;
  fops_get_ret s o : fops_get s o = o \/ fops_get s o = 0;
  get_write_access_ret s i : status (get_write_access s i);
  mnt_get_write_access_ret s m : status (mnt_get_write_access s m);
  security_file_open_ret s p : status (security_file_open s p);
  break_lease_ret s i fl : status (break_lease s i fl);
  put_file_access_ok s p f h :
    v_files s !! p = Some f -> v_held s = access_refs p f ++ h ->
    wp (put_file_access p) (fun _ s' => s' = s <| v_held := h |>) s;
  alloc_empty_file_ok s flags : vfs_wf s -> wp (alloc_empty_file flags) (allocated s) s;
  alloc_empty_file_noaccount_ok s flags : vfs_wf s -> wp (alloc_empty_file_noaccount flags) (allocated s) s;
  vfs_create_ok s pa mode : vfs_wf s ->
    wp (vfs_create pa mode) (fun r s' => status r /\ let_go (v_held s) s s' /\ v_files s' = v_files s /\
      (r = 0 -> is_Some (v_dentries s' !! p_dentry pa))) s;
  fput_open s p h : vfs_wf s -> v_held s = FileRef p :: h -> wp (fput p) (fun _ => let_go h s) s;
  __fput_sync_open s p h : vfs_wf s -> v_held s = FileRef p :: h -> wp (__fput_sync p) (fun _ => let_go h s) s;
  (* a file nobody else has seen, opened or not *)
  fput_new s p f h : vfs_wf s -> v_files s !! p = Some f ->
    v_held s = (if has (f_mode f) FMODE_OPENED then file_refs p f ++ [PathRef (f_path f)] else [])
               ++ NewFile p :: h ->
    wp (fput p) (fun _ => let_go h s) s;
  do_filp_open_ok s dfd name op : vfs_wf s -> wp (do_filp_open dfd name op) (found s) s;
  do_file_open_root_ok s root name op : vfs_wf s -> wp (do_file_open_root root name op) (found s) s;
  getname_ret s a : if getname s a is inl e then is_errno e else True;
  getname_kernel_ret s a : if getname_kernel s a is inl e then is_errno e else True;
  get_unused_fd_ret s fl :
    is_errno (get_unused_fd_flags s fl) \/
    0 <= get_unused_fd_flags s fl /\ v_fdt s !! get_unused_fd_flags s fl = None;
  __close_range_ok s fd max_fd flags : vfs_wf s ->
    wp (__close_range fd max_fd flags) (fun r s' => status r /\ vfs_wf s' /\ v_held s' = v_held s /\
      v_fdt s' ⊆ v_fdt s) s;
}.

(** ** Mode bits *)
(** Bits outside of [b] survive clearing [b]. *)
Lemma land_clear m b x : Z.land b x = 0 -> Z.land (Z.land m (Z.lnot b)) x = Z.land m x.
Proof.
  intros Hb. rewrite <- Z.land_assoc. f_equal. apply Z.bits_inj'. intros i Hi.
  apply (f_equal (fun z => Z.testbit z i)) in Hb. rewrite Z.land_spec, Z.bits_0 in Hb.
  rewrite Z.land_spec, Z.lnot_spec by done. by destruct (Z.testbit b i), (Z.testbit x i).
Qed.
Lemma land_set m b x : Z.land b x = 0 -> Z.land (Z.lor b m) x = Z.land m x.
Proof. intros Hb. by rewrite Z.land_lor_distr_l, Hb. Qed.
(** Words that agree on [b] agree on every part of it. *)
Lemma land_part m m' b x : Z.land m' b = Z.land m b -> Z.land b x = x -> Z.land m' x = Z.land m x.
Proof. intros Hm Hx. by rewrite <- Hx, !Z.land_assoc, Hm. Qed.
Lemma has_part m m' b x : Z.land m' b = Z.land m b -> Z.land b x = x -> has m' x = has m x.
Proof. intros Hm Hx. unfold has. by erewrite land_part. Qed.

(** ** Opening a file *)
Section OpenLemmas.
Context `{UserArch} `{OpenEnvOk}.
Implicit Types (s : vfs) (p : Z) (f : file) (pa : path).

#[global] Instance kept_pre : PreOrder kept.
Proof.
  split; [by split|]. intros s1 s2 s3 [Hf1 Hp1 Hc1] [Hf2 Hp2 Hc2]. split; try congruence.
  intros fd p Hp. rewrite (Hp2 fd) by by rewrite Hf1. by apply (Hp1 fd).
Qed.
#[global] Instance frame_kept : Frame kept.
Proof. split; [apply _|]. intros s s' [Hf Ht Hc _ _ _ _ _]. split; [done|by rewrite Hf|done]. Qed.
Lemma outside_kept s s' : outside s s' -> kept s s'.
Proof. intros Ho. by apply frame_still, outside_still. Qed.

Lemma new_apart s p fd : vfs_wf s -> NewFile p ∈ v_held s -> v_fdt s !! fd <> Some p.
Proof. intros Hs Hp. by apply (vw_new s Hs p). Qed.

(** Nobody else sees a new file: any value may be stored in it. *)
Lemma wf_put_new s p f' : vfs_wf s -> NewFile p ∈ v_held s -> vfs_wf (s <| v_files ::= <[p := f']> |>).
Proof.
  intros Hs Hp. destruct (vw_new s Hs p Hp) as ([f Hf] & Hfd & Hh).
  assert (forall q, q <> p -> (exists g, open_file s q g) -> exists g, open_file (s <| v_files ::= <[p := f']> |>) q g) as Ho.
  { intros q Hne [g []]. exists g. split; cbn; try done. by rewrite lookup_insert_ne. }
  destruct Hs as [? ? Ht Hl ? ? ? ? Hn ?]. split; cbn; try done.
  - intros fd q Hq. apply Ho; [|by eapply Ht]. intros ->. by eapply Hfd.
  - intros q Hq. apply Ho; [|by eapply Hl]. by intros ->.
  - intros q Hq. destruct (Hn q Hq) as (? & ? & ?). split_and!; try done.
    rewrite lookup_insert. by case_decide.
Qed.
Lemma kept_put_new s p f' : vfs_wf s -> NewFile p ∈ v_held s -> kept s (s <| v_files ::= <[p := f']> |>).
Proof.
  intros Hs Hp. split; [done| |done]. intros fd q Hq. cbn. rewrite lookup_insert_ne; [done|].
  intros <-. by eapply new_apart.
Qed.

Lemma wf_acquire_path s pa : vfs_wf s -> is_Some (v_dentries s !! p_dentry pa) -> vfs_wf (s <| v_held ::= cons (PathRef pa) |>).
Proof.
  intros [? ? Ht Hl ? ? ? Hp Hn ?] Hd. split; cbn; try done.
  - intros fd q Hq. destruct (Ht _ _ Hq) as [g []]. by exists g.
  - intros q Hq. destruct (Hl q) as [g []]; [|by exists g].
    destruct Hq as [Hq|Hq]; apply elem_of_cons in Hq as [|]; try done; [by left|by right].
  - intros q [[= <-]|Hq]%elem_of_cons; auto.
  - intros q [|Hq]%elem_of_cons; [done|]. destruct (Hn q Hq) as (? & ? & Hno). split_and!; try done.
    intros Hh. apply Hno. destruct Hh as [Hh|Hh]; apply elem_of_cons in Hh as [|]; try done; [by left|by right].
Qed.

Lemma wf_drop s d h : vfs_wf s -> v_held s = d ++ h -> vfs_wf (s <| v_held := h |>).
Proof.
  revert s. induction d as [|r d IH]; intros s Hw Hh.
  - by destruct s; cbn in *; subst.
  - specialize (IH (s <| v_held := d ++ h |>)). cbn in IH. apply IH; [by eapply vfs_wf_held|done].
Qed.

(** The bits [put_file_access] looks at. *)
Definition ACCESS_BITS : Z := Z.lor FMODE_READ (Z.lor FMODE_WRITE (Z.lor FMODE_WRITER FMODE_BACKING)).

Lemma access_refs_eq p f f' :
  Z.land (f_mode f') ACCESS_BITS = Z.land (f_mode f) ACCESS_BITS -> f_path f' = f_path f -> f_inode f' = f_inode f ->
  access_refs p f' = access_refs p f.
Proof.
  intros Hm Hp Hi. unfold access_refs, write_refs. rewrite Hp, Hi.
  rewrite (land_part (f_mode f) (f_mode f') ACCESS_BITS (Z.lor FMODE_READ FMODE_WRITE)) by done.
  by rewrite !(has_part (f_mode f) (f_mode f') ACCESS_BITS) by done.
Qed.

Definition reads f : bool := has (f_mode f) FMODE_READ
  && bool_decide (is_Some (fop_read (f_op f)) \/ is_Some (fop_read_iter (f_op f))).
Definition writes f : bool := has (f_mode f) FMODE_WRITE
  && bool_decide (is_Some (fop_write (f_op f)) \/ is_Some (fop_write_iter (f_op f))).
Definition seeks f : bool := has (f_mode f) FMODE_LSEEK && negb (bool_decide (is_Some (fop_llseek (f_op f)))).

Lemma finish_mode dio f :
  f_mode (finish_file dio f) =
  Z.lor (if dio then FMODE_CAN_ODIRECT else 0)
    (Z.land (Z.lor (if writes f then FMODE_CAN_WRITE else 0)
               (Z.lor (if reads f then FMODE_CAN_READ else 0) (Z.lor FMODE_OPENED (f_mode f))))
       (Z.lnot (if seeks f then FMODE_LSEEK else 0))).
Proof.
  unfold finish_file, or_mode. cbn. rewrite has_lor_l. change (has FMODE_OPENED FMODE_READ || ?b) with b.
  fold (reads f). destruct (reads f); cbn; rewrite !has_lor_l;
    change (has FMODE_CAN_READ FMODE_WRITE || ?b) with b;
    change (has FMODE_OPENED FMODE_WRITE || ?b) with b; fold (writes f);
    destruct (writes f); cbn; rewrite !has_lor_l;
    change (has FMODE_CAN_READ FMODE_LSEEK || ?b) with b;
    change (has FMODE_CAN_WRITE FMODE_LSEEK || ?b) with b;
    change (has FMODE_OPENED FMODE_LSEEK || ?b) with b; fold (seeks f);
    destruct (seeks f), dio; cbn [f_mode]; rewrite ?Z.lor_0_l, ?Z.land_m1_r; try done.
Qed.


Lemma finish_has dio f x : Z.land FMODE_LSEEK x = 0 ->
  has (f_mode (finish_file dio f)) x =
  dio && has FMODE_CAN_ODIRECT x || (writes f && has FMODE_CAN_WRITE x ||
    (reads f && has FMODE_CAN_READ x || (has FMODE_OPENED x || has (f_mode f) x))).
Proof.
  intros Hx. rewrite finish_mode, has_lor_l. f_equal; [by destruct dio|].
  unfold has at 1. rewrite land_clear by (by destruct (seeks f)).
  change (has (Z.lor (if writes f then FMODE_CAN_WRITE else 0)
    (Z.lor (if reads f then FMODE_CAN_READ else 0) (Z.lor FMODE_OPENED (f_mode f)))) x = 
    writes f && has FMODE_CAN_WRITE x || (reads f && has FMODE_CAN_READ x || (has FMODE_OPENED x || has (f_mode f) x))).
  rewrite !has_lor_l. by destruct (writes f), (reads f).
Qed.
Lemma finish_seek dio f :
  has (f_mode (finish_file dio f)) FMODE_LSEEK = true -> is_Some (fop_llseek (f_op f)).
Proof.
  rewrite finish_mode, has_lor_l. destruct (seeks f) eqn:Hs.
  - unfold has at 2. rewrite <- Z.land_assoc, Z.land_comm. by destruct dio.
  - rewrite Z.land_m1_r, !has_lor_l. destruct (has (f_mode f) FMODE_LSEEK) eqn:Hl.
    + unfold seeks in Hs. rewrite Hl in Hs. cbn in Hs. by apply negb_false_iff, bool_decide_eq_true in Hs.
    + by destruct dio, (writes f), (reads f).
Qed.

(** What the mode promises, the operations have. *)
Lemma finish_file_wf dio f :
  has (f_mode f) FMODE_CAN_READ = false -> has (f_mode f) FMODE_CAN_WRITE = false -> is_s64 (f_pos f) ->
  file_wf (finish_file dio f).
Proof.
  intros Hr Hw Hp. assert (f_op (finish_file dio f) = f_op f /\ f_pos (finish_file dio f) = f_pos f) as [Hop Hpos]
    by (unfold finish_file, or_mode; cbn; by repeat case_match).
  split; rewrite ?Hop, ?Hpos; [| |apply finish_seek|done]; rewrite !finish_has by done.
  - rewrite Hr. destruct (reads f) eqn:Hre; [|by destruct dio, (writes f)]. intros _.
    apply andb_true_iff in Hre as [-> ?%bool_decide_eq_true]. split; [|done]. by destruct dio, (writes f).
  - rewrite Hw. destruct (writes f) eqn:Hre; [|by destruct dio, (reads f)]. intros _.
    apply andb_true_iff in Hre as [-> ?%bool_decide_eq_true]. split; [|done]. by destruct dio, (reads f).
Qed.

Lemma finish_access dio f p :
  access_refs p (finish_file dio f) = access_refs p f.
Proof.
  apply access_refs_eq; [|unfold finish_file, or_mode; cbn; by repeat case_match..].
  rewrite finish_mode, land_set, land_clear by (by destruct dio, (seeks f)).
  by rewrite !land_set by (by destruct (writes f), (reads f)).
Qed.

(** A file in the middle of [do_dentry_open]: [d] is held for it besides its path. *)
Record mid_open (s0 : vfs) (ino : Z) pa p (h d : list resource) f s : Prop := {
  og_wf : vfs_wf s;
  og_held : v_held s = d ++ PathRef pa :: NewFile p :: h;
  og_file : v_files s !! p = Some f;
  og_kept : kept s0 s;
  og_dentry : v_dentries s !! p_dentry pa = Some ino;
  og_path : f_path f = pa;
  og_inode : f_inode f = ino;
  og_mapping : is_Some (v_mappings s !! f_mapping f);
}.

(** [sb] is the state before, [f0] the new file, [i0] the inode and [open0] the method given. *)
Context (s0 sb : vfs) (ino : Z) (pa : path) (p : Z) (h : list resource).
Context (f0 : file) (i0 : inode) (open0 : option (Z -> Z -> Kern vfs Z)).
Notation opening := (mid_open s0 ino pa p h).

Lemma opening_new d f s : opening d f s -> NewFile p ∈ v_held s.
Proof. intros [_ -> _ _ _ _ _ _]. set_solver. Qed.

Lemma opening_put d f f' s :
  opening d f s -> f_path f' = f_path f -> f_inode f' = f_inode f -> is_Some (v_mappings s !! f_mapping f') ->
  opening d f' (s <| v_files ::= <[p := f']> |>).
Proof.
  intros Ho Hpa Hi Hm. pose proof (opening_new _ _ _ Ho) as Hn. destruct Ho. split; cbn; try done; try congruence.
  - by apply wf_put_new.
  - by rewrite lookup_insert_eq.
  - etrans; [done|]. by apply kept_put_new.
Qed.

Lemma opening_acquire r d f s : plain r -> opening d f s -> opening (r :: d) f (s <| v_held ::= cons r |>).
Proof.
  intros Hr []. pose proof (good_acquire (R := same_table) [] r Hr s (v_held s)) as Hg.
  unfold acquire in Hg. rewrite wp_modify in Hg.
  split; try done; [by apply Hg|by cbn; rewrite og_held0|]. by etrans; [|apply frame_still; split].
Qed.

Lemma opening_release r d f s :
  opening (r :: d) f s -> opening d f (s <| v_held := d ++ PathRef pa :: NewFile p :: h |>).
Proof. intros []. split; try done; [by eapply vfs_wf_held|]. by etrans; [|apply frame_still; split]. Qed.

Lemma opening_outside d f s s' : opening d f s -> outside s s' -> opening d f s'.
Proof.
  intros [] Ho. pose proof (outside_wf _ _ og_wf0 Ho). pose proof (outside_kept _ _ Ho).
  destruct Ho as [_ _ _ Hf _ _ Hm Hd _ Hh _ _]. split; try done.
  - by rewrite Hh.
  - by rewrite Hf.
  - by etrans.
  - by rewrite Hd.
  - specialize (Hm (f_mapping f)). destruct og_mapping0 as [m Hm']. rewrite Hm' in Hm.
    destruct (v_mappings s' !! f_mapping f); [eauto|done].
Qed.

Lemma wp_release_head r s l (Q : unit -> vfs -> Prop) :
  v_held s = r :: l -> Q tt (s <| v_held := l |>) -> wp (release r) Q s.
Proof.
  intros Hh HQ. unfold release. autorewrite with wp. rewrite Hh. cbn. by rewrite decide_True by done.
Qed.

(** Apart from the file and the ledger, the state is still the one before. *)
Definition en_route s : Prop := exists l g, s = sb <| v_held := l |> <| v_files ::= <[p := g]> |>.
Lemma en_route_held s l : en_route s -> en_route (s <| v_held := l |>).
Proof. intros (l' & g & ->). by exists l, g. Qed.
Lemma en_route_put s g : en_route s -> en_route (s <| v_files ::= <[p := g]> |>).
Proof. intros (l & g' & ->). exists l, g. unfold update_field. cbn. by rewrite insert_insert_eq. Qed.
Lemma en_route_acquire s r : en_route s -> en_route (s <| v_held ::= cons r |>).
Proof. intros (l & g & ->). by exists (r :: l), g. Qed.

(** What the mode asked for needs: readers are counted, and writing to anything but a device, a pipe or
    a socket needs write access to the inode and to the mount (or both mounts). *)
Definition wants_write : bool := has (f_mode f0) FMODE_WRITE && negb (special_file (i_mode i0)).
Definition needed_refs : list resource :=
  if has (f_mode f0) FMODE_READ && negb (has (f_mode f0) FMODE_WRITE) then [ReadCount ino]
  else if wants_write then
    (if has (f_mode f0) FMODE_BACKING then [MntAccess (p_mnt (backing_file_user_path p))] else [])
    ++ [MntAccess (p_mnt pa); WriteAccess ino]
  else [].

(** Why a file is not opened: something said no. *)
Inductive open_error : Z -> Prop :=
| no_write_access s r : en_route s -> wants_write = true -> get_write_access s ino = r -> r <> 0 -> open_error r
| no_mount_access s mnt r : en_route s -> wants_write = true ->
    mnt = p_mnt pa \/ has (f_mode f0) FMODE_BACKING = true /\ mnt = p_mnt (backing_file_user_path p) ->
    mnt_get_write_access s mnt = r -> r <> 0 -> open_error r
| no_module s : en_route s -> fops_get s (i_fop i0) = 0 -> open_error (- ENODEV)
| not_permitted s r : en_route s -> security_file_open s p = r -> r <> 0 -> open_error r
| leased s r : en_route s -> break_lease s ino (f_flags f0) = r -> r <> 0 -> open_error r
| method_failed s s' o e : en_route s -> (if open0 is Some o then Some o else fop_open (i_fop i0)) = Some o ->
    o ino p s = Done e s' -> e <> 0 -> open_error (if 0 <? e then - EINVAL else e).

(** [do_dentry_open] gave up: everything is as before. *)
Definition open_failed (r : Z) s : Prop :=
  is_errno r /\ vfs_wf s /\ kept s0 s /\ v_held s = NewFile p :: h /\
  (has (f_flags f0) O_PATH = false /\ open_error r) /\
  exists f, v_files s !! p = Some f /\ f_inode f = 0 /\ f_path f = mkPath 0 0 /\ has (f_mode f) FMODE_OPENED = false.

(** It opened the file [f], which is ready for use and owns what it needs.  The result is 0, or
    [-EINVAL] if direct access was asked for and is not supported; it is the caller that then
    gives the file back. *)
Record file_opened (r : Z) f s : Prop := {
  fo_file : open_file s p f;
  fo_opened : has (f_mode f) FMODE_OPENED = true;
  fo_inode : f_inode f = ino;
  fo_path : f_path f = pa;
  fo_mode : if has (f_flags f0) O_PATH then f_mode f = Z.lor FMODE_PATH FMODE_OPENED /\ f_op f = empty_fops
    else f_op f <> 0 /\ has (f_mode f) FMODE_PATH = false /\
      has (f_mode f) FMODE_READ = has (f_mode f0) FMODE_READ /\ has (f_mode f) FMODE_WRITE = has (f_mode f0) FMODE_WRITE /\
      has (f_mode f) FMODE_WRITER = wants_write /\
      has (f_mode f) FMODE_CAN_READ = has (f_mode f0) FMODE_READ
        && bool_decide (is_Some (fop_read (f_op f)) \/ is_Some (fop_read_iter (f_op f))) /\
      has (f_mode f) FMODE_CAN_WRITE = has (f_mode f0) FMODE_WRITE
        && bool_decide (is_Some (fop_write (f_op f)) \/ is_Some (fop_write_iter (f_op f))) /\
      (forall m, v_mappings s !! f_mapping f = Some m -> direct_IO m = true -> has (f_mode f) FMODE_CAN_ODIRECT = true);
  fo_result : r = if negb (has (f_flags f0) O_PATH) && has (f_flags f) O_DIRECT && negb (has (f_mode f) FMODE_CAN_ODIRECT)
                  then - EINVAL else 0;
  fo_held : v_held s = (if has (f_flags f0) O_PATH then [] else FopsRef (f_op f) :: needed_refs) ++ PathRef pa :: NewFile p :: h;
  fo_refs : v_held s = file_refs p f ++ PathRef pa :: NewFile p :: h;
}.
Definition open_done (r : Z) s : Prop := vfs_wf s /\ kept s0 s /\ exists f, file_opened r f s.

Lemma cleanup_file_spec f s e :
  opening [] f s -> has (f_mode f) FMODE_OPENED = false -> is_errno e -> has (f_flags f0) O_PATH = false -> open_error e ->
  wp (cleanup_file p e) open_failed s.
Proof.
  intros Ho Hm He Hnp Hwhy. destruct Ho as [Hw Hh Hf Hk Hd Hpa Hi _].
  unfold cleanup_file, path_put, put_file. rewrite wp_bind, wp_file_at by done. rewrite wp_bind.
  eapply wp_release_head; [by rewrite Hpa|]. autorewrite with wp.
  assert (vfs_wf (s <| v_held := NewFile p :: h |>)) as Hw' by by eapply vfs_wf_held.
  split; [done|]. split_and!; [apply wf_put_new; [done|set_solver]| |done|done|done|].
  - etrans; [done|]. etrans; [|apply kept_put_new; [done|set_solver]]. apply frame_still. by split.
  - eexists. split_and!; [cbn; by rewrite lookup_insert_eq|done|done|done].
Qed.

Lemma fops_put_spec f d s :
  opening (fops_refs f ++ d) f s -> wp (fops_put (f_op f)) (fun _ s' => opening d f s') s.
Proof.
  unfold fops_put, fops_refs. destruct (f_op f =? 0); [by rewrite wp_ret|]. intros Ho.
  eapply wp_release_head; [apply Ho|]. by apply opening_release in Ho.
Qed.

Lemma cleanup_all_spec f s e :
  opening (fops_refs f ++ access_refs p f) f s -> has (f_mode f) FMODE_OPENED = false -> - 4095 <= e -> truthy e = true ->
  has (f_flags f0) O_PATH = false -> open_error (if 0 <? e then - EINVAL else e) ->
  wp (cleanup_all p e) open_failed s.
Proof.
  intros Ho Hm He Ht Hnp Hwhy. unfold cleanup_all. rewrite wp_bind, wp_file_at, wp_bind by apply Ho.
  eapply wp_mono; [|by apply fops_put_spec]. intros [] s1 Ho1. cbv beta in Ho1. rewrite wp_bind.
  eapply wp_mono; [|eapply (put_file_access_ok s1 p f); apply Ho1]. intros [] s' ->.
  apply (cleanup_file_spec f); [|done| |done|done].
  - destruct Ho1 as [Hw Hh Hf Hk Hd Hpa Hi Hmap]. split; try done.
    + by eapply wf_drop.
    + etrans; [done|]. apply frame_still. by split.
  - unfold is_errno, EINVAL. apply truthy_true in Ht. destruct (Z.ltb_spec 0 e); lia.
Qed.

Lemma errno_truthy e : is_errno e -> truthy e = true.
Proof. intros He. apply truthy_true. unfold is_errno in He. lia. Qed.

(** A call that grants and then holds [r], within [do_dentry_open]. *)
Lemma try_acquire_spec st r d f s :
  (forall s, status (st s)) -> plain r -> opening d f s -> en_route s ->
  wp (try_acquire st r) (fun e s' => en_route s' /\
    (e = 0 /\ opening (r :: d) f s' \/ is_errno e /\ e = st s /\ opening d f s')) s.
Proof.
  intros Hst Hr Ho Hen. unfold try_acquire, acquire. rewrite wp_bind, wp_gets. pose proof (Hst s) as Hs.
  destruct (truthy (st s)) eqn:Ht; [rewrite wp_ret; split; [done|]; right; split_and!; [by apply truthy_status|done|done]|].
  autorewrite with wp. split; [by apply en_route_acquire|]. left. split; [done|by apply opening_acquire].
Qed.

Lemma release_spec r d f s :
  opening (r :: d) f s -> en_route s -> wp (release r) (fun _ s' => en_route s' /\ opening d f s') s.
Proof.
  intros Ho Hen. eapply wp_release_head; [apply Ho|]. split; [by apply en_route_held|]. by apply opening_release in Ho.
Qed.

Lemma write_access_spec f s :
  opening [] f s -> en_route s -> wants_write = true -> f_mode f = f_mode f0 ->
  wp (file_get_write_access p f) (fun e s' => en_route s' /\
    (e = 0 /\ opening (write_refs p f) f s' \/ is_errno e /\ open_error e /\ opening [] f s')) s.
Proof.
  intros Ho Hen Hww Hmode. pose proof (og_inode _ _ _ _ _ _ _ _ Ho) as Hino. pose proof (og_path _ _ _ _ _ _ _ _ Ho) as Hpath.
  assert (forall e, is_errno e -> e <> 0) as Hnz by (unfold is_errno; lia).
  unfold file_get_write_access, write_refs. rewrite wp_bind.
  eapply wp_mono; [|apply try_acquire_spec; [intros; apply get_write_access_ret|done|done|done]].
  intros e1 s1 [En1 [[-> Ho1]|(He & Ee & Ho1)]].
  2: { rewrite (errno_truthy e1 He), wp_ret. split; [done|]. right. split_and!; try done.
       apply (no_write_access s); [done|done|by rewrite Ee, Hino|by apply Hnz]. }
  change (truthy 0) with false; cbv iota. rewrite wp_bind.
  eapply wp_mono; [|apply try_acquire_spec; [intros; apply mnt_get_write_access_ret|done|done|done]].
  intros e2 s2 [En2 [[-> Ho2]|(He & Ee & Ho2)]].
  2: { rewrite (errno_truthy e2 He), wp_bind. eapply wp_mono; [|by apply release_spec].
       intros ? s3 [En3 Ho3]. rewrite wp_ret. split; [done|]. right. split_and!; try done.
       eapply (no_mount_access s1); [done|done|by left|by rewrite Ee, Hpath|by apply Hnz]. }
  change (truthy 0) with false; cbv iota. destruct (has (f_mode f) FMODE_BACKING) eqn:Hback; [|rewrite wp_ret; split; [done|by left]]. rewrite wp_bind.
  eapply wp_mono; [|apply try_acquire_spec; [intros; apply mnt_get_write_access_ret|done|done|done]].
  intros e3 s3 [En3 [[-> Ho3]|(He & Ee & Ho3)]]; [change (truthy 0) with false; cbv iota; rewrite wp_ret; split; [done|by left]|].
  rewrite (errno_truthy e3 He), wp_bind. eapply wp_mono; [|by apply release_spec].
  intros ? s4 [En4 Ho4]. rewrite wp_bind. eapply wp_mono; [|by apply release_spec].
  intros ? s5 [En5 Ho5]. rewrite wp_ret. split; [done|]. right. split_and!; try done.
  eapply (no_mount_access s2); [done|done|right; by rewrite <- Hmode|done|by apply Hnz].
Qed.

Lemma read_only_bits m : (Z.land m (Z.lor FMODE_READ FMODE_WRITE) =? FMODE_READ) = has m FMODE_READ && negb (has m FMODE_WRITE).
Proof.
  change FMODE_READ with (2 ^ 0). change FMODE_WRITE with (2 ^ 1). rewrite !has_single by done.
  destruct (Z.testbit m 0) eqn:E0, (Z.testbit m 1) eqn:E1; [apply Z.eqb_neq|apply Z.eqb_eq|apply Z.eqb_neq..].
  1,3,4: intros E; pose proof (f_equal (fun z => Z.testbit z 0) E) as F0; pose proof (f_equal (fun z => Z.testbit z 1) E) as F1;
    cbv beta in F0, F1; rewrite !Z.land_spec in F0, F1; by rewrite ?E0, ?E1 in *.
  apply Z.bits_inj'. intros k Hk. rewrite Z.land_spec, Z.lor_spec, !Z.pow2_bits_eqb by done.
  destruct (Z.eqb_spec 0 k) as [<-|]; [by rewrite E0|]. destruct (Z.eqb_spec 1 k) as [<-|]; [by rewrite E1|]. apply andb_false_r.
Qed.

(** The mode with the mark of a writer, and what goes with it. *)
Definition marked f : file := if wants_write then f <| f_mode ::= Z.lor FMODE_WRITER |> else f.
Lemma marked_has f x : Z.land FMODE_WRITER x = 0 -> has (f_mode (marked f)) x = has (f_mode f) x.
Proof. intros Hx. unfold marked. destruct wants_write; [|done]. unfold has. cbn. by rewrite land_set. Qed.
Lemma marked_writer f : has (f_mode f) FMODE_WRITER = false -> has (f_mode (marked f)) FMODE_WRITER = wants_write.
Proof. intros Hf. unfold marked. destruct wants_write; [|done]. cbn. by rewrite has_lor_l. Qed.
Lemma marked_same f :
  f_path (marked f) = f_path f /\ f_inode (marked f) = f_inode f /\ f_mapping (marked f) = f_mapping f /\ f_pos (marked f) = f_pos f.
Proof. unfold marked. by destruct wants_write. Qed.

Lemma marked_refs f :
  f_mode f = f_mode f0 -> has (f_mode f) FMODE_WRITER = false -> f_path f = pa -> f_inode f = ino ->
  access_refs p (marked f) = needed_refs.
Proof.
  intros Hm Hnw Hp Hi. destruct (marked_same f) as (Ep & Ei & _). unfold access_refs, write_refs, needed_refs.
  rewrite read_only_bits, marked_writer, !marked_has, Ep, Ei, Hm, Hp, Hi by done. done.
Qed.

(** The access the mode needs is held, or nothing is. *)
Lemma open_access_spec f s :
  opening [] f s -> en_route s -> new_file f -> f_mode f = f_mode f0 ->
  wp (open_access p f i0) (fun e s' =>
    (e = 0 /\ en_route s' /\ opening needed_refs (marked f) s') \/
    (is_errno e /\ open_error e /\ opening [] f s')) s.
Proof.
  intros Ho Hen [Hb _] Hmode. pose proof (og_path _ _ _ _ _ _ _ _ Ho) as Hpath. pose proof (og_inode _ _ _ _ _ _ _ _ Ho) as Hino.
  assert (has (f_mode f) FMODE_WRITER = false) as Hnw.
  { rewrite (has_part 0 (f_mode f) _ FMODE_WRITER (eq_trans Hb eq_refl)) by done. done. }
  pose proof (marked_refs f Hmode Hnw Hpath Hino) as Hrefs.
  unfold open_access. rewrite read_only_bits, Hmode. fold wants_write.
  destruct (has (f_mode f0) FMODE_READ && negb (has (f_mode f0) FMODE_WRITE)) eqn:Hro.
  - unfold acquire. autorewrite with wp. left. split; [done|]. split; [by apply en_route_acquire|].
    assert (marked f = f) as ->.
    { unfold marked, wants_write. apply andb_true_iff in Hro as [_ ->%negb_true_iff]. done. }
    unfold needed_refs. rewrite Hro, Hino. by apply opening_acquire.
  - destruct wants_write eqn:Hww.
    + rewrite wp_bind. eapply wp_mono; [|by apply write_access_spec]. intros e s1 [En1 [[-> Ho1]|(He & Hwhy & Ho1)]].
      2: { rewrite (errno_truthy e He), wp_ret. by right. }
      change (truthy 0) with false; cbv iota. unfold put_file. autorewrite with wp. left. split; [done|]. split; [by apply en_route_put|].
      assert (write_refs p f = needed_refs) as E.
      { unfold needed_refs, write_refs. by rewrite Hro, Hww, Hmode, Hpath, Hino. }
      rewrite E in Ho1. unfold marked. rewrite Hww. eapply opening_put; [done|done|done|]. apply Ho1.
    + rewrite wp_ret. left. split; [done|]. split; [done|]. unfold marked, needed_refs. by rewrite Hro, Hww.
Qed.

(** A file whose [open] succeeded, before its mode is completed. *)
Record ready_file f : Prop := {
  rf_read : has (f_mode f) FMODE_READ = has (f_mode f0) FMODE_READ;
  rf_write : has (f_mode f) FMODE_WRITE = has (f_mode f0) FMODE_WRITE;
  rf_writer : has (f_mode f) FMODE_WRITER = wants_write;
  rf_path : has (f_mode f) FMODE_PATH = false;
  rf_can_read : has (f_mode f) FMODE_CAN_READ = false;
  rf_can_write : has (f_mode f) FMODE_CAN_WRITE = false;
  rf_refs : access_refs p f = needed_refs;
  rf_op : f_op f <> 0;
  rf_pos : is_s64 (f_pos f);
}.

Lemma finish_opened dio f s r :
  ready_file f -> has (f_flags f0) O_PATH = false -> opening (FopsRef (f_op f) :: needed_refs) (finish_file dio f) s ->
  (forall m, v_mappings s !! f_mapping f = Some m -> direct_IO m = dio) ->
  r = (if has (f_flags (finish_file dio f)) O_DIRECT && negb (has (f_mode (finish_file dio f)) FMODE_CAN_ODIRECT) then - EINVAL else 0) ->
  file_opened r (finish_file dio f) s.
Proof.
  intros [] Hnp Ho Hdio Hr. set (f' := finish_file dio f) in *.
  assert (f_op f' = f_op f /\ f_mapping f' = f_mapping f) as [Eop Emap]
    by (unfold f', finish_file, or_mode; cbn; by repeat case_match).
  assert (forall x, Z.land FMODE_LSEEK x = 0 -> has (f_mode f') x =
    dio && has FMODE_CAN_ODIRECT x || (writes f && has FMODE_CAN_WRITE x ||
    (reads f && has FMODE_CAN_READ x || (has FMODE_OPENED x || has (f_mode f) x)))) as Hhas by (intros; by apply finish_has).
  assert (access_refs p f' = needed_refs) as Hrefs by (unfold f'; by rewrite finish_access).
  assert (has (f_mode f') FMODE_PATH = false) as Hpath by (rewrite Hhas by done; rewrite rf_path0; by destruct dio, (writes f), (reads f)).
  destruct Ho as [Hw Hh Hf Hk Hd Hpa Hi Hmp]. split; rewrite ?Hnp; try done.
  - split; try done; [by apply finish_file_wf|by rewrite Hi; eapply vw_dentry|by rewrite Hpa, Hi].
  - rewrite Hhas by done. by destruct dio, (writes f), (reads f).
  - rewrite Eop, !Hhas, rf_read0, rf_write0, rf_writer0, rf_can_read0, rf_can_write0, rf_path0 by done. has_const.
    rewrite !andb_false_r, !andb_true_r, !orb_false_r, !orb_false_l. unfold reads, writes. rewrite rf_read0, rf_write0.
    split_and!; try done. rewrite Emap. intros m Hm Hdm. rewrite (Hdio m Hm) in Hdm. by rewrite Hdm.
  - by rewrite Eop.
  - unfold file_refs, fops_refs. rewrite Hpath, Hrefs, Eop. by rewrite (proj2 (Z.eqb_neq _ _) rf_op0).
Qed.

Lemma open_finish_spec f s :
  opening (FopsRef (f_op f) :: needed_refs) f s -> ready_file f -> has (f_flags f0) O_PATH = false ->
  wp (open_finish p ino) open_done s.
Proof.
  intros Ho Hrf Hnp. pose proof (og_mapping _ _ _ _ _ _ _ _ Ho) as [m Hm].
  pose proof (vw_dentry _ (og_wf _ _ _ _ _ _ _ _ Ho) _ _ (og_dentry _ _ _ _ _ _ _ _ Ho)) as [i Hi].
  destruct (vw_inode _ (og_wf _ _ _ _ _ _ _ _ Ho) _ _ Hi) as [_ [im Him]].
  destruct (vw_mapping _ (og_wf _ _ _ _ _ _ _ _ Ho) _ _ Hm) as [hi Hhi].
  unfold open_finish. rewrite wp_bind, wp_file_at by apply Ho. rewrite wp_bind, wp_mapping_at by done. cbv zeta.
  assert (f_path (finish_file (direct_IO m) f) = f_path f /\ f_inode (finish_file (direct_IO m) f) = f_inode f /\
    f_mapping (finish_file (direct_IO m) f) = f_mapping f) as (Hpa & Hin & Hmp)
    by (unfold finish_file, or_mode; cbn; by repeat case_match).
  assert (forall s' r, opening (FopsRef (f_op f) :: needed_refs) (finish_file (direct_IO m) f) s' -> v_mappings s' = v_mappings s ->
    r = (if has (f_flags (finish_file (direct_IO m) f)) O_DIRECT && negb (has (f_mode (finish_file (direct_IO m) f)) FMODE_CAN_ODIRECT)
         then - EINVAL else 0) -> open_done r s') as Hdone.
  { intros s' r Ho' Hms Hr. split; [apply Ho'|]. split; [apply Ho'|]. eexists. apply finish_opened; try done.
    rewrite Hms. intros m' Hm'. rewrite Hm in Hm'. by simplify_eq. }
  unfold put_file. rewrite wp_bind, wp_modify.
  apply (opening_put _ _ (finish_file (direct_IO m) f)) in Ho; [|done|done|by rewrite Hmp].
  rewrite wp_bind, wp_inode_at by done.
  destruct (has (f_flags _) O_DIRECT && _); [rewrite wp_ret; by apply Hdone|].
  rewrite wp_bind, wp_inode_at by done. rewrite wp_bind, wp_mapping_at by done.
  assert (forall e s', opening (FopsRef (f_op f) :: needed_refs) (finish_file (direct_IO m) f) s' ->
    opening (FopsRef (f_op f) :: needed_refs) (finish_file (direct_IO m) f) (s' <| v_events ::= cons e |>)) as Hnote.
  { intros e s' []. pose proof (good_note (R := same_table) [] e s' (v_held s')) as Hg. unfold note in Hg.
    rewrite wp_modify in Hg. split; try done; [by apply Hg|]. by etrans; [|apply frame_still; split]. }
  unfold note. destruct (_ && _); autorewrite with wp; apply Hdone; auto.
Qed.

(** A file that differs from [f] in what an [open] method may change. *)
Record alike f f' : Prop := {
  ak_bits : Z.land (f_mode f') OWN_BITS = Z.land (f_mode f) OWN_BITS;
  ak_path : f_path f' = f_path f;
  ak_inode : f_inode f' = f_inode f;
  ak_pos : is_s64 (f_pos f');
}.
Lemma alike_or f cond bits : is_s64 (f_pos f) -> Z.land bits OWN_BITS = 0 -> alike f (or_mode cond bits f).
Proof. intros Hp Hb. destruct cond; split; try done. cbn. by apply land_set. Qed.
Lemma alike_trans f1 f2 f3 : alike f1 f2 -> alike f2 f3 -> alike f1 f3.
Proof. intros [] []. split; congruence. Qed.
Lemma alike_has f f' x : alike f f' -> Z.land OWN_BITS x = x -> has (f_mode f') x = has (f_mode f) x.
Proof. intros []. by apply has_part. Qed.
Lemma alike_refs f f' : alike f f' -> access_refs p f' = access_refs p f.
Proof. intros []. apply access_refs_eq; [|done|done]. by eapply land_part. Qed.

Definition unopened f : Prop :=
  Z.land (f_mode f) (Z.lor FMODE_PATH (Z.lor FMODE_CAN_READ (Z.lor FMODE_CAN_WRITE FMODE_OPENED))) = 0.
Lemma unopened_has f f' x : unopened f -> alike f f' ->
  Z.land (Z.lor FMODE_PATH (Z.lor FMODE_CAN_READ (Z.lor FMODE_CAN_WRITE FMODE_OPENED))) x = x -> Z.land OWN_BITS x = x ->
  has (f_mode f') x = false.
Proof.
  intros Hb Ha Hx Ho. rewrite (alike_has f f') by done.
  by rewrite (has_part 0 (f_mode f) _ x (eq_trans Hb eq_refl) Hx).
Qed.

(** [f] is the file once the access is granted. *)
Record granted f : Prop := {
  gr_unopened : unopened f;
  gr_refs : access_refs p f = needed_refs;
  gr_read : has (f_mode f) FMODE_READ = has (f_mode f0) FMODE_READ;
  gr_write : has (f_mode f) FMODE_WRITE = has (f_mode f0) FMODE_WRITE;
  gr_writer : has (f_mode f) FMODE_WRITER = wants_write;
}.
Lemma granted_ready f f' : granted f -> alike f f' -> f_op f' <> 0 -> ready_file f'.
Proof.
  intros [] Ha Hop. split; try done; try (by eapply unopened_has); try (by rewrite (alike_has f f')); [|apply Ha].
  by rewrite (alike_refs f f').
Qed.

Section NotPath.
Context (Hnp : has (f_flags f0) O_PATH = false).

Lemma cleanup_alike f f' s e :
  granted f -> opening (fops_refs f' ++ needed_refs) f' s -> alike f f' -> - 4095 <= e -> truthy e = true ->
  open_error (if 0 <? e then - EINVAL else e) ->
  wp (cleanup_all p e) (fun r s' => open_failed r s' \/ open_done r s') s.
Proof.
  intros [] Ho Ha He Ht Hwhy. eapply wp_mono; [intros ? ? ?; by left|]. apply (cleanup_all_spec f'); try done.
  - by rewrite (alike_refs f f'), gr_refs0.
  - by eapply unopened_has.
Qed.

Lemma fops_refs_some f : f_op f <> 0 -> fops_refs f = [FopsRef (f_op f)].
Proof. intros Hop. unfold fops_refs. by rewrite (proj2 (Z.eqb_neq _ _) Hop). Qed.

Lemma opening_swap d f f' s :
  opening (FopsRef (f_op f) :: d) f s -> f_path f' = f_path f -> f_inode f' = f_inode f -> is_Some (v_mappings s !! f_mapping f') ->
  opening (FopsRef (f_op f') :: d) f' (s <| v_files ::= <[p := f']> |> <| v_held := FopsRef (f_op f') :: d ++ PathRef pa :: NewFile p :: h |>).
Proof.
  intros Ho Hpa Hi Hm. apply (opening_put _ _ f') in Ho; try done. apply opening_release in Ho.
  apply (opening_acquire (FopsRef (f_op f'))) in Ho; [|done]. exact Ho.
Qed.

Lemma open_call_spec f f' s (open : option (Z -> Z -> Kern vfs Z)) :
  granted f -> opening (FopsRef (f_op f') :: needed_refs) f' s -> en_route s -> alike f f' -> f_op f' <> 0 ->
  (forall o, open = Some o -> open_method o) -> open = (if open0 is Some o then Some o else fop_open (i_fop i0)) ->
  wp (error ← match open with Some open => open ino p | None => mret 0 end;
      if truthy error then cleanup_all p error else open_finish p ino)
     (fun r s' => open_failed r s' \/ open_done r s') s.
Proof.
  intros Hgr Ho Hen Ha Hop Hopen Eopen. rewrite wp_bind.
  assert (forall s' f'', opening (FopsRef (f_op f'') :: needed_refs) f'' s' -> alike f f'' -> f_op f'' <> 0 ->
    wp (open_finish p ino) (fun r s' => open_failed r s' \/ open_done r s') s') as Hfin.
  { intros s' f'' Ho' Ha' Hop'. eapply wp_mono; [intros ? ? ?; by right|]. apply (open_finish_spec f''); try done.
    by eapply granted_ready. }
  destruct open as [op|]; [|rewrite wp_ret; by eapply Hfin].
  assert (is_Some (v_inodes s !! ino)) as Hino by (eapply vw_dentry; [apply Ho|apply (og_dentry _ _ _ _ _ _ _ _ Ho)]).
  assert (NewFile p ∈ needed_refs ++ PathRef pa :: NewFile p :: h) as Hin by (apply elem_of_app; right; do 2 constructor).
  assert (wp (op ino p) (fun r s' => - 4095 <= r /\ exists s1 g, outside s s1 /\
    s' = s1 <| v_files ::= <[p := g]> |> <| v_held := FopsRef (f_op g) :: needed_refs ++ PathRef pa :: NewFile p :: h |> /\
    f_inode g = f_inode f' /\ f_path g = f_path f' /\ f_op g <> 0 /\ Z.land (f_mode g) OWN_BITS = Z.land (f_mode f') OWN_BITS /\
    is_s64 (f_pos g) /\ is_Some (v_mappings s1 !! f_mapping g)) s) as Hok.
  { apply (Hopen op eq_refl ino p s f'); try done; try apply Ho. apply Ha. }
  apply wp_done in Hok as (e & s' & Hrun & He & s1 & g & Hout & Es' & Hi & Hpa & Hgop & Hbits & Hps & Hm).
  rewrite (wp_run _ _ _ _ _ Hrun).
  pose proof (opening_outside _ _ _ _ Ho Hout) as Ho1. apply (opening_swap _ _ g) in Ho1; try done. rewrite <- Es' in Ho1.
  assert (alike f g) as Hg by (eapply alike_trans; [done|by split]).
  destruct (truthy e) eqn:Ht; [|by eapply Hfin].
  eapply cleanup_alike; [exact Hgr| |exact Hg|done|done|]; [by rewrite fops_refs_some|].
  eapply method_failed; [exact Hen|by rewrite <- Eopen|exact Hrun|by apply truthy_true].
Qed.

Lemma get_fops_spec f s :
  opening needed_refs f s -> en_route s ->
  wp (get_fops (i_fop i0)) (fun op s' => en_route s' /\ op = fops_get s (i_fop i0) /\
    opening ((if op =? 0 then [] else [FopsRef op]) ++ needed_refs) f s') s.
Proof.
  intros Ho Hen. unfold get_fops, acquire. rewrite wp_bind, wp_gets, wp_bind. destruct (_ =? 0) eqn:E0.
  - rewrite wp_ret, wp_ret, E0. done.
  - rewrite wp_modify, wp_ret, E0. split; [by apply en_route_acquire|]. split; [done|by apply opening_acquire].
Qed.

Lemma open_methods_spec f s :
  opening needed_refs f s -> en_route s -> granted f -> f_flags f = f_flags f0 -> is_s64 (f_pos f) ->
  (forall o, open0 = Some o -> open_method o) ->
  wp (open_methods p ino i0 open0) (fun r s' => open_failed r s' \/ open_done r s') s.
Proof.
  intros Ho Hen Hgr Hfl Hpos Hopen.
  unfold open_methods, put_file.
  rewrite wp_bind, wp_file_at, wp_bind by apply Ho. eapply wp_mono; [|by apply get_fops_spec].
  intros op s1 (En1 & Eop & Ho1). rewrite wp_bind, wp_modify.
  set (f0' := or_mode (S_ISREG (i_mode i0) || S_ISDIR (i_mode i0)) FMODE_ATOMIC_POS f).
  pose (f1 := f0' <| f_op := op |>). change (f0' <| f_op := op |>) with f1.
  assert (alike f f1 /\ f_mapping f1 = f_mapping f /\ f_flags f1 = f_flags f) as (Ha & Hmap & Hfl1).
  { split; [|unfold f1, f0', or_mode; by destruct (S_ISREG _ || S_ISDIR _)]. destruct (alike_or f (S_ISREG (i_mode i0) || S_ISDIR (i_mode i0)) FMODE_ATOMIC_POS); try done. }
  apply (opening_put _ _ f1) in Ho1; [|apply Ha|apply Ha|rewrite Hmap; apply Ho1].
  assert (f_op f1 = op) as Ef1 by done. apply (en_route_put _ f1) in En1. set (s2 := s1 <| v_files ::= _ |>) in *. clearbody s2.
  assert (f_inode f1 = ino) as Hino by apply Ho1.
  destruct (Z.eqb_spec op 0) as [E0|Hop].
  { eapply (cleanup_alike f f1); try done; [unfold fops_refs; by rewrite Ef1, E0|].
    eapply (no_module s); [done|by rewrite <- Eop]. }
  assert (op = i_fop i0) as Eiop by (destruct (fops_get_ret s (i_fop i0)); congruence).
  rewrite <- Ef1 in Ho1, Hop. cbn [app] in Ho1.
  assert (forall e, status e -> truthy e = true -> (if 0 <? e then - EINVAL else e) = e) as Hneg.
  { intros e [_ He] _. by rewrite (proj2 (Z.ltb_ge 0 e)). }
  assert (forall e, status e -> truthy e = true -> open_error e -> wp (cleanup_all p e) (fun r s' => open_failed r s' \/ open_done r s') s2) as Hclean.
  { intros e He Ht Hwhy. eapply (cleanup_alike f f1); try done; [by rewrite fops_refs_some|apply He|by rewrite Hneg]. }
  rewrite wp_bind, wp_gets. destruct (truthy (security_file_open s2 p)) eqn:Hsec.
  { apply Hclean; [apply security_file_open_ret|done|]. eapply (not_permitted s2); [done|done|by apply truthy_true]. }
  rewrite wp_bind, wp_gets. destruct (truthy (break_lease s2 (f_inode f1) (f_flags f1))) eqn:Hbrk.
  { apply Hclean; [apply break_lease_ret|done|]. eapply (leased s2); [done|by rewrite Hino, Hfl1, Hfl|by apply truthy_true]. }
  rewrite wp_bind, wp_modify. clear Hclean Hneg.
  pose (f2 := or_mode true (Z.lor FMODE_LSEEK (Z.lor FMODE_PREAD FMODE_PWRITE)) f1).
  fold f2. assert (alike f f2) as Ha2 by (eapply alike_trans; [done|]; apply alike_or; [apply Ha|done]).
  apply (opening_put _ _ f2) in Ho1; [|done|done|rewrite <- (eq_refl : f_mapping f1 = f_mapping f2); apply Ho1].
  apply (open_call_spec f f2); try done.
  - by apply en_route_put.
  - intros o. destruct open0; [apply Hopen|apply fop_open_ok].
  - by rewrite Eiop.
Qed.
End NotPath.

Lemma do_dentry_open_spec :
  vfs_wf sb -> v_held sb = NewFile p :: h -> v_files sb !! p = Some f0 -> new_file f0 -> f_path f0 = pa ->
  v_dentries sb !! p_dentry pa = Some ino -> v_inodes sb !! ino = Some i0 -> kept s0 sb ->
  (forall o, open0 = Some o -> open_method o) ->
  wp (do_dentry_open p ino open0) (fun r s' => open_failed r s' \/ open_done r s') sb.
Proof.
  intros Hs Hh Hf Hnew Hpa Hd Hi Hk Hopen. destruct (vw_inode sb Hs _ _ Hi) as [_ Hmap].
  unfold do_dentry_open, path_get, acquire, put_file. rewrite wp_bind, wp_file_at by done.
  rewrite wp_bind, wp_modify, wp_bind, wp_inode_at by done. rewrite wp_bind, wp_modify.
  pose (f1 := f0 <| f_inode := ino |> <| f_mapping := i_mapping i0 |>). fold f1.
  assert (new_file f1) as Hnew1 by (destruct Hnew; by split).
  assert (vfs_wf (sb <| v_held ::= cons (PathRef (f_path f0)) |>)) as Hs1
    by (apply wf_acquire_path; [done|]; rewrite Hpa, Hd; eauto).
  set (s1 := sb <| v_held ::= cons (PathRef (f_path f0)) |> <| v_files ::= <[p := f1]> |>).
  assert (en_route s1) as Hen by by exists (PathRef (f_path f0) :: v_held sb), f1.
  assert (opening [] f1 s1) as Ho.
  { assert (NewFile p ∈ v_held (sb <| v_held ::= cons (PathRef (f_path f0)) |>)) by (cbn; rewrite Hh; set_solver).
    split; try done; [by apply wf_put_new|by cbn; rewrite Hh, Hpa|by cbn; rewrite lookup_insert_eq|].
    etrans; [done|]. etrans; [|by apply kept_put_new]. apply frame_still. by split. }
  clearbody s1. change (f_flags f1) with (f_flags f0). destruct (has (f_flags f0) O_PATH) eqn:Hpath.
  - rewrite wp_bind, wp_modify, wp_ret. right.
    pose (f2 := f1 <| f_mode := Z.lor FMODE_PATH FMODE_OPENED |> <| f_op := empty_fops |>). fold f2.
    apply (opening_put _ _ f2) in Ho; [|done|done|by apply Ho]. destruct Ho as [? Hheld ? ? ? Hpa2 Hi2 Hm2].
    split; [done|]. split; [done|]. exists f2. split; try done; rewrite ?Hpath; try done.
    split; try done; [|by eapply vw_dentry|by rewrite Hpa2]. split; try done. apply Hnew.
  - rewrite wp_bind. eapply wp_mono; [|by apply open_access_spec]. intros e s2 [(-> & En2 & Ho2)|(He & Hwhy & Ho2)].
    + change (truthy 0) with false; cbv iota. destruct (marked_same f1) as (Ep & Ei & Em & Eps).
      assert (has (f_mode f1) FMODE_WRITER = false) as Hnw.
      { destruct Hnew1 as [Hb _]. by rewrite (has_part 0 (f_mode f1) _ FMODE_WRITER (eq_trans Hb eq_refl)) by done. }
      apply (open_methods_spec Hpath (marked f1)); try done.
      * split; [|by apply marked_refs|by rewrite marked_has..|by apply marked_writer].
        unfold unopened. assert (Z.land (f_mode (marked f1)) (Z.lor FMODE_PATH (Z.lor FMODE_CAN_READ (Z.lor FMODE_CAN_WRITE FMODE_OPENED)))
          = Z.land (f_mode f1) (Z.lor FMODE_PATH (Z.lor FMODE_CAN_READ (Z.lor FMODE_CAN_WRITE FMODE_OPENED)))) as ->.
        { unfold marked. destruct wants_write; [|done]. cbn. by rewrite land_set. }
        destruct Hnew1 as [Hb _]. by eapply (land_part 0).
      * unfold marked. by destruct wants_write.
      * rewrite Eps. apply Hnew1.
    + rewrite (errno_truthy e He). eapply wp_mono; [intros ? ? ?; by left|]. apply (cleanup_file_spec f1); try done.
      destruct Hnew1 as [Hb _]. by rewrite (has_part 0 (f_mode f1) _ FMODE_OPENED (eq_trans Hb eq_refl)) by done.
Qed.
End OpenLemmas.
