(* ===== verification/OpenCalls.v ===== *)
(** The open and close calls of [fs/open.c] meet their contracts.

    An open that fails leaves the descriptor table, the files in it and the ledger
    as it found them; one that succeeds adds one descriptor, for a file nobody else
    has.  A close takes exactly its descriptor out of the table and reports what
    flushing the file reports. *)

From S2P Require Import Prelude Uaccess Kernel Track Vfs Seek ReadWrite OpenFlags Open.

Section OpenCalls.
Context `{UserArch} `{OpenEnvOk}.
Implicit Types (s : vfs) (p : Z) (f : file) (pa : path).

(** The file is open, with all that goes with it, or nothing is left of the attempt, which
    failed for a reason. *)
Definition opened_or_undone s p ino (i : inode) f h open (r : Z) s' : Prop :=
  exists f', v_files s' !! p = Some f' /\
    if has (f_mode f') FMODE_OPENED then file_opened ino (f_path f) p h f i r f' s'
    else is_errno r /\ has (f_flags f) O_PATH = false /\ open_error s ino (f_path f) p f i open r /\
      f_inode f' = 0 /\ f_path f' = mkPath 0 0 /\ v_held s' = NewFile p :: h.


(** What a routine that makes a file returns: the file, open, with what it owns on
    the ledger, or an error. *)
Definition file_made pa h s (r : Z + Z) s' : Prop :=
  vfs_wf s' /\ kept s s' /\
  match r with
  | inl e => is_errno e /\ v_held s' = h
  | inr p => exists f, open_file s' p f /\ has (f_mode f) FMODE_OPENED = true /\ f_path f = pa /\
      v_held s' = file_refs p f ++ PathRef pa :: NewFile p :: h
  end.

Lemma allocated_ok s p f :
  vfs_wf s -> v_files s !! p = None ->
  let s' := s <| v_files ::= <[p := f]> |> <| v_held ::= cons (NewFile p) |> in vfs_wf s' /\ kept s s'.
Proof.
  intros Hs Hp s'. assert (forall q g, open_file s q g -> q <> p) as Hne
    by (intros q g [Hq _ _ _ _] ->; congruence).
  assert (forall q g, open_file s q g -> open_file s' q g) as Ho.
  { intros q g Hq. pose proof (Hne _ _ Hq). destruct Hq. split; cbn; try done. by rewrite lookup_insert_ne. }
  split.
  - destruct Hs as [? ? Ht Hl ? ? ? Hpath Hn ?].
    assert (forall q, holds q (v_held s') -> holds q (v_held s)) as Hold.
    { intros q [Hq|Hq]; apply elem_of_cons in Hq as [|]; try done; [by left|by right]. }
    split; try done.
    + intros fd q Hq. destruct (Ht _ _ Hq) as [g Hg]. eauto.
    + intros q Hq. destruct (Hl q (Hold q Hq)) as [g Hg]. eauto.
    + intros q [|Hq]%elem_of_cons; [done|]. by apply Hpath.
    + intros q [[= ->]|Hq]%elem_of_cons.
      * split_and!; [cbn; rewrite lookup_insert_eq; eauto| |].
        -- intros fd Hfd. destruct (Ht _ _ Hfd) as [g Hg]. by eapply Hne.
        -- intros Hq%Hold. destruct (Hl _ Hq) as [g Hg]. by eapply Hne.
      * destruct (Hn q Hq) as (? & ? & Hno). split_and!; [|done|intros ?%Hold; done].
        cbn. rewrite lookup_insert. by case_decide.
  - split; [done| |done]. intros fd q Hq. destruct (vw_fdt s Hs _ _ Hq) as [g Hg].
    cbn. rewrite lookup_insert_ne; [done|]. intros ->. by eapply Hne.
Qed.

(** The part [dentry_open], [dentry_create] and [kernel_file_open] share: the file
    goes back when it could not be opened. *)
Definition not_opened s0 p h (r : Z) s : Prop :=
  is_errno r /\ vfs_wf s /\ kept s0 s /\ v_held s = NewFile p :: h /\
  exists f, v_files s !! p = Some f /\ has (f_mode f) FMODE_OPENED = false.
(** The file is open and owns what is on the ledger. *)
Definition now_open s0 pa p h (r : Z) s : Prop :=
  vfs_wf s /\ kept s0 s /\ (r = 0 \/ r = - EINVAL) /\
  exists f, open_file s p f /\ has (f_mode f) FMODE_OPENED = true /\ f_path f = pa /\
    v_held s = file_refs p f ++ PathRef pa :: NewFile p :: h.

Lemma failed_or_done s0 sb ino pa p h f i open r s :
  open_failed s0 sb ino pa p h f i open r s \/ open_done s0 ino pa p h f i r s -> not_opened s0 p h r s \/ now_open s0 pa p h r s.
Proof.
  intros [(? & ? & ? & ? & _ & g & ? & _ & _ & ?)|(? & ? & g & [])]; [left|right].
  - by repeat (split; [done|]); exists g.
  - split; [done|]. split; [done|]. split; [subst r; destruct (negb _ && _ && negb _); auto|]. exists g. by split_and!.
Qed.

Lemma give_back_spec s0 pa p h (m : Kern vfs Z) s :
  wp m (fun r s' => not_opened s0 p h r s' \/ now_open s0 pa p h r s') s ->
  wp (error ← m; if truthy error then fput p;; mret (inl error) else mret (inr p)) (file_made pa h s0) s.
Proof.
  intros Hm. rewrite wp_bind. eapply wp_mono; [|exact Hm].
  intros r s1 [(He & Hs1 & Hk & Hh & f & Hf & Hno)|(Hs1 & Hk & Hr & f & Ho & Hyes & Hpa & Hh)].
  - rewrite (errno_truthy r He), wp_bind. eapply wp_mono; [|eapply (fput_new s1 p f h); [done|done|by rewrite Hno]].
    intros _ s2 (Hs2 & Hh2 & Hk2). rewrite wp_ret. split_and!; [done|by etrans|done|done].
  - destruct Hr as [->| ->].
    + change (truthy 0) with false; cbv iota. rewrite wp_ret. split_and!; try done. by exists f.
    + change (truthy (- EINVAL)) with true; cbv iota. rewrite wp_bind.
      eapply wp_mono; [|eapply (fput_new s1 p f h); [done|apply Ho|by rewrite Hyes, Hpa, <- app_assoc]].
      intros _ s2 (Hs2 & Hh2 & Hk2). rewrite wp_ret. split_and!; [done|by etrans|by unfold EINVAL|done].
Qed.

Lemma vfs_open_spec s0 s pa p f h ino :
  vfs_wf s -> v_held s = NewFile p :: h -> v_files s !! p = Some f -> new_file f -> kept s0 s ->
  v_dentries s !! p_dentry pa = Some ino ->
  wp (vfs_open pa p) (fun r s' => not_opened s0 p h r s' \/ now_open s0 pa p h r s') s.
Proof.
  intros Hs Hh Hf Hnew Hk Hd. assert (NewFile p ∈ v_held s) by (rewrite Hh; set_solver).
  unfold vfs_open, put_file. rewrite wp_bind, wp_file_at, wp_bind, wp_modify, wp_bind, wp_gets by done.
  cbn [v_dentries]. rewrite wp_bind. change (v_dentries (s <| v_files ::= <[p := f <| f_path := pa |>]> |>)) with (v_dentries s).
  destruct (vw_dentry s Hs _ _ Hd) as [i Hi].
  rewrite Hd. cbn [deref]. rewrite wp_ret. eapply wp_mono; [apply failed_or_done|].
  apply (do_dentry_open_spec s0 _ ino pa p h (f <| f_path := pa |>) i); try done.
  - by apply wf_put_new.
  - cbn. by rewrite lookup_insert_eq.
  - destruct Hnew. by split.
  - etrans; [done|]. by apply kept_put_new.
Qed.

(** A file is allocated first; without one, the error is the result. *)
Lemma with_alloc pa h s m (k : Z -> Kern vfs (Z + Z)) :
  vfs_wf s -> v_held s = h -> wp m (allocated s) s ->
  (forall p f s', v_files s' !! p = Some f -> v_dentries s' = v_dentries s -> new_file f ->
     v_held s' = NewFile p :: h -> vfs_wf s' -> kept s s' -> wp (k p) (file_made pa h s) s') ->
  wp (x ← m; match x with inl e => mret (inl e) | inr p => k p end) (file_made pa h s) s.
Proof.
  intros Hs Hh Hm Hk. rewrite wp_bind. eapply wp_mono; [|exact Hm]. intros [e|p] s' Ha.
  - destruct Ha as [He Ho]. rewrite wp_ret. split_and!; [by eapply outside_wf|by apply outside_kept|done|].
    by rewrite (out_held _ _ Ho).
  - destruct Ha as (Hp & f & Hf & ->). destruct (allocated_ok s p f Hs Hp). apply (Hk p f); try done.
    + cbn. by rewrite lookup_insert_eq.
    + cbn. by rewrite Hh.
Qed.

(** The three ways the kernel opens a file for itself ([dentry_open],
    [dentry_create], [kernel_file_open]) return an open file or an error, and with
    an error everything taken on the way is given back, also when the file was
    opened and turned out not to support direct access. *)
Theorem kernel_opens_clean s pa flags mode ino h :
  vfs_wf s -> v_held s = h -> p_mnt pa <> 0 ->
  (v_dentries s !! p_dentry pa = Some ino ->
   wp (dentry_open pa flags) (file_made pa h s) s /\
   wp (kernel_file_open pa flags ino) (file_made pa h s) s) /\
  wp (dentry_create pa flags mode) (file_made pa h s) s.
Proof.
  intros Hs Hh Hmnt.
  split; [intros Hd; split|].
  - unfold dentry_open. destruct (Z.eqb_spec (p_mnt pa) 0); [done|]. apply with_alloc; [done|done|by apply alloc_empty_file_ok|].
    intros p f s' Hf Hde Hn Hh' Hw Hk. apply give_back_spec. eapply vfs_open_spec; try done. by rewrite Hde.
  - apply with_alloc; [done|done|by apply alloc_empty_file_noaccount_ok|]. intros p f s' Hf Hde Hn Hh' Hw Hk.
    assert (NewFile p ∈ v_held s') by (rewrite Hh'; set_solver).
    unfold put_file. rewrite wp_bind, wp_file_at, wp_bind, wp_modify by done. apply give_back_spec.
    rewrite <- Hde in Hd. destruct (vw_dentry s' Hw _ _ Hd) as [i Hi].
    eapply wp_mono; [apply failed_or_done|]. apply (do_dentry_open_spec s _ ino pa p h (f <| f_path := pa |>) i); try done.
    + by apply wf_put_new.
    + cbn. by rewrite lookup_insert_eq.
    + destruct Hn. by split.
    + etrans; [done|]. by apply kept_put_new.
  - apply with_alloc; [done|done|by apply alloc_empty_file_ok|]. intros p f s' Hf Hde Hn Hh' Hw Hk.
    rewrite wp_bind. eapply wp_mono; [|by apply vfs_create_ok].
    intros e s1 (He & (Hw1 & Hh1 & Hk1) & Hf1 & Hd1).
    destruct (truthy e) eqn:Ht.
    + apply give_back_spec. rewrite wp_ret. left. split; [by apply truthy_status|].
      split_and!; [done|by etrans|by rewrite Hh1|]. exists f. split; [by rewrite Hf1|].
      destruct Hn as [Hb _]. by rewrite (has_part 0 (f_mode f) _ FMODE_OPENED (eq_trans Hb eq_refl)) by done.
    + apply truthy_false in Ht. destruct (Hd1 Ht) as [ino' Hino]. apply give_back_spec.
      eapply vfs_open_spec; try done; [by rewrite Hh1|by rewrite Hf1|by etrans].
Qed.

(** ** Opening by name *)
Lemma build_open_errno how e : build_open_flags how = inl e -> is_errno e.
Proof.
  unfold build_open_flags. repeat case_match; intros [=]; subst; unfold is_errno, EINVAL, EAGAIN; lia.
Qed.

Lemma found_error s e : vfs_wf s -> is_errno e -> found s (inl e) s.
Proof. intros. by split_and!. Qed.

Lemma file_open_name_spec s name flags mode : vfs_wf s -> wp (file_open_name name flags mode) (found s) s.
Proof.
  intros Hs. unfold file_open_name. destruct (build_open_flags _) as [e|op] eqn:Hb; [|by apply do_filp_open_ok].
  rewrite wp_ret. apply found_error; [done|]. by eapply build_open_errno.
Qed.

Lemma file_open_root_spec s root name flags mode : vfs_wf s -> wp (file_open_root root name flags mode) (found s) s.
Proof.
  intros Hs. unfold file_open_root. destruct (build_open_flags _) as [e|op] eqn:Hb; [|by apply do_file_open_root_ok].
  rewrite wp_ret. apply found_error; [done|]. by eapply build_open_errno.
Qed.

(** Running a call while something plain is held. *)
Lemma wf_hold s r : vfs_wf s -> plain r -> vfs_wf (s <| v_held ::= cons r |>).
Proof.
  intros Hs Hr. pose proof (good_acquire (R := same_table) [] r Hr s (v_held s) Hs eq_refl) as Hg.
  unfold acquire in Hg. rewrite wp_modify in Hg. apply Hg.
Qed.
Lemma kept_held s s' h : kept s s' -> kept s (s' <| v_held := h |>).
Proof. intros Hk. etrans; [done|]. apply frame_still. by split. Qed.
Lemma kept_from_held s s' r : kept (s <| v_held ::= cons r |>) s' -> kept s s'.
Proof. intros []. by split. Qed.

(** [release] of something below the top of the ledger. *)
Lemma wp_release_second r x s l (Q : unit -> vfs -> Prop) :
  x <> r -> v_held s = x :: r :: l -> Q tt (s <| v_held := x :: l |>) -> wp (release r) Q s.
Proof.
  intros Hne Hh HQ. unfold release. autorewrite with wp. rewrite Hh. cbn.
  rewrite decide_False by done. cbn. by rewrite decide_True by done.
Qed.

Lemma wf_drop_second s x r l : vfs_wf s -> plain r -> v_held s = x :: r :: l -> vfs_wf (s <| v_held := x :: l |>).
Proof.
  intros [? ? Ht Hl ? ? ? Hp Hn ?] Hr Hh. rewrite Hh in *.
  assert (forall y, y ∈ x :: l -> y ∈ x :: r :: l) as Hsub by set_solver.
  assert (forall q, holds q (x :: l) -> holds q (x :: r :: l)) as Hhs by (intros q [|]; [left|right]; auto).
  split; cbn; try done.
  - intros fd q Hq. destruct (Ht _ _ Hq) as [g []]. by exists g.
  - intros q Hq. destruct (Hl q) as [g []]; [auto|]. by exists g.
  - intros q Hq. apply Hp. auto.
  - intros q Hq. destruct (Hn q) as (? & ? & Hno); [auto|]. split_and!; try done. auto.
Qed.

(** [filp_open] opens by name for the kernel: the caller gets a reference to a
    file that is new, or an error, and the name is freed either way. *)
Theorem filp_open_clean s filename flags mode :
  vfs_wf s -> wp (filp_open filename flags mode) (found s) s.
Proof.
  intros Hs. unfold filp_open. rewrite wp_bind, wp_gets. pose proof (getname_kernel_ret s filename) as Hn.
  destruct (getname_kernel s filename) as [e|name]; [rewrite wp_ret; by apply found_error|].
  unfold acquire. rewrite wp_bind, wp_modify, wp_bind.
  eapply wp_mono; [|by apply file_open_name_spec, wf_hold].
  intros r s1 (Hs1 & Hk & Hr). apply kept_from_held in Hk. rewrite wp_bind. destruct r as [e|p].
  - destruct Hr as [He Hh]. cbn in Hh. eapply wp_release_head; [done|]. rewrite wp_ret.
    split_and!; [by eapply vfs_wf_held|by apply kept_held|done|done].
  - destruct Hr as [Hh Hp]. cbn in Hh. eapply (wp_release_second _ (FileRef p)); [done|exact Hh|]. rewrite wp_ret.
    split_and!; [by eapply (wf_drop_second s1 (FileRef p) (NameRef name))|by apply kept_held|done|exact Hp].
Qed.

(** What an open call does to the process. *)
Definition opened s (r : Z) s' : Prop :=
  vfs_wf s' /\ v_held s' = v_held s /\ syscall_counters (v_tr s') = syscall_counters (v_tr s) /\
  (forall fd p, v_fdt s !! fd = Some p -> v_files s' !! p = v_files s !! p) /\
  ((is_errno r /\ v_fdt s' = v_fdt s) \/
   (0 <= r /\ v_fdt s !! r = None /\
    exists p f, v_fdt s' = <[r := p]> (v_fdt s) /\ open_file s' p f /\ forall fd, v_fdt s !! fd <> Some p)).

Lemma opened_error s r : vfs_wf s -> is_errno r -> opened s r s.
Proof. intros. split_and!; try done. by left. Qed.

Lemma fd_install_spec s fd p h (Q : unit -> vfs -> Prop) :
  vfs_wf s -> v_held s = FileRef p :: UnusedFd fd :: h ->
  (forall s', vfs_wf s' -> s' = s <| v_fdt ::= <[fd := p]> |> <| v_held := h |> -> Q tt s') ->
  wp (fd_install fd p) Q s.
Proof.
  intros Hs Hh HQ. unfold fd_install. rewrite wp_bind, wp_modify, wp_bind.
  eapply wp_release_head; [done|]. eapply wp_release_head; [done|].
  set (s1 := s <| v_fdt ::= <[fd := p]> |>).
  assert (vfs_wf s1) as Hs1.
  { assert (exists f, open_file s p f) as [f Hf] by (apply (vw_held s Hs); rewrite Hh; left; set_solver).
    assert (forall q g, open_file s q g -> open_file s1 q g) as Ho by (intros q g []; by split).
    destruct Hs as [? ? Ht Hl ? ? ? Hp Hn ?]. split; try done.
    - intros fd' q. cbn. rewrite lookup_insert_Some. intros [[_ <-]|[_ Hq]]; [by eauto|].
      destruct (Ht _ _ Hq) as [g Hg]. eauto.
    - intros q Hq. destruct (Hl q Hq) as [g Hg]. eauto.
    - intros q Hq. destruct (Hn q Hq) as (? & Hnfd & Hno). split_and!; try done.
      intros fd'. cbn. rewrite lookup_insert_Some. intros [[_ <-]|[_ Hq']]; [|by eapply Hnfd].
      apply Hno. rewrite Hh. left. set_solver. }
  apply HQ; [|done]. change (vfs_wf (s1 <| v_held := h |>)).
  eapply (wf_drop s1 [FileRef p; UnusedFd fd]); [done|exact Hh].
Qed.

Lemma openat2_spec s dfd filename how : vfs_wf s -> wp (do_sys_openat2 dfd filename how) (opened s) s.
Proof.
  intros Hs. unfold do_sys_openat2. destruct (build_open_flags how) as [e|op] eqn:Hb.
  { rewrite wp_ret. apply opened_error; [done|]. by eapply build_open_errno. }
  rewrite wp_bind, wp_gets. pose proof (getname_ret s filename) as Hn.
  destruct (getname s filename) as [e|name]; [rewrite wp_ret; by apply opened_error|].
  unfold acquire. rewrite wp_bind, wp_modify, wp_bind, wp_gets.
  set (s1 := s <| v_held ::= cons (NameRef name) |>). assert (vfs_wf s1) as Hs1 by by apply wf_hold.
  pose proof (get_unused_fd_ret s1 (how_flags how)) as Hfd.
  set (fd := get_unused_fd_flags s1 (how_flags how)) in *. rewrite wp_bind. destruct (Z.leb_spec 0 fd) as [Hpos|Hneg].
  2: { rewrite wp_ret, wp_bind. eapply wp_release_head; [done|]. rewrite wp_ret.
       assert (is_errno fd) by (destruct Hfd as [|[? _]]; [done|lia]).
       replace (s1 <| v_held := v_held s |>) with s by by destruct s. by apply opened_error. }
  destruct Hfd as [Hfd|[_ Hfree]]; [unfold is_errno in Hfd; lia|].
  rewrite wp_bind, wp_modify, wp_bind.
  eapply wp_mono; [|by apply do_filp_open_ok, wf_hold].
  intros r s2 (Hs2 & Hk & Hr). do 2 apply kept_from_held in Hk. destruct Hk as [Ht Hfs Hc]. destruct r as [e|p].
  - destruct Hr as [He Hh]. cbn in Hh. rewrite wp_bind. eapply wp_release_head; [done|].
    rewrite wp_ret, wp_bind. eapply wp_release_head; [done|]. rewrite wp_ret.
    split_and!; try done; [exact (wf_drop s2 [UnusedFd fd; NameRef name] (v_held s) Hs2 Hh)|by left].
  - destruct Hr as [Hh Hp]. cbn in Hh. rewrite wp_bind. eapply fd_install_spec; [done|done|].
    intros s3 Hs3 ->. rewrite wp_ret, wp_bind. eapply wp_release_head; [done|]. rewrite wp_ret.
    assert (vfs_wf (s2 <| v_fdt ::= <[fd := p]> |> <| v_held := v_held s |>)) as Hs4
      by exact (wf_drop _ [NameRef name] (v_held s) Hs3 eq_refl).
    split_and!; try done. right. split_and!; try done.
    destruct (vw_fdt _ Hs4 fd p) as [f Hf]; [cbn; by rewrite lookup_insert_eq|].
    exists p, f. split_and!; try done. cbn. by rewrite Ht.
Qed.

Lemma openat2_call `{!UserArchOk} s dfd filename how usize : vfs_wf s -> wp (openat2 dfd filename how usize) (opened s) s.
Proof.
  intros Hs. unfold openat2. destruct (_ <? _); [rewrite wp_ret; by apply opened_error|].
  rewrite wp_bind. unfold on_kernel, zoom, wp at 1.
  pose proof (copy_struct_status (k_user (v_k s)) (replicate 24 0) OPEN_HOW_SIZE_VER0 OPEN_HOW_SIZE_VER0 how usize) as Herr.
  destruct (copy_struct_from_user _ _ _ _ _ _) as [bs err]. cbn in Herr.
  set (s1 := s <| v_tr ::= _ |>). assert (vfs_wf s1) as Hs1 by by apply vfs_wf_kernel.
  assert (forall r s', opened s1 r s' -> opened s r s') as Hsame by done.
  eapply wp_mono; [apply Hsame|]. destruct (truthy err) eqn:He.
  + rewrite wp_ret. apply opened_error; [done|]. apply truthy_true in He.
    unfold is_errno, EFAULT, E2BIG in *. lia.
  + by apply openat2_spec.
Qed.

(** C19: Every open call ([open], [openat], [openat2], [creat] and the compat forms)
    returns an error and leaves the descriptor table as it was, or returns a
    descriptor that was free, adds exactly that one, and the file behind it is open
    and not shared with any other descriptor.  No file of the table changes and
    nothing stays held.  Only [open] is counted. *)
Theorem opens_install_one `{!UserArchOk} s now dfd filename flags mode how usize :
  vfs_wf s ->
  let counted s' := s' <| v_tr ::= fun t => t <| syscall_counters ::= count_call __NR_open now |> |> in
  wp (openat dfd filename flags mode) (opened s) s /\
  wp (openat2 dfd filename how usize) (opened s) s /\
  wp (creat filename mode) (opened s) s /\
  wp (compat_open filename flags mode) (opened s) s /\
  wp (compat_openat dfd filename flags mode) (opened s) s /\
  wp (open now filename flags mode) (opened (counted s)) s.
Proof.
  intros Hs counted. split_and!; try by apply openat2_spec.
  - by apply openat2_call.
  - unfold open. rewrite wp_bind, (wp_run _ _ _ _ _ (v_track_run s __NR_open now Hs ltac:(by unfold __NR_open))).
    apply openat2_spec. by apply vfs_wf_counted.
Qed.

(** ** Closing *)
(** What flushing the file reports: the result of its method, 0 without one or if nobody
    uses the file. *)
Definition flush_returns s p (retval : Z) : Prop :=
  match v_files s !! p with
  | None => False
  | Some f => match fop_flush (f_op f) with
              | Some flush => if file_count s p =? 0 then retval = 0 else exists s', flush p s = Done retval s'
              | None => retval = 0
              end
  end.

Lemma filp_flush_spec s p h :
  vfs_wf s -> v_held s = FileRef p :: h ->
  wp (filp_flush p) (fun r s' => vfs_wf s' /\ v_held s' = FileRef p :: h /\ kept s s' /\ status r /\ flush_returns s p r) s.
Proof.
  intros Hs Hh. assert (holds p (v_held s)) as Hp by (rewrite Hh; left; set_solver).
  destruct (vw_held s Hs p Hp) as [f Hf]. unfold filp_flush, flush_returns. rewrite (of_file _ _ _ Hf), wp_bind, wp_gets.
  destruct (_ =? 0); [rewrite wp_ret; by split_and!; try done; destruct (fop_flush _)|]. rewrite wp_bind, wp_file_at, wp_bind by apply Hf.
  assert (forall s1 r (P : Prop), vfs_wf s1 -> v_held s1 = FileRef p :: h -> kept s s1 -> status r -> P ->
    wp ((if negb (has (f_mode f) FMODE_PATH) then note (FlushLocks p) else mret tt);; mret r)
       (fun r' s' => vfs_wf s' /\ v_held s' = FileRef p :: h /\ kept s s' /\ status r' /\ r' = r /\ P) s1) as Hrest.
  { intros s1 r P Hs1 Hh1 Hk1 Hr HP. rewrite wp_bind.
    eapply wp_mono; [|apply (good_when (R := kept) [] _ (note (FlushLocks p)) (good_note _ _) s1 (v_held s1)); done].
    intros ? s2 (Hs2 & Hh2 & Hk2 & _). rewrite wp_ret. split_and!; [done|by rewrite Hh2|by etrans|done|done|done]. }
  destruct (fop_flush (f_op f)) as [op|] eqn:Hop.
  2: { rewrite wp_ret. eapply wp_mono; [|by apply (Hrest s 0 True)]. intros r s' (? & ? & ? & ? & -> & _). done. }
  pose proof (fop_flush_ok _ op p s Hop Hs Hp) as Hok. apply wp_done in Hok as (r & s1 & Hrun & Ho & Hr).
  rewrite (wp_run _ _ _ _ _ Hrun). eapply wp_mono; [|apply (Hrest s1 r (exists s', op p s = Done r s'));
    [by eapply outside_wf|by rewrite (out_held _ _ Ho)|by apply outside_kept|done|by exists s1]].
  intros r' s' (? & ? & ? & ? & -> & ?). done.
Qed.

(** [filp_close] flushes the file and drops the caller's reference to it,
    whatever flushing reports. *)
Theorem filp_close_drops s p h :
  vfs_wf s -> v_held s = FileRef p :: h ->
  wp (filp_close p) (fun r s' => let_go h s s' /\ status r) s.
Proof.
  intros Hs Hh. unfold filp_close. rewrite wp_bind. eapply wp_mono; [|by apply filp_flush_spec].
  intros r s1 (Hs1 & Hh1 & Hk1 & Hr & _). rewrite wp_bind. eapply wp_mono; [|by eapply fput_open].
  intros ? s2 (Hs2 & Hh2 & Hk2). rewrite wp_ret. split; [|done]. split_and!; [done|done|by etrans].
Qed.

(** The state in which the file is flushed, and what a close does to the process. *)
Definition closing s (fd p : Z) : vfs := s <| v_held ::= cons (FileRef p) |> <| v_fdt ::= delete fd |>.
Definition closed s (fd r : Z) s' : Prop :=
  vfs_wf s' /\ v_held s' = v_held s /\ syscall_counters (v_tr s') = syscall_counters (v_tr s) /\
  v_fdt s' = delete fd (v_fdt s) /\
  (forall fd' p, v_fdt s !! fd' = Some p -> fd' <> fd -> v_files s' !! p = v_files s !! p) /\
  match v_fdt s !! fd with
  | None => r = - EBADF
  | Some p => status r /\ restart_code r = false /\
      exists retval, flush_returns (closing s fd p) p retval /\ r = (if restart_code retval then - EINTR else retval)
  end.

Lemma wf_unfd s fd : vfs_wf s -> vfs_wf (s <| v_fdt ::= delete fd |>).
Proof.
  intros [? ? Ht Hl ? ? ? Hp Hn ?]. split; cbn; try done.
  - intros fd' q Hq. apply lookup_delete_Some in Hq as [_ Hq]. destruct (Ht _ _ Hq) as [g []]. by exists g.
  - intros q Hq. destruct (Hl q Hq) as [g []]. by exists g.
  - intros q Hq. destruct (Hn q Hq) as (? & Hno & ?). split_and!; try done.
    intros fd' Hq'. apply lookup_delete_Some in Hq' as [_ Hq']. by eapply Hno.
Qed.

Lemma close_spec s fd :
  vfs_wf s ->
  wp (file ← file_close_fd fd;
      match file with
      | None => mret (- EBADF)
      | Some p => retval ← filp_flush p; __fput_sync p;; mret (if restart_code retval then - EINTR else retval)
      end) (closed s fd) s.
Proof.
  intros Hs. unfold file_close_fd. rewrite !wp_bind, wp_gets. destruct (v_fdt s !! fd) as [p|] eqn:Hp.
  2: { rewrite wp_ret, wp_ret. split_and!; try done; [by rewrite delete_id|]. by rewrite Hp. }
  destruct (vw_fdt s Hs _ _ Hp) as [f Hf]. unfold acquire. rewrite wp_bind, wp_modify, wp_bind, wp_modify, wp_ret.
  change (s <| v_held ::= _ |> <| v_fdt ::= _ |>) with (closing s fd p). set (s1 := closing s fd p).
  assert (vfs_wf s1) as Hs1 by (apply wf_unfd; eapply wf_acquire_ref; eauto).
  rewrite wp_bind. eapply wp_mono; [|by eapply (filp_flush_spec s1 p (v_held s))].
  intros r s2 (Hs2 & Hh2 & Hk2 & Hr & Hret). rewrite wp_bind. eapply wp_mono; [|by eapply __fput_sync_open].
  intros ? s3 (Hs3 & Hh3 & Hk3). rewrite wp_ret. assert (kept s1 s3) as [Hfdt Hfiles Hc] by by etrans.
  split_and!; try done.
  - intros fd' q Hq Hne. apply (Hfiles fd'). cbn. by rewrite lookup_delete_ne.
  - rewrite Hp. split_and!; [..|by exists r]; destruct (restart_code r) eqn:Hrc; done.
Qed.


(** A program that opens a file and closes it again; both results. *)
Definition open_then_close now now' filename flags mode : Kern vfs (Z * Z) :=
  fd ← open now filename flags mode;
  if 0 <=? fd then r ← close now' fd; mret (fd, r) else mret (fd, 0).

(** C27: A successful [open] followed by [close] of what it returned leaves the
    descriptor table, the files in it and the ledger as they were, and both calls
    are counted. *)
Theorem open_close_restores s now now' filename flags mode :
  vfs_wf s ->
  wp (open_then_close now now' filename flags mode)
     (fun '(fd, r) s' => vfs_wf s' /\ v_held s' = v_held s /\ v_fdt s' = v_fdt s /\
        (forall fd' p, v_fdt s !! fd' = Some p -> v_files s' !! p = v_files s !! p) /\
        syscall_counters (v_tr s') =
          let counted := count_call __NR_open now (syscall_counters (v_tr s)) in
          if 0 <=? fd then count_call __NR_close now' counted else counted) s.
Proof.
  intros Hs. unfold open_then_close, open. rewrite !wp_bind, (wp_run _ _ _ _ _ (v_track_run s __NR_open now Hs ltac:(by unfold __NR_open))).
  set (s1 := s <| v_tr ::= _ |>). assert (vfs_wf s1) as Hs1 by by apply vfs_wf_counted.
  eapply wp_mono; [|by apply openat2_spec]. intros fd s2 (Hs2 & Hh2 & Hc2 & Hf2 & Hr).
  destruct Hr as [[He Ht]|(Hge & Hfree & p & f & Ht & Hopen & Hnew)].
  { destruct (Z.leb_spec 0 fd) as [Hpos|Hneg]; [unfold is_errno in He; lia|]. rewrite wp_ret. destruct (Z.leb_spec 0 fd); [lia|]. split_and!; done. }
  destruct (Z.leb_spec 0 fd) as [Hpos|Hneg]; [|lia]. unfold close.
  rewrite !wp_bind, (wp_run _ _ _ _ _ (v_track_run s2 __NR_close now' Hs2 ltac:(by unfold __NR_close))).
  eapply wp_mono; [|by apply close_spec, vfs_wf_counted]. intros r s3 (Hs3 & Hh3 & Hc3 & Ht3 & Hf3 & _).
  rewrite wp_ret. destruct (Z.leb_spec 0 fd); [|lia]. split_and!; [done|by rewrite Hh3| | |].
  - rewrite Ht3. cbn. rewrite Ht. by rewrite delete_insert_id.
  - change (v_fdt s1) with (v_fdt s) in Hfree. intros fd' q Hq. rewrite (Hf3 fd' q).
    + by apply (Hf2 fd').
    + cbn. rewrite Ht, lookup_insert_ne; [done|]. intros <-. congruence.
    + intros ->. congruence.
  - rewrite Hc3. cbn. by rewrite Hc2.
Qed.

(** ** Open methods, hangup, ranges *)
Lemma outside_refl s : vfs_wf s -> outside s s.
Proof. intros []. split; try done. intros q i Hi. by exists i. Qed.

Lemma mode_method (m : Z -> Z) :
  (forall w, Z.land (m w) OWN_BITS = Z.land w OWN_BITS) ->
  open_method (fun ino p => f ← file_at p; put_file p (f <| f_mode ::= m |>);; mret 0).
Proof.
  intros Hm ino p s f l Hs Hl Hp Hf Hi Hop Hino Hmap Hpos. unfold put_file.
  rewrite wp_bind, wp_file_at by done. autorewrite with wp.
  split; [done|]. exists s, (f <| f_mode ::= m |>). split_and!; try done; [by apply outside_refl|by destruct s; cbn in *; subst|]. apply Hm.
Qed.

(** The three [open] methods the file offers to file systems keep the contract
    that [do_dentry_open] relies on: they succeed or report an error and leave the
    bits that say how the file was opened alone. *)
Theorem library_open_methods :
  open_method generic_file_open /\ open_method nonseekable_open /\ open_method stream_open.
Proof.
  split_and!.
  - intros ino p s f l Hs Hl Hp Hf Hi Hop [i Hino] Hmap Hpos. unfold generic_file_open.
    rewrite wp_bind, wp_inode_at, wp_bind, wp_file_at, wp_ret by done.
    split; [unfold EOVERFLOW; case_match; lia|]. exists s, f. split_and!; try done; [by apply outside_refl|].
    destruct s; cbn in *; subst. by rewrite insert_id.
  - apply mode_method. intros w. by apply land_clear.
  - apply mode_method. intros w. rewrite Z.lor_comm, land_set by done. by apply land_clear.
Qed.

(** [finish_open], which file systems call from [atomic_open], has the contract
    of [do_dentry_open] for a file that is not open yet. *)
Theorem finish_open_exact s p dentry ino i f h open :
  vfs_wf s -> v_held s = NewFile p :: h -> v_files s !! p = Some f -> new_file f ->
  v_dentries s !! dentry = Some ino -> v_inodes s !! ino = Some i -> (forall o, open = Some o -> open_method o) ->
  let f1 := f <| f_path := mkPath (p_mnt (f_path f)) dentry |> in
  let s1 := s <| v_files ::= <[p := f1]> |> in
  wp (finish_open p dentry open) (fun r s' => vfs_wf s' /\ kept s s' /\ opened_or_undone s1 p ino i f1 h open r s') s.
Proof.
  intros Hs Hh Hf Hnew Hd Hi Hopen f1 s1. assert (NewFile p ∈ v_held s) by (rewrite Hh; set_solver).
  unfold finish_open, put_file. rewrite wp_bind, wp_file_at by done.
  assert (has (f_mode f) FMODE_OPENED = false) as -> by
    (destruct Hnew as [Hb _]; by rewrite (has_part 0 (f_mode f) _ FMODE_OPENED (eq_trans Hb eq_refl)) by done).
  rewrite wp_bind, wp_modify, wp_bind, wp_gets.
  change (s <| v_files ::= _ |>) with s1. change (v_dentries s1) with (v_dentries s). rewrite Hd, wp_bind.
  cbn [deref]. rewrite wp_ret. assert (kept s s1) as Hk by by apply kept_put_new.
  eapply wp_mono; [|apply (do_dentry_open_spec s s1 ino (f_path f1) p h f1 i open)]; try done.
  - intros r s' [(He & ? & ? & ? & [? ?] & f' & Hf' & ? & ? & Hm)|(? & ? & f' & Ho)];
      (split_and!; [done|done|]); exists f'.
    + by rewrite Hm.
    + rewrite (fo_opened _ _ _ _ _ _ _ _ _ Ho). split; [apply Ho|done].
  - by apply wf_put_new.
  - cbn. by rewrite lookup_insert_eq.
  - destruct Hnew. by split.
Qed.
End OpenCalls.
