(* ===== verification/Attr.v ===== *)
(** Changing what is at a path or behind a descriptor: truncation and allocation,
    access checks, the working and the root directory, modes and owners
    ([fs/open.c]).

    Path lookup, mounts, security modules and [notify_change] are the fields of the
    class [AttrEnv].  A call that looks a path up again when its file handle was
    stale runs through [with_path]; the loops that wait for delegations to be given
    back take the number of rounds they may need as fuel. *)

From S2P Require Import Prelude Uaccess Kernel Track Cred Vfs Seek ReadWrite OpenFlags Open.

Definition ATTR_MODE : Z := 0x1.
Definition ATTR_UID : Z := 0x2.
Definition ATTR_GID : Z := 0x4.
Definition ATTR_SIZE : Z := 0x8.
Definition ATTR_MTIME : Z := 0x20.
Definition ATTR_CTIME : Z := 0x40.
Definition ATTR_FORCE : Z := 0x200.
Definition ATTR_KILL_SUID : Z := 0x800.
Definition ATTR_FILE : Z := 0x2000.
Definition ATTR_KILL_PRIV : Z := 0x4000.

Definition FALLOC_FL_KEEP_SIZE : Z := 0x1.
Definition FALLOC_FL_PUNCH_HOLE : Z := 0x2.
Definition FALLOC_FL_COLLAPSE_RANGE : Z := 0x8.
Definition FALLOC_FL_ZERO_RANGE : Z := 0x10.
Definition FALLOC_FL_INSERT_RANGE : Z := 0x20.
Definition FALLOC_FL_UNSHARE_RANGE : Z := 0x40.
Definition FALLOC_FL_SUPPORTED_MASK : Z := 0x7b.

Definition AT_SYMLINK_NOFOLLOW : Z := 0x100.
Definition AT_EACCESS : Z := 0x200.
Definition AT_EMPTY_PATH : Z := 0x1000.
Definition S_IRWXO : Z := 0x7.
Definition S_IWOTH : Z := 0x2.
Definition SECURE_NO_SETUID_FIXUP : Z := 0x4.     (* issecure_mask(2) *)
Definition CAP_SYS_CHROOT : Z := 18.
Definition ESTALE : Z := 116.

Record iattr := mkIattr {
  ia_valid : Z; ia_mode : Z; ia_vfsuid : Z; ia_vfsgid : Z; ia_size : Z; ia_file : option Z;
}.
#[global] Instance eta_iattr : Eta iattr := fun a =>
  mkIattr (ia_valid a) (ia_mode a) (ia_vfsuid a) (ia_vfsgid a) (ia_size a) (ia_file a).
Definition no_attrs : iattr := mkIattr 0 0 0 0 0 None.

Class AttrEnv := {
  (* fs/namei.c: an error or a path *)
  user_path_at : vfs -> Z -> Z -> Z -> Z + path;
  retry_estale : Z -> Z -> bool;
  inode_permission : vfs -> Z -> Z -> Z -> Z;         (* mount, inode, mask *)
  path_permission : vfs -> path -> Z -> Z;
  file_permission : vfs -> Z -> Z -> Z;
  (* fs/namespace.c *)
  mnt_want_write : vfs -> Z -> Z;
  mnt_want_write_file : vfs -> Z -> Z;
  path_noexec : vfs -> path -> bool;
  __mnt_is_readonly : vfs -> Z -> bool;
  d_can_lookup : vfs -> Z -> bool;
  (* fs/attr.c, fs/inode.c: mount and dentry; the inode whose delegation is in the way *)
  dentry_needs_remove_privs : vfs -> Z -> Z -> Z;
  setattr_should_drop_sgid : vfs -> Z -> Z -> Z;
  notify_change : Z -> Z -> iattr -> bool -> Kern vfs (Z * option Z);
  break_deleg_wait : Z -> Kern vfs Z;
  fop_fallocate : Z -> option (Z -> Z -> Z -> Z -> Kern vfs Z);
  (* security/ *)
  security_path_truncate : vfs -> path -> Z;
  security_file_truncate : vfs -> Z -> Z;
  security_path_chmod : vfs -> path -> Z -> Z;
  security_path_chown : vfs -> path -> Z -> Z -> Z;
  security_path_chroot : vfs -> path -> Z;
  (* fs/mnt_idmapping.c *)
  i_user_ns : inode -> Z;
  from_vfsuid : Z -> Z -> Z -> Z;                     (* mount, namespace, id *)
  from_vfsgid : Z -> Z -> Z -> Z;
}.

Section Attr.
Context `{UserArch} `{KernelEnv} `{CredEnv} `{VfsEnv} `{!OpenEnv} `{!AttrEnv}.

(** [path->dentry->d_inode]. *)
Definition d_inode (dentry : Z) : Kern vfs Z := i ← gets (fun s => v_dentries s !! dentry); deref UseAfterFree i.

Definition user_path (dfd name flags : Z) : Kern vfs (Z + path) :=
  r ← gets (fun s => user_path_at s dfd name flags);
  match r with
  | inl e => mret (inl e)
  | inr pa => path_get pa;; mret (inr pa)
  end.

(** The [retry:] loop around a path: with [always] a failed lookup counts too.  A
    lookup that has asked for revalidation is not repeated, so one retry is all
    there is. *)
Fixpoint path_loop (fuel : nat) (always : bool) (dfd filename lookup_flags : Z) (body : path -> Kern vfs Z) : Kern vfs Z :=
  let retry error :=
    if retry_estale error lookup_flags then
      match fuel with
      | O => crashed OutOfFuel
      | S fuel => path_loop fuel always dfd filename (Z.lor lookup_flags LOOKUP_REVAL) body
      end
    else mret error in
  r ← user_path dfd filename lookup_flags;
  match r with
  | inl error => if always then retry error else mret error
  | inr path => error ← body path; path_put path;; retry error
  end.
Definition with_path := path_loop 1.

(** ** Truncation *)

(** The dentry comes with its inode, which the callers have looked at. *)
Definition do_truncate (mnt dentry ino length time_attrs : Z) (filp : option Z) : Kern vfs Z :=
  if length <? 0 then mret (- EINVAL)
  else
  let newattrs := no_attrs <| ia_size := length |> <| ia_valid := Z.lor ATTR_SIZE time_attrs |> in
  let newattrs := if filp is Some _
                  then newattrs <| ia_file := filp |> <| ia_valid ::= Z.lor ATTR_FILE |> else newattrs in
  ret ← gets (fun s => dentry_needs_remove_privs s mnt dentry);
  if ret <? 0 then mret ret
  else
  let newattrs := if truthy ret then newattrs <| ia_valid ::= fun v => Z.lor v (Z.lor ret ATTR_FORCE) |> else newattrs in
  inode_lock ino;;
  '(ret, _) ← notify_change mnt dentry newattrs false;
  inode_unlock ino;;
  mret ret.

Definition vfs_truncate (pa : path) (length : Z) : Kern vfs Z :=
  let mnt := p_mnt pa in
  ino ← d_inode (p_dentry pa);
  inode ← inode_at ino;
  if S_ISDIR (i_mode inode) then mret (- EISDIR)
  else if negb (S_ISREG (i_mode inode)) then mret (- EINVAL)
  else
  error ← try_acquire (fun s => mnt_want_write s mnt) (MntWrite mnt);
  if truthy error then mret error
  else
  let mnt_drop_write_and_out error := release (MntWrite mnt);; mret error in
  let put_write_and_out error := release (WriteAccess ino);; mnt_drop_write_and_out error in
  error ← gets (fun s => inode_permission s mnt ino MAY_WRITE);
  if truthy error then mnt_drop_write_and_out error
  else if IS_APPEND inode then mnt_drop_write_and_out (- EPERM)
  else
  error ← try_acquire (fun s => get_write_access s ino) (WriteAccess ino);
  if truthy error then mnt_drop_write_and_out error
  else
  error ← gets (fun s => break_lease s ino O_WRONLY);
  if truthy error then put_write_and_out error
  else
  error ← gets (fun s => security_path_truncate s pa);
  error ← (if truthy error then mret error else do_truncate mnt (p_dentry pa) ino length 0 None);
  put_write_and_out error.

Definition do_sys_truncate (pathname length : Z) : Kern vfs Z :=
  if length <? 0 then mret (- EINVAL)
  else with_path true AT_FDCWD pathname LOOKUP_FOLLOW (fun path => vfs_truncate path length).
Definition truncate (path length : Z) : Kern vfs Z := do_sys_truncate path length.
Definition compat_truncate (path length : Z) : Kern vfs Z := do_sys_truncate path (s32 length).

Definition do_sys_ftruncate (fd length : Z) (small : bool) : Kern vfs Z :=
  if length <? 0 then mret (- EINVAL)
  else
  f ← fdget fd;
  match f with
  | None => mret (- EBADF)
  | Some p =>
      let out_putf error := fdput p;; mret error in
      filp ← file_at p;
      let small := if has (f_flags filp) O_LARGEFILE then false else small in
      ino ← d_inode (p_dentry (f_path filp));
      inode ← inode_at ino;
      if negb (S_ISREG (i_mode inode)) || negb (has (f_mode filp) FMODE_WRITE) then out_putf (- EINVAL)
      else if small && (MAX_NON_LFS <? length) then out_putf (- EINVAL)
      else
      real ← inode_at (f_inode filp);
      if IS_APPEND real then out_putf (- EPERM)
      else
      acquire (SbWrite (i_sb inode));;
      error ← gets (fun s => security_file_truncate s p);
      error ← (if truthy error then mret error
               else do_truncate (p_mnt (f_path filp)) (p_dentry (f_path filp)) ino length
                      (Z.lor ATTR_MTIME ATTR_CTIME) (Some p));
      release (SbWrite (i_sb inode));;
      out_putf error
  end.
Definition ftruncate (fd length : Z) : Kern vfs Z := do_sys_ftruncate fd (s64 length) true.
Definition compat_ftruncate (fd length : Z) : Kern vfs Z := do_sys_ftruncate fd (u32 length) true.

(** ** Allocation *)

(** The mode combinations that make no sense, with their errors. *)
Definition fallocate_mode (mode : Z) : Z :=
  if has mode (Z.lnot FALLOC_FL_SUPPORTED_MASK) then - EOPNOTSUPP
  else if Z.land mode (Z.lor FALLOC_FL_PUNCH_HOLE FALLOC_FL_ZERO_RANGE)
          =? Z.lor FALLOC_FL_PUNCH_HOLE FALLOC_FL_ZERO_RANGE then - EOPNOTSUPP
  else if has mode FALLOC_FL_PUNCH_HOLE && negb (has mode FALLOC_FL_KEEP_SIZE) then - EOPNOTSUPP
  else if has mode FALLOC_FL_COLLAPSE_RANGE && has mode (Z.lnot FALLOC_FL_COLLAPSE_RANGE) then - EINVAL
  else if has mode FALLOC_FL_INSERT_RANGE && has mode (Z.lnot FALLOC_FL_INSERT_RANGE) then - EINVAL
  else if has mode FALLOC_FL_UNSHARE_RANGE
          && has mode (Z.lnot (Z.lor FALLOC_FL_UNSHARE_RANGE FALLOC_FL_KEEP_SIZE)) then - EINVAL
  else 0.

Definition vfs_fallocate (p mode offset len : Z) : Kern vfs Z :=
  file ← file_at p;
  inode ← inode_at (f_inode file);
  if (offset <? 0) || (len <=? 0) then mret (- EINVAL)
  else if truthy (fallocate_mode mode) then mret (fallocate_mode mode)
  else if negb (has (f_mode file) FMODE_WRITE) then mret (- EBADF)
  else if has mode (Z.lnot FALLOC_FL_KEEP_SIZE) && IS_APPEND inode then mret (- EPERM)
  else if IS_IMMUTABLE inode then mret (- EPERM)
  else if IS_SWAPFILE inode then mret (- ETXTBSY)
  else
  ret ← gets (fun s => security_file_permission s p MAY_WRITE);
  if truthy ret then mret ret
  else
  ret ← gets (fun s => fsnotify_file_area_perm s p MAY_WRITE (Some offset) len);
  if truthy ret then mret ret
  else if S_ISFIFO (i_mode inode) then mret (- ESPIPE)
  else if S_ISDIR (i_mode inode) then mret (- EISDIR)
  else if negb (S_ISREG (i_mode inode)) && negb (S_ISBLK (i_mode inode)) then mret (- ENODEV)
  else if (s_maxbytes (i_sb inode) <? s64 (offset + len)) || (s64 (offset + len) <? 0) then mret (- EFBIG)
  else
  match fop_fallocate (f_op file) with
  | None => mret (- EOPNOTSUPP)
  | Some fallocate =>
      file_start_write p;;
      ret ← fallocate p mode offset len;
      (if ret =? 0 then fsnotify_modify p else mret tt);;
      file_end_write p;;
      mret ret
  end.

Definition ksys_fallocate (fd mode offset len : Z) : Kern vfs Z :=
  f ← fdget fd;
  match f with
  | None => mret (- EBADF)
  | Some p => error ← vfs_fallocate p mode offset len; fdput p;; mret error
  end.
Definition fallocate (fd mode offset len : Z) : Kern vfs Z := ksys_fallocate fd mode offset len.

(** ** Access checks with the real ids *)
Definition issecure (c : cred) (bit : Z) : bool := has (c_securebits c) bit.

(** Would the overriding credentials differ from [cred]? *)
Definition need_override (flags : Z) (cred : cred) : bool :=
  if has flags AT_EACCESS then false
  else if negb (c_fsuid cred =? c_uid cred) || negb (c_fsgid cred =? c_gid cred) then true
  else if negb (issecure cred SECURE_NO_SETUID_FIXUP) then
    let root_uid := make_kuid (c_user_ns cred) 0 in
    if negb (c_uid cred =? root_uid) then negb (c_cap_effective cred =? 0)
    else negb (c_cap_effective cred =? c_cap_permitted cred)
  else false.
Definition access_need_override_creds (flags : Z) : Kern kernel bool :=
  cred ← current_cred; mret (need_override flags cred).

(** The credentials [access] decides with; [issecure] asks the current ones. *)
Definition access_cred (current override_cred : cred) : cred :=
  let override_cred := override_cred <| c_fsuid := c_uid override_cred |> <| c_fsgid := c_gid override_cred |> in
  if negb (issecure current SECURE_NO_SETUID_FIXUP) then
    let root_uid := make_kuid (c_user_ns override_cred) 0 in
    if negb (c_uid override_cred =? root_uid) then override_cred <| c_cap_effective := 0 |>
    else override_cred <| c_cap_effective := c_cap_permitted override_cred |>
  else override_cred.

Definition set_current_cred (c : cred) : Kern kernel unit :=
  p ← gets k_current; t ← current_task; modify (fun k => k <| k_tasks ::= <[p := t <| t_cred := c |>]> |>).
Definition override_creds (new : cred) : Kern kernel cred := old ← current_cred; set_current_cred new;; mret old.
Definition revert_creds (old : cred) : Kern kernel unit := set_current_cred old.

Definition access_override_creds : Kern kernel (option cred) :=
  override_cred ← prepare_creds;
  match override_cred with
  | None => mret None
  | Some override_cred =>
      current ← current_cred;
      old_cred ← override_creds (access_cred current override_cred);
      mret (Some old_cred)
  end.

(** What happens to the path once it is found. *)
Definition access_path (mode : Z) (path : path) : Kern vfs Z :=
  ino ← d_inode (p_dentry path);
  inode ← inode_at ino;
  noexec ← gets (fun s => path_noexec s path);
  if has mode MAY_EXEC && S_ISREG (i_mode inode) && noexec then mret (- EACCES)
  else
  res ← gets (fun s => inode_permission s (p_mnt path) ino (Z.lor mode MAY_ACCESS));
  if truthy res || negb (has mode S_IWOTH) || special_file (i_mode inode) then mret res
  else
  readonly ← gets (fun s => __mnt_is_readonly s (p_mnt path));
  mret (if (readonly : bool) then - EROFS else res).

Definition access_lookup (dfd filename mode flags : Z) : Kern vfs Z :=
  let lookup_flags := if has flags AT_SYMLINK_NOFOLLOW then 0 else LOOKUP_FOLLOW in
  let lookup_flags := if has flags AT_EMPTY_PATH then Z.lor lookup_flags LOOKUP_EMPTY else lookup_flags in
  with_path false dfd filename lookup_flags (access_path mode).

Definition access_flags_ok (mode flags : Z) : bool :=
  negb (has mode (Z.lnot S_IRWXO))
  && negb (has flags (Z.lnot (Z.lor AT_EACCESS (Z.lor AT_SYMLINK_NOFOLLOW AT_EMPTY_PATH)))).

Definition do_faccessat (dfd filename mode flags : Z) : Kern vfs Z :=
  if negb (access_flags_ok mode flags) then mret (- EINVAL)
  else
  need ← on_kernel (access_need_override_creds flags);
  if (need : bool) then
    old_cred ← on_kernel access_override_creds;
    match old_cred with
    | None => mret (- ENOMEM)
    | Some old_cred =>
        res ← access_lookup dfd filename mode flags;
        on_kernel (revert_creds old_cred);;
        mret res
    end
  else access_lookup dfd filename mode flags.

Definition faccessat (dfd filename mode : Z) : Kern vfs Z := do_faccessat dfd filename mode 0.
Definition faccessat2 (dfd filename mode flags : Z) : Kern vfs Z := do_faccessat dfd filename mode flags.
Definition access (filename mode : Z) : Kern vfs Z := do_faccessat AT_FDCWD filename mode 0.

(** ** The working and the root directory *)
Definition current_fs : Kern vfs Z := t ← on_kernel current_task; mret (t_fs t).
Definition update_fs (g : path * path -> path * path) : Kern vfs unit :=
  fs ← current_fs;
  dirs ← gets (fun s => v_fs s !! fs);
  dirs ← deref UseAfterFree dirs;
  modify (fun s => s <| v_fs ::= <[fs := g dirs]> |>).
Definition set_fs_pwd (pa : path) : Kern vfs unit := update_fs (fun '(_, root) => (pa, root)).
Definition set_fs_root (pa : path) : Kern vfs unit := update_fs (fun '(pwd, _) => (pwd, pa)).

Definition chdir (filename : Z) : Kern vfs Z :=
  with_path false AT_FDCWD filename (Z.lor LOOKUP_FOLLOW LOOKUP_DIRECTORY) (fun path =>
    error ← gets (fun s => path_permission s path (Z.lor MAY_EXEC MAY_CHDIR));
    if truthy error then mret error else set_fs_pwd path;; mret error).

Definition fchdir (fd : Z) : Kern vfs Z :=
  f ← fdget_raw fd;
  match f with
  | None => mret (- EBADF)
  | Some p =>
      file ← file_at p;
      dir ← gets (fun s => d_can_lookup s (p_dentry (f_path file)));
      error ← (if negb dir then mret (- ENOTDIR)
               else
                 error ← gets (fun s => file_permission s p (Z.lor MAY_EXEC MAY_CHDIR));
                 (if truthy error then mret tt else set_fs_pwd (f_path file));;
                 mret error);
      fdput p;;
      mret error
  end.

Definition chroot (filename : Z) : Kern vfs Z :=
  with_path false AT_FDCWD filename (Z.lor LOOKUP_FOLLOW LOOKUP_DIRECTORY) (fun path =>
    error ← gets (fun s => path_permission s path (Z.lor MAY_EXEC MAY_CHDIR));
    if truthy error then mret error
    else
    cred ← on_kernel current_cred;
    ok ← gets (fun s => ns_capable (v_k s) (c_user_ns cred) CAP_SYS_CHROOT);
    if negb ok then mret (- EPERM)
    else
    error ← gets (fun s => security_path_chroot s path);
    if truthy error then mret error
    else set_fs_root path;; mret 0).

(** ** Modes *)

(** The [retry_deleg:] loop: an attempt for each delegation that has to be broken. *)
Fixpoint deleg_loop (fuel : nat) (attempt : Kern vfs (Z * option Z)) : Kern vfs Z :=
  '(error, delegated_inode) ← attempt;
  match delegated_inode with
  | None => mret error
  | Some i =>
      error ← break_deleg_wait i;
      if truthy error then mret error
      else
      match fuel with
      | O => crashed OutOfFuel
      | S fuel => deleg_loop fuel attempt
      end
  end.

Definition chmod_attempt (pa : path) (ino mode : Z) : Kern vfs (Z * option Z) :=
  inode_lock ino;;
  error ← gets (fun s => security_path_chmod s pa mode);
  x ← (if truthy error then mret (error, None)
       else
         inode ← inode_at ino;
         notify_change (p_mnt pa) (p_dentry pa)
           (no_attrs <| ia_mode := Z.lor (Z.land mode S_IALLUGO) (Z.land (i_mode inode) (Z.lnot S_IALLUGO)) |>
                     <| ia_valid := Z.lor ATTR_MODE ATTR_CTIME |>) true);
  inode_unlock ino;;
  mret x.

Definition chmod_common (fuel : nat) (path : path) (mode : Z) : Kern vfs Z :=
  ino ← d_inode (p_dentry path);
  error ← try_acquire (fun s => mnt_want_write s (p_mnt path)) (MntWrite (p_mnt path));
  if truthy error then mret error
  else
  error ← deleg_loop fuel (chmod_attempt path ino mode);
  release (MntWrite (p_mnt path));;
  mret error.

Definition vfs_fchmod (fuel : nat) (p mode : Z) : Kern vfs Z :=
  note (AuditFile p);;
  file ← file_at p;
  chmod_common fuel (f_path file) mode.

Definition fchmod (fuel : nat) (fd mode : Z) : Kern vfs Z :=
  f ← fdget fd;
  match f with
  | None => mret (- EBADF)
  | Some p => err ← vfs_fchmod fuel p mode; fdput p;; mret err
  end.

(** The lookup flags of the [*at] calls. *)
Definition at_flags_ok (flags : Z) : bool := negb (has flags (Z.lnot (Z.lor AT_SYMLINK_NOFOLLOW AT_EMPTY_PATH))).
Definition at_lookup (flags : Z) : Z :=
  let lookup_flags := if has flags AT_SYMLINK_NOFOLLOW then 0 else LOOKUP_FOLLOW in
  if has flags AT_EMPTY_PATH then Z.lor lookup_flags LOOKUP_EMPTY else lookup_flags.

Definition do_fchmodat (fuel : nat) (dfd filename mode flags : Z) : Kern vfs Z :=
  if negb (at_flags_ok flags) then mret (- EINVAL)
  else with_path false dfd filename (at_lookup flags) (fun path => chmod_common fuel path mode).
Definition fchmodat2 (fuel : nat) (dfd filename mode flags : Z) : Kern vfs Z :=
  do_fchmodat fuel dfd filename mode flags.
Definition fchmodat (fuel : nat) (dfd filename mode : Z) : Kern vfs Z := do_fchmodat fuel dfd filename mode 0.
Definition chmod (fuel : nat) (filename mode : Z) : Kern vfs Z := do_fchmodat fuel AT_FDCWD filename mode 0.

(** ** Owners *)
Definition setattr_vfsuid (attr : iattr) (kuid : Z) : option iattr :=
  if negb (uid_valid kuid) then None
  else Some (attr <| ia_valid ::= Z.lor ATTR_UID |> <| ia_vfsuid := kuid |>).
Definition setattr_vfsgid (attr : iattr) (kgid : Z) : option iattr :=
  if negb (gid_valid kgid) then None
  else Some (attr <| ia_valid ::= Z.lor ATTR_GID |> <| ia_vfsgid := kgid |>).

(** The attributes of a request, unless an id has no mapping. *)
Definition chown_attrs (user group uid gid : Z) : option iattr :=
  let newattrs := no_attrs <| ia_vfsuid := no_id |> <| ia_vfsgid := no_id |> <| ia_valid := ATTR_CTIME |> in
  newattrs ← (if user =? no_id then Some newattrs else setattr_vfsuid newattrs uid);
  if group =? no_id then Some newattrs else setattr_vfsgid newattrs gid.

Definition chown_attempt (pa : path) (ino fs_userns user group uid gid : Z) : Kern vfs (Z * option Z) :=
  let mnt := p_mnt pa in
  match chown_attrs user group uid gid with
  | None => mret (- EINVAL, None)
  | Some newattrs =>
      inode_lock ino;;
      inode ← inode_at ino;
      sgid ← gets (fun s => setattr_should_drop_sgid s mnt ino);
      let newattrs := if negb (S_ISDIR (i_mode inode))
                      then newattrs <| ia_valid ::= fun v => Z.lor v (Z.lor ATTR_KILL_SUID (Z.lor ATTR_KILL_PRIV sgid)) |>
                      else newattrs in
      error ← gets (fun s => security_path_chown s pa (from_vfsuid mnt fs_userns (ia_vfsuid newattrs))
                                                      (from_vfsgid mnt fs_userns (ia_vfsgid newattrs)));
      x ← (if truthy error then mret (error, None) else notify_change mnt (p_dentry pa) newattrs true);
      inode_unlock ino;;
      mret x
  end.

Definition chown_common (fuel : nat) (path : path) (user group : Z) : Kern vfs Z :=
  ino ← d_inode (p_dentry path);
  cred ← on_kernel current_cred;
  let uid := make_kuid (c_user_ns cred) user in
  let gid := make_kgid (c_user_ns cred) group in
  inode ← inode_at ino;
  deleg_loop fuel (chown_attempt path ino (i_user_ns inode) user group uid gid).

Definition do_fchownat (fuel : nat) (dfd filename user group flag : Z) : Kern vfs Z :=
  if negb (at_flags_ok flag) then mret (- EINVAL)
  else with_path false dfd filename (at_lookup flag) (fun path =>
    error ← try_acquire (fun s => mnt_want_write s (p_mnt path)) (MntWrite (p_mnt path));
    if truthy error then mret error
    else
    error ← chown_common fuel path user group;
    release (MntWrite (p_mnt path));;
    mret error).
Definition fchownat (fuel : nat) (dfd filename user group flag : Z) : Kern vfs Z :=
  do_fchownat fuel dfd filename user group flag.
Definition chown (fuel : nat) (filename user group : Z) : Kern vfs Z :=
  do_fchownat fuel AT_FDCWD filename user group 0.
Definition lchown (fuel : nat) (filename user group : Z) : Kern vfs Z :=
  do_fchownat fuel AT_FDCWD filename user group AT_SYMLINK_NOFOLLOW.

Definition vfs_fchown (fuel : nat) (p user group : Z) : Kern vfs Z :=
  file ← file_at p;
  let mnt := p_mnt (f_path file) in
  error ← try_acquire (fun s => mnt_want_write_file s p) (MntWrite mnt);
  if truthy error then mret error
  else
  note (AuditFile p);;
  error ← chown_common fuel (f_path file) user group;
  release (MntWrite mnt);;
  mret error.

Definition ksys_fchown (fuel : nat) (fd user group : Z) : Kern vfs Z :=
  f ← fdget fd;
  match f with
  | None => mret (- EBADF)
  | Some p => error ← vfs_fchown fuel p user group; fdput p;; mret error
  end.
Definition fchown (fuel : nat) (fd user group : Z) : Kern vfs Z := ksys_fchown fuel fd user group.
End Attr.

(** ** What the callees promise *)
Class AttrEnvOk `{VfsEnv} `{!OpenEnv} `{!AttrEnv} : Prop := {
  user_path_ok s dfd name fl : vfs_wf s ->
    match user_path_at s dfd name fl with
    | inl e => is_errno e
    | inr pa => is_Some (v_dentries s !! p_dentry pa)
    end;
  (* include/linux/namei.h: no retry once revalidation was asked for *)
  retry_estale_once e fl : retry_estale e fl = true -> e = - ESTALE /\ has fl LOOKUP_REVAL = false;
  inode_permission_ret s m i mask : status (inode_permission s m i mask);
  path_permission_ret s pa mask : status (path_permission s pa mask);
  file_permission_ret s p mask : status (file_permission s p mask);
  mnt_want_write_ret s m : status (mnt_want_write s m);
  mnt_want_write_file_ret s p : status (mnt_want_write_file s p);
  needs_remove_privs_ret s m d : - 4095 <= dentry_needs_remove_privs s m d;
  security_path_truncate_ret s pa : status (security_path_truncate s pa);
  security_file_truncate_ret s p : status (security_file_truncate s p);
  security_path_chmod_ret s pa m : status (security_path_chmod s pa m);
  security_path_chown_ret s pa u g : status (security_path_chown s pa u g);
  security_path_chroot_ret s pa : status (security_path_chroot s pa);
  (* an inode that is reported is pinned, and only reported to who asks *)
  notify_change_ok s m d a ask : vfs_wf s ->
    wp (notify_change m d a ask) (fun '(r, di) s' => status r /\
      exists s1, outside s s1 /\
        match di with
        | Some i => ask = true /\ r <> 0 /\ s' = s1 <| v_held ::= cons (InodeRef i) |>
        | None => s' = s1
        end) s;
  break_deleg_ok s i h : vfs_wf s -> v_held s = InodeRef i :: h ->
    wp (break_deleg_wait i) (fun r s' => status r /\
      exists s1, outside s s1 /\ s' = s1 <| v_held := h |>) s;
  fop_fallocate_ok o op p mode off len s :
    fop_fallocate o = Some op -> vfs_wf s -> holds p (v_held s) ->
    wp (op p mode off len) (fun r s' => outside s s' /\ status r) s;
}.

(** How many delegations are out.  None is given out while the caller works on the
    file, and waiting for one returns 0 when it is gone. *)
Class DelegEnv := { delegations : vfs -> nat }.
Class DelegEnvOk `{VfsEnv} `{!OpenEnv} `{!AttrEnv} `{!DelegEnv} : Prop := {
  delegations_ledger s h : delegations (s <| v_held := h |>) = delegations s;
  notify_change_grants_none s m d a ask : vfs_wf s ->
    wp (notify_change m d a ask) (fun _ s' => (delegations s' <= delegations s)%nat) s;
  break_deleg_breaks s i h : vfs_wf s -> v_held s = InodeRef i :: h ->
    wp (break_deleg_wait i) (fun r s' => r = 0 -> (delegations s' < delegations s)%nat) s;
}.
