(* ===== verification/AttrCalls.v ===== *)
(** The attribute calls of [fs/open.c] meet their contracts: every one returns,
    gives back what it took and leaves open files, descriptors and tasks alone.

    The judgement [sure P] is [good] under a fact [P] about dentries and inodes that
    stays true while other subsystems run: a path that is pinned keeps its inode. *)

From S2P Require Import Prelude Uaccess Kernel Track Cred Vfs Seek ReadWrite OpenFlags Open Attr.

Section Sure.
Context `{VfsEnv}.
Implicit Types (d : list resource) (s : vfs) (P : vfs -> Prop).

Class Stable P : Prop := stable s s' : still s s' -> P s -> P s'.

Definition sure {A} P d (m : Kern vfs A) (D : A -> list resource) (Q : A -> Prop) : Prop :=
  forall s h, P s -> vfs_wf s -> v_held s = d ++ h ->
  wp m (fun a s' => vfs_wf s' /\ v_held s' = D a ++ h /\ still s s' /\ Q a) s.

(** The dentry is positive and stands for [ino]. *)
Definition names (dentry ino : Z) s : Prop :=
  v_dentries s !! dentry = Some ino /\ is_Some (v_inodes s !! ino).
Definition inode_live (ino : Z) s : Prop := is_Some (v_inodes s !! ino).
Definition pinned (dentry : Z) s : Prop := is_Some (v_dentries s !! dentry).
#[global] Instance names_stable dentry ino : Stable (names dentry ino).
Proof. intros s s' [_ _ _ _ _ Hd Hi _] [? ?]. split; [by rewrite Hd|auto]. Qed.
#[global] Instance live_stable ino : Stable (inode_live ino).
Proof. intros s s' [_ _ _ _ _ _ Hi _]. apply Hi. Qed.
#[global] Instance pinned_stable dentry : Stable (pinned dentry).
Proof. intros s s' [_ _ _ _ _ Hd _ _]. unfold pinned. by rewrite Hd. Qed.
#[global] Instance true_stable : Stable (fun _ => True).
Proof. done. Qed.
#[global] Instance and_stable P P' : Stable P -> Stable P' -> Stable (fun s => P s /\ P' s).
Proof. intros HP HP' s s' Hst [? ?]. split; [by eapply HP|by eapply HP']. Qed.

Lemma sure_good {A} P d (m : Kern vfs A) D Q : good still d m D Q -> sure P d m D Q.
Proof. intros Hm s h _. apply Hm. Qed.

Lemma good_sure {A} P d (m : Kern vfs A) D Q :
  (forall s h, vfs_wf s -> v_held s = d ++ h -> P s) -> sure P d m D Q -> good still d m D Q.
Proof. intros HP Hm s h Hs Hh. apply Hm; eauto. Qed.

Lemma sure_bind {A B} P `{!Stable P} d (m : Kern vfs A) D Q (k : A -> Kern vfs B) D' Q' :
  sure P d m D Q -> (forall a, Q a -> sure P (D a) (k a) D' Q') -> sure P d (m ≫= k) D' Q'.
Proof.
  intros Hm Hk s h HP Hs Hh. rewrite wp_bind. eapply wp_mono; [|by apply Hm].
  intros a s1 (Hs1 & Hh1 & Hst1 & HQ). eapply wp_mono; [|apply (Hk a HQ s1 h); [by eapply stable|done|done]].
  intros b s2 (? & ? & Hst2 & ?). split_and!; try done. by etrans.
Qed.

Lemma sure_ret {A} P d (a : A) (Q : A -> Prop) : Q a -> sure P d (mret a) (fun _ => d) Q.
Proof. intros HQ. by apply sure_good, good_ret. Qed.

Lemma good_ret_at {A} (D : A -> list resource) (a : A) (Q : A -> Prop) : Q a -> good still (D a) (mret a) D Q.
Proof. intros HQ s h Hs Hh. rewrite wp_ret. by split_and!. Qed.

(** Facts a routine learns by following a pointer. *)
Lemma sure_d_inode {B} P d dentry (k : Z -> Kern vfs B) D Q :
  (forall s, P s -> vfs_wf s -> pinned dentry s) ->
  (forall ino, sure (fun s => P s /\ names dentry ino s) d (k ino) D Q) ->
  sure P d (d_inode dentry ≫= k) D Q.
Proof.
  intros Hp Hk s h HP Hs Hh. destruct (Hp s HP Hs) as [ino Hi].
  unfold d_inode. rewrite wp_bind, wp_bind, wp_gets, Hi. cbn [deref]. rewrite wp_ret.
  apply Hk; [|done|done]. split; [done|]. split; [done|]. by eapply vw_dentry.
Qed.

Lemma sure_inode_at {B} P d ino (k : inode -> Kern vfs B) D Q :
  (forall s, P s -> inode_live ino s) -> (forall i, inode_wf i -> sure P d (k i) D Q) ->
  sure P d (inode_at ino ≫= k) D Q.
Proof.
  intros Hl Hk s h HP Hs Hh. destruct (Hl s HP) as [i Hi]. rewrite wp_bind, wp_inode_at by done.
  apply Hk; try done. by destruct (vw_inode s Hs _ _ Hi).
Qed.

Lemma sure_file_at {B} P d p (k : file -> Kern vfs B) D Q :
  holds p d ->
  (forall f, file_wf f -> sure (fun s => P s /\ names (p_dentry (f_path f)) (f_inode f) s) d (k f) D Q) ->
  sure P d (file_at p ≫= k) D Q.
Proof.
  intros Hp Hk s h HP Hs Hh. destruct (held_file s d h p) as [f []]; try done.
  rewrite wp_bind, wp_file_at by done. apply Hk; done.
Qed.

Lemma sure_mono {A} P d (m : Kern vfs A) D (Q Q' : A -> Prop) :
  sure P d m D Q -> (forall a, Q a -> Q' a) -> sure P d m D Q'.
Proof. intros Hm HQ s h HP Hs Hh. eapply wp_mono; [|by apply Hm]. naive_solver. Qed.

Lemma sure_weaken {A} P P' d (m : Kern vfs A) D Q :
  sure P' d m D Q -> (forall s, P s -> P' s) -> sure P d m D Q.
Proof. intros Hm HP s h ?. apply Hm. auto. Qed.

(** Giving something back from under the top of the ledger. *)
Lemma good_release_second d x r : x <> r -> plain r -> good still (x :: r :: d) (release r) (fun _ => x :: d) (fun _ => True).
Proof.
  intros Hne Hr s h Hs Hh. unfold release. autorewrite with wp. rewrite Hh. cbn.
  rewrite decide_False by done. cbn. rewrite decide_True by done. cbn.
  split_and!; [|done|by split|done].
  destruct Hs as [? ? Ht Hl ? ? ? Hp Hn ?]. rewrite Hh in *.
  assert (forall y, y ∈ x :: d ++ h -> y ∈ (x :: r :: d) ++ h) as Hsub by set_solver.
  split; cbn; try done.
  - intros fd q Hq. destruct (Ht _ _ Hq) as [g []]. by exists g.
  - intros q Hq. destruct (Hl q) as [g []]; [|by exists g]. destruct Hq; [left|right]; auto.
  - intros q Hq. auto.
  - intros q Hq. destruct (Hn q) as (? & ? & Hno); [auto|]. split_and!; try done.
    intros Hd. apply Hno. destruct Hd; [left|right]; auto.
Qed.
End Sure.

(** A check that answers with a status. *)
Ltac good_refuse :=
  match goal with |- good _ _ (if ?c then _ else _) _ _ => destruct c; [by apply good_ret|] end.

Section AttrCalls.
Context `{UserArch} `{KernelEnv} `{CredEnv} `{AttrEnvOk} `{!VfsEnvOk} `{!OpenEnvOk}.
Implicit Types (d : list resource) (s : vfs) (P : vfs -> Prop).

Lemma good_try {R} `{!Frame R} d st r :
  (forall s, status (st s)) -> plain r ->
  good R d (try_acquire st r) (fun e => if truthy e then d else r :: d) status.
Proof.
  intros Hst Hr s h Hs Hh. unfold try_acquire. rewrite wp_bind, wp_gets. pose proof (Hst s) as Hs'.
  destruct (truthy (st s)) eqn:Ht.
  - rewrite wp_ret, Ht. split_and!; try done. apply frame_refl.
  - rewrite wp_bind. eapply wp_mono; [|by apply (good_acquire (R := R) d r)].
    intros ? s1 (? & ? & ? & _). by rewrite wp_ret.
Qed.

Lemma good_status d (g : vfs -> Z) : (forall s, status (g s)) -> good still d (gets g) (fun _ => d) status.
Proof. intros Hg. apply good_gets. intros s _. apply Hg. Qed.

Lemma good_user_path d dfd name fl :
  good still d (user_path dfd name fl) (fun r => if r is inr pa then PathRef pa :: d else d)
       (fun r => if r is inl e then is_errno e else True).
Proof.
  intros s h Hs Hh. unfold user_path. rewrite wp_bind, wp_gets. pose proof (user_path_ok s dfd name fl Hs) as Hu.
  destruct (user_path_at s dfd name fl) as [e|pa]; [rewrite wp_ret; by split_and!|].
  unfold path_get, acquire. autorewrite with wp.
  split_and!; [by apply wf_acquire_path|by cbn; rewrite Hh|by split|done].
Qed.

Lemma reval_set fl : has (Z.lor fl LOOKUP_REVAL) LOOKUP_REVAL = true.
Proof. rewrite has_lor_l. apply orb_true_r. Qed.

(** What the path is used for leaves everything alone when it fails, and relates
    the states by [G] when it succeeds. *)
Definition path_body d (body : path -> Kern vfs Z) (G : path -> vfs -> vfs -> Prop) : Prop :=
  forall pa s h, vfs_wf s -> v_held s = (PathRef pa :: d) ++ h ->
  wp (body pa) (fun e s' => vfs_wf s' /\ v_held s' = (PathRef pa :: d) ++ h /\ status e /\
    if truthy e then still s s' else G pa s s') s.
Record framed (G : path -> vfs -> vfs -> Prop) : Prop := {
  framed_before pa s1 s2 s3 : still s1 s2 -> G pa s2 s3 -> G pa s1 s3;
  framed_after pa s1 s2 l : G pa s1 s2 -> G pa s1 (s2 <| v_held := l |>);
}.

Lemma path_loop_step fuel d always dfd name fl body G s h :
  path_body d body G -> framed G ->
  (forall e s', e = - ESTALE -> has fl LOOKUP_REVAL = false -> vfs_wf s' -> v_held s' = d ++ h -> still s s' ->
     wp (match fuel with O => crashed OutOfFuel
         | S fuel => path_loop fuel always dfd name (Z.lor fl LOOKUP_REVAL) body end)
        (fun r s'' => vfs_wf s'' /\ v_held s'' = d ++ h /\ status r /\
           if truthy r then still s s'' else exists pa, G pa s s'') s') ->
  vfs_wf s -> v_held s = d ++ h ->
  wp (path_loop fuel always dfd name fl body) (fun r s' => vfs_wf s' /\ v_held s' = d ++ h /\ status r /\
    if truthy r then still s s' else exists pa, G pa s s') s.
Proof.
  intros Hbody [Hbef Haft] Hagain Hs Hh.
  assert (forall e s', vfs_wf s' -> v_held s' = d ++ h -> status e ->
    (if truthy e then still s s' else exists pa, G pa s s') ->
    wp (if retry_estale e fl then match fuel with O => crashed OutOfFuel
          | S fuel => path_loop fuel always dfd name (Z.lor fl LOOKUP_REVAL) body end else mret e)
       (fun r s'' => vfs_wf s'' /\ v_held s'' = d ++ h /\ status r /\
          if truthy r then still s s'' else exists pa, G pa s s'') s') as Hretry.
  { intros e s' Hs' Hh' He HG. destruct (retry_estale e fl) eqn:Hre; [|by rewrite wp_ret].
    apply retry_estale_once in Hre as [-> Hre]. by eapply Hagain. }
  destruct fuel; cbn [path_loop]; rewrite wp_bind; (eapply wp_mono; [|by apply (good_user_path d)]).
  all: intros [e|pa] s1 (Hs1 & Hh1 & Hst & He); cbn beta iota in *.
  1, 3: assert (status e) by (unfold is_errno, status in *; lia); pose proof (errno_truthy e He) as Ht;
        destruct always; [by apply Hretry; [..|rewrite Ht]|rewrite wp_ret, Ht; by split_and!].
  all: rewrite wp_bind; (eapply wp_mono; [|by apply Hbody]); intros e s2 (Hs2 & Hh2 & He2 & HG).
  all: rewrite wp_bind; (eapply wp_release_head; [done|]); apply Hretry; try done; try by eapply vfs_wf_held.
  all: destruct (truthy e); [etrans; [done|]; etrans; [done|]; by split|exists pa; by eapply Haft, Hbef].
Qed.

(** One retry is enough: the second lookup asks for revalidation. *)
Lemma with_path_spec d always dfd name fl body G s h :
  path_body d body G -> framed G -> vfs_wf s -> v_held s = d ++ h ->
  wp (with_path always dfd name fl body) (fun r s' => vfs_wf s' /\ v_held s' = d ++ h /\ status r /\
    if truthy r then still s s' else exists pa, G pa s s') s.
Proof.
  intros Hbody HG Hs Hh. apply path_loop_step; try done. intros _ s1 _ _ Hs1 Hh1 Hst1.
  eapply wp_mono; [|apply (path_loop_step 0 d always dfd name _ body G s1 h); try done].
  - intros r s2 (? & ? & ? & Hr). split_and!; try done. destruct (truthy r); [by etrans|].
    destruct Hr as [pa Hr]. exists pa. by eapply framed_before.
  - intros _ s2 _ Hno. by rewrite reval_set in Hno.
Qed.

Lemma good_with_path d always dfd name fl body :
  (forall pa, good still (PathRef pa :: d) (body pa) (fun _ => PathRef pa :: d) status) ->
  good still d (with_path always dfd name fl body) (fun _ => d) status.
Proof.
  intros Hbody s h Hs Hh. eapply wp_mono; [|apply (with_path_spec d always dfd name fl body (fun _ => still) s h); try done].
  - intros r s' (? & ? & ? & Hr). split_and!; try done. destruct (truthy r); [done|by destruct Hr].
  - intros pa s1 h1 Hs1 Hh1. eapply wp_mono; [|by apply Hbody].
    intros e s2 (? & ? & ? & ?). split_and!; try done. by destruct (truthy e).
  - split; [intros ? ? ? ? ? ?; by etrans|]. intros _ s1 s2 l Hst. etrans; [done|]. by split.
Qed.

Lemma path_pinned pa d s h : vfs_wf s -> v_held s = (PathRef pa :: d) ++ h -> pinned (p_dentry pa) s.
Proof. intros Hs Hh. apply (vw_path s Hs). rewrite Hh. set_solver. Qed.

Lemma good_notify d mnt dentry a ask :
  good still d (notify_change mnt dentry a ask) (fun x => if x.2 is Some i then InodeRef i :: d else d)
       (fun x => status x.1 /\ (ask = false -> x.2 = None)).
Proof.
  intros s h Hs Hh. eapply wp_mono; [|by apply notify_change_ok]. intros [r [i|]] s' (Hr & s1 & Ho & Hs').
  - destruct Hs' as (-> & _ & ->). pose proof (outside_wf _ _ Hs Ho) as Hs1.
    pose proof (good_acquire (R := still) (d ++ h) (InodeRef i) I s1 [] Hs1) as Hg. unfold acquire in Hg. rewrite wp_modify in Hg.
    destruct Hg as (? & Heq & Hst & _); [by rewrite app_nil_r, (out_held _ _ Ho)|].
    split_and!; try done; [by rewrite Heq, app_nil_r|]. etrans; [by apply outside_still|done].
  - subst s'. split_and!; try done; [by eapply outside_wf|by rewrite (out_held _ _ Ho)|by apply outside_still].
Qed.

Lemma good_break d i : good still (InodeRef i :: d) (break_deleg_wait i) (fun _ => d) status.
Proof.
  intros s h Hs Hh. eapply wp_mono; [|by eapply break_deleg_ok]. intros r s' (Hr & s1 & Ho & ->).
  split_and!; try done.
  - eapply vfs_wf_held; [by eapply outside_wf|]. by rewrite (out_held _ _ Ho).
  - etrans; [by apply outside_still|]. by split.
Qed.

Lemma good_do_truncate d mnt dentry ino length ta filp :
  good still d (do_truncate mnt dentry ino length ta filp) (fun _ => d) status.
Proof.
  unfold do_truncate. destruct (length <? 0); [by apply good_ret|].
  eapply good_bind; [apply (good_gets _ _ (fun r => - 4095 <= r)); intros; apply needs_remove_privs_ret|].
  intros r Hr. cbn beta in Hr. destruct (Z.ltb_spec r 0); [apply good_ret; unfold status; lia|].
  eapply good_bind; [apply good_inode_lock|]. intros ? _.
  eapply good_bind; [apply good_notify|]. intros [ret di] [Hret Hdi]. cbn in Hdi. rewrite (Hdi eq_refl). cbn.
  eapply good_bind; [apply good_inode_unlock|]. intros ? _. by apply good_ret.
Qed.

Lemma good_drop_mnt d mnt error :
  status error -> good still (MntWrite mnt :: d) (release (MntWrite mnt);; mret error) (fun _ => d) status.
Proof. intros He. eapply good_bind; [apply good_release|]. intros ? _. by apply good_ret. Qed.

Lemma good_vfs_truncate d pa length :
  good still (PathRef pa :: d) (vfs_truncate pa length) (fun _ => PathRef pa :: d) status.
Proof.
  unfold vfs_truncate. apply (good_sure (pinned (p_dentry pa))); [intros; by eapply path_pinned|].
  apply sure_d_inode; [done|]. intros ino. apply sure_inode_at; [by intros s [_ [_ ?]]|]. intros inode _.
  apply sure_good. destruct (S_ISDIR _); [by apply good_ret|]. destruct (negb _); [by apply good_ret|].
  eapply good_bind; [apply good_try; [intros; apply mnt_want_write_ret|done]|]. intros e He. cbn beta.
  destruct (truthy e) eqn:Ht; [by apply good_ret|].
  eapply good_bind; [apply good_status; intros; apply inode_permission_ret|]. intros e1 He1.
  destruct (truthy e1) eqn:Ht1; [by apply good_drop_mnt|]. destruct (IS_APPEND inode); [by apply good_drop_mnt|].
  eapply good_bind; [apply good_try; [intros; apply get_write_access_ret|done]|]. intros e2 He2. cbn beta.
  destruct (truthy e2) eqn:Ht2; [by apply good_drop_mnt|].
  assert (forall error, status error -> good still (WriteAccess ino :: MntWrite (p_mnt pa) :: PathRef pa :: d)
    (release (WriteAccess ino);; (release (MntWrite (p_mnt pa));; mret error)) (fun _ => PathRef pa :: d) status) as Hput.
  { intros error Herr. eapply good_bind; [apply good_release|]. intros ? _. by apply good_drop_mnt. }
  eapply good_bind; [apply good_status; intros; apply break_lease_ret|]. intros e3 He3.
  destruct (truthy e3); [by apply Hput|].
  eapply good_bind; [apply good_status; intros; apply security_path_truncate_ret|]. intros e4 He4.
  eapply good_bind; [destruct (truthy e4); [by apply good_ret|apply good_do_truncate]|]. intros e5 He5. by apply Hput.
Qed.

Lemma good_truncate d path length : good still d (truncate path length) (fun _ => d) status.
Proof.
  unfold truncate, do_sys_truncate. destruct (length <? 0); [by apply good_ret|].
  apply good_with_path. intros pa. apply good_vfs_truncate.
Qed.

Lemma good_putf d p error : status error -> good still (FileRef p :: d) (fdput p;; mret error) (fun _ => d) status.
Proof. intros He. eapply good_bind; [apply good_fdput|]. intros ? _. by apply good_ret. Qed.

Lemma good_do_ftruncate d fd length small : good still d (do_sys_ftruncate fd length small) (fun _ => d) status.
Proof.
  unfold do_sys_ftruncate. destruct (length <? 0); [by apply good_ret|].
  eapply good_bind; [apply good_fdget|]. intros [p|] _; [|by apply good_ret].
  apply (good_sure (fun _ => True)); [done|]. apply sure_file_at; [apply holds_file_here|]. intros filp _.
  apply sure_d_inode; [intros s [_ [Hd _]] _; by exists (f_inode filp)|]. intros ino.
  apply sure_inode_at; [by intros s [_ [_ ?]]|]. intros inode _.
  destruct (_ || _); [by apply sure_good, good_putf|]. destruct (_ && _); [by apply sure_good, good_putf|].
  apply sure_inode_at; [by intros s [[_ [_ ?]] _]|]. intros real _. apply sure_good.
  destruct (IS_APPEND real); [by apply good_putf|].
  eapply good_bind; [by apply good_acquire|]. intros ? _.
  eapply good_bind; [apply good_status; intros; apply security_file_truncate_ret|]. intros e He.
  eapply good_bind; [destruct (truthy e); [by apply good_ret|apply good_do_truncate]|]. intros e1 He1.
  eapply good_bind; [apply good_release|]. intros ? _. by apply good_putf.
Qed.

Lemma fallocate_mode_status mode : status (fallocate_mode mode).
Proof. unfold fallocate_mode. repeat case_match; done. Qed.

Lemma good_vfs_fallocate d p mode offset len :
  holds p d -> good still d (vfs_fallocate p mode offset len) (fun _ => d) status.
Proof.
  intros Hp. unfold vfs_fallocate. apply (good_sure (fun _ => True)); [done|].
  apply sure_file_at; [done|]. intros file _. apply sure_inode_at; [by intros s [_ [_ ?]]|]. intros inode _.
  apply sure_good. destruct (_ || _); [by apply good_ret|].
  destruct (truthy _); [apply good_ret, fallocate_mode_status|].
  do 4 good_refuse.
  eapply good_bind; [apply good_status; intros; apply security_file_permission_ret|]. intros e He.
  destruct (truthy e); [by apply good_ret|].
  eapply good_bind; [apply good_status; intros; apply fsnotify_perm_ret|]. intros e1 He1.
  destruct (truthy e1); [by apply good_ret|].
  do 4 good_refuse.
  destruct (fop_fallocate (f_op file)) as [op|] eqn:Hop; [|by apply good_ret].
  eapply good_bind; [apply good_start_write|]. intros ? _.
  eapply good_bind.
  { apply good_outside. intros s h Hs Hh. eapply fop_fallocate_ok; [done|done|].
    eapply held_holds; [done|]. by apply holds_cons. }
  intros r Hr. eapply good_bind; [apply good_when, good_fsnotify_modify|]. intros ? _.
  eapply good_bind; [apply good_end_write|]. intros ? _. by apply good_ret.
Qed.

(** The combinations of flags that mean something. *)
Definition fallocate_modes : list Z :=
  [0; FALLOC_FL_KEEP_SIZE; Z.lor FALLOC_FL_PUNCH_HOLE FALLOC_FL_KEEP_SIZE; FALLOC_FL_ZERO_RANGE;
   Z.lor FALLOC_FL_ZERO_RANGE FALLOC_FL_KEEP_SIZE; FALLOC_FL_COLLAPSE_RANGE; FALLOC_FL_INSERT_RANGE;
   FALLOC_FL_UNSHARE_RANGE; Z.lor FALLOC_FL_UNSHARE_RANGE FALLOC_FL_KEEP_SIZE].

Lemma small_modes mode : Z.land mode FALLOC_FL_SUPPORTED_MASK = mode -> 0 <= mode < 128.
Proof.
  intros Hm. assert (Z.land mode (Z.ones 7) = mode) as <- by (by rewrite <- Hm, <- Z.land_assoc).
  rewrite Z.land_ones by lia. by apply Z.mod_pos_bound.
Qed.

Lemma fallocate_mode_exact mode : truthy (fallocate_mode mode) = negb (bool_decide (mode ∈ fallocate_modes)).
Proof.
  destruct (decide (Z.land mode FALLOC_FL_SUPPORTED_MASK = mode)) as [Hm|Hm].
  - apply small_modes in Hm.
    assert (forallb (fun m => eqb (truthy (fallocate_mode m)) (negb (bool_decide (m ∈ fallocate_modes))))
              (map Z.of_nat (seq 0 128)) = true) as Hall by (vm_compute; done).
    apply eqb_prop. eapply forallb_forall in Hall; [exact Hall|]. apply in_map_iff. exists (Z.to_nat mode).
    split; [lia|]. apply in_seq. lia.
  - destruct (has mode (Z.lnot FALLOC_FL_SUPPORTED_MASK)) eqn:Hh.
    2: { apply has_outside in Hh. done. }
    unfold fallocate_mode at 1. rewrite Hh. cbn. symmetry. apply negb_true_iff, bool_decide_eq_false.
    intros Hin. apply Hm. unfold fallocate_modes in Hin. set_unfold. naive_solver.
Qed.

(** What [vfs_fallocate] does once it has accepted a request. *)
Definition allocate_now (p : Z) (op : Z -> Z -> Z -> Z -> Kern vfs Z) (mode offset len : Z) : Kern vfs Z :=
  file_start_write p;;
  ret ← op p mode offset len;
  (if ret =? 0 then fsnotify_modify p else mret tt);;
  file_end_write p;;
  mret ret.

Lemma range_check offset len max :
  0 <= offset < 2 ^ 63 -> 0 < len < 2 ^ 63 -> 0 <= max < 2 ^ 63 ->
  (max <? s64 (offset + len)) || (s64 (offset + len) <? 0) = negb (offset + len <=? max).
Proof.
  intros Ho Hl Hm. destruct (Z.ltb_spec (offset + len) (2 ^ 63)).
  - rewrite s64_id by (unfold is_s64; lia). destruct (Z.ltb_spec max (offset + len)), (Z.ltb_spec (offset + len) 0),
      (Z.leb_spec (offset + len) max); lia.
  - assert (s64 (offset + len) < 0) as Hneg by (destruct (s64_cases (offset + len)) as [[-> ?]|[-> ?]]; lia).
    apply Z.ltb_lt in Hneg as ->. rewrite orb_true_r. destruct (Z.leb_spec (offset + len) max); lia.
Qed.

(** On a regular file open for writing that is not protected, [vfs_fallocate]
    asks the file system exactly for the requests whose mode is one of the nine
    that mean something and whose range is not empty, starts at or after 0 and ends
    within the limit of the file system, also where the end does not fit the
    64-bit sum; everything else is refused with nothing changed. *)
Theorem fallocate_accepts_exactly s p f i op mode offset len :
  v_files s !! p = Some f -> v_inodes s !! f_inode f = Some i -> fop_fallocate (f_op f) = Some op ->
  has (f_mode f) FMODE_WRITE = true -> S_ISREG (i_mode i) = true -> i_flags i = 0 ->
  security_file_permission s p MAY_WRITE = 0 -> fsnotify_file_area_perm s p MAY_WRITE (Some offset) len = 0 ->
  is_s64 offset -> is_s64 len ->
  if bool_decide (mode ∈ fallocate_modes) && (0 <=? offset) && (0 <? len) && (offset + len <=? s_maxbytes (i_sb i))
  then vfs_fallocate p mode offset len s = allocate_now p op mode offset len s
  else exists e, is_errno e /\ vfs_fallocate p mode offset len s = Done e s.
Proof.
  intros Hf Hi Hop Hw Hreg Hfl Hsec Hnot Ho Hl. unfold is_s64 in *.
  assert (forall A (k : file -> Kern vfs A), (file_at p ≫= k) s = k f s) as Hfile
    by (intros; unfold file_at; kernel_unfold; by rewrite Hf).
  assert (forall A (k : inode -> Kern vfs A), (inode_at (f_inode f) ≫= k) s = k i s) as Hino
    by (intros; unfold inode_at; kernel_unfold; by rewrite Hi).
  unfold vfs_fallocate. rewrite Hfile, Hino. rewrite fallocate_mode_exact, Hw, Hop.
  unfold IS_APPEND, IS_IMMUTABLE, IS_SWAPFILE. rewrite Hfl.
  assert (S_ISFIFO (i_mode i) = false /\ S_ISDIR (i_mode i) = false) as [-> ->].
  { unfold S_ISREG, S_ISFIFO, S_ISDIR, S_ISTYPE in *. apply Z.eqb_eq in Hreg as ->. done. }
  rewrite Hreg. change (has 0 ?x) with false. rewrite andb_false_r.
  destruct (Z.ltb_spec offset 0) as [Hneg|Hneg]; destruct (Z.leb_spec len 0) as [Hz|Hz]; cbn [orb].
  1, 2: destruct (Z.leb_spec 0 offset); [lia|]; rewrite andb_false_r; by exists (- EINVAL).
  { destruct (Z.ltb_spec 0 len); [lia|]. rewrite andb_false_r. by exists (- EINVAL). }
  destruct (Z.leb_spec 0 offset), (Z.ltb_spec 0 len); try lia. rewrite !andb_true_r.
  destruct (bool_decide (mode ∈ fallocate_modes)) eqn:Hmode; cbn [negb andb].
  2: { eexists. split; [|done]. pose proof (fallocate_mode_exact mode) as Ht. rewrite Hmode in Ht.
       apply truthy_status; [apply fallocate_mode_status|done]. }
  unfold gets at 1, mbind at 1, kern_bind at 1. kernel_unfold. rewrite Hsec. cbn [truthy Z.eqb negb]. rewrite Hnot.
  rewrite range_check by (split; try lia; apply s_maxbytes_range). cbn.
  destruct (offset + len <=? s_maxbytes (i_sb i)); cbn; [done|]. by exists (- EFBIG).
Qed.

Lemma good_fallocate d fd mode offset len : good still d (fallocate fd mode offset len) (fun _ => d) status.
Proof.
  unfold fallocate, ksys_fallocate. eapply good_bind; [apply good_fdget|]. intros [p|] _; [|by apply good_ret].
  eapply good_bind; [apply good_vfs_fallocate, holds_file_here|]. intros e He. by apply good_putf.
Qed.

(** ** Access checks *)
Lemma good_current {R} `{!Frame R} d : good R d (on_kernel current_task) (fun _ => d) (fun _ => True).
Proof.
  apply good_on_kernel. intros k Hk. destruct (kw_current k Hk) as [t Ht].
  unfold current_task, current, task_at. autorewrite with wp. by rewrite Ht.
Qed.
Lemma good_current_cred {R} `{!Frame R} d : good R d (on_kernel current_cred) (fun _ => d) (fun _ => True).
Proof.
  apply good_on_kernel. intros k Hk. destruct (kw_current k Hk) as [t Ht].
  unfold current_cred, current_task, current, task_at. autorewrite with wp. by rewrite Ht.
Qed.

Lemma good_access_path d pa mode :
  good still (PathRef pa :: d) (access_path mode pa) (fun _ => PathRef pa :: d) status.
Proof.
  unfold access_path. apply (good_sure (pinned (p_dentry pa))); [intros; by eapply path_pinned|].
  apply sure_d_inode; [done|]. intros ino. apply sure_inode_at; [by intros s [_ [_ ?]]|]. intros inode _.
  apply sure_good. eapply good_bind; [apply good_gets_any|]. intros noexec _. good_refuse.
  eapply good_bind; [apply good_status; intros; apply inode_permission_ret|]. intros e He.
  destruct (_ || _); [by apply good_ret|]. eapply good_bind; [apply good_gets_any|]. intros [] _; by apply good_ret.
Qed.

Lemma good_access_lookup d dfd name mode flags :
  good still d (access_lookup dfd name mode flags) (fun _ => d) status.
Proof. apply good_with_path. intros pa. apply good_access_path. Qed.

(** The state while a call runs with other credentials. *)
Definition with_cred (c : cred) s : vfs :=
  s <| v_tr ::= fun t => t <| tr_k ::= fun k => k <| k_tasks ::= alter (fun t => t <| t_cred := c |>) (k_current k) |> |> |>.

Lemma alter_current (m : gmap Z task_struct) p t c :
  m !! p = Some t -> alter (fun t => t <| t_cred := c |>) p m = <[p := t <| t_cred := c |>]> m.
Proof.
  intros Ht. apply map_eq. intros q. destruct (decide (q = p)) as [->|Hne].
  - by rewrite lookup_insert_eq, lookup_alter_eq, Ht.
  - by rewrite lookup_insert_ne, lookup_alter_ne by done.
Qed.
Lemma kernel_set_cred k c t :
  k_tasks k !! k_current k = Some t -> kernel_wf k ->
  kernel_wf (k <| k_tasks ::= alter (fun t => t <| t_cred := c |>) (k_current k) |>).
Proof.
  intros Ht Hk. pose (t' := t <| t_cred := c |>). pose proof (kernel_wf_current k t t' (k_mms k) Hk Ht eq_refl eq_refl eq_refl
    (fun _ => eq_refl)) as Hw.
  destruct k as [tasks ? ? ? ? ? cur ? ? ? ? ? ?]. cbn in Ht.
  pose proof (alter_current tasks cur t c Ht) as Heq. cbn in *. by rewrite Heq.
Qed.

Lemma set_cred_run s c :
  vfs_wf s -> on_kernel (set_current_cred c) s = Done tt (with_cred c s).
Proof.
  intros Hs. destruct (kw_current _ (vw_kernel s Hs)) as [t Ht].
  unfold on_kernel, zoom, set_current_cred, current_task, current, task_at. kernel_unfold.
  rewrite Ht. cbn. f_equal. unfold with_cred. destruct s as [[k ?] ? ? ? ? ? ? ? ? ?]. cbn in *.
  do 4 f_equal. symmetry. exact (alter_current (k_tasks k) (k_current k) t c Ht).
Qed.

Lemma with_cred_wf s c : vfs_wf s -> vfs_wf (with_cred c s).
Proof.
  intros Hs. destruct (kw_current _ (vw_kernel s Hs)) as [t Ht].
  apply (vfs_wf_tr s); [done| | |apply Hs]; cbn; fold (v_k s).
  - by apply (kernel_set_cred _ _ t); [|apply Hs].
  - intros u. rewrite lookup_alter_eq, Ht. intros [= <-]. exact (vw_fs s Hs t Ht).
Qed.

Definition my_cred s : option cred := cred_of (v_k s) (k_current (v_k s)).

Lemma restore_tasks (m : gmap Z task_struct) p c c' :
  t_cred <$> m !! p = Some c ->
  alter (fun t => t <| t_cred := c |>) p (alter (fun t => t <| t_cred := c' |>) p m) = m.
Proof.
  intros Hc. apply map_eq. intros q. destruct (decide (q = p)) as [->|Hne].
  - rewrite !lookup_alter_eq. destruct (m !! p) as [t|]; [|done]. injection Hc as <-. cbn. by destruct t.
  - by rewrite !lookup_alter_ne by done.
Qed.

(** Whatever leaves the tasks alone under other credentials leaves them alone once
    the old ones are back. *)
Lemma still_restored s s1 c c' : my_cred s = Some c -> still (with_cred c' s) s1 -> still s (with_cred c s1).
Proof.
  intros Hc [? ? ? Ho ? ? ? ?]. split; try done.
  destruct Ho as (Ht & ? & ? & ? & ? & ? & Hcur & ?). repeat split; try done.
  cbn. fold (v_k s1). rewrite Hcur, Ht. cbn. by apply restore_tasks.
Qed.

Lemma access_under s c c' dfd name mode flags :
  vfs_wf s -> my_cred s = Some c ->
  exists r s1, access_lookup dfd name mode flags (with_cred c' s) = Done r s1 /\ vfs_wf s1 /\
    v_held s1 = v_held s /\ still s (with_cred c s1) /\ status r.
Proof.
  intros Hs Hc. pose proof (good_access_lookup [] dfd name mode flags (with_cred c' s) (v_held s)) as Hg.
  unfold wp in Hg. specialize (Hg (with_cred_wf s c' Hs) eq_refl).
  destruct (access_lookup dfd name mode flags (with_cred c' s)) as [r s1|]; [|done].
  destruct Hg as (? & ? & ? & ?). exists r, s1. split_and!; try done. by eapply still_restored.
Qed.

Lemma my_cred_run s c : vfs_wf s -> my_cred s = Some c -> on_kernel current_cred s = Done c s.
Proof.
  intros Hs Hc. unfold my_cred, cred_of in Hc. destruct (k_tasks (v_k s) !! k_current (v_k s)) as [t|] eqn:Ht; [|done].
  injection Hc as <-. unfold on_kernel, zoom, current_cred, current_task, current, task_at. kernel_unfold.
  rewrite Ht. cbn. by destruct s as [[] ? ? ? ? ? ? ? ? ?].
Qed.

Lemma done_inj {A} (a b : A) s s' : Done a s = Done b s' -> s = s'.
Proof. by intros [=]. Qed.

Lemma need_run s c flags :
  vfs_wf s -> my_cred s = Some c -> on_kernel (access_need_override_creds flags) s = Done (need_override flags c) s.
Proof.
  intros Hs Hc. pose proof (my_cred_run s c Hs Hc) as Hrun. unfold on_kernel, zoom, access_need_override_creds in *.
  unfold mbind, kern_bind. destruct (current_cred (v_k s)) as [c1 k1|]; [|done]. by injection Hrun as -> <-.
Qed.

Lemma override_run s c :
  vfs_wf s -> my_cred s = Some c ->
  on_kernel access_override_creds s =
  if creds_available (v_k s) then Done (Some c) (with_cred (access_cred c c) s) else Done None s.
Proof.
  intros Hs Hc. pose proof (set_cred_run s (access_cred c c) Hs) as Hset.
  unfold my_cred, cred_of in Hc. destruct (k_tasks (v_k s) !! k_current (v_k s)) as [t|] eqn:Ht; [|done].
  injection Hc as <-.
  unfold on_kernel, zoom, access_override_creds, prepare_creds, override_creds, current_cred, current_task, current, task_at in *.
  kernel_unfold. rewrite Ht. cbn. destruct (creds_available (v_k s)); [|by destruct s as [[] ? ? ? ? ? ? ? ? ?]].
  rewrite Ht. cbn. rewrite Ht. cbn. destruct (set_current_cred _ (v_k s)) as [[] k1|]; [|done].
  cbn. f_equal. exact (done_inj _ _ _ _ Hset).
Qed.

(** The shortcut of [access] is right, and never taken in vain: new credentials are
    made exactly when the ones [access_override_creds] would install differ from
    the ones in use. *)
Lemma need_override_exact flags c :
  need_override flags c = false <-> has flags AT_EACCESS = true \/ access_cred c c = c.
Proof.
  unfold need_override, access_cred. destruct (has flags AT_EACCESS); [split; [by left|done]|].
  destruct c as [uid euid suid fsuid gid egid sgid fsgid ns user uc eff perm bits]. cbn.
  destruct (Z.eqb_spec fsuid uid) as [->|Hu]; cbn.
  2: { split; [done|]. intros [|Heq]; [done|]. destruct (negb _); [destruct (negb _)|]; injection Heq; congruence. }
  destruct (Z.eqb_spec fsgid gid) as [->|Hg]; cbn.
  2: { split; [done|]. intros [|Heq]; [done|]. destruct (negb _); [destruct (negb _)|]; injection Heq; congruence. }
  unfold issecure. cbn. destruct (has bits SECURE_NO_SETUID_FIXUP); cbn; [split; auto|].
  destruct (Z.eqb_spec uid (make_kuid ns 0)) as [Hr|Hr]; cbn.
  - destruct (Z.eqb_spec eff perm) as [->|He]; cbn; [split; auto|]. split; [done|]. intros [|[=]]; congruence.
  - destruct (Z.eqb_spec eff 0) as [->|He]; cbn; [split; auto|]. split; [done|]. intros [|[=]]; congruence.
Qed.

Lemma with_same_cred s c : my_cred s = Some c -> with_cred c s = s.
Proof.
  unfold my_cred, cred_of. intros Hc. destruct s as [[k ?] ? ? ? ? ? ? ? ? ?]. unfold with_cred. cbn in *. do 2 f_equal.
  destruct k as [tasks ? ? ? ? ? cur ? ? ? ? ? ?]. cbn in *. f_equal.
  apply map_eq. intros q. destruct (decide (q = cur)) as [->|Hne]; [|by rewrite lookup_alter_ne].
  rewrite lookup_alter_eq. destruct (tasks !! cur) as [t|]; [|done]. injection Hc as <-. cbn. by destruct t.
Qed.


Lemma good_faccessat d dfd name mode flags : good still d (do_faccessat dfd name mode flags) (fun _ => d) status.
Proof.
  intros s h Hs Hh. destruct (kw_current _ (vw_kernel s Hs)) as [t Ht].
  assert (my_cred s = Some (t_cred t)) as Hc by (unfold my_cred, cred_of; by rewrite Ht).
  unfold do_faccessat. destruct (negb _); [by apply (good_ret (R := still))|].
  rewrite wp_bind, (wp_run _ _ _ _ _ (need_run s _ flags Hs Hc)).
  destruct (need_override _ _); [|by apply good_access_lookup].
  rewrite wp_bind. pose proof (override_run s _ Hs Hc) as Hov. destruct (creds_available _).
  - rewrite (wp_run _ _ _ _ _ Hov), wp_bind.
    destruct (access_under s _ (access_cred (t_cred t) (t_cred t)) dfd name mode flags Hs Hc)
      as (r & s1 & Hrun & Hs1 & Hh1 & Hst & Hr).
    rewrite (wp_run _ _ _ _ _ Hrun), wp_bind. unfold revert_creds.
    rewrite (wp_run _ _ _ _ _ (set_cred_run s1 _ Hs1)), wp_ret.
    split_and!; try done; [by apply with_cred_wf|]. cbn. by rewrite Hh1.
  - rewrite (wp_run _ _ _ _ _ Hov). by apply (good_ret (R := still)).
Qed.

(** ** The working and the root directory *)

(** Nothing but the directories of the caller's [fs_struct] changed, to [g] of them. *)
Definition redirected (g : path * path -> path * path) s s' : Prop :=
  v_files s' = v_files s /\ v_fdt s' = v_fdt s /\ syscall_counters (v_tr s') = syscall_counters (v_tr s) /\
  same_objects (v_k s) (v_k s') /\
  exists t dirs, k_tasks (v_k s) !! k_current (v_k s) = Some t /\ v_fs s !! t_fs t = Some dirs /\
    v_fs s' = <[t_fs t := g dirs]> (v_fs s).

Lemma redirected_framed g : framed (fun pa => redirected (g pa)).
Proof.
  split.
  - intros pa s1 s2 s3 [? ? ? Ho ? ? ? Hfs] (? & ? & ? & Hobj & t & dirs & Ht & Hd & Hs3).
    pose proof Ho as (Htk & _ & _ & _ & _ & _ & Hcur & _).
    split_and!; try congruence; [by etrans|]. exists t, dirs. by rewrite <- Htk, <- Hcur, <- Hfs.
  - intros pa s1 s2 l (? & ? & ? & ? & ?). by split_and!.
Qed.

Lemma update_fs_spec g s h :
  vfs_wf s -> v_held s = h ->
  wp (update_fs g) (fun _ s' => vfs_wf s' /\ v_held s' = h /\ redirected g s s') s.
Proof.
  intros Hs Hh. destruct (kw_current _ (vw_kernel s Hs)) as [t Ht]. destruct (vw_fs s Hs t Ht) as [dirs Hd].
  unfold update_fs, current_fs. rewrite wp_bind, wp_bind.
  assert (on_kernel current_task s = Done t s) as Hrun.
  { unfold on_kernel, zoom, current_task, current, task_at. kernel_unfold. rewrite Ht. cbn. by destruct s as [[] ? ? ? ? ? ? ? ? ?]. }
  rewrite (wp_run _ _ _ _ _ Hrun), wp_ret, wp_bind, wp_gets, Hd. cbn [deref]. autorewrite with wp.
  split_and!; [|done|].
  - destruct Hs as [? ? Htb Hl ? ? ? ? ? Hfs]. split; cbn; try done.
    + intros fd q Hq. destruct (Htb _ _ Hq) as [f []]. by exists f.
    + intros q Hq. destruct (Hl _ Hq) as [f []]. by exists f.
    + intros u Hu. rewrite lookup_insert. case_decide; [by eexists|]. by apply Hfs.
  - repeat split. by exists t, dirs.
Qed.

Lemma chdir_body d :
  path_body d (fun path =>
    error ← gets (fun s => path_permission s path (Z.lor MAY_EXEC MAY_CHDIR));
    if truthy error then mret error else set_fs_pwd path;; mret error)
    (fun pa => redirected (fun '(_, root) => (pa, root))).
Proof.
  intros pa s h Hs Hh. rewrite wp_bind, wp_gets. pose proof (path_permission_ret s pa (Z.lor MAY_EXEC MAY_CHDIR)) as He.
  set (e := path_permission s pa _) in *. destruct (truthy e) eqn:Ht; [rewrite wp_ret, Ht; by split_and!|].
  rewrite wp_bind. eapply wp_mono; [|by apply update_fs_spec]. intros ? s1 (? & ? & ?). rewrite wp_ret, Ht. by split_and!.
Qed.

Lemma chroot_body d :
  path_body d (fun path =>
    error ← gets (fun s => path_permission s path (Z.lor MAY_EXEC MAY_CHDIR));
    if truthy error then mret error
    else
    cred ← on_kernel current_cred;
    ok ← gets (fun s => ns_capable (v_k s) (c_user_ns cred) CAP_SYS_CHROOT);
    if negb ok then mret (- EPERM)
    else
    error ← gets (fun s => security_path_chroot s path);
    if truthy error then mret error
    else set_fs_root path;; mret 0)
    (fun pa => redirected (fun '(pwd, _) => (pwd, pa))).
Proof.
  intros pa s h Hs Hh. rewrite wp_bind, wp_gets. pose proof (path_permission_ret s pa (Z.lor MAY_EXEC MAY_CHDIR)) as He.
  set (e := path_permission s pa _) in *. destruct (truthy e) eqn:Ht; [rewrite wp_ret, Ht; by split_and!|].
  destruct (kw_current _ (vw_kernel s Hs)) as [t Htk].
  assert (my_cred s = Some (t_cred t)) as Hc by (unfold my_cred, cred_of; by rewrite Htk).
  rewrite wp_bind, (wp_run _ _ _ _ _ (my_cred_run s _ Hs Hc)), wp_bind, wp_gets.
  destruct (negb _); [rewrite wp_ret; by split_and!|]. rewrite wp_bind, wp_gets.
  pose proof (security_path_chroot_ret s pa) as He1. destruct (truthy (security_path_chroot s pa)) eqn:Ht1.
  - rewrite wp_ret, Ht1. by split_and!.
  - rewrite wp_bind. eapply wp_mono; [|by apply update_fs_spec]. intros ? s1 (? & ? & ?). rewrite wp_ret. by split_and!.
Qed.

(** [chdir] and [chroot] change one directory of the caller, and only when they
    return 0: [chdir] the working directory, [chroot] the root directory, which
    leaves the working directory where it was, outside of the new root or not. *)
Theorem directories_change_on_success s filename :
  vfs_wf s ->
  wp (chdir filename) (fun r s' => vfs_wf s' /\ v_held s' = v_held s /\ status r /\
    if truthy r then still s s' else exists pa, redirected (fun '(_, root) => (pa, root)) s s') s /\
  wp (chroot filename) (fun r s' => vfs_wf s' /\ v_held s' = v_held s /\ status r /\
    if truthy r then still s s' else exists pa, redirected (fun '(pwd, _) => (pwd, pa)) s s') s.
Proof.
  intros Hs. split.
  - apply (with_path_spec [] _ _ _ _ _ (fun pa => redirected (fun '(_, root) => (pa, root))));
      [apply chdir_body|apply (redirected_framed (fun pa '(_, root) => (pa, root)))|done|done].
  - apply (with_path_spec [] _ _ _ _ _ (fun pa => redirected (fun '(pwd, _) => (pwd, pa))));
      [apply chroot_body|apply (redirected_framed (fun pa '(pwd, _) => (pwd, pa)))|done|done].
Qed.

Lemma good_directory d dfd name fl body G :
  path_body d body G -> framed G -> (forall pa s s', G pa s s' -> same_table s s') ->
  good same_table d (with_path false dfd name fl body) (fun _ => d) status.
Proof.
  intros Hbody HG Htab s h Hs Hh. eapply wp_mono; [|by apply (with_path_spec d false dfd name fl body G s h)].
  intros r s' (? & ? & ? & Hr). split_and!; try done.
  destruct (truthy r); [by apply (frame_still (R := same_table))|]. destruct Hr as [pa Hr]. by eapply Htab.
Qed.
Lemma redirected_table g s s' : redirected g s s' -> same_table s s'.
Proof. by intros (_ & ? & _). Qed.
Lemma good_chdir d name : good same_table d (chdir name) (fun _ => d) status.
Proof.
  eapply good_directory; [apply chdir_body|apply (redirected_framed (fun pa '(_, root) => (pa, root)))|].
  intros pa s s'. apply redirected_table.
Qed.
Lemma good_chroot d name : good same_table d (chroot name) (fun _ => d) status.
Proof.
  eapply good_directory; [apply chroot_body|apply (redirected_framed (fun pa '(pwd, _) => (pwd, pa)))|].
  intros pa s s'. apply redirected_table.
Qed.

Lemma good_fchdir d fd : good same_table d (fchdir fd) (fun _ => d) status.
Proof.
  unfold fchdir. eapply good_bind; [apply good_fdget_raw|]. intros [p|] _; [|by apply good_ret].
  eapply good_bind; [apply good_file_at, holds_file_here|]. intros f _.
  eapply good_bind; [apply good_gets_any|]. intros dir _.
  eapply (good_bind _ _ (fun _ => FileRef p :: d) status).
  - destruct (negb dir); [by apply good_ret|].
    eapply good_bind; [apply (good_gets _ _ status); intros; apply file_permission_ret|]. intros e He.
    eapply (good_bind _ _ (fun _ => FileRef p :: d) (fun _ => True)); [|intros; by apply good_ret].
    destruct (truthy e); [apply good_skip|]. intros s h Hs Hh.
    eapply wp_mono; [|by apply update_fs_spec]. intros ? s1 (? & Hh1 & Hred). split_and!; try done. by eapply redirected_table.
  - intros e He. eapply good_bind; [apply good_fdput|]. intros ? _. by apply good_ret.
Qed.

(** ** Modes and owners *)

(** An attempt ends with the inode to wait for, if there is one. *)
Definition attempt_post d (x : Z * option Z) : list resource := if x.2 is Some i then InodeRef i :: d else d.

Lemma attempt_notify P `{!Stable P} d ino mnt dentry a :
  sure P (InodeLock ino :: d) (notify_change mnt dentry a true)
    (attempt_post (InodeLock ino :: d)) (fun x => status x.1).
Proof. apply sure_good. eapply good_mono; [apply good_notify|]. by intros x [? _]. Qed.

(** The lock goes, the inode to wait for stays. *)
Lemma attempt_unlock P d ino (x : Z * option Z) :
  status x.1 ->
  sure P (attempt_post (InodeLock ino :: d) x) (inode_unlock ino;; mret x) (attempt_post d) (fun x => status x.1).
Proof.
  intros Hx. apply sure_good. destruct x as [e [i|]]; cbn in *.
  - eapply good_bind; [by apply good_release_second|]. intros ? _. by apply (good_ret_at (attempt_post d) (e, Some i)).
  - eapply good_bind; [apply good_inode_unlock|]. intros ? _. by apply (good_ret_at (attempt_post d) (e, None)).
Qed.

(** Code that changes nothing but the ledger. *)
Definition ledger_only {A} (m : Kern vfs A) : Prop :=
  forall s a s', m s = Done a s' -> exists l, s' = s <| v_held := l |>.
Lemma ledger_gets {A} (g : vfs -> A) : ledger_only (gets g).
Proof. intros s a s' [= <- <-]. exists (v_held s). by destruct s. Qed.
Lemma ledger_ret {A} (a : A) : ledger_only (mret a).
Proof. intros s a' s' [= <- <-]. exists (v_held s). by destruct s. Qed.
Lemma ledger_bind {A B} (m : Kern vfs A) (k : A -> Kern vfs B) :
  ledger_only m -> (forall a, ledger_only (k a)) -> ledger_only (m ≫= k).
Proof.
  intros Hm Hk s b s' Hrun. unfold mbind, kern_bind in Hrun. destruct (m s) as [a s1|] eqn:Hms; [|done].
  destruct (Hm _ _ _ Hms) as [l ->]. destruct (Hk _ _ _ _ Hrun) as [l' ->]. by exists l'.
Qed.
Lemma ledger_acquire r : ledger_only (acquire r).
Proof. intros s a s' [= <- <-]. by exists (r :: v_held s). Qed.
Lemma ledger_deref {A} c (o : option A) : ledger_only (deref (S := vfs) c o).
Proof. destruct o; [apply ledger_ret|done]. Qed.
Lemma ledger_release r : ledger_only (release r).
Proof.
  apply ledger_bind; [apply ledger_gets|]. intros l. apply ledger_bind; [apply ledger_deref|].
  intros l' s a s' [= <- <-]. by exists l'.
Qed.
Lemma ledger_inode_at i : ledger_only (inode_at i).
Proof. apply ledger_bind; [apply ledger_gets|]. intros o. apply ledger_deref. Qed.

(** ** Termination of the delegation loops *)
Section Delegations.
Context `{!DelegEnv} `{!DelegEnvOk}.

(** [sure], and no new delegations. *)
Definition tame {A} P d (m : Kern vfs A) (D : A -> list resource) (Q : A -> Prop) : Prop :=
  forall s h, P s -> vfs_wf s -> v_held s = d ++ h ->
  wp m (fun a s' => (vfs_wf s' /\ v_held s' = D a ++ h /\ still s s' /\ Q a) /\
                    (delegations s' <= delegations s)%nat) s.

Lemma tame_ledger {A} P d (m : Kern vfs A) D Q : sure P d m D Q -> ledger_only m -> tame P d m D Q.
Proof.
  intros Hm Hl s h HP Hs Hh. specialize (Hm s h HP Hs Hh). unfold wp in *. specialize (Hl s).
  destruct (m s) as [a s'|]; [|done]. split; [done|]. destruct (Hl _ _ eq_refl) as [l ->].
  by rewrite delegations_ledger.
Qed.
Lemma tame_bind {A B} P `{!Stable P} d (m : Kern vfs A) D Q (k : A -> Kern vfs B) D' Q' :
  tame P d m D Q -> (forall a, Q a -> tame P (D a) (k a) D' Q') -> tame P d (m ≫= k) D' Q'.
Proof.
  intros Hm Hk s h HP Hs Hh. rewrite wp_bind. eapply wp_mono; [|by apply Hm].
  intros a s1 ((Hs1 & Hh1 & Hst1 & HQ) & Hle1).
  eapply wp_mono; [|apply (Hk a HQ s1 h); [by eapply stable|done|done]].
  intros b s2 ((? & ? & ? & ?) & ?). split; [|lia]. split_and!; try done. by etrans.
Qed.
Lemma tame_notify P `{!Stable P} d ino mnt dentry a :
  tame P (InodeLock ino :: d) (notify_change mnt dentry a true)
    (attempt_post (InodeLock ino :: d)) (fun x => status x.1).
Proof.
  intros s h HP Hs Hh. apply wp_and; [by apply (attempt_notify P)|by apply notify_change_grants_none].
Qed.

Lemma tame_chmod d pa ino mode :
  tame (inode_live ino) d (chmod_attempt pa ino mode) (attempt_post d) (fun x => status x.1).
Proof.
  unfold chmod_attempt. eapply tame_bind; [apply _|apply tame_ledger; [apply sure_good, good_inode_lock|apply ledger_acquire]|].
  intros ? _. eapply tame_bind; [apply _|apply tame_ledger; [apply sure_good, good_status; intros; apply security_path_chmod_ret|apply ledger_gets]|].
  intros e He. eapply (tame_bind _ _ _ (attempt_post (InodeLock ino :: d))
    (fun x => status x.1)).
  - destruct (truthy e).
    + apply tame_ledger; [|apply ledger_ret]. by apply sure_good, (good_ret_at (attempt_post (InodeLock ino :: d)) (e, None)).
    + eapply tame_bind; [apply _| |].
      { apply (tame_ledger _ _ _ (fun _ => InodeLock ino :: d) (fun _ => True)); [|apply ledger_inode_at].
        intros s h [i Hi] Hs Hh. rewrite wp_inode_at by done. by split_and!. }
      intros i _. apply tame_notify. apply _.
  - intros x Hx. apply tame_ledger; [by apply attempt_unlock|].
    apply ledger_bind; [apply ledger_release|]. intros ?. apply ledger_ret.
Qed.

Lemma tame_inode_at d ino i0 :
  ino = i0 -> tame (inode_live ino) d (inode_at i0) (fun _ => d) (fun _ => True).
Proof.
  intros <-. apply tame_ledger; [|apply ledger_inode_at].
  intros s h [i Hi] Hs Hh. rewrite wp_inode_at by done. by split_and!.
Qed.

Lemma tame_chown d pa ino ns user group uid gid :
  tame (inode_live ino) d (chown_attempt pa ino ns user group uid gid) (attempt_post d) (fun x => status x.1).
Proof.
  unfold chown_attempt. destruct (chown_attrs user group uid gid) as [attrs|].
  2: { apply tame_ledger; [|apply ledger_ret]. by apply sure_good, (good_ret_at (attempt_post d) (- EINVAL, None)). }
  eapply tame_bind; [apply _|apply tame_ledger; [apply sure_good, good_inode_lock|apply ledger_acquire]|]. intros ? _.
  eapply tame_bind; [apply _|by apply tame_inode_at|]. intros inode _.
  eapply tame_bind; [apply _|apply tame_ledger; [apply sure_good, good_gets_any|apply ledger_gets]|]. intros sgid _.
  eapply tame_bind; [apply _|apply tame_ledger; [apply sure_good, good_status; intros; apply security_path_chown_ret|apply ledger_gets]|].
  intros e He. eapply (tame_bind _ _ _ (attempt_post (InodeLock ino :: d)) (fun x => status x.1)).
  - destruct (truthy e); [|apply tame_notify; apply _]. apply tame_ledger; [|apply ledger_ret].
    by apply sure_good, (good_ret_at (attempt_post (InodeLock ino :: d)) (e, None)).
  - intros x Hx. apply tame_ledger; [by apply attempt_unlock|].
    apply ledger_bind; [apply ledger_release|]. intros ?. apply ledger_ret.
Qed.

(** The loop ends when there are no more delegations to wait for. *)
Lemma deleg_loop_spec P `{!Stable P} d attempt :
  tame P d attempt (attempt_post d) (fun x => status x.1) ->
  forall fuel s h, (delegations s <= fuel)%nat -> P s -> vfs_wf s -> v_held s = d ++ h ->
  wp (deleg_loop fuel attempt) (fun r s' => vfs_wf s' /\ v_held s' = d ++ h /\ still s s' /\ status r) s.
Proof.
  intros Ha fuel. induction fuel as [|fuel IH]; intros s h Hf HP Hs Hh; cbn [deleg_loop]; rewrite wp_bind.
  all: eapply wp_mono; [|by apply Ha]; intros [e [i|]] s1 ((Hs1 & Hh1 & Hst1 & He) & Hle); cbn in He.
  2, 4: rewrite wp_ret; by split_and!.
  all: rewrite wp_bind; eapply wp_mono; [|apply wp_and; [by apply (good_break d i s1 h)|exact (break_deleg_breaks s1 i (d ++ h) Hs1 Hh1)]].
  all: intros r s2 ((Hs2 & Hh2 & Hst2 & Hr) & Hlt); cbn beta in *.
  all: destruct (truthy r) eqn:Ht; [rewrite wp_ret; split_and!; try done; by etrans|].
  all: apply truthy_false in Ht; specialize (Hlt Ht).
  - lia.
  - eapply wp_mono; [|apply (IH s2 h); [lia|eapply stable; [|done]; by etrans|done|done]].
    intros r' s3 (? & ? & ? & ?). split_and!; try done. etrans; [done|]. by etrans.
Qed.

(** More rounds than needed change nothing. *)
Lemma deleg_loop_more fuel fuel' attempt s r s' :
  (fuel <= fuel')%nat -> deleg_loop fuel attempt s = Done r s' -> deleg_loop fuel' attempt s = Done r s'.
Proof.
  revert fuel' s. induction fuel as [|fuel IH]; intros fuel' s Hle Hrun; destruct fuel' as [|fuel']; try lia; try done.
  all: cbn [deleg_loop] in *; unfold mbind, kern_bind in *; destruct (attempt s) as [[e [i|]] s1|]; try done.
  all: destruct (break_deleg_wait i s1) as [e1 s2|]; [|done]; destruct (truthy e1); try done.
  apply IH; [lia|done].
Qed.

(** C24: [chmod] and [chown] come to an end although they start over for every
    delegation in their way: as long as no new delegations are given out, there is
    at most one attempt more than there are delegations.  The loop then returns 0
    or an error, with the inode unlocked and no inode pinned, and allowing for more
    attempts does not change what it returns. *)
Theorem delegation_loops_finish s pa ino mode ns user group uid gid fuel :
  vfs_wf s -> inode_live ino s -> (delegations s <= fuel)%nat ->
  let done attempt := exists r s', status r /\ vfs_wf s' /\ v_held s' = v_held s /\ still s s' /\
    forall fuel', (fuel <= fuel')%nat -> deleg_loop fuel' attempt s = Done r s' in
  done (chmod_attempt pa ino mode) /\ done (chown_attempt pa ino ns user group uid gid).
Proof.
  intros Hs Hl Hf. assert (forall attempt, tame (inode_live ino) [] attempt (attempt_post []) (fun x => status x.1) ->
    exists r s', status r /\ vfs_wf s' /\ v_held s' = v_held s /\ still s s' /\
    forall fuel', (fuel <= fuel')%nat -> deleg_loop fuel' attempt s = Done r s') as Hdone.
  { intros attempt Ha. pose proof (deleg_loop_spec (inode_live ino) [] attempt Ha fuel s (v_held s) Hf Hl Hs eq_refl) as Hw.
    unfold wp in Hw. destruct (deleg_loop fuel attempt s) as [r s'|] eqn:Hrun; [|done].
    destruct Hw as (? & ? & ? & ?). exists r, s'. split_and!; try done. intros fuel' Hle. by eapply deleg_loop_more. }
  split; apply Hdone; [apply tame_chmod|apply tame_chown].
Qed.

(** Enough fuel for every state. *)
Context (fuel : nat) (Hfuel : forall s, (delegations s <= fuel)%nat).

Lemma sure_chmod_common P `{!Stable P} d pa mode :
  (forall s, P s -> vfs_wf s -> pinned (p_dentry pa) s) ->
  sure P d (chmod_common fuel pa mode) (fun _ => d) status.
Proof.
  intros Hp. unfold chmod_common. apply sure_d_inode; [done|]. intros ino.
  eapply sure_bind; [apply _|apply sure_good, good_try; [intros; apply mnt_want_write_ret|done]|].
  intros e He. cbn beta. destruct (truthy e) eqn:Ht; [by apply sure_ret|].
  eapply sure_bind; [apply _| |intros e1 He1; by apply sure_good, good_drop_mnt].
  intros s h [_ [_ Hl]] Hs Hh. apply (deleg_loop_spec (inode_live ino)); try done. apply tame_chmod.
Qed.

Lemma sure_chown_common P `{!Stable P} d pa user group :
  (forall s, P s -> vfs_wf s -> pinned (p_dentry pa) s) ->
  sure P d (chown_common fuel pa user group) (fun _ => d) status.
Proof.
  intros Hp. unfold chown_common. apply sure_d_inode; [done|]. intros ino.
  eapply sure_bind; [apply _|apply sure_good, good_current_cred|]. intros c _.
  apply sure_inode_at; [by intros s [_ [_ ?]]|]. intros inode _.
  intros s h [_ [_ Hl]] Hs Hh. apply (deleg_loop_spec (inode_live ino)); try done. apply tame_chown.
Qed.

Lemma good_do_fchmodat d dfd name mode flags : good still d (do_fchmodat fuel dfd name mode flags) (fun _ => d) status.
Proof.
  unfold do_fchmodat. good_refuse. apply good_with_path. intros pa.
  apply (good_sure (pinned (p_dentry pa))); [intros; by eapply path_pinned|]. by apply sure_chmod_common; [apply _|].
Qed.

Lemma good_fchmod d fd mode : good still d (fchmod fuel fd mode) (fun _ => d) status.
Proof.
  unfold fchmod, vfs_fchmod. eapply good_bind; [apply good_fdget|]. intros [p|] _; [|by apply good_ret].
  eapply good_bind; [|intros e He; by apply good_putf].
  eapply good_bind; [apply good_note|]. intros ? _. apply (good_sure (fun _ => True)); [done|].
  apply sure_file_at; [apply holds_file_here|]. intros f _. apply sure_chmod_common; [apply _|].
  intros s [_ [Hd _]] _. by exists (f_inode f).
Qed.

Lemma good_do_fchownat d dfd name user group flag :
  good still d (do_fchownat fuel dfd name user group flag) (fun _ => d) status.
Proof.
  unfold do_fchownat. good_refuse. apply good_with_path. intros pa.
  apply (good_sure (pinned (p_dentry pa))); [intros; by eapply path_pinned|].
  eapply sure_bind; [apply _|apply sure_good, good_try; [intros; apply mnt_want_write_ret|done]|].
  intros e He. cbn beta. destruct (truthy e); [by apply sure_ret|].
  eapply sure_bind; [apply _|by apply sure_chown_common; [apply _|]|]. intros e1 He1. by apply sure_good, good_drop_mnt.
Qed.

Lemma good_fchown d fd user group : good still d (fchown fuel fd user group) (fun _ => d) status.
Proof.
  unfold fchown, ksys_fchown, vfs_fchown. eapply good_bind; [apply good_fdget|]. intros [p|] _; [|by apply good_ret].
  eapply good_bind; [|intros e He; by apply good_putf]. apply (good_sure (fun _ => True)); [done|].
  apply sure_file_at; [apply holds_file_here|]. intros f _.
  eapply sure_bind; [apply _|apply sure_good, good_try; [intros; apply mnt_want_write_file_ret|done]|].
  intros e He. cbn beta. destruct (truthy e); [by apply sure_ret|].
  eapply sure_bind; [apply _|apply sure_good, good_note|]. intros ? _.
  eapply sure_bind; [apply _|apply sure_chown_common; [apply _|]|intros e1 He1; by apply sure_good, good_drop_mnt].
  intros s [_ [Hd _]] _. by exists (f_inode f).
Qed.
End Delegations.
End AttrCalls.
