(* ===== verification/FsCalls.v ===== *)
(** Everything together: a process that makes any sequence of the file system calls
    of [fs/read_write.c] and [fs/open.c].

    Each call is proved in the file of its component; here they are composed, one
    after the other, on the state the previous one left. *)

From S2P Require Import Prelude Uaccess Kernel Track Cred Vfs Seek ReadWrite VecIo CopyRange OpenFlags.
From S2P Require Import Open OpenCalls Attr AttrCalls.

Inductive fs_call :=
  | Lseek (fd offset whence : Z)
  | Llseek (fd offset_high offset_low result whence : Z)
  | Read (now : timespec64) (fd buf count : Z)
  | Write (now : timespec64) (fd buf count : Z)
  | Pread64 (fd buf count pos : Z)
  | Pwrite64 (fd buf count pos : Z)
  | Readv (fd vec vlen : Z)
  | Writev (fd vec vlen : Z)
  | Preadv (fd vec vlen pos_l pos_h : Z)
  | Pwritev (fd vec vlen pos_l pos_h : Z)
  | Preadv2 (fd vec vlen pos_l pos_h flags : Z)
  | Pwritev2 (fd vec vlen pos_l pos_h flags : Z)
  | Sendfile (out_fd in_fd offset count : Z)
  | Sendfile64 (out_fd in_fd offset count : Z)
  | CopyFileRange (fd_in off_in fd_out off_out len flags : Z)
  | Open (now : timespec64) (filename flags mode : Z)
  | Openat (dfd filename flags mode : Z)
  | Openat2 (dfd filename how usize : Z)
  | Creat (pathname mode : Z)
  | Close (now : timespec64) (fd : Z)
  | CloseRange (fd max_fd flags : Z)
  | Truncate (path length : Z)
  | Ftruncate (fd length : Z)
  | Fallocate (fd mode offset len : Z)
  | Faccessat2 (dfd filename mode flags : Z)
  | Chdir (filename : Z)
  | Fchdir (fd : Z)
  | Chroot (filename : Z)
  | Fchmod (fd mode : Z)
  | Fchmodat2 (dfd filename mode flags : Z)
  | Fchown (fd user group : Z)
  | Fchownat (dfd filename user group flag : Z)
  | Vhangup.

Section FsCalls.
Context `{UserArch} `{KernelEnv} `{CredEnv} `{VfsEnv} `{!SpliceEnv} `{!OpenEnv} `{!AttrEnv}.

Definition fs_exec (fuel : nat) (c : fs_call) : Kern vfs Z :=
  match c with
  | Lseek fd off wh => lseek fd off wh
  | Llseek fd hi lo res wh => llseek fd hi lo res wh
  | Read now fd buf n => read now fd buf n
  | Write now fd buf n => write now fd buf n
  | Pread64 fd buf n pos => pread64 fd buf n pos
  | Pwrite64 fd buf n pos => pwrite64 fd buf n pos
  | Readv fd vec vlen => readv fd vec vlen
  | Writev fd vec vlen => writev fd vec vlen
  | Preadv fd vec vlen l h => preadv fd vec vlen l h
  | Pwritev fd vec vlen l h => pwritev fd vec vlen l h
  | Preadv2 fd vec vlen l h fl => preadv2 fd vec vlen l h fl
  | Pwritev2 fd vec vlen l h fl => pwritev2 fd vec vlen l h fl
  | Sendfile o i off n => sendfile o i off n
  | Sendfile64 o i off n => sendfile64 o i off n
  | CopyFileRange i ioff o ooff n fl => copy_file_range i ioff o ooff n fl
  | Open now name fl mode => open now name fl mode
  | Openat dfd name fl mode => openat dfd name fl mode
  | Openat2 dfd name how usize => openat2 dfd name how usize
  | Creat name mode => creat name mode
  | Close now fd => close now fd
  | CloseRange fd max_fd fl => close_range fd max_fd fl
  | Truncate name len => truncate name len
  | Ftruncate fd len => ftruncate fd len
  | Fallocate fd mode off len => fallocate fd mode off len
  | Faccessat2 dfd name mode fl => faccessat2 dfd name mode fl
  | Chdir name => chdir name
  | Fchdir fd => fchdir fd
  | Chroot name => chroot name
  | Fchmod fd mode => fchmod fuel fd mode
  | Fchmodat2 dfd name mode fl => fchmodat2 fuel dfd name mode fl
  | Fchown fd u g => fchown fuel fd u g
  | Fchownat dfd name u g fl => fchownat fuel dfd name u g fl
  | Vhangup => vhangup
  end.

(** The registers a call is made with: sizes are unsigned, offsets fit their type. *)
Definition args_ok (c : fs_call) : Prop :=
  match c with
  | Lseek _ offset _ => is_s64 offset
  | Read _ _ _ n | Write _ _ _ n | Sendfile _ _ _ n | Sendfile64 _ _ _ n | CopyFileRange _ _ _ _ n _ => 0 <= n
  | Pread64 _ _ n pos | Pwrite64 _ _ n pos => 0 <= n /\ pos < 2 ^ 63
  | _ => True
  end.

Fixpoint fs_run (fuel : nat) (cs : list fs_call) : Kern vfs (list Z) :=
  match cs with
  | [] => mret []
  | c :: cs => r ← fs_exec fuel c; rs ← fs_run fuel cs; mret (r :: rs)
  end.
End FsCalls.

(** The calls that may add or remove descriptors. *)
Definition changes_table (c : fs_call) : bool :=
  match c with Open _ _ _ _ | Openat _ _ _ _ | Openat2 _ _ _ _ | Creat _ _ | Close _ _ | CloseRange _ _ _ => true | _ => false end.

Section Safe.
Context `{UserArchOk} `{KernelEnv} `{CredEnv} `{UioOk} `{!VfsEnv} `{!VfsEnvOk} `{!SpliceEnv} `{!SpliceEnvOk}
  `{!OpenEnv} `{!OpenEnvOk} `{!AttrEnv} `{!AttrEnvOk} `{!DelegEnv} `{!DelegEnvOk}.
Context (fuel : nat) (Hfuel : forall s, (delegations s <= fuel)%nat).

Definition call_done (c : fs_call) (s s' : vfs) : Prop :=
  vfs_wf s' /\ v_held s' = v_held s /\ (changes_table c = false -> v_fdt s' = v_fdt s).

Lemma good_call c {m : Kern vfs Z} {R Q} s :
  Frame R -> (forall s s', R s s' -> same_table s s') -> good R [] m (fun _ => []) Q ->
  vfs_wf s -> wp m (fun _ => call_done c s) s.
Proof.
  intros HR HRt Hm Hs. eapply wp_mono; [|by apply (Hm s (v_held s))].
  intros r s' (? & ? & ? & _). split_and!; try done. intros _. by apply HRt.
Qed.
Lemma table_call c {m : Kern vfs Z} {Q} s :
  good same_table [] m (fun _ => []) Q -> vfs_wf s -> wp m (fun _ => call_done c s) s.
Proof. intros Hm Hs. eapply (good_call c (R := same_table)); [apply _|done|done|done]. Qed.
Lemma still_call c {m : Kern vfs Z} {Q} s :
  good still [] m (fun _ => []) Q -> vfs_wf s -> wp m (fun _ => call_done c s) s.
Proof. intros Hm Hs. eapply (good_call c (R := still)); [apply _| |done|done]. intros s1 s2. apply (frame_still (R := same_table)). Qed.

Lemma opened_call c s0 s r s' :
  changes_table c = true -> v_held s0 = v_held s -> opened s0 r s' -> call_done c s s'.
Proof. intros Hc Hh (? & Hh' & _). split_and!; [done|by rewrite Hh'|by rewrite Hc]. Qed.

Lemma pos_hilo_range h l : pos_from_hilo h l < 2 ^ 63.
Proof. unfold pos_from_hilo. apply s64_range. Qed.

Lemma fs_exec_safe c s : args_ok c -> vfs_wf s -> wp (fs_exec fuel c) (fun _ => call_done c s) s.
Proof.
  intros Ha Hs. destruct c; cbn [fs_exec args_ok] in *.
  - eapply table_call; [by apply good_lseek|done].
  - eapply table_call; [apply good_llseek|done].
  - eapply table_call; [by apply good_read|done].
  - eapply table_call; [by apply good_write|done].
  - eapply table_call; [apply good_pread64; apply Ha|done].
  - eapply table_call; [apply good_pwrite64; apply Ha|done].
  - eapply table_call; [by apply good_do_readv|done].
  - eapply table_call; [by apply good_do_writev|done].
  - eapply table_call; [by apply good_do_preadv, pos_hilo_range|done].
  - eapply table_call; [by apply good_do_pwritev, pos_hilo_range|done].
  - unfold preadv2. destruct (_ =? _);
      eapply table_call; [by apply good_do_readv|done|by apply good_do_preadv, pos_hilo_range|done].
  - unfold pwritev2. destruct (_ =? _);
      eapply table_call; [by apply good_do_writev|done|by apply good_do_pwritev, pos_hilo_range|done].
  - eapply table_call; [by apply good_sendfile|done].
  - eapply table_call; [by apply good_sendfile64|done].
  - eapply table_call; [by apply good_copy_file_range|done].
  - unfold open. rewrite wp_bind, (wp_run _ _ _ _ _ (v_track_run s __NR_open now Hs ltac:(by unfold __NR_open))).
    eapply wp_mono; [|by apply openat2_spec, vfs_wf_counted]. intros r s'. by apply opened_call.
  - eapply wp_mono; [|by apply openat2_spec]. intros r s'. by apply opened_call.
  - eapply wp_mono; [|by apply openat2_call]. intros r s'. by apply opened_call.
  - eapply wp_mono; [|by apply openat2_spec]. intros r s'. by apply opened_call.
  - unfold close. rewrite wp_bind, (wp_run _ _ _ _ _ (v_track_run s __NR_close now Hs ltac:(by unfold __NR_close))).
    eapply wp_mono; [|by apply close_spec, vfs_wf_counted]. intros r s' (? & Hh & _). by split_and!.
  - eapply wp_mono; [|by apply __close_range_ok]. intros r s' (? & ? & ? & ?). by split_and!.
  - eapply still_call; [apply good_truncate|done].
  - eapply still_call; [apply good_do_ftruncate|done].
  - eapply still_call; [apply good_fallocate|done].
  - eapply still_call; [apply good_faccessat|done].
  - eapply table_call; [apply good_chdir|done].
  - eapply table_call; [apply good_fchdir|done].
  - eapply table_call; [apply good_chroot|done].
  - eapply still_call; [by apply good_fchmod|done].
  - eapply still_call; [by apply good_do_fchmodat|done].
  - eapply still_call; [by apply good_fchown|done].
  - eapply still_call; [by apply good_do_fchownat|done].
  - eapply (still_call _ (Q := fun _ => True)); [|done]. unfold vhangup.
    eapply good_bind; [apply good_gets_any|]. intros [] _; [|by apply good_ret].
    eapply good_bind; [apply good_note|]. intros ? _. by apply good_ret.
Qed.

(** C1: Any sequence of file system calls is safe: every call returns (no NULL or
    freed object is followed, no [BUG()] is hit, no loop runs forever), the objects
    stay consistent (descriptors lead to open files whose modes promise only what
    their file systems have), and every reference, lock, write section, name and
    reserved descriptor taken on the way is given back.  Only the open and close
    calls change the descriptor table. *)
Theorem calls_are_safe cs s :
  vfs_wf s -> v_held s = [] -> Forall args_ok cs ->
  wp (fs_run fuel cs) (fun rs s' => length rs = length cs /\ vfs_wf s' /\ v_held s' = [] /\
    (existsb changes_table cs = false -> v_fdt s' = v_fdt s)) s.
Proof.
  intros Hs Hh Hcs. revert s Hs Hh. induction Hcs as [|c cs Hc _ IH]; intros s Hs Hh; cbn [fs_run].
  - by rewrite wp_ret.
  - rewrite wp_bind. eapply wp_mono; [|by apply fs_exec_safe]. intros r s1 (Hs1 & Hh1 & Ht1).
    rewrite wp_bind. eapply wp_mono; [|apply IH; [done|by rewrite Hh1]]. intros rs s2 (Hlen & ? & ? & Ht2).
    rewrite wp_ret. cbn. split_and!; try done; [by rewrite Hlen|]. intros [Hf1 Hf2]%orb_false_iff.
    by rewrite Ht2, Ht1.
Qed.
End Safe.
