(* ===== verification/SampleFs.v ===== *)
(** A file system in memory that keeps every promise the other files rely on, and
    the theorems about the file system calls applied to it.

    Operations 1 are a regular file in memory, operations 2 a device that reads as
    empty and swallows what is written.  A name is the number of a dentry.  The
    delegations that are out are the bytes kept under key 0 of [v_data]. *)

From S2P Require Import Prelude Uaccess Kernel Track Cred Vfs Seek ReadWrite VecIo CopyRange OpenFlags.
From S2P Require Import Open OpenCalls Attr AttrCalls FsCalls.

(** ** Iterators are lists of segments *)
Definition segs := list (Z * N).
Definition seg_z (x : Z * N) : Z * Z := (x.1, Z.of_N x.2).
Definition seg_count (i : segs) : Z := seg_total (map seg_z i).

Fixpoint seg_advance (i : segs) (n : N) : segs :=
  match i with
  | [] => []
  | (a, l) :: t => if (l <=? n)%N then seg_advance t (n - l) else (a + Z.of_N n, (l - n)%N) :: t
  end.
Fixpoint seg_truncate (i : segs) (n : N) : segs :=
  match i with
  | [] => []
  | (a, l) :: t => if (n <=? l)%N then [(a, n)] else (a, l) :: seg_truncate t (n - l)
  end.

(** The array of (address, length) pairs in user memory. *)
Definition user_segs (k : kernel) (v n : Z) : segs :=
  map (fun j => let at8 o := le_val (read_bytes (k_user k) (v + 16 * Z.of_nat j + o) 8) in (at8 0, Z.to_N (at8 8)))
      (seq 0 (Z.to_nat n)).

#[global] Instance seg_uio : Uio := {|
  iov_iter := segs;
  iov_iter_count := seg_count;
  iter_iov_addr i := match i with (a, _) :: _ => a | [] => 0 end;
  iter_iov_len i := match i with (_, n) :: _ => Z.of_N n | [] => 0 end;
  iov_iter_advance i n := seg_advance i (Z.to_N n);
  iov_iter_truncate i n := seg_truncate i (Z.to_N n);
  iov_iter_ubuf a n := [(a, Z.to_N n)];
  iov_iter_kvec a n := [(a, Z.to_N n)];
  import_iovec k _ v n :=
    let i := seg_truncate (user_segs k v n) (Z.to_N MAX_RW_COUNT) in
    if (n <? 0) || (1024 <? n) then (- EINVAL, i) else (seg_count i, i);
  iter_segs i := map seg_z i;
|}.

Lemma seg_count_cons a n i : seg_count ((a, n) :: i) = Z.of_N n + seg_count i.
Proof. done. Qed.
Lemma seg_count_nonneg i : 0 <= seg_count i.
Proof. induction i as [|[a n] i IH]; [done|]. rewrite seg_count_cons. lia. Qed.

Lemma seg_truncate_count i n : seg_count (seg_truncate i n) = Z.min (Z.of_N n) (seg_count i).
Proof.
  revert n. induction i as [|[a l] i IH]; intros n; [unfold seg_count; cbn; lia|].
  pose proof (seg_count_nonneg i). cbn [seg_truncate]. rewrite seg_count_cons.
  destruct (N.leb_spec n l); rewrite seg_count_cons; [unfold seg_count at 1; cbn; lia|]. rewrite IH. lia.
Qed.

Lemma seg_skip_empty i : exists empty, Forall (fun x => x.2 = 0) empty /\
  map seg_z i = empty ++ map seg_z (seg_advance i 0).
Proof.
  induction i as [|[a l] i (e & He & Heq)]; [by exists []|]. cbn. destruct (N.leb_spec l 0).
  - exists (seg_z (a, l) :: e). rewrite N.sub_0_l. split; [constructor; [cbn; lia|done]|]. cbn. by rewrite Heq.
  - exists []. split; [done|]. cbn. by rewrite Z.add_0_r, N.sub_0_r.
Qed.

#[global] Instance seg_uio_ok : UioOk.
Proof.
  split.
  - intros i. induction i as [|[a n] i IH]; cbn; constructor; [cbn; lia|done].
  - done.
  - intros [|[a l] i] Hc; [done|]. cbn. rewrite N2Z.id, N.leb_refl, N.sub_diag.
    destruct (seg_skip_empty i) as (e & He & Heq). exists e. split; [done|]. by rewrite Heq.
  - intros a n Hn. unfold seg_count. cbn. lia.
  - intros a n Hn. unfold seg_count. cbn. lia.
  - intros i n Hn. change (seg_count (seg_truncate i (Z.to_N n)) = Z.min n (seg_count i)).
    rewrite seg_truncate_count. lia.
  - intros k dest v n. pose proof (seg_truncate_count (user_segs k v n) (Z.to_N MAX_RW_COUNT)) as Hc.
    unfold import_iovec. cbn -[seg_count seg_truncate user_segs MAX_RW_COUNT]. destruct (_ || _); [by left|]. right. split; [done|].
    rewrite Hc. unfold MAX_RW_COUNT. lia.
Qed.

(** ** Files in memory *)
Definition ram_limit : Z := 2 ^ 40.

(** [generic_file_llseek] looks at nothing but the limit of the super block. *)
Definition seek_env : VfsEnv := {|
  s_maxbytes _ := ram_limit;
  fop_llseek _ := None; fop_read _ := None; fop_write _ := None; fop_read_iter _ := None; fop_write_iter _ := None;
  security_file_permission _ _ _ := 0; fsnotify_file_area_perm _ _ _ _ _ := 0; kiocb_set_rw_flags _ i _ := (0, i);
|}.

Definition ram_read (iocb : kiocb) (i : segs) : Kern vfs (Z * kiocb * segs) :=
  inode ← file_inode (ki_filp iocb);
  let n := Z.max 0 (Z.min (seg_count i) (i_size inode - ki_pos iocb)) in
  mret (n, iocb <| ki_pos := ki_pos iocb + n |>, seg_advance i (Z.to_N n)).

Definition set_size (ino size : Z) : Kern vfs unit :=
  inode ← inode_at ino;
  modify (fun s => s <| v_inodes ::= <[ino := inode <| i_size := size |>]> |>).

Definition ram_write (iocb : kiocb) (i : segs) : Kern vfs (Z * kiocb * segs) :=
  f ← file_at (ki_filp iocb);
  inode ← inode_at (f_inode f);
  let n := seg_count i in
  if (ki_pos iocb <? 0) || (ram_limit <? ki_pos iocb + n) then mret (- EFBIG, iocb, i)
  else
  set_size (f_inode f) (Z.max (i_size inode) (ki_pos iocb + n));;
  mret (n, iocb <| ki_pos := ki_pos iocb + n |>, seg_advance i (Z.to_N n)).

#[global] Instance ram_vfs : VfsEnv := {|
  s_maxbytes _ := ram_limit;
  fop_llseek o := if o =? 1 then Some (@generic_file_llseek seg_uio seek_env) else None;
  fop_read o := if o =? 2 then Some (fun _ _ _ pos => mret (0, pos)) else None;
  fop_write o := if o =? 2 then Some (fun _ _ n pos => mret (n, pos)) else None;
  fop_read_iter o := if o =? 1 then Some ram_read else None;
  fop_write_iter o := if o =? 1 then Some ram_write else None;
  security_file_permission _ _ _ := 0;
  fsnotify_file_area_perm _ _ _ _ _ := 0;
  kiocb_set_rw_flags _ iocb _ := (0, iocb);
|}.

Lemma ram_llseek : @generic_file_llseek seg_uio seek_env = @generic_file_llseek seg_uio ram_vfs.
Proof. done. Qed.

(** What code of a file system does when it changes nothing, or a size. *)
Lemma outside_size s ino i size :
  vfs_wf s -> v_inodes s !! ino = Some i -> 0 <= size < 2 ^ 63 ->
  outside s (s <| v_inodes ::= <[ino := i <| i_size := size |>]> |>).
Proof.
  intros Hs Hi Hsize. split; try done.
  - intros q j Hj. cbn. rewrite lookup_insert. case_decide as Hq.
    + subst. rewrite Hi in Hj. injection Hj as ->. by eexists.
    + by exists j.
  - intros q j. cbn. rewrite lookup_insert_Some. intros [[<- <-]|[_ Hj]].
    + cbn. split; [done|]. by destruct (vw_inode s Hs _ _ Hi).
    + exact (vw_inode s Hs _ _ Hj).
Qed.

Lemma moved_stay p s f : vfs_wf s -> v_files s !! p = Some f -> is_s64 (f_pos f) -> moved p s s.
Proof.
  intros Hs Hf Hp. exists s, f, (f_pos f), (f_version f). split_and!; try done; [by apply outside_refl|].
  assert (f <| f_pos := f_pos f |> <| f_version := f_version f |> = f) as -> by by destruct f.
  by rewrite put_same_file.
Qed.

Lemma setpos_moves s p f offset maxsize :
  vfs_wf s -> open_file s p f -> is_s64 offset ->
  wp (vfs_setpos p offset maxsize) (fun r s' => moved p s s' /\ is_s64 r) s.
Proof.
  intros Hs [Hf Hw _ _ _] Ho. pose proof (fw_pos f Hw) as Hp. pose proof (moved_stay p s f Hs Hf Hp) as Hstay.
  unfold vfs_setpos. rewrite wp_bind, wp_file_at by done.
  destruct (_ && _); [rewrite wp_ret; by split|]. destruct (_ <? _); [rewrite wp_ret; by split|].
  rewrite wp_bind. destruct (negb _); [|rewrite wp_ret, wp_ret; by split].
  unfold put_file. rewrite wp_modify, wp_ret. split; [|done].
  exists s, f, offset, 0. split_and!; try done. by apply outside_refl.
Qed.

Lemma llseek_moves s p offset whence :
  vfs_wf s -> holds p (v_held s) -> is_s64 offset ->
  wp (generic_file_llseek p offset whence) (fun r s' => moved p s s' /\ is_s64 r) s.
Proof.
  intros Hs Hh Ho. destruct (vw_held s Hs p Hh) as [f Hf]. destruct (host_inode_wf s p f Hs Hf) as (i & Hi & Hsz).
  pose proof (of_file _ _ _ Hf) as Hf'. pose proof (fw_pos f (of_wf _ _ _ Hf)) as Hp. unfold inode_wf in Hsz.
  pose proof (moved_stay p s f Hs Hf' Hp) as Hstay.
  assert (is_s64 (i_size i)) as Hsize by (unfold is_s64; lia).
  unfold generic_file_llseek. rewrite wp_bind, (wp_run _ _ _ _ _ (mapping_inode_run s p f i Hf' Hi)).
  unfold generic_file_llseek_size.
  destruct (whence =? SEEK_END); [eapply setpos_moves; try done; apply s64_range|].
  destruct (whence =? SEEK_CUR).
  { rewrite wp_bind, wp_file_at by done. destruct (offset =? 0); [rewrite wp_ret; by split|].
    eapply setpos_moves; try done; apply s64_range. }
  destruct (whence =? SEEK_DATA); [destruct (_ <=? _); [rewrite wp_ret; by split|by eapply setpos_moves]|].
  destruct (whence =? SEEK_HOLE); [destruct (_ <=? _); [rewrite wp_ret; by split|by eapply setpos_moves]|].
  by eapply setpos_moves.
Qed.

(** The postcondition of the iterator methods. *)
Definition iter_ok (s : vfs) (iocb : kiocb) (i : segs) (x : Z * kiocb * segs) (s' : vfs) : Prop :=
  outside s s' /\ rw_ret (seg_count i) x.1.1 /\ is_s64 (ki_pos x.1.2) /\ ki_filp x.1.2 = ki_filp iocb /\
  (ki_sync iocb = true -> x.1.1 <> - EIOCBQUEUED).

Lemma ram_read_ok s iocb i :
  vfs_wf s -> holds (ki_filp iocb) (v_held s) -> is_s64 (ki_pos iocb) -> wp (ram_read iocb i) (iter_ok s iocb i) s.
Proof.
  intros Hs Hh Hp. pose proof (seg_count_nonneg i) as Hc. destruct (vw_held s Hs _ Hh) as [f [Hf _ [inode Hi] _ _]].
  destruct (vw_inode s Hs _ _ Hi) as [Hsz _].
  unfold ram_read, file_inode. rewrite wp_bind, wp_bind, wp_file_at, wp_inode_at, wp_ret by done.
  set (n := Z.max _ _). assert (0 <= n <= seg_count i /\ (n = 0 \/ ki_pos iocb + n <= i_size inode)) as [Hn Hend] by lia.
  split; [by apply outside_refl|]. cbn -[seg_count Z.add]. clearbody n. unfold is_s64 in *.
  split_and!; try done; try lia; [by right|]. intros _. unfold EIOCBQUEUED. lia.
Qed.

Lemma ram_write_ok s iocb i :
  vfs_wf s -> holds (ki_filp iocb) (v_held s) -> is_s64 (ki_pos iocb) -> wp (ram_write iocb i) (iter_ok s iocb i) s.
Proof.
  intros Hs Hh Hp. pose proof (seg_count_nonneg i) as Hc. destruct (vw_held s Hs _ Hh) as [f [Hf _ [inode Hi] _ _]].
  destruct (vw_inode s Hs _ _ Hi) as [Hsz _].
  unfold ram_write, set_size. rewrite wp_bind, wp_file_at, wp_bind, wp_inode_at by done.
  destruct (_ || _) eqn:Hr.
  - rewrite wp_ret. split; [by apply outside_refl|]. cbn -[seg_count]. split_and!; try done. by left.
  - apply orb_false_iff in Hr as [?%Z.ltb_ge ?%Z.ltb_ge]. unfold ram_limit, is_s64 in *.
    rewrite wp_bind, wp_bind, wp_inode_at by done. rewrite wp_modify, wp_ret.
    split; [apply outside_size; try done; lia|]. cbn -[seg_count Z.add]. unfold is_s64.
    split_and!; try done; try lia; [right; lia|]. intros _. unfold EIOCBQUEUED. lia.
Qed.

#[global] Instance ram_vfs_ok : VfsEnvOk.
Proof.
  split; cbn; try done.
  - intros o op p off whence s Hop Hs Hh Ho. destruct (o =? 1); [|done]. injection Hop as <-.
    rewrite ram_llseek. by apply llseek_moves.
  - intros o op p buf n pos s Hop Hs Hh Hn Hpos. destruct (o =? 2); [|done]. injection Hop as <-. rewrite wp_ret.
    split_and!; [by apply outside_refl|right; lia|by split].
  - intros o op p buf n pos s Hop Hs Hh Hn Hpos. destruct (o =? 2); [|done]. injection Hop as <-. rewrite wp_ret.
    split_and!; [by apply outside_refl|right; lia|by split].
  - intros o op iocb i s Hop Hs Hh Hp. destruct (o =? 1); [|done]. injection Hop as <-.
    eapply wp_mono; [|by apply ram_read_ok]. intros [[r iocb'] i'] s' (? & ? & ? & ? & ?). by split_and!.
  - intros o op iocb i s Hop Hs Hh Hp. destruct (o =? 1); [|done]. injection Hop as <-.
    eapply wp_mono; [|by apply ram_write_ok]. intros [[r iocb'] i'] s' (? & ? & ? & ? & ?). by split_and!.
Qed.

(** ** Copies: nothing to splice *)
#[global] Instance ram_splice : SpliceEnv := {|
  get_pipe_info _ _ := None;
  do_splice_direct _ pos _ qpos _ _ := mret (0, pos, qpos);
  splice_file_to_pipe _ _ pos _ _ := mret (0, pos);
  fop_copy_file_range _ := 0;
  call_copy_file_range _ _ _ _ _ _ _ := mret 0;
  fop_remap_file_range _ := None;
|}.
#[global] Instance ram_splice_ok : SpliceEnvOk.
Proof.
  split; intros; cbv [do_splice_direct splice_file_to_pipe call_copy_file_range fop_remap_file_range ram_splice] in *;
    try done; rewrite wp_ret; split_and!; try done; try (by apply outside_refl); right; lia.
Qed.

(** ** Opening *)

(** A key above all others. *)
Definition next_key {A} (m : gmap Z A) : Z := foldr (fun x n => Z.max (1 + x.1) n) 0 (map_to_list m).
Lemma next_key_nonneg {A} (m : gmap Z A) : 0 <= next_key m.
Proof. unfold next_key. induction (map_to_list m); cbn; lia. Qed.
Lemma next_key_fresh {A} (m : gmap Z A) : m !! next_key m = None.
Proof.
  destruct (m !! next_key m) as [a|] eqn:Ha; [|done]. apply elem_of_map_to_list in Ha.
  assert (forall l x, x ∈ l -> x.1 < foldr (fun x n => Z.max (1 + x.1) n) 0 (l : list (Z * A))) as Hlt.
  { induction l as [|y l IH]; intros x Hx; [by apply not_elem_of_nil in Hx|]. cbn.
    apply elem_of_cons in Hx as [->|Hx]; [lia|]. specialize (IH x Hx). lia. }
  specialize (Hlt _ _ Ha). cbn in Hlt. unfold next_key in Hlt. lia.
Qed.

Definition access_size (f : file) : nat :=
  if Z.land (f_mode f) (Z.lor FMODE_READ FMODE_WRITE) =? FMODE_READ then 1
  else if has (f_mode f) FMODE_WRITER then (if has (f_mode f) FMODE_BACKING then 3 else 2) else 0.
Definition refs_size (f : file) : nat :=
  (if has (f_mode f) FMODE_PATH then 0 else if f_op f =? 0 then 0 else 1) + access_size f.
Definition drop_held (n : nat) : Kern vfs unit := modify (fun s => s <| v_held ::= drop n |>).

Definition ram_put_access (p : Z) : Kern vfs unit := f ← file_at p; drop_held (access_size f).

Definition ram_file (flags : Z) : file :=
  mkFile (Z.land (flags + 1) 3) flags 0 0 0 0 0 0 (mkPath 0 0).
Definition ram_alloc (flags : Z) : Kern vfs (Z + Z) :=
  p ← gets (fun s => next_key (v_files s));
  modify (fun s => s <| v_files ::= <[p := ram_file flags]> |> <| v_held ::= cons (NewFile p) |>);;
  mret (inr p).

Definition ram_fput (p : Z) : Kern vfs unit :=
  held ← gets v_held;
  if bool_decide (head held = Some (FileRef p)) then drop_held 1
  else
  f ← file_at p;
  drop_held (if has (f_mode f) FMODE_OPENED then refs_size f + 2 else 1).

(** The fields that do not depend on path lookup. *)
Definition ram_open_base : OpenEnv := {|
  empty_fops := 0; fop_open _ := None; fop_flush _ := None; fops_get _ o := o; iocb_flags _ := 0;
  backing_file_user_path _ := mkPath 1 0;
  get_write_access _ _ := 0; mnt_get_write_access _ _ := 0; security_file_open _ _ := 0; break_lease _ _ _ := 0;
  put_file_access := ram_put_access; alloc_empty_file := ram_alloc; alloc_empty_file_noaccount := ram_alloc;
  vfs_create _ _ := mret (- EACCES); fput := ram_fput; __fput_sync := ram_fput; file_count _ _ := 1;
  do_filp_open _ _ _ := mret (inl (- ENOENT)); do_file_open_root _ _ _ := mret (inl (- ENOENT));
  getname _ a := if a <? 0 then inl (- EFAULT) else inr a; getname_kernel _ a := inr a;
  get_unused_fd_flags s _ := next_key (v_fdt s); __close_range _ _ _ := mret 0; force_o_largefile := true;
|}.

(** Opens the dentry whose number is the name. *)
Definition ram_lookup (name : Z) (op : open_flags) : Kern vfs (Z + Z) :=
  ino ← gets (fun s => v_dentries s !! name);
  match ino with
  | None => mret (inl (- ENOENT))
  | Some ino =>
      inode ← inode_at ino;
      p ← gets (fun s => next_key (v_files s));
      let f := (or_mode true (Z.lor FMODE_LSEEK (Z.lor FMODE_PREAD FMODE_PWRITE)) (ram_file (open_flag op)))
                 <| f_op := i_fop inode |> <| f_inode := ino |>
                 <| f_mapping := i_mapping inode |> <| f_path := mkPath 1 name |> in
      modify (fun s => s <| v_files ::= <[p := @finish_file seg_uio ram_vfs ram_open_base false f]> |>
                         <| v_held ::= cons (FileRef p) |>);;
      mret (inr p)
  end.

#[global] Instance ram_open : OpenEnv := {|
  empty_fops := 0; fop_open _ := None; fop_flush _ := None; fops_get _ o := o; iocb_flags _ := 0;
  backing_file_user_path _ := mkPath 1 0;
  get_write_access _ _ := 0; mnt_get_write_access _ _ := 0; security_file_open _ _ := 0; break_lease _ _ _ := 0;
  put_file_access := ram_put_access; alloc_empty_file := ram_alloc; alloc_empty_file_noaccount := ram_alloc;
  vfs_create _ _ := mret (- EACCES); fput := ram_fput; __fput_sync := ram_fput; file_count _ _ := 1;
  do_filp_open _ name op := ram_lookup name op; do_file_open_root _ name op := ram_lookup name op;
  getname _ a := if a <? 0 then inl (- EFAULT) else inr a; getname_kernel _ a := inr a;
  get_unused_fd_flags s _ := next_key (v_fdt s); __close_range _ _ _ := mret 0; force_o_largefile := true;
|}.

Lemma access_size_refs p f : length (access_refs p f) = access_size f.
Proof. unfold access_refs, access_size, write_refs. by repeat case_match. Qed.

Lemma refs_size_refs p f : length (file_refs p f) = refs_size f.
Proof. unfold file_refs, fops_refs, refs_size. rewrite length_app, access_size_refs. by repeat case_match. Qed.

Lemma small_mode flags b : Z.land b 3 = 0 -> Z.land (Z.land (flags + 1) 3) b = 0.
Proof. intros Hb. by rewrite <- Z.land_assoc, (Z.land_comm 3), Hb, Z.land_0_r. Qed.

Lemma ram_file_new flags : new_file (ram_file flags).
Proof. split; cbn; [by apply small_mode|done]. Qed.

Lemma drop_held_ok s d h :
  vfs_wf s -> v_held s = d ++ h -> wp (drop_held (length d)) (fun _ => let_go h s) s.
Proof.
  intros Hs Hh. unfold drop_held. rewrite wp_modify.
  assert (drop (length d) (v_held s) = h) as Hd by (rewrite Hh; apply drop_app_length).
  assert (s <| v_held ::= drop (length d) |> = s <| v_held := h |>) as -> by (destruct s; cbn in *; by rewrite Hd).
  split_and!; [by eapply wf_drop|done|]. apply frame_still. by split.
Qed.

Lemma ram_fput_open s p h : vfs_wf s -> v_held s = FileRef p :: h -> wp (ram_fput p) (fun _ => let_go h s) s.
Proof.
  intros Hs Hh. unfold ram_fput. rewrite wp_bind, wp_gets, Hh, bool_decide_true by done.
  by apply (drop_held_ok s [FileRef p]).
Qed.

Lemma ram_fput_new s p f h :
  vfs_wf s -> v_files s !! p = Some f ->
  v_held s = (if has (f_mode f) FMODE_OPENED then file_refs p f ++ [PathRef (f_path f)] else []) ++ NewFile p :: h ->
  wp (ram_fput p) (fun _ => let_go h s) s.
Proof.
  intros Hs Hf Hh. unfold ram_fput. rewrite wp_bind, wp_gets.
  assert (head (v_held s) <> Some (FileRef p)) as Hne.
  { rewrite Hh. unfold file_refs, fops_refs, access_refs, write_refs. by repeat case_match. }
  rewrite bool_decide_false by done. rewrite wp_bind, wp_file_at by done. destruct (has (f_mode f) FMODE_OPENED).
  - replace (refs_size f + 2)%nat with (length (file_refs p f ++ [PathRef (f_path f); NewFile p]))
      by (rewrite length_app, refs_size_refs; done).
    apply drop_held_ok; [done|]. by rewrite Hh, <- !app_assoc.
  - by apply (drop_held_ok s [NewFile p]).
Qed.

Lemma publish_wf s p f h :
  vfs_wf s -> v_held s = NewFile p :: h -> open_file s p f -> NewFile p ∉ h -> vfs_wf (s <| v_held := FileRef p :: h |>).
Proof.
  intros Hs Hh Hf Hno. assert (forall q g, open_file s q g -> open_file (s <| v_held := FileRef p :: h |>) q g) as Ho
    by (intros q g []; by split).
  assert (forall q, holds q (FileRef p :: h) -> q = p \/ holds q (v_held s)) as Hold.
  { rewrite Hh. intros q [Hq|Hq]; apply elem_of_cons in Hq as [Hq|Hq]; try done; unfold holds; [left|right..]; set_solver. }
  destruct Hs as [? ? Ht Hl ? ? ? Hp Hn ?]. split; cbn; try done.
  - intros fd q Hq. destruct (Ht _ _ Hq) as [g Hg]. eauto.
  - intros q Hq. destruct (Hold q Hq) as [->|Hq']; [by eauto|]. destruct (Hl q Hq') as [g Hg]. eauto.
  - intros q [|Hq]%elem_of_cons; [done|]. apply Hp. rewrite Hh. by right.
  - intros q [|Hq]%elem_of_cons; [done|]. destruct (Hn q) as (? & ? & Hnot); [rewrite Hh; by right|].
    split_and!; try done. intros Hq'. destruct (Hold q Hq') as [->|]; [done|by apply Hnot].
Qed.

Lemma ram_lookup_found s name op : vfs_wf s -> wp (ram_lookup name op) (found s) s.
Proof.
  intros Hs. unfold ram_lookup. rewrite wp_bind, wp_gets. destruct (v_dentries s !! name) as [ino|] eqn:Hd.
  2: { rewrite wp_ret. by apply found_error. }
  destruct (vw_dentry s Hs _ _ Hd) as [i Hi]. destruct (vw_inode s Hs _ _ Hi) as [_ Hmap].
  rewrite wp_bind, wp_inode_at, wp_bind, wp_gets by done. pose proof (next_key_fresh (v_files s)) as Hfresh.
  set (p := next_key (v_files s)) in *.
  set (f0 := _ <| f_path := mkPath 1 name |>). set (f := @finish_file seg_uio ram_vfs ram_open_base false f0).
  assert (f_path f = mkPath 1 name /\ f_inode f = ino /\ f_mapping f = i_mapping i) as (Hpa & Hin & Hmp)
    by (unfold f, finish_file, or_mode; cbn; by repeat case_match).
  assert (file_wf f) as Hwf by (apply finish_file_wf; [apply truthy_false; cbn; rewrite land_set by done; by apply small_mode..|done]).
  clearbody f. rewrite wp_bind, wp_modify, wp_ret. destruct (allocated_ok s p f Hs Hfresh) as [Hw Hk].
  assert (open_file (s <| v_files ::= <[p := f]> |> <| v_held ::= cons (NewFile p) |>) p f) as Hf.
  { split; cbn; rewrite ?lookup_insert_eq, ?Hpa, ?Hin, ?Hmp; done. }
  assert (NewFile p ∉ v_held s) as Hno.
  { intros Hheld. destruct (vw_new s Hs p Hheld) as [[g Hg] _]. congruence. }
  split_and!; [by apply (publish_wf _ p f (v_held s)) in Hw| |done|].
  - etrans; [exact Hk|]. apply frame_still. by split.
  - intros fd Hfd. destruct (vw_fdt s Hs _ _ Hfd) as [g [Hg _ _ _ _]]. congruence.
Qed.

Lemma ram_alloc_ok s flags : vfs_wf s -> wp (ram_alloc flags) (allocated s) s.
Proof.
  intros Hs. unfold ram_alloc. rewrite wp_bind, wp_gets, wp_bind, wp_modify, wp_ret.
  split; [apply next_key_fresh|]. exists (ram_file flags). split; [apply ram_file_new|done].
Qed.

#[global] Instance ram_open_ok : OpenEnvOk.
Proof.
  split; cbv [fop_open fop_flush empty_fops fops_get get_write_access mnt_get_write_access security_file_open break_lease
    put_file_access alloc_empty_file alloc_empty_file_noaccount vfs_create fput __fput_sync do_filp_open do_file_open_root
    getname getname_kernel get_unused_fd_flags __close_range ram_open]; try done.
  - by left.
  - intros s p f h Hf Hh. unfold ram_put_access, drop_held. rewrite wp_bind, wp_file_at, wp_modify by done.
    assert (drop (access_size f) (v_held s) = h) as Hd by (rewrite Hh, <- (access_size_refs p f); apply drop_app_length).
    destruct s; cbn in *; by rewrite Hd.
  - intros s flags. apply ram_alloc_ok.
  - intros s flags. apply ram_alloc_ok.
  - apply ram_fput_open.
  - apply ram_fput_open.
  - apply ram_fput_new.
  - intros s dfd name op. apply ram_lookup_found.
  - intros s root name op. apply ram_lookup_found.
  - intros s a. by destruct (a <? 0).
  - intros s fl. right. split; [apply next_key_nonneg|apply next_key_fresh].
Qed.

(** ** Attributes and delegations *)
Definition deleg_bytes (s : vfs) : list Z := default [] (v_data s !! 0).
#[global] Instance ram_deleg : DelegEnv := {| delegations s := Nat.min 3 (length (deleg_bytes s)) |}.

Definition ram_notify (dentry : Z) (a : iattr) (ask : bool) : Kern vfs (Z * option Z) :=
  ino ← gets (fun s => v_dentries s !! dentry);
  match ino with
  | None => mret (- ENOENT, None)
  | Some ino =>
      n ← gets delegations;
      if ask && negb (Nat.eqb n 0) then acquire (InodeRef ino);; mret (- EAGAIN, Some ino)
      else if has (ia_valid a) ATTR_SIZE && (0 <=? ia_size a) && (ia_size a <=? ram_limit)
      then set_size ino (ia_size a);; mret (0, None)
      else mret (0, None)
  end.

Definition ram_break (ino : Z) : Kern vfs Z :=
  release (InodeRef ino);;
  n ← gets delegations;
  if Nat.eqb n 0 then mret (- EAGAIN)
  else modify (fun s => s <| v_data ::= <[0 := take (n - 1) (deleg_bytes s)]> |>);; mret 0.

#[global] Instance ram_attr : AttrEnv := {|
  user_path_at s _ name _ := match v_dentries s !! name with Some _ => inr (mkPath 1 name) | None => inl (- ENOENT) end;
  retry_estale error flags := (error =? - ESTALE) && negb (has flags LOOKUP_REVAL);
  inode_permission _ _ _ _ := 0; path_permission _ _ _ := 0; file_permission _ _ _ := 0;
  mnt_want_write _ _ := 0; mnt_want_write_file _ _ := 0; path_noexec _ _ := false; __mnt_is_readonly _ _ := false;
  d_can_lookup _ _ := true; dentry_needs_remove_privs _ _ _ := 0; setattr_should_drop_sgid _ _ _ := 0;
  notify_change _ dentry a ask := ram_notify dentry a ask;
  break_deleg_wait := ram_break;
  fop_fallocate o := if o =? 1 then Some (fun _ _ _ _ => mret 0) else None;
  security_path_truncate _ _ := 0; security_file_truncate _ _ := 0; security_path_chmod _ _ _ := 0;
  security_path_chown _ _ _ _ := 0; security_path_chroot _ _ := 0;
  i_user_ns _ := 0; from_vfsuid _ _ u := u; from_vfsgid _ _ g := g;
|}.

Lemma outside_data s d : vfs_wf s -> outside s (s <| v_data := d |>).
Proof. intros []. split; try done. intros q i Hi. by exists i. Qed.

Definition notified (s : vfs) (ask : bool) (x : Z * option Z) (s' : vfs) : Prop :=
  status x.1 /\ (delegations s' <= delegations s)%nat /\ exists s1, outside s s1 /\
    match x.2 with
    | Some i => ask = true /\ x.1 <> 0 /\ s' = s1 <| v_held ::= cons (InodeRef i) |>
    | None => s' = s1
    end.

Lemma ram_notify_ok s dentry a ask : vfs_wf s -> wp (ram_notify dentry a ask) (notified s ask) s.
Proof.
  intros Hs. pose proof (outside_refl s Hs) as Hrefl. unfold ram_notify. rewrite wp_bind, wp_gets.
  destruct (v_dentries s !! dentry) as [ino|] eqn:Hd; [|rewrite wp_ret; split; [done|]; split; [done|]; by exists s].
  destruct (vw_dentry s Hs _ _ Hd) as [i Hi]. rewrite wp_bind, wp_gets. destruct (ask && _) eqn:Hask.
  - apply andb_true_iff in Hask as [-> _]. unfold acquire. autorewrite with wp.
    split; [done|]. split; [done|]. by exists s.
  - destruct (_ && (ia_size a <=? ram_limit)) eqn:Hsz; [|rewrite wp_ret; split; [done|]; split; [done|]; by exists s].
    apply andb_true_iff in Hsz as [[_ ?%Z.leb_le]%andb_true_iff ?%Z.leb_le]. unfold ram_limit in *.
    unfold set_size. rewrite wp_bind, wp_bind, wp_inode_at, wp_modify, wp_ret by done.
    split; [done|]. split; [done|]. eexists. split; [|done]. apply outside_size; try done. lia.
Qed.

Lemma ram_break_ok s i h :
  vfs_wf s -> v_held s = InodeRef i :: h ->
  wp (ram_break i) (fun r s' => (status r /\ exists s1, outside s s1 /\ s' = s1 <| v_held := h |>) /\
    (r = 0 -> (delegations s' < delegations s)%nat)) s.
Proof.
  intros Hs Hh. unfold ram_break. rewrite wp_bind. eapply wp_release_head; [done|]. rewrite wp_bind, wp_gets.
  change (delegations (s <| v_held := h |>)) with (delegations s).
  destruct (Nat.eqb_spec (delegations s) 0) as [Hz|Hz].
  - rewrite wp_ret. split; [|done]. split; [done|]. exists s. split; [by apply outside_refl|done].
  - rewrite wp_bind, wp_modify, wp_ret. set (n := delegations s) in *.
    split; [split; [done|]|].
    + exists (s <| v_data ::= <[0 := take (n - 1) (deleg_bytes s)]> |>). split; [|done].
      by apply (outside_data s (<[0 := take (n - 1) (deleg_bytes s)]> (v_data s))).
    + intros _. assert (n = Nat.min 3 (length (deleg_bytes s))) as Hn by done.
      assert (forall t, v_data t = <[0 := take (n - 1) (deleg_bytes s)]> (v_data s) ->
        (delegations t < n)%nat) as Hlt; [|by apply Hlt].
      intros t Ht. change (Nat.min 3 (length (deleg_bytes t)) < n)%nat.
      assert (deleg_bytes t = take (n - 1) (deleg_bytes s)) as ->
        by (unfold deleg_bytes at 1; by rewrite Ht, lookup_insert_eq).
      rewrite length_take. lia.
Qed.

#[global] Instance ram_attr_ok : AttrEnvOk.
Proof.
  split; cbv [user_path_at retry_estale inode_permission path_permission file_permission mnt_want_write mnt_want_write_file
    dentry_needs_remove_privs notify_change break_deleg_wait fop_fallocate security_path_truncate security_file_truncate
    security_path_chmod security_path_chown security_path_chroot ram_attr]; try done.
  - intros s dfd name fl Hs. destruct (v_dentries s !! name) eqn:Hd; [|done]. cbn. rewrite Hd. eauto.
  - intros e fl. rewrite andb_true_iff, negb_true_iff. by intros [->%Z.eqb_eq ?].
  - intros s m d a ask Hs. eapply wp_mono; [|by apply ram_notify_ok]. intros [r di] s' (? & ? & ?). by split.
  - intros s i h Hs Hh. eapply wp_mono; [|by apply ram_break_ok]. by intros r s' [? ?].
  - intros o op p mode off len s Hop Hs Hh. destruct (o =? 1); [|done]. injection Hop as <-. rewrite wp_ret.
    split; [by apply outside_refl|done].
Qed.
#[global] Instance ram_deleg_ok : DelegEnvOk.
Proof.
  split.
  - done.
  - intros s m d a ask Hs. eapply wp_mono; [|by apply ram_notify_ok]. by intros x s' (? & ? & ?).
  - intros s i h Hs Hh. eapply wp_mono; [|by eapply ram_break_ok]. by intros r s' [? ?].
Qed.
Lemma ram_deleg_bound s : (delegations s <= 3)%nat.
Proof. apply Nat.le_min_l. Qed.

(** ** A process with three descriptors

    Descriptor 0 is a file of 100 bytes, 1 a device, 2 the file again, opened with
    [O_PATH]; dentry 4000 is the file, 4001 a directory. *)
Definition rw_mode : Z :=
  Z.lor FMODE_READ (Z.lor FMODE_WRITE (Z.lor FMODE_LSEEK (Z.lor FMODE_PREAD (Z.lor FMODE_PWRITE
  (Z.lor FMODE_CAN_READ (Z.lor FMODE_CAN_WRITE FMODE_OPENED)))))).
Definition sample_file : file :=
  mkFile rw_mode (Z.lor O_RDWR O_LARGEFILE) 0 10 0 1 2000 3000 (mkPath 1 4000).
Definition sample_device : file :=
  mkFile (Z.land rw_mode (Z.lnot FMODE_LSEEK)) O_RDWR 0 0 0 2 2002 3002 (mkPath 1 4002).
Definition sample_path : file :=
  mkFile (Z.lor FMODE_PATH FMODE_OPENED) O_PATH 0 0 0 0 2000 3000 (mkPath 1 4000).

Definition sample_user_memory : gmap Z Z := write_bytes ∅ 4096 (replicate 64 1).
Definition sample_vfs : vfs := {|
  v_tr := mkTr (sample_kernel sample_user_memory) (Some (replicate 4 zero_usage));
  v_files := {[ 1000 := sample_file; 1001 := sample_device; 1002 := sample_path ]};
  v_inodes := {[ 2000 := mkInode 0x81b4 0 100 1 3000 1; 2001 := mkInode 0x41ed 0 0 1 3001 0;
                 2002 := mkInode 0x21b6 0 0 1 3002 2 ]};
  v_mappings := {[ 3000 := mkMapping 2000 false 0; 3001 := mkMapping 2001 false 0; 3002 := mkMapping 2002 false 0 ]};
  v_dentries := {[ 4000 := 2000; 4001 := 2001; 4002 := 2002 ]};
  v_fdt := {[ 0 := 1000; 1 := 1001; 2 := 1002 ]};
  v_held := [];
  v_events := [];
  v_data := {[ 0 := [1; 1] ]};
  v_fs := {[ 400 := (mkPath 1 4001, mkPath 1 4001) ]};
|}.

Lemma lookup_three {A} (a b c : Z) (x y z : A) i v :
  ({[ a := x; b := y; c := z ]} : gmap Z A) !! i = Some v -> (i = a /\ v = x) \/ (i = b /\ v = y) \/ (i = c /\ v = z).
Proof.
  intros [[-> ->]|[_ Hl]]%lookup_insert_Some; [auto|].
  apply lookup_insert_Some in Hl as [[-> ->]|[_ [-> ->]%lookup_singleton_Some]]; auto.
Qed.

Lemma sample_file_open : open_file sample_vfs 1000 sample_file.
Proof. split; cbn; try done. split; cbn; try done; eauto. Qed.
Lemma sample_device_open : open_file sample_vfs 1001 sample_device.
Proof. split; cbn; try done. split; cbn; try done; eauto. Qed.
Lemma sample_path_open : open_file sample_vfs 1002 sample_path.
Proof. split; cbn; done. Qed.

Lemma sample_vfs_wf : vfs_wf sample_vfs.
Proof.
  split.
  - apply sample_kernel_wf.
  - by intros cs [= <-].
  - intros fd p [[-> ->]|[[-> ->]|[-> ->]]]%lookup_three;
      [exists sample_file; apply sample_file_open|exists sample_device; apply sample_device_open
      |exists sample_path; apply sample_path_open].
  - intros p [Hp|Hp]; by apply not_elem_of_nil in Hp.
  - intros p i [[-> ->]|[[-> ->]|[-> ->]]]%lookup_three; cbn; (split; [lia|by eexists]).
  - intros p m [[-> ->]|[[-> ->]|[-> ->]]]%lookup_three; cbn; by eexists.
  - intros d p [[-> ->]|[[-> ->]|[-> ->]]]%lookup_three; cbn; by eexists.
  - intros p Hp. by apply not_elem_of_nil in Hp.
  - intros p Hp. by apply not_elem_of_nil in Hp.
  - intros t [= <-]. cbn. by eexists.
Qed.

(** ** The theorems at this process *)
#[local] Existing Instance root_env.
#[local] Existing Instance sample_creds.

Definition noon : timespec64 := mkTime 43200 0.
Definition sample_calls : list fs_call :=
  [Openat AT_FDCWD 4000 O_RDWR 0; Read noon 3 4096 16; Lseek 3 0 SEEK_END; Write noon 3 4096 8;
   Pread64 3 4096 200 0; Readv 1 4096 1; Ftruncate 3 50; Fallocate 3 0 0 4096; Fchmod 3 384;
   Fchownat AT_FDCWD 4000 1000 1000 0; Chdir 4001; Faccessat2 AT_FDCWD 4000 6 0; CopyFileRange 0 0 3 0 10 0; Close noon 3].

Lemma calls_are_safe_witness :
  wp (fs_run 3 sample_calls) (fun rs s' => length rs = length sample_calls /\ vfs_wf s' /\ v_held s' = [] /\
    (existsb changes_table sample_calls = false -> v_fdt s' = v_fdt sample_vfs)) sample_vfs.
Proof.
  apply (calls_are_safe 3 ram_deleg_bound sample_calls sample_vfs);
    [apply sample_vfs_wf | reflexivity | repeat constructor; try done; cbn; unfold is_s64; lia].
Defined.

(** The calls really run: the results of the sequence. *)
Example sample_calls_run :
  match fs_run 3 sample_calls sample_vfs with Done rs _ => rs | Crash _ => [] end
  = [3; 16; 100; 8; 108; 0; 0; 0; 0; 0; 0; 0; 0; 0].
Proof. vm_compute. reflexivity. Qed.

(** A file that is about to be opened, and what holds of it. *)
Definition opening_file : file := (ram_file O_RDWR) <| f_path := mkPath 1 4000 |>.
Definition opening_vfs : vfs :=
  sample_vfs <| v_files ::= <[1003 := opening_file]> |> <| v_held := [NewFile 1003] |>.
Lemma opening_vfs_wf : vfs_wf opening_vfs.
Proof. exact (proj1 (allocated_ok sample_vfs 1003 opening_file sample_vfs_wf eq_refl)). Qed.
Lemma opening_file_new : new_file opening_file.
Proof. split; done. Qed.


(** It is opened, and owns its module, the write access and its path. *)
Example opening_runs :
  match do_dentry_open 1003 2000 None opening_vfs with Done r s' => (r, v_held s') | Crash _ => (1, []) end
  = (0, [FopsRef 1; MntAccess 1; WriteAccess 2000; PathRef (mkPath 1 4000); NewFile 1003]).
Proof. vm_compute. reflexivity. Qed.

Lemma opens_install_one_witness :
  let counted s' := s' <| v_tr ::= fun t => t <| syscall_counters ::= count_call __NR_open noon |> |> in
  wp (openat AT_FDCWD 4000 O_RDWR 0) (opened sample_vfs) sample_vfs /\
  wp (openat2 AT_FDCWD 4000 4096 24) (opened sample_vfs) sample_vfs /\
  wp (creat 4000 0) (opened sample_vfs) sample_vfs /\
  wp (compat_open 4000 O_RDWR 0) (opened sample_vfs) sample_vfs /\
  wp (compat_openat AT_FDCWD 4000 O_RDWR 0) (opened sample_vfs) sample_vfs /\
  wp (open noon 4000 O_RDWR 0) (opened (counted sample_vfs)) sample_vfs.
Proof. exact (opens_install_one sample_vfs noon AT_FDCWD 4000 O_RDWR 0 4096 24 sample_vfs_wf). Defined.


Lemma open_close_restores_witness :
  wp (open_then_close noon noon 4000 O_RDWR 0)
     (fun '(fd, r) s' => vfs_wf s' /\ v_held s' = v_held sample_vfs /\ v_fdt s' = v_fdt sample_vfs /\
        (forall fd' p, v_fdt sample_vfs !! fd' = Some p -> v_files s' !! p = v_files sample_vfs !! p) /\
        syscall_counters (v_tr s') =
          let counted := count_call __NR_open noon (syscall_counters (v_tr sample_vfs)) in
          if 0 <=? fd then count_call __NR_close noon counted else counted) sample_vfs.
Proof. exact (open_close_restores sample_vfs noon noon 4000 O_RDWR 0 sample_vfs_wf). Defined.

Lemma lseek_refines_witness :
  exists f, v_files sample_vfs !! 1000 = Some f /\
    let r := lseek_result sample_vfs f (-20) SEEK_END in
    lseek 0 (-20) SEEK_END sample_vfs = Done r (sample_vfs <| v_files ::= <[1000 := seek_file f r]> |>).
Proof.
  refine (lseek_refines sample_vfs 0 (-20) SEEK_END _ _ _); [apply sample_vfs_wf | unfold is_s64; lia |].
  intros p f Hp Hf. injection Hp as <-. injection Hf as <-. split; [reflexivity | split; [reflexivity | discriminate]].
Defined.

Lemma default_llseek_exact_witness :
  let r := 100 in
  default_llseek 1000 (-5) SEEK_HOLE sample_vfs = Done r (sample_vfs <| v_files ::= <[1000 := seek_file sample_file r]> |>).
Proof.
  refine (default_llseek_exact sample_vfs 1000 sample_file (mkInode 0x81b4 0 100 1 3000 1) (-5) SEEK_HOLE _ _ _ _ _ _);
    [reflexivity | reflexivity | unfold inode_wf; cbn; lia | cbn; lia | unfold is_s64; lia | reflexivity].
Defined.

Lemma rw_position_witness :
  wp (ksys_read 0 4096 16) (fun r s' => transferred sample_vfs 0 16 r s') sample_vfs /\
  wp (ksys_write 0 4096 16) (fun r s' => transferred sample_vfs 0 16 r s') sample_vfs.
Proof. refine (rw_position sample_vfs 0 4096 16 _ _); [apply sample_vfs_wf | lia]. Defined.

Lemma rw_counted_witness :
  let counters s := syscall_counters (v_tr s) in
  wp (read noon 0 4096 16) (fun _ s' => counters s' = count_call __NR_read noon (counters sample_vfs)) sample_vfs /\
  wp (write noon 0 4096 16) (fun _ s' => counters s' = count_call __NR_write noon (counters sample_vfs)) sample_vfs /\
  wp (pread64 0 4096 16 5) (fun _ s' => counters s' = counters sample_vfs) sample_vfs /\
  wp (pwrite64 0 4096 16 5) (fun _ s' => counters s' = counters sample_vfs) sample_vfs.
Proof. refine (rw_counted sample_vfs noon 0 4096 16 5 _ _ _); [apply sample_vfs_wf | lia | lia]. Defined.

Lemma rw_verify_area_exact_witness :
  rw_verify_area READ 1000 (Some (2 ^ 63 - 1)) 2 sample_vfs = Done (- EINVAL) sample_vfs.
Proof.
  refine (rw_verify_area_exact sample_vfs READ 1000 sample_file (2 ^ 63 - 1) 2 _ _ _);
    [reflexivity | unfold is_s64; lia | unfold is_u64; lia].
Defined.

Lemma do_loop_by_segments_witness :
  let iter := [(4096, 8%N); (4112, 4%N)] : segs in
  (do_loop_readv_writev 1001 sample_device iter (Some 0) WRITE 0 ≫= no_iter) sample_vfs
  = seg_loop (fun _ n pos => mret (n, pos)) (iter_segs iter) (Some 0) 0 sample_vfs.
Proof.
  refine (do_loop_by_segments sample_vfs 1001 sample_device ([(4096, 8%N); (4112, 4%N)] : segs) (Some 0) WRITE 0
            (fun _ _ n pos => mret (n, pos)) _ _ _); [reflexivity | reflexivity | repeat constructor].
Defined.

Lemma delegation_loops_finish_witness :
  let done attempt := exists r s', status r /\ vfs_wf s' /\ v_held s' = v_held sample_vfs /\ still sample_vfs s' /\
    forall fuel', (2 <= fuel')%nat -> deleg_loop fuel' attempt sample_vfs = Done r s' in
  done (chmod_attempt (mkPath 1 4000) 2000 384) /\ done (chown_attempt (mkPath 1 4000) 2000 0 1000 1000 1000 1000).
Proof.
  refine (delegation_loops_finish sample_vfs (mkPath 1 4000) 2000 384 0 1000 1000 1000 1000 2 _ _ _);
    [apply sample_vfs_wf | by eexists | apply le_n].
Defined.


Lemma fallocate_accepts_exactly_witness :
  vfs_fallocate 1000 FALLOC_FL_KEEP_SIZE 0 4096 sample_vfs
  = allocate_now 1000 (fun _ _ _ _ => mret 0) FALLOC_FL_KEEP_SIZE 0 4096 sample_vfs.
Proof.
  refine (fallocate_accepts_exactly sample_vfs 1000 sample_file (mkInode 0x81b4 0 100 1 3000 1) (fun _ _ _ _ => mret 0)
            FALLOC_FL_KEEP_SIZE 0 4096 _ _ _ _ _ _ _ _ _ _); try reflexivity; unfold is_s64; lia.
Defined.

Definition fsize_rlim : rlimit := default (mkRlimit 0 0) (rlim_of (v_k sample_vfs) 101 RLIMIT_FSIZE).
Lemma write_limits_exact_witness :
  wp (generic_write_check_limits 1000 90 50)
     (limits_post sample_vfs sample_file (mkInode 0x81b4 0 100 1 3000 1) (rlim_cur fsize_rlim) 90 50) sample_vfs.
Proof.
  refine (write_limits_exact sample_vfs 1000 sample_file (mkInode 0x81b4 0 100 1 3000 1) fsize_rlim 90 50 _ _ _ _ _ _ _);
    [apply sample_vfs_wf | reflexivity | reflexivity | reflexivity | split; vm_compute; [discriminate | reflexivity] | lia | lia].
Defined.

(** The same process with a file size limit of 2^63 bytes. *)
Definition huge_signal : signal_struct :=
  (sample_signal 101 1) <| rlim ::= <[Z.to_nat RLIMIT_FSIZE := mkRlimit (2 ^ 63) (2 ^ 63)]> |>.
Definition huge_vfs : vfs :=
  sample_vfs <| v_tr ::= fun t => t <| tr_k ::= fun k => k <| k_signals ::= <[201 := huge_signal]> |> |> |>.
Lemma huge_vfs_wf : vfs_wf huge_vfs.
Proof.
  apply (vfs_wf_tr sample_vfs); [apply sample_vfs_wf| |apply sample_vfs_wf|apply sample_vfs_wf].
  destruct (sample_kernel_wf sample_user_memory) as [? Ht ? Hr ? ?]. split; try done.
  - intros p t Hp. destruct (Ht p t Hp) as [? [sg Hsg] ?]. split; try done. cbn. rewrite lookup_insert. case_decide; eauto.
  - intros p sg. cbn. rewrite lookup_insert_Some. intros [[_ <-]|[_ Hsg]]; [done|by eapply Hr].
Qed.
Lemma huge_fsize_limit_refuses_witness :
  wp (generic_write_check_limits 1000 0 1) (fun x s' =>
    x.1 = - EFBIG /\ s' = huge_vfs <| v_events ::= cons (SendSig SIGXFSZ) |>) huge_vfs.
Proof.
  refine (huge_fsize_limit_refuses huge_vfs 1000 sample_file (mkInode 0x81b4 0 100 1 3000 1) (mkRlimit (2 ^ 63) (2 ^ 63)) 0 1
            _ _ _ _ _ _ _);
    [apply huge_vfs_wf | reflexivity | reflexivity | reflexivity | cbn; unfold RLIM_INFINITY; lia | lia | lia].
Defined.


(** Negative positions pass the checks: 50 bytes at -100 are granted. *)
Example negative_positions_pass :
  match generic_copy_file_checks 1000 (- 100) 1000 (- 200) 50 0 sample_vfs with Done x _ => x | Crash _ => (1, 0) end = (0, 50).
Proof. vm_compute. reflexivity. Qed.

Lemma directories_change_on_success_witness :
  wp (chdir 4000) (fun r s' => vfs_wf s' /\ v_held s' = v_held sample_vfs /\ status r /\
    if truthy r then still sample_vfs s' else exists pa, redirected (fun '(_, root) => (pa, root)) sample_vfs s') sample_vfs /\
  wp (chroot 4000) (fun r s' => vfs_wf s' /\ v_held s' = v_held sample_vfs /\ status r /\
    if truthy r then still sample_vfs s' else exists pa, redirected (fun '(pwd, _) => (pwd, pa)) sample_vfs s') sample_vfs.
Proof. exact (directories_change_on_success sample_vfs 4000 sample_vfs_wf). Defined.
