(* ===== verification/VmaLock.v ===== *)
(** * The per-VMA lock ([include/linux/mm.h])

    Page faults read-lock one memory area with [vma_start_read] while another thread
    that holds the mmap lock may write-lock it with [vma_start_write].  A write lock
    is not released by a call: the area is write-locked while its sequence number
    equals that of the address space, which changes when the mmap lock is dropped.

    Every access to shared memory is one step, so that the calls of the threads
    interleave freely.  The theorems show that a writer excludes all readers as long
    as the counter has not gone round since the area was last write-locked, and that
    it does not exclude them when the counter has. *)
From S2P Require Import Prelude.

(** The counter [mm_lock_seq] is advanced by [mmap_lock.h].  What is relied on is that
    its values do not repeat within a period. *)
Class SeqCount := {
  next_seq : Z -> Z;
  seq_period : Z;
}.
Class SeqCountOk `{SeqCount} : Prop := {
  seq_fresh k x : 0 < Z.of_nat k < seq_period -> Nat.iter k next_seq x <> x;
}.

(** Where a reader is in [vma_start_read]. *)
Inductive reader :=
| RIdle                 (* not in a read section *)
| RLoaded (seq : Z)     (* the first check has loaded vma->vm_lock_seq *)
| RChecked              (* the first check has passed *)
| RLocked               (* down_read_trylock has succeeded *)
| RRefused              (* the second check has failed, the lock is still held *)
| RReading.             (* vma_start_read has returned true *)

(** Where the thread that holds the mmap lock for writing is in [vma_start_write]. *)
Inductive writer :=
| WNone                 (* nobody holds the mmap lock for writing *)
| WHeld                 (* it is held, the area is not write-locked *)
| WWant (seq : Z)       (* waiting in down_write *)
| WLocked (seq : Z)     (* down_write has returned *)
| WStored               (* vm_lock_seq is stored *)
| WIn.                  (* vma_start_write has returned *)

#[global] Instance reader_eq_dec : EqDecision reader.
Proof. solve_decision. Defined.
#[global] Instance writer_eq_dec : EqDecision writer.
Proof. solve_decision. Defined.

(** [rw_readers] and [rw_writer] are the read-write semaphore [vma->vm_lock->lock].
    [age] is no variable of the code: it counts how often [mm_lock_seq] has been
    advanced since [vm_lock_seq] was stored. *)
Record vlock := mkVlock {
  vm_lock_seq : Z;
  mm_lock_seq : Z;
  rw_readers : gset nat;
  rw_writer : bool;
  threads : list reader;
  holder : writer;
  age : nat;
}.
#[global] Instance eta_vlock : Eta vlock := fun v =>
  mkVlock (vm_lock_seq v) (mm_lock_seq v) (rw_readers v) (rw_writer v) (threads v) (holder v) (age v).

Section VmaLock.
Context `{SeqCount}.

Definition at_pc (i : nat) (r : reader) (v : vlock) : vlock := v <| threads ::= <[i := r]> |>.
Definition down_read (i : nat) (v : vlock) : vlock := v <| rw_readers ::= union {[i]} |>.
Definition up_read (i : nat) (v : vlock) : vlock := v <| rw_readers ::= fun X => X ∖ {[i]} |>.

(** One access of thread [i] in [vma_start_read]; [granted] is whether the semaphore
    gives in to [down_read_trylock], which it may refuse at any time. *)
Definition vma_start_read (i : nat) (granted : bool) (v : vlock) : option vlock :=
  match threads v !! i with
  | Some RIdle => Some (at_pc i (RLoaded (vm_lock_seq v)) v)
  | Some (RLoaded seq) => Some (at_pc i (if seq =? mm_lock_seq v then RIdle else RChecked) v)
  | Some RChecked =>
      if negb granted then Some (at_pc i RIdle v)
      else if rw_writer v then None
      else Some (at_pc i RLocked (down_read i v))
  | Some RLocked => Some (at_pc i (if vm_lock_seq v =? mm_lock_seq v then RRefused else RReading) v)
  | Some RRefused => Some (at_pc i RIdle (up_read i v))
  | Some RReading | None => None
  end.

Definition vma_end_read (i : nat) (v : vlock) : option vlock :=
  match threads v !! i with
  | Some RReading => Some (at_pc i RIdle (up_read i v))
  | _ => None
  end.

Definition is_vma_write_locked (v : vlock) : bool := vm_lock_seq v =? mm_lock_seq v.

(** One access of the holder of the mmap lock in [vma_start_write].  [down_write] does
    not return while there is a reader. *)
Definition vma_start_write (v : vlock) : option vlock :=
  match holder v with
  | WHeld | WIn => Some (if is_vma_write_locked v then v <| holder := WIn |> else v <| holder := WWant (mm_lock_seq v) |>)
  | WWant seq =>
      if decide (rw_readers v = ∅) then Some (v <| rw_writer := true |> <| holder := WLocked seq |>) else None
  | WLocked seq => Some (v <| vm_lock_seq := seq |> <| age := O |> <| holder := WStored |>)
  | WStored => Some (v <| rw_writer := false |> <| holder := WIn |>)
  | WNone => None
  end.

(** The mmap lock, as far as it concerns one area. *)
Definition mmap_write_lock (v : vlock) : option vlock :=
  match holder v with WNone => Some (v <| holder := WHeld |>) | _ => None end.
Definition mmap_write_unlock (v : vlock) : option vlock :=
  match holder v with
  | WHeld | WIn => Some (v <| mm_lock_seq ::= next_seq |> <| age ::= S |> <| holder := WNone |>)
  | _ => None
  end.

Inductive lock_step (v v' : vlock) : Prop :=
| step_start_read i granted : vma_start_read i granted v = Some v' -> lock_step v v'
| step_end_read i : vma_end_read i v = Some v' -> lock_step v v'
| step_start_write : vma_start_write v = Some v' -> lock_step v v'
| step_mmap_lock : mmap_write_lock v = Some v' -> lock_step v v'
| step_mmap_unlock : mmap_write_unlock v = Some v' -> lock_step v v'.

(** A step after which the counter has not gone round. *)
Definition young_step (v v' : vlock) : Prop := lock_step v v' /\ Z.of_nat (age v') < seq_period.

(** An area [n] threads may read, whose number was current [a] advances ago. *)
Definition fresh_vma (n : nat) (seq : Z) (a : nat) : vlock :=
  mkVlock seq (Nat.iter a next_seq seq) ∅ false (replicate n RIdle) WNone a.

Definition reading (v : vlock) (i : nat) : Prop := threads v !! i = Some RReading.

(** ** The invariant *)

Definition holds_lock (r : reader) : bool :=
  match r with RLocked | RRefused | RReading => true | _ => false end.
Definition holds_sem (w : writer) : bool :=
  match w with WLocked _ | WStored => true | _ => false end.

Record lock_inv (v : vlock) : Prop := {
  inv_seq : mm_lock_seq v = Nat.iter (age v) next_seq (vm_lock_seq v);
  inv_age : Z.of_nat (age v) < seq_period;
  inv_readers i : i ∈ rw_readers v <-> exists r, threads v !! i = Some r /\ holds_lock r = true;
  inv_writer : rw_writer v = holds_sem (holder v);
  inv_excl : rw_writer v = true -> rw_readers v = ∅;
  inv_want seq : holder v = WWant seq \/ holder v = WLocked seq -> seq = mm_lock_seq v;
  inv_in : holder v = WStored \/ holder v = WIn -> age v = O;
  inv_reading i : reading v i -> age v <> O;
}.

Context `{!SeqCountOk}.

Lemma inv_current v : lock_inv v -> vm_lock_seq v = mm_lock_seq v <-> age v = O.
Proof.
  intros I. pose proof (inv_seq v I) as E. split.
  - intros Heq. destruct (age v) as [|k] eqn:Ha; [done|]. exfalso.
    apply (seq_fresh (S k) (vm_lock_seq v)); [pose proof (inv_age v I); lia|congruence].
  - intros Ha. rewrite Ha in E. by symmetry.
Qed.

(** A reader moves; nothing but its place and its hold on the semaphore changes. *)
Lemma inv_move v i r r' X :
  lock_inv v -> threads v !! i = Some r ->
  X = (if holds_lock r' then {[i]} ∪ rw_readers v else rw_readers v ∖ {[i]}) ->
  (holds_lock r' = true -> holds_lock r = true \/ rw_writer v = false) ->
  (r' = RReading -> age v <> O) ->
  lock_inv (at_pc i r' (v <| rw_readers := X |>)).
Proof.
  intros [] Hi HX Hh Hr. assert (i < length (threads v))%nat as Hl by (by eapply lookup_lt_Some).
  split; cbn; try done.
  - intros j. subst X. destruct (decide (j = i)) as [->|Hj].
    + rewrite list_lookup_insert_eq by done. destruct (holds_lock r') eqn:E.
      * rewrite elem_of_union, elem_of_singleton. naive_solver.
      * rewrite elem_of_difference, elem_of_singleton. split; [by intros [_ []]|]. intros (r2 & [= <-] & ?). congruence.
    + rewrite list_lookup_insert_ne by done. rewrite <- inv_readers0.
      destruct (holds_lock r'); [rewrite elem_of_union|rewrite elem_of_difference]; rewrite elem_of_singleton; tauto.
  - intros Hw. specialize (inv_excl0 Hw). subst X. rewrite inv_excl0 in *.
    destruct (holds_lock r') eqn:Hr'; [|apply empty_difference_L]. destruct (Hh eq_refl) as [Hhr|]; [|congruence].
    exfalso. apply (not_elem_of_empty (C := gset nat) i), inv_readers0. eauto.
  - unfold reading. cbn. intros j. destruct (decide (j = i)) as [->|Hj].
    + rewrite list_lookup_insert_eq by done. intros [= ->]. auto.
    + rewrite list_lookup_insert_ne by done. apply inv_reading0.
Qed.

Lemma readers_same v i r r' :
  lock_inv v -> threads v !! i = Some r -> holds_lock r' = holds_lock r ->
  v = v <| rw_readers := (if holds_lock r' then {[i]} ∪ rw_readers v else rw_readers v ∖ {[i]}) |>.
Proof.
  intros I Hi Hh. destruct v as [a b X w ts h n]; cbn in *. f_equal. pose proof (inv_readers _ I i) as Hr. cbn in Hr.
  rewrite Hh. apply set_eq. intros j. destruct (holds_lock r) eqn:Hhr.
  - assert (i ∈ X) as Hx by (apply Hr; eauto). clear -Hx. set_solver.
  - assert (i ∉ X) as Hx by (rewrite Hr; intros (r2 & ? & ?); congruence). clear -Hx. set_solver.
Qed.

(** A move that keeps the semaphore as it is. *)
Lemma inv_stay v i r r' :
  lock_inv v -> threads v !! i = Some r -> holds_lock r' = holds_lock r ->
  (r' = RReading -> age v <> O) -> lock_inv (at_pc i r' v).
Proof.
  intros I Hi Hh Hr. rewrite (readers_same v i r r' I Hi Hh). eapply (inv_move v i r r'); [done..| |done].
  intros E. left. congruence.
Qed.

Lemma inv_start_read i granted v v' : lock_inv v -> vma_start_read i granted v = Some v' -> lock_inv v'.
Proof.
  intros I. unfold vma_start_read. destruct (threads v !! i) as [r|] eqn:Hi; [|done].
  destruct r as [|seq| | | |]; intros Hs; [..|done]; try (destruct granted; cbn [negb] in Hs; [destruct (rw_writer v) eqn:?; [done|]|]);
    injection Hs as <-.
  - by eapply inv_stay.
  - eapply inv_stay; [done..| |]; by case_match.
  - eapply (inv_move v i RChecked RLocked); auto; done.
  - by eapply inv_stay.
  - eapply inv_stay; [done..| |]; case_match eqn:E; try done. intros _ Ha. apply (inv_current v I) in Ha. bool_facts. done.
  - eapply (inv_move v i RRefused RIdle); auto; done.
Qed.

Lemma inv_end_read i v v' : lock_inv v -> vma_end_read i v = Some v' -> lock_inv v'.
Proof.
  intros I. unfold vma_end_read. destruct (threads v !! i) as [[]|] eqn:Hi; try done. intros [= <-].
  eapply (inv_move v i RReading RIdle); auto; done.
Qed.

(** The holder of the mmap lock moves. *)
Lemma inv_hold v w h :
  lock_inv v -> w = holds_sem h -> (w = true -> rw_readers v = ∅) ->
  (forall seq, h = WWant seq \/ h = WLocked seq -> seq = mm_lock_seq v) ->
  (h = WStored \/ h = WIn -> age v = O) -> lock_inv (v <| rw_writer := w |> <| holder := h |>).
Proof. intros []. by split. Qed.

Lemma inv_store v seq :
  lock_inv v -> holder v = WLocked seq ->
  lock_inv (v <| vm_lock_seq := seq |> <| age := O |> <| holder := WStored |>).
Proof.
  intros I Hw. pose proof (inv_age v I) as Ha. pose proof (inv_writer v I) as Hs. rewrite Hw in Hs. cbn in Hs.
  pose proof (inv_excl v I Hs) as Hx. split; cbn.
  - symmetry. apply (inv_want v I). by right.
  - lia.
  - apply (inv_readers v I).
  - done.
  - done.
  - by intros ? [].
  - done.
  - intros i Hi. exfalso. apply (not_elem_of_empty (C := gset nat) i). rewrite <- Hx. apply (inv_readers v I). by exists RReading.
Qed.

Lemma inv_check v :
  lock_inv v -> rw_writer v = false ->
  lock_inv (if is_vma_write_locked v then v <| holder := WIn |> else v <| holder := WWant (mm_lock_seq v) |>).
Proof.
  intros I Hs. unfold is_vma_write_locked. destruct (Z.eqb_spec (vm_lock_seq v) (mm_lock_seq v)) as [E|].
  - apply (inv_hold v (rw_writer v) WIn); [done..|rewrite Hs; done|by intros ? []|]. intros _. by apply (inv_current v I).
  - apply (inv_hold v (rw_writer v) (WWant _)); [done..|rewrite Hs; done|by intros ? [[= <-]|]|by intros []].
Qed.

Lemma inv_start_write v v' : lock_inv v -> vma_start_write v = Some v' -> lock_inv v'.
Proof.
  intros I. pose proof (inv_writer v I) as Hs. unfold vma_start_write. destruct (holder v) as [| |seq|seq| |] eqn:Hw; cbn in Hs; intros [= Hv'].
  - subst v'. by apply inv_check.
  - case_decide; [|done]. injection Hv' as <-.
    apply (inv_hold v true (WLocked seq)); [done..| |by intros []]. intros ? [|[= <-]]; [done|]. apply (inv_want v I). by left.
  - subst v'. by apply inv_store.
  - subst v'. apply (inv_hold v false WIn); [done..|by intros ? []|]. intros _. apply (inv_in v I). by left.
  - subst v'. by apply inv_check.
Qed.

Lemma inv_mmap_lock v v' : lock_inv v -> mmap_write_lock v = Some v' -> lock_inv v'.
Proof.
  intros I. pose proof (inv_writer v I) as Hs. unfold mmap_write_lock. destruct (holder v); try done. intros [= <-].
  apply (inv_hold v (rw_writer v) WHeld); [done..|rewrite Hs; done|by intros ? []|by intros []].
Qed.

Lemma inv_mmap_unlock v v' : lock_inv v -> mmap_write_unlock v = Some v' -> Z.of_nat (age v') < seq_period -> lock_inv v'.
Proof.
  intros I Hs Ha. assert (v' = v <| mm_lock_seq ::= next_seq |> <| age ::= S |> <| holder := WNone |> /\ rw_writer v = false) as [-> Hw].
  { pose proof (inv_writer v I) as Hw. revert Hs. unfold mmap_write_unlock. destruct (holder v); try done; by intros [= <-]. }
  split; cbn.
  - by rewrite (inv_seq v I).
  - done.
  - apply (inv_readers v I).
  - done.
  - apply (inv_excl v I).
  - by intros ? [].
  - by intros [].
  - done.
Qed.

Lemma inv_steps v v' : lock_inv v -> rtc young_step v v' -> lock_inv v'.
Proof.
  intros I Hr. revert I. induction Hr as [|v v1 v' [Hs Ha] _ IH]; [done|]. intros I. apply IH.
  destruct Hs; eauto using inv_start_read, inv_end_read, inv_start_write, inv_mmap_lock, inv_mmap_unlock.
Qed.

Lemma inv_fresh n seq a : 0 < Z.of_nat a < seq_period -> lock_inv (fresh_vma n seq a).
Proof.
  intros Ha. split; cbn; try done; try lia; try (by intros []); try (by intros ? []).
  - intros i. split; [set_solver|]. intros (r & [-> _]%lookup_replicate & ?). done.
Qed.

(** C15: a writer excludes the readers of a VMA.  However the calls of any number of
    readers and of the holder of the mmap lock interleave, as long as [mm_lock_seq] has
    not gone round since the area was last write-locked: while [vma_start_write] has
    returned and the mmap lock is held, no [vma_start_read] that returned true is in
    force, and every other one under way is refused. *)
Theorem vma_write_excludes_readers n seq a v :
  0 < Z.of_nat a < seq_period -> rtc young_step (fresh_vma n seq a) v -> holder v = WIn ->
  (forall i, threads v !! i <> Some RReading) /\
  (forall i granted v', vma_start_read i granted v = Some v' -> threads v' !! i <> Some RReading).
Proof.
  intros Ha Hr Hw. apply inv_steps in Hr; [|by apply inv_fresh]. pose proof (inv_in _ Hr (or_intror Hw)) as Hz.
  assert (forall i, threads v !! i <> Some RReading) as Hn by (intros i Hi; by apply (inv_reading _ Hr i)).
  split; [done|]. intros i granted v' Hs Hi. pose proof (inv_start_read _ _ _ _ Hr Hs) as I'.
  apply (inv_reading _ I' i Hi). revert Hs Hz. unfold vma_start_read. repeat case_match; intros; simplify_eq; done.
Qed.

(** ** A counter that goes round *)

Lemma mmap_cycles k v :
  holder v = WNone -> rtc lock_step v (v <| mm_lock_seq ::= Nat.iter k next_seq |> <| age ::= Nat.add k |>).
Proof.
  intros Hw. induction k as [|k IH]; [by destruct v|]. etrans; [exact IH|].
  eapply rtc_l; [apply step_mmap_lock; unfold mmap_write_lock; cbn; by rewrite Hw|].
  apply rtc_once, step_mmap_unlock. destruct v. cbn in *. by subst.
Qed.

(** Nobody is in the way of a reader: it gets its lock. *)
Lemma reader_enters v i :
  threads v !! i = Some RIdle -> rw_writer v = false -> vm_lock_seq v <> mm_lock_seq v ->
  rtc lock_step v (at_pc i RReading (down_read i v)).
Proof.
  intros Hi Hw Hn. assert (i < length (threads v))%nat as Hl by (by eapply lookup_lt_Some).
  apply Z.eqb_neq in Hn. destruct v as [a b X w ts h n]; cbn in *; subst w.
  do 4 (eapply rtc_l; [apply (step_start_read _ _ i true); unfold vma_start_read, at_pc; cbn;
    rewrite ?list_lookup_insert_eq by (rewrite ?length_insert; done); rewrite ?Hi; cbn; rewrite ?Hn; reflexivity|]).
  unfold at_pc, down_read. cbn. rewrite !list_insert_insert_eq. done.
Qed.

(** C37: when the counter goes round the writer does not exclude the readers.  A VMA that
    nobody write-locks for a whole period of [mm_lock_seq], with a reader that is in
    its section when the period ends: [vma_start_write] takes the area for locked
    already and returns at once beside the reader. *)
Theorem vma_write_goes_round n seq p :
  (1 < p)%nat -> Z.of_nat p = seq_period -> Nat.iter p next_seq seq = seq ->
  exists v, rtc lock_step (fresh_vma (S n) seq 1) v /\ holder v = WIn /\ reading v 0.
Proof.
  intros Hp Ep Hround. destruct p as [|[|p]]; [lia..|].
  set (v1 := (fresh_vma (S n) seq 1) <| mm_lock_seq := Nat.iter (S p) next_seq seq |> <| age := S p |>).
  assert (rtc lock_step (fresh_vma (S n) seq 1) v1) as H1.
  { pose proof (mmap_cycles p (fresh_vma (S n) seq 1) eq_refl) as Hc. unfold fresh_vma in *. cbn in Hc.
    rewrite Nat.add_1_r, <- Nat.iter_succ_r in Hc. exact Hc. }
  assert (vm_lock_seq v1 <> mm_lock_seq v1) as Hn.
  { cbn. intros E. apply (seq_fresh (S p) seq); [lia|]. by symmetry. }
  set (v2 := at_pc 0 RReading (down_read 0 v1)).
  assert (rtc lock_step v1 v2) as H2 by (by apply reader_enters).
  pose proof (mmap_cycles 1 v2 eq_refl) as H3. set (v3 := v2 <| mm_lock_seq ::= _ |> <| age ::= _ |>) in H3.
  exists (v3 <| holder := WIn |>). split; [|done].
  etrans; [exact H1|]. etrans; [exact H2|]. etrans; [exact H3|].
  eapply (rtc_l _ _ (v3 <| holder := WHeld |>)); [by apply step_mmap_lock|]. apply rtc_once, step_start_write.
  unfold vma_start_write, is_vma_write_locked. cbn [holder v3 v2 v1 update_field].
  assert (vm_lock_seq v3 = mm_lock_seq v3) as E by (symmetry; exact Hround).
  apply Z.eqb_eq in E. unfold v3, v2, v1 in *. cbn in E |- *. by rewrite E.
Qed.
End VmaLock.

(** ** The 32-bit counter *)

#[global] Instance int_seq : SeqCount := {| next_seq x := s32 (x + 1); seq_period := 2 ^ 32 |}.

Lemma int_seq_iter k x : Nat.iter (S k) next_seq x = s32 (x + Z.of_nat (S k)).
Proof.
  induction k as [|k IH]; [done|]. rewrite Nat.iter_succ, IH. cbn [next_seq int_seq]. unfold s32.
  replace ((x + Z.of_nat (S k) + 2 ^ 31) mod 2 ^ 32 - 2 ^ 31 + 1 + 2 ^ 31)
    with ((x + Z.of_nat (S k) + 2 ^ 31) mod 2 ^ 32 + 1) by lia.
  rewrite Z.add_mod_idemp_l by lia. do 2 f_equal. lia.
Qed.

Lemma s32_same x k : s32 (x + k) = x -> k mod 2 ^ 32 = 0.
Proof.
  unfold s32. intros E. pose proof (Z.div_mod (x + k + 2 ^ 31) (2 ^ 32)). set (q := (x + k + 2 ^ 31) / 2 ^ 32) in *.
  replace k with (q * 2 ^ 32) by lia. by apply Z.mod_mul.
Qed.

#[global] Instance int_seq_ok : SeqCountOk.
Proof.
  split. intros [|k] x Hk; [lia|]. rewrite int_seq_iter. intros E%s32_same. cbn [seq_period int_seq] in Hk.
  rewrite Z.mod_small in E; lia.
Qed.

Lemma int_seq_round x p : is_s32 x -> Z.of_nat p = 2 ^ 32 -> Nat.iter p next_seq x = x.
Proof.
  intros Hx Hp. destruct p as [|p]; [lia|]. rewrite int_seq_iter, Hp. rewrite <- (s32_id x Hx) at 2. unfold s32.
  replace (x + 2 ^ 32 + 2 ^ 31) with (x + 2 ^ 31 + 1 * 2 ^ 32) by lia. by rewrite Z.mod_add.
Qed.

(** A write lock of a fresh area. *)
Definition locked_vma : vlock := mkVlock 0 0 ∅ false [RIdle; RIdle] WIn 0.

Lemma locked_vma_reached : rtc young_step (fresh_vma 2 (-1) 1) locked_vma.
Proof.
  eapply rtc_l; [split; [by apply step_mmap_lock|done]|].
  do 3 (eapply rtc_l; [split; [by apply step_start_write|by vm_compute]|]).
  apply rtc_once. split; [by apply step_start_write|by vm_compute].
Qed.

Lemma vma_write_excludes_readers_witness :
  holder locked_vma = WIn /\ forall i, threads locked_vma !! i <> Some RReading.
Proof.
  split; [reflexivity|].
  apply (vma_write_excludes_readers 2 (-1) 1 locked_vma);
    [cbn [seq_period int_seq]; lia|exact locked_vma_reached|reflexivity].
Defined.

Lemma vma_write_goes_round_witness :
  exists v, rtc lock_step (fresh_vma 1 0 1) v /\ holder v = WIn /\ reading v 0.
Proof. 
  destruct (Z_of_nat_complete (2 ^ 32)) as [p Hp]; [lia|].
  apply (vma_write_goes_round 0 0 p); [lia|by symmetry|]. apply int_seq_round; [split; lia|by symmetry].
 Defined.
