(* ===== verification/PageFlags.v ===== *)
(** * Fields in the flags of a page ([include/linux/mm.h])

    The upper bits of [page->flags] hold the section, node and zone of the page, the last
    cpu and task that used it and its KASAN tag.  The theorems show that what a setter
    stores its getter reads, that no setter touches the bits of another field, and that
    the compare-and-exchange loop of the tag loses no update of another cpu. *)
From S2P Require Import Prelude.

(** A field of the word: where its lowest bit is and how many it has.  The layout is
    computed in [page-flags-layout.h] from the configuration. *)
Record field := mkField { f_shift : Z; f_width : Z }.
Definition f_mask (f : field) : Z := Z.ones (f_width f).

Class PageLayout := {
  ZONES : field;
  NODES : field;
  SECTIONS : field;
  LAST_CPUPID : field;
  KASAN_TAG : field;
  LAST__PID_SHIFT : Z;
  LAST__CPU_SHIFT : Z;
  page_zonenum : Z -> Z;                (* mmzone.h *)
  pfn_to_section_nr : Z -> Z;           (* mmzone.h *)
}.

Definition disjoint_fields (f g : field) : Prop :=
  f_shift f + f_width f <= f_shift g \/ f_shift g + f_width g <= f_shift f.
Definition field_wf (f : field) : Prop := 0 <= f_shift f /\ 0 <= f_width f /\ f_shift f + f_width f <= 64.

Class PageLayoutOk `{PageLayout} : Prop := {
  layout_wf : Forall field_wf [ZONES; NODES; SECTIONS; LAST_CPUPID; KASAN_TAG];
  layout_disjoint : ForallOrdPairs disjoint_fields [ZONES; NODES; SECTIONS; LAST_CPUPID; KASAN_TAG];
  tag_width : f_width KASAN_TAG = 8;
  cpupid_width : 0 <= LAST__PID_SHIFT /\ 0 <= LAST__CPU_SHIFT /\
    f_width LAST_CPUPID = LAST__PID_SHIFT + LAST__CPU_SHIFT /\ f_width LAST_CPUPID < 31;
  page_zonenum_ok flags : page_zonenum flags = Z.land (Z.shiftr flags (f_shift ZONES)) (f_mask ZONES);
}.

(** [(flags >> F_PGSHIFT) & F_MASK], and
    [flags &= ~(F_MASK << F_PGSHIFT); flags |= (x & F_MASK) << F_PGSHIFT]. *)
Definition field_get (f : field) (flags : Z) : Z := Z.land (Z.shiftr flags (f_shift f)) (f_mask f).
Definition field_set (f : field) (x flags : Z) : Z :=
  Z.lor (Z.land flags (Z.lnot (Z.shiftl (f_mask f) (f_shift f)))) (Z.shiftl (Z.land x (f_mask f)) (f_shift f)).

(** Same bits outside a field. *)
Definition same_outside (f : field) (a b : Z) : Prop :=
  forall i, 0 <= i -> ~ f_shift f <= i < f_shift f + f_width f -> Z.testbit a i = Z.testbit b i.

Section PageFlags.
Context `{PageLayout}.

Definition page_to_nid (flags : Z) : Z := field_get NODES flags.
Definition folio_nid (flags : Z) : Z := page_to_nid flags.
Definition page_to_section (flags : Z) : Z := field_get SECTIONS flags.
Definition set_page_section (flags section : Z) : Z := field_set SECTIONS section flags.
Definition set_page_zone (flags zone : Z) : Z := field_set ZONES zone flags.
Definition set_page_node (flags node : Z) : Z := field_set NODES node flags.
Definition set_page_links (flags zone node pfn : Z) : Z :=
  let flags := set_page_zone flags zone in
  let flags := set_page_node flags node in
  set_page_section flags (pfn_to_section_nr pfn).

(** ** The last cpu and task *)
Definition LAST__PID_MASK : Z := Z.ones LAST__PID_SHIFT.
Definition LAST__CPU_MASK : Z := Z.ones LAST__CPU_SHIFT.
Definition cpu_pid_to_cpupid (cpu pid : Z) : Z :=
  Z.lor (Z.shiftl (Z.land cpu LAST__CPU_MASK) LAST__PID_SHIFT) (Z.land pid LAST__PID_MASK).
Definition cpupid_to_pid (cpupid : Z) : Z := Z.land cpupid LAST__PID_MASK.
Definition cpupid_to_cpu (cpupid : Z) : Z := Z.land (Z.shiftr cpupid LAST__PID_SHIFT) LAST__CPU_MASK.
Definition cpupid_pid_unset (cpupid : Z) : bool := cpupid_to_pid cpupid =? Z.land (-1) LAST__PID_MASK.
Definition cpupid_cpu_unset (cpupid : Z) : bool := cpupid_to_cpu cpupid =? Z.land (-1) LAST__CPU_MASK.
Definition cpupid_match_pid (task_pid cpupid : Z) : bool := Z.land task_pid LAST__PID_MASK =? cpupid_to_pid cpupid.
Definition folio_last_cpupid (flags : Z) : Z := field_get LAST_CPUPID flags.
Definition page_cpupid_reset_last (flags : Z) : Z :=
  Z.lor flags (Z.shiftl (f_mask LAST_CPUPID) (f_shift LAST_CPUPID)).

(** ** The KASAN tag, stored inverted *)
Definition KASAN_TAG_KERNEL : Z := 255.
Definition page_kasan_tag (kasan_enabled : bool) (flags : Z) : Z :=
  if kasan_enabled then Z.lxor (field_get KASAN_TAG flags) 255 else KASAN_TAG_KERNEL.

(** The loop of [page_kasan_tag_set].  [races] is what other cpus do to the flags between
    a load and the exchange that follows it, one entry per attempt; an attempt succeeds
    if the flags are the loaded ones.  The result is the flags after the exchange and the
    races that come later. *)
Fixpoint tag_loop (races : list (Z -> Z)) (old_flags tag : Z) : Z * list (Z -> Z) :=
  match races with
  | [] => (field_set KASAN_TAG tag old_flags, [])
  | race :: races =>
      let flags := race old_flags in
      if flags =? old_flags then (field_set KASAN_TAG tag old_flags, races)
      else tag_loop races flags tag
  end.
Definition page_kasan_tag_set (kasan_enabled : bool) (races : list (Z -> Z)) (flags tag : Z) : Z * list (Z -> Z) :=
  if kasan_enabled then tag_loop races flags (Z.lxor tag 255) else (flags, races).
Definition page_kasan_tag_reset (kasan_enabled : bool) (races : list (Z -> Z)) (flags : Z) : Z * list (Z -> Z) :=
  if kasan_enabled then page_kasan_tag_set kasan_enabled races flags KASAN_TAG_KERNEL else (flags, races).
End PageFlags.

(** ** Bits *)

Definition in_field (f : field) (i : Z) : bool := (f_shift f <=? i) && (i <? f_shift f + f_width f).

Lemma testbit_field_set f x flags i :
  field_wf f -> 0 <= i ->
  Z.testbit (field_set f x flags) i = if in_field f i then Z.testbit x (i - f_shift f) else Z.testbit flags i.
Proof.
  intros (Hs & Hw & _) Hi. unfold field_set, in_field, f_mask.
  rewrite Z.lor_spec, Z.land_spec, Z.lnot_spec, !Z.shiftl_spec by done.
  rewrite Z.land_spec, Z.testbit_ones by done.
  destruct (Z.leb_spec (f_shift f) i), (Z.ltb_spec i (f_shift f + f_width f)); cbn [andb];
    destruct (Z.leb_spec 0 (i - f_shift f)), (Z.ltb_spec (i - f_shift f) (f_width f)); cbn [andb negb]; try lia;
    by rewrite ?andb_false_r, ?andb_true_r, ?orb_false_r.
Qed.

Lemma testbit_field_get f flags i :
  field_wf f -> 0 <= i -> Z.testbit (field_get f flags) i = (i <? f_width f) && Z.testbit flags (i + f_shift f).
Proof.
  intros (Hs & Hw & _) Hi. unfold field_get, f_mask.
  rewrite Z.land_spec, Z.shiftr_spec, Z.testbit_ones by done. rewrite (proj2 (Z.leb_le 0 i)) by done. apply andb_comm.
Qed.

Lemma field_get_set f x flags : field_wf f -> field_get f (field_set f x flags) = Z.land x (f_mask f).
Proof.
  intros Hf. pose proof Hf as (Hs & Hw & _). apply Z.bits_inj'. intros i Hi.
  rewrite testbit_field_get, testbit_field_set by (done || lia). unfold in_field, f_mask.
  rewrite Z.land_spec, Z.testbit_ones by done. rewrite (proj2 (Z.leb_le 0 i)) by done. cbn [andb].
  rewrite (proj2 (Z.leb_le (f_shift f) _)) by lia. replace (i + f_shift f - f_shift f) with i by lia.
  destruct (Z.ltb_spec i (f_width f)), (Z.ltb_spec (i + f_shift f) (f_shift f + f_width f)); try lia; cbn; by rewrite ?andb_true_r, ?andb_false_r.
Qed.

Lemma field_set_outside f x flags : field_wf f -> same_outside f (field_set f x flags) flags.
Proof.
  intros Hf i Hi Hout. rewrite testbit_field_set by done. unfold in_field.
  destruct (Z.leb_spec (f_shift f) i), (Z.ltb_spec i (f_shift f + f_width f)); cbn; lia || done.
Qed.

Lemma field_get_outside f g a b :
  field_wf g -> disjoint_fields f g -> same_outside f a b -> field_get g a = field_get g b.
Proof.
  intros Hg Hd Hs. pose proof Hg as (? & ? & _). apply Z.bits_inj'. intros i Hi. rewrite !testbit_field_get by done.
  destruct (Z.ltb_spec i (f_width g)); [|done]. cbn [andb]. apply Hs; [lia|]. unfold disjoint_fields in Hd. lia.
Qed.

Lemma field_get_other f g x flags :
  field_wf f -> field_wf g -> disjoint_fields f g -> field_get g (field_set f x flags) = field_get g flags.
Proof. intros Hf Hg Hd. eapply field_get_outside; [done|exact Hd|]. by apply field_set_outside. Qed.

Lemma u64_of_bits z : 0 <= z -> (forall i, 64 <= i -> Z.testbit z i = false) -> is_u64 z.
Proof.
  intros Hz Hb. split; [done|]. destruct (Z.eq_dec z 0) as [->|]; [done|]. apply Z.log2_lt_pow2; [lia|].
  destruct (Z.lt_ge_cases (Z.log2 z) 64) as [|Hl]; [done|]. specialize (Hb _ Hl). rewrite Z.bit_log2 in Hb; [done|lia].
Qed.

Lemma field_set_u64 f x flags : field_wf f -> is_u64 flags -> is_u64 (field_set f x flags).
Proof.
  intros Hf [H0 H1]. pose proof Hf as (Hs & Hw & Hl). apply u64_of_bits.
  - unfold field_set. apply Z.lor_nonneg. split; [by apply Z.land_nonneg; left|]. apply Z.shiftl_nonneg, Z.land_nonneg.
    right. unfold f_mask. rewrite Z.ones_equiv. pose proof (Z.pow_pos_nonneg 2 (f_width f)). lia.
  - intros i Hi. rewrite testbit_field_set by (done || lia). unfold in_field. destruct (Z.ltb_spec i (f_shift f + f_width f)); [lia|].
    rewrite andb_false_r. destruct (Z.eq_dec flags 0) as [->|]; [apply Z.testbit_0_l|].
    apply Z.bits_above_log2; [done|]. assert (Z.log2 flags < 64) by (apply Z.log2_lt_pow2; lia). lia.
Qed.

Lemma mask_id x f : 0 <= f_width f -> 0 <= x < 2 ^ f_width f -> Z.land x (f_mask f) = x.
Proof. intros Hw Hx. unfold f_mask. rewrite Z.land_ones by done. by apply Z.mod_small. Qed.

Lemma disjoint_sym f g : disjoint_fields f g -> disjoint_fields g f.
Proof. unfold disjoint_fields. tauto. Qed.
Lemma wf_width f : field_wf f -> 0 <= f_width f.
Proof. by intros (_ & ? & _). Qed.

Section Theorems.
Context `{PageLayout} `{!PageLayoutOk}.

Ltac layout :=
  pose proof layout_wf as Hwf; pose proof layout_disjoint as Hdj;
  repeat match goal with
  | H : Forall _ (_ :: _) |- _ => apply Forall_cons in H as [? ?]
  | H : ForallOrdPairs _ (_ :: _) |- _ => inversion H; subst; clear H
  end.

(** C35: [set_page_links] stores the zone, the node and the section of a page so that each
    is read back, and keeps the flag bits, the last cpu and the tag. *)
Theorem page_links_roundtrip flags zone node pfn :
  is_u64 flags -> 0 <= zone < 2 ^ f_width ZONES -> 0 <= node < 2 ^ f_width NODES ->
  0 <= pfn_to_section_nr pfn < 2 ^ f_width SECTIONS ->
  let flags' := set_page_links flags zone node pfn in
  is_u64 flags' /\ page_zonenum flags' = zone /\ page_to_nid flags' = node /\
  page_to_section flags' = pfn_to_section_nr pfn /\ folio_last_cpupid flags' = folio_last_cpupid flags /\
  (forall on, page_kasan_tag on flags' = page_kasan_tag on flags) /\
  (forall i, 0 <= i -> in_field ZONES i = false -> in_field NODES i = false -> in_field SECTIONS i = false ->
    Z.testbit flags' i = Z.testbit flags i).
Proof.
  intros Hu Hz Hn Hs flags'. layout. unfold flags', set_page_links, set_page_section, set_page_node, set_page_zone.
  unfold page_to_nid, page_to_section, folio_last_cpupid, page_kasan_tag. rewrite page_zonenum_ok.
  match goal with |- context [Z.land (Z.shiftr ?w (f_shift ZONES)) (f_mask ZONES)] => fold (field_get ZONES w) end.
  split_and!.
  - by repeat apply field_set_u64.
  - rewrite !(field_get_other _ ZONES) by auto using disjoint_sym. rewrite field_get_set by done. apply mask_id; [by apply wf_width|done].
  - rewrite (field_get_other SECTIONS NODES) by auto using disjoint_sym. rewrite field_get_set by done. apply mask_id; [by apply wf_width|done].
  - rewrite field_get_set by done. apply mask_id; [by apply wf_width|done].
  - by rewrite !(field_get_other _ LAST_CPUPID) by auto using disjoint_sym.
  - intros on. by rewrite !(field_get_other _ KASAN_TAG) by auto using disjoint_sym.
  - intros i Hi Ez En Es. rewrite !testbit_field_set by done. by rewrite Ez, En, Es.
Qed.

Lemma tag_loop_applied races flags tag :
  exists before, races = before ++ snd (tag_loop races flags tag) /\
    fst (tag_loop races flags tag) = field_set KASAN_TAG tag (fold_left (fun w race => race w) before flags).
Proof.
  revert flags. induction races as [|race races IH]; intros flags; [by exists []|]. cbn [tag_loop].
  destruct (Z.eqb_spec (race flags) flags) as [E|].
  - exists [race]. cbn. by rewrite E.
  - destruct (IH (race flags)) as (before & Hr & Hf). exists (race :: before). cbn. by rewrite <- Hr.
Qed.

(** C34: [page_kasan_tag_set] stores the tag whatever other cpus do to the flags meanwhile,
    and loses none of their changes: the word is the one they have left, with the tag
    exchanged.  Each attempt that fails is due to one of them. *)
Theorem kasan_tag_set_exact races flags tag :
  0 <= tag < 256 ->
  let r := page_kasan_tag_set true races flags tag in
  exists before, races = before ++ snd r /\ page_kasan_tag true (fst r) = tag /\
    same_outside KASAN_TAG (fst r) (fold_left (fun w race => race w) before flags).
Proof.
  intros Ht r. layout. destruct (tag_loop_applied races flags (Z.lxor tag 255)) as (before & Hr & Hf).
  exists before. unfold r, page_kasan_tag_set, page_kasan_tag. rewrite Hf. split; [done|]. split; [|by apply field_set_outside].
  rewrite field_get_set by done. unfold f_mask. rewrite tag_width.
  apply Z.bits_inj'. intros i Hi. rewrite Z.lxor_spec, Z.land_spec, Z.lxor_spec. change 255 with (Z.ones 8).
  rewrite Z.testbit_ones by lia. rewrite (proj2 (Z.leb_le 0 i)) by done. cbn [andb]. destruct (Z.ltb_spec i 8).
  - by destruct (Z.testbit tag i).
  - rewrite (Z.bits_above_log2 tag i); [done|lia|]. destruct (Z.eq_dec tag 0) as [->|]; [cbn; lia|].
    assert (Z.log2 tag < 8) by (apply Z.log2_lt_pow2; lia). lia.
Qed.

Lemma cpupid_value cpu pid :
  cpu_pid_to_cpupid cpu pid = (cpu mod 2 ^ LAST__CPU_SHIFT) * 2 ^ LAST__PID_SHIFT + pid mod 2 ^ LAST__PID_SHIFT.
Proof.
  destruct cpupid_width as (HP & HC & _). unfold cpu_pid_to_cpupid, LAST__CPU_MASK, LAST__PID_MASK.
  rewrite !Z.land_ones, <- Z.shiftl_mul_pow2 by done. set (x := cpu mod _). set (y := pid mod _).
  assert (Z.land (Z.shiftl x LAST__PID_SHIFT) y = 0) as Hd.
  { apply Z.bits_inj'. intros i Hi. rewrite Z.land_spec, Z.shiftl_spec, Z.testbit_0_l by done. unfold y.
    rewrite Z.testbit_mod_pow2 by done. destruct (Z.ltb_spec i LAST__PID_SHIFT); [|by rewrite andb_false_r].
    by rewrite Z.testbit_neg_r by lia. }
  rewrite <- Z.lxor_lor, <- Z.add_nocarry_lxor by done. done.
Qed.

(** After the reset every bit of the field is set. *)
Lemma reset_ones flags : folio_last_cpupid (page_cpupid_reset_last flags) = f_mask LAST_CPUPID.
Proof.
  layout. pose proof (wf_width LAST_CPUPID) as Hw. apply Z.bits_inj'. intros i Hi. unfold folio_last_cpupid, page_cpupid_reset_last.
  rewrite testbit_field_get by done. unfold f_mask. rewrite Z.lor_spec, Z.shiftl_spec, !Z.testbit_ones by (auto; lia || (unfold field_wf in *; lia)).
  replace (i + f_shift LAST_CPUPID - f_shift LAST_CPUPID) with i by lia. rewrite (proj2 (Z.leb_le 0 i)) by done. cbn [andb].
  destruct (i <? f_width LAST_CPUPID); [|done]. cbn. apply orb_true_r.
Qed.

Lemma reset_pid_unset flags : cpupid_pid_unset (folio_last_cpupid (page_cpupid_reset_last flags)) = true.
Proof.
  pose proof cpupid_width as (HP & HC & Hw & _). unfold cpupid_pid_unset, cpupid_to_pid, LAST__PID_MASK. rewrite reset_ones. unfold f_mask.
  apply Z.eqb_eq, Z.bits_inj'. intros i Hi. rewrite !Z.land_spec, !Z.testbit_ones, Z.bits_m1 by lia.
  destruct (Z.leb_spec 0 i), (Z.ltb_spec i LAST__PID_SHIFT), (Z.ltb_spec i (f_width LAST_CPUPID)); cbn; lia || done.
Qed.

Lemma reset_cpu_unset flags : cpupid_cpu_unset (folio_last_cpupid (page_cpupid_reset_last flags)) = true.
Proof.
  pose proof cpupid_width as (HP & HC & Hw & _). unfold cpupid_cpu_unset, cpupid_to_cpu, LAST__CPU_MASK. rewrite reset_ones. unfold f_mask.
  apply Z.eqb_eq, Z.bits_inj'. intros i Hi. rewrite !Z.land_spec, Z.shiftr_spec, !Z.testbit_ones, Z.bits_m1 by lia.
  destruct (Z.leb_spec 0 i), (Z.leb_spec 0 (i + LAST__PID_SHIFT)), (Z.ltb_spec i LAST__CPU_SHIFT),
    (Z.ltb_spec (i + LAST__PID_SHIFT) (f_width LAST_CPUPID)); cbn; lia || done.
Qed.

(** a cpu and a task packed into one number are read back within their widths, the
    packed number fits into its field of the flags, and the reset marks both unset. *)
Theorem cpupid_roundtrip cpu pid flags :
  let c := cpu_pid_to_cpupid cpu pid in
  cpupid_to_cpu c = cpu mod 2 ^ LAST__CPU_SHIFT /\ cpupid_to_pid c = pid mod 2 ^ LAST__PID_SHIFT /\
  cpupid_match_pid pid c = true /\ is_s32 c /\
  folio_last_cpupid (field_set LAST_CPUPID c flags) = c /\
  cpupid_pid_unset (folio_last_cpupid (page_cpupid_reset_last flags)) = true /\
  cpupid_cpu_unset (folio_last_cpupid (page_cpupid_reset_last flags)) = true.
Proof.
  intros c. layout. pose proof cpupid_width as (HP & HC & Hw & Hm). pose proof (cpupid_value cpu pid) as Hc. fold c in Hc.
  pose proof (Z.mod_pos_bound cpu (2 ^ LAST__CPU_SHIFT) ltac:(apply Z.pow_pos_nonneg; lia)) as Hcpu.
  pose proof (Z.mod_pos_bound pid (2 ^ LAST__PID_SHIFT) ltac:(apply Z.pow_pos_nonneg; lia)) as Hpid.
  assert (cpupid_to_pid c = pid mod 2 ^ LAST__PID_SHIFT) as Ep.
  { unfold cpupid_to_pid, LAST__PID_MASK. rewrite Z.land_ones, Hc, Z.add_comm, Z.mod_add, Z.mod_mod by lia. done. }
  assert (0 <= c < 2 ^ f_width LAST_CPUPID) as Hr by (rewrite Hw, Z.pow_add_r, Hc by done; nia).
  split_and!; [| done | | | | by apply reset_pid_unset | by apply reset_cpu_unset].
  - unfold cpupid_to_cpu, LAST__CPU_MASK. rewrite Z.land_ones, Z.shiftr_div_pow2, Hc by done.
    rewrite Z.div_add_l, (Z.div_small (_ mod _)), Z.add_0_r, Z.mod_mod by lia. done.
  - unfold cpupid_match_pid. rewrite Ep. unfold LAST__PID_MASK. rewrite Z.land_ones by done. apply Z.eqb_refl.
  - assert (2 ^ f_width LAST_CPUPID <= 2 ^ 31) by (apply Z.pow_le_mono_r; lia). split; lia.
  - unfold folio_last_cpupid. rewrite field_get_set by done. apply mask_id; [by apply wf_width|done].
Qed.
End Theorems.

(** ** A layout: 8192 sections of 128 MiB, 4 nodes, 4 zones, 512 cpus *)

#[global] Instance sample_layout : PageLayout := {|
  SECTIONS := mkField 51 13;
  NODES := mkField 49 2;
  ZONES := mkField 47 2;
  LAST_CPUPID := mkField 30 17;
  KASAN_TAG := mkField 22 8;
  LAST__PID_SHIFT := 8;
  LAST__CPU_SHIFT := 9;
  page_zonenum flags := Z.land (Z.shiftr flags 47) 3;
  pfn_to_section_nr pfn := Z.shiftr pfn 15;
|}.

#[global] Instance sample_layout_ok : PageLayoutOk.
Proof.
  split; [| |reflexivity| |reflexivity].
  - repeat constructor; cbn; lia.
  - repeat constructor; unfold disjoint_fields; cbn; lia.
  - cbn. lia.
Qed.

Lemma page_links_roundtrip_witness :
  page_zonenum (set_page_links 5 2 3 98304) = 2 /\ page_to_nid (set_page_links 5 2 3 98304) = 3 /\
  page_to_section (set_page_links 5 2 3 98304) = 3.
Proof.
  destruct (page_links_roundtrip 5 2 3 98304) as (_ & Hz & Hn & Hs & _);
    [by split|by split..|]. by rewrite Hz, Hn, Hs.
Defined.

(** Another cpu sets bit 0 between the load and the first exchange. *)
Lemma kasan_tag_set_exact_witness :
  exists before, [Z.lor 1] = before ++ snd (page_kasan_tag_set true [Z.lor 1] 4 7) /\
    page_kasan_tag true (fst (page_kasan_tag_set true [Z.lor 1] 4 7)) = 7 /\
    same_outside KASAN_TAG (fst (page_kasan_tag_set true [Z.lor 1] 4 7)) (fold_left (fun w race => race w) before 4).
Proof. apply (kasan_tag_set_exact [Z.lor 1] 4 7). lia. Defined.
Example kasan_tag_keeps_bit : Z.testbit (fst (page_kasan_tag_set true [Z.lor 1] 4 7)) 0 = true.
Proof. reflexivity. Qed.

Lemma cpupid_roundtrip_witness :
  cpupid_to_cpu (cpu_pid_to_cpupid 3 300) = 3 /\ cpupid_to_pid (cpu_pid_to_cpupid 3 300) = 44.
Proof. destruct (cpupid_roundtrip 3 300 0) as (Hc & Hp & _). by rewrite Hc, Hp. Defined.
