(* ===== verification/Folio.v ===== *)
(** * References, pins and sizes of folios ([include/linux/mm.h])

    The reference count keeps a folio alive, and for small folios also counts pins for
    DMA in its upper bits.  Assertions ([VM_BUG_ON]) are enabled, so that a theorem that
    a call does not crash covers them.  The theorems show that callers who put only what
    they got never touch a freed folio and free it with the last reference, that no
    pinned folio is taken for unpinned, and that the sizes agree. *)
From S2P Require Import Prelude.

(** [f_large] is the flag PG_head, [f_flags_1] the flags of the second page. *)
Record folio := mkFolio {
  f_refcount : Z;
  f_mapcount : Z;
  f_entire_mapcount : Z;
  f_nr_pages_mapped : Z;
  f_pincount : Z;
  f_large : bool;
  f_flags_1 : Z;
  f_nr_pages : Z;
}.
#[global] Instance eta_folio : Eta folio := fun f =>
  mkFolio (f_refcount f) (f_mapcount f) (f_entire_mapcount f) (f_nr_pages_mapped f) (f_pincount f) (f_large f)
    (f_flags_1 f) (f_nr_pages f).

(** The folios in use, by address. *)
Record pagestore := mkPages { folios : gmap Z folio }.
#[global] Instance eta_pagestore : Eta pagestore := fun s => mkPages (folios s).

(** [page_folio] (page-flags.h) is also [compound_head]; the page of a folio has the
    address of the folio. *)
Class FolioEnv := {
  page_folio : Z -> Z;
  devmap_managed_key : bool;
  is_zone_device_page : Z -> bool;
  __put_devmap_managed_page_refs : Z -> Z -> Kern pagestore bool;
  __folio_put : Z -> Kern pagestore unit;
  folio_total_mapcount : folio -> Z;
}.

(** A folio whose count is 0 is given back; ordinary pages are not managed by a device. *)
Class FolioEnvOk `{FolioEnv} : Prop := {
  folio_put_ok f s : f_refcount <$> folios s !! f = Some 0 ->
    wp (__folio_put f) (fun _ s' => folios s' = delete f (folios s)) s;
}.

Section Folio.
Context `{FolioEnv}.

Definition folio_at (f : Z) : Kern pagestore folio := s ← get; deref UseAfterFree (folios s !! f).
Definition set_ref (f r : Z) : Kern pagestore unit :=
  x ← folio_at f; modify (fun s => s <| folios ::= <[f := x <| f_refcount := r |>]> |>).
Definition folio_ref_count (f : Z) : Kern pagestore Z := x ← folio_at f; mret (f_refcount x).
Definition folio_ref_add (f n : Z) : Kern pagestore Z :=
  r ← folio_ref_count f; set_ref f (s32 (r + n));; mret (s32 (r + n)).
Definition VM_BUG_ON (b : bool) : Kern pagestore unit := if b then crashed KernelBug else mret tt.

Definition put_page_testzero (f : Z) : Kern pagestore bool :=
  r ← folio_ref_count f;
  VM_BUG_ON (r =? 0);;
  r ← folio_ref_add f (-1);
  mret (r =? 0).
Definition folio_put_testzero (f : Z) : Kern pagestore bool := put_page_testzero f.

Definition get_page_unless_zero (page : Z) : Kern pagestore bool :=
  r ← folio_ref_count page;
  if r =? 0 then mret false else folio_ref_add page 1;; mret true.
Definition folio_get_nontail_page (page : Z) : Kern pagestore (option Z) :=
  b ← get_page_unless_zero page;
  mret (if b : bool then Some page else None).

Definition put_devmap_managed_page_refs (page refs : Z) : Kern pagestore bool :=
  if negb devmap_managed_key then mret false
  else if negb (is_zone_device_page page) then mret false
  else __put_devmap_managed_page_refs page refs.
Definition put_devmap_managed_page (page : Z) : Kern pagestore bool := put_devmap_managed_page_refs page 1.

Definition ref_zero_or_close_to_overflow (r : Z) : bool := u32 (u32 r + 127) <=? 127.
Definition folio_get (f : Z) : Kern pagestore unit :=
  r ← folio_ref_count f;
  VM_BUG_ON (ref_zero_or_close_to_overflow r);;
  folio_ref_add f 1;; mret tt.
Definition get_page (page : Z) : Kern pagestore unit := folio_get (page_folio page).
Definition try_get_page (page : Z) : Kern pagestore bool :=
  let page := page_folio page in
  r ← folio_ref_count page;
  if r <=? 0 then mret false else folio_ref_add page 1;; mret true.
Definition folio_put (f : Z) : Kern pagestore unit :=
  z ← folio_put_testzero f;
  if z : bool then __folio_put f else mret tt.
Definition folio_put_refs (f refs : Z) : Kern pagestore unit :=
  r ← folio_ref_add f (- refs);
  if r =? 0 then __folio_put f else mret tt.
Definition put_page (page : Z) : Kern pagestore unit :=
  let f := page_folio page in
  d ← put_devmap_managed_page f;
  if d : bool then mret tt else folio_put f.

(** ** Sizes *)
Definition compound_order (f : folio) : Z := if negb (f_large f) then 0 else Z.land (f_flags_1 f) 255.
Definition folio_order (f : folio) : Z := if negb (f_large f) then 0 else Z.land (f_flags_1 f) 255.
Definition page_size (f : folio) : Z := u64 (Z.shiftl PAGE_SIZE (compound_order f)).
Definition page_shift (f : folio) : Z := u32 (PAGE_SHIFT + compound_order f).
Definition folio_nr_pages (f : folio) : Z := if negb (f_large f) then 1 else f_nr_pages f.
Definition compound_nr (f : folio) : Z := if negb (f_large f) then 1 else f_nr_pages f.
Definition folio_shift (f : folio) : Z := u32 (PAGE_SHIFT + folio_order f).
Definition folio_size (f : folio) : Z := u64 (Z.shiftl PAGE_SIZE (folio_order f)).

(** ** Pins *)
Definition GUP_PIN_COUNTING_BIAS : Z := 1024.
Definition folio_maybe_dma_pinned (f : folio) : bool :=
  if f_large f then 0 <? f_pincount f else GUP_PIN_COUNTING_BIAS <=? u32 (f_refcount f).

(** ** Mappings; the counts start from -1 *)
Definition folio_entire_mapcount (f : folio) : Kern pagestore Z :=
  VM_BUG_ON (negb (f_large f));; mret (s32 (f_entire_mapcount f + 1)).
Definition page_mapcount_reset (f : folio) : folio := f <| f_mapcount := -1 |>.
Definition folio_mapcount (f : folio) : Z :=
  if negb (f_large f) then s32 (f_mapcount f + 1) else folio_total_mapcount f.
Definition folio_large_is_mapped (f : folio) : bool := (0 <? f_nr_pages_mapped f) || (0 <=? f_entire_mapcount f).
Definition folio_mapped (f : folio) : bool :=
  if negb (f_large f) then 0 <=? f_mapcount f else folio_large_is_mapped f.
End Folio.

(** ** What callers may do

    [refs] is how many references to each folio are held.  A caller may get a reference
    to a folio somebody holds, and put one that is held. *)
Inductive ref_call :=
| GetPage (page : Z)
| TryGetPage (page : Z)
| GetUnlessZero (page : Z)
| PutPage (page : Z)
| PutRefs (f n : Z).

Definition drop (f n k : Z) (refs : gmap Z Z) : gmap Z Z := if n =? k then delete f refs else <[f := n - k]> refs.
Definition REF_MAX : Z := 2 ^ 31 - 1.

Section Refs.
Context `{FolioEnv}.

Definition run_ref (c : ref_call) : Kern pagestore bool :=
  match c with
  | GetPage page => get_page page;; mret true
  | TryGetPage page => try_get_page page
  | GetUnlessZero page => get_page_unless_zero page
  | PutPage page => put_page page;; mret true
  | PutRefs f n => folio_put_refs f n;; mret true
  end.
Fixpoint run_refs (cs : list ref_call) : Kern pagestore (list bool) :=
  match cs with
  | [] => mret []
  | c :: cs => b ← run_ref c; bs ← run_refs cs; mret (b :: bs)
  end.

Inductive ref_step : ref_call -> gmap Z Z -> gmap Z Z -> Prop :=
| may_get page refs n : refs !! page_folio page = Some n -> n < REF_MAX ->
    ref_step (GetPage page) refs (<[page_folio page := n + 1]> refs)
| may_try page refs n : refs !! page_folio page = Some n -> n < REF_MAX ->
    ref_step (TryGetPage page) refs (<[page_folio page := n + 1]> refs)
| may_get_head page refs n : refs !! page = Some n -> n < REF_MAX ->
    ref_step (GetUnlessZero page) refs (<[page := n + 1]> refs)
| may_put page refs n : refs !! page_folio page = Some n -> is_zone_device_page (page_folio page) = false ->
    ref_step (PutPage page) refs (drop (page_folio page) n 1 refs)
| may_put_refs f k refs n : refs !! f = Some n -> 0 < k <= n ->
    ref_step (PutRefs f k) refs (drop f n k refs).
Inductive ref_steps : list ref_call -> gmap Z Z -> gmap Z Z -> Prop :=
| refs_nil refs : ref_steps [] refs refs
| refs_cons c cs refs refs1 refs2 : ref_step c refs refs1 -> ref_steps cs refs1 refs2 -> ref_steps (c :: cs) refs refs2.

(** The folios in use are those somebody holds, with as many references. *)
Definition counted (refs : gmap Z Z) (s : pagestore) : Prop :=
  f_refcount <$> folios s = refs /\ map_Forall (fun _ n => 1 <= n <= REF_MAX) refs.

Lemma counted_at refs s f n :
  counted refs s -> refs !! f = Some n -> exists x, folios s !! f = Some x /\ f_refcount x = n /\ 1 <= n <= REF_MAX.
Proof.
  intros [<- Hall] Hf. pose proof Hf as Hr. rewrite lookup_fmap in Hf. destruct (folios s !! f) as [x|] eqn:Hx; [|done].
  injection Hf as <-. exists x. split_and!; try done; by apply (Hall f).
Qed.

Lemma ref_add_spec f k s x :
  folios s !! f = Some x ->
  wp (folio_ref_add f k) (fun r s' => r = s32 (f_refcount x + k) /\
    folios s' = <[f := x <| f_refcount := s32 (f_refcount x + k) |>]> (folios s)) s.
Proof.
  intros Hx. unfold folio_ref_add, set_ref, folio_ref_count, folio_at. kernel_unfold. rewrite Hx. cbn. rewrite Hx. done.
Qed.

Lemma counted_insert refs s s' f x n :
  counted refs s -> folios s' = <[f := x]> (folios s) -> f_refcount x = n -> 1 <= n <= REF_MAX -> counted (<[f := n]> refs) s'.
Proof.
  intros [<- Hall] E <- Hn. split; [by rewrite E, fmap_insert|]. by apply map_Forall_insert_2.
Qed.

Lemma ref_count_spec f s x (Q : Z -> pagestore -> Prop) :
  folios s !! f = Some x -> Q (f_refcount x) s -> wp (folio_ref_count f) Q s.
Proof. intros Hx HQ. unfold folio_ref_count, folio_at. kernel_unfold. by rewrite Hx. Qed.

Lemma s32_ref n : 0 <= n <= REF_MAX -> s32 n = n.
Proof. unfold REF_MAX. intros. apply s32_id. split; lia. Qed.

(** One more reference to a folio in use. *)
Lemma add_one refs s f n (m : Z -> Kern pagestore bool) :
  counted refs s -> refs !! f = Some n -> n < REF_MAX ->
  (forall x, folios s !! f = Some x -> f_refcount x = n ->
    wp (m f) (fun b s' => b = true /\ folios s' = <[f := x <| f_refcount := s32 (n + 1) |>]> (folios s)) s) ->
  wp (m f) (fun b s' => b = true /\ counted (<[f := n + 1]> refs) s') s.
Proof.
  intros Hc Hf Hn Hm. destruct (counted_at _ _ _ _ Hc Hf) as (x & Hx & Hr & Hb). eapply wp_mono; [|by apply Hm].
  cbn. intros b s' [-> Hs']. split; [done|]. eapply counted_insert; [done|exact Hs'| |lia]. cbn. apply s32_ref. lia.
Qed.

Lemma get_spec f s x n :
  folios s !! f = Some x -> f_refcount x = n -> 1 <= n <= REF_MAX ->
  wp (folio_get f;; mret true) (fun b s' => b = true /\ folios s' = <[f := x <| f_refcount := s32 (n + 1) |>]> (folios s)) s.
Proof.
  intros Hx Hr Hn. assert (ref_zero_or_close_to_overflow n = false) as Hz.
  { unfold ref_zero_or_close_to_overflow, REF_MAX in *. rewrite (u32_id n), u32_id by (split; lia). apply Z.leb_gt. lia. }
  unfold folio_get. rewrite !wp_bind. eapply ref_count_spec; [done|]. rewrite Hr, Hz, !wp_bind. cbn [VM_BUG_ON]. rewrite wp_ret, wp_bind.
  eapply wp_mono; [|by apply ref_add_spec]. intros r s' [_ Hs']. rewrite !wp_ret. by rewrite <- Hr.
Qed.

Lemma try_spec f s x n :
  folios s !! f = Some x -> f_refcount x = n -> 1 <= n ->
  wp (r ← folio_ref_count f; if r <=? 0 then mret false else folio_ref_add f 1;; mret true)
    (fun b s' => b = true /\ folios s' = <[f := x <| f_refcount := s32 (n + 1) |>]> (folios s)) s.
Proof.
  intros Hx Hr Hn. rewrite wp_bind. eapply ref_count_spec; [done|]. rewrite Hr. rewrite (proj2 (Z.leb_gt n 0)) by lia.
  rewrite wp_bind. eapply wp_mono; [|by apply ref_add_spec]. intros r s' [_ Hs']. rewrite wp_ret. by rewrite <- Hr.
Qed.

Lemma unless_zero_spec f s x n :
  folios s !! f = Some x -> f_refcount x = n -> 1 <= n ->
  wp (get_page_unless_zero f) (fun b s' => b = true /\ folios s' = <[f := x <| f_refcount := s32 (n + 1) |>]> (folios s)) s.
Proof.
  intros Hx Hr Hn. unfold get_page_unless_zero. rewrite wp_bind. eapply ref_count_spec; [done|]. rewrite Hr.
  rewrite (proj2 (Z.eqb_neq n 0)) by lia. rewrite wp_bind. eapply wp_mono; [|by apply ref_add_spec].
  intros r s' [_ Hs']. rewrite wp_ret. by rewrite <- Hr.
Qed.

Context `{!FolioEnvOk}.

(** Taking references away; the last one frees the folio. *)
Lemma sub_refs refs s f n k :
  counted refs s -> refs !! f = Some n -> 0 < k <= n ->
  wp (folio_put_refs f k) (fun _ s' => counted (drop f n k refs) s') s.
Proof.
  intros Hc Hf Hk. destruct (counted_at _ _ _ _ Hc Hf) as (x & Hx & Hr & Hb). unfold folio_put_refs. rewrite wp_bind.
  eapply wp_mono; [|by apply ref_add_spec]. intros r s1 [-> Hs1]. rewrite Hr in *. rewrite s32_ref in * by lia.
  unfold drop. replace (n + - k) with (n - k) in * by lia. destruct (Z.eqb_spec n k) as [->|Hn].
  - rewrite Z.sub_diag in *. rewrite Z.eqb_refl. eapply wp_mono; [|apply folio_put_ok; by rewrite Hs1, lookup_insert_eq].
    cbn. intros _ s2 Hs2. destruct Hc as [<- Hall]. split; [|by apply map_Forall_delete].
    by rewrite Hs2, Hs1, delete_insert_eq, fmap_delete.
  - rewrite (proj2 (Z.eqb_neq (n - k) 0)) by lia. rewrite wp_ret. eapply counted_insert; [done|exact Hs1|done|lia].
Qed.

(** Putting one reference is the same as putting a number of one, after the assertion. *)
Lemma folio_put_one f s x : folios s !! f = Some x -> f_refcount x <> 0 -> folio_put f s = folio_put_refs f 1 s.
Proof.
  intros Hx Hn. unfold folio_put, folio_put_testzero, put_page_testzero, folio_put_refs, folio_ref_count, folio_at.
  apply Z.eqb_neq in Hn. kernel_unfold. rewrite Hx. cbn. rewrite Hn. cbn. change (- (1)) with (-1). by destruct (folio_ref_add f (-1) s).
Qed.

Lemma run_ref_spec c refs refs' s :
  ref_step c refs refs' -> counted refs s -> wp (run_ref c) (fun b s' => b = true /\ counted refs' s') s.
Proof.
  intros Hs Hc. destruct Hs as [page refs n Hf Hn|page refs n Hf Hn|page refs n Hf Hn|page refs n Hf Hz|f k refs n Hf Hk];
    cbn [run_ref].
  - apply (add_one refs s (page_folio page) n (fun f => folio_get f;; mret true)); [done..|]. intros x Hx Hr.
    destruct (counted_at _ _ _ _ Hc Hf) as (? & ? & ? & ?). by apply get_spec.
  - apply (add_one refs s (page_folio page) n (fun f => r ← folio_ref_count f; if r <=? 0 then mret false else folio_ref_add f 1;; mret true));
      [done..|]. intros x Hx Hr. destruct (counted_at _ _ _ _ Hc Hf) as (? & ? & ? & []). by apply try_spec.
  - apply (add_one refs s page n get_page_unless_zero); [done..|]. intros x Hx Hr.
    destruct (counted_at _ _ _ _ Hc Hf) as (? & ? & ? & []). by apply unless_zero_spec.
  - destruct (counted_at _ _ _ _ Hc Hf) as (x & Hx & Hr & Hb).
    assert (put_page page s = folio_put_refs (page_folio page) 1 s) as E.
    { rewrite <- (folio_put_one _ _ x) by (done || lia). unfold put_page, put_devmap_managed_page, put_devmap_managed_page_refs.
      rewrite Hz. by destruct devmap_managed_key. }
    assert (wp (put_page page) (fun _ s' => counted (drop (page_folio page) n 1 refs) s') s) as Hp.
    { unfold wp. rewrite E. apply (sub_refs refs s (page_folio page) n 1); [done..|lia]. }
    rewrite wp_bind. eapply wp_mono; [|exact Hp]. by intros [] s' Hs'.
  - rewrite wp_bind. eapply wp_mono; [|by apply (sub_refs refs s f n k)]. by intros [] s' Hs'.
Qed.

(** C16: callers that put only references that are held never crash: they touch no folio
    that was freed and trip no assertion.  After any sequence of gets and puts each
    count is the number of references held, and the folios in use are those somebody
    holds, so that a folio is freed with its last reference and not before. *)
Theorem references_keep_folios cs refs refs' s :
  counted refs s -> ref_steps cs refs refs' ->
  wp (run_refs cs) (fun bs s' => Forall (eq true) bs /\ counted refs' s') s.
Proof.
  intros Hc Hs. revert s Hc. induction Hs as [|c cs refs refs1 refs2 Hs _ IH]; intros s Hc; [by split|].
  cbn [run_refs]. rewrite wp_bind. eapply wp_mono; [|by eapply run_ref_spec]. intros b s1 [-> Hc1].
  rewrite wp_bind. eapply wp_mono; [|by apply IH]. intros bs s2 [Hbs Hc2]. rewrite wp_ret. split; [by constructor|done].
Qed.
End Refs.

(** ** Pins, sizes and mappings *)

Lemma u32_s32 z : u32 (s32 z) = u32 z.
Proof.
  unfold u32, s32. rewrite Zminus_mod, Z.mod_mod by lia. rewrite <- Zminus_mod. f_equal. lia.
Qed.

(** no pinned folio is taken for unpinned.  A small folio with [r] references and [p]
    pins, each of which counts 1024, is reported exactly if the sum reaches 1024: also
    when the signed count has gone negative, and falsely only beside 1024 references or
    more.  For a large folio the answer is exact. *)
Theorem dma_pinned_sound (f : folio) r p :
  0 <= r -> 0 <= p -> r + GUP_PIN_COUNTING_BIAS * p < 2 ^ 32 ->
  (if f_large f then f_pincount f = p else f_refcount f = s32 (r + GUP_PIN_COUNTING_BIAS * p)) ->
  (0 < p -> folio_maybe_dma_pinned f = true) /\
  (folio_maybe_dma_pinned f = true -> 0 < p \/ f_large f = false /\ GUP_PIN_COUNTING_BIAS <= r).
Proof.
  unfold folio_maybe_dma_pinned, GUP_PIN_COUNTING_BIAS. intros Hr Hp Hs Hf. destruct (f_large f).
  - subst p. rewrite Z.ltb_lt. split; [done|by left].
  - rewrite Hf, u32_s32, u32_id, Z.leb_le by (split; lia). split; [lia|]. intros. destruct (Z.eq_dec p 0); [right|left]; lia.
Qed.

(** The second page of a large folio holds its order, and its size as a number. *)
Definition folio_wf (f : folio) : Prop :=
  f_large f = true -> Z.land (f_flags_1 f) 255 <= 51 /\ f_nr_pages f = 2 ^ Z.land (f_flags_1 f) 255.

Lemma folio_order_bounds f : folio_wf f -> 0 <= folio_order f <= 51 /\ folio_nr_pages f = 2 ^ folio_order f.
Proof.
  unfold folio_wf, folio_order, folio_nr_pages. intros Hf. destruct (f_large f); cbn; [|lia]. destruct (Hf eq_refl) as [H1 H2].
  split; [|done]. split; [|done]. apply Z.land_nonneg. right. lia.
Qed.

(** The size in bytes, in pages and as a shift agree and do not overflow. *)
Theorem folio_sizes_agree (f : folio) :
  folio_wf f ->
  folio_size f = folio_nr_pages f * PAGE_SIZE /\ folio_size f = 2 ^ folio_shift f /\
  page_size f = folio_size f /\ compound_nr f = folio_nr_pages f.
Proof.
  intros Hf. destruct (folio_order_bounds f Hf) as [Ho Hn]. unfold page_size, compound_nr, folio_size, folio_shift.
  assert (2 ^ folio_order f * 4096 <= 2 ^ 51 * 4096) by (apply Z.mul_le_mono_nonneg_r; [lia|]; apply Z.pow_le_mono_r; lia).
  pose proof (Z.pow_pos_nonneg 2 (folio_order f)).
  rewrite Z.shiftl_mul_pow2, Hn by lia. rewrite u64_id by (unfold PAGE_SIZE; split; lia). rewrite u32_id by (unfold PAGE_SHIFT; split; lia).
  split_and!; [lia| |by unfold compound_order, folio_order in *; rewrite Z.shiftl_mul_pow2, u64_id by (unfold PAGE_SIZE; lia || split; lia)|].
  - rewrite Z.pow_add_r by (unfold PAGE_SHIFT; lia). done.
  - by unfold folio_nr_pages in Hn.
Qed.

(** A small folio is mapped exactly if it has a mapping. *)
Theorem mapped_exact `{FolioEnv} (f : folio) :
  f_large f = false -> -1 <= f_mapcount f < 2 ^ 31 - 1 ->
  folio_mapped f = true <-> 0 < folio_mapcount f.
Proof.
  intros Hl Hm. unfold folio_mapped, folio_mapcount. rewrite Hl. cbn [negb]. rewrite Z.leb_le, s32_id by (split; lia). lia.
Qed.

(** ** Folios of four pages *)

#[global] Instance sample_folios : FolioEnv := {|
  page_folio page := page / 4 * 4;
  devmap_managed_key := true;
  is_zone_device_page f := 100 <=? f;
  __put_devmap_managed_page_refs _ _ := mret true;
  __folio_put f := modify (fun s => s <| folios ::= delete f |>);
  folio_total_mapcount f := f_nr_pages_mapped f + f_entire_mapcount f + 1;
|}.
#[global] Instance sample_folios_ok : FolioEnvOk.
Proof. split. intros f s _. done. Qed.

Definition sample_folio : folio := mkFolio 1 (-1) (-1) 0 0 true 2 4.
Definition sample_pages : pagestore := mkPages {[8 := sample_folio]}.
Definition sample_refs : list ref_call := [GetPage 9; TryGetPage 10; PutPage 11; GetUnlessZero 8; PutRefs 8 2; PutPage 8].

(** The last of the calls frees the folio, and the one before does not. *)
Example last_put_frees :
  match run_refs sample_refs sample_pages with Done _ s => folios s = ∅ | Crash _ => False end /\
  match run_refs (take 5 sample_refs) sample_pages with Done _ s => folios s !! 8 = Some sample_folio | Crash _ => False end.
Proof. vm_compute. done. Qed.

Lemma references_keep_folios_witness :
  wp (run_refs sample_refs) (fun bs s' => Forall (eq true) bs /\ counted ∅ s') sample_pages.
Proof.
  apply (references_keep_folios sample_refs {[8 := 1]}).
  - split; [by vm_compute|]. apply map_Forall_singleton. by unfold REF_MAX.
  - eapply refs_cons; [eapply may_get; done|]. eapply refs_cons; [eapply may_try; done|].
    eapply refs_cons; [eapply may_put; done|]. eapply refs_cons; [eapply may_get_head; done|].
    eapply refs_cons; [by eapply may_put_refs|]. eapply refs_cons; [eapply may_put; done|].
    exact (refs_nil ∅).
Defined.

Lemma dma_pinned_sound_witness :
  folio_maybe_dma_pinned (mkFolio (s32 (3 + 1024 * 2097152)) 0 0 0 0 false 0 0) = true.
Proof. apply (dma_pinned_sound _ 3 2097152); by vm_compute. Defined.
