(* ===== verification/Vma.v ===== *)
(** * Memory areas ([include/linux/mm.h])

    The flags of an area and the write lock their changes take, the guard gaps of
    stacks, the check of write seals, and the conversion between error numbers and fault
    codes.  Calls run without interruption here; the lock against readers is [VmaLock]. *)
From S2P Require Import Prelude.

Definition VM_NONE : Z := 0.
Definition VM_READ : Z := 1.
Definition VM_WRITE : Z := 2.
Definition VM_EXEC : Z := 4.
Definition VM_SHARED : Z := 8.
Definition VM_MAYWRITE : Z := 32.
Definition VM_GROWSDOWN : Z := 256.
Definition VM_SEQ_READ : Z := 32768.
Definition VM_RAND_READ : Z := 65536.
Definition VM_ACCESS_FLAGS : Z := Z.lor (Z.lor VM_READ VM_WRITE) VM_EXEC.
Definition VM_STACK_EARLY : Z := 0.
Definition VM_STACK_INCOMPLETE_SETUP : Z := Z.lor (Z.lor VM_RAND_READ VM_SEQ_READ) VM_STACK_EARLY.
Definition EHWPOISON : Z := 133.

(** What differs between architectures, and the codes of [mm_types.h]. *)
Class VmArch := {
  VM_GROWSUP : Z;
  VM_SHADOW_STACK : Z;
  stack_guard_gap : Z;
  vma_dummy_vm_ops : Z;
  VM_FAULT_OOM : Z;
  VM_FAULT_SIGBUS : Z;
  VM_FAULT_SIGSEGV : Z;
  VM_FAULT_HWPOISON : Z;
  VM_FAULT_HWPOISON_LARGE : Z;
  VM_FAULT_NOPAGE : Z;
  VM_FAULT_LOCKED : Z;
  FOLL_HWPOISON : Z;
  FOLL_HONOR_NUMA_FAULT : Z;
}.

(** The codes are different bits. *)
Class VmArchOk `{VmArch} : Prop := {
  fault_bits : forall a b, (a < b < 7)%nat ->
    let codes := [VM_FAULT_OOM; VM_FAULT_SIGBUS; VM_FAULT_SIGSEGV; VM_FAULT_HWPOISON; VM_FAULT_HWPOISON_LARGE;
                  VM_FAULT_NOPAGE; VM_FAULT_LOCKED] in
    Z.land (nth a codes 0) (nth b codes 0) = 0;
  fault_nonzero : Forall (fun c => c <> 0) [VM_FAULT_OOM; VM_FAULT_SIGBUS; VM_FAULT_HWPOISON];
  guard_gap_range : is_u64 stack_guard_gap;
  foll_nonzero : FOLL_HWPOISON <> 0;
}.

Record vm_area := mkVma {
  vm_start : Z;
  vm_end : Z;
  vm_flags : Z;
  vm_ops : Z;
  vma_lock_seq : Z;
  detached : bool;
}.
#[global] Instance eta_vm_area : Eta vm_area := fun v =>
  mkVma (vm_start v) (vm_end v) (vm_flags v) (vm_ops v) (vma_lock_seq v) (detached v).

(** An area and what it uses of its address space. *)
Record area := mkArea {
  vma : vm_area;
  mm_seq : Z;
  mmap_write_locked : bool;
  mm_brk : Z;
  mm_start_brk : Z;
  mm_start_stack : Z;
}.
#[global] Instance eta_area : Eta area := fun a =>
  mkArea (vma a) (mm_seq a) (mmap_write_locked a) (mm_brk a) (mm_start_brk a) (mm_start_stack a).

Definition set_flags (flags : Z) : Kern area unit := modify (fun a => a <| vma ::= fun v => v <| vm_flags := flags |> |>).

Definition mmap_assert_write_locked : Kern area unit :=
  b ← gets mmap_write_locked; if b : bool then mret tt else crashed KernelBug.
Definition is_write_locked : Kern area bool :=
  mmap_assert_write_locked;;
  gets (fun a => vma_lock_seq (vma a) =? mm_seq a).
(** [vma_start_write], when no reader is in the way. *)
Definition start_write : Kern area unit :=
  b ← is_write_locked;
  if b : bool then mret tt
  else modify (fun a => a <| vma ::= fun v => v <| vma_lock_seq := mm_seq a |> |>).
Definition vma_assert_write_locked : Kern area unit :=
  b ← is_write_locked; if b : bool then mret tt else crashed KernelBug.
Definition vma_mark_detached (d : bool) : Kern area unit :=
  (if d then vma_assert_write_locked else mret tt);;
  modify (fun a => a <| vma ::= fun v => v <| detached := d |> |>).

Definition vm_flags_init (flags : Z) : Kern area unit := set_flags flags.
Definition vm_flags_reset (flags : Z) : Kern area unit := vma_assert_write_locked;; vm_flags_init flags.
Definition vm_flags_reset_once (flags : Z) : Kern area unit := vma_assert_write_locked;; set_flags flags.
Definition vm_flags_set (flags : Z) : Kern area unit :=
  start_write;; old ← gets (fun a => vm_flags (vma a)); set_flags (Z.lor old flags).
Definition vm_flags_clear (flags : Z) : Kern area unit :=
  start_write;; old ← gets (fun a => vm_flags (vma a)); set_flags (Z.land old (Z.lnot flags)).
Definition __vm_flags_mod (set clear : Z) : Kern area unit :=
  old ← gets (fun a => vm_flags (vma a)); vm_flags_init (Z.land (Z.lor old set) (Z.lnot clear)).
Definition vm_flags_mod (set clear : Z) : Kern area unit := start_write;; __vm_flags_mod set clear.

Definition vma_set_anonymous (v : vm_area) : vm_area := v <| vm_ops := 0 |>.
Definition vma_is_anonymous (v : vm_area) : bool := negb (truthy (vm_ops v)).
Definition vma_is_initial_heap (a : area) : bool :=
  (vm_start (vma a) <? mm_brk a) && (mm_start_brk a <? vm_end (vma a)).
Definition vma_is_initial_stack (a : area) : bool :=
  (vm_start (vma a) <=? mm_start_stack a) && (mm_start_stack a <=? vm_end (vma a)).
Definition vma_is_accessible (v : vm_area) : bool := truthy (Z.land (vm_flags v) VM_ACCESS_FLAGS).
Definition is_shared_maywrite (flags : Z) : bool :=
  Z.land flags (Z.lor VM_SHARED VM_MAYWRITE) =? Z.lor VM_SHARED VM_MAYWRITE.
Definition vma_is_shared_maywrite (v : vm_area) : bool := is_shared_maywrite (vm_flags v).
Definition is_cow_mapping (flags : Z) : bool := Z.land flags (Z.lor VM_SHARED VM_MAYWRITE) =? VM_MAYWRITE.
Definition vma_pages (v : vm_area) : Z := Z.shiftr (u64 (vm_end v - vm_start v)) PAGE_SHIFT.
Definition range_in_vma (v : option vm_area) (start end_ : Z) : bool :=
  match v with Some v => (vm_start v <=? start) && (end_ <=? vm_end v) | None => false end.
(** [find_exact_vma]; [lookup] is [mtree_load]. *)
Definition find_exact_vma (lookup : Z -> option vm_area) (start end_ : Z) : option vm_area :=
  match lookup start with
  | Some v => if negb (vm_start v =? start) || negb (vm_end v =? end_) then None else Some v
  | None => None
  end.

Definition F_SEAL_WRITE : Z := 8.
Definition F_SEAL_FUTURE_WRITE : Z := 16.
Definition seal_check_write (seals : Z) : Kern area Z :=
  if truthy (Z.land seals (Z.lor F_SEAL_WRITE F_SEAL_FUTURE_WRITE)) then
    flags ← gets (fun a => vm_flags (vma a));
    if truthy (Z.land flags VM_SHARED) && truthy (Z.land flags VM_WRITE) then mret (- EPERM)
    else (if truthy (Z.land flags VM_SHARED) then vm_flags_clear VM_MAYWRITE else mret tt);; mret 0
  else mret 0.

Section VmArch.
Context `{VmArch}.

Definition vma_is_temporary_stack (v : vm_area) : bool :=
  if negb (truthy (s32 (Z.land (vm_flags v) (Z.lor VM_GROWSDOWN VM_GROWSUP)))) then false
  else Z.land (vm_flags v) VM_STACK_INCOMPLETE_SETUP =? VM_STACK_INCOMPLETE_SETUP.

Definition stack_guard_start_gap (v : vm_area) : Z :=
  if truthy (Z.land (vm_flags v) VM_GROWSDOWN) then stack_guard_gap
  else if truthy (Z.land (vm_flags v) VM_SHADOW_STACK) then PAGE_SIZE
  else 0.
Definition vm_start_gap (v : vm_area) : Z :=
  let gap := stack_guard_start_gap v in
  let start := u64 (vm_start v - gap) in
  if vm_start v <? start then 0 else start.
Definition vm_end_gap (v : vm_area) : Z :=
  if truthy (Z.land (vm_flags v) VM_GROWSUP) then
    let end_ := u64 (vm_end v + stack_guard_gap) in
    if end_ <? vm_end v then u64 (- PAGE_SIZE) else end_
  else vm_end v.

Definition vmf_error (err : Z) : Z :=
  if err =? - ENOMEM then VM_FAULT_OOM
  else if err =? - EHWPOISON then VM_FAULT_HWPOISON
  else VM_FAULT_SIGBUS.
Definition vmf_fs_error (err : Z) : Z :=
  if err =? 0 then VM_FAULT_LOCKED
  else if (err =? - EFAULT) || (err =? - EAGAIN) then VM_FAULT_NOPAGE
  else if err =? - ENOMEM then VM_FAULT_OOM
  else VM_FAULT_SIGBUS.
Definition vm_fault_to_errno (vm_fault foll_flags : Z) : Z :=
  if truthy (Z.land vm_fault VM_FAULT_OOM) then - ENOMEM
  else if truthy (Z.land vm_fault (Z.lor VM_FAULT_HWPOISON VM_FAULT_HWPOISON_LARGE)) then
    if truthy (Z.land foll_flags FOLL_HWPOISON) then - EHWPOISON else - EFAULT
  else if truthy (Z.land vm_fault (Z.lor VM_FAULT_SIGBUS VM_FAULT_SIGSEGV)) then - EFAULT
  else 0.
Definition gup_can_follow_protnone (v : vm_area) (flags : Z) : bool :=
  if negb (truthy (Z.land flags FOLL_HONOR_NUMA_FAULT)) then true else negb (vma_is_accessible v).
End VmArch.

(** ** Flags and seals *)

(** The area with other flags, write-locked. *)
Definition relocked (flags : Z) (a : area) : area :=
  a <| vma ::= fun v => v <| vma_lock_seq := mm_seq a |> <| vm_flags := flags |> |>.
Definition write_locked (a : area) : bool := mmap_write_locked a && (vma_lock_seq (vma a) =? mm_seq a).

Lemma start_write_run a :
  start_write a = if mmap_write_locked a then Done tt (relocked (vm_flags (vma a)) a) else Crash KernelBug.
Proof.
  unfold start_write, is_write_locked, mmap_assert_write_locked, relocked. kernel_unfold.
  destruct a as [[st en fl op sq dt] ms lk b sb ss]. destruct lk; [|done]. cbn. destruct (Z.eqb_spec sq ms) as [->|]; done.
Qed.

Lemma flags_under_lock (f : Z -> Z) a :
  (start_write;; old ← gets (fun a => vm_flags (vma a)); set_flags (f old)) a =
  if mmap_write_locked a then Done tt (relocked (f (vm_flags (vma a))) a) else Crash KernelBug.
Proof.
  unfold mbind at 1, kern_bind at 1. rewrite start_write_run. destruct (mmap_write_locked a); done.
Qed.

Lemma reset_run flags a :
  vm_flags_reset flags a = if write_locked a then Done tt (relocked flags a) else Crash KernelBug.
Proof.
  unfold vm_flags_reset, vma_assert_write_locked, is_write_locked, mmap_assert_write_locked, write_locked, relocked.
  destruct a as [[st en fl op sq dt] ms lk b sb ss]. kernel_unfold. cbn. destruct lk; [|done]. cbn.
  destruct (Z.eqb_spec sq ms) as [->|]; done.
Qed.

(** the flags of an area change only under its write lock.  [vm_flags_set],
    [vm_flags_clear] and [vm_flags_mod] take it and change the bits they name and no
    other; [vm_flags_reset] asserts it.  Without the mmap lock all of them are bugs.
    Whatever follows one of them under the same lock finds the area write-locked. *)
Theorem flags_change_under_lock (set clear flags : Z) (a : area) :
  let old := vm_flags (vma a) in
  let result new := if mmap_write_locked a then Done tt (relocked new a) else Crash KernelBug in
  vm_flags_set set a = result (Z.lor old set) /\
  vm_flags_clear clear a = result (Z.land old (Z.lnot clear)) /\
  vm_flags_mod set clear a = result (Z.land (Z.lor old set) (Z.lnot clear)) /\
  vm_flags_reset flags a = (if write_locked a then Done tt (relocked flags a) else Crash KernelBug) /\
  (forall new, mmap_write_locked a = true -> vm_flags_reset flags (relocked new a) = Done tt (relocked flags a)).
Proof.
  cbv zeta. split_and!.
  - apply (flags_under_lock (fun old => Z.lor old set)).
  - apply (flags_under_lock (fun old => Z.land old (Z.lnot clear))).
  - apply (flags_under_lock (fun old => Z.land (Z.lor old set) (Z.lnot clear))).
  - apply reset_run.
  - intros new Hl. rewrite reset_run. unfold write_locked. cbn. by rewrite Hl, Z.eqb_refl.
Qed.

Lemma land_bit flags i : 0 <= i -> truthy (Z.land flags (2 ^ i)) = Z.testbit flags i.
Proof.
  intros Hi. unfold truthy. destruct (Z.testbit flags i) eqn:E.
  - apply negb_true_iff, Z.eqb_neq. intros Hz. apply (f_equal (fun z => Z.testbit z i)) in Hz.
    by rewrite Z.land_spec, E, Z.pow2_bits_true, Z.testbit_0_l in Hz by done.
  - apply negb_false_iff, Z.eqb_eq, Z.bits_inj'. intros j Hj. rewrite Z.land_spec, Z.testbit_0_l, Z.pow2_bits_eqb by done.
    destruct (Z.eqb_spec i j) as [->|]; [by rewrite E|apply andb_false_r].
Qed.

Lemma shared_maywrite_bits flags : is_shared_maywrite flags = Z.testbit flags 3 && Z.testbit flags 5.
Proof.
  unfold is_shared_maywrite. change (Z.lor VM_SHARED VM_MAYWRITE) with 40. apply eq_true_iff_eq. rewrite Z.eqb_eq, andb_true_iff. split.
  - intros E. split; [apply (f_equal (fun z => Z.testbit z 3)) in E|apply (f_equal (fun z => Z.testbit z 5)) in E];
      rewrite Z.land_spec in E; cbn in E; by rewrite andb_true_r in E.
  - intros [E3 E5]. apply Z.bits_inj'. intros j Hj. rewrite Z.land_spec.
    destruct (Z.eq_dec j 3) as [->|]; [by rewrite E3|]. destruct (Z.eq_dec j 5) as [->|]; [by rewrite E5|].
    replace 40 with (Z.lor (2 ^ 3) (2 ^ 5)) by done. rewrite Z.lor_spec, !Z.pow2_bits_eqb by lia.
    destruct (Z.eqb_spec 3 j), (Z.eqb_spec 5 j); lia.
Qed.

(** C33: what [seal_check_write] does to a mapping of a file with the seals [seals], exactly.
    If the file is sealed against writing, now or in the future, a shared writable
    mapping is refused with -EPERM and not changed; a shared one that is not writable is
    accepted and loses the right to become writable ([VM_MAYWRITE], bit 5) and no other
    flag; a private mapping, or one of a file without such a seal, is accepted and not
    changed.  Hence an accepted mapping of a sealed file is not shared with the right to
    write or to get it. *)
Theorem seals_forbid_writing (seals : Z) (a : area) :
  mmap_write_locked a = true ->
  let flags := vm_flags (vma a) in
  let sealed := Z.testbit seals 3 || Z.testbit seals 4 in
  let shared := Z.testbit flags 3 in
  let writable := Z.testbit flags 1 in
  exists r a', seal_check_write seals a = Done r a' /\
    r = (if sealed && shared && writable then - EPERM else 0) /\
    a' = (if sealed && shared && negb writable then relocked (Z.clearbit flags 5) a else a) /\
    (sealed = true -> r = 0 -> is_shared_maywrite (vm_flags (vma a')) = false /\
      Z.testbit (vm_flags (vma a')) 3 && Z.testbit (vm_flags (vma a')) 1 = false).
Proof.
  intros Hl flags sealed shared writable. unfold seal_check_write.
  assert (truthy (Z.land seals (Z.lor F_SEAL_WRITE F_SEAL_FUTURE_WRITE)) = sealed) as ->.
  { rewrite Z.land_lor_distr_r, truthy_lor. change F_SEAL_WRITE with (2 ^ 3). change F_SEAL_FUTURE_WRITE with (2 ^ 4).
    by rewrite !land_bit by lia. }
  destruct sealed; [|by exists 0, a].
  rewrite gets_bind. fold flags. change VM_SHARED with (2 ^ 3). change VM_WRITE with (2 ^ 1). rewrite !land_bit by lia.
  fold shared writable. destruct shared eqn:E3; cbn [andb]; [destruct writable eqn:E1; cbn [negb]|].
  - by exists (- EPERM), a.
  - exists 0, (relocked (Z.clearbit flags 5) a). split_and!; [|done|done|intros _ _].
    + unfold mbind at 1, kern_bind at 1, vm_flags_clear.
      rewrite (flags_under_lock (fun old => Z.land old (Z.lnot VM_MAYWRITE))), Hl. fold flags.
      change VM_MAYWRITE with (2 ^ 5). by rewrite <- Z.ldiff_land.
    + change (vm_flags (vma (relocked (Z.clearbit flags 5) a))) with (Z.clearbit flags 5).
      rewrite shared_maywrite_bits, !Z.clearbit_eqb by lia. fold shared writable. rewrite E3, E1. by rewrite !andb_false_r.
  - exists 0, a. split_and!; [done|done|done|intros _ _]. rewrite shared_maywrite_bits. fold flags shared. by rewrite E3.
Qed.

(** ** Guard gaps and fault codes *)

Section Gaps.
Context `{VmArch} `{!VmArchOk}.

(** the guard gaps of an area are exact and do not wrap: the start moves down by the
    gap and stops at 0, the end of an area that grows up moves up and stops at the last
    page, and both enclose the area. *)
Theorem guard_gaps_exact (v : vm_area) :
  is_u64 (vm_start v) -> is_u64 (vm_end v) -> (PAGE_SIZE | vm_end v) -> (PAGE_SIZE | stack_guard_gap) ->
  vm_start_gap v = Z.max 0 (vm_start v - stack_guard_start_gap v) /\
  vm_end_gap v = (if truthy (Z.land (vm_flags v) VM_GROWSUP) then Z.min (2 ^ 64 - PAGE_SIZE) (vm_end v + stack_guard_gap)
                  else vm_end v) /\
  vm_start_gap v <= vm_start v /\ vm_end v <= vm_end_gap v.
Proof.
  intros Hs He [q Hq] [g Hg]. pose proof guard_gap_range as Hgap. unfold is_u64, PAGE_SIZE in *.
  assert (0 <= stack_guard_start_gap v < 2 ^ 64) as Hst.
  { unfold stack_guard_start_gap, PAGE_SIZE. repeat case_match; lia. }
  assert (vm_start_gap v = Z.max 0 (vm_start v - stack_guard_start_gap v)) as E1.
  { unfold vm_start_gap, u64. destruct (Z.le_gt_cases (stack_guard_start_gap v) (vm_start v)).
    - rewrite Z.mod_small by lia. destruct (Z.ltb_spec (vm_start v) (vm_start v - stack_guard_start_gap v)); lia.
    - rewrite <- (Z.mod_add _ 1), Z.mod_small by lia.
      destruct (Z.ltb_spec (vm_start v) (vm_start v - stack_guard_start_gap v + 1 * 2 ^ 64)); lia. }
  split; [done|]. rewrite E1. unfold vm_end_gap, u64, PAGE_SIZE. destruct (truthy (Z.land (vm_flags v) VM_GROWSUP)); [|lia].
  destruct (Z.lt_ge_cases (vm_end v + stack_guard_gap) (2 ^ 64)).
  - rewrite (Z.mod_small (vm_end v + stack_guard_gap)) by lia. destruct (Z.ltb_spec (vm_end v + stack_guard_gap) (vm_end v)); lia.
  - rewrite <- (Z.mod_add (vm_end v + stack_guard_gap) (-1)), (Z.mod_small (_ + -1 * _)) by lia.
    destruct (Z.ltb_spec (vm_end v + stack_guard_gap + -1 * 2 ^ 64) (vm_end v)); change (- (4096) mod 2 ^ 64) with (2 ^ 64 - 4096); lia.
Qed.

Lemma land_self_lor a b : Z.land a (Z.lor a b) = a.
Proof. apply Z.bits_inj'. intros i Hi. rewrite Z.land_spec, Z.lor_spec. by destruct (Z.testbit a i), (Z.testbit b i). Qed.

(** a fault code made of an error number gives that number back: out of memory and,
    if the caller asks for it, poisoned memory; every other error is a bad address. *)
Theorem fault_codes_roundtrip err foll_flags :
  vm_fault_to_errno (vmf_error err) foll_flags =
  if err =? - ENOMEM then - ENOMEM
  else if (err =? - EHWPOISON) && truthy (Z.land foll_flags FOLL_HWPOISON) then - EHWPOISON else - EFAULT.
Proof.
  pose proof fault_nonzero as Hn. repeat (apply Forall_cons in Hn as [? Hn]).
  pose proof (fault_bits 0 3 ltac:(lia)) as B03. pose proof (fault_bits 0 1 ltac:(lia)) as B01.
  pose proof (fault_bits 1 3 ltac:(lia)) as B13. pose proof (fault_bits 1 4 ltac:(lia)) as B14. cbn in B03, B01, B13, B14.
  unfold vm_fault_to_errno, vmf_error. destruct (err =? - ENOMEM); [by rewrite Z.land_diag, (proj2 (truthy_true _))|].
  destruct (err =? - EHWPOISON); cbn [andb].
  - rewrite Z.land_comm, B03, land_self_lor, (proj2 (truthy_true VM_FAULT_HWPOISON)) by done. done.
  - rewrite (Z.land_comm VM_FAULT_SIGBUS VM_FAULT_OOM), B01, Z.land_lor_distr_r, B13, B14, land_self_lor.
    by rewrite (proj2 (truthy_true VM_FAULT_SIGBUS)).
Qed.
End Gaps.

(** ** An architecture with both directions of growth *)

#[global] Instance sample_vm_arch : VmArch := {|
  VM_GROWSUP := 512;
  VM_SHADOW_STACK := 2 ^ 37;
  stack_guard_gap := 256 * 4096;
  vma_dummy_vm_ops := 1;
  VM_FAULT_OOM := 1;
  VM_FAULT_SIGBUS := 2;
  VM_FAULT_SIGSEGV := 64;
  VM_FAULT_HWPOISON := 16;
  VM_FAULT_HWPOISON_LARGE := 32;
  VM_FAULT_NOPAGE := 256;
  VM_FAULT_LOCKED := 512;
  FOLL_HWPOISON := 32;
  FOLL_HONOR_NUMA_FAULT := 4096;
|}.
#[global] Instance sample_vm_arch_ok : VmArchOk.
Proof.
  split; [|repeat constructor; done|done|done]. intros a b Hab. cbv zeta.
  do 7 (destruct b as [|b]; [do 7 (destruct a as [|a]; [first [lia | reflexivity]|]); lia|]). lia.
Qed.

Definition sample_area (flags : Z) : area := mkArea (mkVma 8192 (2 ^ 64 - 8192) flags 0 6 false) 7 true 0 0 0.

(** A shared mapping that is readable and may become writable: flags 41. *)
Lemma seals_forbid_writing_witness :
  exists r a', seal_check_write F_SEAL_WRITE (sample_area 41) = Done r a' /\ r = 0 /\ a' = relocked 9 (sample_area 41) /\
    (true = true -> r = 0 -> is_shared_maywrite (vm_flags (vma a')) = false /\
      Z.testbit (vm_flags (vma a')) 3 && Z.testbit (vm_flags (vma a')) 1 = false).
Proof. exact (seals_forbid_writing F_SEAL_WRITE (sample_area 41) eq_refl). Defined.

(** The gap below reaches 0, the one above the last page. *)
Lemma guard_gaps_exact_witness :
  vm_start_gap (vma (sample_area 768)) = 0 /\ vm_end_gap (vma (sample_area 768)) = 2 ^ 64 - 4096.
Proof.
  destruct (guard_gaps_exact (vma (sample_area 768))) as (Hs & He & _).
  - by split.
  - by split.
  - by exists (2 ^ 52 - 2).
  - by exists 256.
  - by rewrite Hs, He.
Defined.

Lemma fault_codes_roundtrip_witness : vm_fault_to_errno (vmf_error (- EHWPOISON)) 32 = - EHWPOISON.
Proof. exact (fault_codes_roundtrip (- EHWPOISON) 32). Defined.
