(* ===== verification/Signals.v ===== *)
(** * Pending signals, saved masks and the signal stack ([include/linux/sched/signal.h])

    What one task knows about its signals: whether a wait must be broken off, which mask
    is restored on the way to user mode and which one a signal frame saves, and on which
    stack a handler runs. *)
From S2P Require Import Prelude Uaccess Kernel.

Definition TASK_WAKEKILL : Z := 256.
Definition __TASK_TRACED : Z := 8.
Definition SIGKILL : Z := 9.
Definition ERESTARTNOINTR : Z := 513.
Definition SS_ONSTACK : Z := 1.
Definition SS_DISABLE : Z := 2.
Definition SS_AUTODISARM : Z := 2 ^ 31.
Definition SA_ONSTACK : Z := 134217728.

(** A signal set is a word whose bit [n - 1] is signal [n]; [s_thread_flags] has the TIF
    flags; [s_restore] is [restore_sigmask].  [s_kicked] and [s_woken] record the calls
    of [kick_process] and the states [signal_wake_up_state] was called with. *)
Record sigtask := mkSig {
  s_thread_flags : Z;
  s_pending : Z;
  s_blocked : Z;
  s_saved : Z;
  s_restore : bool;
  s_jobctl : Z;
  sas_ss_sp : Z;
  sas_ss_size : Z;
  sas_flags : Z;
  s_kicked : nat;
  s_woken : list Z;
}.
#[global] Instance eta_sigtask : Eta sigtask := fun t =>
  mkSig (s_thread_flags t) (s_pending t) (s_blocked t) (s_saved t) (s_restore t) (s_jobctl t) (sas_ss_sp t)
    (sas_ss_size t) (sas_flags t) (s_kicked t) (s_woken t).

(** Numbers of the architecture and of [jobctl.h], and routines of [kernel/signal.c] and
    of the scheduler.  [__set_current_blocked] is given the mask to install. *)
Class SignalEnv := {
  TIF_SIGPENDING : Z;
  TIF_NOTIFY_SIGNAL : Z;
  JOBCTL_STOPPED : Z;
  JOBCTL_TRACED : Z;
  JOBCTL_PTRACE_FROZEN : Z;
  VM_FAULT_RETRY : Z;
  wake_up_state : Z -> Kern sigtask bool;
  __set_current_blocked : Z -> Kern sigtask unit;
}.
Class SignalEnvOk `{SignalEnv} : Prop := {
  tif_distinct : 0 <= TIF_SIGPENDING /\ 0 <= TIF_NOTIFY_SIGNAL /\ TIF_SIGPENDING <> TIF_NOTIFY_SIGNAL;
  wake_up_state_ok st t : wp (wake_up_state st) (fun _ t' => t' = t) t;
  set_blocked_ok mask t : wp (__set_current_blocked mask) (fun _ t' => exists flags, t' = t <| s_blocked := mask |> <| s_thread_flags := flags |>) t;
}.

Section Signals.
Context `{SignalEnv}.

Definition test_thread_flag (flag : Z) (t : sigtask) : bool := Z.testbit (s_thread_flags t) flag.
Definition set_thread_flag (flag : Z) (t : sigtask) : sigtask := t <| s_thread_flags ::= fun w => Z.setbit w flag |>.
Definition clear_thread_flag (flag : Z) (t : sigtask) : sigtask := t <| s_thread_flags ::= fun w => Z.clearbit w flag |>.

Definition clear_notify_signal : Kern sigtask unit := modify (clear_thread_flag TIF_NOTIFY_SIGNAL).
Definition __set_notify_signal : Kern sigtask bool :=
  was ← gets (test_thread_flag TIF_NOTIFY_SIGNAL);
  modify (set_thread_flag TIF_NOTIFY_SIGNAL);;
  if was : bool then mret false else woken ← wake_up_state TASK_INTERRUPTIBLE; mret (negb woken).
Definition set_notify_signal : Kern sigtask unit :=
  b ← __set_notify_signal;
  if b : bool then modify (fun t => t <| s_kicked ::= S |>) else mret tt.
Definition restart_syscall : Kern sigtask Z :=
  modify (set_thread_flag TIF_SIGPENDING);; mret (- ERESTARTNOINTR).

Definition task_sigpending (t : sigtask) : bool := test_thread_flag TIF_SIGPENDING t.
Definition signal_pending (t : sigtask) : bool :=
  if test_thread_flag TIF_NOTIFY_SIGNAL t then true else task_sigpending t.
Definition __fatal_signal_pending (t : sigtask) : bool := Z.testbit (s_pending t) (SIGKILL - 1).
Definition fatal_signal_pending (t : sigtask) : bool := task_sigpending t && __fatal_signal_pending t.
Definition signal_pending_state (state : Z) (t : sigtask) : bool :=
  if negb (truthy (Z.land state (Z.lor TASK_INTERRUPTIBLE TASK_WAKEKILL))) then false
  else if negb (signal_pending t) then false
  else truthy (Z.land state TASK_INTERRUPTIBLE) || __fatal_signal_pending t.
Definition fault_signal_pending (fault_flags : Z) (user_mode : bool) (t : sigtask) : bool :=
  truthy (Z.land fault_flags VM_FAULT_RETRY) && (fatal_signal_pending t || (user_mode && signal_pending t)).

Definition signal_wake_up_state (state : Z) : Kern sigtask unit := modify (fun t => t <| s_woken ::= cons state |>).
Definition signal_wake_up (fatal : bool) : Kern sigtask unit :=
  jobctl ← gets s_jobctl;
  if fatal && negb (truthy (Z.land jobctl JOBCTL_PTRACE_FROZEN)) then
    modify (fun t => t <| s_jobctl ::= fun j => Z.land j (Z.lnot (Z.lor JOBCTL_STOPPED JOBCTL_TRACED)) |>);;
    signal_wake_up_state (Z.lor TASK_WAKEKILL __TASK_TRACED)
  else signal_wake_up_state 0.
Definition ptrace_signal_wake_up (resume : bool) : Kern sigtask unit :=
  if resume then
    modify (fun t => t <| s_jobctl ::= fun j => Z.land j (Z.lnot JOBCTL_TRACED) |>);;
    signal_wake_up_state __TASK_TRACED
  else signal_wake_up_state 0.

(** ** The saved mask (without TIF_RESTORE_SIGMASK) *)
Definition set_restore_sigmask : Kern sigtask unit := modify (fun t => t <| s_restore := true |>).
Definition clear_restore_sigmask : Kern sigtask unit := modify (fun t => t <| s_restore := false |>).
Definition test_restore_sigmask (t : sigtask) : bool := s_restore t.
Definition test_and_clear_restore_sigmask : Kern sigtask bool :=
  b ← gets s_restore;
  if negb b then mret false else modify (fun t => t <| s_restore := false |>);; mret true.
Definition restore_saved_sigmask : Kern sigtask unit :=
  b ← test_and_clear_restore_sigmask;
  if b : bool then saved ← gets s_saved; __set_current_blocked saved else mret tt.
Definition restore_saved_sigmask_unless (interrupted : bool) : Kern sigtask unit :=
  if interrupted then mret tt else restore_saved_sigmask.
Definition sigmask_to_save (t : sigtask) : Z := if test_restore_sigmask t then s_saved t else s_blocked t.

(** ** The alternate stack (growing down) *)
Definition __on_sig_stack (t : sigtask) (sp : Z) : bool :=
  (sas_ss_sp t <? sp) && (u64 (sp - sas_ss_sp t) <=? sas_ss_size t).
Definition on_sig_stack (t : sigtask) (sp : Z) : bool :=
  if truthy (Z.land (sas_flags t) SS_AUTODISARM) then false else __on_sig_stack t sp.
Definition sas_ss_flags (t : sigtask) (sp : Z) : Z :=
  if negb (truthy (sas_ss_size t)) then SS_DISABLE else if on_sig_stack t sp then SS_ONSTACK else 0.
Definition sas_ss_reset (t : sigtask) : sigtask :=
  t <| sas_ss_sp := 0 |> <| sas_ss_size := 0 |> <| sas_flags := SS_DISABLE |>.
Definition sigsp (t : sigtask) (sp sa_flags : Z) : Z :=
  if truthy (Z.land sa_flags SA_ONSTACK) && negb (truthy (sas_ss_flags t sp)) then u64 (sas_ss_sp t + sas_ss_size t) else sp.
End Signals.

Section SignalTheorems.
Context `{SignalEnv} `{!SignalEnvOk}.

(** the mask a signal frame saves is the one that would be restored on the way to user
    mode.  [restore_saved_sigmask] installs the mask [sigmask_to_save] names, whether a
    saved one is pending or not, and does so once: what is to be saved stays the same. *)
Theorem saved_mask_is_restored (t : sigtask) :
  wp restore_saved_sigmask (fun _ t' =>
    s_blocked t' = sigmask_to_save t /\ sigmask_to_save t' = sigmask_to_save t /\ s_restore t' = false /\
    s_saved t' = s_saved t /\ s_pending t' = s_pending t) t.
Proof.
  unfold restore_saved_sigmask, test_and_clear_restore_sigmask, sigmask_to_save, test_restore_sigmask.
  rewrite !wp_bind, wp_gets. destruct (s_restore t) eqn:E; cbn [negb].
  - rewrite wp_bind, wp_modify, wp_ret, wp_bind, wp_gets. eapply wp_mono; [|apply set_blocked_ok]. intros [] t' (fl & ->). done.
  - rewrite !wp_ret, E. done.
Qed.

(** Setting the notification again does nothing. *)
Lemma notify_again t :
  test_thread_flag TIF_NOTIFY_SIGNAL t = true ->
  wp set_notify_signal (fun _ t' => t' = set_thread_flag TIF_NOTIFY_SIGNAL t) t.
Proof.
  intros E. unfold set_notify_signal, __set_notify_signal. rewrite !wp_bind, wp_gets, E, wp_bind, wp_modify. done.
Qed.

Lemma notify_first t :
  wp set_notify_signal (fun _ t' => signal_pending t' = true /\ (s_kicked t' <= S (s_kicked t))%nat /\
    test_thread_flag TIF_NOTIFY_SIGNAL t' = true) t.
Proof.
  assert (forall k, let t1 := set_thread_flag TIF_NOTIFY_SIGNAL t <| s_kicked := k |> in
    signal_pending t1 = true /\ test_thread_flag TIF_NOTIFY_SIGNAL t1 = true) as Hset.
  { intros k t1. assert (test_thread_flag TIF_NOTIFY_SIGNAL t1 = true) as E.
    { unfold test_thread_flag, t1, set_thread_flag. cbn. apply Z.setbit_eq. destruct tif_distinct as (_ & ? & _). done. }
    split; [|done]. unfold signal_pending. by rewrite E. }
  unfold set_notify_signal, __set_notify_signal. rewrite !wp_bind, wp_gets, wp_bind, wp_modify.
  destruct (test_thread_flag TIF_NOTIFY_SIGNAL t).
  - rewrite !wp_ret. destruct (Hset (s_kicked t)) as [H1 H2]. split_and!; [exact H1|cbn; lia|exact H2].
  - rewrite wp_bind. eapply wp_mono; [|apply wake_up_state_ok]. intros woken t' ->. rewrite wp_ret. destruct woken; cbn [negb].
    + destruct (Hset (s_kicked t)) as [H1 H2]. split_and!; [exact H1|cbn; lia|exact H2].
    + destruct (Hset (S (s_kicked t))) as [H1 H2]. split_and!; [exact H1|cbn; lia|exact H2].
Qed.

Fixpoint notify_times (n : nat) : Kern sigtask unit :=
  match n with O => mret tt | S n => set_notify_signal;; notify_times n end.

Lemma notify_more n t :
  test_thread_flag TIF_NOTIFY_SIGNAL t = true ->
  wp (notify_times n) (fun _ t' => s_kicked t' = s_kicked t /\ test_thread_flag TIF_NOTIFY_SIGNAL t' = true) t.
Proof.
  revert t. induction n as [|n IH]; intros t Ht; [done|]. cbn [notify_times]. rewrite wp_bind.
  eapply wp_mono; [|by apply notify_again]. intros [] t3 ->. eapply wp_mono; [|apply IH].
  - by intros [] t4 [-> ?].
  - unfold test_thread_flag, set_thread_flag. cbn. apply Z.setbit_eq. destruct tif_distinct as (_ & ? & _). done.
Qed.

(** however often a task is notified before it runs, it is kicked at most once, and
    from the first time on every interruptible wait is broken off. *)
Theorem notified_once n (t : sigtask) state :
  truthy (Z.land state TASK_INTERRUPTIBLE) = true ->
  wp (notify_times (S n)) (fun _ t' => (s_kicked t' <= S (s_kicked t))%nat /\ signal_pending_state state t' = true) t.
Proof.
  intros Hst. assert (forall t', signal_pending t' = true -> signal_pending_state state t' = true) as Hbreak.
  { intros t' Hp. unfold signal_pending_state. rewrite Hp, Hst. cbn [negb orb].
    destruct (truthy (Z.land state (Z.lor TASK_INTERRUPTIBLE TASK_WAKEKILL))) eqn:E; [done|]. exfalso. bool_facts.
    rewrite Z.land_lor_distr_r in E. by apply Z.lor_eq_0_iff in E as [E _]. }
  cbn [notify_times]. rewrite wp_bind. eapply wp_mono; [|apply notify_first]. intros [] t1 (Hp & Hk & Ht).
  eapply wp_mono; [|by apply notify_more]. intros [] t2 [Hk2 Ht2]. split; [lia|]. apply Hbreak. unfold signal_pending. by rewrite Ht2.
Qed.
End SignalTheorems.

(** C36: a handler that asks for the alternate stack starts at its top, unless the stack is
    off or the task is on it already: then it continues below, so that a signal during a
    handler does not overwrite the frame of the first.  The answer is stable. *)
Theorem signal_stack_exact (t : sigtask) sp sa_flags :
  is_u64 sp -> 0 <= sas_ss_sp t -> 0 <= sas_ss_size t -> sas_ss_sp t + sas_ss_size t < 2 ^ 64 ->
  let top := sas_ss_sp t + sas_ss_size t in
  let wanted := truthy (Z.land sa_flags SA_ONSTACK) in
  let armed := negb (truthy (Z.land (sas_flags t) SS_AUTODISARM)) in
  (on_sig_stack t sp = true <-> armed = true /\ sas_ss_sp t < sp <= top) /\
  sigsp t sp sa_flags = (if wanted && truthy (sas_ss_size t) && negb (on_sig_stack t sp) then top else sp) /\
  sigsp t (sigsp t sp sa_flags) sa_flags = sigsp t sp sa_flags.
Proof.
  intros [Hs1 Hs2] Hp Hz Ht top wanted armed.
  assert (forall x, is_u64 x -> sigsp t x sa_flags = if wanted && truthy (sas_ss_size t) && negb (on_sig_stack t x) then top else x) as Hsig.
  { intros x Hx. unfold sigsp, sas_ss_flags, wanted. destruct (truthy (Z.land sa_flags SA_ONSTACK)); [|done].
    destruct (truthy (sas_ss_size t)); cbn [negb andb]; [|done]. destruct (on_sig_stack t x); cbn [negb andb]; [done|].
    apply u64_id. split; lia. }
  split_and!.
  - unfold on_sig_stack, __on_sig_stack, armed, top. destruct (truthy (Z.land (sas_flags t) SS_AUTODISARM)); cbn [negb]; [naive_solver|].
    rewrite andb_true_iff, Z.ltb_lt, Z.leb_le. split.
    + intros [H1 H2]. rewrite u64_id in H2 by (split; lia). lia.
    + intros (_ & H1 & H2). rewrite u64_id by (split; lia). lia.
  - by apply Hsig.
  - rewrite (Hsig sp) by done. destruct (wanted && truthy (sas_ss_size t) && negb (on_sig_stack t sp)) eqn:E.
    + rewrite Hsig by (split; unfold top; lia). by case_match.
    + rewrite Hsig by done. by rewrite E.
Qed.

(** ** A task *)

#[global] Instance sample_signal_env : SignalEnv := {|
  TIF_SIGPENDING := 2;
  TIF_NOTIFY_SIGNAL := 17;
  JOBCTL_STOPPED := 2 ^ 26;
  JOBCTL_TRACED := 2 ^ 27;
  JOBCTL_PTRACE_FROZEN := 2 ^ 24;
  VM_FAULT_RETRY := 1024;
  wake_up_state _ := mret false;
  __set_current_blocked mask := modify (fun t => t <| s_blocked := mask |>);
|}.
#[global] Instance sample_signal_env_ok : SignalEnvOk.
Proof. split; [done|done|]. intros mask t. exists (s_thread_flags t). by destruct t. Qed.

Definition sample_sigtask : sigtask := mkSig 0 0 5 9 true 0 4096 8192 0 0 [].

Lemma saved_mask_is_restored_witness :
  wp restore_saved_sigmask (fun _ t' =>
    s_blocked t' = 9 /\ sigmask_to_save t' = 9 /\ s_restore t' = false /\ s_saved t' = 9 /\ s_pending t' = 0) sample_sigtask.
Proof. exact (saved_mask_is_restored sample_sigtask). Defined.

Lemma notified_once_witness :
  wp (notify_times 3) (fun _ t' => (s_kicked t' <= 1)%nat /\ signal_pending_state 1 t' = true) sample_sigtask.
Proof. exact (notified_once 2 sample_sigtask 1 eq_refl). Defined.

(** From the normal stack to the top of the other one, and from within it nowhere. *)
Lemma signal_stack_exact_witness :
  sigsp sample_sigtask 1000000 SA_ONSTACK = 12288 /\ sigsp sample_sigtask 5000 SA_ONSTACK = 5000.
Proof.
  destruct (signal_stack_exact sample_sigtask 1000000 SA_ONSTACK) as (_ & Ha & _); [by split|done..|].
  destruct (signal_stack_exact sample_sigtask 5000 SA_ONSTACK) as (_ & Hb & _); [by split|done..|].
  by rewrite Ha, Hb.
Defined.
