(* ===== verification/CStrings.v ===== *)
(** C strings and byte buffers in kernel memory, for the boot code of
    [init/main.c].

    Memory is a finite map from addresses to bytes; an address that is not in the
    map belongs to nobody, and reading or writing it is a crash.  So a theorem that
    a routine does not crash also says that it stays within its buffers.  The
    routines are those of the C library that the boot code uses. *)

From S2P Require Import Prelude.

Notation mem := (gmap Z Z).

(** The bytes up to the NUL; no string is longer than the memory. *)
Fixpoint scan (fuel : nat) (m : mem) (p : Z) : option (list Z) :=
  match m !! p, fuel with
  | Some c, S fuel => if c =? 0 then Some [] else cons c <$> scan fuel m (p + 1)
  | _, _ => None
  end.
Definition cstring (m : mem) (p : Z) : option (list Z) := scan (size m) m p.

Definition owned (m : mem) (p : Z) (n : nat) : Prop := forall i, (i < n)%nat -> is_Some (m !! (p + Z.of_nat i)).
Definition owned_b (m : mem) (p : Z) (n : nat) : bool :=
  forallb (fun i => bool_decide (is_Some (m !! (p + Z.of_nat i)))) (seq 0 n).

Definition store (m : mem) (p : Z) (bs : list Z) : option mem :=
  if owned_b m p (length bs) then Some (write_bytes m p bs) else None.

(** [strcpy(to, from)], [memmove(to, from, n)] and [memcmp(p, bs, ...) == 0]. *)
Definition strcpy (m : mem) (to from : Z) : option mem :=
  s ← cstring m from; store m to (s ++ [0]).
Definition memmove (m : mem) (to from : Z) (n : nat) : option mem :=
  if owned_b m from n then store m to (read_bytes m from n) else None.
Definition mem_is (m : mem) (p : Z) (bs : list Z) : option bool :=
  if owned_b m p (length bs) then Some (bool_decide (read_bytes m p (length bs) = bs)) else None.

(** [strncmp(a, b, n) == 0] on the contents of two strings. *)
Definition same_start (a b : list Z) (n : nat) : bool :=
  bool_decide (take n (a ++ [0]) = take n (b ++ [0])).

(** ** Strings in memory *)
Definition text (s : list Z) : Prop := Forall (fun c => c <> 0) s.
Definition bytes_at (m : mem) (p : Z) (bs : list Z) : Prop :=
  forall i c, bs !! i = Some c -> m !! (p + Z.of_nat i) = Some c.
Definition str_at (m : mem) (p : Z) (s : list Z) : Prop := text s /\ bytes_at m p (s ++ [0]).

(** [m'] is [m] but for the [n] bytes at [p]. *)
Definition only_changes (p : Z) (n : nat) (m m' : mem) : Prop :=
  dom m' = dom m /\ forall x, x < p \/ p + Z.of_nat n <= x -> m' !! x = m !! x.
Definition apart (p : Z) (n : nat) (q : Z) (k : nat) : Prop :=
  p + Z.of_nat n <= q \/ q + Z.of_nat k <= p.

Section Strings.
Implicit Types (m : mem) (p : Z) (s bs : list Z).

Lemma bytes_at_app m p bs cs :
  bytes_at m p (bs ++ cs) <-> bytes_at m p bs /\ bytes_at m (p + Z.of_nat (length bs)) cs.
Proof.
  unfold bytes_at. split.
  - intros Hm. split; intros i c Hc.
    + apply Hm. by apply lookup_app_l_Some.
    + replace (p + Z.of_nat (length bs) + Z.of_nat i) with (p + Z.of_nat (length bs + i)) by lia.
      apply Hm. rewrite lookup_app_r by lia. by replace (length bs + i - length bs)%nat with i by lia.
  - intros [H1 H2] i c Hc. apply lookup_app_Some in Hc as [Hc|[Hi Hc]]; [by apply H1|].
    specialize (H2 _ _ Hc). by replace (p + Z.of_nat (length bs) + Z.of_nat (i - length bs)) with (p + Z.of_nat i) in H2 by lia.
Qed.

Lemma bytes_at_cons m p b bs : bytes_at m p (b :: bs) <-> m !! p = Some b /\ bytes_at m (p + 1) bs.
Proof.
  change (b :: bs) with ([b] ++ bs). rewrite bytes_at_app. cbn [length].
  replace (p + Z.of_nat 1) with (p + 1) by lia. split; intros [H1 H2]; (split; [|done]).
  - specialize (H1 0%nat b eq_refl). by rewrite Z.add_0_r in H1.
  - intros [|i] c Hc; cbn in Hc; simplify_eq. by rewrite Z.add_0_r.
Qed.

Lemma bytes_at_owned m p bs : bytes_at m p bs -> owned m p (length bs).
Proof.
  intros Hm i Hi. apply lookup_lt_is_Some_2 in Hi as [c Hc]. exists c. by apply Hm.
Qed.

Lemma bytes_at_read m p bs : bytes_at m p bs -> read_bytes m p (length bs) = bs.
Proof.
  revert p. induction bs as [|b bs IH]; intros p Hm; [done|]. cbn [length read_bytes].
  apply bytes_at_cons in Hm as [-> Hm]. cbn. by rewrite IH.
Qed.

Lemma read_bytes_at m p n : owned m p n -> bytes_at m p (read_bytes m p n).
Proof.
  revert p. induction n as [|n IH]; intros p Hm; [by intros i c Hc|]. cbn [read_bytes]. apply bytes_at_cons. split.
  - destruct (Hm 0%nat ltac:(lia)) as [c Hc]. rewrite Z.add_0_r in Hc. by rewrite Hc.
  - apply IH. intros i Hi. replace (p + 1 + Z.of_nat i) with (p + Z.of_nat (S i)) by lia. apply Hm. lia.
Qed.

Lemma owned_b_true m p n : owned_b m p n = true <-> owned m p n.
Proof.
  unfold owned_b, owned. rewrite forallb_forall. split.
  - intros Hall i Hi. specialize (Hall i). rewrite in_seq in Hall. by apply bool_decide_eq_true in Hall; [|lia].
  - intros Hall i Hi%in_seq. apply bool_decide_eq_true, Hall. lia.
Qed.

Lemma owned_size m p n : owned m p n -> (n <= size m)%nat.
Proof.
  intros Hm. rewrite <- size_dom.
  assert (size (list_to_set (C := gset Z) ((fun i => p + Z.of_nat i) <$> seq 0 n)) = n) as <-.
  { rewrite size_list_to_set; [by rewrite length_fmap, length_seq|].
    apply NoDup_fmap_2; [intros ???; lia|apply NoDup_seq]. }
  apply subseteq_size. intros x. rewrite elem_of_list_to_set, list_elem_of_fmap.
  intros (i & -> & Hi%elem_of_seq). apply elem_of_dom, Hm. lia.
Qed.

Lemma scan_at fuel m p s : str_at m p s -> (length s < fuel)%nat -> scan fuel m p = Some s.
Proof.
  revert fuel p. induction s as [|c s IH]; intros [|fuel] p [Ht Hm] Hf; cbn [length] in *; try lia; cbn [scan].
  - by destruct (proj1 (bytes_at_cons _ _ _ _) Hm) as [-> _].
  - destruct (proj1 (bytes_at_cons _ _ _ _) Hm) as [-> Hm']. inversion_clear Ht as [|?? Hc Hs].
    destruct (Z.eqb_spec c 0); [done|]. rewrite IH; [done|by split|lia].
Qed.
Lemma cstring_at m p s : str_at m p s -> cstring m p = Some s.
Proof.
  intros Hs. apply scan_at; [done|]. destruct Hs as [_ Hm].
  pose proof (owned_size _ _ _ (bytes_at_owned _ _ _ Hm)) as Hle. rewrite length_app in Hle. cbn in Hle. lia.
Qed.

Lemma scan_str fuel m p s : scan fuel m p = Some s -> str_at m p s.
Proof.
  revert p s. induction fuel as [|fuel IH]; intros p s; cbn [scan]; [by destruct (m !! p)|].
  destruct (m !! p) as [c|] eqn:Hc; [|done]. destruct (Z.eqb_spec c 0) as [->|Hne].
  - intros [= <-]. split; [constructor|]. by apply bytes_at_cons.
  - destruct (scan fuel m (p + 1)) as [t|] eqn:Ht; [|done]. intros [= <-].
    apply IH in Ht as [? ?]. split; [by constructor|]. by apply bytes_at_cons.
Qed.
Lemma cstring_str m p s : cstring m p = Some s -> str_at m p s.
Proof. apply scan_str. Qed.

(** ** Stores *)
Lemma store_ok m p bs : owned m p (length bs) -> store m p bs = Some (write_bytes m p bs).
Proof. intros Hm. unfold store. by rewrite (proj2 (owned_b_true _ _ _) Hm). Qed.

Lemma bytes_at_write m p bs : bytes_at (write_bytes m p bs) p bs.
Proof.
  intros i c Hc. rewrite lookup_write_bytes, decide_True.
  - by replace (Z.to_nat (p + Z.of_nat i - p)) with i by lia.
  - apply lookup_lt_Some in Hc. lia.
Qed.

Lemma write_only_changes m p bs : owned m p (length bs) -> only_changes p (length bs) m (write_bytes m p bs).
Proof.
  intros Hm. split.
  - apply dom_write_bytes. intros i Hi. by apply elem_of_dom, Hm.
  - intros x Hx. by apply lookup_write_bytes_out.
Qed.

Lemma only_changes_trans p n m1 m2 m3 : only_changes p n m1 m2 -> only_changes p n m2 m3 -> only_changes p n m1 m3.
Proof. intros [D1 F1] [D2 F2]. split; [congruence|]. intros x Hx. by rewrite F2, F1. Qed.
Lemma only_changes_refl p n m : only_changes p n m m.
Proof. by split. Qed.
Lemma only_changes_mono p n q k m m' :
  only_changes p n m m' -> q <= p -> p + Z.of_nat n <= q + Z.of_nat k -> only_changes q k m m'.
Proof. intros [D F] H1 H2. split; [done|]. intros x Hx. apply F. lia. Qed.

Lemma only_changes_owned p n q k m m' : only_changes p n m m' -> owned m q k -> owned m' q k.
Proof. intros [D _] Hm i Hi. apply elem_of_dom. rewrite D. by apply elem_of_dom, Hm. Qed.
Lemma only_changes_bytes p n m m' q bs :
  only_changes p n m m' -> apart p n q (length bs) -> bytes_at m q bs -> bytes_at m' q bs.
Proof.
  intros [_ F] Ha Hm i c Hc. rewrite F; [by apply Hm|]. apply lookup_lt_Some in Hc. unfold apart in Ha. lia.
Qed.
Lemma only_changes_str p n m m' q s :
  only_changes p n m m' -> apart p n q (S (length s)) -> str_at m q s -> str_at m' q s.
Proof.
  intros Hc Ha [Ht Hb]. split; [done|]. eapply only_changes_bytes; [done| |done].
  rewrite length_app. cbn. by rewrite Nat.add_1_r.
Qed.

Lemma str_owned m p s : str_at m p s -> owned m p (S (length s)).
Proof. intros [_ Hb%bytes_at_owned]. rewrite length_app in Hb. cbn in Hb. by rewrite Nat.add_1_r in Hb. Qed.

(** The end of a string is a string. *)
Lemma str_at_drop m p s n : (n <= length s)%nat -> str_at m p s -> str_at m (p + Z.of_nat n) (drop n s).
Proof.
  intros Hn [Ht Hb]. split; [by apply Forall_drop|].
  rewrite <- (take_drop n s), <- app_assoc in Hb. apply bytes_at_app in Hb as [_ Hb].
  by rewrite length_take, Nat.min_l in Hb.
Qed.

Lemma str_at_unique m p s t : str_at m p s -> str_at m p t -> s = t.
Proof. intros Hs%cstring_at Ht%cstring_at. congruence. Qed.
End Strings.
