(* ===== verification/BootState.v ===== *)
(** The state of the booting kernel ([init/main.c]): its memory, its static
    variables and what happened so far.

    Strings are pointers into the memory, as in the code, since the parser of the
    command line works in place and the arrays for init keep pointers into it.
    [b_trace] lists the calls to other subsystems and other visible events, the
    newest first. *)

From S2P Require Import Prelude CStrings.

(** [include/linux/kernel.h] *)
Inductive system_states :=
| SYSTEM_BOOTING
| SYSTEM_SCHEDULING
| SYSTEM_FREEING_INITMEM
| SYSTEM_RUNNING
| SYSTEM_HALT
| SYSTEM_POWER_OFF
| SYSTEM_RESTART
| SYSTEM_SUSPEND.

Inductive boot_event :=
| Ran (routine : string) (irqs_off : bool)       (* a routine of another subsystem *)
| Parsing (doing : string) (line : list Z)       (* parse_args() on a command line *)
| InitLevel (name : string)                      (* trace_initcall_level() *)
| InitCall (fn : Z) (preempt : Z) (irqs_off : bool)   (* with the state it is called in *)
| InitWarn (fn : Z) (msg : string)               (* WARN() after an initcall *)
| Ctor (fn : Z)                                  (* a constructor linked into the kernel *)
| StateSet (st : system_states)                  (* an assignment to system_state *)
| Execve (path : list Z) (argv envp : list Z)    (* kernel_execve(): pointers *)
| Printk (msg : string)
| Notice (text : list Z).                        (* the text of a string in memory *)

Record boot := mkBoot {
  b_mem : mem;
  argv_init : list Z;                 (* arrays of pointers, 0 is NULL *)
  envp_init : list Z;
  panic_later : option string;
  panic_param : Z;
  execute_command : Z;
  ramdisk_execute_command : Z;
  reset_devices : Z;
  console_loglevel : Z;
  initrd_start : Z;
  initrd_end : Z;
  bootconfig_found : bool;
  initargs_offs : Z;
  extra_command_line : Z;
  extra_init_args : Z;
  saved_command_line : Z;
  saved_command_line_len : Z;
  static_command_line : Z;
  early_done : bool;                  (* done of parse_early_param() *)
  rodata_enabled : bool;
  blacklisted_initcalls : list Z;     (* the buf of each entry, newest first *)
  preempt_count : Z;
  irqs_disabled : bool;
  early_boot_irqs_disabled : bool;
  system_state : system_states;
  initcall_debug : bool;
  randomize_kstack_offset : bool;     (* the static key *)
  task_flags : gmap Z Z;              (* flags of the threads, by task pointer *)
  kthreadd_task : Z;
  kthreadd_done : bool;               (* the completion *)
  gfp_allowed_mask : Z;
  cad_pid : Z;
  b_trace : list boot_event;
}.
#[global] Instance eta_boot : Eta boot := fun s =>
  mkBoot (b_mem s) (argv_init s) (envp_init s) (panic_later s) (panic_param s)
    (execute_command s) (ramdisk_execute_command s) (reset_devices s) (console_loglevel s)
    (initrd_start s) (initrd_end s) (bootconfig_found s) (initargs_offs s)
    (extra_command_line s) (extra_init_args s) (saved_command_line s)
    (saved_command_line_len s) (static_command_line s) (early_done s) (rodata_enabled s)
    (blacklisted_initcalls s) (preempt_count s) (irqs_disabled s)
    (early_boot_irqs_disabled s) (system_state s) (initcall_debug s) (randomize_kstack_offset s)
    (task_flags s) (kthreadd_task s) (kthreadd_done s) (gfp_allowed_mask s) (cad_pid s) (b_trace s).

Notation Boot := (Kern boot).

Definition emit (e : boot_event) : Boot unit := modify (fun s => s <| b_trace ::= cons e |>).
Definition ran (routine : string) : Boot unit := off ← gets irqs_disabled; emit (Ran routine off).
Definition printk (msg : string) : Boot unit := emit (Printk msg).
Definition set_system_state (st : system_states) : Boot unit :=
  modify (fun s => s <| system_state := st |>);; emit (StateSet st).
Definition panic {A} : Boot A := crashed KernelPanic.

(** [panic()] for the user to read: whether anyone can depends on [console_init]. *)
Definition has_console (s : boot) : bool :=
  existsb (fun e => if e is Ran r _ then bool_decide (r = "console_init"%string) else false) (b_trace s).
Definition panic_told {A} : Boot A :=
  seen ← gets has_console;
  crashed (if (seen : bool) then KernelPanic else SilentPanic).

(** What code of other subsystems leaves alone: the variables of this file. *)
Record steady (s s' : boot) : Prop := {
  sd_argv : argv_init s' = argv_init s;
  sd_envp : envp_init s' = envp_init s;
  sd_late : panic_later s' = panic_later s;
  sd_execute : execute_command s' = execute_command s;
  sd_ramdisk : ramdisk_execute_command s' = ramdisk_execute_command s;
  sd_saved : saved_command_line s' = saved_command_line s;
  sd_len : saved_command_line_len s' = saved_command_line_len s;
  sd_black : blacklisted_initcalls s' = blacklisted_initcalls s;
  sd_debug : initcall_debug s' = initcall_debug s;
  sd_state : system_state s' = system_state s;
  sd_done : kthreadd_done s' = kthreadd_done s;
  sd_early : early_boot_irqs_disabled s' = early_boot_irqs_disabled s;
  sd_rodata : rodata_enabled s' = rodata_enabled s;
}.
#[global] Instance steady_refl : Reflexive steady.
Proof. by intros s. Qed.
#[global] Instance steady_trans : Transitive steady.
Proof. intros s1 s2 s3 [] []. split; congruence. Qed.

(** ** Memory accesses *)
Definition c_string (p : Z) : Boot (list Z) := r ← gets (fun s => cstring (b_mem s) p); deref OutOfBounds r.
Definition put_mem (r : option mem) : Boot unit := m ← deref OutOfBounds r; modify (fun s => s <| b_mem := m |>).
Definition store_at (p : Z) (bs : list Z) : Boot unit := r ← gets (fun s => store (b_mem s) p bs); put_mem r.
Definition strcpy_at (to from : Z) : Boot unit := r ← gets (fun s => strcpy (b_mem s) to from); put_mem r.

(** [arr\[i\]] and [arr\[i\] = p] of an array of pointers. *)
Definition slot (arr : list Z) (i : nat) : Boot Z := deref OutOfBounds (arr !! i).
Definition put_slot (arr : list Z) (i : nat) (p : Z) : Boot (list Z) :=
  if (i <? length arr)%nat then mret (<[i := p]> arr) else crashed OutOfBounds.

(** ** The boot-time allocator (mm/memblock.c): the address, or NULL *)
Class Memblock := memblock_find : boot -> Z -> Z.
Class MemblockOk `{Memblock} : Prop := {
  memblock_fresh s n a : memblock_find s n = a -> a <> 0 ->
    0 < a /\ forall i, (i < Z.to_nat n)%nat -> b_mem s !! (a + Z.of_nat i) = None;
}.

Definition memblock_alloc `{Memblock} (n : Z) : Boot Z :=
  a ← gets (fun s => memblock_find s n);
  (if truthy a then modify (fun s => s <| b_mem ::= fun m => write_bytes m a (replicate (Z.to_nat n) 0) |>) else mret tt);;
  mret a.

Fixpoint forget (m : mem) (a : Z) (n : nat) : mem :=
  match n with
  | O => m
  | S n => delete a (forget m (a + 1) n)
  end.
Definition memblock_free (a n : Z) : Boot unit :=
  modify (fun s => s <| b_mem ::= fun m => forget m a (Z.to_nat n) |>).

(** ** Running the accesses *)
Section Run.
Implicit Types (s : boot).

Lemma c_string_run s p x : str_at (b_mem s) p x -> c_string p s = Done x s.
Proof. intros Hx. unfold c_string. kernel_unfold. by rewrite (cstring_at _ _ _ Hx). Qed.

Lemma store_at_run s p bs :
  owned (b_mem s) p (length bs) -> store_at p bs s = Done tt (s <| b_mem := write_bytes (b_mem s) p bs |>).
Proof. intros Hp. unfold store_at, put_mem. kernel_unfold. by rewrite (store_ok _ _ _ Hp). Qed.

Lemma strcpy_at_run s to from x :
  str_at (b_mem s) from x -> owned (b_mem s) to (S (length x)) ->
  strcpy_at to from s = Done tt (s <| b_mem := write_bytes (b_mem s) to (x ++ [0]) |>).
Proof.
  intros Hx Ho. unfold strcpy_at, put_mem, strcpy. kernel_unfold. rewrite (cstring_at _ _ _ Hx). cbn.
  rewrite store_ok; [done|]. rewrite length_app. cbn. by rewrite Nat.add_1_r.
Qed.

Lemma memblock_alloc_run `{Memblock} s n :
  let a := memblock_find s n in
  memblock_alloc n s
  = Done a (if truthy a then s <| b_mem ::= fun m => write_bytes m a (replicate (Z.to_nat n) 0) |> else s).
Proof. unfold memblock_alloc. kernel_unfold. by destruct (truthy _). Qed.

(** A successful allocation: [n] new bytes. *)
Lemma alloc_done `{Memblock} `{!MemblockOk} s n :
  let a := memblock_find s (Z.of_nat n) in
  a <> 0 -> memblock_alloc (Z.of_nat n) s = Done a (s <| b_mem := write_bytes (b_mem s) a (replicate n 0) |>) /\
    forall i, (i < n)%nat -> b_mem s !! (a + Z.of_nat i) = None.
Proof.
  intros a Ha. rewrite memblock_alloc_run. fold a. rewrite (proj2 (truthy_true _) Ha), Nat2Z.id. split; [done|].
  destruct (memblock_fresh s _ a eq_refl Ha) as [_ Hf]. by rewrite Nat2Z.id in Hf.
Qed.

Lemma forget_lookup m a n x :
  forget m a n !! x = if decide (a <= x < a + Z.of_nat n) then None else m !! x.
Proof.
  revert a. induction n as [|n IH]; intros a; cbn [forget]; [by rewrite decide_False by lia|].
  destruct (decide (x = a)) as [->|Hne].
  - rewrite lookup_delete_eq. by rewrite decide_True by lia.
  - rewrite lookup_delete_ne, IH by done. repeat case_decide; try done; lia.
Qed.

(** What is written to fresh memory and freed again is gone. *)
Lemma forget_write m a bs :
  (forall i, (i < length bs)%nat -> m !! (a + Z.of_nat i) = None) -> forget (write_bytes m a bs) a (length bs) = m.
Proof.
  intros Hm. apply map_eq. intros x. rewrite forget_lookup, lookup_write_bytes.
  case_decide as Hx; [|done]. specialize (Hm (Z.to_nat (x - a)) ltac:(lia)).
  by replace (a + Z.of_nat (Z.to_nat (x - a))) with x in Hm by lia.
Qed.
End Run.
