(* ===== verification/BootArgs.v ===== *)
(** Boot options and what becomes of them ([init/main.c]): options the kernel does
    not know are handed to init, as arguments or as environment variables.

    Two arrays of [CONFIG_INIT_ENV_ARG_LIMIT + 2] pointers collect them.  The
    theorems: the arrays never overflow, whatever the command line
    ([init_arrays_bounded]); up to the limit, init gets exactly the unknown
    options, the last value of each variable and the arguments after the last
    [init=] ([options_reach_init]); at the limit, an argument before [init=] can
    survive ([init_setup_keeps_last]). *)

From S2P Require Import Prelude CStrings BootState.

(** An entry of the [__setup] section. *)
Record obs_kernel_param := mkSetup {
  p_str : list Z;
  p_setup : option (Z -> Boot Z);     (* NULL: an obsolete parameter *)
  p_early : bool;
}.

Class BootOptions := {
  INIT_ENV_ARG_LIMIT : nat;                       (* CONFIG_INIT_ENV_ARG_LIMIT *)
  setup_table : list obs_kernel_param;            (* from __setup_start to __setup_end *)
  parameqn : list Z -> list Z -> nat -> bool;     (* kernel/params.c *)
  sysctl_is_alias : list Z -> bool;               (* fs/proc/proc_sysctl.c *)
}.

Section BootArgs.
Context `{BootOptions}.

Definition MAX_INIT_ARGS : nat := INIT_ENV_ARG_LIMIT.
Definition MAX_INIT_ENVS : nat := INIT_ENV_ARG_LIMIT.

Definition set_reset_devices (str : Z) : Boot Z := modify (fun s => s <| reset_devices := 1 |>);; mret 1.

(** The loop of [obsolete_checksetup] from entry [p] on. *)
Fixpoint checksetup_from (ps : list obs_kernel_param) (line : Z) (had_early_param : bool) : Boot bool :=
  match ps with
  | [] => mret had_early_param
  | p :: ps =>
      let n := length (p_str p) in
      l ← c_string line;
      if parameqn l (p_str p) n then
        if p_early p then
          m ← gets b_mem;
          c ← deref OutOfBounds (m !! (line + Z.of_nat n));
          checksetup_from ps line (had_early_param || (c =? 0) || (c =? 61))
        else
        match p_setup p with
        | None => printk "Parameter is obsolete, ignored";; mret true
        | Some setup_func =>
            r ← setup_func (line + Z.of_nat n);
            if truthy r then mret true else checksetup_from ps line had_early_param
        end
      else checksetup_from ps line had_early_param
  end.
Definition obsolete_checksetup (line : Z) : Boot bool :=
  match setup_table with
  | [] => crashed OutOfBounds                          (* the loop reads the first entry *)
  | ps => checksetup_from ps line false
  end.

Definition repair_env_string (param val : Z) : Boot unit :=
  if truthy val then
    p ← c_string param;
    let n := Z.of_nat (length p) in
    if val =? param + n + 1 then store_at (val - 1) [61]
    else if val =? param + n + 2 then
      store_at (val - 2) [61];;
      v ← c_string val;
      m ← gets b_mem;
      put_mem (memmove m (val - 1) val (length v + 1))
    else crashed KernelBug
  else mret tt.

(** The slot [set_init_arg] uses, or [None] if it is [MAX_INIT_ARGS] too many; the
    outer option is the end of the array. *)
Fixpoint init_arg_slot (l : list Z) (i : nat) : option (option nat) :=
  match l with
  | [] => None
  | p :: l => if p =? 0 then Some (Some i)
              else if (i =? MAX_INIT_ARGS)%nat then Some None
              else init_arg_slot l (S i)
  end.

Definition set_init_arg (param val : Z) : Boot Z :=
  late ← gets panic_later;
  match late with
  | Some _ => mret 0
  | None =>
      repair_env_string param val;;
      argv ← gets argv_init;
      i ← deref OutOfBounds (init_arg_slot argv 0);
      match i with
      | None => modify (fun s => s <| panic_later := Some "init"%string |> <| panic_param := param |>);; mret 0
      | Some i =>
          argv ← put_slot argv i param;
          modify (fun s => s <| argv_init := argv |>);; mret 0
      end
  end.

(** The loops of [unknown_bootoption]: the slot, and whether slot
    [MAX_INIT_ARGS] (or [MAX_INIT_ENVS]) was passed on the way. *)
Fixpoint arg_slot (l : list Z) (i : nat) (passed : bool) : option (nat * bool) :=
  match l with
  | [] => None
  | p :: l => if p =? 0 then Some (i, passed) else arg_slot l (S i) (passed || (i =? MAX_INIT_ARGS)%nat)
  end.
Fixpoint env_slot (m : mem) (text : list Z) (n : nat) (l : list Z) (i : nat) (passed : bool) : option (nat * bool) :=
  match l with
  | [] => None
  | p :: l =>
      if p =? 0 then Some (i, passed)
      else
      let passed := passed || (i =? MAX_INIT_ENVS)%nat in
      e ← cstring m p;
      if same_start text e n then Some (i, passed) else env_slot m text n l (S i) passed
  end.

Definition pass_limit (passed : bool) (what : string) (param : Z) : Boot unit :=
  if passed then modify (fun s => s <| panic_later := Some what |> <| panic_param := param |>) else mret tt.

Definition unknown_bootoption (param val : Z) : Boot Z :=
  name ← c_string param;
  let len := length name in
  if sysctl_is_alias name then mret 0
  else
  repair_env_string param val;;
  claimed ← obsolete_checksetup param;
  if (claimed : bool) then mret 0
  else
  text ← c_string param;
  if existsb (Z.eqb 46) (take len text) then mret 0
  else
  late ← gets panic_later;
  match late with
  | Some _ => mret 0
  | None =>
      if truthy val then
        m ← gets b_mem;
        envp ← gets envp_init;
        '(i, passed) ← deref OutOfBounds (env_slot m text (S len) envp 0 false);
        pass_limit passed "env" param;;
        envp ← put_slot envp i param;
        modify (fun s => s <| envp_init := envp |>);; mret 0
      else
        argv ← gets argv_init;
        '(i, passed) ← deref OutOfBounds (arg_slot argv 0 false);
        pass_limit passed "init" param;;
        argv ← put_slot argv i param;
        modify (fun s => s <| argv_init := argv |>);; mret 0
  end.

(** [for (i = 1; i < MAX_INIT_ARGS; i++) argv_init\[i\] = NULL] *)
Definition clear_args (argv : list Z) : list Z :=
  fold_left (fun a i => <[i := 0]> a) (seq 1 (MAX_INIT_ARGS - 1)) argv.

Definition init_setup (str : Z) : Boot Z :=
  modify (fun s => s <| execute_command := str |> <| argv_init ::= clear_args |>);; mret 1.
Definition rdinit_setup (str : Z) : Boot Z :=
  modify (fun s => s <| ramdisk_execute_command := str |> <| argv_init ::= clear_args |>);; mret 1.

(** ** Options in memory

    The parser leaves an option as a name and, behind it, a value: directly after
    the name's NUL, or one byte later if it was quoted. *)
Record token := mkToken { t_param : Z; t_name : list Z; t_value : option (bool * list Z) }.

Definition t_val (t : token) : Z :=
  match t_value t with
  | None => 0
  | Some (quoted, _) => t_param t + Z.of_nat (length (t_name t)) + (if quoted : bool then 2 else 1)
  end.
Definition t_text (t : token) : list Z :=
  t_name t ++ match t_value t with None => [] | Some (_, v) => 61 :: v end.
Definition t_extent (t : token) : nat :=
  length (t_name t) + 1 + match t_value t with None => 0 | Some (q, v) => (if q : bool then 1 else 0) + length v + 1 end.

Record token_at (m : mem) (t : token) : Prop := {
  ta_pos : 0 < t_param t;
  ta_name : str_at m (t_param t) (t_name t);
  ta_value q v : t_value t = Some (q, v) -> str_at m (t_val t) v;
  ta_owned : owned m (t_param t) (t_extent t);
}.

(** A string that no option still to come overlaps. *)
Definition safe_string (ts : list token) (m : mem) (p : Z) (x : list Z) : Prop :=
  0 < p /\ str_at m p x /\ Forall (fun t => apart p (S (length x)) (t_param t) (t_extent t)) ts.
Fixpoint tokens_apart (ts : list token) : Prop :=
  match ts with
  | [] => True
  | t :: ts => Forall (fun u => apart (t_param t) (t_extent t) (t_param u) (t_extent u)) ts /\ tokens_apart ts
  end.

(** Memory that stays outside of [n] bytes at [p]; there may be new memory. *)
Definition kept_outside (p : Z) (n : nat) (m m' : mem) : Prop :=
  forall x c, x < p \/ p + Z.of_nat n <= x -> m !! x = Some c -> m' !! x = Some c.

(** ** What setup functions may do

    A setup function declines, claims the option, or claims it and drops the
    arguments collected so far, as [init_setup] and [rdinit_setup] do. *)
Inductive verdict := Declines | Claims | Drops.

Definition setup_effect (v : verdict) (p : Z) (x : list Z) (s : boot) (r : Z) (s' : boot) : Prop :=
  kept_outside p (S (length x)) (b_mem s) (b_mem s') /\ envp_init s' = envp_init s /\
  panic_later s' = panic_later s /\ panic_param s' = panic_param s /\ extra_init_args s' = extra_init_args s /\
  match v with
  | Declines => r = 0 /\ argv_init s' = argv_init s /\ str_at (b_mem s') p x
  | Claims => r <> 0 /\ argv_init s' = argv_init s
  | Drops => r <> 0 /\ argv_init s' = clear_args (argv_init s)
  end.

Class BootOptionsOk := {
  limit_ok : (2 <= INIT_ENV_ARG_LIMIT)%nat;
  table_ok : setup_table <> [];
  parameqn_ok l x n : parameqn l x n = true -> (n <= length l)%nat;
  setup_verdict : obs_kernel_param -> list Z -> verdict;
  setup_ok p f q x s : p ∈ setup_table -> p_setup p = Some f -> str_at (b_mem s) q x ->
    wp (f q) (setup_effect (setup_verdict p x) q x s) s;
}.
End BootArgs.

Section Lemmas.
Context `{BootOptions}.

Lemma kept_string p n m m' q x :
  kept_outside p n m m' -> apart q (S (length x)) p n -> str_at m q x -> str_at m' q x.
Proof.
  intros Hk Ha [Ht Hb]. split; [done|]. intros i c Hc. apply Hk; [|by apply Hb].
  apply lookup_lt_Some in Hc. rewrite length_app in Hc. cbn in Hc. unfold apart in Ha. lia.
Qed.
Lemma kept_owned p n m m' q k : kept_outside p n m m' -> apart q k p n -> owned m q k -> owned m' q k.
Proof. intros Hk Ha Ho i Hi. destruct (Ho i Hi) as [c Hc]. exists c. apply Hk; [|done]. unfold apart in Ha. lia. Qed.
Lemma kept_trans p n m1 m2 m3 : kept_outside p n m1 m2 -> kept_outside p n m2 m3 -> kept_outside p n m1 m3.
Proof. intros H1 H2 x c Hx Hc. by apply H2, H1. Qed.
Lemma kept_mono p n q k m m' :
  kept_outside p n m m' -> q <= p -> p + Z.of_nat n <= q + Z.of_nat k -> kept_outside q k m m'.
Proof. intros Hk H1 H2 x c Hx. apply Hk. lia. Qed.
Lemma changes_kept p n m m' : only_changes p n m m' -> kept_outside p n m m'.
Proof. intros [_ Hf] x c Hx Hc. by rewrite Hf. Qed.

Lemma token_extent m t q v : token_at m t -> t_value t = Some (q, v) ->
  t_val t + Z.of_nat (length v) + 1 = t_param t + Z.of_nat (t_extent t) /\ t_param t < t_val t.
Proof. intros _ Hv. unfold t_val, t_extent. rewrite Hv. destruct q; lia. Qed.

Lemma token_kept p n m m' t :
  kept_outside p n m m' -> apart (t_param t) (t_extent t) p n -> token_at m t -> token_at m' t.
Proof.
  intros Hk Ha Ht. pose proof Ht as [Hp Hn Hv Ho]. split; [done| | |by eapply kept_owned].
  - eapply kept_string; [done| |done]. unfold apart, t_extent in *. lia.
  - intros q v E. eapply kept_string; [done| |by eapply Hv].
    destruct (token_extent _ _ _ _ Ht E). unfold apart in *. lia.
Qed.

Lemma safe_kept ts t m m' p x :
  safe_string (t :: ts) m p x -> kept_outside (t_param t) (t_extent t) m m' -> safe_string ts m' p x.
Proof.
  intros (Hp & Hs & Ha) Hk. inversion_clear Ha as [|?? Ht Hts]. split_and!; [done| |done].
  by eapply kept_string.
Qed.

(** ** Repairing the string *)
Lemma str_at_intro m p x : text x -> bytes_at m p x -> m !! (p + Z.of_nat (length x)) = Some 0 -> str_at m p x.
Proof.
  intros Ht Hb Hz. split; [done|]. apply bytes_at_app. split; [done|]. apply bytes_at_cons.
  split; [done|]. by intros i c Hc.
Qed.

Lemma str_at_elim m p x :
  str_at m p x -> text x /\ bytes_at m p x /\ m !! (p + Z.of_nat (length x)) = Some 0.
Proof.
  intros [Ht Hb]. apply bytes_at_app in Hb as [Hb Hz]. apply bytes_at_cons in Hz as [Hz _]. done.
Qed.

Lemma text_value n v : text n -> text v -> text (n ++ 61 :: v).
Proof. intros. apply Forall_app. split; [done|]. by constructor. Qed.

Lemma owned_one m p c : m !! p = Some c -> owned m p 1.
Proof. intros Hc i Hi. assert (i = 0)%nat as -> by lia. rewrite Z.add_0_r. by exists c. Qed.

(** Replacing the NUL behind a name by an equals sign. *)
Lemma join_name m p n :
  str_at m p n -> let m' := write_bytes m (p + Z.of_nat (length n)) [61] in
  bytes_at m' p (n ++ [61]) /\ only_changes (p + Z.of_nat (length n)) 1 m m'.
Proof.
  intros (Tn & Bn & Zn)%str_at_elim m'.
  assert (only_changes (p + Z.of_nat (length n)) 1 m m') as Hc.
  { apply (write_only_changes _ _ [61]). by eapply owned_one. }
  split; [|done]. apply bytes_at_app. split; [|apply bytes_at_write].
  eapply only_changes_bytes; [done| |done]. unfold apart. lia.
Qed.

Lemma joined_text m p n v :
  text n -> bytes_at m p (n ++ [61]) -> str_at m (p + Z.of_nat (length n) + 1) v -> str_at m p (n ++ 61 :: v).
Proof.
  intros Tn Hb (Tv & Bv & Zv)%str_at_elim. apply str_at_intro; [by apply text_value| |].
  - change (61 :: v) with ([61] ++ v). rewrite app_assoc. apply bytes_at_app. split; [done|].
    rewrite length_app. cbn [length]. by replace (p + Z.of_nat (length n + 1)) with (p + Z.of_nat (length n) + 1) by lia.
  - rewrite length_app. cbn [length].
    by replace (p + Z.of_nat (length n + S (length v))) with (p + Z.of_nat (length n) + 1 + Z.of_nat (length v)) by lia.
Qed.

Lemma repair_run s t : token_at (b_mem s) t ->
  exists m', repair_env_string (t_param t) (t_val t) s = Done tt (s <| b_mem := m' |>) /\
    str_at m' (t_param t) (t_text t) /\ only_changes (t_param t) (t_extent t) (b_mem s) m'.
Proof.
  intros Ht. pose proof Ht as [Hp Hn Hv Ho]. unfold repair_env_string, t_text.
  destruct (t_value t) as [[q v]|] eqn:E.
  2: { exists (b_mem s). unfold t_val. rewrite E, app_nil_r. cbn. split_and!; [by destruct s|done|apply only_changes_refl]. }
  destruct (token_extent _ _ _ _ Ht E) as [He Hlt]. specialize (Hv _ _ eq_refl).
  assert (truthy (t_val t) = true) as -> by (apply truthy_true; lia).
  rewrite (bind_done _ _ _ _ _ (c_string_run _ _ _ Hn)). cbn beta zeta.
  assert (t_val t = t_param t + Z.of_nat (length (t_name t)) + (if q then 2 else 1)) as Hval by (unfold t_val; by rewrite E).
  set (p := t_param t) in *. set (n := t_name t) in *.
  destruct (join_name _ _ _ Hn) as [Hb Hc]. set (m1 := write_bytes _ _ _) in *.
  assert (store_at (p + Z.of_nat (length n)) [61] s = Done tt (s <| b_mem := m1 |>)) as Hst.
  { apply store_at_run. cbn. eapply owned_one. apply (str_at_elim _ _ _ Hn). }
  assert (str_at m1 (t_val t) v) as Hv1.
  { eapply only_changes_str; [done| |done]. unfold apart. destruct q; lia. }
  assert (only_changes p (t_extent t) (b_mem s) m1) as Hc1 by (eapply only_changes_mono; [done|lia|destruct q; lia]).
  destruct q; destruct (Z.eqb_spec (t_val t) (p + Z.of_nat (length n) + 1)); try lia.
  - destruct (Z.eqb_spec (t_val t) (p + Z.of_nat (length n) + 2)) as [_|?]; [|lia].
    replace (t_val t - 2) with (p + Z.of_nat (length n)) by lia. rewrite (bind_done _ _ _ _ _ Hst).
    assert (c_string (t_val t) (s <| b_mem := m1 |>) = Done v (s <| b_mem := m1 |>)) as Hcv by by apply c_string_run.
    rewrite (bind_done _ _ _ _ _ Hcv). cbn beta.
    assert (owned m1 (t_val t - 1) (length (v ++ [0]))) as Ho1.
    { intros i Hi. rewrite length_app in Hi. cbn in Hi.
      destruct (only_changes_owned _ _ _ _ _ _ Hc1 Ho (length n + 1 + i)%nat ltac:(lia)) as [c Hci].
      exists c. rewrite <- Hci. f_equal. lia. }
    assert (memmove m1 (t_val t - 1) (t_val t) (length v + 1) = Some (write_bytes m1 (t_val t - 1) (v ++ [0]))) as Hmv.
    { unfold memmove. pose proof (proj2 Hv1) as Hbv. replace (length v + 1)%nat with (length (v ++ [0])) by (rewrite length_app; done).
      rewrite (proj2 (owned_b_true _ _ _) (bytes_at_owned _ _ _ Hbv)), (bytes_at_read _ _ _ Hbv). by apply store_ok. }
    exists (write_bytes m1 (t_val t - 1) (v ++ [0])). split_and!.
    + unfold put_mem. kernel_unfold. change (b_mem (s <| b_mem := m1 |>)) with m1. by rewrite Hmv.
    + pose proof (write_only_changes _ _ _ Ho1) as Hc2. apply joined_text; [apply Hn| |].
      * eapply only_changes_bytes; [done| |done]. unfold apart. rewrite !length_app. cbn. lia.
      * replace (p + Z.of_nat (length n) + 1) with (t_val t - 1) by lia. split; [apply Hv|apply bytes_at_write].
    + eapply only_changes_trans; [done|]. eapply only_changes_mono; [by apply write_only_changes|lia|].
      rewrite length_app. cbn. lia.
  - replace (t_val t - 1) with (p + Z.of_nat (length n)) by lia. exists m1. split_and!; [done| |done].
    apply joined_text; [apply Hn|done|]. by rewrite <- Hval.
Qed.

Lemma extent_text t : (S (length (t_text t)) <= t_extent t)%nat.
Proof. unfold t_text, t_extent. rewrite length_app. destruct (t_value t) as [[[] v]|]; cbn; lia. Qed.

(** ** The setup table *)
Context `{!BootOptionsOk}.

(** What the table decides for a line; [had] says that an early parameter of this
    name was seen. *)
Fixpoint line_verdict (ps : list obs_kernel_param) (x : list Z) (had : bool) : verdict :=
  match ps with
  | [] => if had then Claims else Declines
  | p :: ps =>
      let n := length (p_str p) in
      if parameqn x (p_str p) n then
        if p_early p then
          let c := default 0 ((x ++ [0]) !! n) in
          line_verdict ps x (had || (c =? 0) || (c =? 61))
        else
        match p_setup p with
        | None => Claims
        | Some _ =>
            match setup_verdict p (drop n x) with
            | Declines => line_verdict ps x had
            | v => v
            end
        end
      else line_verdict ps x had
  end.
Definition claims (v : verdict) : bool := match v with Declines => false | _ => true end.

Definition line_effect (v : verdict) (p : Z) (x : list Z) (s s' : boot) : Prop :=
  setup_effect v p x s (c_bool (claims v)) s'.

Lemma declined_refl p x s : str_at (b_mem s) p x -> line_effect Declines p x s s.
Proof. intros Hx. split; [by intros ???|]. split_and!; done. Qed.
Lemma declined_then v p x s1 s2 s3 : line_effect Declines p x s1 s2 -> line_effect v p x s2 s3 -> line_effect v p x s1 s3.
Proof.
  intros (K1 & E1 & P1 & Q1 & X1 & _ & A1 & S1) (K2 & E2 & P2 & Q2 & X2 & V).
  split_and!; [by eapply kept_trans|congruence|congruence|congruence|congruence|]. destruct v; rewrite A1 in V; done.
Qed.

(** The effect of a function called on the end of a line. *)
Lemma effect_of_end v p x n r s s' :
  (n <= length x)%nat -> str_at (b_mem s) p x ->
  setup_effect v (p + Z.of_nat n) (drop n x) s r s' -> line_effect v p x s s'.
Proof.
  intros Hn Hx (K & E & P & Q & X & V). pose proof (length_drop x n) as Hd. split_and!; try done.
  - eapply kept_mono; [done|lia|lia].
  - destruct v as [| |]; [|by split; [|apply V]..]. destruct V as (_ & A & Hs). split_and!; [done|done|].
    destruct (str_at_elim _ _ _ Hx) as (Tx & Bx & Zx). split; [done|].
    rewrite <- (take_drop n x), <- app_assoc. apply bytes_at_app. rewrite length_take, Nat.min_l by done.
    split; [|apply Hs]. intros i c Hc.
    assert (i < n)%nat by (apply lookup_lt_Some in Hc; rewrite length_take in Hc; lia).
    apply K; [lia|]. apply Bx. apply lookup_take_Some in Hc as [Hc _]. done.
Qed.

Lemma checksetup_spec ps p x had s :
  (forall e, e ∈ ps -> e ∈ setup_table) -> str_at (b_mem s) p x ->
  wp (checksetup_from ps p had) (fun b s' => let v := line_verdict ps x had in b = claims v /\ line_effect v p x s s') s.
Proof.
  revert s had. induction ps as [|e ps IH]; intros s had Hin Hx; cbn [checksetup_from line_verdict].
  { rewrite wp_ret. destruct had; (split; [done|]); [|by apply declined_refl]. split; [by intros ???|]. done. }
  assert (forall e', e' ∈ ps -> e' ∈ setup_table) as Hin' by (intros; apply Hin; set_solver).
  rewrite wp_bind, (wp_run _ _ _ _ _ (c_string_run _ _ _ Hx)).
  destruct (parameqn x (p_str e) _) eqn:Hq; [|by apply IH]. apply parameqn_ok in Hq.
  destruct (p_early e).
  - destruct Hx as [Tx Bx]. destruct (lookup_lt_is_Some_2 (x ++ [0]) (length (p_str e))) as [c Hc].
    { rewrite length_app. cbn. lia. }
    rewrite wp_bind, wp_gets, wp_bind, wp_deref. exists c. split; [by apply Bx|]. rewrite Hc. by apply IH.
  - destruct (p_setup e) as [f|] eqn:Hf.
    + rewrite wp_bind. eapply wp_mono; [|eapply (setup_ok e f _ (drop (length (p_str e)) x)); [apply Hin; set_solver|done|by apply str_at_drop]].
      intros r s1 Heff. pose proof (effect_of_end _ _ _ _ _ _ _ Hq Hx Heff) as Hl. destruct Heff as (_ & _ & _ & _ & _ & V).
      destruct (setup_verdict e _); destruct V as (Hr & V).
      * subst r. eapply wp_mono; [|apply IH; [done|apply Hl]]. intros b s2 [-> H2]. split; [done|]. by eapply declined_then.
      * rewrite (proj2 (truthy_true _) Hr), wp_ret. done.
      * rewrite (proj2 (truthy_true _) Hr), wp_ret. done.
    + cbn. split; [done|]. split; [by intros ???|]. done.
Qed.

Lemma obsolete_spec p x s : str_at (b_mem s) p x ->
  wp (obsolete_checksetup p) (fun b s' => let v := line_verdict setup_table x false in b = claims v /\ line_effect v p x s s') s.
Proof.
  intros Hx. unfold obsolete_checksetup. pose proof table_ok as Hne.
  pose proof (checksetup_spec setup_table p x false s ltac:(done) Hx) as Hc.
  by destruct setup_table.
Qed.

(** ** One option *)
Inductive fate_of := Taken | Reset | ToEnv | ToArg.
Definition fate (t : token) : fate_of :=
  if sysctl_is_alias (t_name t) then Taken
  else match line_verdict setup_table (t_text t) false with
       | Claims => Taken
       | Drops => Reset
       | Declines => if existsb (Z.eqb 46) (t_name t) then Taken else if t_value t is Some _ then ToEnv else ToArg
       end.

(** The array after an option went to the slot, and the announced panic. *)
Definition stored_in (l l' : list Z) (t : token) (found : option (nat * bool)) (what : string) (late : option string) : Prop :=
  exists i passed, found = Some (i, passed) /\ (i < length l)%nat /\ l' = <[i := t_param t]> l /\
    late = if passed : bool then Some what else None.

Definition handled (t : token) (s s' : boot) : Prop :=
  match fate t with
  | Taken => argv_init s' = argv_init s /\ envp_init s' = envp_init s /\ panic_later s' = panic_later s
  | Reset => argv_init s' = clear_args (argv_init s) /\ envp_init s' = envp_init s /\ panic_later s' = panic_later s
  | ToEnv =>
      str_at (b_mem s') (t_param t) (t_text t) /\ argv_init s' = argv_init s /\
      if panic_later s is Some _ then envp_init s' = envp_init s /\ panic_later s' = panic_later s
      else stored_in (envp_init s) (envp_init s') t
             (env_slot (b_mem s') (t_text t) (S (length (t_name t))) (envp_init s) 0 false) "env" (panic_later s')
  | ToArg =>
      str_at (b_mem s') (t_param t) (t_text t) /\ envp_init s' = envp_init s /\
      if panic_later s is Some _ then argv_init s' = argv_init s /\ panic_later s' = panic_later s
      else stored_in (argv_init s) (argv_init s') t (arg_slot (argv_init s) 0 false) "init" (panic_later s')
  end.

Definition entry (ts : list token) (m : mem) (p : Z) : Prop := p = 0 \/ exists x, safe_string ts m p x.

(** The arrays have their size, their entries are strings, and the last slot is
    free unless the boot is bound to fail. *)
Record boot_inv (ts : list token) (s : boot) : Prop := {
  bi_argv : length (argv_init s) = S (S INIT_ENV_ARG_LIMIT);
  bi_envp : length (envp_init s) = S (S INIT_ENV_ARG_LIMIT);
  bi_last : panic_later s = None ->
    argv_init s !! S INIT_ENV_ARG_LIMIT = Some 0 /\ envp_init s !! S INIT_ENV_ARG_LIMIT = Some 0;
  bi_entries : Forall (entry ts (b_mem s)) (argv_init s ++ envp_init s);
  bi_tokens : Forall (token_at (b_mem s)) ts;
  bi_apart : tokens_apart ts;
}.

Lemma arg_slot_spec l i b k :
  l !! k = Some 0 -> exists j, (j <= k)%nat /\ l !! j = Some 0 /\ (forall a p, (a < j)%nat -> l !! a = Some p -> p <> 0) /\
    arg_slot l i b = Some ((i + j)%nat, b || ((i <=? MAX_INIT_ARGS) && (MAX_INIT_ARGS <? i + j)))%nat.
Proof.
  revert i b k. induction l as [|p l IH]; intros i b k Hk; [done|]. cbn [arg_slot].
  destruct (Z.eqb_spec p 0) as [->|Hp].
  - exists 0%nat. split_and!; [lia|done|intros; lia|]. rewrite Nat.add_0_r. do 2 f_equal.
    destruct (Nat.leb_spec i MAX_INIT_ARGS), (Nat.ltb_spec MAX_INIT_ARGS i); try lia; by rewrite orb_false_r.
  - destruct k as [|k]; [cbn in Hk; congruence|].
    destruct (IH (S i) (b || (i =? MAX_INIT_ARGS)%nat) k Hk) as (j & Hj & Hz & Hne & ->).
    exists (S j). split_and!; [lia|done| |].
    + intros [|a] q Ha Hq; cbn in Hq; [congruence|]. eapply Hne; [|done]. lia.
    + f_equal. f_equal; [lia|]. rewrite <- orb_assoc. f_equal.
      destruct (Nat.eqb_spec i MAX_INIT_ARGS), (Nat.leb_spec (S i) MAX_INIT_ARGS), (Nat.leb_spec i MAX_INIT_ARGS),
        (Nat.ltb_spec MAX_INIT_ARGS (S i + j)), (Nat.ltb_spec MAX_INIT_ARGS (i + S j)); try lia; done.
Qed.

(** The entry an option replaces: the first with the same start, or a free slot. *)
Lemma env_slot_spec ts m x n l i b k :
  l !! k = Some 0 -> Forall (entry ts m) l ->
  exists j c, (j <= k)%nat /\ env_slot m x n l i b = Some ((i + j)%nat, c) /\
    c = b || ((i <=? MAX_INIT_ENVS) && (MAX_INIT_ENVS <? i + j + (if bool_decide (l !! j = Some 0%Z) then 0 else 1)))%nat /\
    (forall a p, (a < j)%nat -> l !! a = Some p -> p <> 0 /\ exists y, str_at m p y /\ same_start x y n = false) /\
    (l !! j = Some 0 \/ exists p y, l !! j = Some p /\ str_at m p y /\ same_start x y n = true).
Proof.
  revert i b k. induction l as [|p l IH]; intros i b k Hk Hl; [done|]. inversion_clear Hl as [|?? Hp Hl'].
  cbn [env_slot]. destruct (Z.eqb_spec p 0) as [->|Hnz].
  - exists 0%nat, b. split_and!; [lia|by rewrite Nat.add_0_r| |intros; lia|by left].
    rewrite bool_decide_true by done. rewrite !Nat.add_0_r.
    destruct (Nat.leb_spec i MAX_INIT_ENVS), (Nat.ltb_spec MAX_INIT_ENVS i); try lia; by rewrite orb_false_r.
  - destruct Hp as [?|(y & _ & Hy & _)]; [done|]. rewrite (cstring_at _ _ _ Hy). cbn [mbind option_bind].
    destruct (same_start x y n) eqn:Hs.
    + exists 0%nat, (b || (i =? MAX_INIT_ENVS)%nat). split_and!; [lia|by rewrite Nat.add_0_r| |intros; lia|].
      * rewrite bool_decide_false by (cbn; congruence). f_equal.
        destruct (Nat.eqb_spec i MAX_INIT_ENVS), (Nat.leb_spec i MAX_INIT_ENVS), (Nat.ltb_spec MAX_INIT_ENVS (i + 0 + 1)); try lia; done.
      * right. by exists p, y.
    + destruct k as [|k]; [cbn in Hk; congruence|].
      destruct (IH (S i) (b || (i =? MAX_INIT_ENVS)%nat) k Hk Hl') as (j & c & Hj & -> & -> & Hne & Hlast).
      exists (S j). eexists. split_and!; [lia|f_equal; f_equal; lia| | |done].
      * rewrite <- orb_assoc. f_equal. change ((p :: l) !! S j) with (l !! j).
        destruct (Nat.eqb_spec i MAX_INIT_ENVS), (Nat.leb_spec (S i) MAX_INIT_ENVS), (Nat.leb_spec i MAX_INIT_ENVS);
          try lia; cbn [orb andb]; try done; [symmetry; apply Nat.ltb_lt; lia|]. f_equal. lia.
      * intros [|a] q Ha Hq; cbn in Hq; [|eapply Hne; [|done]; lia]. injection Hq as <-. split; [done|]. by exists y.
Qed.

Lemma entry_kept t ts m m' p :
  kept_outside (t_param t) (t_extent t) m m' -> entry (t :: ts) m p -> entry ts m' p.
Proof. intros Hk [->|[x Hx]]; [by left|]. right. exists x. by eapply safe_kept. Qed.

Lemma truthy_val m t : token_at m t -> truthy (t_val t) = if t_value t is Some _ then true else false.
Proof.
  intros [Hp _ _ _]. unfold t_val. destruct (t_value t) as [[q v]|]; [|done]. apply truthy_true. destruct q; lia.
Qed.

Lemma put_slot_run l i p (s : boot) : (i < length l)%nat -> put_slot l i p s = Done (<[i := p]> l) s.
Proof. intros Hi. unfold put_slot. by rewrite (proj2 (Nat.ltb_lt _ _) Hi). Qed.

Lemma pass_limit_run passed what p (s : boot) :
  pass_limit passed what p s = Done tt (if passed then s <| panic_later := Some what |> <| panic_param := p |> else s).
Proof. by destruct passed. Qed.

(** The option goes to a slot of one of the arrays. *)
Lemma store_option (t : token) m s :
  boot_inv [] s -> panic_later s = None -> str_at (b_mem s) (t_param t) (t_text t) -> token_at m t ->
  fate t = (if t_value t is Some _ then ToEnv else ToArg) ->
  wp (if truthy (t_val t) then
        m ← gets b_mem;
        envp ← gets envp_init;
        '(i, passed) ← deref OutOfBounds (env_slot m (t_text t) (S (length (t_name t))) envp 0 false);
        pass_limit passed "env" (t_param t);;
        envp ← put_slot envp i (t_param t);
        modify (fun s => s <| envp_init := envp |>);; mret 0
      else
        argv ← gets argv_init;
        '(i, passed) ← deref OutOfBounds (arg_slot argv 0 false);
        pass_limit passed "init" (t_param t);;
        argv ← put_slot argv i (t_param t);
        modify (fun s => s <| argv_init := argv |>);; mret 0)
    (fun r s' => (r = 0 /\ extra_init_args s' = extra_init_args s) /\ b_mem s' = b_mem s /\ handled t s s') s.
Proof.
  intros [La Le Hlast Hent _ _] Hn Hx Htok Hf. rewrite (truthy_val _ _ Htok). destruct (Hlast Hn) as [Hza Hze].
  apply Forall_app in Hent as [_ Hent]. unfold handled. rewrite Hf, Hn. destruct (t_value t) as [[q v]|].
  - destruct (env_slot_spec [] (b_mem s) (t_text t) (S (length (t_name t))) _ 0 false _ Hze Hent)
      as (j & c & Hj & Hslot & _ & _ & _).
    assert (j < length (envp_init s))%nat as Hjl by lia.
    rewrite wp_bind, wp_gets, wp_bind, wp_gets, Hslot. cbn [deref]. rewrite wp_bind, wp_ret, wp_bind, (wp_run _ _ _ _ _ (pass_limit_run _ _ _ _)).
    rewrite wp_bind, (wp_run _ _ _ _ _ (put_slot_run _ _ _ _ Hjl)). destruct c; cbn; rewrite ?Hn; (split_and!; try done); exists j; eexists; (split_and!; [exact Hslot|done..]).
  - destruct (arg_slot_spec _ 0 false _ Hza) as (j & Hj & _ & _ & Hslot).
    assert (j < length (argv_init s))%nat as Hjl by lia.
    rewrite wp_bind, wp_gets, Hslot. cbn [deref]. rewrite wp_bind, wp_ret, wp_bind, (wp_run _ _ _ _ _ (pass_limit_run _ _ _ _)).
    rewrite wp_bind, (wp_run _ _ _ _ _ (put_slot_run _ _ _ _ Hjl)).
    destruct (orb _ _); cbn; rewrite ?Hn; (split_and!; try done); exists j; eexists; done.
Qed.

Lemma unknown_spec t ts s : boot_inv (t :: ts) s ->
  wp (unknown_bootoption (t_param t) (t_val t)) (fun r s' =>
    (r = 0 /\ extra_init_args s' = extra_init_args s) /\
    kept_outside (t_param t) (t_extent t) (b_mem s) (b_mem s') /\ handled t s s') s.
Proof.
  intros Hs. pose proof Hs as [La Le Hlast Hent Htoks _]. inversion_clear Htoks as [|?? Ht _].
  unfold unknown_bootoption. rewrite wp_bind, (wp_run _ _ _ _ _ (c_string_run _ _ _ (ta_name _ _ Ht))). cbn beta zeta.
  destruct (sysctl_is_alias (t_name t)) eqn:Hal.
  { rewrite wp_ret. unfold handled, fate. rewrite Hal. split_and!; try done; by intros ???. }
  destruct (repair_run s t Ht) as (m1 & Hrun & Hx & Hc). rewrite wp_bind, (wp_run _ _ _ _ _ Hrun).
  rewrite wp_bind. eapply wp_mono; [|by apply (obsolete_spec _ (t_text t))]. cbn beta zeta.
  intros b s2 [-> (K & E & P & _ & X & V)]. change (extra_init_args s2 = extra_init_args s) in X.
  assert (kept_outside (t_param t) (t_extent t) (b_mem s) (b_mem s2)) as Hk.
  { eapply kept_trans; [by apply changes_kept|]. eapply kept_mono; [done|lia|]. pose proof (extent_text t). lia. }
  destruct (line_verdict setup_table (t_text t) false) eqn:Hv; cbn [claims].
  - destruct V as (_ & A & Hx2). cbn in A, P, E.
    rewrite wp_bind, (wp_run _ _ _ _ _ (c_string_run _ _ _ Hx2)).
    assert (take (length (t_name t)) (t_text t) = t_name t) as -> by apply take_app_length.
    destruct (existsb _ (t_name t)) eqn:Hdot.
    { rewrite wp_ret. unfold handled, fate. rewrite Hal, Hv, Hdot. done. }
    assert (fate t = if t_value t is Some _ then ToEnv else ToArg) as Hf by (unfold fate; by rewrite Hal, Hv, Hdot).
    rewrite wp_bind, wp_gets, P. destruct (panic_later s) eqn:Hlate.
    { rewrite wp_ret. unfold handled. rewrite Hf, Hlate. split_and!; [done|done|done|].
      destruct (t_value t); (split; [done|]); rewrite ?A, ?E, ?P; done. }
    eapply wp_mono; [|apply (store_option t (b_mem s) s2); [|congruence|done|done|done]].
    + intros r s3 ([-> X3] & Hm & Hh). split_and!; [done|congruence|by rewrite Hm|].
      revert Hh. unfold handled. rewrite Hf, Hlate, P, Hm, A, E. done.
    + split; [congruence|congruence|rewrite A, E; auto| |constructor|done].
      rewrite A, E. eapply Forall_impl; [exact Hent|]. intros p He.
      destruct (entry_kept _ _ _ _ _ Hk He) as [->|(x & H1 & H2 & _)]; [by left|]. right. by exists x.
  - rewrite wp_ret. unfold handled, fate. rewrite Hal, Hv. destruct V as (_ & A). cbn in *. done.
  - rewrite wp_ret. unfold handled, fate. rewrite Hal, Hv. destruct V as (_ & A). cbn in *. done.
Qed.

(** ** Keeping the arrays within their bounds *)
Lemma fold_clear (js : list nat) (l : list Z) j :
  fold_left (fun a i => <[i := 0]> a) js l !! j = if decide (j ∈ js) then (fun _ => 0) <$> l !! j else l !! j.
Proof.
  revert l. induction js as [|i js IH]; intros l; cbn [fold_left]; [by rewrite decide_False by set_solver|].
  rewrite IH. destruct (decide (i = j)) as [->|Hne].
  - rewrite (decide_True (P := j ∈ j :: js)) by set_solver.
    destruct (decide (j < length l)%nat).
    + rewrite list_lookup_insert_eq by done. destruct (lookup_lt_is_Some_2 l j) as [p ->]; [done|]. by case_decide.
    + rewrite list_insert_ge by lia. rewrite (lookup_ge_None_2 l j) by lia. by case_decide.
  - rewrite list_lookup_insert_ne by done. repeat case_decide; set_solver.
Qed.

Lemma clear_lookup l j :
  clear_args l !! j = if decide (1 <= j < MAX_INIT_ARGS)%nat then (fun _ => 0) <$> l !! j else l !! j.
Proof.
  unfold clear_args. rewrite fold_clear. apply decide_ext. rewrite elem_of_seq. lia.
Qed.
Lemma clear_length l : length (clear_args l) = length l.
Proof.
  unfold clear_args. generalize (seq 1 (MAX_INIT_ARGS - 1)). intros js. revert l.
  induction js as [|i js IH]; intros l; cbn [fold_left]; [done|]. rewrite IH. apply length_insert.
Qed.
Lemma clear_entries P l : P 0 -> Forall P l -> Forall P (clear_args l).
Proof.
  intros HP Hl. apply Forall_lookup. intros i p. rewrite clear_lookup. case_decide.
  - intros (q & _ & ->)%fmap_Some. done.
  - intros Hp. by eapply Forall_lookup_1 in Hl.
Qed.

Lemma new_entry t ts m :
  0 < t_param t -> str_at m (t_param t) (t_text t) -> tokens_apart (t :: ts) -> entry ts m (t_param t).
Proof.
  intros Hp Hx [Ha _]. right. exists (t_text t). split_and!; [done|done|].
  eapply Forall_impl; [exact Ha|]. intros u Hu. pose proof (extent_text t). unfold apart in *. lia.
Qed.

Lemma tokens_kept t ts m m' :
  tokens_apart (t :: ts) -> kept_outside (t_param t) (t_extent t) m m' ->
  Forall (token_at m) (t :: ts) -> Forall (token_at m') ts.
Proof.
  intros [Ha _] Hk Ht. inversion_clear Ht as [|?? _ Hts]. rewrite Forall_forall in Ha, Hts |- *.
  intros u Hu. eapply token_kept; [done| |by apply Hts]. specialize (Ha u Hu). unfold apart in *. lia.
Qed.

(** The arrays, without the options still to come being split. *)
Record arrays_inv (ts : list token) (s : boot) : Prop := {
  ai_argv : length (argv_init s) = S (S INIT_ENV_ARG_LIMIT);
  ai_envp : length (envp_init s) = S (S INIT_ENV_ARG_LIMIT);
  ai_last : panic_later s = None ->
    argv_init s !! S INIT_ENV_ARG_LIMIT = Some 0 /\ envp_init s !! S INIT_ENV_ARG_LIMIT = Some 0;
  ai_entries : Forall (entry ts (b_mem s)) (argv_init s ++ envp_init s);
  ai_apart : tokens_apart ts;
}.
Lemma boot_inv_split ts s : boot_inv ts s <-> arrays_inv ts s /\ Forall (token_at (b_mem s)) ts.
Proof. split; [intros []; split; [by split|done]|intros [[] ?]; by split]. Qed.

Lemma handled_arrays t ts s s' :
  arrays_inv (t :: ts) s -> 0 < t_param t -> kept_outside (t_param t) (t_extent t) (b_mem s) (b_mem s') ->
  handled t s s' -> arrays_inv ts s'.
Proof.
  intros [La Le Hlast Hent Hap] Hp Hk Hh.
  assert (Forall (entry ts (b_mem s')) (argv_init s ++ envp_init s)) as Hent'.
  { eapply Forall_impl; [exact Hent|]. intros p. by apply entry_kept. }
  pose proof (proj2 Hap) as Hap'.
  pose proof limit_ok as Hlim. apply Forall_app in Hent' as [HA HE].
  unfold handled in Hh. destruct (fate t).
  - destruct Hh as (A & E & P). split; rewrite ?A, ?E, ?P; try done. by apply Forall_app.
  - destruct Hh as (A & E & P). split; rewrite ?A, ?E, ?P, ?clear_length; try done.
    + intros Hn. destruct (Hlast Hn). split; [|done]. rewrite clear_lookup, decide_False; [done|]. unfold MAX_INIT_ARGS. lia.
    + apply Forall_app. split; [|done]. apply clear_entries; [by left|done].
  - destruct Hh as (Hx & A & Hh). destruct (panic_later s) eqn:Hl.
    { destruct Hh as [E P]. split; rewrite ?A, ?E, ?P; try done. by apply Forall_app. }
    destruct Hh as (i & passed & Hslot & Hi & E & P). destruct (Hlast eq_refl) as [Hza Hze].
    destruct (env_slot_spec ts (b_mem s') (t_text t) (S (length (t_name t))) _ 0 false _ Hze HE) as (j & c & Hj & Hs2 & Hc & _).
    rewrite Hs2 in Hslot. injection Hslot as <- <-.
    split; rewrite ?A, ?E, ?length_insert; try done.
    + intros Hn. split; [done|]. rewrite list_lookup_insert_ne; [done|]. intros ->.
      rewrite P in Hn. destruct c; [done|]. unfold MAX_INIT_ENVS in Hc. rewrite orb_false_l in Hc.
      symmetry in Hc. apply andb_false_iff in Hc as [Hc|Hc]; [apply Nat.leb_gt in Hc|apply Nat.ltb_ge in Hc]; lia.
    + apply Forall_app. split; [done|]. apply Forall_insert; [done|]. by apply new_entry.
  - destruct Hh as (Hx & E & Hh). destruct (panic_later s) eqn:Hl.
    { destruct Hh as [A P]. split; rewrite ?A, ?E, ?P; try done. by apply Forall_app. }
    destruct Hh as (i & passed & Hslot & Hi & A & P). destruct (Hlast eq_refl) as [Hza Hze].
    destruct (arg_slot_spec _ 0 false _ Hza) as (j & Hj & _ & _ & Hs2). rewrite Hs2 in Hslot.
    split; rewrite ?A, ?E, ?length_insert; try done.
    + intros Hn. split; [|done]. rewrite list_lookup_insert_ne; [done|]. intros ->.
      rewrite P in Hn. destruct passed; [done|]. injection Hslot as -> Hc. unfold MAX_INIT_ARGS in Hc.
      apply Nat.ltb_ge in Hc. lia.
    + apply Forall_app. split; [|done]. apply Forall_insert; [done|]. by apply new_entry.
Qed.

Lemma handled_inv t ts s s' :
  boot_inv (t :: ts) s -> kept_outside (t_param t) (t_extent t) (b_mem s) (b_mem s') -> handled t s s' -> boot_inv ts s'.
Proof.
  intros [Ha Htok]%boot_inv_split Hk Hh. apply boot_inv_split. split.
  - eapply handled_arrays; try done. by apply Forall_inv in Htok as [].
  - eapply tokens_kept; [apply Ha|done|done].
Qed.

Lemma init_arg_slot_spec l i k :
  l !! k = Some 0 -> (i <= MAX_INIT_ARGS)%nat ->
  exists r, init_arg_slot l i = Some r /\ forall j, r = Some j -> (i <= j <= MAX_INIT_ARGS)%nat /\ (j - i < length l)%nat.
Proof.
  revert i k. induction l as [|p l IH]; intros i k Hk Hi; [done|]. cbn [init_arg_slot length].
  destruct (Z.eqb_spec p 0); [eexists; split; [done|]; intros j [= <-]; lia|].
  destruct (Nat.eqb_spec i MAX_INIT_ARGS); [eexists; split; [done|]; by intros j|].
  destruct k as [|k]; [cbn in Hk; congruence|].
  destruct (IH (S i) k Hk ltac:(lia)) as (r & -> & Hr). exists r. split; [done|]. intros j Hj. specialize (Hr j Hj). lia.
Qed.

Lemma set_init_arrays t ts s : arrays_inv (t :: ts) s -> token_at (b_mem s) t ->
  wp (set_init_arg (t_param t) (t_val t)) (fun r s' =>
    (r = 0 /\ extra_init_args s' = extra_init_args s) /\
    kept_outside (t_param t) (t_extent t) (b_mem s) (b_mem s') /\ arrays_inv ts s') s.
Proof.
  intros [La Le Hlast Hent Hap] Ht.
  assert (forall m', only_changes (t_param t) (t_extent t) (b_mem s) m' ->
    Forall (entry ts m') (argv_init s ++ envp_init s)) as Hkeep.
  { intros m' Hc%changes_kept. eapply Forall_impl; [exact Hent|]. intros p. by apply entry_kept. }
  unfold set_init_arg. rewrite wp_bind, wp_gets. destruct (panic_later s) eqn:Hl.
  { rewrite wp_ret. split_and!; [done|done|by intros ???|]. pose proof (Hkeep _ (only_changes_refl _ _ _)).
    split; try done; [by rewrite Hl|apply Hap]. }
  destruct (repair_run s t Ht) as (m1 & Hrun & Hx & Hc). rewrite wp_bind, (wp_run _ _ _ _ _ Hrun).
  pose proof (Hkeep _ Hc) as He. destruct (Hlast eq_refl) as [Hza Hze]. apply changes_kept in Hc.
  destruct (init_arg_slot_spec _ 0 _ Hza ltac:(lia)) as (r & Hr & Hslot).
  rewrite wp_bind, wp_gets. change (argv_init (s <| b_mem := m1 |>)) with (argv_init s).
  rewrite Hr. cbn [deref]. rewrite wp_bind, wp_ret. destruct r as [j|].
  - destruct (Hslot j eq_refl) as [Hj Hjl]. rewrite Nat.sub_0_r in Hjl.
    rewrite wp_bind, (wp_run _ _ _ _ _ (put_slot_run _ _ _ _ Hjl)), wp_bind, wp_modify, wp_ret. split_and!; [done|done|done|].
    split; cbn; rewrite ?length_insert; try done; [|apply Forall_app in He as [HA HE]; apply Forall_app; split; [|done]|apply Hap].
    + intros _. split; [|done]. rewrite list_lookup_insert_ne; [done|]. unfold MAX_INIT_ARGS in Hj. lia.
    + apply Forall_insert; [done|]. apply new_entry; [apply Ht|done|done].
  - rewrite wp_bind, wp_modify, wp_ret. split_and!; [done|done|done|]. split; cbn; try done. apply Hap.
Qed.

Lemma set_init_spec t ts s : boot_inv (t :: ts) s ->
  wp (set_init_arg (t_param t) (t_val t)) (fun r s' => r = 0 /\ boot_inv ts s') s.
Proof.
  intros [Ha Htok]%boot_inv_split. eapply wp_mono; [|apply (set_init_arrays t ts); [done|by apply Forall_inv in Htok]].
  intros r s' ([-> _] & Hk & Ha'). split; [done|]. apply boot_inv_split. split; [done|].
  eapply tokens_kept; [apply Ha|done|done].
Qed.

(** [unknown_bootoption] when the options still to come are not split yet. *)
Lemma unknown_arrays t ts s : arrays_inv (t :: ts) s -> token_at (b_mem s) t ->
  wp (unknown_bootoption (t_param t) (t_val t)) (fun r s' =>
    (r = 0 /\ extra_init_args s' = extra_init_args s) /\
    kept_outside (t_param t) (t_extent t) (b_mem s) (b_mem s') /\ arrays_inv ts s') s.
Proof.
  intros Ha Ht. assert (boot_inv [t] s) as H1t.
  { destruct Ha as [La Le Hlast Hent Hap]. split; try done; [|by constructor].
    eapply Forall_impl; [exact Hent|]. intros p [->|(x & Hp & Hx & Hts)]; [by left|]. right. exists x.
    split_and!; [done|done|]. constructor; [by apply Forall_inv in Hts|constructor]. }
  eapply wp_mono; [|exact (unknown_spec _ _ _ H1t)]. intros r s' ([-> Hx] & Hk & Hh). split_and!; [done|done|done|].
  eapply handled_arrays; [done|apply Ht|done|done].
Qed.

(** A command line, as the parser hands it over: options, then the arguments
    behind [--]. *)
Inductive boot_arg := BeforeDashes (t : token) | AfterDashes (t : token).
Definition ba_token (a : boot_arg) : token := match a with BeforeDashes t | AfterDashes t => t end.
Definition run_boot_arg (a : boot_arg) : Boot Z :=
  match a with
  | BeforeDashes t => unknown_bootoption (t_param t) (t_val t)
  | AfterDashes t => set_init_arg (t_param t) (t_val t)
  end.
Fixpoint run_boot_args (l : list boot_arg) : Boot unit :=
  match l with
  | [] => mret tt
  | a :: l => run_boot_arg a;; run_boot_args l
  end.

(** The arrays for init never overflow: whatever options the command line has,
    how many and in which order, every array access of [unknown_bootoption],
    [set_init_arg] and the setup functions is within bounds, every stored pointer is
    a string with its name and value joined again, and the arrays end in NULL unless
    the kernel has noted that it is going to panic. *)
Theorem init_arrays_bounded l s :
  boot_inv (ba_token <$> l) s -> wp (run_boot_args l) (fun _ s' => boot_inv [] s') s.
Proof.
  revert s. induction l as [|a l IH]; intros s Hs; cbn [run_boot_args]; [by rewrite wp_ret|].
  rewrite wp_bind. destruct a as [t|t]; cbn [run_boot_arg].
  - eapply wp_mono; [|by eapply unknown_spec]. intros r s' (_ & Hk & Hh). apply IH. by eapply handled_inv.
  - eapply wp_mono; [|by eapply set_init_spec]. intros r s' [_ Hi]. by apply IH.
Qed.

(** ** What init gets *)
Definition padded (n : nat) (l : list Z) : list Z := l ++ replicate (n - length l) 0.

Lemma padded_cons n p l : padded (S n) (p :: l) = p :: padded n l.
Proof. done. Qed.
Lemma insert_cons (a : Z) l i p : <[S i := p]> (a :: l) = a :: <[i := p]> l.
Proof. done. Qed.
Lemma padded_snoc n l p : (length l < n)%nat -> <[length l := p]> (padded n l) = padded n (l ++ [p]).
Proof.
  intros Hl. unfold padded. rewrite insert_app_r_alt, Nat.sub_diag, <- app_assoc by lia. f_equal.
  rewrite length_app. cbn [length]. replace (n - length l)%nat with (S (n - (length l + 1))) by lia. done.
Qed.
Lemma padded_zero n l : (length l < n)%nat -> padded n l !! length l = Some 0.
Proof. intros Hl. unfold padded. rewrite lookup_app_r, Nat.sub_diag, lookup_replicate_2; [done|lia|lia]. Qed.
Lemma clear_padded a ps : (length ps < MAX_INIT_ARGS)%nat ->
  clear_args (a :: padded (S MAX_INIT_ARGS) ps) = a :: padded (S MAX_INIT_ARGS) [].
Proof.
  intros Hl. apply list_eq. intros [|i]; rewrite clear_lookup; [by rewrite decide_False by lia|].
  assert (forall l : list Z, (a :: l) !! S i = l !! i) as Hc by done. rewrite !Hc.
  unfold padded. cbn [app length]. destruct (decide (i < S MAX_INIT_ARGS)%nat) as [Hi|Hi].
  - rewrite Nat.sub_0_r, lookup_replicate_2 by done.
    destruct (lookup_lt_is_Some_2 (ps ++ replicate (S MAX_INIT_ARGS - length ps) 0) i) as [p Hp].
    { rewrite length_app, length_replicate. lia. }
    rewrite Hp. case_decide as Hd; [done|]. rewrite lookup_app_r in Hp by lia.
    apply lookup_replicate in Hp as [-> _]. done.
  - rewrite Nat.sub_0_r, !lookup_ge_None_2; rewrite ?length_app, ?length_replicate; try lia. by case_decide.
Qed.

Definition next_args (t : token) (args : list (list Z)) : list (list Z) :=
  match fate t with Reset => [] | ToArg => args ++ [t_text t] | _ => args end.

(** Replaces the first string that starts like [x], or appends. *)
Fixpoint put_env (x : list Z) (n : nat) (env : list (list Z)) : list (list Z) :=
  match env with
  | [] => [x]
  | e :: env => if same_start x e n then x :: env else e :: put_env x n env
  end.
Definition next_env (t : token) (env : list (list Z)) : list (list Z) :=
  match fate t with ToEnv => put_env (t_text t) (S (length (t_name t))) env | _ => env end.

Definition init_args (args : list (list Z)) (ts : list token) : list (list Z) := fold_left (fun a t => next_args t a) ts args.
Definition init_env (env : list (list Z)) (ts : list token) : list (list Z) := fold_left (fun e t => next_env t e) ts env.

(** The arrays hold the name of init and [args], and [env]. *)
Record init_view (ts : list token) (s : boot) (args env : list (list Z)) : Prop := {
  iv_argv : exists a ps, a <> 0 /\ argv_init s = a :: padded (S MAX_INIT_ARGS) ps /\ Forall2 (safe_string ts (b_mem s)) ps args;
  iv_envp : exists qs, envp_init s = padded (S (S MAX_INIT_ENVS)) qs /\ Forall2 (safe_string ts (b_mem s)) qs env;
  iv_late : panic_later s = None;
}.

Lemma view_kept t ts m m' ps xs :
  kept_outside (t_param t) (t_extent t) m m' ->
  Forall2 (safe_string (t :: ts) m) ps xs -> Forall2 (safe_string ts m') ps xs.
Proof. intros Hk Hf. eapply Forall2_impl; [exact Hf|]. intros p x Hx. by eapply safe_kept. Qed.

Lemma nonzero_strings ts m ps xs : Forall2 (safe_string ts m) ps xs -> Forall (fun p => p <> 0) ps.
Proof. induction 1 as [|p x ps xs [Hp _]]; constructor; [lia|done]. Qed.

(** The first free slot is behind the entries. *)
Lemma arg_slot_padded ps i n rest :
  Forall (fun p => p <> 0) ps -> (length ps < n)%nat -> (i + length ps <= MAX_INIT_ARGS)%nat ->
  arg_slot (padded n ps ++ rest) i false = Some ((i + length ps)%nat, false).
Proof.
  intros Hps. revert i n. induction Hps as [|p ps Hp Hps IH]; intros i n Hn Hi; destruct n as [|n]; cbn [length] in *; try lia.
  - by rewrite Nat.add_0_r.
  - rewrite padded_cons. cbn [arg_slot app]. destruct (Z.eqb_spec p 0); [done|].
    destruct (Nat.eqb_spec i MAX_INIT_ARGS); [lia|]. cbn [orb]. rewrite IH by lia. do 2 f_equal. lia.
Qed.

Lemma env_slot_padded ts m q x n k qs env i :
  Forall2 (safe_string ts m) qs env -> (length qs < k)%nat -> (i + length qs <= MAX_INIT_ENVS)%nat -> safe_string ts m q x ->
  exists j qs', env_slot m x n (padded k qs) i false = Some ((i + j)%nat, false) /\
    <[j := q]> (padded k qs) = padded k qs' /\ Forall2 (safe_string ts m) qs' (put_env x n env) /\ (length qs' <= S (length qs))%nat.
Proof.
  intros Hqs. revert i k. induction Hqs as [|p e qs env Hp Hqs IH]; intros i k Hk Hi Hq; destruct k as [|k]; cbn [length] in *; try lia.
  - exists 0%nat, [q]. split_and!; [by rewrite Nat.add_0_r|by apply (padded_snoc (S k) [])|by apply Forall2_cons|done].
  - rewrite padded_cons. cbn [env_slot put_env]. destruct Hp as (Hp & He & Hap).
    destruct (Z.eqb_spec p 0); [lia|]. destruct (Nat.eqb_spec i MAX_INIT_ENVS); [lia|]. cbn [orb].
    rewrite (cstring_at _ _ _ He). cbn [mbind option_bind]. destruct (same_start x e n).
    + exists 0%nat, (q :: qs). split_and!; [by rewrite Nat.add_0_r|done|by constructor|cbn; lia].
    + destruct (IH (S i) k) as (j & qs' & -> & Hins & Hf & Hlen); [lia|lia|done|].
      exists (S j), (p :: qs'). split_and!; [f_equal; f_equal; lia| |by constructor|cbn; lia].
      rewrite padded_cons, <- Hins. done.
Qed.

Lemma view_step t ts s s' args env :
  init_view (t :: ts) s args env -> boot_inv (t :: ts) s ->
  (length args < MAX_INIT_ARGS)%nat -> (length env <= MAX_INIT_ENVS)%nat ->
  kept_outside (t_param t) (t_extent t) (b_mem s) (b_mem s') -> handled t s s' ->
  init_view ts s' (next_args t args) (next_env t env).
Proof.
  intros [(a & ps & Ha & HA & Hps) (qs & HE & Hqs) Hl] [_ _ _ _ Htok Hap] Hla Hle Hk Hh.
  pose proof (view_kept _ _ _ _ _ _ Hk Hps) as Hps'. pose proof (view_kept _ _ _ _ _ _ Hk Hqs) as Hqs'.
  pose proof (Forall2_length _ _ _ Hps') as Lp. pose proof (Forall2_length _ _ _ Hqs') as Lq.
  assert (str_at (b_mem s') (t_param t) (t_text t) -> safe_string ts (b_mem s') (t_param t) (t_text t)) as Hnew.
  { intros Hx. pose proof (ta_pos _ _ (Forall_inv Htok)) as Hp.
    destruct (new_entry t ts (b_mem s') Hp Hx Hap) as [?|(y & Hy)]; [lia|].
    by rewrite (str_at_unique _ _ _ _ Hx (proj1 (proj2 Hy))). }
  unfold handled in Hh. unfold next_args, next_env. rewrite Hl in Hh. destruct (fate t).
  - destruct Hh as (A & E & P). split; rewrite ?A, ?E, ?P; [by exists a, ps|by exists qs|done].
  - destruct Hh as (A & E & P). split; rewrite ?A, ?E, ?P; [|by exists qs|done].
    exists a, []. split_and!; [done| |constructor]. rewrite HA, clear_padded by lia. done.
  - destruct Hh as (Hx & A & i & c & Hslot & _ & E & P). specialize (Hnew Hx).
    destruct (env_slot_padded ts (b_mem s') (t_param t) (t_text t) (S (length (t_name t))) (S (S MAX_INIT_ENVS)) qs env 0)
      as (j & qs' & Hs2 & Hins & Hf & _); [done|lia|lia|done|].
    rewrite HE, Hs2 in Hslot. injection Hslot as <- <-. split; [rewrite A; by exists a, ps| |by rewrite P].
    exists qs'. split; [|done]. by rewrite E, HE.
  - destruct Hh as (Hx & E & i & c & Hslot & _ & A & P). specialize (Hnew Hx).
    assert (arg_slot (a :: padded (S MAX_INIT_ARGS) ps) 0 false = Some (S (length ps), false)) as Hs2.
    { rewrite <- (app_nil_r (a :: _)). apply (arg_slot_padded (a :: ps) 0 (S (S MAX_INIT_ARGS))); cbn [length]; [|lia|lia].
      constructor; [done|]. by eapply nonzero_strings. }
    rewrite HA, Hs2 in Hslot. injection Hslot as <- <-. split; [|rewrite E; by exists qs|by rewrite P].
    exists a, (ps ++ [t_param t]). split_and!; [done| |by apply Forall2_app; [|apply Forall2_cons]].
    rewrite A, HA. cbn. by rewrite padded_snoc by lia.
Qed.

(** C11: Up to the limit, init gets what it should: of the options before [--] that no
    subsystem claims, those with a value become environment variables, a later value
    replacing an earlier one of the same name, and the others arguments; an [init=]
    or [rdinit=] drops the arguments before it.  Nothing else reaches the arrays and
    no panic is announced. *)
Theorem options_reach_init ts s args env :
  boot_inv ts s -> init_view ts s args env ->
  (length args + length ts <= MAX_INIT_ARGS)%nat -> (length env + length ts <= S MAX_INIT_ENVS)%nat ->
  wp (run_boot_args (BeforeDashes <$> ts)) (fun _ s' => init_view [] s' (init_args args ts) (init_env env ts)) s.
Proof.
  revert s args env. induction ts as [|t ts IH]; intros s args env Hs Hv Ha He; [by apply wp_ret|].
  cbn [fmap list_fmap run_boot_args run_boot_arg length] in *. rewrite wp_bind.
  eapply wp_mono; [|by eapply unknown_spec]. intros r s' (_ & Hk & Hh).
  apply IH; [by eapply handled_inv|eapply view_step; try done; lia| |].
  - unfold next_args. destruct (fate t); rewrite ?length_app; cbn; lia.
  - assert (forall x n e, length (put_env x n e) <= S (length e))%nat as Hp.
    { intros x n e. induction e as [|y e IHe]; cbn; [lia|]. destruct (same_start x y n); cbn; lia. }
    unfold next_env. destruct (fate t); try lia. specialize (Hp (t_text t) (S (length (t_name t))) env). lia.
Qed.

(** Arguments go to the free slots before a leftover one. *)
Lemma fill_before_leftover ts s a qs p :
  a <> 0 -> p <> 0 -> Forall (fun q => q <> 0) qs -> (length qs + length ts < MAX_INIT_ARGS)%nat ->
  boot_inv ts s -> panic_later s = None -> Forall (fun t => fate t = ToArg) ts ->
  argv_init s = a :: padded (MAX_INIT_ARGS - 1) qs ++ [p; 0] ->
  wp (run_boot_args (BeforeDashes <$> ts)) (fun _ s' =>
    panic_later s' = None /\ argv_init s' = a :: padded (MAX_INIT_ARGS - 1) (qs ++ map t_param ts) ++ [p; 0]) s.
Proof.
  intros Ha Hp. revert s qs. induction ts as [|t ts IH]; intros s qs Hqs Hlen Hs Hl Hf HA.
  { apply wp_ret. by rewrite app_nil_r. }
  cbn [fmap list_fmap run_boot_args run_boot_arg length] in *. rewrite wp_bind. inversion_clear Hf as [|?? Ht Hts].
  eapply wp_mono; [|by eapply unknown_spec]. intros r s' (_ & Hk & Hh). pose proof (handled_inv _ _ _ _ Hs Hk Hh) as Hs'.
  unfold handled in Hh. rewrite Ht, Hl in Hh. destruct Hh as (_ & _ & i & c & Hslot & _ & A & P).
  assert (arg_slot (a :: padded (MAX_INIT_ARGS - 1) qs ++ [p; 0]) 0 false = Some (S (length qs), false)) as Hs2.
  { rewrite app_comm_cons. apply (arg_slot_padded (a :: qs) 0 (S (MAX_INIT_ARGS - 1))); cbn [length]; [by constructor|lia|lia]. }
  rewrite HA, Hs2 in Hslot. injection Hslot as <- <-. cbn [map].
  replace (qs ++ t_param t :: map t_param ts) with ((qs ++ [t_param t]) ++ map t_param ts) by by rewrite <- app_assoc.
  apply IH; [|rewrite length_app; cbn; lia|done|done|done|].
  - apply Forall_app. split; [done|]. repeat constructor. pose proof (ta_pos _ _ (Forall_inv (bi_tokens _ _ Hs))). lia.
  - rewrite A, HA, insert_cons. f_equal. rewrite insert_app_l by (unfold padded; rewrite length_app, length_replicate; lia).
    by rewrite padded_snoc by lia.
Qed.

(** C31: "We ignore all arguments entered _before_ init=", says [init_setup], but its
    loop stops one slot early: when the last slot was in use, its argument stays, and
    if as many arguments follow as fit before it, init is started with the stale one
    at the end. *)
Theorem init_setup_keeps_last ts s p a str :
  argv_init s !! 0%nat = Some a -> argv_init s !! MAX_INIT_ARGS = Some p -> a <> 0 -> p <> 0 ->
  boot_inv ts s -> panic_later s = None -> Forall (fun t => fate t = ToArg) ts -> S (length ts) = MAX_INIT_ARGS ->
  wp (init_setup str;; run_boot_args (BeforeDashes <$> ts)) (fun _ s' =>
    panic_later s' = None /\ argv_init s' = a :: map t_param ts ++ [p; 0]) s.
Proof.
  intros Ha0 HpM Ha Hp Hs Hl Hf Hlen. pose proof Hs as [La Le Hlast Hent Htok Hap].
  unfold init_setup. rewrite !wp_bind, wp_modify, wp_ret. set (s1 := s <| execute_command := str |> <| argv_init ::= clear_args |>).
  assert (argv_init s1 = a :: padded (MAX_INIT_ARGS - 1) [] ++ [p; 0]) as HA.
  { change (argv_init s1) with (clear_args (argv_init s)). apply list_eq. intros i. rewrite clear_lookup.
    unfold padded. cbn [app length]. rewrite Nat.sub_0_r. destruct (Hlast Hl) as [Hz _]. fold MAX_INIT_ARGS in *.
    destruct i as [|i]; [by rewrite decide_False by lia|].
    assert (forall l : list Z, (a :: l) !! S i = l !! i) as Hc by done. rewrite Hc. case_decide as Hi.
    - rewrite lookup_app_l, lookup_replicate_2 by (rewrite ?length_replicate; lia).
      destruct (lookup_lt_is_Some_2 (argv_init s) (S i)) as [q ->]; [unfold MAX_INIT_ARGS in *; lia|done].
    - rewrite lookup_app_r by (rewrite length_replicate; lia). rewrite length_replicate.
      destruct (decide (S i = MAX_INIT_ARGS)) as [E|]; [rewrite E, HpM; by replace (i - (MAX_INIT_ARGS - 1))%nat with 0%nat by lia|].
      destruct (decide (S i = S MAX_INIT_ARGS)) as [E|]; [rewrite E, Hz; by replace (i - (MAX_INIT_ARGS - 1))%nat with 1%nat by lia|].
      rewrite !lookup_ge_None_2; cbn; try done; unfold MAX_INIT_ARGS in *; lia. }
  assert (boot_inv ts s1) as Hs1.
  { split; try done; cbn; rewrite ?clear_length; [done| |].
    - intros _. destruct (Hlast Hl). split; [|done]. rewrite clear_lookup, decide_False; [done|]. unfold MAX_INIT_ARGS. lia.
    - apply Forall_app in Hent as [HA' HE]. apply Forall_app. split; [|done]. apply clear_entries; [by left|done]. }
  eapply wp_mono; [|apply (fill_before_leftover ts s1 a [] p); [done|done|constructor|cbn; lia|done|exact Hl|done|done]].
  intros _ s' [Hl' ->]. split; [done|]. cbn [app]. f_equal. unfold padded. rewrite length_map.
  replace (MAX_INIT_ARGS - 1 - length ts)%nat with 0%nat by lia. by rewrite app_nil_r.
Qed.
End Lemmas.
