(* ===== verification/BootConfig.v ===== *)
(** Command lines and the boot configuration ([init/main.c]): the configuration
    appended to the initial ramdisk, the command lines made from it, the buffers of
    [setup_command_line], and the list of unknown options the kernel prints.

    All of it computes buffer sizes first and fills the buffers afterwards; the
    theorems say that the two agree. *)

From S2P Require Import Prelude CStrings BootState BootArgs.

Definition COMMAND_LINE_SIZE : nat := 2048.
Definition XBC_DATA_MAX : Z := 32767.

(** lib/bootconfig.c: the parsed configuration is a tree; a node is a pointer. *)
Class BootConf := {
  BOOTCONFIG_MAGIC : list Z;
  xbc_calc_checksum : list Z -> Z;
  xbc_init : list Z -> Z * Z;                       (* result and position *)
  xbc_get_embedded_bootconfig : option (Z * Z);     (* data and size *)
  xbc_find_node : list Z -> Z;
  xbc_keys : Z -> list Z;                           (* xbc_node_for_each_key_value *)
  xbc_node_compose_key_after : Z -> Z -> Z + list Z;
  xbc_node_get_child : Z -> Z;
  xbc_array : Z -> list (list Z);                   (* xbc_array_for_each_value *)
  BOOT_CONFIG_FORCE : bool;                         (* CONFIG_BOOT_CONFIG_FORCE *)
  boot_command_line : Z;                            (* char [COMMAND_LINE_SIZE] *)
  config_cmdline : Z;                               (* tmp_cmdline of setup_boot_config *)
  (* kernel/params.c: a name, the line, the levels and the handler of the options *)
  parse_args : string -> Z -> Z -> Z -> (Z -> Z -> Boot Z) -> Boot Z;
}.

Definition IS_ERR (p : Z) : bool := 2 ^ 64 - 4095 <=? u64 p.

Section BootConfig.
Context `{Memblock} `{BootOptions} `{BootConf}.

(** ** The configuration at the end of the initial ramdisk *)
Definition BOOTCONFIG_MAGIC_LEN : Z := Z.of_nat (length BOOTCONFIG_MAGIC).

Fixpoint find_magic (tries : nat) (data : Z) : Boot (option Z) :=
  match tries with
  | O => mret None
  | S tries =>
      m ← gets b_mem;
      found ← deref OutOfBounds (mem_is m data BOOTCONFIG_MAGIC);
      if (found : bool) then mret (Some data) else find_magic tries (data - 1)
  end.

Definition load_u32 (p : Z) : Boot Z :=
  m ← gets b_mem;
  if owned_b m p 4 then mret (le_val (read_bytes m p 4)) else crashed OutOfBounds.
Definition load_bytes (p n : Z) : Boot (list Z) :=
  m ← gets b_mem;
  if owned_b m p (Z.to_nat n) then mret (read_bytes m p (Z.to_nat n)) else crashed OutOfBounds.

(** The data and its size. *)
Definition get_boot_config_from_initrd : Boot (option (Z * Z)) :=
  fin ← gets initrd_end;
  if fin =? 0 then mret None
  else
  found ← find_magic 4 (fin - BOOTCONFIG_MAGIC_LEN);
  match found with
  | None => mret None
  | Some magic =>
      let hdr := magic - 8 in
      size ← load_u32 hdr;
      csum ← load_u32 (hdr + 4);
      let data := u64 (hdr - size) in
      start ← gets initrd_start;
      if data <? start then printk "bootconfig size is greater than initrd size";; mret None
      else
      bytes ← load_bytes data size;
      if negb (xbc_calc_checksum bytes =? csum) then printk "bootconfig checksum failed";; mret None
      else
      modify (fun s => s <| initrd_end := data |>);;
      mret (Some (data, size))
  end.

(** ** Command lines from the configuration *)
Definition rest (dst fin : Z) : Z := if dst <? fin then fin - dst else 0.

(** [snprintf(buf, room, ...)] of a formatted text *)
Definition snprintf (buf room : Z) (txt : list Z) : Boot Z :=
  (if 0 <? room then store_at buf (take (Z.to_nat (room - 1)) txt ++ [0]) else mret tt);;
  mret (Z.of_nat (length txt)).

Fixpoint print_values (name : list Z) (vals : list (list Z)) (buf fin : Z) : Boot Z :=
  match vals with
  | [] => mret buf
  | val :: vals =>
      ret ← snprintf buf (rest buf fin) (name ++ [61; 34] ++ val ++ [34; 32]);
      print_values name vals (buf + ret) fin
  end.

Definition print_key (name : list Z) (knode buf fin : Z) : Boot Z :=
  let vnode := xbc_node_get_child knode in
  if vnode =? 0 then
    ret ← snprintf buf (rest buf fin) (name ++ [32]);
    mret (buf + ret)
  else print_values name (xbc_array vnode) buf fin.

Fixpoint print_keys (root : Z) (knodes : list Z) (buf fin : Z) : Boot (Z + Z) :=
  match knodes with
  | [] => mret (inr buf)
  | knode :: knodes =>
      match xbc_node_compose_key_after root knode with
      | inl ret => mret (inl ret)
      | inr name =>
          buf ← print_key name knode buf fin;
          print_keys root knodes buf fin
      end
  end.

Definition xbc_snprint_cmdline (buf size root : Z) : Boot Z :=
  let fin := buf + size in
  r ← print_keys root (xbc_keys root) buf fin;
  mret (match r with inl ret => ret | inr buf => s32 (buf - (fin - size)) end).

Definition xbc_make_cmdline (key : list Z) : Boot Z :=
  let root := xbc_find_node key in
  if root =? 0 then mret 0
  else
  len ← xbc_snprint_cmdline 0 0 root;
  if len <=? 0 then mret 0
  else
  new_cmdline ← memblock_alloc (len + 1);
  if new_cmdline =? 0 then printk "Failed to allocate memory for extra kernel cmdline.";; mret 0
  else
  ret ← xbc_snprint_cmdline new_cmdline (len + 1) root;
  if (ret <? 0) || (len <? ret) then
    printk "Failed to print extra kernel cmdline.";;
    memblock_free new_cmdline (len + 1);;
    mret 0
  else mret new_cmdline.

Definition bootconfig_params (param val : Z) : Boot Z :=
  p ← c_string param;
  (if bool_decide (p = bytes_of "bootconfig") then modify (fun s => s <| bootconfig_found := true |>) else mret tt);;
  mret 0.
Definition warn_bootconfig (str : Z) : Boot Z := mret 0.

(** [strscpy(to, from, size)] *)
Definition strscpy (to from : Z) (size : nat) : Boot unit :=
  x ← c_string from;
  store_at to (take (size - 1) x ++ [0]).

Definition setup_boot_config : Boot unit :=
  d ← get_boot_config_from_initrd;
  let d := if d is None then xbc_get_embedded_bootconfig else d in
  strscpy config_cmdline boot_command_line COMMAND_LINE_SIZE;;
  err ← parse_args "bootconfig" config_cmdline 0 0 bootconfig_params;
  found ← gets bootconfig_found;
  if IS_ERR err || negb (found || BOOT_CONFIG_FORCE) then mret tt
  else
  (if truthy err then modify (fun s => s <| initargs_offs := err - config_cmdline |>) else mret tt);;
  match d with
  | None => printk (if found then "'bootconfig' found on command line, but no bootconfig found"
                    else "No bootconfig data provided, so skipping bootconfig")
  | Some (data, size) =>
      if XBC_DATA_MAX <=? size then printk "bootconfig size greater than max size"
      else
      bytes ← load_bytes data size;
      let '(ret, pos) := xbc_init bytes in
      if ret <? 0 then printk (if pos <? 0 then "Failed to init bootconfig" else "Failed to parse bootconfig")
      else
      printk "Load bootconfig";;
      x ← xbc_make_cmdline (bytes_of "kernel");
      modify (fun s => s <| extra_command_line := x |>);;
      i ← xbc_make_cmdline (bytes_of "init");
      modify (fun s => s <| extra_init_args := i |>)
  end.

(** ** The saved and the parsed command line *)
Definition strlen_or_0 (p : Z) : Boot Z :=
  if truthy p then x ← c_string p; mret (Z.of_nat (length x)) else mret 0.

Definition append_init_args (xlen ilen : Z) : Boot unit :=
  saved ← gets saved_command_line;
  extra ← gets extra_init_args;
  offs ← gets initargs_offs;
  if truthy offs then
    let len := xlen + offs in
    strcpy_at (saved + len) extra;;
    let len := len + (ilen - 4) in
    strcpy_at (saved + len) (boot_command_line + offs - 1)
  else
    x ← c_string saved;
    let len := Z.of_nat (length x) in
    store_at (saved + len) (bytes_of " -- " ++ [0]);;
    strcpy_at (saved + (len + 4)) extra.

(** From the copies into the allocated buffers on. *)
Definition copy_command_lines (saved static extra xlen ilen command_line : Z) : Boot unit :=
  (if truthy xlen then strcpy_at saved extra;; strcpy_at static extra else mret tt);;
  strcpy_at (saved + xlen) boot_command_line;;
  strcpy_at (static + xlen) command_line;;
  (if truthy ilen then append_init_args xlen ilen else mret tt);;
  x ← c_string saved;
  modify (fun s => s <| saved_command_line_len := u32 (Z.of_nat (length x)) |>).

Definition setup_command_line (command_line : Z) : Boot unit :=
  extra ← gets extra_command_line;
  init ← gets extra_init_args;
  xlen ← strlen_or_0 extra;
  ilen ← (n ← strlen_or_0 init; mret (if truthy init then n + 4 else 0));
  b ← c_string boot_command_line;
  let len := xlen + Z.of_nat (length b) + 1 in
  saved ← memblock_alloc (len + ilen);
  if saved =? 0 then panic
  else
  modify (fun s => s <| saved_command_line := saved |>);;
  static ← memblock_alloc len;
  if static =? 0 then panic
  else
  modify (fun s => s <| static_command_line := static |>);;
  copy_command_lines saved static extra xlen ilen command_line.

(** ** Unknown options on the console *)
Fixpoint count_strings (l : list Z) (len : Z) : Boot Z :=
  match l with
  | [] => crashed OutOfBounds
  | p :: l => if p =? 0 then mret len
              else x ← c_string p; count_strings l (len + 1 + Z.of_nat (length x))
  end.
Fixpoint print_strings (l : list Z) (fin : Z) : Boot Z :=
  match l with
  | [] => crashed OutOfBounds
  | p :: l => if p =? 0 then mret fin
              else
              x ← c_string p;
              store_at fin (32 :: x ++ [0]);;
              print_strings l (fin + 1 + Z.of_nat (length x))
  end.

Definition print_unknown_bootoptions : Boot unit :=
  late ← gets panic_later;
  argv ← gets argv_init;
  envp ← gets envp_init;
  a1 ← slot argv 1;
  e2 ← slot envp 2;
  if bool_decide (late <> None) || ((a1 =? 0) && (e2 =? 0)) then mret tt
  else
  len ← count_strings (drop 1 argv) 1;
  len ← count_strings (drop 2 envp) len;
  unknown_options ← memblock_alloc len;
  if unknown_options =? 0 then printk "print_unknown_bootoptions: Failed to allocate"
  else
  fin ← print_strings (drop 1 argv) unknown_options;
  print_strings (drop 2 envp) fin;;
  x ← c_string (unknown_options + 1);
  emit (Notice x);;
  memblock_free unknown_options len.
End BootConfig.

Class BootConfOk `{BootConf} : Prop := {
  (* the first byte of the mark does not occur in the three bytes behind it *)
  magic_head : exists c l, BOOTCONFIG_MAGIC = c :: l /\ (3 <= length l)%nat /\ forall i, (i < 3)%nat -> l !! i <> Some c;
  checksum_u32 bs : is_u32 (xbc_calc_checksum bs);
  compose_error root knode e : xbc_node_compose_key_after root knode = inl e -> is_s32 e /\ e < 0;
}.

(** ** The configuration in the ramdisk *)
Section Initrd.
Context `{BootConf} `{!BootConfOk}.

Lemma owned_part m p n k j : owned m p n -> (k + j <= n)%nat -> owned m (p + Z.of_nat k) j.
Proof.
  intros Ho Hk i Hi. replace (p + Z.of_nat k + Z.of_nat i) with (p + Z.of_nat (k + i)) by lia. apply Ho. lia.
Qed.

Lemma find_magic_run tries k mg s :
  bytes_at (b_mem s) mg BOOTCONFIG_MAGIC -> (k < tries)%nat -> (k <= 3)%nat ->
  owned (b_mem s) mg (length BOOTCONFIG_MAGIC + k) ->
  find_magic tries (mg + Z.of_nat k) s = Done (Some mg) s.
Proof.
  intros Hmg. revert k. induction tries as [|tries IH]; intros k Ht Hk Ho; [lia|]. cbn [find_magic].
  unfold mem_is. kernel_unfold. rewrite (proj2 (owned_b_true _ _ _)) by (eapply owned_part; [done|lia]).
  destruct k as [|k].
  - rewrite Z.add_0_r, (bytes_at_read _ _ _ Hmg), bool_decide_true by done. done.
  - rewrite bool_decide_false.
    + replace (mg + Z.of_nat (S k) - 1) with (mg + Z.of_nat k) by lia. apply IH; [lia|lia|].
      intros i Hi. apply Ho. lia.
    + destruct magic_head as (c & l & E & Hl & Hc). rewrite E in *. cbn [length read_bytes]. intros Heq.
      injection Heq as Hhd _. apply bytes_at_cons in Hmg as [_ Hmg].
      destruct (lookup_lt_is_Some_2 l k) as [d Hd]; [lia|]. specialize (Hmg k d Hd).
      replace (mg + Z.of_nat (S k)) with (mg + 1 + Z.of_nat k) in Hhd by lia. rewrite Hmg in Hhd. cbn in Hhd.
      apply (Hc k); [lia|]. congruence.
Qed.

Lemma load_u32_run s p z : bytes_at (b_mem s) p (le_bytes 4 z) -> is_u32 z -> load_u32 p s = Done z s.
Proof.
  intros Hb Hz. unfold load_u32. kernel_unfold. pose proof (bytes_at_owned _ _ _ Hb) as Ho. rewrite length_le_bytes in Ho.
  rewrite (proj2 (owned_b_true _ _ _) Ho). pose proof (bytes_at_read _ _ _ Hb) as Hr. rewrite length_le_bytes in Hr.
  rewrite Hr, le_val_bytes. f_equal. by apply Z.mod_small.
Qed.

Lemma load_bytes_run s p bs : bytes_at (b_mem s) p bs -> load_bytes p (Z.of_nat (length bs)) s = Done bs s.
Proof.
  intros Hb. unfold load_bytes. kernel_unfold. rewrite Nat2Z.id.
  rewrite (proj2 (owned_b_true _ _ _) (bytes_at_owned _ _ _ Hb)). by rewrite (bytes_at_read _ _ _ Hb).
Qed.

(** C29: The boot configuration is found where a boot loader puts it: behind the
    ramdisk, followed by its size, its checksum and the mark, and by up to three bytes
    of alignment whatever they are.  If the checksum is right, exactly the
    configuration is returned and cut off the ramdisk; if it is wrong, nothing is
    returned and the ramdisk stays as it was. *)
Theorem bootconfig_found_exactly s disk cfg sum pad :
  let image := disk ++ cfg ++ le_bytes 4 (Z.of_nat (length cfg)) ++ le_bytes 4 sum ++ BOOTCONFIG_MAGIC ++ pad in
  let start := initrd_start s in
  bytes_at (b_mem s) start image -> initrd_end s = start + Z.of_nat (length image) ->
  0 < start -> initrd_end s < 2 ^ 64 -> is_u32 sum -> is_u32 (Z.of_nat (length cfg)) -> (length pad <= 3)%nat ->
  let data := start + Z.of_nat (length disk) in
  get_boot_config_from_initrd s =
    if xbc_calc_checksum cfg =? sum then Done (Some (data, Z.of_nat (length cfg))) (s <| initrd_end := data |>)
    else Done None (s <| b_trace ::= cons (Printk "bootconfig checksum failed") |>).
Proof.
  intros image start Hb Hend Hs He Hsum Hcfg Hpad data. unfold get_boot_config_from_initrd.
  assert (length image = length disk + length cfg + 4 + 4 + length BOOTCONFIG_MAGIC + length pad)%nat as Hlen
    by (unfold image; rewrite !length_app, !length_le_bytes; lia).
  unfold image in Hb. rewrite !bytes_at_app, !length_le_bytes in Hb.
  destruct Hb as (_ & Hc & Hsz & Hck & Hm & Hp). fold start in Hc, Hsz, Hck, Hm, Hp. fold data in Hc, Hsz, Hck, Hm, Hp.
  set (hdr := data + Z.of_nat (length cfg)) in *.
  replace (hdr + Z.of_nat 4) with (hdr + 4) in Hck, Hm, Hp by lia. replace (hdr + 4 + Z.of_nat 4) with (hdr + 8) in Hm, Hp by lia.
  assert (find_magic 4 (initrd_end s - BOOTCONFIG_MAGIC_LEN) s = Done (Some (hdr + 8)) s) as Hf.
  { replace (initrd_end s - BOOTCONFIG_MAGIC_LEN) with (hdr + 8 + Z.of_nat (length pad)) by (unfold BOOTCONFIG_MAGIC_LEN, hdr, data; lia).
    apply find_magic_run; [done|lia|lia|]. rewrite <- length_app. apply bytes_at_owned, bytes_at_app. done. }
  rewrite gets_bind. cbn beta. destruct (Z.eqb_spec (initrd_end s) 0) as [?|_]; [lia|].
  rewrite (bind_done _ _ _ _ _ Hf). cbn beta zeta iota. replace (hdr + 8 - 8) with hdr by lia.
  rewrite (bind_done _ _ _ _ _ (load_u32_run _ _ _ Hsz Hcfg)), (bind_done _ _ _ _ _ (load_u32_run _ _ _ Hck Hsum)).
  cbn beta. replace (hdr - Z.of_nat (length cfg)) with data by (unfold hdr; lia).
  rewrite u64_id by (unfold is_u64, data; lia). rewrite gets_bind. cbn beta.
  destruct (Z.ltb_spec data (initrd_start s)) as [?|_]; [unfold data, start in *; lia|].
  rewrite (bind_done _ _ _ _ _ (load_bytes_run _ _ _ Hc)). by destruct (xbc_calc_checksum cfg =? sum).
Qed.

(** A ramdisk without the mark in its last bytes is left alone. *)
Lemma no_bootconfig s :
  (forall k, (k < 4)%nat -> mem_is (b_mem s) (initrd_end s - BOOTCONFIG_MAGIC_LEN - Z.of_nat k) BOOTCONFIG_MAGIC = Some false) ->
  get_boot_config_from_initrd s = Done None s.
Proof.
  intros Hm. unfold get_boot_config_from_initrd. rewrite gets_bind. cbn beta.
  destruct (initrd_end s =? 0); [done|].
  assert (forall n k, (k + n <= 4)%nat ->
    find_magic n (initrd_end s - BOOTCONFIG_MAGIC_LEN - Z.of_nat k) s = Done None s) as Hf.
  { induction n as [|n IH]; intros k Hk; [done|]. cbn [find_magic]. kernel_unfold. rewrite Hm by lia.
    replace (initrd_end s - BOOTCONFIG_MAGIC_LEN - Z.of_nat k - 1)
      with (initrd_end s - BOOTCONFIG_MAGIC_LEN - Z.of_nat (S k)) by lia. apply IH. lia. }
  specialize (Hf 4%nat 0%nat ltac:(lia)). rewrite Z.sub_0_r in Hf. by rewrite (bind_done _ _ _ _ _ Hf).
Qed.
End Initrd.

(** ** Printing in two passes

    A printer appends a text: without room it only counts, and with enough room it
    writes the text and a NUL. *)
Section Printing.
Context `{Memblock} `{!MemblockOk} `{BootConf} `{!BootConfOk}.

Definition prints (p : Z -> Z -> Boot Z) (x : list Z) : Prop :=
  (forall buf fin s, fin <= buf -> p buf fin s = Done (buf + Z.of_nat (length x)) s) /\
  (forall buf fin s, owned (b_mem s) buf (S (length x)) -> b_mem s !! buf = Some 0 -> buf + Z.of_nat (length x) < fin ->
    exists m', p buf fin s = Done (buf + Z.of_nat (length x)) (s <| b_mem := m' |>) /\
      bytes_at m' buf (x ++ [0]) /\ only_changes buf (S (length x)) (b_mem s) m').

Lemma prints_ext p q x : (forall buf fin s, q buf fin s = p buf fin s) -> prints p x -> prints q x.
Proof.
  intros E [C W]. split; intros buf fin s.
  - intros Hf. rewrite E. by apply C.
  - intros Ho Hz Hf. rewrite E. by apply W.
Qed.

Lemma prints_nothing : prints (fun buf _ => mret buf) [].
Proof.
  split; intros buf fin s; cbn; [by rewrite Z.add_0_r|]. intros _ Hz _. exists (b_mem s).
  rewrite Z.add_0_r. split_and!; [by destruct s|by apply bytes_at_cons|apply only_changes_refl].
Qed.

Lemma prints_text x : prints (fun buf fin => ret ← snprintf buf (rest buf fin) x; mret (buf + ret)) x.
Proof.
  unfold snprintf, rest. split; intros buf fin s.
  - intros Hf. destruct (Z.ltb_spec buf fin); [lia|]. done.
  - intros Ho _ Hf. destruct (Z.ltb_spec buf fin); [|lia]. destruct (Z.ltb_spec 0 (fin - buf)); [|lia].
    rewrite firstn_all2 by lia. exists (write_bytes (b_mem s) buf (x ++ [0])).
    assert (owned (b_mem s) buf (length (x ++ [0]))) as Ho' by (rewrite length_app; cbn; by rewrite Nat.add_1_r).
    split_and!; [|apply bytes_at_write|].
    + pose proof (store_at_run _ _ _ Ho') as Hst. unfold mbind, kern_bind. by rewrite Hst.
    + apply write_only_changes in Ho'. rewrite length_app in Ho'. cbn in Ho'. by rewrite Nat.add_1_r in Ho'.
Qed.

Lemma prints_seq p q x y : prints p x -> prints q y -> prints (fun buf fin => b ← p buf fin; q b fin) (x ++ y).
Proof.
  intros [Cp Wp] [Cq Wq]. split; intros buf fin s.
  - intros Hf. rewrite (bind_done _ _ _ _ _ (Cp _ _ _ Hf)), Cq by lia. rewrite length_app. f_equal. lia.
  - rewrite length_app. intros Ho Hz Hf.
    destruct (Wp buf fin s) as (m1 & R1 & B1 & O1); [intros i Hi; apply Ho; lia|done|lia|].
    rewrite (bind_done _ _ _ _ _ R1). apply bytes_at_app in B1 as [Bx Z1]. apply bytes_at_cons in Z1 as [Z1 _].
    destruct (Wq (buf + Z.of_nat (length x)) fin (s <| b_mem := m1 |>)) as (m2 & R2 & B2 & O2); [|done|lia|].
    { intros i Hi. replace (buf + Z.of_nat (length x) + Z.of_nat i) with (buf + Z.of_nat (length x + i)) by lia.
      eapply only_changes_owned; [exact O1|exact Ho|lia]. }
    exists m2. rewrite R2. split_and!; [f_equal; lia| |].
    + rewrite <- app_assoc. apply bytes_at_app. split; [|done].
      eapply only_changes_bytes; [exact O2| |done]. unfold apart. lia.
    + eapply only_changes_trans; (eapply only_changes_mono; [done|lia|lia]).
Qed.

Definition value_text (name val : list Z) : list Z := name ++ [61; 34] ++ val ++ [34; 32].

Lemma prints_values name vals :
  prints (print_values name vals) (concat (value_text name <$> vals)).
Proof.
  induction vals as [|v vals IH]; [apply prints_nothing|].
  eapply prints_ext; [|exact (prints_seq _ _ _ _ (prints_text (value_text name v)) IH)].
  intros buf fin s. cbn [print_values]. kernel_unfold. by destruct (snprintf _ _ _ _).
Qed.

(** The text of the keys from [knodes] on; an error if a key cannot be composed. *)
Definition key_text (name : list Z) (knode : Z) : list Z :=
  if xbc_node_get_child knode =? 0 then name ++ [32]
  else concat (value_text name <$> xbc_array (xbc_node_get_child knode)).
Fixpoint keys_text (root : Z) (knodes : list Z) : Z + list Z :=
  match knodes with
  | [] => inr []
  | knode :: knodes =>
      match xbc_node_compose_key_after root knode, keys_text root knodes with
      | inl e, _ => inl e
      | _, inl e => inl e
      | inr name, inr x => inr (key_text name knode ++ x)
      end
  end.

Lemma prints_key name knode : prints (print_key name knode) (key_text name knode).
Proof. unfold print_key, key_text. cbv zeta. destruct (xbc_node_get_child knode =? 0); [apply prints_text|apply prints_values]. Qed.

Lemma print_keys_error root knodes e :
  keys_text root knodes = inl e ->
  (exists knode, xbc_node_compose_key_after root knode = inl e) /\
  forall buf fin s, fin <= buf -> print_keys root knodes buf fin s = Done (inl e) s.
Proof.
  induction knodes as [|k ks IH]; cbn [keys_text print_keys]; [done|].
  destruct (xbc_node_compose_key_after root k) as [e'|name] eqn:Hk.
  - intros [= ->]. split; [by exists k|done].
  - destruct (keys_text root ks) as [e'|x]; [|done]. intros [= ->]. destruct (IH eq_refl) as [He Hr]. split; [done|].
    intros buf fin s Hf. destruct (prints_key name k) as [C _]. rewrite (bind_done _ _ _ _ _ (C buf fin s Hf)). apply Hr. lia.
Qed.

Lemma prints_keys root knodes x :
  keys_text root knodes = inr x ->
  prints (fun buf fin => r ← print_keys root knodes buf fin; mret (match r with inl _ => 0 | inr b => b end)) x /\
  forall buf fin s b s', (r ← print_keys root knodes buf fin; mret (match r with inl _ => 0 | inr b => b end)) s = Done b s' ->
    print_keys root knodes buf fin s = Done (inr b) s'.
Proof.
  revert x. induction knodes as [|k ks IH]; cbn [keys_text print_keys]; intros x Hx.
  { injection Hx as <-. split; [apply prints_nothing|]. intros buf fin s b s'. kernel_unfold. congruence. }
  destruct (xbc_node_compose_key_after root k) as [e|name]; [done|].
  destruct (keys_text root ks) as [e|y]; [done|]. injection Hx as <-. destruct (IH y eq_refl) as [IH1 IH2].
  split.
  - eapply prints_ext; [|exact (prints_seq _ _ _ _ (prints_key name k) IH1)].
    intros buf fin s. unfold mbind, kern_bind. by destruct (print_key name k buf fin s).
  - intros buf fin s b s' Hr. unfold mbind, kern_bind in Hr |- *.
    destruct (print_key name k buf fin s) as [b1 s1|]; [|done]. by apply IH2.
Qed.

Lemma fresh_owned m a n : owned (write_bytes m a (replicate n 0)) a n.
Proof.
  intros i Hi. rewrite lookup_write_bytes, decide_True by (rewrite length_replicate; lia).
  apply lookup_lt_is_Some_2. rewrite length_replicate. lia.
Qed.
Lemma fresh_zero m a n : (0 < n)%nat -> write_bytes m a (replicate n 0) !! a = Some 0.
Proof. intros Hn. destruct n; [lia|]. cbn. by rewrite lookup_insert_eq. Qed.
Lemma fresh_sub m a bs : (forall i, (i < length bs)%nat -> m !! (a + Z.of_nat i) = None) -> m ⊆ write_bytes m a bs.
Proof.
  intros Hm. apply map_subseteq_spec. intros x c Hx. rewrite lookup_write_bytes. case_decide as Hd; [|done].
  specialize (Hm (Z.to_nat (x - a)) ltac:(lia)). replace (a + Z.of_nat (Z.to_nat (x - a))) with x in Hm by lia. congruence.
Qed.

Lemma snprint_count root s :
  xbc_snprint_cmdline 0 0 root s
  = Done (match keys_text root (xbc_keys root) with inl e => e | inr x => s32 (Z.of_nat (length x)) end) s.
Proof.
  unfold xbc_snprint_cmdline. destruct (keys_text root (xbc_keys root)) as [e|x] eqn:Hx.
  - destruct (print_keys_error _ _ _ Hx) as [_ Hrun]. by rewrite (bind_done _ _ _ _ _ (Hrun 0 (0 + 0) s ltac:(lia))).
  - destruct (prints_keys _ _ _ Hx) as [[C _] Hr].
    rewrite (bind_done _ _ _ _ _ (Hr _ _ _ _ _ (C 0 (0 + 0) s ltac:(lia)))). kernel_unfold. do 2 f_equal. lia.
Qed.

Lemma snprint_write root x buf s :
  keys_text root (xbc_keys root) = inr x -> owned (b_mem s) buf (S (length x)) -> b_mem s !! buf = Some 0 ->
  exists m', xbc_snprint_cmdline buf (Z.of_nat (length x) + 1) root s = Done (s32 (Z.of_nat (length x))) (s <| b_mem := m' |>) /\
    bytes_at m' buf (x ++ [0]) /\ only_changes buf (S (length x)) (b_mem s) m'.
Proof.
  intros Hx Ho Hz. destruct (prints_keys _ _ _ Hx) as [[_ W] Hr].
  destruct (W buf (buf + (Z.of_nat (length x) + 1)) s Ho Hz ltac:(lia)) as (m' & R & B & O). exists m'.
  split; [|done]. unfold xbc_snprint_cmdline. rewrite (bind_done _ _ _ _ _ (Hr _ _ _ _ _ R)). kernel_unfold. do 2 f_equal. lia.
Qed.

(** The command line made from a subtree of the boot configuration is complete: the
    first pass over the keys counts exactly what the second pass writes, so the buffer
    has the right size and holds the whole text; the rest of the memory keeps its
    contents.  A key that cannot be composed, an empty subtree and an allocation
    failure give NULL and leave the memory as it was. *)
Theorem make_cmdline_complete s key :
  let root := xbc_find_node key in
  match keys_text root (xbc_keys root) with
  | inl _ => root <> 0 -> xbc_make_cmdline key s = Done 0 s
  | inr x =>
      root <> 0 -> 0 < Z.of_nat (length x) < 2 ^ 31 - 1 -> text x ->
      wp (xbc_make_cmdline key) (fun p s' =>
        if p =? 0 then memblock_find s (Z.of_nat (length x) + 1) = 0 /\ b_mem s' = b_mem s
        else str_at (b_mem s') p x /\ b_mem s ⊆ b_mem s') s
  end.
Proof.
  intros root. unfold xbc_make_cmdline. fold root. pose proof (snprint_count root s) as Hcount.
  destruct (keys_text root (xbc_keys root)) as [e|x] eqn:Hx; intros Hr; (destruct (Z.eqb_spec root 0); [done|]).
  - destruct (print_keys_error _ _ _ Hx) as [[k Hk] _]. destruct (compose_error _ _ _ Hk) as [_ He].
    rewrite (bind_done _ _ _ _ _ Hcount). destruct (Z.leb_spec e 0); [done|lia].
  - intros Hlen Ht. rewrite s32_id in Hcount by (unfold is_s32; lia).
    rewrite wp_bind, (wp_run _ _ _ _ _ Hcount). destruct (Z.leb_spec (Z.of_nat (length x)) 0); [lia|].
    rewrite wp_bind, (wp_run _ _ _ _ _ (memblock_alloc_run _ _)). set (a := memblock_find s _).
    destruct (truthy a) eqn:Ha; [|by apply truthy_false in Ha; rewrite Ha].
    apply truthy_true in Ha. destruct (memblock_fresh s _ a eq_refl Ha) as [Hpos Hfresh].
    destruct (Z.eqb_spec a 0); [done|].
    replace (Z.to_nat (Z.of_nat (length x) + 1)) with (S (length x)) in * by lia.
    set (s1 := s <| b_mem ::= _ |>).
    destruct (snprint_write root x a s1 Hx) as (m' & R & B & O); [apply fresh_owned|apply fresh_zero; lia|].
    rewrite s32_id in R by (unfold is_s32; lia). rewrite wp_bind, (wp_run _ _ _ _ _ R).
    destruct (Z.ltb_spec (Z.of_nat (length x)) 0); [lia|]. rewrite (proj2 (Z.ltb_ge _ _)) by lia. cbn [orb].
    rewrite wp_ret. destruct (Z.eqb_spec a 0); [done|]. split; [done|].
    apply map_subseteq_spec. intros y c Hy. destruct O as [_ F]. cbn. rewrite F.
    + apply (lookup_weaken (b_mem s)); [done|]. apply fresh_sub. by rewrite length_replicate.
    + destruct (decide (y < a \/ a + Z.of_nat (S (length x)) <= y)); [done|].
      specialize (Hfresh (Z.to_nat (y - a)) ltac:(lia)). replace (a + Z.of_nat (Z.to_nat (y - a))) with y in Hfresh by lia. congruence.
Qed.
End Printing.

(** ** The command lines *)
Section CommandLine.
Context `{Memblock} `{!MemblockOk} `{BootConf}.

(** Two new buffers next to the memory [m0] there was before. *)
Record two_buffers (m0 : mem) (a : Z) (n : nat) (b : Z) (k : nat) (m : mem) : Prop := {
  tb_old : m0 ⊆ m;
  tb_first : owned m a n;
  tb_second : owned m b k;
  tb_new x : a <= x < a + Z.of_nat n \/ b <= x < b + Z.of_nat k -> m0 !! x = None;
  tb_apart : apart a n b k;
}.

Definition inside (p : Z) (n : nat) (a : Z) (k : nat) : Prop := a <= p /\ p + Z.of_nat n <= a + Z.of_nat k.

Lemma str_sub m m' p x : m ⊆ m' -> str_at m p x -> str_at m' p x.
Proof. intros Hs [Ht Hb]. split; [done|]. intros i c Hc. eapply lookup_weaken; [by apply Hb|done]. Qed.

Lemma owned_inside m a k p n : owned m a k -> inside p n a k -> owned m p n.
Proof.
  intros Ho [Hlo Hhi] i Hi. specialize (Ho (Z.to_nat (p + Z.of_nat i - a)) ltac:(lia)).
  by replace (a + Z.of_nat (Z.to_nat (p + Z.of_nat i - a))) with (p + Z.of_nat i) in Ho by lia.
Qed.

Lemma buffers_write m0 a n b k m p bs :
  two_buffers m0 a n b k m -> inside p (length bs) a n \/ inside p (length bs) b k ->
  owned m p (length bs) /\ two_buffers m0 a n b k (write_bytes m p bs).
Proof.
  intros [Hold Ha Hb Hnew Hap] Hin.
  assert (owned m p (length bs)) as Ho by (destruct Hin; [by apply (owned_inside m a n)|by apply (owned_inside m b k)]). split; [done|].
  pose proof (write_only_changes _ _ _ Ho) as Hc. split; try done; try (by eapply only_changes_owned).
  apply map_subseteq_spec. intros x c Hx. destruct Hc as [_ F]. rewrite F; [by eapply lookup_weaken|].
  destruct (decide (x < p \/ p + Z.of_nat (length bs) <= x)); [done|]. rewrite Hnew in Hx; [done|].
  unfold inside in Hin. lia.
Qed.

(** What is written behind a text is appended to it. *)
Lemma write_after m a x bs : bytes_at m a x -> bytes_at (write_bytes m (a + Z.of_nat (length x)) bs) a (x ++ bs).
Proof.
  intros Hx. apply bytes_at_app. split; [|apply bytes_at_write]. intros i c Hc.
  rewrite lookup_write_bytes_out; [by apply Hx|]. apply lookup_lt_Some in Hc. lia.
Qed.
Lemma write_elsewhere m p bs q x :
  apart p (length bs) q (length x) -> bytes_at m q x -> bytes_at (write_bytes m p bs) q x.
Proof.
  intros Ha Hx i c Hc. rewrite lookup_write_bytes_out; [by apply Hx|]. apply lookup_lt_Some in Hc. unfold apart in Ha. lia.
Qed.

Lemma strcpy_buffers m0 a n b k s to q x :
  two_buffers m0 a n b k (b_mem s) -> str_at m0 q x ->
  inside to (S (length x)) a n \/ inside to (S (length x)) b k ->
  let m' := write_bytes (b_mem s) to (x ++ [0]) in
  strcpy_at to q s = Done tt (s <| b_mem := m' |>) /\ two_buffers m0 a n b k m'.
Proof.
  intros Htb Hx Hin m'. assert (length (x ++ [0]) = S (length x)) as Hl by (rewrite length_app; cbn; lia).
  destruct (buffers_write _ _ _ _ _ _ to (x ++ [0]) Htb) as [Ho Htb']; [by rewrite Hl|]. split; [|done].
  rewrite Hl in Ho. apply strcpy_at_run; [|done]. eapply str_sub; [apply Htb|done].
Qed.

Definition opt_str (m : mem) (p : Z) (x : list Z) : Prop := (p = 0 /\ x = []) \/ (p <> 0 /\ str_at m p x).

Lemma strlen_or_0_run s p x : opt_str (b_mem s) p x -> strlen_or_0 p s = Done (Z.of_nat (length x)) s.
Proof.
  intros [[-> ->]|[Hp Hx]]; [done|]. unfold strlen_or_0. rewrite (proj2 (truthy_true _) Hp).
  by rewrite (bind_done _ _ _ _ _ (c_string_run _ _ _ Hx)).
Qed.

(** The command line that is saved: the extra line, the boot command line and,
    behind its dashes, the extra arguments for init before the others. *)
Definition saved_text (init offs : Z) (X B I : list Z) : list Z :=
  if init =? 0 then X ++ B
  else if truthy offs then X ++ take (Z.to_nat offs) B ++ I ++ drop (Z.to_nat offs - 1) B
  else X ++ B ++ bytes_of " -- " ++ I.

(** The state after the copies into the first buffer. *)
Definition saved_as (m0 : mem) (a : Z) (n : nat) (b : Z) (k : nat) (x y : list Z) (m : mem) : Prop :=
  two_buffers m0 a n b k m /\ bytes_at m a (x ++ [0]) /\ bytes_at m b y /\ (length y <= k)%nat.

(** A copy into the first buffer that starts within its text. *)
Lemma strcpy_saved m0 a n b k s x y q z i :
  saved_as m0 a n b k x y (b_mem s) -> str_at m0 q z -> (i <= length x)%nat -> (i + length z < n)%nat ->
  exists m', strcpy_at (a + Z.of_nat i) q s = Done tt (s <| b_mem := m' |>) /\
    saved_as m0 a n b k (take i x ++ z) y m'.
Proof.
  intros (Htb & Hx & Hy & Hk) Hz Hi Hn.
  destruct (strcpy_buffers _ _ _ _ _ s (a + Z.of_nat i) q z Htb Hz) as [Hrun Htb']; [left; unfold inside; lia|].
  eexists. split; [exact Hrun|]. split_and!; [done| | |done].
  - rewrite <- app_assoc. replace i with (length (take i x)) at 1 by (rewrite length_take; lia). apply write_after.
    rewrite <- (take_drop i x), <- app_assoc in Hx. by apply bytes_at_app in Hx as [Hx _].
  - apply write_elsewhere; [|done]. rewrite length_app. cbn [length]. pose proof (tb_apart _ _ _ _ _ _ Htb) as Hap. unfold apart in *. lia.
Qed.

Lemma append_init_args_run m0 a n b k s X B I y :
  saved_as m0 a n b k (X ++ B) y (b_mem s) -> saved_command_line s = a ->
  str_at m0 boot_command_line B -> str_at m0 (extra_init_args s) I -> 0 <= initargs_offs s <= Z.of_nat (length B) ->
  extra_init_args s <> 0 -> n = (length X + length B + 1 + (length I + 4))%nat -> text X ->
  exists m', append_init_args (Z.of_nat (length X)) (Z.of_nat (length I) + 4) s = Done tt (s <| b_mem := m' |>) /\
    saved_as m0 a n b k (saved_text (extra_init_args s) (initargs_offs s) X B I) y m'.
Proof.
  intros Hs Ha HB HI Hoffs Hi Hn HX. unfold append_init_args, saved_text. rewrite (proj2 (Z.eqb_neq _ _) Hi).
  rewrite !gets_bind, Ha. destruct (truthy (initargs_offs s)) eqn:Ho.
  - apply truthy_true in Ho. set (o := Z.to_nat (initargs_offs s)).
    assert (initargs_offs s = Z.of_nat o) as Eo by lia. rewrite Eo. cbn zeta.
    destruct (strcpy_saved _ _ _ _ _ s (X ++ B) y _ I (length X + o) Hs HI) as (m1 & R1 & Hs1); [rewrite length_app; lia|lia|].
    replace (a + (Z.of_nat (length X) + Z.of_nat o)) with (a + Z.of_nat (length X + o)) by lia.
    rewrite (bind_done _ _ _ _ _ R1).
    assert (str_at m0 (boot_command_line + Z.of_nat o - 1) (drop (o - 1) B)) as Hd.
    { replace (boot_command_line + Z.of_nat o - 1) with (boot_command_line + Z.of_nat (o - 1)) by lia. apply str_at_drop; [lia|done]. }
    rewrite take_app_add in Hs1. set (x1 := (X ++ take o B) ++ I) in Hs1.
    assert (length x1 = length X + o + length I)%nat as L1 by (unfold x1; rewrite !length_app, length_take; lia).
    pose (s1 := s <| b_mem := m1 |>).
    destruct (strcpy_saved _ _ _ _ _ s1 x1 y _ _ (length x1) Hs1 Hd) as (m2 & R2 & Hs2);
      [lia|rewrite length_drop; lia|].
    exists m2. replace (a + (Z.of_nat (length X) + Z.of_nat o + (Z.of_nat (length I) + 4 - 4))) with (a + Z.of_nat (length x1)) by lia.
    split; [exact R2|]. rewrite firstn_all in Hs2. unfold x1 in Hs2. by rewrite <- !app_assoc in Hs2.
  - assert (str_at (b_mem s) a (X ++ B)) as Hstr.
    { split; [|apply Hs]. apply Forall_app. split; [done|apply HB]. }
    rewrite (bind_done _ _ _ _ _ (c_string_run _ _ _ Hstr)). cbn zeta.
    destruct Hs as (Htb & Hx & Hy & Hk).
    assert (length (bytes_of " -- " ++ [0]) = 5%nat) as L5 by done.
    destruct (buffers_write _ _ _ _ _ _ (a + Z.of_nat (length (X ++ B))) (bytes_of " -- " ++ [0]) Htb) as [Ho1 Htb1].
    { left. rewrite L5, length_app. unfold inside. lia. }
    rewrite (bind_done _ _ _ _ _ (store_at_run _ _ _ Ho1)). set (m1 := write_bytes _ _ _) in *.
    assert (saved_as m0 a n b k ((X ++ B) ++ bytes_of " -- ") y m1) as Hs1.
    { split_and!; [done| | |done].
      - rewrite <- app_assoc. apply write_after. by apply bytes_at_app in Hx as [Hx _].
      - apply write_elsewhere; [|done]. rewrite L5, length_app. pose proof (tb_apart _ _ _ _ _ _ Htb) as Hap. unfold apart in *. lia. }
    pose (s1 := s <| b_mem := m1 |>).
    destruct (strcpy_saved _ _ _ _ _ s1 _ y _ I (length ((X ++ B) ++ bytes_of " -- ")) Hs1 HI) as (m2 & R2 & Hs2);
      [lia|rewrite !length_app; cbn; lia|].
    exists m2. rewrite (length_app (X ++ B)) in R2. cbn [length bytes_of] in R2.
    replace (a + (Z.of_nat (length (X ++ B)) + 4)) with (a + Z.of_nat (length (X ++ B) + 4)) by lia.
    split; [exact R2|]. rewrite firstn_all in Hs2. by rewrite <- !app_assoc in Hs2.
Qed.

(** A copy into the second buffer. *)
Lemma strcpy_static m0 a n b k s x y q z i :
  saved_as m0 a n b k x y (b_mem s) -> str_at m0 q z -> (i <= length y)%nat -> (i + length z < k)%nat -> (length x < n)%nat ->
  exists m', strcpy_at (b + Z.of_nat i) q s = Done tt (s <| b_mem := m' |>) /\
    saved_as m0 a n b k x (take i y ++ z ++ [0]) m'.
Proof.
  intros (Htb & Hx & Hy & Hk) Hz Hi Hlen Hn.
  destruct (strcpy_buffers _ _ _ _ _ s (b + Z.of_nat i) q z Htb Hz) as [Hrun Htb']; [right; unfold inside; lia|].
  eexists. split; [exact Hrun|]. split_and!; [done| | |].
  - apply write_elsewhere; [|done]. rewrite !length_app. cbn [length]. pose proof (tb_apart _ _ _ _ _ _ Htb) as Hap. unfold apart in *. lia.
  - replace i with (length (take i y)) at 1 by (rewrite length_take; lia). apply write_after.
    rewrite <- (take_drop i y) in Hy. by apply bytes_at_app in Hy as [Hy _].
  - rewrite !length_app, length_take. cbn [length]. lia.
Qed.

(** Both buffers as the allocator returns them. *)
Lemma alloc_two s n k m0 a b m1 :
  m0 = b_mem s -> memblock_find s (Z.of_nat n) = a -> a <> 0 -> m1 = write_bytes m0 a (replicate n 0) ->
  (exists s1, b_mem s1 = m1 /\ memblock_find s1 (Z.of_nat k) = b) -> b <> 0 -> (0 < n)%nat -> (0 < k)%nat ->
  saved_as m0 a n b k [] [] (write_bytes m1 b (replicate k 0)).
Proof.
  intros -> Ha Hna -> (s1 & Hm1 & Hb) Hnb Hn Hk. destruct (memblock_fresh s _ _ Ha Hna) as [_ Fa].
  destruct (memblock_fresh s1 _ _ Hb Hnb) as [_ Fb]. rewrite Nat2Z.id in Fa, Fb. rewrite Hm1 in Fb.
  assert (forall x, b <= x < b + Z.of_nat k -> write_bytes (b_mem s) a (replicate n 0) !! x = None) as Fb'.
  { intros x Hx. specialize (Fb (Z.to_nat (x - b)) ltac:(lia)). by replace (b + Z.of_nat (Z.to_nat (x - b))) with x in Fb by lia. }
  assert (b_mem s ⊆ write_bytes (b_mem s) a (replicate n 0)) as Hsub by (apply fresh_sub; by rewrite length_replicate).
  assert (apart a n b k) as Hap.
  { destruct (decide (apart a n b k)) as [|Hn']; [done|]. unfold apart in Hn'.
    specialize (Fb' (Z.max a b) ltac:(lia)). destruct (fresh_owned (b_mem s) a n (Z.to_nat (Z.max a b - a)) ltac:(lia)) as [c Hc].
    replace (a + Z.of_nat (Z.to_nat (Z.max a b - a))) with (Z.max a b) in Hc by lia. congruence. }
  assert (write_bytes (b_mem s) a (replicate n 0) ⊆ write_bytes (write_bytes (b_mem s) a (replicate n 0)) b (replicate k 0)) as Hsub2.
  { apply fresh_sub. intros i Hi. rewrite length_replicate in Hi. apply Fb'. lia. }
  split_and!; [split; [by transitivity (write_bytes (b_mem s) a (replicate n 0))| |apply fresh_owned| |done]| |by intros i c Hc|cbn; lia].
  - intros i Hi. destruct (fresh_owned (b_mem s) a n i Hi) as [c Hc]. exists c. by eapply lookup_weaken.
  - intros x [Hx|Hx].
    + specialize (Fa (Z.to_nat (x - a)) ltac:(lia)). by replace (a + Z.of_nat (Z.to_nat (x - a))) with x in Fa by lia.
    + by eapply lookup_weaken_None; [apply Fb'|].
  - apply bytes_at_cons. split; [|by intros i c Hc]. eapply (lookup_weaken (write_bytes (b_mem s) a (replicate n 0))); [by apply fresh_zero|done].
Qed.

Lemma copy_lines_run m0 a n b k s X B C I cmd :
  let extra := extra_command_line s in let init := extra_init_args s in
  let ilen := if truthy init then (length I + 4)%nat else 0%nat in
  k = (length X + length B + 1)%nat -> n = (k + ilen)%nat ->
  saved_as m0 a n b k [] [] (b_mem s) -> saved_command_line s = a ->
  str_at m0 boot_command_line B -> str_at m0 cmd C -> (length C <= length B)%nat ->
  opt_str m0 extra X -> opt_str m0 init I -> 0 <= initargs_offs s <= Z.of_nat (length B) ->
  let saved := saved_text init (initargs_offs s) X B I in
  exists m', copy_command_lines a b extra (Z.of_nat (length X)) (Z.of_nat ilen) cmd s
    = Done tt (s <| b_mem := m' |> <| saved_command_line_len := u32 (Z.of_nat (length saved)) |>) /\
    m0 ⊆ m' /\ str_at m' b (X ++ C) /\ str_at m' a saved.
Proof.
  intros extra init ilen Hk Hn H0s Ha HB HC HCB HX HI Hoffs saved. unfold copy_command_lines.
  assert (text X) as TX by (destruct HX as [[_ ->]|[_ HX]]; [constructor|apply HX]).
  assert (exists m1, (if truthy (Z.of_nat (length X)) then strcpy_at a extra;; strcpy_at b extra else mret tt) s
    = Done tt (s <| b_mem := m1 |>) /\ exists y, saved_as m0 a n b k X (X ++ y) m1) as (m1 & R1 & y1 & S1).
  { destruct (truthy (Z.of_nat (length X))) eqn:Hx.
    - apply truthy_true in Hx. destruct HX as [[_ ->]|[_ HX]]; [done|].
      destruct (strcpy_saved _ _ _ _ _ s [] [] _ X 0 H0s HX) as (m1 & R1 & S1); [done|lia|].
      pose (s1 := s <| b_mem := m1 |>).
      destruct (strcpy_static _ _ _ _ _ s1 _ [] _ X 0 S1 HX) as (m2 & R2 & S2); [cbn; lia|lia|rewrite take_nil; cbn; lia|].
      rewrite Z.add_0_r in R1, R2. exists m2. split; [|exists [0]; exact S2].
      rewrite (bind_done _ _ _ _ _ R1). exact R2.
    - apply truthy_false in Hx. destruct X; [|done]. exists (b_mem s). split; [by destruct s|]. by exists []. }
  rewrite (bind_done _ _ _ _ _ R1). pose (s1 := s <| b_mem := m1 |>). fold s1.
  destruct (strcpy_saved _ _ _ _ _ s1 X (X ++ y1) _ B (length X) S1 HB) as (m2 & R2 & S2); [lia|lia|].
  rewrite firstn_all in S2. rewrite (bind_done _ _ _ _ _ R2). pose (s2 := s1 <| b_mem := m2 |>). fold s2.
  destruct (strcpy_static _ _ _ _ _ s2 _ (X ++ y1) _ C (length X) S2 HC) as (m3 & R3 & S3);
    [rewrite length_app; lia|lia|rewrite length_app; lia|].
  rewrite take_app_length in S3. rewrite (bind_done _ _ _ _ _ R3). pose (s3 := s2 <| b_mem := m3 |>). fold s3.
  assert (exists m4, (if truthy (Z.of_nat ilen) then append_init_args (Z.of_nat (length X)) (Z.of_nat ilen) else mret tt) s3
    = Done tt (s3 <| b_mem := m4 |>) /\ saved_as m0 a n b k saved (X ++ C ++ [0]) m4) as (m4 & R4 & S4).
  { unfold saved, saved_text. destruct (Z.eqb_spec init 0) as [E|Hne].
    - assert (ilen = 0%nat) as -> by (unfold ilen; by rewrite E). exists m3. done.
    - assert (ilen = (length I + 4)%nat) as -> by (unfold ilen; by rewrite (proj2 (truthy_true _) Hne)).
      rewrite (proj2 (truthy_true _)) by lia. destruct HI as [[? _]|[_ HI]]; [done|].
      destruct (append_init_args_run m0 a n b k s3 X B I _ S3 Ha HB HI Hoffs Hne ltac:(lia) TX) as (m4 & R4 & S4).
      rewrite Nat2Z.inj_add. exists m4. split; [exact R4|]. revert S4. unfold saved_text.
      change (extra_init_args s3) with init. rewrite (proj2 (Z.eqb_neq _ _) Hne). done. }
  rewrite (bind_done _ _ _ _ _ R4). pose (s4 := s3 <| b_mem := m4 |>). fold s4. destruct S4 as (Htb & Hsv & Hst & _).
  assert (text saved) as Tsv.
  { unfold saved, saved_text. assert (text I) by (destruct HI as [[_ ->]|[_ HI]]; [constructor|apply HI]).
    pose proof (proj1 HB) as TB. destruct (init =? 0); [by apply Forall_app|].
    destruct (truthy (initargs_offs s)); repeat (apply Forall_app; split); try done; [by apply Forall_take|by apply Forall_drop|].
    by repeat constructor. }
  assert (str_at m4 a saved) as Hsaved by done. exists m4. split_and!.
  - rewrite (bind_done _ _ _ _ _ (c_string_run s4 _ _ Hsaved)). done.
  - apply Htb.
  - split; [apply Forall_app; split; [done|apply HC]|by rewrite <- app_assoc].
  - done.
Qed.

(** C28: The command lines fit their buffers and have the right contents: with an extra
    line and extra init arguments from the boot configuration or without, and with
    dashes on the boot command line or without, what is kept for parsing is the extra
    line followed by the architecture's command line, what is saved is [saved_text], no
    copy leaves its buffer and the rest of the memory is unchanged.  (The architecture's
    command line must not be longer than the boot command line.) *)
Theorem command_lines_exact s command_line B C X I :
  let extra := extra_command_line s in let init := extra_init_args s in
  str_at (b_mem s) boot_command_line B -> str_at (b_mem s) command_line C -> (length C <= length B)%nat ->
  opt_str (b_mem s) extra X -> opt_str (b_mem s) init I -> 0 <= initargs_offs s <= Z.of_nat (length B) ->
  (forall s n, memblock_find s n <> 0) ->
  wp (setup_command_line command_line) (fun _ s' =>
    let saved := saved_text init (initargs_offs s) X B I in
    b_mem s ⊆ b_mem s' /\ str_at (b_mem s') (static_command_line s') (X ++ C) /\
    str_at (b_mem s') (saved_command_line s') saved /\
    saved_command_line_len s' = u32 (Z.of_nat (length saved))) s.
Proof.
  intros extra init HB HC HCB HX HI Hoffs Halloc. unfold setup_command_line.
  rewrite wp_bind, wp_gets, wp_bind, wp_gets. fold extra init. rewrite wp_bind, (wp_run _ _ _ _ _ (strlen_or_0_run _ _ _ HX)).
  set (ilen := if truthy init then (length I + 4)%nat else 0%nat).
  assert ((n ← strlen_or_0 init; mret (if truthy init then n + 4 else 0)) s = Done (Z.of_nat ilen) s) as Hil.
  { rewrite (bind_done _ _ _ _ _ (strlen_or_0_run _ _ _ HI)). unfold ilen. by destruct (truthy init); [rewrite Nat2Z.inj_add|]. }
  rewrite wp_bind, (wp_run _ _ _ _ _ Hil), wp_bind, (wp_run _ _ _ _ _ (c_string_run _ _ _ HB)). cbn beta zeta.
  set (k := (length X + length B + 1)%nat). set (n := (k + ilen)%nat).
  replace (Z.of_nat (length X) + Z.of_nat (length B) + 1) with (Z.of_nat k) by lia.
  replace (Z.of_nat k + Z.of_nat ilen) with (Z.of_nat n) by lia.
  rewrite wp_bind, (wp_run _ _ _ _ _ (memblock_alloc_run _ _)). set (a := memblock_find s _).
  pose proof (Halloc s (Z.of_nat n)) as Ha. fold a in Ha. rewrite (proj2 (truthy_true _) Ha).
  destruct (Z.eqb_spec a 0) as [?|_]; [done|]. rewrite wp_bind, wp_modify.
  rewrite wp_bind, (wp_run _ _ _ _ _ (memblock_alloc_run _ _)). set (s1 := _ <| saved_command_line := a |>).
  set (b := memblock_find s1 _). pose proof (Halloc s1 (Z.of_nat k)) as Hb. fold b in Hb. rewrite (proj2 (truthy_true _) Hb).
  destruct (Z.eqb_spec b 0) as [?|_]; [done|]. rewrite wp_bind, wp_modify. set (s2 := _ <| static_command_line := b |>).
  assert (b_mem s1 = write_bytes (b_mem s) a (replicate n 0)) as M1 by (unfold s1; cbn; by rewrite Nat2Z.id).
  assert (b_mem s2 = write_bytes (b_mem s1) b (replicate k 0)) as M2 by (unfold s2; cbn; by rewrite !Nat2Z.id).
  assert (saved_as (b_mem s) a n b k [] [] (b_mem s2)) as Hbuf.
  { rewrite M2. eapply (alloc_two s n k); [done|done|done|done|by exists s1|done|lia|lia]. }
  destruct (copy_lines_run (b_mem s) a n b k s2 X B C I command_line) as (m' & R & Hsub & Hst & Hsv); try done.
  by refine (proj2 (wp_run _ _ _ _ _ R) _).
Qed.
End CommandLine.

(** ** The list of unknown options *)
Section Unknown.
Context `{Memblock} `{!MemblockOk} `{BootOptions}.

Definition joined (xs : list (list Z)) : list Z := concat (cons 32 <$> xs).
Definition strings_at (m : mem) (ps : list Z) (xs : list (list Z)) : Prop := Forall2 (fun p x => p <> 0 /\ str_at m p x) ps xs.

Lemma joined_app xs ys : joined (xs ++ ys) = joined xs ++ joined ys.
Proof. unfold joined. by rewrite fmap_app, concat_app. Qed.

Lemma count_strings_run s ps xs rest len :
  strings_at (b_mem s) ps xs ->
  count_strings (ps ++ 0 :: rest) len s = Done (len + Z.of_nat (length (joined xs))) s.
Proof.
  intros Hps. revert len. induction Hps as [|p x ps xs [Hp Hx] Hps IH]; intros len; cbn [app count_strings].
  - cbn. by rewrite Z.add_0_r.
  - destruct (Z.eqb_spec p 0); [done|]. rewrite (bind_done _ _ _ _ _ (c_string_run _ _ _ Hx)), IH. f_equal.
    unfold joined. cbn. rewrite length_app. lia.
Qed.

(** [m] is [m0] with a new buffer. *)
Definition one_buffer (m0 : mem) (a : Z) (n : nat) (m : mem) : Prop :=
  m0 ⊆ m /\ owned m a n /\ (forall x, a <= x < a + Z.of_nat n -> m0 !! x = None) /\
  forall x, ~ (a <= x < a + Z.of_nat n) -> m !! x = m0 !! x.

Lemma buffer_write m0 a n m p bs :
  one_buffer m0 a n m -> inside p (length bs) a n -> owned m p (length bs) /\ one_buffer m0 a n (write_bytes m p bs).
Proof.
  intros (Hsub & Ho & Hnew & Hout) Hin. assert (owned m p (length bs)) as Hp by by eapply owned_inside.
  split; [done|]. pose proof (write_only_changes _ _ _ Hp) as Hc. split_and!; [|by eapply only_changes_owned|done|].
  - apply map_subseteq_spec. intros x c Hx. destruct Hc as [_ F]. rewrite F; [by eapply lookup_weaken|].
    destruct (decide (x < p \/ p + Z.of_nat (length bs) <= x)); [done|]. rewrite Hnew in Hx; [done|]. unfold inside in Hin. lia.
  - intros x Hx. destruct Hc as [_ F]. rewrite F, Hout; [done|done|]. unfold inside in Hin. lia.
Qed.

Lemma print_strings_run m0 a n s ps xs rest done_ :
  one_buffer m0 a n (b_mem s) -> strings_at m0 ps xs -> bytes_at (b_mem s) a done_ ->
  (length done_ + length (joined xs) < n)%nat ->
  exists m', print_strings (ps ++ 0 :: rest) (a + Z.of_nat (length done_)) s
      = Done (a + Z.of_nat (length (done_ ++ joined xs))) (s <| b_mem := m' |>) /\
    one_buffer m0 a n m' /\ bytes_at m' a (done_ ++ joined xs) /\
    (xs <> [] -> bytes_at m' a (done_ ++ joined xs ++ [0])) /\ (xs = [] -> m' = b_mem s).
Proof.
  intros Hb Hps. revert s done_ Hb. induction Hps as [|p x ps xs [Hp Hx] Hps IH]; intros s d Hb Hd Hn; cbn [app print_strings].
  { exists (b_mem s). cbn. rewrite app_nil_r. split_and!; try done. by destruct s. }
  destruct (Z.eqb_spec p 0); [done|].
  assert (joined (x :: xs) = (32 :: x) ++ joined xs) as Ej by done. rewrite Ej, length_app in Hn. cbn [length] in Hn.
  rewrite (bind_done _ _ _ _ _ (c_string_run s _ _ (str_sub _ _ _ _ (proj1 Hb) Hx))).
  assert (length (32 :: x ++ [0]) = S (S (length x))) as L by (cbn; rewrite length_app; cbn; lia).
  destruct (buffer_write _ _ _ _ (a + Z.of_nat (length d)) (32 :: x ++ [0]) Hb) as [Ho Hb1]; [unfold inside; lia|].
  rewrite (bind_done _ _ _ _ _ (store_at_run _ _ _ Ho)). set (m1 := write_bytes _ _ _) in *. pose (s1 := s <| b_mem := m1 |>).
  pose proof (write_after _ _ _ (32 :: x ++ [0]) Hd) as Hd1. fold m1 in Hd1.
  change (32 :: x ++ [0]) with ((32 :: x) ++ [0]) in Hd1. rewrite app_assoc in Hd1.
  destruct (IH s1 (d ++ 32 :: x) Hb1) as (m' & R & Hb' & Hd' & Hz & He);
    [by apply bytes_at_app in Hd1 as [Hd1 _]|rewrite length_app; cbn [length]; lia|].
  replace (a + Z.of_nat (length d) + 1 + Z.of_nat (length x)) with (a + Z.of_nat (length (d ++ 32 :: x)))
    by (rewrite length_app; cbn [length]; lia).
  exists m'. rewrite Ej. rewrite <- !app_assoc in *. split_and!; [exact R|done|exact Hd'| |done].
  intros _. destruct xs as [|y ys].
  - rewrite (He eq_refl). exact Hd1.
  - exact (Hz ltac:(done)).
Qed.

Lemma free_buffer m0 a n m : one_buffer m0 a n m -> forget m a n = m0.
Proof.
  intros (_ & _ & Hnew & Hout). apply map_eq. intros x. rewrite forget_lookup. case_decide as Hx; [symmetry; by apply Hnew|by apply Hout].
Qed.

Lemma alloc_one s n a :
  memblock_find s (Z.of_nat n) = a -> a <> 0 -> one_buffer (b_mem s) a n (write_bytes (b_mem s) a (replicate n 0)).
Proof.
  intros Ha Hne. destruct (memblock_fresh s _ _ Ha Hne) as [_ Hf]. rewrite Nat2Z.id in Hf. split_and!.
  - apply fresh_sub. by rewrite length_replicate.
  - apply fresh_owned.
  - intros x Hx. specialize (Hf (Z.to_nat (x - a)) ltac:(lia)). by replace (a + Z.of_nat (Z.to_nat (x - a))) with x in Hf by lia.
  - intros x Hx. apply lookup_write_bytes_out. rewrite length_replicate. lia.
Qed.

Lemma strings_text m ps xs : strings_at m ps xs -> text (joined xs).
Proof.
  unfold joined. induction 1 as [|p x ps xs [_ [Ht _]] _ IH]; [constructor|]. cbn. constructor; [done|].
  by apply Forall_app.
Qed.

(** Both arrays go to the buffer, with a NUL behind the text. *)
Lemma print_both_run m0 a s ps args ra qs env re :
  let txt := joined (args ++ env) in
  one_buffer m0 a (S (length txt)) (b_mem s) -> strings_at m0 ps args -> strings_at m0 qs env -> args ++ env <> [] ->
  exists m', (fin ← print_strings (ps ++ 0 :: ra) a; print_strings (qs ++ 0 :: re) fin) s
      = Done (a + Z.of_nat (length txt)) (s <| b_mem := m' |>) /\
    one_buffer m0 a (S (length txt)) m' /\ bytes_at m' a (txt ++ [0]).
Proof.
  intros txt Hb Hps Hqs Hne. unfold txt in *. rewrite joined_app, length_app in *.
  destruct (print_strings_run m0 a _ s ps args ra [] Hb Hps) as (m1 & R1 & B1 & D1 & Z1 & E1); [by intros i c Hc|cbn; lia|].
  rewrite Z.add_0_r in R1. rewrite (bind_done _ _ _ _ _ R1). cbn [app] in *. pose (s1 := s <| b_mem := m1 |>).
  destruct (print_strings_run m0 a _ s1 qs env re (joined args) B1 Hqs D1) as (m2 & R2 & B2 & D2 & Z2 & E2); [lia|].
  exists m2. rewrite <- length_app. split_and!; [exact R2|by rewrite length_app|]. rewrite <- app_assoc.
  destruct env as [|y ys]; [|by apply Z2]. rewrite (E2 eq_refl). cbn [app joined]. apply Z1. intros ->. done.
Qed.

Lemma first_slot m ps xs r : strings_at m ps xs ->
  exists p, (ps ++ 0 :: r) !! 0%nat = Some p /\ (p =? 0) = bool_decide (xs = []).
Proof.
  intros [|p x ps' xs' [Hp _] _]; eexists; (split; [done|]); [done|]. by apply Z.eqb_neq in Hp as ->.
Qed.

(** An array of pointers ends behind its strings. *)
Lemma padded_end n ps : (length ps < n)%nat -> exists rest, padded n ps = ps ++ 0 :: rest.
Proof. intros Hn. unfold padded. destruct (n - length ps)%nat as [|k] eqn:E; [lia|]. by exists (replicate k 0). Qed.

(** The events of the notice. *)
Definition notice_events (s : boot) (txt : list Z) : list boot_event :=
  if memblock_find s (1 + Z.of_nat (length txt)) =? 0 then [Printk "print_unknown_bootoptions: Failed to allocate"]
  else [Notice (tail txt)].

Lemma print_unknown_run s a ps args ra dflt qs env re :
  argv_init s = a :: ps ++ 0 :: ra -> strings_at (b_mem s) ps args ->
  envp_init s = dflt ++ qs ++ 0 :: re -> length dflt = 2%nat -> strings_at (b_mem s) qs env -> panic_later s = None ->
  wp print_unknown_bootoptions (fun _ s' => s' = s <| b_trace :=
    (if bool_decide (args ++ env = []) then [] else notice_events s (joined (args ++ env))) ++ b_trace s |>) s.
Proof.
  intros HA Hps HE Ld Hqs Hl. set (txt := joined (args ++ env)). unfold notice_events.
  pose proof (count_strings_run s ps args ra 1 Hps) as C1.
  pose proof (count_strings_run s qs env re (1 + Z.of_nat (length (joined args))) Hqs) as C2.
  destruct (first_slot _ _ _ ra Hps) as (p1 & S1 & Z1). destruct (first_slot _ _ _ re Hqs) as (q1 & S2 & Z2).
  assert (drop 2 (dflt ++ qs ++ 0 :: re) = qs ++ 0 :: re) as Ed by by apply drop_app_length'.
  assert ((dflt ++ qs ++ 0 :: re) !! 2%nat = Some q1) as S2' by (rewrite lookup_app_r, Ld by lia; done).
  unfold print_unknown_bootoptions. rewrite !wp_bind, wp_gets, wp_bind, wp_gets, wp_bind, wp_gets. rewrite HA, HE, Hl.
  unfold slot. change ((a :: ?l) !! 1%nat) with (l !! 0%nat). rewrite S1, S2', Ed. cbn [deref drop].
  rewrite wp_bind, wp_ret. cbn beta. rewrite wp_bind, wp_ret. cbn beta. rewrite bool_decide_false, Z1, Z2 by (intros []; done). cbn [orb].
  assert (bool_decide (args = []) && bool_decide (env = []) = bool_decide (args ++ env = [])) as ->.
  { rewrite <- bool_decide_and. apply bool_decide_ext. by rewrite app_nil. }
  destruct (bool_decide_reflect (args ++ env = [])) as [_|Hne]; [apply wp_ret; by destruct s|].
  rewrite wp_bind, (wp_run _ _ _ _ _ C1), wp_bind, (wp_run _ _ _ _ _ C2).
  replace (1 + Z.of_nat (length (joined args)) + Z.of_nat (length (joined env))) with (Z.of_nat (S (length txt)))
    by (unfold txt; rewrite joined_app, length_app; lia).
  replace (1 + Z.of_nat (length txt)) with (Z.of_nat (S (length txt))) by lia.
  rewrite wp_bind, (wp_run _ _ _ _ _ (memblock_alloc_run _ _)). set (buf := memblock_find s _).
  destruct (truthy buf) eqn:Hbuf; [|apply truthy_false in Hbuf; by rewrite Hbuf].
  apply truthy_true in Hbuf. rewrite (proj2 (Z.eqb_neq _ _) Hbuf), Nat2Z.id. set (s1 := s <| b_mem ::= _ |>).
  destruct (print_both_run (b_mem s) buf s1 ps args ra qs env re) as (m' & R & Hb & Hd); [by apply alloc_one|done|done|done|].
  fold txt in R, Hb, Hd.
  assert (exists t, txt = 32 :: t) as [t Et].
  { unfold txt. destruct (args ++ env) as [|x xs]; [done|]. by eexists. }
  assert (str_at m' (buf + 1) t) as Ht.
  { split; [|rewrite Et in Hd; by apply bytes_at_cons in Hd as [_ Hd]].
    assert (text txt) as T by (unfold txt; rewrite joined_app; apply Forall_app; split; by eapply strings_text).
    rewrite Et in T. by inversion_clear T. }
  unfold mbind at 1, kern_bind at 1 in R. destruct (print_strings (ps ++ 0 :: ra) buf s1) as [fin s2|] eqn:R1; [|done].
  rewrite wp_bind, (wp_run _ _ _ _ _ R1), wp_bind, (wp_run _ _ _ _ _ R).
  pose (s3 := s1 <| b_mem := m' |>). fold s3. rewrite wp_bind, (wp_run _ _ _ _ _ (c_string_run s3 _ _ Ht)).
  unfold emit, memblock_free. rewrite wp_bind, !wp_modify. rewrite Nat2Z.id. apply free_buffer in Hb.
  transitivity (s <| b_trace := [Notice t] ++ b_trace s |> <| b_mem := forget m' buf (S (length txt)) |>); [by rewrite Et|].
  rewrite Hb, Et. by destruct s.
Qed.

(** The notice about unknown options is complete and its buffer exactly large enough:
    the kernel prints the arguments for init and the environment variables beyond the
    two default ones, separated by spaces; nothing is written outside of the buffer, and
    afterwards the memory is as before.  Without unknown options, or if the boot is going
    to fail anyway, nothing is printed. *)
Theorem unknown_options_printed s a ps args dflt qs env :
  argv_init s = a :: padded (S MAX_INIT_ARGS) ps -> strings_at (b_mem s) ps args -> (length ps <= MAX_INIT_ARGS)%nat ->
  envp_init s = padded (S (S MAX_INIT_ENVS)) (dflt ++ qs) -> length dflt = 2%nat -> strings_at (b_mem s) qs env ->
  (length qs + 2 <= S MAX_INIT_ENVS)%nat -> panic_later s = None ->
  let txt := joined (args ++ env) in
  wp print_unknown_bootoptions (fun _ s' => b_mem s' = b_mem s /\
    b_trace s' = (if bool_decide (args ++ env = []) then []
                  else notice_events s txt) ++ b_trace s) s.
Proof.
  intros HA Hps Lp HE Ld Hqs Lq Hl txt.
  destruct (padded_end (S MAX_INIT_ARGS) ps ltac:(lia)) as [ra Ea]. rewrite Ea in HA.
  destruct (padded_end (S (S MAX_INIT_ENVS)) (dflt ++ qs)) as [re Ee]; [rewrite length_app; lia|]. rewrite Ee, <- app_assoc in HE.
  eapply wp_mono; [|exact (print_unknown_run s a ps args ra dflt qs env re HA Hps HE Ld Hqs Hl)]. by intros _ s' ->.
Qed.
End Unknown.
