(* ===== verification/BootParse.v ===== *)
(** Parsing the command line at boot ([init/main.c]): the early options, the three
    passes of [start_kernel] over the command lines, and what the code relies on of
    [parse_args].

    The theorem: whatever is on the command lines, the three passes end without a
    crash, and the arrays for init are in order afterwards ([parsing_is_safe]). *)

From S2P Require Import Prelude CStrings BootState BootArgs BootConfig.

(** Routines of lib/ and kernel/ the early options use, and two constants. *)
Class EarlyEnv := {
  parameq : list Z -> list Z -> bool;                (* kernel/params.c *)
  get_option : list Z -> option Z;                   (* lib/cmdline.c: the number *)
  kstrtobool : list Z -> Z + bool;                   (* lib/kstrtox.c *)
  tmp_cmdline : Z;                                   (* of parse_early_param() *)
  arch_parse_debug_rodata : option (list Z) -> Boot bool;   (* handled by the architecture; the default is not *)
  CONSOLE_LOGLEVEL_DEBUG : Z;
  CONSOLE_LOGLEVEL_QUIET : Z;
}.

Section Parse.
Context `{Memblock} `{BootOptions} `{BootConf} `{EarlyEnv}.

(** ** Early options *)
Definition debug_kernel (str : Z) : Boot Z :=
  modify (fun s => s <| console_loglevel := CONSOLE_LOGLEVEL_DEBUG |>);; mret 0.
Definition quiet_kernel (str : Z) : Boot Z :=
  modify (fun s => s <| console_loglevel := CONSOLE_LOGLEVEL_QUIET |>);; mret 0.

(** Library routines take NULL for a string. *)
Definition opt_string (p : Z) : Boot (option (list Z)) :=
  if truthy p then x ← c_string p; mret (Some x) else mret None.

Definition loglevel (str : Z) : Boot Z :=
  x ← opt_string str;
  match x ≫= get_option with
  | Some newlevel => modify (fun s => s <| console_loglevel := newlevel |>);; mret 0
  | None => mret (- EINVAL)
  end.

Definition early_randomize_kstack_offset (buf : Z) : Boot Z :=
  x ← opt_string buf;
  match (if x is Some x then kstrtobool x else inl (- EINVAL)) with
  | inl ret => mret ret
  | inr b => modify (fun s => s <| randomize_kstack_offset := b |>);; mret 0
  end.

Definition set_debug_rodata (str : Z) : Boot Z :=
  x ← opt_string str;
  handled ← arch_parse_debug_rodata x;
  if (handled : bool) then mret 0
  else
  (if bool_decide (x = Some (bytes_of "on")) then modify (fun s => s <| rodata_enabled := true |>)
   else if bool_decide (x = Some (bytes_of "off")) then modify (fun s => s <| rodata_enabled := false |>)
   else printk "Invalid option string for rodata");;
  mret 0.

(** The loop of [do_early_param] from entry [p] on. *)
Fixpoint early_from (ps : list obs_kernel_param) (param : list Z) (val : Z) : Boot unit :=
  match ps with
  | [] => mret tt
  | p :: ps =>
      (if (p_early p && parameq param (p_str p))
          || (bool_decide (param = bytes_of "console") && bool_decide (p_str p = bytes_of "earlycon"))
       then setup_func ← deref NullDeref (p_setup p);
            r ← setup_func val;
            if truthy r then printk "Malformed early option" else mret tt
       else mret tt);;
      early_from ps param val
  end.
Definition do_early_param (param val : Z) : Boot Z :=
  p ← c_string param;
  early_from setup_table p val;;
  mret 0.

(** [parse_args], noted in the trace. *)
Definition parse_line (doing : string) (args lo hi : Z) (unknown : Z -> Z -> Boot Z) : Boot Z :=
  x ← c_string args;
  emit (Parsing doing x);;
  parse_args doing args lo hi unknown.

Definition parse_early_options (cmdline : Z) : Boot unit :=
  parse_line "early options" cmdline 0 0 do_early_param;; mret tt.

Definition parse_early_param : Boot unit :=
  done_ ← gets early_done;
  if (done_ : bool) then mret tt
  else
  strscpy tmp_cmdline boot_command_line COMMAND_LINE_SIZE;;
  parse_early_options tmp_cmdline;;
  modify (fun s => s <| early_done := true |>).

(** ** The command line for parsing *)
Definition IS_ERR_OR_NULL (p : Z) : bool := (p =? 0) || IS_ERR p.

(** [start_kernel], from [after_dashes = parse_args(...)] to the extra arguments. *)
Definition parse_boot_args : Boot unit :=
  static ← gets static_command_line;
  after_dashes ← parse_line "Booting kernel" static (-1) (-1) unknown_bootoption;
  print_unknown_bootoptions;;
  (if negb (IS_ERR_OR_NULL after_dashes)
   then parse_line "Setting init args" after_dashes (-1) (-1) set_init_arg;; mret tt
   else mret tt);;
  extra ← gets extra_init_args;
  if truthy extra then parse_line "Setting extra init args" extra (-1) (-1) set_init_arg;; mret tt
  else mret tt.
End Parse.

(** ** What [parse_args] does

    It walks over the line from left to right, splits off one option at a time, in
    place, and either sets the parameter of that name (parameters belong to other
    subsystems) or calls the handler.  It stops at an error, or at [--]: then it
    returns the rest of the line. *)
Fixpoint in_order (lo : Z) (ts : list token) (hi : Z) : Prop :=
  match ts with
  | [] => lo <= hi
  | t :: ts => lo <= t_param t /\ in_order (t_param t + Z.of_nat (t_extent t)) ts hi
  end.

(** Where the next option starts. *)
Definition next (ts : list token) (stop : Z) : Z := if ts is t :: _ then t_param t else stop.

(** The line as it was from address [lo] on. *)
Definition same_from (lo hi : Z) (m m' : mem) : Prop := forall x, lo <= x < hi -> m' !! x = m !! x.

Class ParseArgsOk `{BootConf} : Prop :=
  parse_args_ok doing args lo hi h s x :
    0 < args -> str_at (b_mem s) args x ->
    let fin := args + Z.of_nat (length x) + 1 in
    exists ts stop, in_order args ts stop /\ stop <= fin /\
    forall J : list token -> boot -> Prop,
      J ts s ->
      (forall t ts s', J (t :: ts) s' -> same_from (t_param t) fin (b_mem s) (b_mem s')) ->
      (forall t ts s' m, J (t :: ts) s' ->
         only_changes (t_param t) (Z.to_nat (next ts stop - t_param t)) (b_mem s') m -> J ts (s' <| b_mem := m |>)) ->
      (forall t ts s' m, J (t :: ts) s' ->
         only_changes (t_param t) (Z.to_nat (next ts stop - t_param t)) (b_mem s') m -> token_at m t ->
         wp (h (t_param t) (t_val t)) (fun _ s'' => J ts s'') (s' <| b_mem := m |>)) ->
      wp (parse_args doing args lo hi h) (fun r s' => exists ts',
        J ts' s' /\ (r = 0 \/ IS_ERR r = true \/ (r = stop /\ stop < fin))) s.

Section Passes.
Context `{Memblock} `{!MemblockOk} `{BootOptions} `{!BootOptionsOk} `{BootConf} `{!ParseArgsOk}.
Implicit Types (s : boot) (t : token).

Lemma next_bounds lo ts stop : in_order lo ts stop -> lo <= next ts stop <= stop /\ in_order (next ts stop) ts stop.
Proof.
  revert lo. induction ts as [|u ts IH]; intros lo; cbn [in_order next]; [lia|]. intros [Hlo Hin].
  destruct (IH _ Hin). split; [lia|]. split; [lia|done].
Qed.

(** A handler that changes nothing but what an invariant allows. *)
Lemma parse_args_rule doing args lo hi h s x (I : boot -> Prop) :
  0 < args -> str_at (b_mem s) args x -> I s ->
  (forall s m, I s -> only_changes args (S (length x)) (b_mem s) m -> I (s <| b_mem := m |>)) ->
  (forall s t, I s -> token_at (b_mem s) t ->
    wp (h (t_param t) (t_val t)) (fun _ s' => I s' /\ b_mem s' = b_mem s) s) ->
  wp (parse_args doing args lo hi h) (fun _ s' => I s') s.
Proof.
  intros Hpos Hx HI Hmem Hh. destruct (parse_args_ok doing args lo hi h s x Hpos Hx) as (ts & stop & Hord & Hstop & Hrule).
  set (fin := args + _ + 1) in *.
  set (J := fun ts s' => I s' /\ same_from (next ts stop) fin (b_mem s) (b_mem s') /\ in_order (next ts stop) ts stop /\ args <= next ts stop).
  assert (forall t ts s' m, J (t :: ts) s' -> only_changes (t_param t) (Z.to_nat (next ts stop - t_param t)) (b_mem s') m ->
    J ts (s' <| b_mem := m |>)) as Hstep.
  { intros t ts' s' m (HI' & Hsame & [Hlo Hin] & Ha) Hc. cbn [next] in *.
    destruct (next_bounds _ _ _ Hin) as [Hn Hin'].
    split_and!.
    - apply Hmem; [done|]. eapply only_changes_mono; [done|lia|unfold fin in *; lia].
    - intros y Hy. destruct Hc as [_ F]. cbn. rewrite F by lia. apply Hsame. lia.
    - done.
    - lia. }
  eapply wp_mono; [|apply (Hrule J)]; [by intros r s' (ts' & [? _] & _)| |by intros t ts' s' (_ & ? & _)|done|].
  - destruct (next_bounds _ _ _ Hord). split_and!; [done|done|done|lia].
  - intros t ts' s' m HJ Hc Ht. pose proof (Hstep _ _ _ _ HJ Hc) as (HI1 & Hs1 & Ho1 & Ha1).
    eapply wp_mono; [|apply Hh; [exact HI1|exact Ht]]. intros r s2 [HI2 Hm2]. split_and!; [done| |done|done].
    by rewrite Hm2.
Qed.

(** ** Regions of memory the arrays stay out of *)
Definition gap (a n : Z) : token := mkToken a (replicate (Z.to_nat (n - 1)) 0) None.
Definition region (lo hi : Z) : list token := if decide (lo < hi) then [gap lo (hi - lo)] else [].

Lemma gap_extent a n : 0 < n -> Z.of_nat (t_extent (gap a n)) = n.
Proof. intros Hn. unfold t_extent, gap. cbn [t_name t_value]. rewrite length_replicate. lia. Qed.

Definition within (u : token) (ts : list token) : Prop :=
  Exists (fun t => inside (t_param u) (t_extent u) (t_param t) (t_extent t)) ts.

Lemma arrays_weaken ts us s : arrays_inv ts s -> Forall (fun u => within u ts) us -> tokens_apart us -> arrays_inv us s.
Proof.
  intros [La Le Hl He _] Hw Hap. split; try done. eapply Forall_impl; [exact He|].
  intros p [->|(x & Hp & Hx & Ha)]; [by left|]. right. exists x. split_and!; [done|done|].
  eapply Forall_impl; [exact Hw|]. intros u Hu. apply Exists_exists in Hu as (t & Ht & Hin).
  rewrite Forall_forall in Ha. specialize (Ha t Ht). unfold apart, inside in *. lia.
Qed.

Lemma arrays_kept t ts s m :
  arrays_inv (t :: ts) s -> kept_outside (t_param t) (t_extent t) (b_mem s) m -> arrays_inv (t :: ts) (s <| b_mem := m |>).
Proof.
  intros [La Le Hl He Hap] Hk. split; try done. eapply Forall_impl; [exact He|].
  intros p [->|(x & Hp & Hx & Ha)]; [by left|]. right. exists x. split_and!; [done| |done].
  eapply kept_string; [exact Hk|by apply Forall_inv in Ha|done].
Qed.

(** Strings outside of the line that is parsed. *)
Definition spans (E : list (Z * list Z)) : list token := (fun e => gap e.1 (Z.of_nat (length e.2) + 1)) <$> E.
Definition strings (E : list (Z * list Z)) (m : mem) : Prop := Forall (fun e => str_at m e.1 e.2) E.

Lemma strings_kept t E m m' :
  tokens_apart (t :: spans E) -> kept_outside (t_param t) (t_extent t) m m' -> strings E m -> strings E m'.
Proof.
  intros [Ha _] Hk Hs. unfold spans in Ha. rewrite Forall_fmap in Ha. apply Forall_forall. intros [p y] Hin.
  rewrite Forall_forall in Ha. unfold strings in Hs. rewrite Forall_forall in Hs. specialize (Ha _ Hin). specialize (Hs _ Hin).
  unfold compose in Ha. cbn [fst snd] in *. eapply kept_string; [exact Hk| |done].
  pose proof (gap_extent p (Z.of_nat (length y) + 1) ltac:(lia)). unfold apart in *. cbn [t_param gap] in Ha. lia.
Qed.

Lemma kept_same p n lo hi m0 m m' :
  same_from lo hi m0 m -> kept_outside p n m m' -> p + Z.of_nat n <= lo -> (forall x, lo <= x < hi -> is_Some (m0 !! x)) ->
  same_from lo hi m0 m'.
Proof.
  intros Hs Hk Hp Ho x Hx. destruct (Ho x Hx) as [c Hc]. rewrite Hc. apply Hk; [lia|]. by rewrite Hs.
Qed.

Definition handler_ok (h : Z -> Z -> Boot Z) : Prop := forall t ts s,
  arrays_inv (t :: ts) s -> token_at (b_mem s) t ->
  wp (h (t_param t) (t_val t)) (fun r s' =>
    (r = 0 /\ extra_init_args s' = extra_init_args s) /\
    kept_outside (t_param t) (t_extent t) (b_mem s) (b_mem s') /\ arrays_inv ts s') s.

Definition part_of (G u : token) : Prop := inside (t_param u) (t_extent u) (t_param G) (t_extent G).

Lemma apart_parts G us E : tokens_apart (G :: E) -> Forall (part_of G) us -> tokens_apart us -> tokens_apart (us ++ E).
Proof.
  intros [Ha HE] Hp. induction us as [|u us IH]; [done|]. inversion_clear Hp as [|?? Hu Hus]. intros [Hu1 Hu2]. split; [|by apply IH].
  apply Forall_app. split; [done|]. eapply Forall_impl; [exact Ha|]. intros e He. unfold apart, part_of, inside in *. lia.
Qed.

(** A region may be split into disjoint parts. *)
Lemma arrays_refine G us E s : arrays_inv (G :: E) s -> Forall (part_of G) us -> tokens_apart us -> arrays_inv (us ++ E) s.
Proof.
  intros Ha Hp Hap. eapply arrays_weaken; [exact Ha| |by eapply apart_parts; [apply Ha|..]]. apply Forall_app. split.
  - eapply Forall_impl; [exact Hp|]. intros u Hu. by left.
  - apply Forall_forall. intros e He. right. apply Exists_exists. exists e. split; [done|]. unfold inside. lia.
Qed.

Lemma region_part lo hi a b : a <= lo -> hi <= b -> Forall (part_of (gap a (b - a))) (region lo hi).
Proof.
  intros Hlo Hhi. unfold region. case_decide; [|constructor]. constructor; [|constructor].
  unfold part_of, inside. rewrite !gap_extent by lia. cbn [t_param gap]. lia.
Qed.

Lemma region_apart lo hi : tokens_apart (region lo hi).
Proof. unfold region. case_decide; [|done]. by split. Qed.

Lemma token_region t nx lo hi :
  lo <= t_param t -> t_param t + Z.of_nat (t_extent t) <= nx -> nx <= hi ->
  Forall (part_of (gap lo (hi - lo))) (t :: region nx hi) /\ tokens_apart (t :: region nx hi).
Proof.
  intros Hlo Hnx Hhi. assert (0 < Z.of_nat (t_extent t)) by (unfold t_extent; lia). split.
  - constructor; [|by apply region_part; lia]. unfold part_of, inside. rewrite gap_extent by lia. cbn [t_param gap]. lia.
  - split; [|apply region_apart]. unfold region. case_decide; [|constructor]. constructor; [|constructor].
    unfold apart. cbn [t_param gap]. lia.
Qed.

(** Between two options of a line that ends at [hi]. *)
Record passing (m0 : mem) (x0 : Z) (E : list (Z * list Z)) (stop hi : Z) (ts : list token) (s : boot) : Prop := {
  pa_arrays : arrays_inv (region (next ts stop) hi ++ spans E) s;
  pa_same : same_from (next ts stop) hi m0 (b_mem s);
  pa_strings : strings E (b_mem s);
  pa_extra : extra_init_args s = x0;
  pa_order : in_order (next ts stop) ts stop;
}.

(** The parser splits off an option. *)
Lemma passing_split m0 x0 E stop hi t ts s m :
  passing m0 x0 E stop hi (t :: ts) s -> stop <= hi -> (forall x, t_param t <= x < hi -> is_Some (m0 !! x)) ->
  only_changes (t_param t) (Z.to_nat (next ts stop - t_param t)) (b_mem s) m ->
  arrays_inv (t :: region (next ts stop) hi ++ spans E) (s <| b_mem := m |>) /\ passing m0 x0 E stop hi ts (s <| b_mem := m |>).
Proof.
  intros [Ha Hs Hst Hx [_ Ho]] Hhi Hm0 Hc. cbn [next] in *. destruct (next_bounds _ _ _ Ho) as [Hn Ho'].
  set (nx := next ts stop) in *. assert (0 < Z.of_nat (t_extent t)) by (unfold t_extent; lia).
  unfold region in Ha at 1. rewrite decide_True in Ha by lia. cbn [app] in Ha. set (G := gap (t_param t) (hi - t_param t)) in Ha.
  assert (kept_outside (t_param G) (t_extent G) (b_mem s) m) as Hk.
  { eapply kept_mono; [by apply changes_kept|cbn; lia|]. unfold G. rewrite gap_extent by lia. cbn [t_param gap]. lia. }
  pose proof (arrays_kept _ _ _ _ Ha Hk) as Ha1. destruct (token_region t nx (t_param t) hi) as [Hp Hap]; [lia|lia|lia|].
  split; [exact (arrays_refine _ _ _ _ Ha1 Hp Hap)|]. split; [| | |done|done].
  - eapply arrays_refine; [exact Ha1|apply region_part; lia|apply region_apart].
  - eapply (kept_same (t_param t) (Z.to_nat (nx - t_param t))); [|by apply changes_kept|lia|intros; apply Hm0; lia].
    intros y Hy. apply Hs. lia.
  - eapply strings_kept; [apply Ha|exact Hk|done].
Qed.

Lemma apart_tail us E : tokens_apart (us ++ E) -> tokens_apart E.
Proof. induction us as [|u us IH]; [done|]. intros Hap. apply IH, Hap. Qed.
Lemma arrays_tail us E s : arrays_inv (us ++ E) s -> arrays_inv E s.
Proof.
  intros Ha. eapply arrays_weaken; [exact Ha| |].
  - apply Forall_forall. intros e He. apply Exists_exists. exists e. split; [set_solver|]. unfold inside. lia.
  - eapply apart_tail, Ha.
Qed.

Lemma same_string lo hi m m' p y :
  same_from lo hi m m' -> lo <= p -> p + Z.of_nat (length y) < hi -> str_at m p y -> str_at m' p y.
Proof.
  intros Hs Hlo Hhi [Ht Hb]. split; [done|]. intros i c Hc. rewrite Hs; [by apply Hb|].
  apply lookup_lt_Some in Hc. rewrite length_app in Hc. cbn in Hc. lia.
Qed.

Lemma line_owned m p x y : str_at m p x -> p <= y < p + Z.of_nat (length x) + 1 -> is_Some (m !! y).
Proof.
  intros Hx Hy. specialize (str_owned _ _ _ Hx (Z.to_nat (y - p)) ltac:(lia)).
  by replace (p + Z.of_nat (Z.to_nat (y - p))) with y by lia.
Qed.

Lemma arrays_traced ts s e : arrays_inv ts s -> arrays_inv ts (s <| b_trace ::= cons e |>).
Proof. intros []. by split. Qed.

(** The handler did its work. *)
Lemma passing_handled m0 x0 E stop hi t ts s s' :
  arrays_inv (t :: region (next ts stop) hi ++ spans E) s -> passing m0 x0 E stop hi ts s ->
  t_param t + Z.of_nat (t_extent t) <= next ts stop -> (forall x, next ts stop <= x < hi -> is_Some (m0 !! x)) ->
  extra_init_args s' = extra_init_args s -> kept_outside (t_param t) (t_extent t) (b_mem s) (b_mem s') ->
  arrays_inv (region (next ts stop) hi ++ spans E) s' -> passing m0 x0 E stop hi ts s'.
Proof.
  intros Ha [_ Hs HE Hx Ho] Hn Hm Hx' Hk Ha'. split; [done| | |congruence|done].
  - by eapply kept_same.
  - eapply strings_kept; [|exact Hk|exact HE]. destruct Ha as [_ _ _ _ [Hap1 Hap2]].
    apply Forall_app in Hap1 as [_ Hap1]. split; [done|]. by eapply apart_tail.
Qed.

(** What is left when the pass stops at [--]. *)
Lemma passing_rest m0 x0 E stop hi ts s args x :
  passing m0 x0 E stop hi ts s -> str_at m0 args x -> hi = args + Z.of_nat (length x) + 1 -> args <= stop < hi ->
  exists y, str_at (b_mem s) stop y /\ arrays_inv (spans ((stop, y) :: E)) s.
Proof.
  intros [Ha Hs _ _ Ho] Hx Hhi Hstop. destruct (next_bounds _ _ _ Ho) as [Hn _]. exists (drop (Z.to_nat (stop - args)) x).
  assert (length (drop (Z.to_nat (stop - args)) x) = Z.to_nat (hi - stop - 1)) as Hlen by (rewrite length_drop; lia). split.
  - eapply same_string; [exact Hs|lia|lia|].
    replace stop with (args + Z.of_nat (Z.to_nat (stop - args))) at 1 by lia. apply str_at_drop; [lia|done].
  - unfold region in Ha. rewrite decide_True in Ha by lia. cbn [spans fmap list_fmap fst snd]. rewrite Hlen.
    replace (Z.of_nat (Z.to_nat (hi - stop - 1)) + 1) with (hi - stop) by lia.
    eapply (arrays_refine _ [gap stop (hi - stop)]); [exact Ha| |by split].
    pose proof (region_part stop hi (next ts stop) hi ltac:(lia) ltac:(lia)) as Hrp. unfold region in Hrp. by rewrite decide_True in Hrp by lia.
Qed.

(** One pass over a command line. *)
Lemma pass_spec h doing args lo hi x E s :
  handler_ok h -> 0 < args -> str_at (b_mem s) args x -> strings E (b_mem s) -> arrays_inv (spans ((args, x) :: E)) s ->
  wp (parse_line doing args lo hi h) (fun r s' =>
    extra_init_args s' = extra_init_args s /\ strings E (b_mem s') /\ arrays_inv (spans E) s' /\
    (r = 0 \/ IS_ERR r = true \/ exists y, 0 < r /\ str_at (b_mem s') r y /\ arrays_inv (spans ((r, y) :: E)) s')) s.
Proof.
  intros Hh Hpos Hx HE Ha. unfold parse_line, emit. rewrite wp_bind, (wp_run _ _ _ _ _ (c_string_run _ _ _ Hx)), wp_bind, wp_modify.
  apply (arrays_traced _ _ (Parsing doing x)) in Ha. set (s1 := s <| b_trace ::= _ |>) in *.
  change (extra_init_args s) with (extra_init_args s1). change (str_at (b_mem s1) args x) in Hx. change (strings E (b_mem s1)) in HE. clearbody s1.
  destruct (parse_args_ok doing args lo hi h s1 x Hpos Hx) as (ts & stop & Hord & Hstop & Hrule).
  set (fin := args + Z.of_nat (length x) + 1) in *. destruct (next_bounds _ _ _ Hord) as [Hn Hord'].
  assert (forall y, args <= y < fin -> is_Some (b_mem s1 !! y)) as Hown by (intros; by eapply line_owned).
  set (J := fun ts s' => passing (b_mem s1) (extra_init_args s1) E stop fin ts s' /\ args <= next ts stop).
  cbn [spans fmap list_fmap fst snd] in Ha. replace (Z.of_nat (length x) + 1) with (fin - args) in Ha by (unfold fin; lia).
  assert (J ts s1) as HJ.
  { split; [|lia]. split; [|done|done|done|done]. eapply arrays_refine; [exact Ha|apply region_part; lia|apply region_apart]. }
  eapply wp_mono; [|apply (Hrule J HJ)]; [|by intros t ts' s' [[] _]| |].
  - intros r s' (ts' & [Hp _] & Hr). pose proof Hp as [Ha' _ HE' Hx' _].
    split_and!; [done|done|by eapply arrays_tail|]. destruct Hr as [->|[He|[-> Hlt]]]; [by left|by right; left|]. right. right.
    destruct (passing_rest _ _ _ _ _ _ _ args x Hp Hx eq_refl) as (y & Hy & Hay); [lia|]. exists y. split_and!; [lia|done|done].
  - intros t ts' s' m [Hp Hlo'] Hc. cbn [next] in Hlo'.
    destruct (passing_split _ _ _ _ _ t ts' s' m Hp Hstop) as [_ Hp']; [intros; apply Hown; lia|done|].
    split; [done|]. destruct Hp as [_ _ _ _ [_ Ho]]. pose proof (next_bounds _ _ _ Ho). lia.
  - intros t ts' s' m [Hp Hlo'] Hc Ht. cbn [next] in Hlo'.
    destruct (passing_split _ _ _ _ _ t ts' s' m Hp Hstop) as [Ha' Hp']; [intros; apply Hown; lia|done|].
    destruct Hp as [_ _ _ _ [_ Ho]]. destruct (next_bounds _ _ _ Ho) as [Hn2 _].
    eapply wp_mono; [|apply (Hh _ _ _ Ha'); exact Ht]. intros r s2 ([_ X2] & K2 & A2). split; [|lia].
    eapply passing_handled; [exact Ha'|exact Hp'|lia|intros; apply Hown; lia|done|done|done].
Qed.

(** The strings of an array, up to its first NULL. *)
Lemma strings_prefix ts m l k :
  l !! k = Some 0 -> Forall (entry ts m) l -> exists ps xs rest, l = ps ++ 0 :: rest /\ strings_at m ps xs.
Proof.
  intros Hk Hl. revert k Hk. induction Hl as [|p l Hp Hl IH]; intros k Hk; [done|].
  destruct Hp as [->|(x & Hpos & Hx & _)]; [by exists [], [], l; split; [|constructor]|].
  destruct k as [|k]; [cbn in Hk; injection Hk as ->; lia|]. destruct (IH k Hk) as (ps & xs & rest & -> & Hps).
  exists (p :: ps), (x :: xs), rest. split; [done|]. constructor; [|done]. split; [lia|done].
Qed.

Lemma print_unknown_safe E s : arrays_inv E s ->
  wp print_unknown_bootoptions (fun _ s' => exists es, s' = s <| b_trace := es ++ b_trace s |>) s.
Proof.
  intros [La Le Hl He _]. pose proof limit_ok as Hlim. apply Forall_app in He as [HA HE].
  destruct (argv_init s) as [|a [|a1 argv]] eqn:EA; cbn [length] in La; [lia|lia|].
  destruct (envp_init s) as [|e0 [|e1 [|e2 envp]]] eqn:EE; cbn [length] in Le; [lia|lia|lia|].
  destruct (panic_later s) eqn:Hlate.
  - unfold print_unknown_bootoptions. rewrite wp_bind, wp_gets, wp_bind, wp_gets, wp_bind, wp_gets, EA, EE, Hlate.
    unfold slot. rewrite wp_bind, wp_deref. exists a1. split; [done|]. rewrite wp_bind, wp_deref. exists e2. split; [done|].
    rewrite bool_decide_true by done. cbn [orb]. rewrite wp_ret. exists []. by destruct s.
  - destruct (Hl eq_refl) as [Za Ze]. destruct (INIT_ENV_ARG_LIMIT) as [|n] eqn:En; [lia|].
    destruct (strings_prefix E (b_mem s) (a1 :: argv) (S n)) as (ps & args & ra & Eps & Hps); [done|by inversion_clear HA|].
    destruct (strings_prefix E (b_mem s) (e2 :: envp) n) as (qs & env & re & Eqs & Hqs); [done| |].
    { inversion_clear HE as [|?? _ HE1]. by inversion_clear HE1. }
    eapply wp_mono; [|apply (print_unknown_run s a ps args ra [e0; e1] qs env re); try done; rewrite ?EA, ?EE, ?Eps, ?Eqs; done].
    intros _ s' ->. by eexists.
Qed.

(** C10: Parsing the command lines is safe: whatever options, in whatever number, are
    on the kernel's command line, behind its dashes and among the extra arguments for
    init, the passes of [start_kernel] over them end, access no memory outside of the
    lines and the arrays, and leave the two arrays for init in order: strings, then
    NULL, unless a panic is announced. *)
Theorem parsing_is_safe s L X :
  let E := if truthy (extra_init_args s) then [(extra_init_args s, X)] else [] in
  0 < static_command_line s -> 0 <= extra_init_args s -> str_at (b_mem s) (static_command_line s) L ->
  strings E (b_mem s) -> arrays_inv (spans ((static_command_line s, L) :: E)) s ->
  wp parse_boot_args (fun _ s' => boot_inv [] s') s.
Proof.
  intros E Hpos Hex HL HE Ha. unfold parse_boot_args. rewrite wp_bind, wp_gets, wp_bind.
  eapply wp_mono; [|apply (pass_spec unknown_bootoption _ _ _ _ L E); [exact unknown_arrays|done|exact HL|exact HE|exact Ha]].
  intros r s1 (X1 & E1 & A1 & R1). rewrite wp_bind. eapply wp_mono; [|exact (print_unknown_safe _ _ A1)].
  intros _ s2 [es ->]. rewrite wp_bind. set (s2 := s1 <| b_trace := _ |>).
  assert (forall ts, arrays_inv ts s1 -> arrays_inv ts s2) as Htr by (intros ts []; by split).
  assert (wp (if negb (IS_ERR_OR_NULL r) then parse_line "Setting init args" r (-1) (-1) set_init_arg;; mret tt else mret tt)
    (fun _ s3 => extra_init_args s3 = extra_init_args s /\ strings E (b_mem s3) /\ arrays_inv (spans E) s3) s2) as Hinit.
  { unfold IS_ERR_OR_NULL. destruct R1 as [->|[He|(y & Hr & Hy & Ay)]]; [by apply Htr in A1|rewrite He, orb_true_r; by apply Htr in A1|].
    destruct ((r =? 0) || IS_ERR r); [by apply Htr in A1|]. cbn [negb]. rewrite wp_bind.
    eapply wp_mono; [|apply (pass_spec set_init_arg _ _ _ _ y E); [exact set_init_arrays|exact Hr|exact Hy|exact E1|by apply Htr]].
    intros _ s3 (X3 & E3 & A3 & _). rewrite wp_ret. split_and!; [|done|done]. rewrite X3. exact X1. }
  eapply wp_mono; [|exact Hinit]. intros _ s3 (X3 & E3 & A3). rewrite wp_bind, wp_gets, X3. unfold E in *. clear E.
  assert (forall s4, arrays_inv [] s4 -> boot_inv [] s4) as Hdone by (intros s4 Hs4; by apply boot_inv_split).
  destruct (truthy (extra_init_args s)) eqn:Ht; [|by apply Hdone].
  apply truthy_true in Ht. rewrite wp_bind.
  eapply wp_mono; [|apply (pass_spec set_init_arg _ _ _ _ X []); [exact set_init_arrays|lia|by apply Forall_inv in E3|constructor|exact A3]].
  intros _ s4 (_ & _ & A4 & _). rewrite wp_ret. by apply Hdone.
Qed.
End Passes.
