(* ===== verification/Initcalls.v ===== *)
(** Initcalls ([init/main.c]): the blacklist, the call of one initcall and the
    levels in which they run.

    The theorems: an initcall is skipped exactly when its name is on the
    comma-separated list of [initcall_blacklist=] ([blacklist_exact]); all others run
    once, level by level and in order, each level with the unmodified command line,
    and whatever an initcall does to the preemption count and the interrupts is undone
    before the next one ([initcalls_run_in_order]). *)

From S2P Require Import Prelude CStrings BootState BootArgs BootConfig BootParse.

Class InitEnv := {
  symbol_name : Z -> list Z;             (* sprint_symbol_no_offset() of a function *)
  initcall : Z -> Boot Z;
  early_initcalls : list Z;              (* __initcall_start .. __initcall0_start *)
  initcalls_at : nat -> list Z;          (* between __initcall<n>_start and the next *)
  kzalloc_find : boot -> Z -> Z;         (* kzalloc(): the address, or NULL *)
}.

Section Initcalls.
Context `{Memblock} `{BootConf} `{InitEnv}.

(** ** The blacklist *)

(** The position of the first comma. *)
Fixpoint comma (x : list Z) : option nat :=
  match x with
  | [] => None
  | c :: x => if c =? 44 then Some O else S <$> comma x
  end.

(** [strsep(&str, ",")]: the entry, and the new [str]. *)
Definition strsep (str : Z) : Boot (Z * Z) :=
  if str =? 0 then mret (0, 0)
  else
  x ← c_string str;
  match comma x with
  | None => mret (str, 0)
  | Some i => store_at (str + Z.of_nat i) [0];; mret (str, str + Z.of_nat i + 1)
  end.

Definition sizeof_blacklist_entry : Z := 24.

(** An entry is copied to new memory. *)
Definition add_entry (q : Z) : Boot unit :=
  entry ← memblock_alloc sizeof_blacklist_entry;
  if entry =? 0 then panic
  else
  x ← c_string q;
  buf ← memblock_alloc (Z.of_nat (length x) + 1);
  if buf =? 0 then panic
  else
  strcpy_at buf q;;
  modify (fun s => s <| blacklisted_initcalls ::= cons buf |>).

Fixpoint blacklist_from (fuel : nat) (str : Z) : Boot unit :=
  '(str_entry, str) ← strsep str;
  if str_entry =? 0 then mret tt
  else
  add_entry str_entry;;
  match fuel with
  | O => crashed OutOfFuel
  | S fuel => blacklist_from fuel str
  end.

(** Every turn of the loop but the last takes a comma, so there are at most as many
    as the string has bytes, and one more. *)
Definition initcall_blacklist (str : Z) : Boot Z :=
  x ← c_string str;
  blacklist_from (S (length x)) str;;
  mret 1.

(** [strreplace(fn_name, ' ', '\0')] ends the string at the first space. *)
Fixpoint before_space (x : list Z) : list Z :=
  match x with
  | [] => []
  | c :: x => if c =? 32 then [] else c :: before_space x
  end.

Fixpoint on_blacklist (name : list Z) (bufs : list Z) : Boot bool :=
  match bufs with
  | [] => mret false
  | buf :: bufs => x ← c_string buf; if bool_decide (name = x) then mret true else on_blacklist name bufs
  end.

Definition initcall_blacklisted (fn : Z) : Boot bool :=
  bufs ← gets blacklisted_initcalls;
  on_blacklist (before_space (symbol_name fn)) bufs.

(** ** Running initcalls *)

(** In the trace: the call, with the preemption count and the interrupts it finds. *)
Definition note_initcall (fn : Z) : Boot unit :=
  count ← gets preempt_count;
  off ← gets irqs_disabled;
  emit (InitCall fn count off).

Definition do_one_initcall (fn : Z) : Boot Z :=
  count ← gets preempt_count;
  black ← initcall_blacklisted fn;
  if (black : bool) then mret (- EPERM)
  else
  note_initcall fn;;
  ret ← initcall fn;
  count' ← gets preempt_count;
  msgbuf ← (if negb (count' =? count) then
              modify (fun s => s <| preempt_count := count |>);; mret "preemption imbalance "%string
            else mret ""%string);
  off ← gets irqs_disabled;
  msgbuf ← (if (off : bool) then
              modify (fun s => s <| irqs_disabled := false |>);; mret (msgbuf +:+ "disabled interrupts "%string)
            else mret msgbuf);
  (if bool_decide (msgbuf = ""%string) then mret tt else emit (InitWarn fn msgbuf));;
  mret ret.

Fixpoint run_initcalls (fns : list Z) : Boot unit :=
  match fns with
  | [] => mret tt
  | fn :: fns => do_one_initcall fn;; run_initcalls fns
  end.

Definition initcall_level_names : list string :=
  ["pure"; "core"; "postcore"; "arch"; "subsys"; "fs"; "device"; "late"]%string.

Definition ignore_unknown_bootoption (param val : Z) : Boot Z := mret 0.

Definition do_initcall_level (level : nat) (command_line : Z) : Boot unit :=
  name ← deref OutOfBounds (initcall_level_names !! level);
  parse_line name command_line (Z.of_nat level) (Z.of_nat level) ignore_unknown_bootoption;;
  emit (InitLevel name);;
  run_initcalls (initcalls_at level).

(** The loop over the levels that are left. *)
Fixpoint initcall_levels_from (levels : list nat) (command_line : Z) : Boot unit :=
  match levels with
  | [] => mret tt
  | level :: levels =>
      saved ← gets saved_command_line;
      strcpy_at command_line saved;;
      do_initcall_level level command_line;;
      initcall_levels_from levels command_line
  end.

Definition do_initcalls : Boot unit :=
  saved_len ← gets saved_command_line_len;
  let len := u32 (saved_len + 1) in                                   (* unsigned int *)
  command_line ← gets (fun s => kzalloc_find s len);
  if command_line =? 0 then panic
  else
  modify (fun s => s <| b_mem ::= fun m => write_bytes m command_line (replicate (Z.to_nat len) 0) |>);;
  initcall_levels_from (seq 0 (length initcall_level_names)) command_line;;
  memblock_free command_line len.                                     (* kfree *)

Definition do_pre_smp_initcalls : Boot unit :=
  emit (InitLevel "early");;
  run_initcalls early_initcalls.
End Initcalls.

Lemma on_blacklist_run s name bufs ys :
  Forall2 (str_at (b_mem s)) bufs ys -> on_blacklist name bufs s = Done (bool_decide (name ∈ ys)) s.
Proof.
  induction 1 as [|b y bufs ys Hb _ IH]; cbn [on_blacklist]; [by rewrite bool_decide_false by set_solver|].
  rewrite (bind_done _ _ _ _ _ (c_string_run _ _ _ Hb)). destruct (bool_decide_reflect (name = y)) as [->|E].
  - by rewrite bool_decide_true by set_solver.
  - rewrite IH. f_equal. apply bool_decide_ext. set_solver.
Qed.

Section Blacklist.
Context `{Memblock} `{!MemblockOk} `{InitEnv}.

(** The entries of a comma-separated list. *)
Fixpoint split_commas (x : list Z) : list (list Z) :=
  match x with
  | [] => [[]]
  | c :: x => if c =? 44 then [] :: split_commas x
              else match split_commas x with
                   | [] => [[c]]
                   | w :: ws => (c :: w) :: ws
                   end
  end.

Lemma split_step x :
  split_commas x = match comma x with None => [x] | Some i => take i x :: split_commas (drop (S i) x) end.
Proof.
  induction x as [|c x IH]; [done|]. cbn [split_commas comma]. destruct (c =? 44); [done|].
  rewrite IH. by destruct (comma x).
Qed.

Lemma comma_lookup x i : comma x = Some i -> x !! i = Some 44.
Proof.
  revert i. induction x as [|c x IH]; intros i; cbn [comma]; [done|]. destruct (Z.eqb_spec c 44) as [->|].
  - intros [= <-]. done.
  - destruct (comma x); [|done]. intros [= <-]. by apply IH.
Qed.

Lemma fresh_apart m p k a n :
  owned m p k -> (forall i, (i < n)%nat -> m !! (a + Z.of_nat i) = None) -> (0 < k)%nat -> (0 < n)%nat -> apart a n p k.
Proof.
  intros Ho Hf Hk Hn. destruct (decide (apart a n p k)) as [|Hx]; [done|]. unfold apart in Hx.
  specialize (Hf (Z.to_nat (Z.max a p - a)) ltac:(lia)). destruct (Ho (Z.to_nat (Z.max a p - p)) ltac:(lia)) as [c Hc].
  replace (a + Z.of_nat (Z.to_nat (Z.max a p - a))) with (Z.max a p) in Hf by lia.
  replace (p + Z.of_nat (Z.to_nat (Z.max a p - p))) with (Z.max a p) in Hc by lia. congruence.
Qed.

(** Strings out of the way of the [n] bytes at [p]. *)
Definition strings_beside (m : mem) (p : Z) (n : nat) : list Z -> list (list Z) -> Prop :=
  Forall2 (fun b y => str_at m b y /\ apart b (S (length y)) p n).

Lemma beside_kept m m' p n q k bs ys :
  strings_beside m p n bs ys -> kept_outside p n m m' -> p <= q -> q + Z.of_nat k <= p + Z.of_nat n ->
  strings_beside m' q k bs ys.
Proof.
  intros Hb Hk Hlo Hhi. eapply Forall2_impl; [exact Hb|]. intros b y [Hs Ha]. split; [by eapply kept_string|].
  unfold apart in *. lia.
Qed.
Lemma sub_kept p n m m' : m ⊆ m' -> kept_outside p n m m'.
Proof. intros Hs x c _ Hx. by eapply lookup_weaken. Qed.

Lemma add_entry_run s q x p n :
  (forall s n, memblock_find s n <> 0) -> str_at (b_mem s) q x -> owned (b_mem s) p (S n) ->
  exists m' buf, add_entry q s = Done tt (s <| b_mem := m' |> <| blacklisted_initcalls ::= cons buf |>) /\
    b_mem s ⊆ m' /\ str_at m' buf x /\ apart buf (S (length x)) p (S n).
Proof.
  intros Hall Hx Hp. unfold add_entry.
  destruct (alloc_done s 24 (Hall _ _)) as [R1 F1]. set (e := memblock_find s _) in *.
  assert (e <> 0) as He by apply Hall.
  rewrite (bind_done _ _ _ _ _ R1), (proj2 (Z.eqb_neq _ _) He). set (m1 := write_bytes _ _ _).
  assert (b_mem s ⊆ m1) as Hs1 by (apply fresh_sub; by rewrite length_replicate).
  pose (s1 := s <| b_mem := m1 |>). fold s1. pose proof (str_sub _ _ _ _ Hs1 Hx) as Hx1.
  rewrite (bind_done _ _ _ _ _ (c_string_run s1 _ _ Hx1)).
  destruct (alloc_done s1 (S (length x)) (Hall _ _)) as [R2 F2]. set (b := memblock_find s1 _) in *.
  assert (b <> 0) as Hb by apply Hall.
  replace (Z.of_nat (length x) + 1) with (Z.of_nat (S (length x))) by lia.
  rewrite (bind_done _ _ _ _ _ R2), (proj2 (Z.eqb_neq _ _) Hb). change (b_mem s1) with m1 in *. set (m2 := write_bytes m1 _ _).
  assert (m1 ⊆ m2) as Hs2 by (apply fresh_sub; by rewrite length_replicate).
  pose (s2 := s1 <| b_mem := m2 |>). fold s2.
  rewrite (bind_done _ _ _ _ _ (strcpy_at_run s2 b q x (str_sub _ _ _ _ Hs2 Hx1) (fresh_owned _ _ _))).
  change (b_mem s2) with m2.
  assert (length (x ++ [0]) = S (length x)) as L by (rewrite length_app; cbn; lia).
  assert (write_bytes m2 b (x ++ [0]) = write_bytes m1 b (x ++ [0])) as Hw.
  { apply map_eq. intros y. unfold m2. rewrite !lookup_write_bytes, L, length_replicate. by repeat case_decide. }
  exists (write_bytes m1 b (x ++ [0])), b. split_and!.
  - by rewrite Hw.
  - transitivity m1; [done|]. apply fresh_sub. by rewrite L.
  - split; [apply Hx|apply bytes_at_write].
  - apply (fresh_apart m1); [|done|lia|lia]. intros i Hi. destruct (Hp i Hi) as [c Hc]. exists c. by eapply lookup_weaken.
Qed.

(** What changes while the list is read: the memory and the blacklist. *)
Definition blacklisting (s : boot) (m : mem) (bufs : list Z) : boot := s <| b_mem := m |> <| blacklisted_initcalls := bufs |>.

Lemma strsep_run s str x :
  str_at (b_mem s) str x -> 0 < str ->
  exists m1, only_changes str (S (length x)) (b_mem s) m1 /\
    match comma x with
    | None => m1 = b_mem s /\ strsep str s = Done (str, 0) s
    | Some i => strsep str s = Done (str, str + Z.of_nat (S i)) (s <| b_mem := m1 |>) /\ (i < length x)%nat /\
        str_at m1 str (take i x) /\ str_at m1 (str + Z.of_nat (S i)) (drop (S i) x)
    end.
Proof.
  intros Hx Hp. unfold strsep. rewrite (proj2 (Z.eqb_neq _ _)) by lia. rewrite (bind_done _ _ _ _ _ (c_string_run _ _ _ Hx)).
  destruct (comma x) as [i|] eqn:Hi; [|exists (b_mem s); split_and!; [apply only_changes_refl|done|done]].
  apply comma_lookup in Hi. pose proof (lookup_lt_Some _ _ _ Hi) as Hlt.
  destruct (str_at_elim _ _ _ Hx) as (Tx & Bx & Zx). pose proof (Bx i 44 Hi) as Hc.
  pose proof (owned_one _ _ _ Hc) as Ho. pose proof (write_only_changes _ _ [0] Ho) as Hch.
  exists (write_bytes (b_mem s) (str + Z.of_nat i) [0]). split_and!.
  - eapply only_changes_mono; [exact Hch|lia|cbn; lia].
  - rewrite (bind_done _ _ _ _ _ (store_at_run s _ [0] Ho)).
    by replace (str + Z.of_nat i + 1) with (str + Z.of_nat (S i)) by lia.
  - done.
  - apply str_at_intro; [by apply Forall_take| |].
    + eapply only_changes_bytes; [exact Hch| |]; [unfold apart; rewrite length_take; cbn; lia|].
      intros j c Hj. apply Bx. by apply lookup_take_Some in Hj as [? _].
    + rewrite length_take, Nat.min_l by lia. cbn. by rewrite lookup_insert_eq.
  - eapply only_changes_str; [exact Hch| |apply str_at_drop; [lia|done]]. unfold apart. cbn [length]. lia.
Qed.

Lemma blacklist_from_spec fuel s str x ys :
  (forall s n, memblock_find s n <> 0) -> str_at (b_mem s) str x -> 0 < str -> (length x < fuel)%nat ->
  strings_beside (b_mem s) str (S (length x)) (blacklisted_initcalls s) ys ->
  exists m' bufs, blacklist_from fuel str s = Done tt (blacklisting s m' bufs) /\
    kept_outside str (S (length x)) (b_mem s) m' /\
    Forall2 (str_at m') bufs (rev (split_commas x) ++ ys).
Proof.
  intros Hall. revert s str x ys. induction fuel as [|fuel IH]; intros s str x ys Hx Hp Hf Hys; [lia|].
  cbn [blacklist_from]. rewrite split_step. destruct (strsep_run s str x Hx Hp) as (m1 & Hc & Hsep).
  destruct (comma x) as [i|].
  - destruct Hsep as (R & Hi & Hhd & Htl). rewrite (bind_done _ _ _ _ _ R). rewrite (proj2 (Z.eqb_neq _ _)) by lia.
    pose (s1 := s <| b_mem := m1 |>). fold s1.
    destruct (add_entry_run s1 str (take i x) str (length x) Hall Hhd) as (m2 & buf & R2 & Hsub & Hbuf & Hap).
    { eapply only_changes_owned; [exact Hc|]. by apply str_owned. }
    rewrite (bind_done _ _ _ _ _ R2). set (s2 := s1 <| b_mem := m2 |> <| blacklisted_initcalls ::= cons buf |>).
    assert (kept_outside str (S (length x)) (b_mem s) m2) as Hk.
    { eapply kept_trans; [by apply changes_kept|by apply sub_kept]. }
    assert (length (drop (S i) x) = length x - S i)%nat as Ld by apply length_drop.
    destruct (IH s2 (str + Z.of_nat (S i)) (drop (S i) x) (take i x :: ys)) as (m' & bufs & R3 & Hk3 & Hb3); [|lia|lia| |].
    + eapply str_sub; [exact Hsub|done].
    + constructor; [split; [done|unfold apart in *; lia]|]. eapply beside_kept; [exact Hys|exact Hk|lia|lia].
    + exists m', bufs. rewrite R3. split_and!; [done| |].
      * eapply kept_trans; [exact Hk|]. eapply kept_mono; [exact Hk3|lia|lia].
      * cbn [rev]. by rewrite <- app_assoc.
  - destruct Hsep as [_ R]. rewrite (bind_done _ _ _ _ _ R). rewrite (proj2 (Z.eqb_neq _ _)) by lia.
    destruct (add_entry_run s str x str (length x) Hall Hx) as (m2 & buf & R2 & Hsub & Hbuf & _); [by apply str_owned|].
    rewrite (bind_done _ _ _ _ _ R2). exists m2, (buf :: blacklisted_initcalls s). split_and!.
    + by destruct fuel.
    + by apply sub_kept.
    + constructor; [done|]. eapply Forall2_impl; [exact Hys|]. intros b y [Hb _]. by eapply str_sub.
Qed.

(** C30: After [initcall_blacklist=] with a comma-separated list, an initcall is on the
    blacklist exactly when its name, up to a module name behind a space, is one of the
    entries (or was before).  The loop over the list ends, and the list is copied: only
    the option's own string is changed. *)
Theorem blacklist_exact s str x ys fn :
  (forall s n, memblock_find s n <> 0) -> str_at (b_mem s) str x -> 0 < str ->
  strings_beside (b_mem s) str (S (length x)) (blacklisted_initcalls s) ys ->
  exists m' bufs, let s' := blacklisting s m' bufs in
    initcall_blacklist str s = Done 1 s' /\ kept_outside str (S (length x)) (b_mem s) m' /\
    initcall_blacklisted fn s' = Done (bool_decide (before_space (symbol_name fn) ∈ split_commas x ++ ys)) s'.
Proof.
  intros Hall Hx Hp Hys. unfold initcall_blacklist. rewrite (bind_done _ _ _ _ _ (c_string_run _ _ _ Hx)).
  destruct (blacklist_from_spec (S (length x)) s str x ys) as (m' & bufs & R & Hk & Hb); [done|done|done|lia|done|].
  exists m', bufs. cbn zeta. rewrite (bind_done _ _ _ _ _ R). split_and!; [done|done|].
  unfold initcall_blacklisted. rewrite gets_bind.
  assert (Forall2 (str_at (b_mem (blacklisting s m' bufs))) (blacklisted_initcalls (blacklisting s m' bufs)) (rev (split_commas x) ++ ys)) as Hb' by done.
  rewrite (on_blacklist_run _ _ _ _ Hb'). f_equal. apply bool_decide_ext.
  rewrite !elem_of_app, !list_elem_of_In, <- in_rev. done.
Qed.
End Blacklist.

(** ** The order of the initcalls *)

(** Initcalls leave the command lines and the variables of this file alone. *)
Definition undisturbed (s s' : boot) : Prop := b_mem s ⊆ b_mem s' /\ steady s s'.
Class InitEnvOk `{InitEnv} : Prop := {
  initcall_ok fn s : wp (initcall fn) (fun _ s' => undisturbed s s' /\ b_trace s' = b_trace s) s;
  kzalloc_fresh s n a : kzalloc_find s n = a -> a <> 0 ->
    0 < a /\ forall i, (i < Z.to_nat n)%nat -> b_mem s !! (a + Z.of_nat i) = None;
}.

Section Order.
Context `{Memblock} `{BootOptions} `{BootConf} `{!ParseArgsOk} `{InitEnv} `{!InitEnvOk}.
Implicit Types (s : boot).

Lemma undisturbed_refl s : undisturbed s s.
Proof. by split. Qed.
Lemma undisturbed_trans s1 s2 s3 : undisturbed s1 s2 -> undisturbed s2 s3 -> undisturbed s1 s3.
Proof. intros [] []. split; by etrans. Qed.

(** The preemption count, the interrupts and the trace are not among the variables. *)
Lemma undisturbed_steady s s1 s2 : undisturbed s s1 -> b_mem s2 = b_mem s1 -> steady s1 s2 -> undisturbed s s2.
Proof. intros [Hm Hs] E Hs2. split; [by rewrite E|by etrans]. Qed.

(** The trace without the warnings, oldest first. *)
Definition is_call (e : boot_event) : bool := match e with InitWarn _ _ => false | _ => true end.
Definition calls (s : boot) : list boot_event := rev (List.filter is_call (b_trace s)).

Lemma calls_cons s s' e : b_trace s' = e :: b_trace s -> calls s' = calls s ++ (if is_call e then [e] else []).
Proof. unfold calls. intros ->. cbn. destruct (is_call e); cbn; [done|by rewrite app_nil_r]. Qed.

Definition blacklisted (ys : list (list Z)) (fn : Z) : bool := bool_decide (before_space (symbol_name fn) ∈ ys).

(** A run of initcalls: what was called, with everything else in order. *)
Definition ran_calls (ys : list (list Z)) (es : list boot_event) (s s' : boot) : Prop :=
  undisturbed s s' /\ calls s' = calls s ++ es /\ preempt_count s' = preempt_count s /\ irqs_disabled s' = false /\
  Forall2 (str_at (b_mem s')) (blacklisted_initcalls s') ys.

Lemma one_initcall_spec ys fn s :
  Forall2 (str_at (b_mem s)) (blacklisted_initcalls s) ys -> irqs_disabled s = false ->
  wp (do_one_initcall fn) (fun r s' =>
    ran_calls ys (if blacklisted ys fn then [] else [InitCall fn (preempt_count s) false]) s s') s.
Proof.
  intros Hys Hirq. unfold do_one_initcall, initcall_blacklisted. rewrite wp_bind, wp_gets, wp_bind, wp_bind, wp_gets.
  rewrite (wp_run _ _ _ _ _ (on_blacklist_run _ _ _ _ Hys)). fold (blacklisted ys fn).
  destruct (blacklisted ys fn).
  { rewrite wp_ret. split_and!; [apply undisturbed_refl|by rewrite app_nil_r|done|done|done]. }
  unfold note_initcall, emit. rewrite !wp_bind, wp_gets, wp_bind, wp_gets, Hirq, wp_modify, wp_bind.
  eapply wp_mono; [|apply initcall_ok]. intros r s1 [Hu Htr].
  assert (calls s1 = calls s ++ [InitCall fn (preempt_count s) false]) as Hc.
  { unfold calls. rewrite Htr. done. }
  assert (Forall2 (str_at (b_mem s1)) (blacklisted_initcalls s1) ys) as Hys1.
  { destruct Hu as [Hm Hbl%sd_black]. cbn in Hm, Hbl. rewrite Hbl. eapply Forall2_impl; [exact Hys|]. intros b y Hb. by eapply str_sub. }
  assert (undisturbed s s1) as Hu1 by (destruct Hu as [Hm []]; split; [exact Hm|by split]).
  rewrite wp_bind, wp_gets, wp_bind. destruct (Z.eqb_spec (preempt_count s1) (preempt_count s)) as [Hp|Hp]; cbn [negb].
  - rewrite wp_ret, wp_bind, wp_gets, wp_bind. destruct (irqs_disabled s1) eqn:Hi.
    + cbn. split_and!; [by eapply undisturbed_steady|done|done|done|done].
    + cbn. split_and!; done.
  - rewrite wp_bind, wp_modify, wp_ret, wp_bind, wp_gets, wp_bind. cbn [irqs_disabled update_field]. destruct (irqs_disabled s1) eqn:Hi.
    + cbn. split_and!; [by eapply undisturbed_steady|done|done|done|done].
    + cbn. split_and!; [by eapply undisturbed_steady|done|done|done|done].
Qed.

Lemma ran_calls_trans ys es es' s s1 s2 :
  ran_calls ys es s s1 -> ran_calls ys es' s1 s2 -> ran_calls ys (es ++ es') s s2.
Proof.
  intros (U1 & C1 & P1 & I1 & B1) (U2 & C2 & P2 & I2 & B2). split_and!; [by eapply undisturbed_trans|by rewrite C2, C1, app_assoc|congruence|done|done].
Qed.

(** The initcalls that are not blacklisted, and their calls with preemption count [c] and interrupts on. *)
Definition runnable (ys : list (list Z)) (fns : list Z) : list Z := List.filter (fun fn => negb (blacklisted ys fn)) fns.
Definition called (ys : list (list Z)) (c : Z) (fns : list Z) : list boot_event :=
  (fun fn => InitCall fn c false) <$> runnable ys fns.

Lemma run_initcalls_spec ys fns s :
  Forall2 (str_at (b_mem s)) (blacklisted_initcalls s) ys -> irqs_disabled s = false ->
  wp (run_initcalls fns) (fun _ s' => ran_calls ys (called ys (preempt_count s) fns) s s') s.
Proof.
  revert s. induction fns as [|fn fns IH]; intros s Hys Hirq; cbn [run_initcalls].
  - rewrite wp_ret. split_and!; [apply undisturbed_refl|by rewrite app_nil_r|done|done|done].
  - rewrite wp_bind. eapply wp_mono; [|by apply one_initcall_spec]. intros r s1 H1'.
    pose proof H1' as (_ & _ & Hp1 & Hirq1 & Hys1). eapply wp_mono; [|by apply IH]. intros r' s2 H2'. rewrite Hp1 in H2'.
    assert (called ys (preempt_count s) (fn :: fns)
      = (if blacklisted ys fn then [] else [InitCall fn (preempt_count s) false]) ++ called ys (preempt_count s) fns) as ->.
    { unfold called, runnable. cbn [List.filter]. by destruct (blacklisted ys fn). }
    exact (ran_calls_trans _ _ _ _ _ _ H1' H2').
Qed.

(** Between two levels: the buffer of [n] bytes at [cl] is new, everything else is as
    it was but for what the initcalls added. *)
Record between (s0 : boot) (cl : Z) (n : nat) (es : list boot_event) (s : boot) : Prop := {
  bw_sub : b_mem s0 ⊆ b_mem s;
  bw_owned : owned (b_mem s) cl n;
  bw_new : forall x, cl <= x < cl + Z.of_nat n -> b_mem s0 !! x = None;
  bw_steady : steady s0 s;
  bw_preempt : preempt_count s = preempt_count s0;
  bw_irqs : irqs_disabled s = false;
  bw_calls : calls s = calls s0 ++ es;
}.

Lemma between_mem s0 cl n es s m :
  between s0 cl n es s -> only_changes cl n (b_mem s) m -> between s0 cl n es (s <| b_mem := m |>).
Proof.
  intros [] Hc. split; try done; cbn [b_mem update_field].
  - apply map_subseteq_spec. intros x c Hx. change (m !! x = Some c). destruct Hc as [_ F].
    rewrite F; [by eapply lookup_weaken|]. destruct (decide (x < cl \/ cl + Z.of_nat n <= x)); [done|].
    rewrite bw_new0 in Hx; [done|lia].
  - by eapply only_changes_owned.
  - destruct bw_steady0; by split.
Qed.

Lemma between_emit s0 cl n es s e :
  is_call e = true -> between s0 cl n es s -> between s0 cl n (es ++ [e]) (s <| b_trace ::= cons e |>).
Proof.
  intros He []. split; try done; [destruct bw_steady0; by split|]. rewrite (calls_cons s (s <| b_trace ::= cons e |>) e); [|done]. rewrite He, bw_calls0. by rewrite app_assoc.
Qed.

Lemma between_ran s0 cl n es es' ys s s' :
  between s0 cl n es s -> ran_calls ys es' s s' -> between s0 cl n (es ++ es') s'.
Proof.
  intros [] ([] & C & P & I & _). split; try done; try congruence; [by etrans| |by etrans|by rewrite C, bw_calls0, app_assoc].
  intros i Hi. destruct (bw_owned0 i Hi) as [c Hc]. exists c. by eapply lookup_weaken.
Qed.

(** What one level does: the options for its parameters are parsed, in the whole
    command line, then its initcalls run. *)
Definition level_events (ys : list (list Z)) (c : Z) (L : list Z) (level : nat) : list boot_event :=
  match initcall_level_names !! level with
  | None => []
  | Some name => [Parsing name L; InitLevel name] ++ called ys c (initcalls_at level)
  end.

Lemma level_spec s0 cl n es s L ys level :
  between s0 cl n es s -> 0 < cl -> str_at (b_mem s0) (saved_command_line s0) L -> n = S (length L) ->
  Forall2 (str_at (b_mem s0)) (blacklisted_initcalls s0) ys -> (level < 8)%nat ->
  wp (saved ← gets saved_command_line; strcpy_at cl saved;; do_initcall_level level cl)
     (fun _ s' => between s0 cl n (es ++ level_events ys (preempt_count s0) L level) s') s.
Proof.
  intros Hb Hcl0 HL -> Hys Hl. destruct (lookup_lt_is_Some_2 initcall_level_names level Hl) as [name Hname].
  unfold level_events. rewrite Hname, wp_bind, wp_gets, wp_bind, (sd_saved _ _ (bw_steady _ _ _ _ _ Hb)).
  assert (str_at (b_mem s) (saved_command_line s0) L) as HL' by (eapply str_sub; [apply Hb|done]).
  rewrite (wp_run _ _ _ _ _ (strcpy_at_run _ _ _ _ HL' (bw_owned _ _ _ _ _ Hb))).
  assert (length (L ++ [0]) = S (length L)) as El by (rewrite length_app; cbn; lia).
  assert (only_changes cl (S (length L)) (b_mem s) (write_bytes (b_mem s) cl (L ++ [0]))) as Hc.
  { rewrite <- El. apply write_only_changes. rewrite El. apply Hb. }
  pose proof (between_mem _ _ _ _ _ _ Hb Hc) as Hb1.
  assert (str_at (write_bytes (b_mem s) cl (L ++ [0])) cl L) as Hcl by (split; [apply HL|apply bytes_at_write]).
  set (s1 := s <| b_mem := _ |>) in *. change (str_at (b_mem s1) cl L) in Hcl. clearbody s1.
  unfold do_initcall_level, parse_line. rewrite wp_bind, Hname. apply wp_deref. exists name; split; [done|].
  rewrite wp_bind, wp_bind, (wp_run _ _ _ _ _ (c_string_run _ _ _ Hcl)). unfold emit at 1. rewrite wp_bind, wp_modify.
  eapply wp_mono; [|eapply (parse_args_rule _ _ _ _ _ _ L (between s0 cl (S (length L)) (es ++ [Parsing name L])))].
  2: exact Hcl0. 2: exact Hcl. 2: by apply between_emit. 2: intros; by apply between_mem. 2: intros; unfold ignore_unknown_bootoption; by rewrite wp_ret.
  intros r s2 Hb2. cbv beta in Hb2 |- *. unfold emit. rewrite wp_bind, wp_modify.
  apply (between_emit _ _ _ _ _ (InitLevel name)) in Hb2; [|done]. set (s3 := s2 <| b_trace ::= _ |>) in *. clearbody s3.
  eapply wp_mono; [|apply (run_initcalls_spec ys); [|apply Hb2]].
  - rewrite (bw_preempt _ _ _ _ _ Hb2). intros r' s4 H4'. eapply between_ran in H4'; [|exact Hb2]. rewrite <- !app_assoc in H4'. exact H4'.
  - rewrite (sd_black _ _ (bw_steady _ _ _ _ _ Hb2)). eapply Forall2_impl; [exact Hys|]. intros b y Hy. eapply str_sub; [apply Hb2|done].
Qed.

Lemma levels_spec s0 cl n s L ys levels es :
  between s0 cl n es s -> 0 < cl -> str_at (b_mem s0) (saved_command_line s0) L -> n = S (length L) ->
  Forall2 (str_at (b_mem s0)) (blacklisted_initcalls s0) ys -> Forall (fun l => (l < 8)%nat) levels ->
  wp (initcall_levels_from levels cl) (fun _ s' => between s0 cl n (es ++ concat (level_events ys (preempt_count s0) L <$> levels)) s') s.
Proof.
  intros Hb Hcl0 HL Hn Hys Hl. revert s es Hb. induction Hl as [|level levels Hl _ IH]; intros s es Hb; cbn [initcall_levels_from].
  { rewrite wp_ret. cbn. by rewrite app_nil_r. }
  pose proof (level_spec _ _ _ _ _ _ _ _ Hb Hcl0 HL Hn Hys Hl) as Hstep. rewrite wp_bind, wp_gets in *.
  rewrite wp_bind in *. eapply wp_mono; [|exact Hstep]. intros [] s1 H1'. rewrite wp_bind.
  eapply wp_mono; [|exact H1']. intros [] s2 Hb2. cbv beta in Hb2. eapply wp_mono; [|exact (IH _ _ Hb2)].
  intros [] s3 Hb3. cbv beta in Hb3. rewrite <- app_assoc in Hb3. exact Hb3.
Qed.

Lemma between_start s n a :
  kzalloc_find s (Z.of_nat n) = a -> a <> 0 -> irqs_disabled s = false ->
  between s a n [] (s <| b_mem ::= fun m => write_bytes m a (replicate n 0) |>).
Proof.
  intros Ha Hne Hirq. destruct (kzalloc_fresh s _ _ Ha Hne) as [_ Hf]. rewrite Nat2Z.id in Hf.
  split; try done; cbn [b_mem update_field].
  - apply fresh_sub. by rewrite length_replicate.
  - apply fresh_owned.
  - intros x Hx. specialize (Hf (Z.to_nat (x - a)) ltac:(lia)). by replace (a + Z.of_nat (Z.to_nat (x - a))) with x in Hf by lia.
  - symmetry. apply app_nil_r.
Qed.

(** The buffer for the copy of a command line of [n] bytes is not in use. *)
Definition no_buffer s (n : nat) (s' : boot) : Prop :=
  let a := kzalloc_find s (Z.of_nat n + 1) in forall x, a <= x <= a + Z.of_nat n -> b_mem s' !! x = None.

Lemma do_initcalls_spec L ys s :
  str_at (b_mem s) (saved_command_line s) L -> saved_command_line_len s = Z.of_nat (length L) ->
  Z.of_nat (length L) + 1 < 2 ^ 32 -> Forall2 (str_at (b_mem s)) (blacklisted_initcalls s) ys ->
  irqs_disabled s = false -> kzalloc_find s (Z.of_nat (length L) + 1) <> 0 ->
  wp do_initcalls (fun _ s' => ran_calls ys (concat (level_events ys (preempt_count s) L <$> seq 0 8)) s s' /\
    no_buffer s (length L) s') s.
Proof.
  intros HL Hlen Hmax Hys Hirq Hk. unfold do_initcalls, no_buffer. rewrite wp_bind, wp_gets, Hlen. cbv zeta.
  assert (u32 (Z.of_nat (length L) + 1) = Z.of_nat (S (length L))) as ->.
  { rewrite u32_id by (unfold is_u32; lia). lia. }
  replace (Z.of_nat (length L) + 1) with (Z.of_nat (S (length L))) in * by lia.
  rewrite wp_bind, wp_gets. set (a := kzalloc_find s _) in *. destruct (Z.eqb_spec a 0) as [|_]; [done|].
  rewrite wp_bind, wp_modify, Nat2Z.id. pose proof (between_start s _ a eq_refl Hk Hirq) as Hb.
  destruct (kzalloc_fresh s _ a eq_refl Hk) as [Hpos _].
  set (s1 := s <| b_mem ::= _ |>) in *. clearbody s1. rewrite wp_bind.
  eapply wp_mono; [|apply (levels_spec _ _ _ _ L ys _ _ Hb Hpos HL eq_refl Hys)].
  2: { apply Forall_forall. intros l Hl. apply elem_of_seq in Hl. cbn in Hl. lia. }
  intros [] s2 Hb2. cbv beta in Hb2. cbn [app] in Hb2. unfold memblock_free. rewrite wp_modify, Nat2Z.id.
  destruct Hb2. assert (b_mem s ⊆ forget (b_mem s2) a (S (length L))) as Hm.
  { apply map_subseteq_spec. intros x c Hx. rewrite forget_lookup. case_decide as Hin; [by rewrite bw_new0 in Hx|by eapply lookup_weaken]. }
  split; [split_and!; [split; [exact Hm|destruct bw_steady0; by split]|done|done|done|]|].
  - change (Forall2 (str_at (forget (b_mem s2) a (S (length L)))) (blacklisted_initcalls s2) ys). rewrite (sd_black _ _ bw_steady0).
    eapply Forall2_impl; [exact Hys|]. intros b y Hy. by eapply str_sub.
  - intros x Hx. change (forget (b_mem s2) a (S (length L)) !! x = None). rewrite forget_lookup. by rewrite decide_True by lia.
Qed.

End Order.
