(* ===== verification/BootMain.v ===== *)
(** Starting the kernel and the first process ([init/main.c]): [start_kernel],
    [rest_init] and [kernel_init].

    Most of the boot is a long list of calls to other subsystems.  They are
    parameters; the trace records their order and whether interrupts were disabled at
    the call.  The theorems: interrupts are off for every routine until
    [start_kernel] turns them on, and on afterwards, the kernel panics if there were
    too many options, with a console to say so, and otherwise creates its first two
    threads in order ([boot_runs_with_irqs_in_order]); [kernel_init] starts the first program that
    works, in the documented order and with the collected arguments, or panics
    ([first_working_init_runs]); the console becomes the standard streams of init
    ([console_becomes_stdio]). *)

From S2P Require Import Prelude CStrings BootState BootArgs BootConfig BootParse Initcalls.
From S2P Require Import Uaccess Kernel Vfs OpenFlags Open OpenCalls.

Definition PF_NO_SETAFFINITY : Z := 0x04000000.

(** What other subsystems provide. *)
Class BootWorld := {
  subsystem : string -> Boot unit;             (* a routine without arguments or result *)
  setup_arch : Boot Z;                         (* the architecture's command line *)
  initrd_below_start_ok : bool;
  min_low_pfn : Z;
  virt_to_pfn : Z -> Z;                        (* page_to_pfn(virt_to_page()) *)
  late_time_init : bool;                       (* the pointer is set *)
  efi_runtime : bool;                          (* efi_enabled(EFI_RUNTIME_SERVICES) *)
  register_trace_initcall : string -> Boot Z;
  (* threads: the pid; and the task of a pid, or NULL *)
  user_mode_thread : Boot Z;
  kernel_thread : Boot Z;
  find_task_by_pid_ns : boot -> Z -> Z;
  task_pid_current : Z;
  GFP_BITS_MASK : Z;
  ctors : list Z;                              (* __ctors_start .. __ctors_end *)
  call_ctor : Z -> Boot unit;
  literal : string -> Z;                       (* where a string literal is *)
  CONFIG_DEFAULT_INIT : string;
  kernel_execve : list Z -> list Z -> list Z -> Boot Z;
  init_eaccess : list Z -> Boot Z;
  init_dup : Z -> Kern vfs Z;                  (* fs/init.c *)
}.

(** The boot state and the file system. *)
Record machine := mkMachine { m_boot : boot; m_vfs : vfs }.
#[global] Instance eta_machine : Eta machine := fun s => mkMachine (m_boot s) (m_vfs s).

Section BootMain.
Context `{Memblock} `{BootOptions} `{BootConf} `{EarlyEnv} `{InitEnv} `{BootWorld}.
Context `{UserArch} `{VfsEnv} `{!OpenEnv}.

Definition run (routine : string) : Boot unit := ran routine;; subsystem routine.
Fixpoint run_all (routines : list string) : Boot unit :=
  match routines with
  | [] => mret tt
  | r :: routines => run r;; run_all routines
  end.

Definition local_irq_disable : Boot unit := modify (fun s => s <| irqs_disabled := true |>).
Definition local_irq_enable : Boot unit := modify (fun s => s <| irqs_disabled := false |>).

(** ** [start_kernel] *)

(** Up to the parsing of the command line. *)
Definition start_early : Boot Z :=
  run_all ["set_task_stack_end_magic"; "smp_setup_processor_id"; "debug_objects_early_init";
           "init_vmlinux_build_id"; "cgroup_init_early"];;
  local_irq_disable;;
  modify (fun s => s <| early_boot_irqs_disabled := true |>);;
  run_all ["boot_cpu_init"; "page_address_init"];;
  printk "linux_banner";;
  printk "Bienvenido a USAC Linux - Nombre: Kevin Estuardo Secaida Molina, Carnet: 201602404";;
  run "early_security_init";;
  command_line ← setup_arch;
  setup_boot_config;;
  setup_command_line command_line;;
  run_all ["setup_nr_cpu_ids"; "setup_per_cpu_areas"; "smp_prepare_boot_cpu"; "boot_cpu_hotplug_init"];;
  saved ← gets saved_command_line;
  x ← c_string saved;
  emit (Notice x);;
  run "jump_label_init";;
  parse_early_param;;
  mret command_line.

(** From the random number generator to the scheduler. *)
Definition early_routines : list string :=
  ["random_init_early"; "setup_log_buf"; "vfs_caches_init_early"; "sort_main_extable"; "trap_init";
   "mm_core_init"; "poking_init"; "ftrace_init"; "early_trace_init"; "sched_init"].
Definition core_routines : list string :=
  ["radix_tree_init"; "maple_tree_init"; "housekeeping_init"; "workqueue_init_early"; "rcu_init"; "trace_init"].
Definition timer_routines : list string :=
  ["context_tracking_init"; "early_irq_init"; "init_IRQ"; "tick_init"; "rcu_init_nohz"; "init_timers";
   "srcu_init"; "hrtimers_init"; "softirq_init"; "timekeeping_init"; "time_init"; "random_init";
   "kfence_init"; "boot_init_stack_canary"; "perf_event_init"; "profile_init"; "call_function_init"].

Definition initcall_debug_enable : Boot unit :=
  r1 ← register_trace_initcall "start";
  r2 ← register_trace_initcall "finish";
  if truthy (Z.lor r1 r2) then printk "Failed to register initcall tracepoints" else mret tt.

Definition start_core : Boot unit :=
  run_all early_routines;;
  off ← gets irqs_disabled;
  (if (off : bool) then mret tt
   else printk "Interrupts were enabled *very* early, fixing it";; local_irq_disable);;
  run_all core_routines;;
  debug ← gets initcall_debug;
  (if (debug : bool) then initcall_debug_enable else mret tt);;
  run_all timer_routines;;
  off ← gets irqs_disabled;
  (if (off : bool) then mret tt else printk "Interrupts were enabled early");;
  modify (fun s => s <| early_boot_irqs_disabled := false |>);;
  local_irq_enable.

Definition banner : list string :=
  ["Kevin Estuardo Secaida Molina - 201602404"; "Sistemas Operativos 2";
   " /$$$$$$$$  /$$$$$$  /$$$$$$$   /$$$$$$ "; "|__  $$__/ /$$__  $$| $$__  $$ /$$__  $$";
   "   | $$   | $$  \ $$| $$  \ $$| $$  \ $$"; "   | $$   | $$$$$$$$| $$$$$$$/| $$  | $$";
   "   | $$   | $$__  $$| $$__  $$| $$  | $$"; "   | $$   | $$  | $$| $$  \ $$| $$  | $$";
   "   | $$   | $$  | $$| $$  | $$|  $$$$$$/"; "   |__/   |__/  |__/|__/  |__/ \______/ "].
Fixpoint print_all (lines : list string) : Boot unit :=
  match lines with
  | [] => mret tt
  | l :: lines => printk l;; print_all lines
  end.

(** The console; the announced panic; the ramdisk. *)
Definition start_console : Boot unit :=
  run "kmem_cache_init_late";;
  print_all banner;;
  run "console_init";;
  late ← gets panic_later;
  if bool_decide (late <> None) then panic_told
  else
  run_all ["lockdep_init"; "locking_selftest"];;
  start ← gets initrd_start;
  if truthy start && negb initrd_below_start_ok && (virt_to_pfn start <? min_low_pfn) then
    printk "initrd overwritten - disabling it.";;
    modify (fun s => s <| initrd_start := 0 |>)
  else mret tt.

Definition late_routines : list string :=
  ["setup_per_cpu_pageset"; "numa_policy_init"; "acpi_early_init"]
  ++ (if late_time_init then ["late_time_init"] else [])
  ++ ["sched_clock_init"; "calibrate_delay"; "arch_cpu_finalize_init"; "pid_idr_init"; "anon_vma_init"]
  ++ (if efi_runtime then ["efi_enter_virtual_mode"] else [])
  ++ ["thread_stack_cache_init"; "cred_init"; "fork_init"; "proc_caches_init"; "uts_ns_init"; "key_init";
      "security_init"; "dbg_late_init"; "net_ns_init"; "vfs_caches_init"; "pagecache_init"; "signals_init";
      "seq_file_init"; "proc_root_init"; "nsfs_init"; "cpuset_init"; "cgroup_init"; "taskstats_init_early";
      "delayacct_init"; "acpi_subsystem_init"; "arch_post_acpi_subsys_init"; "kcsan_init"].

(** A new thread, with its creation in the trace. *)
Definition spawn (how : string) (thread : Boot Z) : Boot Z := ran how;; thread.

(** The first threads; the boot thread becomes the idle thread of its CPU. *)
Definition rest_init : Boot unit :=
  run "rcu_scheduler_starting";;
  pid ← spawn "user_mode_thread" user_mode_thread;                (* kernel_init *)
  tsk ← gets (fun s => find_task_by_pid_ns s pid);
  flags ← gets (fun s => task_flags s !! tsk);
  flags ← deref NullDeref flags;
  modify (fun s => s <| task_flags ::= <[tsk := Z.lor flags PF_NO_SETAFFINITY]> |>);;
  run_all ["set_cpus_allowed_ptr"; "numa_default_policy"];;
  pid ← spawn "kernel_thread" kernel_thread;                (* kthreadd *)
  tsk ← gets (fun s => find_task_by_pid_ns s pid);
  modify (fun s => s <| kthreadd_task := tsk |>);;
  set_system_state SYSTEM_SCHEDULING;;
  ran "complete";;
  modify (fun s => s <| kthreadd_done := true |>);;
  run_all ["schedule_preempt_disabled"; "cpu_startup_entry"].

(** [start_kernel] from [random_init_early()] on. *)
Definition start_late : Boot unit :=
  start_core;;
  start_console;;
  run_all late_routines;;
  rest_init.

Definition start_kernel : Boot unit :=
  start_early;;
  parse_boot_args;;
  start_late.

(** ** The first process *)
Fixpoint run_ctors (fns : list Z) : Boot unit :=
  match fns with
  | [] => mret tt
  | fn :: fns => emit (Ctor fn);; call_ctor fn;; run_ctors fns
  end.
Definition do_ctors : Boot unit := run_ctors ctors.

Definition do_basic_setup : Boot unit :=
  run_all ["cpuset_init_smp"; "driver_init"; "init_irq_proc"];;
  do_ctors;;
  do_initcalls.

(** The strings of an array, for debugging. *)
Fixpoint debug_strings (l : list Z) : Boot unit :=
  match l with
  | [] => crashed OutOfBounds
  | p :: l => if p =? 0 then mret tt else x ← c_string p; emit (Notice x);; debug_strings l
  end.

Definition run_init_process (init_filename : Z) : Boot Z :=
  argv ← gets argv_init;
  argv ← put_slot argv 0 init_filename;
  modify (fun s => s <| argv_init := argv |>);;
  path ← c_string init_filename;
  emit (Notice path);;
  debug_strings argv;;
  envp ← gets envp_init;
  debug_strings envp;;
  emit (Execve path argv envp);;
  kernel_execve path argv envp.

Definition try_to_run_init_process (init_filename : Z) : Boot Z :=
  ret ← run_init_process init_filename;
  (if truthy ret && negb (ret =? - ENOENT) then printk "Starting init: exists but couldn't execute it" else mret tt);;
  mret ret.

(** CONFIG_STRICT_KERNEL_RWX *)
Definition mark_readonly : Boot unit :=
  enabled ← gets rodata_enabled;
  if (enabled : bool) then run_all ["rcu_barrier"; "mark_rodata_ro"; "rodata_test"]
  else printk "Kernel memory protection disabled.".

(** The fallbacks, from the first one on. *)
Fixpoint try_fallbacks (names : list string) : Boot Z :=
  match names with
  | [] => panic
  | name :: names =>
      ret ← try_to_run_init_process (literal name);
      if truthy ret then try_fallbacks names else mret 0
  end.
Definition fallbacks : list string := ["/sbin/init"; "/etc/init"; "/bin/init"; "/bin/sh"].

(** [kernel_init], from [if (ramdisk_execute_command)] on. *)
Definition start_fallbacks : Boot Z :=
  if bool_decide (CONFIG_DEFAULT_INIT = "") then try_fallbacks fallbacks
  else
    ret ← run_init_process (literal CONFIG_DEFAULT_INIT);
    if truthy ret then printk "Default init failed";; try_fallbacks fallbacks
    else mret 0.
Definition start_requested : Boot Z :=
  cmd ← gets execute_command;
  if truthy cmd then
    ret ← run_init_process cmd;
    if truthy ret then panic else mret 0
  else start_fallbacks.
Definition start_init : Boot Z :=
  cmd ← gets ramdisk_execute_command;
  if truthy cmd then
    ret ← run_init_process cmd;
    if truthy ret then printk "Failed to execute the ramdisk's init";; start_requested
    else mret 0
  else start_requested.

Definition wait_for_kthreadd : Boot unit :=
  ready ← gets kthreadd_done;
  if (ready : bool) then modify (fun s => s <| kthreadd_done := false |>) else crashed Deadlock.

(** ** The parts of [kernel_init] that need the file system *)
Definition on_boot {A} (m : Boot A) : Kern machine A := zoom m_boot (fun b s => s <| m_boot := b |>) m.
Definition on_vfs {A} (m : Kern vfs A) : Kern machine A := zoom m_vfs (fun v s => s <| m_vfs := v |>) m.

(** Three descriptors, whether the calls succeed or not. *)
Definition dup_thrice (file : Z) : Kern vfs unit :=
  init_dup file;; init_dup file;; init_dup file;; mret tt.

Definition console_on_rootfs (name : Z) : Kern vfs bool :=
  file ← filp_open name O_RDWR 0;
  match file with
  | inl _ => mret false
  | inr file => dup_thrice file;; fput file;; mret true
  end.

(** [kernel_init_freeable], up to the console and behind it.  The warning of
    [console_on_rootfs] is printed by [find_early_init], since the log is boot state and
    the files are not. *)
Definition freeable_setup : Boot unit :=
  modify (fun s => s <| gfp_allowed_mask := GFP_BITS_MASK |>);;
  run "set_mems_allowed";;
  modify (fun s => s <| cad_pid := task_pid_current |>);;
  run_all ["smp_prepare_cpus"; "workqueue_init"; "init_mm_internals"; "rcu_init_tasks_generic"];;
  do_pre_smp_initcalls;;
  run_all ["lockup_detector_init"; "smp_init"; "sched_init_smp"; "workqueue_init_topology"; "padata_init";
           "page_alloc_init_late"];;
  do_basic_setup;;
  run_all ["kunit_run_all_tests"; "wait_for_initramfs"].
Definition find_early_init (console : bool) : Boot unit :=
  (if console then mret tt else printk "Warning: unable to open an initial console.");;
  cmd ← gets ramdisk_execute_command;
  path ← c_string cmd;
  r ← init_eaccess path;
  (if truthy r then modify (fun s => s <| ramdisk_execute_command := 0 |>);; run "prepare_namespace" else mret tt);;
  run "integrity_load_keys".

Definition kernel_init_freeable : Kern machine unit :=
  on_boot freeable_setup;;
  opened ← on_vfs (console_on_rootfs (literal "/dev/console"));
  on_boot (find_early_init opened).

(** [kernel_init], from [async_synchronize_full()] to [do_sysctl_args()]. *)
Definition finish_boot : Boot unit :=
  run "async_synchronize_full";;
  set_system_state SYSTEM_FREEING_INITMEM;;
  run_all ["kprobe_free_init_mem"; "ftrace_free_init_mem"; "kgdb_free_init_mem"; "exit_boot_config"; "free_initmem"];;
  mark_readonly;;
  run "pti_finalize";;
  set_system_state SYSTEM_RUNNING;;
  run_all ["numa_default_policy"; "rcu_end_inkernel_boot"; "do_sysctl_args"].

Definition kernel_init : Kern machine Z :=
  on_boot wait_for_kthreadd;;
  kernel_init_freeable;;
  on_boot finish_boot;;
  on_boot start_init.
End BootMain.

(** ** Interrupts during the boot *)

Definition apart_from_irqs {A} (m : Boot A) : Prop :=
  forall s, wp m (fun _ s' => steady s s' /\ b_trace s' = b_trace s) s.
Definition keeps_irqs {A} (m : Boot A) : Prop :=
  forall s, wp m (fun _ s' => irqs_disabled s' = irqs_disabled s) s.

Class BootWorldOk `{BootWorld} : Prop := {
  subsystem_ok r : apart_from_irqs (subsystem r);
  register_ok w : apart_from_irqs (register_trace_initcall w) /\ keeps_irqs (register_trace_initcall w);
  user_mode_thread_ok : apart_from_irqs user_mode_thread /\ keeps_irqs user_mode_thread /\
    forall s, wp user_mode_thread (fun pid s' => is_Some (task_flags s' !! find_task_by_pid_ns s' pid)) s;
  kernel_thread_ok : apart_from_irqs kernel_thread /\ keeps_irqs kernel_thread;
}.

Section Irqs.
Context `{BootWorld} `{!BootWorldOk}.
Implicit Types (s : boot).

(** The routines that ran, oldest first, and whether interrupts were off. *)
Definition ran_log (s : boot) : list (string * bool) :=
  rev (omap (fun e => if e is Ran r off then Some (r, off) else None) (b_trace s)).

Lemma log_ran s r : ran_log (s <| b_trace ::= cons (Ran r (irqs_disabled s)) |>) = ran_log s ++ [(r, irqs_disabled s)].
Proof. done. Qed.
Lemma log_same s s' : b_trace s' = b_trace s -> ran_log s' = ran_log s.
Proof. unfold ran_log. by intros ->. Qed.

Lemma logged_console s off : ("console_init"%string, off) ∈ ran_log s -> has_console s = true.
Proof.
  unfold ran_log, has_console. rewrite list_elem_of_In, <- in_rev, <- list_elem_of_In, list_elem_of_omap.
  intros (e & He & Hr). apply existsb_exists. exists e. split; [by apply list_elem_of_In|].
  destruct e; try done. injection Hr as -> _. by apply bool_decide_true.
Qed.

(** A routine that is noted by name only. *)
Lemma ran_spec r s : wp (ran r) (fun _ s' =>
  steady s s' /\ irqs_disabled s' = irqs_disabled s /\ ran_log s' = ran_log s ++ [(r, irqs_disabled s)]) s.
Proof. unfold ran, emit. by rewrite wp_bind, wp_gets, wp_modify. Qed.

Lemma run_spec r s :
  wp (run r) (fun _ s' => steady s s' /\ ran_log s' = ran_log s ++ [(r, irqs_disabled s)]) s.
Proof.
  unfold run, ran, emit. rewrite wp_bind, wp_bind, wp_gets, wp_modify. eapply wp_mono; [|apply subsystem_ok].
  intros _ s' [Hs Ht]. split; [destruct Hs; by split|]. rewrite (log_same _ _ Ht). apply log_ran.
Qed.
Lemma run_irqs r : keeps_irqs (subsystem r) -> keeps_irqs (run r).
Proof. intros Hk s. unfold run, ran, emit. rewrite wp_bind, wp_bind, wp_gets, wp_modify. set (s1 := s <| b_trace ::= _ |>). exact (Hk s1). Qed.

Lemma run_all_any rs s :
  wp (run_all rs) (fun _ s' => steady s s' /\ exists offs, length offs = length rs /\ ran_log s' = ran_log s ++ zip rs offs) s.
Proof.
  revert s. induction rs as [|r rs IH]; intros s; cbn [run_all].
  { rewrite wp_ret. split; [done|]. exists []. by rewrite app_nil_r. }
  rewrite wp_bind. eapply wp_mono; [|apply run_spec]. intros _ s1 [S1 L1]. eapply wp_mono; [|apply IH].
  intros _ s2 (S2 & offs & Hl & L2). split; [by etrans|]. exists (irqs_disabled s :: offs). split; [by cbn; rewrite Hl|].
  rewrite L2, L1, <- app_assoc. done.
Qed.

Definition schedule (off : bool) (rs : list string) : list (string * bool) := (fun r => (r, off)) <$> rs.

Lemma run_all_irqs rs s :
  Forall (fun r => keeps_irqs (subsystem r)) rs ->
  wp (run_all rs) (fun _ s' => steady s s' /\ irqs_disabled s' = irqs_disabled s /\
    ran_log s' = ran_log s ++ schedule (irqs_disabled s) rs) s.
Proof.
  intros Hk. revert s. induction Hk as [|r rs Hr Hk IH]; intros s; cbn [run_all].
  { rewrite wp_ret. split_and!; [done|done|]. by rewrite app_nil_r. }
  rewrite wp_bind. eapply wp_mono; [|apply wp_and; [apply run_spec|by apply run_irqs]]. intros _ s1 [[S1 L1] I1].
  eapply wp_mono; [|apply IH]. intros _ s2 (S2 & I2 & L2). split_and!; [by etrans|congruence|].
  rewrite L2, L1, I1, <- app_assoc. done.
Qed.

(** Output other than routines. *)
Lemma printk_spec msg s :
  wp (printk msg) (fun _ s' => steady s s' /\ irqs_disabled s' = irqs_disabled s /\ ran_log s' = ran_log s) s.
Proof. unfold printk, emit. rewrite wp_modify. done. Qed.
Lemma print_all_spec ls s :
  wp (print_all ls) (fun _ s' => steady s s' /\ irqs_disabled s' = irqs_disabled s /\ ran_log s' = ran_log s) s.
Proof.
  revert s. induction ls as [|l ls IH]; intros s; cbn [print_all]; [by rewrite wp_ret|].
  rewrite wp_bind. eapply wp_mono; [|apply printk_spec]. intros _ s1 (S1 & I1 & L1). eapply wp_mono; [|apply IH].
  intros _ s2 (S2 & I2 & L2). split_and!; [by etrans|congruence|congruence].
Qed.

Lemma debug_enable_spec s :
  wp initcall_debug_enable (fun _ s' => steady s s' /\ irqs_disabled s' = irqs_disabled s /\ ran_log s' = ran_log s) s.
Proof.
  unfold initcall_debug_enable. rewrite wp_bind. destruct (register_ok "start") as [Ra Ri].
  eapply wp_mono; [|apply wp_and; [apply Ra|apply Ri]]. intros r1 s1 [[S1 T1] I1]. rewrite wp_bind.
  destruct (register_ok "finish") as [Ra' Ri']. eapply wp_mono; [|apply wp_and; [apply Ra'|apply Ri']].
  intros r2 s2 [[S2 T2] I2]. pose proof (log_same _ _ T1). pose proof (log_same _ _ T2).
  destruct (truthy _); [|rewrite wp_ret; split_and!; [by etrans|congruence|congruence]].
  eapply wp_mono; [|apply printk_spec]. intros _ s3 (S3 & I3 & L3).
  split_and!; [etrans; [done|by etrans]|congruence|congruence].
Qed.

(** From the early routines until the interrupts are enabled. *)
Lemma start_core_spec s :
  (forall r, r ∉ early_routines -> keeps_irqs (subsystem r)) ->
  wp start_core (fun _ s' => exists offs, length offs = length early_routines /\
    ran_log s' = ran_log s ++ zip early_routines offs ++ schedule true (core_routines ++ timer_routines) /\
    panic_later s' = panic_later s /\ irqs_disabled s' = false /\ early_boot_irqs_disabled s' = false) s.
Proof.
  intros Hirq. unfold start_core. rewrite wp_bind. eapply wp_mono; [|apply run_all_any]. intros _ s1 (S1 & offs & Hl & L1).
  assert (forall rs, Forall (fun r => r ∉ early_routines) rs -> Forall (fun r => keeps_irqs (subsystem r)) rs) as Hrs
    by (intros rs Hrs; eapply Forall_impl; [exact Hrs|exact Hirq]).
  rewrite wp_bind, wp_gets, wp_bind.
  assert (wp (if irqs_disabled s1 then mret tt else printk "Interrupts were enabled *very* early, fixing it";; local_irq_disable)
    (fun _ s2 => steady s1 s2 /\ irqs_disabled s2 = true /\ ran_log s2 = ran_log s1) s1) as Hfix.
  { destruct (irqs_disabled s1) eqn:Hi; [by rewrite wp_ret|]. rewrite wp_bind. eapply wp_mono; [|apply printk_spec].
    intros _ s2 (S2 & _ & L2). unfold local_irq_disable. rewrite wp_modify. destruct S2. by split. }
  eapply wp_mono; [|exact Hfix]. intros _ s2 (S2 & I2 & L2). rewrite wp_bind.
  eapply wp_mono; [|apply run_all_irqs, Hrs; by apply (bool_decide_unpack _)]. intros _ s3 (S3 & I3 & L3). rewrite wp_bind, wp_gets, wp_bind.
  assert (wp (if initcall_debug s3 then initcall_debug_enable else mret tt)
    (fun _ s4 => steady s3 s4 /\ irqs_disabled s4 = irqs_disabled s3 /\ ran_log s4 = ran_log s3) s3) as Hdbg.
  { destruct (initcall_debug s3); [apply debug_enable_spec|by rewrite wp_ret]. }
  eapply wp_mono; [|exact Hdbg]. intros _ s4 (S4 & I4 & L4). rewrite wp_bind.
  eapply wp_mono; [|apply run_all_irqs, Hrs; by apply (bool_decide_unpack _)]. intros _ s5 (S5 & I5 & L5). rewrite wp_bind, wp_gets, wp_bind.
  rewrite I5, I4, I3, I2, wp_ret. unfold local_irq_enable. rewrite wp_bind, !wp_modify. exists offs. split; [done|].
  assert (ran_log s5 = ran_log s ++ zip early_routines offs ++ schedule true (core_routines ++ timer_routines)) as L.
  { rewrite L5, L4, L3, L2, L1, I4, I3, I2. unfold schedule. rewrite fmap_app, !app_assoc. done. }
  split_and!; [exact L| |done|done].
  assert (steady s s5) as E%sd_late by (etrans; [exact S1|]; etrans; [exact S2|]; etrans; [exact S3|]; by etrans). exact E.
Qed.

Lemma wp_then_crash {A B} (m : Boot A) (k : A -> Boot B) c s :
  wp m (fun a s' => k a s' = Crash c) s -> (m ≫= k) s = Crash c.
Proof. unfold wp, mbind, kern_bind. by destruct (m s). Qed.

Definition quietly (s s' : boot) : Prop :=
  steady s s' /\ irqs_disabled s' = irqs_disabled s.

Definition console_routines : list string := ["kmem_cache_init_late"; "console_init"; "lockdep_init"; "locking_selftest"].

(** The console comes up; then the kernel panics, or goes on. *)
Lemma start_console_spec s :
  Forall (fun r => keeps_irqs (subsystem r)) console_routines ->
  match panic_later s with
  | Some _ => start_console s = Crash KernelPanic
  | None => wp start_console (fun _ s' => quietly s s' /\ ran_log s' = ran_log s ++ schedule (irqs_disabled s) console_routines) s
  end.
Proof.
  intros Hk. inversion_clear Hk as [|?? K1 Hk1]. inversion_clear Hk1 as [|?? K2 Hk2].
  assert (wp (run "kmem_cache_init_late";; print_all banner;; run "console_init") (fun _ s' => quietly s s' /\
    ran_log s' = ran_log s ++ schedule (irqs_disabled s) ["kmem_cache_init_late"; "console_init"]) s) as Hpre.
  { rewrite wp_bind. eapply wp_mono; [|apply wp_and; [apply run_spec|by apply run_irqs]]. intros [] s1 [[S1 L1] I1].
    rewrite wp_bind. eapply wp_mono; [|apply print_all_spec]. intros [] s2 (S2 & I2 & L2).
    eapply wp_mono; [|apply wp_and; [apply run_spec|by apply run_irqs]]. intros [] s3 [[S3 L3] I3].
    split; [split; [etrans; [exact S1|]; by etrans|congruence]|]. rewrite L3, L2, L1, I2, I1, <- app_assoc. done. }
  assert (forall Q, wp (run "kmem_cache_init_late";; print_all banner;; run "console_init") Q s ->
    wp (run "kmem_cache_init_late") (fun _ s1 => wp (print_all banner) (fun _ s2 => wp (run "console_init") Q s2) s1) s) as Hsplit.
  { intros Q HQ. rewrite wp_bind in HQ. eapply wp_mono; [|exact HQ]. intros [] s1. by rewrite wp_bind. }
  destruct (panic_later s) eqn:Hl.
  - unfold start_console. apply wp_then_crash. eapply wp_mono; [|apply Hsplit, Hpre]. intros [] s1 Hs1. apply wp_then_crash.
    eapply wp_mono; [|exact Hs1]. intros [] s2 Hs2. apply wp_then_crash. eapply wp_mono; [|exact Hs2].
    intros [] s3 [[E%sd_late _] L3]. rewrite gets_bind. rewrite bool_decide_true by congruence.
    unfold panic_told. rewrite gets_bind, (logged_console s3 (irqs_disabled s)); [done|]. rewrite L3. set_solver.
  - unfold start_console. rewrite wp_bind. eapply wp_mono; [|apply Hsplit, Hpre]. intros [] s1 Hs1. rewrite wp_bind.
    eapply wp_mono; [|exact Hs1]. intros [] s2 Hs2. rewrite wp_bind. eapply wp_mono; [|exact Hs2].
    intros [] s3 [[S3 I3] L3]. rewrite wp_bind, wp_gets. rewrite bool_decide_false by (destruct S3; intros []; congruence).
    rewrite wp_bind. eapply wp_mono; [|by apply run_all_irqs]. intros [] s4 (S4 & I4 & L4).
    assert (quietly s s4) as Hq by (split; [by etrans|congruence]).
    assert (ran_log s4 = ran_log s ++ schedule (irqs_disabled s) console_routines) as L by (rewrite L4, L3, I3, <- app_assoc; done).
    rewrite wp_bind, wp_gets. destruct (_ && _); [|by rewrite wp_ret].
    unfold printk, emit. rewrite wp_bind, !wp_modify. destruct Hq as [[] ?]. by repeat split.
Qed.

Definition rest_routines : list string :=
  ["rcu_scheduler_starting"; "user_mode_thread"; "set_cpus_allowed_ptr"; "numa_default_policy"; "kernel_thread"; "complete";
   "schedule_preempt_disabled"; "cpu_startup_entry"].

Lemma rest_init_spec s :
  Forall (fun r => keeps_irqs (subsystem r))
    ["rcu_scheduler_starting"; "set_cpus_allowed_ptr"; "numa_default_policy"; "schedule_preempt_disabled"; "cpu_startup_entry"] ->
  wp rest_init (fun _ s' => ran_log s' = ran_log s ++ schedule (irqs_disabled s) rest_routines /\
    early_boot_irqs_disabled s' = early_boot_irqs_disabled s /\ irqs_disabled s' = irqs_disabled s /\
    system_state s' = SYSTEM_SCHEDULING /\ kthreadd_done s' = true) s.
Proof.
  intros Hk. inversion_clear Hk as [|?? K1 Hk1]. apply (Forall_app _ ["set_cpus_allowed_ptr"; "numa_default_policy"]) in Hk1 as [Hk2 Hk3].
  unfold rest_init. rewrite wp_bind. eapply wp_mono; [|apply wp_and; [apply run_spec|by apply run_irqs]]. intros [] s1 [[S1 L1] I1].
  unfold spawn. rewrite wp_bind, wp_bind. eapply wp_mono; [|apply ran_spec]. intros [] s1' (S1' & I1' & L1').
  destruct user_mode_thread_ok as (Ua & Ui & Uf).
  eapply wp_mono; [|apply wp_and; [apply Ua|apply wp_and; [apply Ui|apply Uf]]]. intros pid s2 [[S2 T2] [I2 [flags F2]]].
  rewrite wp_bind, wp_gets, wp_bind, wp_gets, wp_bind, wp_deref. exists flags. split; [done|]. rewrite wp_bind, wp_modify, wp_bind.
  set (s3 := s2 <| task_flags ::= _ |>). assert (steady s2 s3 /\ irqs_disabled s3 = irqs_disabled s2 /\ b_trace s3 = b_trace s2) as (S3 & I3 & T3) by done.
  clearbody s3. eapply wp_mono; [|by apply run_all_irqs]. intros [] s4 (S4 & I4 & L4).
  rewrite wp_bind, wp_bind. eapply wp_mono; [|apply ran_spec]. intros [] s4' (S4' & I4' & L4').
  destruct kernel_thread_ok as [Ka Ki].
  eapply wp_mono; [|apply wp_and; [apply Ka|apply Ki]]. intros pid' s5 [[S5 T5] I5].
  rewrite wp_bind, wp_gets, wp_bind, wp_modify. unfold set_system_state, ran, emit.
  rewrite !wp_bind, wp_modify, wp_modify, wp_bind, wp_bind, wp_gets, wp_modify, wp_bind, wp_modify.
  set (s6 := _ <| kthreadd_done := true |>).
  assert (early_boot_irqs_disabled s6 = early_boot_irqs_disabled s5 /\ irqs_disabled s6 = irqs_disabled s5 /\
    ran_log s6 = ran_log s5 ++ [("complete"%string, irqs_disabled s5)] /\
    system_state s6 = SYSTEM_SCHEDULING /\ kthreadd_done s6 = true) as (E6 & I6 & L6 & St6 & D6) by done. clearbody s6.
  eapply wp_mono; [|by apply run_all_irqs]. intros [] s7 (S7 & I7 & L7).
  split_and!.
  - rewrite L7, L6, (log_same _ _ T5), L4', L4, (log_same _ _ T3), (log_same _ _ T2), L1', L1, I6, I5, I4', I4, I3, I2, I1', I1.
    unfold schedule. rewrite <- !app_assoc. done.
  - rewrite (sd_early _ _ S7), E6, (sd_early _ _ S5), (sd_early _ _ S4'), (sd_early _ _ S4), (sd_early _ _ S3), (sd_early _ _ S2),
      (sd_early _ _ S1'), (sd_early _ _ S1). done.
  - congruence.
  - by rewrite (sd_state _ _ S7).
  - by rewrite (sd_done _ _ S7).
Qed.

End Irqs.

(** ** Which program becomes init *)

(** [kernel_execve] succeeds or fails with the program, and leaves the variables of
    the boot and its strings alone. *)
Record keeps_init (s s' : boot) : Prop := {
  ki_mem : b_mem s ⊆ b_mem s';
  ki_argv : argv_init s' = argv_init s;
  ki_envp : envp_init s' = envp_init s;
  ki_execute : execute_command s' = execute_command s;
  ki_late : panic_later s' = panic_later s;
  ki_trace : b_trace s' = b_trace s;
}.
Class ExecOk `{BootWorld} (exec_result : list Z -> Z) : Prop :=
  kernel_execve_ok path argv envp s :
    wp (kernel_execve path argv envp) (fun r s' => r = exec_result path /\ keeps_init s s') s.

Section FirstInit.
Context `{BootOptions} `{!BootOptionsOk} `{BootWorld} (exec_result : list Z -> Z) `{!ExecOk exec_result}.
Implicit Types (s : boot) (pxs : list (Z * list Z)).

(** The routines, initcalls, constructors and programs that were run and the states of the system, oldest first. *)
Inductive milestone :=
| Routine (r : string) (irqs_off : bool)
| Called (fn : Z)
| Constructed (fn : Z)
| StateIs (st : system_states)
| Started (path : list Z) (argv envp : list Z).
Definition milestone_of (e : boot_event) : option milestone :=
  match e with
  | Ran r off => Some (Routine r off)
  | InitCall fn _ _ => Some (Called fn)
  | Ctor fn => Some (Constructed fn)
  | StateSet st => Some (StateIs st)
  | Execve path argv envp => Some (Started path argv envp)
  | _ => None
  end.
Definition milestones (s : boot) : list milestone := rev (omap milestone_of (b_trace s)).
Definition attempt (argv envp : list Z) (px : Z * list Z) : milestone := Started px.2 (<[O := px.1]> argv) envp.

(** The arrays are in order, and the programs' names are in memory. *)
Record ready (argv envp : list Z) (cmd : Z) pxs (s : boot) : Prop := {
  rd_inv : boot_inv [] s;
  rd_late : panic_later s = None;
  rd_argv : exists a, argv_init s = <[O := a]> argv;
  rd_envp : envp_init s = envp;
  rd_cmd : execute_command s = cmd;
  rd_names : Forall (fun px => 0 < px.1 /\ str_at (b_mem s) px.1 px.2) pxs;
}.

(** Other events. *)
Definition noise (es : list boot_event) : Prop := Forall (fun e => milestone_of e = None) es.

Lemma milestones_noise es s : noise es -> milestones (s <| b_trace := es ++ b_trace s |>) = milestones s.
Proof.
  intros Hn. unfold milestones. change (b_trace (s <| b_trace := es ++ b_trace s |>)) with (es ++ b_trace s).
  induction Hn as [|e es He Hn IH]; [done|]. cbn [app omap list_omap]. by rewrite He.
Qed.

Lemma ready_trace argv envp cmd pxs es s : ready argv envp cmd pxs s -> ready argv envp cmd pxs (s <| b_trace := es ++ b_trace s |>).
Proof. intros [Hi ? ? ? ? ?]. split; try done. destruct Hi. by split. Qed.

(** A routine that only adds to the trace. *)
Definition noisy (m : Boot unit) (s : boot) : Prop := exists es, noise es /\ m s = Done tt (s <| b_trace := es ++ b_trace s |>).

Lemma noisy_ret s : noisy (mret tt) s.
Proof. exists []. split; [constructor|]. by destruct s. Qed.
Lemma noisy_emit e s : noise [e] -> noisy (emit e) s.
Proof. intros Hn. by exists [e]. Qed.
Lemma noisy_then (m k : Boot unit) s :
  noisy m s -> (forall es, noisy k (s <| b_trace := es ++ b_trace s |>)) -> noisy (m;; k) s.
Proof.
  intros (es & Hn & R) Hk. destruct (Hk es) as (es' & Hn' & R'). exists (es' ++ es). split; [by apply Forall_app|].
  rewrite (bind_done _ _ _ _ _ R), R'. cbn. by rewrite app_assoc.
Qed.

Lemma debug_noisy s ps xs rest : strings_at (b_mem s) ps xs -> noisy (debug_strings (ps ++ 0 :: rest)) s.
Proof.
  intros Hps. remember (b_mem s) as m eqn:Hm. revert s Hm.
  induction Hps as [|p x ps xs [Hp Hx] Hps IH]; intros s ->; cbn [app debug_strings]; [apply noisy_ret|].
  destruct (Z.eqb_spec p 0); [done|].
  destruct (noisy_then (emit (Notice x)) (debug_strings (ps ++ 0 :: rest)) s) as (es & Hn & R);
    [by apply noisy_emit; repeat constructor|intros es; by apply IH|].
  exists es. split; [done|]. by rewrite (bind_done _ _ _ _ _ (c_string_run _ _ _ Hx)).
Qed.

(** An array for init, up to its NULL. *)
Lemma array_strings s : boot_inv [] s -> panic_later s = None ->
  (exists ps xs rest, argv_init s = ps ++ 0 :: rest /\ strings_at (b_mem s) ps xs) /\
  (exists ps xs rest, envp_init s = ps ++ 0 :: rest /\ strings_at (b_mem s) ps xs).
Proof.
  intros [_ _ Hlast Hent _ _] Hl. destruct (Hlast Hl) as [Za Ze]. apply Forall_app in Hent as [HA HE].
  split; by eapply strings_prefix.
Qed.

(** Another name for the program keeps the arrays in order. *)
Lemma named_inv p x s : boot_inv [] s -> 0 < p -> str_at (b_mem s) p x -> boot_inv [] (s <| argv_init ::= <[O := p]> |>).
Proof.
  intros [La Le Hl He Ht Ha] Hp Hx. split; try done; cbn [argv_init envp_init update_field].
  - by rewrite length_insert.
  - intros Hn. destruct (Hl Hn). split; [|done]. by rewrite list_lookup_insert_ne.
  - apply Forall_app in He as [HA HE]. apply Forall_app. split; [|done]. apply Forall_insert; [done|]. right. by exists x.
Qed.

Lemma ready_noisy argv envp cmd pxs m s (Q : unit -> boot -> Prop) :
  ready argv envp cmd pxs s -> noisy m s ->
  (forall s', ready argv envp cmd pxs s' -> milestones s' = milestones s -> b_mem s' = b_mem s -> argv_init s' = argv_init s -> Q tt s') ->
  wp m Q s.
Proof.
  intros Hr (es & Hn & R) HQ. rewrite (wp_run _ _ _ _ _ R). apply HQ; [by apply ready_trace|by apply milestones_noise|done|done].
Qed.

Lemma run_init_spec argv envp cmd p x pxs s :
  ready argv envp cmd ((p, x) :: pxs) s ->
  wp (run_init_process p) (fun r s' => r = exec_result x /\ ready argv envp cmd pxs s' /\
    milestones s' = milestones s ++ [attempt argv envp (p, x)]) s.
Proof.
  intros [Hi Hl [a HA] HE Hcmd Hn]. inversion_clear Hn as [|?? [Hp Hx] Hn']. cbn [fst snd] in Hp, Hx.
  assert (0 < length (argv_init s))%nat as Hlen by (rewrite (bi_argv _ _ Hi); lia).
  unfold run_init_process. rewrite wp_bind, wp_gets, wp_bind, (wp_run _ _ _ _ _ (put_slot_run _ _ _ _ Hlen)), wp_bind, wp_modify.
  pose proof (named_inv _ _ _ Hi Hp Hx) as Hi1. set (s1 := s <| argv_init := _ |>).
  assert (argv_init s1 = <[O := p]> argv) as A1 by (cbn; rewrite HA; apply list_insert_insert_eq).
  rewrite HA, list_insert_insert_eq.
  assert (ready argv envp cmd pxs s1) as R1 by (split; [exact Hi1|exact Hl|by exists p|exact HE|exact Hcmd|exact Hn']).
  assert (milestones s1 = milestones s) as X1 by done. change (str_at (b_mem s1) p x) in Hx. clearbody s1.
  rewrite wp_bind, (wp_run _ _ _ _ _ (c_string_run _ _ _ Hx)), wp_bind.
  eapply ready_noisy; [exact R1|by apply noisy_emit; repeat constructor|]. intros s2 R2 X2 M2 A2. rewrite wp_bind.
  pose proof R2 as [I2 Hl2 _ HE2 _ _]. destruct (array_strings s2 I2 Hl2) as [(ps & xs & ra & Eps & Hps) (qs & ys & re & Eqs & Hqs)].
  assert (noisy (debug_strings (<[O := p]> argv)) s2) as N2 by (rewrite <- A1, <- A2, Eps; by eapply debug_noisy).
  eapply ready_noisy; [exact R2|exact N2|]. intros s3 R3 X3 M3 A3. rewrite wp_bind, wp_gets, (rd_envp _ _ _ _ _ R3), wp_bind.
  assert (noisy (debug_strings envp) s3) as N3 by (rewrite <- HE2, Eqs; eapply debug_noisy; by rewrite M3).
  eapply ready_noisy; [exact R3|exact N3|]. intros s4 R4 X4 M4 A4.
  unfold emit. rewrite wp_bind, wp_modify. eapply wp_mono; [|apply kernel_execve_ok]. intros r s5 [-> [Km Ka Ke Kc Kl Kt]].
  change (b_mem s4 ⊆ b_mem s5) in Km. change (argv_init s5 = argv_init s4) in Ka. split_and!; [done| |].
  - destruct R4 as [I4 Hl4 HA4 HE4 Hc4 Hn4]. split; [|by rewrite Kl|by rewrite Ka|by rewrite Ke|by rewrite Kc|].
    + destruct I4 as [B1 B2 B3 B4 B5 B6]. split; rewrite ?Ka, ?Ke, ?Kl; try done.
      eapply Forall_impl; [exact B4|]. intros q [->|(y & Hq & Hy & Hty)]; [by left|]. right. exists y. split_and!; [done|by eapply str_sub|done].
    + eapply Forall_impl; [exact Hn4|]. intros q [Hq Hy]. split; [done|by eapply str_sub].
  - unfold milestones in *. rewrite Kt. cbn. by rewrite X4, X3, X2, X1.
Qed.

(** The programs up to the first one that works. *)
Fixpoint until_works pxs : option (list (Z * list Z)) :=
  match pxs with
  | [] => None
  | px :: pxs => if exec_result px.2 =? 0 then Some [px] else cons px <$> until_works pxs
  end.

Definition starts (argv envp : list Z) (m : Boot Z) pxs (s : boot) : Prop :=
  match until_works pxs with
  | Some l => wp m (fun r s' => r = 0 /\ milestones s' = milestones s ++ (attempt argv envp <$> l)) s
  | None => m s = Crash KernelPanic
  end.
Definition tries (argv envp : list Z) (cmd : Z) (m : Boot Z) pxs : Prop :=
  forall s, ready argv envp cmd pxs s -> starts argv envp m pxs s.

Lemma starts_at argv envp m m' pxs s : m s = m' s -> starts argv envp m' pxs s -> starts argv envp m pxs s.
Proof. unfold starts, wp. by intros ->. Qed.
Lemma tries_ext argv envp cmd m m' pxs : (forall s, m s = m' s) -> tries argv envp cmd m' pxs -> tries argv envp cmd m pxs.
Proof. intros E Ht s Hr. eapply starts_at; [apply E|by apply Ht]. Qed.

Lemma tries_panic argv envp cmd : tries argv envp cmd panic [].
Proof. by intros s _. Qed.

Lemma tries_cons argv envp cmd p x pxs (pr : Z -> Boot unit) k :
  (forall r s, noisy (pr r) s) -> tries argv envp cmd k pxs ->
  tries argv envp cmd (ret ← run_init_process p; if truthy ret then pr ret;; k else mret 0) ((p, x) :: pxs).
Proof.
  intros Hpr Hk s Hr. pose proof (run_init_spec _ _ _ _ _ _ _ Hr) as Hrun. unfold starts. cbn [until_works snd].
  destruct (Z.eqb_spec (exec_result x) 0) as [E|E].
  - rewrite wp_bind. eapply wp_mono; [|exact Hrun]. intros r s1 (-> & _ & X1). rewrite E. done.
  - assert (wp (run_init_process p) (fun r s1 => truthy r = true /\ exists s2, pr r s1 = Done tt s2 /\
      milestones s2 = milestones s ++ [attempt argv envp (p, x)] /\ starts argv envp k pxs s2) s) as Hnext.
    { eapply wp_mono; [|exact Hrun]. intros r s1 (-> & R1 & X1). split; [by apply truthy_true|].
      destruct (Hpr (exec_result x) s1) as (es & Hn & R). eexists. split_and!; [exact R|by rewrite milestones_noise|].
      apply Hk. by apply ready_trace. }
    unfold starts in Hnext. destruct (until_works pxs) as [l|]; cbn.
    + rewrite wp_bind. eapply wp_mono; [|exact Hnext]. intros r s1 (-> & s2 & R & X2 & Hw). rewrite wp_bind, (wp_run _ _ _ _ _ R).
      eapply wp_mono; [|exact Hw]. intros r' s3 [-> X3]. split; [done|]. by rewrite X3, X2, <- app_assoc.
    + apply wp_then_crash. eapply wp_mono; [|exact Hnext]. intros r s1 (-> & s2 & R & _ & Hw). by rewrite (bind_done _ _ _ _ _ R).
Qed.

Lemma noisy_printk msg s : noisy (printk msg) s.
Proof. apply noisy_emit. by repeat constructor. Qed.

Lemma fallbacks_try argv envp cmd names xs :
  length names = length xs -> tries argv envp cmd (try_fallbacks names) (zip (literal <$> names) xs).
Proof.
  revert xs. induction names as [|name names IH]; intros [|x xs] Hl; try done; cbn [try_fallbacks].
  cbn [fmap list_fmap zip zip_with]. refine (tries_ext _ _ _ _ _ _ _ (tries_cons _ _ _ _ x _
    (fun ret => if negb (ret =? - ENOENT) then printk "Starting init: exists but couldn't execute it" else mret tt) _ _ (IH xs _))).
  - intros s. unfold try_to_run_init_process, mbind, kern_bind. destruct (run_init_process (literal name) s) as [r s1|]; [|done].
    destruct (truthy r) eqn:Ht; [|cbn; by rewrite Ht]. destruct (negb _); cbn; by rewrite Ht.
  - intros r s. destruct (negb _); [apply noisy_printk|apply noisy_ret].
  - by injection Hl.
Qed.

(** The programs [kernel_init] tries: the ramdisk's init; then the one the user asked
    for, or the configured default and the well-known names. *)
Definition inits (s : boot) : list Z :=
  (if truthy (ramdisk_execute_command s) then [ramdisk_execute_command s] else [])
  ++ (if truthy (execute_command s) then [execute_command s]
      else (if bool_decide (CONFIG_DEFAULT_INIT = "") then [] else [literal CONFIG_DEFAULT_INIT]) ++ (literal <$> fallbacks)).

Lemma default_tries argv envp cmd ps xs :
  ps = (if bool_decide (CONFIG_DEFAULT_INIT = "") then [] else [literal CONFIG_DEFAULT_INIT]) ++ (literal <$> fallbacks) ->
  length ps = length xs -> tries argv envp cmd start_fallbacks (zip ps xs).
Proof.
  intros -> Hl. unfold start_fallbacks. destruct (bool_decide _); [by apply fallbacks_try|].
  destruct xs as [|x xs]; [done|]. cbn [app zip zip_with].
  apply (tries_cons _ _ _ _ x _ (fun _ => printk "Default init failed")); [intros; apply noisy_printk|].
  apply fallbacks_try. by injection Hl.
Qed.

Lemma requested_tries argv envp cmd ps xs :
  ps = (if truthy cmd then [cmd] else (if bool_decide (CONFIG_DEFAULT_INIT = "") then [] else [literal CONFIG_DEFAULT_INIT]) ++ (literal <$> fallbacks)) ->
  length ps = length xs -> tries argv envp cmd start_requested (zip ps xs).
Proof.
  intros Hps Hl s Hr. pose proof (rd_cmd _ _ _ _ _ Hr) as Hc. destruct (truthy cmd) eqn:Ht.
  - subst ps. destruct xs as [|x [|]]; [done| |done]. cbn [zip zip_with] in *.
    eapply starts_at; [|exact (tries_cons argv envp cmd cmd x [] (fun _ => mret tt) panic (fun _ => noisy_ret) (tries_panic argv envp cmd) s Hr)].
    unfold start_requested. by rewrite gets_bind, Hc, Ht.
  - eapply starts_at; [|exact (default_tries argv envp cmd ps xs Hps Hl s Hr)]. unfold start_requested. by rewrite gets_bind, Hc, Ht.
Qed.

Lemma start_init_spec s xs :
  boot_inv [] s -> panic_later s = None -> Forall2 (fun p x => 0 < p /\ str_at (b_mem s) p x) (inits s) xs ->
  starts (argv_init s) (envp_init s) start_init (zip (inits s) xs) s.
Proof.
  intros Hi Hl Hn. assert (ready (argv_init s) (envp_init s) (execute_command s) (zip (inits s) xs) s) as Hr.
  { split; try done.
    - destruct (argv_init s) as [|a argv] eqn:EA; [|by exists a]. pose proof (bi_argv _ _ Hi) as La. by rewrite EA in La.
    - clear -Hn. induction Hn; constructor; done. }
  pose proof (Forall2_length _ _ _ Hn) as Hlen. unfold start_init. revert Hr Hlen. unfold inits.
  destruct (truthy (ramdisk_execute_command s)) eqn:Ht; intros Hr Hlen.
  - destruct xs as [|x xs]; [done|]. cbn [app zip zip_with] in *.
    assert (tries (argv_init s) (envp_init s) (execute_command s) start_requested (zip _ xs)) as Hreq
      by (apply requested_tries; [reflexivity|by injection Hlen]).
    eapply starts_at; [|exact (tries_cons _ _ _ _ x _ (fun _ => printk "Failed to execute the ramdisk's init") _
                               (fun _ => noisy_printk _) Hreq s Hr)]. by rewrite gets_bind, Ht.
  - eapply starts_at; [|exact (requested_tries _ _ _ _ xs eq_refl Hlen s Hr)]. by rewrite gets_bind, Ht.
Qed.

(** C13: [kernel_init] starts the first program that works.  It tries the ramdisk's init;
    then, if the user named a program, only that one, and otherwise the configured
    default and [/sbin/init], [/etc/init], [/bin/init] and [/bin/sh].  Each is run with
    its own name and the arguments and environment collected from the command line; the
    first success ends the search.  The kernel panics exactly if none of them works. *)
Theorem first_working_init_runs s xs :
  boot_inv [] s -> panic_later s = None -> Forall2 (fun p x => 0 < p /\ str_at (b_mem s) p x) (inits s) xs ->
  starts (argv_init s) (envp_init s) start_init (zip (inits s) xs) s.
Proof. exact (start_init_spec s xs). Qed.
End FirstInit.

(** ** The standard streams of init *)
Definition lowest_free (t : gmap Z Z) (fd : Z) : Prop :=
  0 <= fd /\ t !! fd = None /\ forall k, 0 <= k < fd -> is_Some (t !! k).

(** [init_dup] puts the file into the lowest free descriptor, or fails. *)
Class InitDupOk `{VfsEnv} `{BootWorld} : Prop :=
  init_dup_ok s p h : vfs_wf s -> v_held s = FileRef p :: h ->
    wp (init_dup p) (fun r s' => vfs_wf s' /\ v_held s' = v_held s /\
      (is_errno r /\ v_fdt s' = v_fdt s \/ r = 0 /\ exists fd, lowest_free (v_fdt s) fd /\ v_fdt s' = <[fd := p]> (v_fdt s))) s.

(** There is room for more descriptors. *)
Definition dup_works `{VfsEnv} `{BootWorld} : Prop :=
  forall s p h, vfs_wf s -> v_held s = FileRef p :: h -> wp (init_dup p) (fun r _ => r = 0) s.

Section Console.
Context `{UserArch} `{OpenEnvOk} `{BootWorld} `{!InitDupOk}.

(** [n] more descriptors for file [p]. *)
Inductive dups (p : Z) : nat -> gmap Z Z -> gmap Z Z -> Prop :=
| dups_O t : dups p O t t
| dups_S n t t' fd : dups p n t t' -> lowest_free t' fd -> dups p (S n) t (<[fd := p]> t').

(** The first [n] descriptors. *)
Definition stdio (p : Z) (n : nat) : gmap Z Z := list_to_map ((fun i => (Z.of_nat i, p)) <$> seq 0 n).

Lemma stdio_lookup p n k : stdio p n !! k = if decide (0 <= k < Z.of_nat n) then Some p else None.
Proof.
  unfold stdio. induction n as [|n IH]; [by rewrite decide_False by lia|].
  rewrite seq_S, fmap_app, list_to_map_app, lookup_union, IH. cbn [fmap list_fmap Nat.add].
  destruct (decide (k = Z.of_nat n)) as [->|Hne].
  - rewrite decide_False, decide_True by lia. cbn. by rewrite lookup_insert_eq.
  - cbn. rewrite lookup_insert_ne, lookup_empty by done. repeat case_decide; try lia; done.
Qed.

Lemma dups_empty p n t : dups p n ∅ t -> t = stdio p n.
Proof.
  remember ∅ as t0 eqn:E0. induction 1 as [|n t0 t fd _ IH (H0' & Hnone & Hlow)]; [done|]. specialize (IH E0). subst t.
  assert (fd = Z.of_nat n) as ->.
  { rewrite stdio_lookup in Hnone. case_decide; [done|]. destruct (decide (fd = Z.of_nat n)) as [|Hne]; [done|].
    destruct (Hlow (Z.of_nat n)) as [q Hq]; [lia|]. rewrite stdio_lookup in Hq. by rewrite decide_False in Hq by lia. }
  apply map_eq. intros k. rewrite stdio_lookup. destruct (decide (k = Z.of_nat n)) as [->|Hne].
  - by rewrite lookup_insert_eq, decide_True by lia.
  - rewrite lookup_insert_ne, stdio_lookup by done. repeat case_decide; try lia; done.
Qed.

Lemma dup_step s s0 p h n :
  vfs_wf s -> v_held s = FileRef p :: h -> dups p n s0 (v_fdt s) ->
  wp (init_dup p) (fun _ s' => vfs_wf s' /\ v_held s' = FileRef p :: h /\
    exists k, (k <= S n)%nat /\ (dup_works -> k = S n) /\ dups p k s0 (v_fdt s')) s.
Proof.
  intros Hs Hh Hd. pose proof (init_dup_ok s p h Hs Hh) as Hok. apply wp_done in Hok as (r & s' & Hrun & Hs' & Hh' & Hf).
  rewrite (wp_run _ _ _ _ _ Hrun). split_and!; [done|congruence|].
  destruct Hf as [[He ->]|(-> & fd & Hlow & ->)].
  - exists n. split_and!; [lia| |done]. intros Hw. specialize (Hw s p h Hs Hh). rewrite (wp_run _ _ _ _ _ Hrun) in Hw.
    unfold is_errno in He. lia.
  - exists (S n). split_and!; [done|done|]. by constructor.
Qed.

(** What init has of the console [name]: descriptors 0, 1 and 2 (or fewer, if there is no room). *)
Definition console_streams (name : Z) s (t : gmap Z Z) : Prop :=
  match filp_open name O_RDWR 0 s with
  | Done (inr p) _ => exists n, (n <= 3)%nat /\ (dup_works -> n = 3%nat) /\ dups p n (v_fdt s) t /\ (v_fdt s = ∅ -> t = stdio p n)
  | _ => t = v_fdt s
  end.

Lemma console_spec s name :
  vfs_wf s ->
  wp (console_on_rootfs name) (fun ok s' => vfs_wf s' /\ v_held s' = v_held s /\ console_streams name s (v_fdt s') /\
    ok = (if filp_open name O_RDWR 0 s is Done (inr _) _ then true else false)) s.
Proof.
  intros Hs. unfold console_on_rootfs, console_streams. pose proof (filp_open_clean s name O_RDWR 0 Hs) as Hopen.
  apply wp_done in Hopen as (r & s1 & Hrun & Hs1 & Hk1 & Hr). rewrite wp_bind, (wp_run _ _ _ _ _ Hrun), Hrun.
  destruct r as [e|p]; [rewrite wp_ret; split_and!; [done|apply Hr|apply Hk1|done]|].
  destruct Hr as [Hh1 _]. assert (v_fdt s1 = v_fdt s) as Hf1 by apply Hk1. unfold dup_thrice. rewrite wp_bind, !wp_bind.
  eapply wp_mono; [|eapply (dup_step s1 (v_fdt s) p _ 0); [done|done|rewrite Hf1; constructor]].
  intros _ s2 (Hs2 & Hh2 & n2 & Hn2 & Hw2 & Hd2). rewrite wp_bind. eapply wp_mono; [|by eapply dup_step].
  intros _ s3 (Hs3 & Hh3 & n3 & Hn3 & Hw3 & Hd3). rewrite wp_bind. eapply wp_mono; [|by eapply dup_step].
  intros _ s4 (Hs4 & Hh4 & n4 & Hn4 & Hw4 & Hd4). rewrite wp_ret, wp_bind. eapply wp_mono; [|by eapply fput_open].
  intros _ s5 (Hs5 & Hh5 & Hk5). rewrite wp_ret. assert (v_fdt s5 = v_fdt s4) as Hf5 by apply Hk5.
  split_and!; [done|done| |done]. exists n4. rewrite Hf5. split_and!; [lia| |done|].
  - intros Hw. rewrite (Hw4 Hw), (Hw3 Hw), (Hw2 Hw). done.
  - intros E. rewrite E in Hd4. by apply dups_empty.
Qed.

(** The console becomes the standard streams of init.  If [/dev/console] can be opened,
    init, which has no open files yet, gets it as its first descriptors 0, 1 and 2 (or
    fewer, if there is no room), all for the same file; otherwise its table stays as it
    is.  Either way no reference to a file is left behind. *)
Theorem console_becomes_stdio s name :
  vfs_wf s ->
  wp (console_on_rootfs name) (fun ok s' => vfs_wf s' /\ v_held s' = v_held s /\ console_streams name s (v_fdt s') /\
    ok = (if filp_open name O_RDWR 0 s is Done (inr _) _ then true else false)) s.
Proof. exact (console_spec s name). Qed.
End Console.
