(* ===== verification/Userspace.v ===== *)
(** From the first thread to the first program ([init/main.c]): [kernel_init] as a
    whole, put together from the parts in the other boot files.

    The theorem ([kernel_init_reaches_userspace]): the thread runs the routines of
    [prepare_log] in order, among them all initcalls that are not blacklisted and the
    routines that free the memory of the boot, gives init its standard streams if the
    console can be opened, and starts the first program that works with the collected
    arguments, or panics if there is none. *)

From S2P Require Import Prelude CStrings BootState BootArgs BootConfig BootParse Initcalls BootMain.
From S2P Require Import Uaccess Kernel Vfs OpenFlags Open OpenCalls.

(** Other subsystems keep memory that is not part of the boot's own sections; whether
    there is an early init depends on the ramdisk. *)
Class UserspaceOk `{BootWorld} := {
  init_memory : Z -> bool;
  eaccess_result : list Z -> Z;
  subsystem_mem r s : wp (subsystem r) (fun _ s' =>
    forall x c, init_memory x = false -> b_mem s !! x = Some c -> b_mem s' !! x = Some c) s;
  ctor_ok fn s : wp (call_ctor fn) (fun _ s' => undisturbed s s' /\ irqs_disabled s' = irqs_disabled s /\ b_trace s' = b_trace s) s;
  eaccess_ok path s : wp (init_eaccess path) (fun r s' => r = eaccess_result path /\
    undisturbed s s' /\ irqs_disabled s' = irqs_disabled s /\ b_trace s' = b_trace s) s;
}.

Section Userspace.
Context `{Memblock} `{BootOptions} `{!BootOptionsOk} `{BootConf} `{!ParseArgsOk} `{InitEnv} `{!InitEnvOk}.
Context `{BootWorld} `{!BootWorldOk} (exec_result : list Z -> Z) `{!ExecOk exec_result} `{!UserspaceOk}.
Context `{UserArch} `{VfsEnv} `{!OpenEnv} `{!OpenEnvOk} `{!InitDupOk}.
Implicit Types (s b : boot) (L : list milestone).

(** The state of the boot while [kernel_init] runs: [m0] is memory that stays, [b] the
    state at the start, [rd] the ramdisk's init and [L] the milestones so far. *)
Record up (m0 : mem) (b : boot) (rd : Z) L (s : boot) : Prop := {
  up_mem : m0 ⊆ b_mem s;
  up_argv : argv_init s = argv_init b;
  up_envp : envp_init s = envp_init b;
  up_late : panic_later s = panic_later b;
  up_execute : execute_command s = execute_command b;
  up_ramdisk : ramdisk_execute_command s = rd;
  up_saved : saved_command_line s = saved_command_line b;
  up_len : saved_command_line_len s = saved_command_line_len b;
  up_black : blacklisted_initcalls s = blacklisted_initcalls b;
  up_rodata : rodata_enabled s = rodata_enabled b;
  up_irqs : irqs_disabled s = false;
  up_log : milestones s = L;
}.
Definition lasting (m0 : mem) : Prop := forall x c, m0 !! x = Some c -> init_memory x = false.

Lemma up_steady m0 b rd L L' s s' :
  up m0 b rd L s -> m0 ⊆ b_mem s' -> steady s s' -> irqs_disabled s' = irqs_disabled s -> milestones s' = L' -> up m0 b rd L' s'.
Proof. intros [] Hm [] Hi Hl. split; try done; congruence. Qed.

Lemma lasting_kept m0 m m' :
  lasting m0 -> m0 ⊆ m -> (forall x c, init_memory x = false -> m !! x = Some c -> m' !! x = Some c) -> m0 ⊆ m'.
Proof.
  intros Hl Hm Hk. apply map_subseteq_spec. intros x c Hx. apply Hk; [by eapply Hl|]. by eapply lookup_weaken.
Qed.

Lemma up_noisy m0 b rd L m s (Q : unit -> boot -> Prop) :
  up m0 b rd L s -> noisy m s -> (forall s', up m0 b rd L s' -> Q tt s') -> wp m Q s.
Proof.
  intros Hu (es & Hn & R) HQ. rewrite (wp_run _ _ _ _ _ R). apply HQ.
  eapply up_steady; [exact Hu|apply Hu|done|done|]. rewrite milestones_noise by done. apply Hu.
Qed.

(** Routines that run with interrupts on. *)
Definition routines (rs : list string) : list milestone := (fun r => Routine r false) <$> rs.

Lemma milestones_emit e s : milestones (s <| b_trace ::= cons e |>) = milestones s ++ (if milestone_of e is Some x then [x] else []).
Proof.
  unfold milestones. change (b_trace (s <| b_trace ::= cons e |>)) with (e :: b_trace s). cbn [omap list_omap].
  destruct (milestone_of e); cbn [rev]; [done|by rewrite app_nil_r].
Qed.

Lemma up_emit m0 b rd L e x s (Q : unit -> boot -> Prop) :
  milestone_of e = Some x -> up m0 b rd L s -> (forall s', up m0 b rd (L ++ [x]) s' -> Q tt s') -> wp (emit e) Q s.
Proof.
  intros He Hu HQ. unfold emit. rewrite wp_modify. apply HQ. set (s1 := s <| b_trace ::= cons e |>).
  eapply (up_steady _ _ _ _ _ s s1); [exact Hu|apply Hu|done|done|]. unfold s1. rewrite milestones_emit, He. f_equal. apply Hu.
Qed.

Lemma up_run m0 b rd L r s :
  lasting m0 -> keeps_irqs (subsystem r) -> up m0 b rd L s -> wp (run r) (fun _ s' => up m0 b rd (L ++ routines [r]) s') s.
Proof.
  intros Hl Hk Hu. unfold run, ran. rewrite wp_bind, wp_bind, wp_gets, (up_irqs _ _ _ _ _ Hu).
  eapply up_emit; [done|exact Hu|]. intros s1 Hu1.
  eapply wp_mono; [|apply wp_and; [apply subsystem_mem|apply wp_and; [apply subsystem_ok|apply Hk]]].
  intros _ s2 (Hm & [Hs Ht] & Hi). eapply up_steady; [exact Hu1| |exact Hs|exact Hi|].
  - eapply lasting_kept; [done|apply Hu1|done].
  - unfold milestones. rewrite Ht. apply Hu1.
Qed.

Lemma up_run_all m0 b rd L rs s :
  lasting m0 -> Forall (fun r => keeps_irqs (subsystem r)) rs -> up m0 b rd L s ->
  wp (run_all rs) (fun _ s' => up m0 b rd (L ++ routines rs) s') s.
Proof.
  intros Hl Hk. revert s L. induction Hk as [|r rs Hr Hk IH]; intros s L Hu; cbn [run_all]; [by rewrite wp_ret, app_nil_r|].
  rewrite wp_bind. eapply wp_mono; [|by eapply up_run]. intros [] s1 Hu1. eapply wp_mono; [|exact (IH _ _ Hu1)].
  intros [] s2 Hu2. rewrite <- app_assoc in Hu2. exact Hu2.
Qed.

(** ** Initcalls *)
Lemma milestones_calls s : milestones s = omap milestone_of (calls s).
Proof.
  assert (forall es, rev (omap milestone_of es) = omap milestone_of (rev es)) as Hrev.
  { induction es as [|e es IH]; [done|]. cbn [omap list_omap rev]. rewrite omap_app, <- IH. cbn. destruct (milestone_of e); [done|by rewrite app_nil_r]. }
  unfold milestones, calls. rewrite <- Hrev. f_equal. induction (b_trace s) as [|e es IH]; [done|].
  cbn [List.filter]. destruct e; cbn; by rewrite ?IH.
Qed.

Lemma up_ran m0 b rd L ys es s s' : up m0 b rd L s -> ran_calls ys es s s' -> up m0 b rd (L ++ omap milestone_of es) s'.
Proof.
  intros Hu ([Hm Hs] & Hc & _ & Hi & _). eapply up_steady; [exact Hu|by etrans; [apply Hu|]|exact Hs| |].
  - rewrite Hi. symmetry. apply Hu.
  - rewrite milestones_calls, Hc, omap_app, <- milestones_calls. f_equal. apply Hu.
Qed.

Lemma omap_called ys c fns : omap milestone_of (called ys c fns) = Called <$> runnable ys fns.
Proof. unfold called. induction (runnable ys fns) as [|fn l IH]; [done|]. cbn. by rewrite IH. Qed.

(** The initcalls of the levels, in order. *)
Definition level_calls (ys : list (list Z)) : list milestone := concat ((fun l => Called <$> runnable ys (initcalls_at l)) <$> seq 0 8).

Lemma omap_levels ys c X : omap milestone_of (concat (level_events ys c X <$> seq 0 8)) = level_calls ys.
Proof.
  unfold level_calls. assert (Forall (fun l => (l < 8)%nat) (seq 0 8)) as Hl by (apply Forall_forall; intros l Hl; apply elem_of_seq in Hl; lia).
  induction Hl as [|l ls Hl _ IH]; [done|]. cbn [fmap list_fmap concat]. rewrite omap_app, IH. f_equal.
  unfold level_events. destruct (lookup_lt_is_Some_2 initcall_level_names l Hl) as [name ->]. cbn. apply omap_called.
Qed.

(** ** What the thread starts from *)
Record launch (m0 : mem) (X : list Z) (ys : list (list Z)) (R : list Z) (b : boot) : Prop := {
  la_lasting : lasting m0;
  la_mem : m0 ⊆ b_mem b;
  la_saved : str_at m0 (saved_command_line b) X;
  la_len : saved_command_line_len b = Z.of_nat (length X);
  la_small : Z.of_nat (length X) + 1 < 2 ^ 32;
  la_black : Forall2 (str_at m0) (blacklisted_initcalls b) ys;
  la_ramdisk : str_at m0 (ramdisk_execute_command b) R;
  la_irqs : irqs_disabled b = false;
  la_done : kthreadd_done b = true;
  la_late : panic_later b = None;
  la_arrays : boot_inv [] (b <| b_mem := m0 |>);
}.

Context (m0 : mem) (X : list Z) (ys : list (list Z)) (R : list Z) (b : boot) (Hla : launch m0 X ys R b).
Context (Hirq : forall r, r ∉ early_routines -> keeps_irqs (subsystem r)) (Halloc : forall s n, kzalloc_find s n <> 0).

Lemma routines_quiet rs : Forall (fun r => r ∉ early_routines) rs -> Forall (fun r => keeps_irqs (subsystem r)) rs.
Proof. intros Hrs. eapply Forall_impl; [exact Hrs|exact Hirq]. Qed.

Lemma up_routines rd L rs s :
  bool_decide (Forall (fun r => r ∉ early_routines) rs) = true -> up m0 b rd L s ->
  wp (run_all rs) (fun _ s' => up m0 b rd (L ++ routines rs) s') s.
Proof. intros Hrs. apply up_run_all; [apply Hla|]. apply routines_quiet. by apply bool_decide_eq_true in Hrs. Qed.
Lemma up_routine rd L r s :
  bool_decide (r ∉ early_routines) = true -> up m0 b rd L s -> wp (run r) (fun _ s' => up m0 b rd (L ++ routines [r]) s') s.
Proof. intros Hr. apply up_run; [apply Hla|]. apply Hirq. by apply bool_decide_eq_true in Hr. Qed.

Lemma up_set_state rd L st s : up m0 b rd L s -> wp (set_system_state st) (fun _ s' => up m0 b rd (L ++ [StateIs st]) s') s.
Proof.
  intros Hu. unfold set_system_state. rewrite wp_bind, wp_modify. set (s1 := s <| system_state := st |>).
  assert (up m0 b rd L s1) as Hu1 by (destruct Hu; by split). clearbody s1. eapply up_emit; [done|exact Hu1|done].
Qed.

Lemma up_blacklist rd L s : up m0 b rd L s -> Forall2 (str_at (b_mem s)) (blacklisted_initcalls s) ys.
Proof.
  intros Hu. rewrite (up_black _ _ _ _ _ Hu). eapply Forall2_impl; [apply Hla|]. intros p y Hy. eapply str_sub; [apply Hu|done].
Qed.

Lemma up_pre_smp rd L s :
  up m0 b rd L s -> wp do_pre_smp_initcalls (fun _ s' => up m0 b rd (L ++ (Called <$> runnable ys early_initcalls)) s') s.
Proof.
  intros Hu. unfold do_pre_smp_initcalls. rewrite wp_bind. eapply up_noisy; [exact Hu|by apply noisy_emit; repeat constructor|].
  intros s1 Hu1. eapply wp_mono; [|apply (run_initcalls_spec ys); [by eapply up_blacklist|apply Hu1]].
  intros [] s2 Hr. rewrite <- (omap_called ys (preempt_count s1) early_initcalls). by eapply up_ran.
Qed.

Lemma up_ctors rd L fns s : up m0 b rd L s -> wp (run_ctors fns) (fun _ s' => up m0 b rd (L ++ (Constructed <$> fns)) s') s.
Proof.
  revert s L. induction fns as [|fn fns IH]; intros s L Hu; cbn [run_ctors]; [by rewrite wp_ret, app_nil_r|].
  rewrite wp_bind. eapply up_emit; [done|exact Hu|]. intros s1 Hu1. rewrite wp_bind.
  eapply wp_mono; [|apply ctor_ok]. intros [] s2 ([Hm Hs] & Hi & Ht).
  assert (up m0 b rd (L ++ [Constructed fn]) s2) as Hu2.
  { eapply up_steady; [exact Hu1|by etrans; [apply Hu1|]|exact Hs|exact Hi|]. unfold milestones. rewrite Ht. apply Hu1. }
  eapply wp_mono; [|exact (IH _ _ Hu2)]. intros [] s3 Hu3. rewrite <- app_assoc in Hu3. exact Hu3.
Qed.

(** ** What is run before the first program *)
Definition basic_log : list milestone :=
  routines ["cpuset_init_smp"; "driver_init"; "init_irq_proc"] ++ (Constructed <$> ctors) ++ level_calls ys.
Definition setup_log : list milestone :=
  routines ["set_mems_allowed"; "smp_prepare_cpus"; "workqueue_init"; "init_mm_internals"; "rcu_init_tasks_generic"]
  ++ (Called <$> runnable ys early_initcalls)
  ++ routines ["lockup_detector_init"; "smp_init"; "sched_init_smp"; "workqueue_init_topology"; "padata_init"; "page_alloc_init_late"]
  ++ basic_log
  ++ routines ["kunit_run_all_tests"; "wait_for_initramfs"].
Definition early_init_log : list milestone :=
  (if truthy (eaccess_result R) then routines ["prepare_namespace"] else []) ++ routines ["integrity_load_keys"].
Definition freeing_log : list milestone :=
  routines ["async_synchronize_full"]
  ++ [StateIs SYSTEM_FREEING_INITMEM]
  ++ routines ["kprobe_free_init_mem"; "ftrace_free_init_mem"; "kgdb_free_init_mem"; "exit_boot_config"; "free_initmem"]
  ++ (if rodata_enabled b then routines ["rcu_barrier"; "mark_rodata_ro"; "rodata_test"] else [])
  ++ routines ["pti_finalize"]
  ++ [StateIs SYSTEM_RUNNING]
  ++ routines ["numa_default_policy"; "rcu_end_inkernel_boot"; "do_sysctl_args"].

Lemma up_basic_setup rd L s :
  up m0 b rd L s -> wp do_basic_setup (fun _ s' => up m0 b rd (L ++ basic_log) s') s.
Proof.
  intros Hu. unfold do_basic_setup, do_ctors. rewrite wp_bind. eapply wp_mono; [|by apply up_routines]. intros [] s1 Hu1.
  rewrite wp_bind. eapply wp_mono; [|by apply up_ctors]. intros [] s2 Hu2.
  eapply wp_mono; [|apply (do_initcalls_spec X ys s2)].
  - intros [] s3 [Hr _]. unfold basic_log. rewrite <- (omap_levels ys (preempt_count s2) X), !app_assoc. by eapply up_ran.
  - rewrite (up_saved _ _ _ _ _ Hu2). eapply str_sub; [apply Hu2|apply Hla].
  - rewrite (up_len _ _ _ _ _ Hu2). apply Hla.
  - apply Hla.
  - by eapply up_blacklist.
  - apply Hu2.
  - apply Halloc.
Qed.

Lemma up_setup rd L s :
  up m0 b rd L s -> wp freeable_setup (fun _ s' => up m0 b rd (L ++ setup_log) s') s.
Proof.
  intros Hu. unfold freeable_setup. rewrite wp_bind, wp_modify, wp_bind. set (s1 := s <| gfp_allowed_mask := _ |>).
  assert (up m0 b rd L s1) as Hu1 by (destruct Hu; by split). clearbody s1.
  eapply wp_mono; [|by apply up_routine]. intros [] s2 Hu2. rewrite wp_bind, wp_modify, wp_bind. set (s3 := s2 <| cad_pid := _ |>).
  assert (up m0 b rd (L ++ routines ["set_mems_allowed"%string]) s3) as Hu3 by (destruct Hu2; by split). clearbody s3.
  eapply wp_mono; [|by apply up_routines]. intros [] s4 Hu4. rewrite wp_bind.
  eapply wp_mono; [|by apply up_pre_smp]. intros [] s5 Hu5. rewrite wp_bind.
  eapply wp_mono; [|by apply up_routines]. intros [] s6 Hu6. rewrite wp_bind.
  eapply wp_mono; [|by apply up_basic_setup]. intros [] s7 Hu7. eapply wp_mono; [|by apply up_routines].
  intros [] s8 Hu8. rewrite <- !app_assoc in Hu8. exact Hu8.
Qed.

(** The ramdisk's init, if there is one. *)
Definition early_init : Z := if truthy (eaccess_result R) then 0 else ramdisk_execute_command b.

Lemma up_early_init L console s :
  up m0 b (ramdisk_execute_command b) L s -> wp (find_early_init console) (fun _ s' => up m0 b early_init (L ++ early_init_log) s') s.
Proof.
  intros Hu. unfold find_early_init. rewrite wp_bind.
  eapply up_noisy; [exact Hu|destruct console; [apply noisy_ret|apply noisy_printk]|]. intros s1 Hu1.
  rewrite wp_bind, wp_gets, (up_ramdisk _ _ _ _ _ Hu1).
  assert (str_at (b_mem s1) (ramdisk_execute_command b) R) as HR by (eapply str_sub; [apply Hu1|apply Hla]).
  rewrite wp_bind, (wp_run _ _ _ _ _ (c_string_run _ _ _ HR)), wp_bind.
  eapply wp_mono; [|apply eaccess_ok]. intros r s2 (-> & [Hm Hs] & Hi & Ht).
  assert (up m0 b (ramdisk_execute_command b) L s2) as Hu2.
  { eapply up_steady; [exact Hu1|by etrans; [apply Hu1|]|exact Hs|exact Hi|]. unfold milestones. rewrite Ht. apply Hu1. }
  clear Hm Hs Hi Ht. rewrite wp_bind. unfold early_init, early_init_log. destruct (truthy (eaccess_result R)).
  - rewrite wp_bind, wp_modify. set (s3 := s2 <| ramdisk_execute_command := 0 |>).
    assert (up m0 b 0 L s3) as Hu3 by (destruct Hu2; by split). clearbody s3.
    eapply wp_mono; [|by apply up_routine]. intros [] s4 Hu4. rewrite app_assoc. by apply up_routine.
  - rewrite wp_ret. by apply up_routine.
Qed.

Lemma up_finish rd L s : up m0 b rd L s -> wp finish_boot (fun _ s' => up m0 b rd (L ++ freeing_log) s') s.
Proof.
  intros Hu. unfold finish_boot. rewrite wp_bind. eapply wp_mono; [|by apply up_routine]. intros [] s1 Hu1.
  rewrite wp_bind. eapply wp_mono; [|by apply up_set_state]. intros [] s2 Hu2. rewrite wp_bind.
  eapply wp_mono; [|by apply up_routines]. intros [] s3 Hu3. unfold mark_readonly. rewrite wp_bind, wp_bind, wp_gets, (up_rodata _ _ _ _ _ Hu3).
  match type of Hu3 with up _ _ _ ?L3 _ => set (L3' := L3) in * end.
  assert (wp (if rodata_enabled b then run_all ["rcu_barrier"; "mark_rodata_ro"; "rodata_test"] else printk "Kernel memory protection disabled.")
    (fun _ s' => up m0 b rd (L3' ++ (if rodata_enabled b then routines ["rcu_barrier"; "mark_rodata_ro"; "rodata_test"] else [])) s') s3) as Hro.
  { destruct (rodata_enabled b); [by apply up_routines|]. eapply up_noisy; [exact Hu3|apply noisy_printk|]. by rewrite app_nil_r. }
  eapply wp_mono; [|exact Hro]. intros [] s4 Hu4. rewrite wp_bind. eapply wp_mono; [|by apply up_routine]. intros [] s5 Hu5.
  rewrite wp_bind. eapply wp_mono; [|by apply up_set_state]. intros [] s6 Hu6. eapply wp_mono; [|by apply up_routines].
  intros [] s7 Hu7. unfold L3' in Hu7. rewrite <- !app_assoc in Hu7. exact Hu7.
Qed.

(** ** The whole thread *)
Lemma wp_on_boot {A} (m : Boot A) (Q : A -> machine -> Prop) (s : machine) :
  wp (on_boot m) Q s <-> wp m (fun a b' => Q a (s <| m_boot := b' |>)) (m_boot s).
Proof. unfold wp, on_boot, zoom. by destruct (m (m_boot s)). Qed.
Lemma wp_on_vfs {A} (m : Kern vfs A) (Q : A -> machine -> Prop) (s : machine) :
  wp (on_vfs m) Q s <-> wp m (fun a v => Q a (s <| m_vfs := v |>)) (m_vfs s).
Proof. unfold wp, on_vfs, zoom. by destruct (m (m_vfs s)). Qed.

Definition prepare : Kern machine unit := on_boot wait_for_kthreadd;; kernel_init_freeable;; on_boot finish_boot.
Lemma kernel_init_split (s : machine) : kernel_init s = (prepare ≫= fun _ => on_boot start_init) s.
Proof.
  unfold kernel_init, prepare, mbind, kern_bind. destruct (on_boot wait_for_kthreadd s) as [[] s1|]; [|done].
  destruct (kernel_init_freeable s1) as [[] s2|]; [|done]. by destruct (on_boot finish_boot s2) as [[] s3|].
Qed.

Definition prepare_log : list milestone := setup_log ++ early_init_log ++ freeing_log.

Lemma prepare_spec (s : machine) :
  m_boot s = b -> vfs_wf (m_vfs s) ->
  wp prepare (fun _ (s' : machine) => up m0 b early_init (milestones b ++ prepare_log) (m_boot s') /\
    vfs_wf (m_vfs s') /\ v_held (m_vfs s') = v_held (m_vfs s) /\
    console_streams (literal "/dev/console") (m_vfs s) (v_fdt (m_vfs s'))) s.
Proof.
  intros Hb Hv. unfold prepare, kernel_init_freeable, wait_for_kthreadd. rewrite wp_bind, wp_on_boot, wp_bind, wp_gets, Hb, (la_done _ _ _ _ _ Hla), wp_modify.
  set (b1 := b <| kthreadd_done := false |>). set (s1 := s <| m_boot := b1 |>).
  assert (up m0 b (ramdisk_execute_command b) (milestones b) (m_boot s1)) as Hu1.
  { split; try done; apply Hla. }
  assert (m_vfs s1 = m_vfs s) as Ev by done. clearbody s1. clear b1. rewrite wp_bind, wp_bind, wp_on_boot.
  eapply wp_mono; [|exact (up_setup _ _ _ Hu1)]. intros [] b2 Hu2. cbv beta in Hu2. rewrite wp_bind, wp_on_vfs.
  change (m_vfs (s1 <| m_boot := b2 |>)) with (m_vfs s1). rewrite Ev.
  eapply wp_mono; [|apply console_spec; exact Hv]. intros ok v3 (Hv3 & Hh3 & Hc3 & _). rewrite wp_on_boot.
  eapply wp_mono; [|apply up_early_init; exact Hu2]. intros [] b4 Hu4. rewrite wp_on_boot.
  eapply wp_mono; [|apply up_finish; exact Hu4]. intros [] b5 Hu5. unfold prepare_log. rewrite !app_assoc.
  split_and!; [exact Hu5|exact Hv3|exact Hh3|exact Hc3].
Qed.

Lemma up_arrays rd L s : up m0 b rd L s -> boot_inv [] s.
Proof.
  intros Hu. destruct (la_arrays _ _ _ _ _ Hla) as [La Le Hl He Ht Ha].
  split; rewrite ?(up_argv _ _ _ _ _ Hu), ?(up_envp _ _ _ _ _ Hu), ?(up_late _ _ _ _ _ Hu); try done.
  - eapply Forall_impl; [exact He|]. intros p [->|(x & Hp & Hx & Hts)]; [by left|]. right. exists x. split_and!; [done| |done].
    eapply str_sub; [apply Hu|exact Hx].
Qed.

(** C9: [kernel_init] reaches userspace.  [prepare_log] is everything it runs before the first
    program, in order: the routines of the other subsystems, with interrupts on; every
    initcall that is not blacklisted once, the early ones and then level by level; the
    constructors; the search for an early init; and, in the state
    [SYSTEM_FREEING_INITMEM], the routines that free the memory of the boot, up to the
    state [SYSTEM_RUNNING].  If [/dev/console] can be opened, init, which has no files
    yet, has it as its descriptors 0, 1 and 2 (or fewer if there is no room); otherwise it
    has no files.  Then the first program that works is started: the early init of the
    ramdisk if it is accessible, then those of [start_init], with the arguments and the
    environment collected from the command line.  It panics exactly if none works.  No
    other outcome is possible, and no reference to a file is left behind.  All this
    provided that the allocation for the initcalls succeeds and that the routines of the
    other subsystems leave the interrupts as they find them. *)
Theorem kernel_init_reaches_userspace (s : machine) xs :
  m_boot s = b -> vfs_wf (m_vfs s) -> v_fdt (m_vfs s) = ∅ ->
  let ps := inits (b <| ramdisk_execute_command := early_init |>) in
  Forall2 (fun p x => 0 < p /\ str_at m0 p x) ps xs ->
  match until_works exec_result (zip ps xs) with
  | Some l => wp kernel_init (fun r (s' : machine) => r = 0 /\
      milestones (m_boot s') = milestones b ++ prepare_log ++ (attempt (argv_init b) (envp_init b) <$> l) /\
      vfs_wf (m_vfs s') /\ v_held (m_vfs s') = v_held (m_vfs s) /\
      match filp_open (literal "/dev/console") O_RDWR 0 (m_vfs s) with
      | Done (inr p) _ => exists n, (n <= 3)%nat /\ (dup_works -> n = 3%nat) /\ v_fdt (m_vfs s') = stdio p n
      | _ => v_fdt (m_vfs s') = ∅
      end) s
  | None => kernel_init s = Crash KernelPanic
  end.
Proof.
  intros Hb Hv Hf ps Hxs. pose proof (prepare_spec s Hb Hv) as Hpre.
  assert (forall b1, up m0 b early_init (milestones b ++ prepare_log) b1 ->
    starts exec_result (argv_init b) (envp_init b) start_init (zip ps xs) b1) as Hst.
  { intros b1 Hu. rewrite <- (up_argv _ _ _ _ _ Hu), <- (up_envp _ _ _ _ _ Hu).
    assert (inits b1 = ps) as Hps by (unfold ps, inits; cbn; by rewrite (up_ramdisk _ _ _ _ _ Hu), (up_execute _ _ _ _ _ Hu)).
    rewrite <- Hps. apply (start_init_spec exec_result); [by eapply up_arrays|rewrite (up_late _ _ _ _ _ Hu); apply Hla|].
    rewrite Hps. eapply Forall2_impl; [exact Hxs|]. intros p x [Hp Hx]. split; [done|]. eapply str_sub; [apply Hu|done]. }
  unfold starts in Hst. destruct (until_works exec_result (zip ps xs)) as [l|].
  - apply wp_done in Hpre as ([] & s1 & Hrun & Hu & Hv1 & Hh1 & Hs1).
    specialize (Hst _ Hu). apply wp_done in Hst as (r & b2 & Hrun2 & -> & Hm).
    assert (kernel_init s = Done 0 (s1 <| m_boot := b2 |>)) as Hall.
    { rewrite kernel_init_split, (bind_done _ _ _ _ _ Hrun). unfold on_boot, zoom. by rewrite Hrun2. }
    rewrite (wp_run _ _ _ _ _ Hall). split_and!; [done| |exact Hv1|exact Hh1|].
    + change (milestones b2 = milestones b ++ prepare_log ++ (attempt (argv_init b) (envp_init b) <$> l)).
      by rewrite Hm, (up_log _ _ _ _ _ Hu), <- !app_assoc.
    + change (v_fdt (m_vfs (s1 <| m_boot := b2 |>))) with (v_fdt (m_vfs s1)). unfold console_streams in Hs1. rewrite Hf in Hs1.
      destruct (filp_open _ _ _ _) as [[e|p] v|]; [done| |done]. destruct Hs1 as (n & ? & ? & _ & E). exists n. auto.
  - rewrite kernel_init_split. unfold mbind, kern_bind. apply wp_done in Hpre as ([] & s1 & -> & Hu & _).
    unfold on_boot, zoom. by rewrite (Hst _ Hu).
Qed.
End Userspace.
