(* ===== verification/SampleBoot.v ===== *)
(** A boot environment that keeps every promise the boot files rely on, and the
    theorems about the boot applied to it.

    Memory is allocated behind everything in use.  The parser splits a command line at
    spaces and equals signs, and stops at [--]. *)

From S2P Require Import Prelude CStrings BootState BootArgs BootConfig BootParse Initcalls BootMain Userspace.
From S2P Require Import Uaccess Kernel Track Cred Vfs OpenFlags Open OpenCalls SampleFs.

(** ** The allocator *)
Definition mem_end (m : mem) : Z := map_fold (fun k _ a => Z.max (k + 1) a) 1 m.

Lemma mem_end_above m : 1 <= mem_end m /\ forall k c, m !! k = Some c -> k < mem_end m.
Proof.
  unfold mem_end. apply (map_fold_weak_ind (fun a m => 1 <= a /\ forall k c, m !! k = Some c -> k < a)).
  - split; [lia|]. intros k c. by rewrite lookup_empty.
  - intros i c m' a _ [Ha Hk]. split; [lia|]. intros k d. destruct (decide (k = i)) as [->|Hne]; [lia|].
    rewrite lookup_insert_ne by done. intros Hd. specialize (Hk _ _ Hd). lia.
Qed.
Lemma mem_end_fresh m i : 0 <= i -> m !! (mem_end m + i) = None.
Proof.
  intros Hi. destruct (m !! (mem_end m + i)) eqn:E; [|done]. apply (proj2 (mem_end_above m)) in E. lia.
Qed.

#[global] Instance end_memblock : Memblock := fun s _ => mem_end (b_mem s).
#[global] Instance end_memblock_ok : MemblockOk.
Proof.
  split. intros s n a <- _. unfold memblock_find, end_memblock. pose proof (mem_end_above (b_mem s)) as [Hp _].
  split; [lia|]. intros i _. apply mem_end_fresh. lia.
Qed.
Lemma end_memblock_always s n : memblock_find s n <> 0.
Proof. unfold memblock_find, end_memblock. pose proof (mem_end_above (b_mem s)) as [Hp _]. lia. Qed.

(** ** The options *)
Definition dash2underscore (c : Z) : Z := if c =? 45 then 95 else c.
Definition same_param (a b : list Z) : bool := bool_decide (dash2underscore <$> a = dash2underscore <$> b).
Definition table_free : BootOptions := {|
  INIT_ENV_ARG_LIMIT := 4; setup_table := [];
  parameqn l x n := (n <=? length l)%nat && same_param (take n l) (take n x);
  sysctl_is_alias x := bool_decide (x = bytes_of "hung_task_panic");
|}.
#[global] Instance boot_options : BootOptions := {|
  INIT_ENV_ARG_LIMIT := 4;
  setup_table := [mkSetup (bytes_of "init=") (Some (@init_setup table_free)) false;
                  mkSetup (bytes_of "rdinit=") (Some (@rdinit_setup table_free)) false;
                  mkSetup (bytes_of "reset_devices") (Some set_reset_devices) false];
  parameqn := @parameqn table_free;
  sysctl_is_alias := @sysctl_is_alias table_free;
|}.

#[global] Instance boot_options_ok : BootOptionsOk.
Proof.
  refine {| setup_verdict p _ := if bool_decide (p_str p = bytes_of "reset_devices") then Claims else Drops |}.
  - cbn. lia.
  - done.
  - intros l x n. unfold parameqn, boot_options, table_free. intros [Hn _]%andb_true_iff. by apply Nat.leb_le in Hn.
  - intros p f q x s Hp Hf Hx. unfold setup_table, boot_options in Hp.
    apply elem_of_cons in Hp as [->|Hp]; [|apply elem_of_cons in Hp as [->|Hp]; [|apply list_elem_of_singleton in Hp as ->]];
      injection Hf as <-; (split; [by intros ???|]); by split_and!.
Defined.

(** ** The parser *)

(** The words of [x], which starts at [p]; [cur] is the word so far. *)
Fixpoint words (cur : list Z) (p : Z) (x : list Z) : list (Z * list Z) :=
  match x with
  | [] => if cur is [] then [] else [(p - Z.of_nat (length cur), cur)]
  | c :: x =>
      if c =? 32 then (if cur is [] then [] else [(p - Z.of_nat (length cur), cur)]) ++ words [] (p + 1) x
      else words (cur ++ [c]) (p + 1) x
  end.

Fixpoint at_equals (w : list Z) : list Z * option (list Z) :=
  match w with
  | [] => ([], None)
  | c :: w => if c =? 61 then ([], Some w) else (c :: (at_equals w).1, (at_equals w).2)
  end.
Definition option_of (aw : Z * list Z) : token :=
  mkToken aw.1 (at_equals aw.2).1 (pair false <$> (at_equals aw.2).2).

Definition split_word (a : Z) (w : list Z) : Boot unit :=
  store_at (a + Z.of_nat (length w)) [0];;
  if (at_equals w).2 is Some _ then store_at (a + Z.of_nat (length (at_equals w).1)) [0] else mret tt.

Fixpoint parse_words (ws : list (Z * list Z)) (fin : Z) (h : Z -> Z -> Boot Z) : Boot Z :=
  match ws with
  | [] => mret 0
  | (a, w) :: ws =>
      if bool_decide (w = bytes_of "--") then mret (if ws is (b, _) :: _ then b else fin)
      else
      split_word a w;;
      r ← h a (t_val (option_of (a, w)));
      if (- 4096 <? r) && (r <? 0) then mret r else parse_words ws fin h
  end.
Definition parse_spaces (args : Z) (h : Z -> Z -> Boot Z) : Boot Z :=
  x ← c_string args;
  parse_words (words [] args x) (args + Z.of_nat (length x)) h.

Lemma at_equals_spec w :
  w = (at_equals w).1 ++ (if (at_equals w).2 is Some v then 61 :: v else []).
Proof.
  induction w as [|c w IH]; [done|]. cbn [at_equals]. destruct (Z.eqb_spec c 61) as [->|]; [done|]. cbn. by rewrite <- IH.
Qed.

Lemma option_extent a w : t_extent (option_of (a, w)) = S (length w).
Proof.
  pose proof (at_equals_spec w) as E. unfold option_of, t_extent. cbn [fst snd t_name t_value].
  destruct (at_equals w).2 as [v|]; cbn [fmap option_fmap option_map]; rewrite E at 2; rewrite length_app; cbn [length]; lia.
Qed.

(** The words of a line, in order, from address [lo] on; the line's NUL is at [fin]. *)
Fixpoint laid_out (lo : Z) (ws : list (Z * list Z)) (fin : Z) (m : mem) : Prop :=
  match ws with
  | [] => lo <= fin + 1
  | (a, w) :: ws => lo <= a /\ text w /\ bytes_at m a w /\ a + Z.of_nat (length w) <= fin /\
                    laid_out (a + Z.of_nat (length w) + 1) ws fin m
  end.

Lemma laid_lower lo lo' ws fin m : laid_out lo ws fin m -> lo' <= lo -> laid_out lo' ws fin m.
Proof. destruct ws as [|[a w] ws]; cbn; [lia|]. intros (? & ?) ?. split; [lia|done]. Qed.

Lemma words_laid cur p x m :
  bytes_at m (p - Z.of_nat (length cur)) cur -> text cur -> str_at m p x ->
  laid_out (p - Z.of_nat (length cur)) (words cur p x) (p + Z.of_nat (length x)) m.
Proof.
  revert cur p. induction x as [|c x IH]; intros cur p Hb Ht Hx; cbn [words].
  { destruct cur; cbn [length laid_out] in *; [lia|]. split_and!; try done; lia. }
  assert (str_at m (p + 1) x) as Hx' by (apply (str_at_drop m p (c :: x) 1); [cbn; lia|done]).
  destruct Hx as [Tx Bx]. apply bytes_at_cons in Bx as [Hc _]. inversion_clear Tx as [|?? Hc0 _].
  replace (p + Z.of_nat (length (c :: x))) with (p + 1 + Z.of_nat (length x)) by (cbn [length]; lia).
  destruct (Z.eqb_spec c 32).
  - assert (laid_out (p + 1) (words [] (p + 1) x) (p + 1 + Z.of_nat (length x)) m) as Hr.
    { specialize (IH [] (p + 1)). cbn [length] in IH. rewrite Z.sub_0_r in IH. apply IH; [by intros i d Hd|constructor|done]. }
    destruct cur as [|d cur]; [eapply laid_lower; [exact Hr|cbn; lia]|]. cbn [app laid_out].
    split_and!; [lia|done|done|cbn [length] in *; lia|].
    by replace (p - Z.of_nat (length (d :: cur)) + Z.of_nat (length (d :: cur)) + 1) with (p + 1) by lia.
  - assert (length (cur ++ [c]) = S (length cur)) as El by (rewrite length_app; cbn; lia).
    specialize (IH (cur ++ [c]) (p + 1)). rewrite El in IH.
    replace (p + 1 - Z.of_nat (S (length cur))) with (p - Z.of_nat (length cur)) in IH by lia. apply IH; [|by apply Forall_app; repeat constructor|done].
    apply bytes_at_app. split; [done|]. apply bytes_at_cons. split; [|by intros i d Hd].
    by replace (p - Z.of_nat (length cur) + Z.of_nat (length cur)) with p by lia.
Qed.

(** Splitting a word makes it an option. *)
Lemma split_run s a w :
  0 < a -> text w -> bytes_at (b_mem s) a w -> is_Some (b_mem s !! (a + Z.of_nat (length w))) ->
  exists m, split_word a w s = Done tt (s <| b_mem := m |>) /\
    token_at m (option_of (a, w)) /\ only_changes a (S (length w)) (b_mem s) m.
Proof.
  intros Ha Tw Bw [e He]. unfold split_word.
  assert (owned (b_mem s) (a + Z.of_nat (length w)) (length [0])) as Ho by by eapply owned_one.
  rewrite (bind_done _ _ _ _ _ (store_at_run _ _ _ Ho)). pose proof (write_only_changes _ _ _ Ho) as Hc.
  pose proof (write_after _ _ _ [0] Bw) as Bw1. set (m1 := write_bytes _ _ _) in *.
  assert (str_at m1 a w) as Sw by done.
  assert (only_changes a (S (length w)) (b_mem s) m1) as Hc1 by (eapply only_changes_mono; [exact Hc|lia|cbn; lia]).
  assert (owned m1 a (S (length w))) as Ho1 by by apply str_owned.
  pose proof (at_equals_spec w) as E. pose proof (option_extent a w) as Hext.
  destruct (at_equals w).2 as [v|] eqn:Ev; set (n := (at_equals w).1) in *.
  - assert (bytes_at m1 a n /\ str_at m1 (a + Z.of_nat (length n) + 1) v) as [Bn Sv].
    { split.
      - intros i c Hi. apply Bw1. rewrite E. rewrite <- app_assoc. by apply lookup_app_l_Some.
      - pose proof (str_at_drop m1 a w (S (length n))) as Hd. rewrite E in Hd at 3. rewrite drop_app_ge in Hd by lia.
        replace (S (length n) - length n)%nat with 1%nat in Hd by lia. cbn [drop] in Hd.
        replace (a + Z.of_nat (length n) + 1) with (a + Z.of_nat (S (length n))) by lia. apply Hd; [|done].
        rewrite E, length_app. cbn. lia. }
    assert (length w = length n + S (length v))%nat as Lw by (rewrite E, length_app; done).
    pose (s1 := s <| b_mem := m1 |>). assert (owned (b_mem s1) (a + Z.of_nat (length n)) (length [0])) as Ho2.
    { eapply (owned_inside m1 a (S (length w))); [done|]. unfold inside. cbn. lia. }
    pose proof (write_only_changes _ _ _ Ho2) as Hc2. pose proof (write_after m1 a n [0] Bn) as Bn2.
    exists (write_bytes m1 (a + Z.of_nat (length n)) [0]). split_and!.
    + exact (store_at_run s1 _ _ Ho2).
    + assert (text n) as Tn by (rewrite E in Tw; by apply Forall_app in Tw as [Tn _]).
      split; unfold option_of; cbn [fst snd t_param t_name t_value]; fold n; rewrite ?Ev.
      * done.
      * done.
      * intros q v' [= <- <-]. unfold t_val. cbn [t_value t_param t_name].
        eapply (only_changes_str _ _ m1); [exact Hc2| |exact Sv]. unfold apart. cbn. lia.
      * change (owned (write_bytes m1 (a + Z.of_nat (length n)) [0]) a (t_extent (mkToken a n (Some (false, v))))).
        eapply only_changes_owned; [exact Hc2|]. replace (t_extent (mkToken a n (Some (false, v)))) with (S (length w)) by (unfold t_extent; cbn; lia). done.
    + eapply only_changes_trans; [exact Hc1|]. eapply only_changes_mono; [exact Hc2|lia|cbn; lia].
  - rewrite app_nil_r in E. exists m1. split_and!; [done| |done].
    split; unfold option_of; cbn [fst snd t_param t_name t_value]; fold n; rewrite ?Ev.
    + done.
    + by rewrite <- E.
    + done.
    + change (owned m1 a (t_extent (mkToken a n None))). rewrite <- E. replace (t_extent (mkToken a w None)) with (S (length w)) by (unfold t_extent; cbn; lia). done.
Qed.

(** The options before [--], and where the parser stops. *)
Fixpoint line_options (ws : list (Z * list Z)) : list token :=
  match ws with
  | [] => []
  | (a, w) :: ws => if bool_decide (w = bytes_of "--") then [] else option_of (a, w) :: line_options ws
  end.
Fixpoint line_stop (ws : list (Z * list Z)) (fin : Z) : Z :=
  match ws with
  | [] => fin + 1
  | (a, w) :: ws => if bool_decide (w = bytes_of "--") then (if ws is (b, _) :: _ then b else fin) else line_stop ws fin
  end.

Lemma options_in_order ws lo fin m :
  laid_out lo ws fin m -> in_order lo (line_options ws) (line_stop ws fin) /\ line_stop ws fin <= fin + 1.
Proof.
  revert lo. induction ws as [|[a w] ws IH]; intros lo; cbn [laid_out line_options line_stop]; [cbn; lia|].
  intros (Hlo & _ & _ & Hf & Hr). destruct (bool_decide _).
  - destruct ws as [|[b w'] ws]; cbn in *; [lia|]. destruct Hr as (? & _ & _ & ? & _). lia.
  - destruct (IH _ Hr) as [Ho Hs]. split; [|done]. cbn [in_order]. split; [done|]. rewrite option_extent.
    by replace (t_param (option_of (a, w)) + Z.of_nat (S (length w))) with (a + Z.of_nat (length w) + 1) by (cbn; lia).
Qed.

Lemma parse_words_ok h m0 lo ws fin stop (J : list token -> boot -> Prop) s :
  laid_out lo ws fin m0 -> 0 < lo -> (forall x, lo <= x <= fin -> is_Some (m0 !! x)) -> stop = line_stop ws fin ->
  J (line_options ws) s ->
  (forall t ts s', J (t :: ts) s' -> same_from (t_param t) (fin + 1) m0 (b_mem s')) ->
  (forall t ts s' m, J (t :: ts) s' -> only_changes (t_param t) (Z.to_nat (next ts stop - t_param t)) (b_mem s') m -> token_at m t ->
     wp (h (t_param t) (t_val t)) (fun _ s'' => J ts s'') (s' <| b_mem := m |>)) ->
  wp (parse_words ws fin h) (fun r s' => exists ts', J ts' s' /\ (r = 0 \/ IS_ERR r = true \/ (r = stop /\ stop < fin + 1))) s.
Proof.
  intros Hl Hpos Hm0 -> HJ Hsame Hh. revert lo s Hl Hpos Hm0 HJ. induction ws as [|[a w] ws IH]; intros lo s Hl Hpos Hm0 HJ; cbn [parse_words].
  { rewrite wp_ret. exists []. split; [done|by left]. }
  cbn [laid_out line_options line_stop] in Hl, HJ, Hh |- *. destruct Hl as (Hlo & Tw & Bw & Hf & Hl). destruct (bool_decide _).
  { rewrite wp_ret. exists []. split; [done|]. right. right. split; [done|].
    destruct ws as [|[b w'] ws]; cbn in Hl; [lia|]. destruct Hl as (? & _ & _ & ? & _). lia. }
  pose proof (Hsame _ _ _ HJ) as Hsm. cbn [t_param option_of fst] in Hsm.
  destruct (split_run s a w) as (m & R & Ht & Hc); [lia|done| | |].
  - intros i c Hi. rewrite Hsm; [by apply Bw|]. apply lookup_lt_Some in Hi. lia.
  - rewrite Hsm by lia. apply Hm0. lia.
  - rewrite wp_bind, (wp_run _ _ _ _ _ R), wp_bind. destruct (options_in_order _ _ _ _ Hl) as [Hord _].
    destruct (next_bounds _ _ _ Hord) as [Hn _]. eapply wp_mono; [|apply (Hh (option_of (a, w)) (line_options ws) s m HJ); [|done]].
    + intros r s2 HJ2. destruct ((-4096 <? r) && (r <? 0)) eqn:Hr.
      * rewrite wp_ret. exists (line_options ws). split; [done|]. right. left. apply andb_true_iff in Hr as [H1%Z.ltb_lt H2%Z.ltb_lt].
        unfold IS_ERR, u64. apply Z.leb_le. rewrite <- (Z_mod_plus_full r 1), Z.mod_small by lia. lia.
      * apply (IH Hh (a + Z.of_nat (length w) + 1)); [done|lia|intros; apply Hm0; lia|done].
    + cbn [t_param option_of fst]. eapply only_changes_mono; [exact Hc|lia|lia].
Qed.

(** ** The environment *)
#[global] Instance boot_conf : BootConf := {|
  BOOTCONFIG_MAGIC := bytes_of "#BOOTCONFIG" ++ [10];
  xbc_calc_checksum bs := u32 (fold_right Z.add 0 bs);
  xbc_init _ := (3, 0);
  xbc_get_embedded_bootconfig := None;
  xbc_find_node key := if bool_decide (key = bytes_of "kernel") then 1 else if bool_decide (key = bytes_of "init") then 2 else 0;
  xbc_keys root := if root =? 1 then [11; 12] else [21];
  xbc_node_compose_key_after _ knode :=
    inr (bytes_of (if knode =? 11 then "root" else if knode =? 12 then "quiet" else "single"));
  xbc_node_get_child knode := if knode =? 11 then 13 else 0;
  xbc_array _ := [bytes_of "/dev/sda1"; bytes_of "/dev/sdb1"];
  BOOT_CONFIG_FORCE := false;
  boot_command_line := 1000;
  config_cmdline := 4000;
  parse_args _ args _ _ h := parse_spaces args h;
|}.
#[global] Instance boot_conf_ok : BootConfOk.
Proof.
  split.
  - exists 35, (bytes_of "BOOTCONFIG" ++ [10]). split_and!; [done|cbn; lia|]. intros [|[|[|i]]] Hi; try done. lia.
  - intros bs. apply u32_range.
  - done.
Qed.
#[global] Instance parse_spaces_ok : ParseArgsOk.
Proof.
  intros doing args lo hi h s x Hpos Hx fin. set (nul := args + Z.of_nat (length x)).
  assert (laid_out args (words [] args x) nul (b_mem s)) as Hl.
  { pose proof (words_laid [] args x (b_mem s)) as Hw. cbn [length] in Hw. rewrite Z.sub_0_r in Hw.
    apply Hw; [by intros i c Hc|constructor|done]. }
  exists (line_options (words [] args x)), (line_stop (words [] args x) nul).
  destruct (options_in_order _ _ _ _ Hl) as [Ho Hs]. split_and!; [done|unfold fin; lia|].
  intros J HJ Hsame _ Hh. unfold parse_args, boot_conf, parse_spaces. rewrite wp_bind, (wp_run _ _ _ _ _ (c_string_run _ _ _ Hx)).
  eapply parse_words_ok; [exact Hl|done| |done|exact HJ|exact Hsame|exact Hh].
  intros y Hy. eapply line_owned; [exact Hx|unfold nul in Hy; lia].
Qed.

#[global] Instance early_env : EarlyEnv := {|
  parameq := same_param;
  get_option x := if x is [c] then (if (48 <=? c) && (c <=? 57) then Some (c - 48) else None) else None;
  kstrtobool x := if bool_decide (x = bytes_of "on") then inr true else if bool_decide (x = bytes_of "off") then inr false else inl (- EINVAL);
  tmp_cmdline := 7000;
  arch_parse_debug_rodata _ := mret false;
  CONSOLE_LOGLEVEL_DEBUG := 10;
  CONSOLE_LOGLEVEL_QUIET := 4;
|}.

(** Initcall 22 leaves interrupts off and the preemption count unbalanced; 41 belongs
    to a module. *)
#[global] Instance sample_calls_env : InitEnv := {|
  symbol_name fn := if fn =? 41 then bytes_of "slow_probe [slow]" else [fn];
  initcall fn := (if fn =? 22 then modify (fun s => s <| irqs_disabled := true |> <| preempt_count ::= Z.succ |>) else mret tt);; mret 0;
  early_initcalls := [1];
  initcalls_at level := [10 * Z.of_nat level + 1; 10 * Z.of_nat level + 2];
  kzalloc_find s _ := mem_end (b_mem s);
|}.
#[global] Instance sample_calls_env_ok : InitEnvOk.
Proof.
  split.
  - intros fn s. unfold initcall, sample_calls_env. rewrite wp_bind. destruct (fn =? 22); by repeat split.
  - intros s n a <- _. unfold kzalloc_find, sample_calls_env. pose proof (mem_end_above (b_mem s)) as [Hp _].
    split; [lia|]. intros i _. apply mem_end_fresh. lia.
Qed.

Definition sample_exec (path : list Z) : Z :=
  if bool_decide (path = bytes_of "/bin/sh") then 0
  else if bool_decide (path = bytes_of "/etc/init") then - EACCES else - ENOENT.

(** The lowest descriptor, if those in use are the first ones. *)
Definition sample_dup (p : Z) : Kern vfs Z :=
  t ← gets v_fdt;
  let fd := Z.of_nat (size t) in
  if bool_decide (dom t = list_to_set (Z.of_nat <$> seq 0 (size t)) :> gset Z)
  then modify (fun s => s <| v_fdt ::= <[fd := p]> |>);; mret 0
  else mret (- ENOMEM).

(** The sections of the boot; they are freed in the end. *)
Definition boot_section (x : Z) : bool := (1000 <=? x) && (x <? 7101).

(** One routine enables the interrupts too early. *)
#[global] Instance boot_world : BootWorld := {|
  subsystem r := if bool_decide (r = "mm_core_init") then modify (fun s => s <| irqs_disabled := false |>)
                 else if bool_decide (r = "free_initmem") then modify (fun s => s <| b_mem ::= filter (fun xc => boot_section xc.1 = false) |>)
                 else mret tt;
  setup_arch := mret 1000;
  initrd_below_start_ok := false; min_low_pfn := 1; virt_to_pfn a := a / 4096;
  late_time_init := true; efi_runtime := false;
  register_trace_initcall _ := mret 0;
  user_mode_thread := modify (fun s => s <| task_flags ::= <[501 := 0]> |>);; mret 1;
  kernel_thread := modify (fun s => s <| task_flags ::= <[502 := 0x00200000]> |>);; mret 2;
  find_task_by_pid_ns _ pid := 500 + pid;
  task_pid_current := 1;
  GFP_BITS_MASK := 0x3ffffff;
  ctors := [901; 902]; call_ctor _ := mret tt;
  literal x := if bool_decide (x = "/sbin/init") then 200 else if bool_decide (x = "/etc/init") then 220
               else if bool_decide (x = "/bin/init") then 240 else if bool_decide (x = "/bin/sh") then 260
               else if bool_decide (x = "/dev/console") then 4002 else 0;
  CONFIG_DEFAULT_INIT := "";
  kernel_execve path _ _ := mret (sample_exec path);
  init_eaccess path := mret (- ENOENT);
  init_dup := sample_dup;
|}.
#[global] Instance boot_world_ok : BootWorldOk.
Proof.
  split.
  - intros r s. unfold subsystem, boot_world. destruct (bool_decide _); [done|]. by destruct (bool_decide _).
  - done.
  - split_and!; [done|done|]. intros s. exists 0. apply (lookup_insert_eq (task_flags s) 501 0).
  - done.
Qed.
#[global] Instance sample_exec_ok : ExecOk sample_exec.
Proof. intros path argv envp s. unfold kernel_execve, boot_world. rewrite wp_ret. by split. Qed.

Lemma sample_irqs r : r ∉ early_routines -> keeps_irqs (subsystem r).
Proof.
  intros Hr s. unfold subsystem, boot_world. rewrite bool_decide_false; [by destruct (bool_decide _)|].
  intros ->. apply Hr. by apply (bool_decide_unpack _).
Qed.
#[global] Instance sample_userspace : UserspaceOk.
Proof.
  refine {| init_memory := boot_section; eaccess_result _ := - ENOENT |}.
  - intros r s. unfold subsystem, boot_world. destruct (bool_decide _); [by intros x c _|]. destruct (bool_decide _); [|by intros x c _].
    rewrite wp_modify. intros x c Hx Hc. by apply map_lookup_filter_Some_2.
  - done.
  - done.
Defined.

Lemma fdt_wf s fd p h : vfs_wf s -> v_held s = FileRef p :: h -> vfs_wf (s <| v_fdt ::= <[fd := p]> |>).
Proof.
  intros Hs Hh. assert (holds p (v_held s)) as Hp by (left; rewrite Hh; set_solver).
  destruct (vw_held s Hs p Hp) as [f Hf]. assert (forall q g, open_file s q g -> open_file (s <| v_fdt ::= <[fd := p]> |>) q g) as Ho
    by (intros q g []; by split).
  destruct Hs as [? ? Ht Hl ? ? ? Hpa Hn ?]. split; try done.
  - intros fd' q. cbn. intros [[-> <-]|[_ Hq]]%lookup_insert_Some; [eauto|]. destruct (Ht _ _ Hq). eauto.
  - intros q Hq. destruct (Hl q Hq). eauto.
  - intros q Hq. destruct (Hn q Hq) as (? & Hfd & Hno). split_and!; [done| |done]. intros fd'. cbn.
    intros [[_ ->]|[_ ?]]%lookup_insert_Some; [done|by eapply Hfd].
Qed.

#[global] Instance sample_dup_ok : InitDupOk.
Proof.
  intros s p h Hs Hh. unfold init_dup, boot_world, sample_dup. rewrite wp_bind, wp_gets.
  destruct (bool_decide_reflect (dom (v_fdt s) = list_to_set (Z.of_nat <$> seq 0 (size (v_fdt s))) :> gset Z)) as [E|]; [|rewrite wp_ret; split_and!; [done|done|by left]].
  rewrite wp_bind, wp_modify, wp_ret. split_and!; [by eapply fdt_wf|done|]. right. split; [done|]. eexists. split; [|done].
  assert (forall k, is_Some (v_fdt s !! k) <-> 0 <= k < Z.of_nat (size (v_fdt s))) as Hd.
  { intros k. rewrite <- elem_of_dom, E, elem_of_list_to_set, list_elem_of_fmap. split.
    - intros (i & -> & Hi%elem_of_seq). lia.
    - intros Hk. exists (Z.to_nat k). rewrite elem_of_seq. lia. }
  split_and!; [lia| |].
  - apply eq_None_not_Some. rewrite Hd. lia.
  - intros k Hk. by apply Hd.
Qed.

(** ** Deciding the invariants *)
Definition apart_b (p : Z) (n : nat) (q : Z) (k : nat) : bool := (p + Z.of_nat n <=? q) || (q + Z.of_nat k <=? p).
Lemma apart_b_true p n q k : apart_b p n q k = true -> apart p n q k.
Proof. unfold apart_b, apart. rewrite orb_true_iff, !Z.leb_le. done. Qed.

Definition token_b (m : mem) (t : token) : bool :=
  (0 <? t_param t) && bool_decide (cstring m (t_param t) = Some (t_name t))
  && (if t_value t is Some (_, v) then bool_decide (cstring m (t_val t) = Some v) else true)
  && owned_b m (t_param t) (t_extent t).
Lemma token_b_true m t : token_b m t = true -> token_at m t.
Proof.
  unfold token_b. rewrite !andb_true_iff, Z.ltb_lt, bool_decide_eq_true, owned_b_true. intros [[[Hp Hn] Hv] Ho].
  split; [done|by apply cstring_str| |done]. intros q v E. rewrite E, bool_decide_eq_true in Hv. by apply cstring_str.
Qed.

Definition entry_b (ts : list token) (m : mem) (p : Z) : bool :=
  (p =? 0) || ((0 <? p) && (if cstring m p is Some x then forallb (fun t => apart_b p (S (length x)) (t_param t) (t_extent t)) ts else false)).
Lemma entry_b_true ts m p : entry_b ts m p = true -> entry ts m p.
Proof.
  unfold entry_b. rewrite orb_true_iff, andb_true_iff, Z.eqb_eq, Z.ltb_lt. intros [->|[Hp Hx]]; [by left|]. right.
  destruct (cstring m p) as [x|] eqn:E; [|done]. exists x. split_and!; [done|by apply cstring_str|].
  apply Forall_forall. intros t Ht. rewrite forallb_forall in Hx. apply apart_b_true, Hx. by apply list_elem_of_In.
Qed.

Fixpoint tokens_apart_b (ts : list token) : bool :=
  match ts with
  | [] => true
  | t :: ts => forallb (fun u => apart_b (t_param t) (t_extent t) (t_param u) (t_extent u)) ts && tokens_apart_b ts
  end.
Lemma tokens_apart_b_true ts : tokens_apart_b ts = true -> tokens_apart ts.
Proof.
  induction ts as [|t ts IH]; [done|]. cbn. intros [Ha Hr]%andb_true_iff. split; [|by apply IH].
  apply Forall_forall. intros u Hu. rewrite forallb_forall in Ha. apply apart_b_true, Ha. by apply list_elem_of_In.
Qed.

Definition arrays_b (ts : list token) (s : boot) : bool :=
  (length (argv_init s) =? 6)%nat && (length (envp_init s) =? 6)%nat
  && (bool_decide (argv_init s !! 5%nat = Some 0) && bool_decide (envp_init s !! 5%nat = Some 0))
  && forallb (entry_b ts (b_mem s)) (argv_init s ++ envp_init s) && tokens_apart_b ts.
Lemma arrays_b_true ts s : arrays_b ts s = true -> arrays_inv ts s.
Proof.
  unfold arrays_b. rewrite !andb_true_iff, !Nat.eqb_eq, !bool_decide_eq_true. intros [[[[La Le] [Za Ze]] He] Ha].
  split; [done|done|done| |by apply tokens_apart_b_true].
  apply Forall_forall. intros p Hp. rewrite forallb_forall in He. apply entry_b_true, He. by apply list_elem_of_In.
Qed.
Lemma boot_b_true ts s : arrays_b ts s && forallb (token_b (b_mem s)) ts = true -> boot_inv ts s.
Proof.
  intros [Ha Ht]%andb_true_iff. apply boot_inv_split. split; [by apply arrays_b_true|].
  apply Forall_forall. intros t Hin. rewrite forallb_forall in Ht. apply token_b_true, Ht. by apply list_elem_of_In.
Qed.

(** ** A machine that is switched on *)
Definition place (l : list (Z * list Z)) (m : mem) : mem := fold_right (fun px m => write_bytes m px.1 (px.2 ++ [0])) m l.
Definition literals : list (Z * list Z) :=
  (fun px => (px.1, bytes_of px.2)) <$>
  [(100, "init"%string); (105, "HOME=/"%string); (112, "TERM=linux"%string); (200, "/sbin/init"%string);
   (220, "/etc/init"%string); (240, "/bin/init"%string); (260, "/bin/sh"%string); (280, "/init"%string)].
Definition boot_state (m : mem) : boot := {|
  b_mem := m;
  argv_init := [100; 0; 0; 0; 0; 0]; envp_init := [105; 112; 0; 0; 0; 0];
  panic_later := None; panic_param := 0; execute_command := 0; ramdisk_execute_command := 280; reset_devices := 0;
  console_loglevel := 7; initrd_start := 0; initrd_end := 0; bootconfig_found := false; initargs_offs := 0;
  extra_command_line := 0; extra_init_args := 0; saved_command_line := 0; saved_command_line_len := 0;
  static_command_line := 0; early_done := false; rodata_enabled := true; blacklisted_initcalls := [];
  preempt_count := 1; irqs_disabled := false; early_boot_irqs_disabled := false; system_state := SYSTEM_BOOTING;
  initcall_debug := false; randomize_kstack_offset := false; task_flags := ∅; kthreadd_task := 0; kthreadd_done := false;
  gfp_allowed_mask := 0; cad_pid := 0; b_trace := [];
|}.

(** The command line the boot loader passes, in its buffer, and the two scratch buffers. *)
Definition sample_line : list Z := bytes_of "root=/dev/sda1 single quiet splash=on -- -v"%string.
Definition powered_on : boot :=
  boot_state (place (literals ++ [(1000, sample_line ++ replicate 100 0); (4000, replicate 100 0); (7000, replicate 100 0)]) ∅).
Definition sample_machine : machine := mkMachine powered_on (sample_vfs <| v_fdt := ∅ |>).

(** The whole boot, from [start_kernel] to the shell: what the last program that was
    tried gets, the files it has, and in which order things happened. *)
Definition boot_all : Kern machine Z := on_boot start_kernel;; kernel_init.
Definition strings_of (m : mem) (ps : list Z) : list (list Z) := omap (fun p => if p =? 0 then None else cstring m p) ps.
Definition last_exec (s : boot) : option (list Z * list (list Z) * list (list Z)) :=
  match b_trace s with
  | Execve path argv envp :: _ => Some (path, strings_of (b_mem s) argv, strings_of (b_mem s) envp)
  | _ => None
  end.

Example boot_all_runs :
  match boot_all sample_machine with
  | Done r s => r = 0 /\ system_state (m_boot s) = SYSTEM_RUNNING /\
      last_exec (m_boot s) = Some (bytes_of "/bin/sh", bytes_of <$> ["/bin/sh"; "single"; "quiet"; "-v"],
                                   bytes_of <$> ["HOME=/"; "TERM=linux"; "root=/dev/sda1"; "splash=on"]) /\
      v_fdt (m_vfs s) = stdio 1003 3 /\ v_held (m_vfs s) = []
  | Crash _ => False
  end.
Proof. vm_compute. done. Qed.

(** A sixth option for init is one too many. *)
Example too_many_options_panic :
  start_kernel (boot_state (place (literals ++ [(1000, bytes_of "a b c d e f"%string ++ replicate 100 0); (4000, replicate 100 0); (7000, replicate 100 0)]) ∅))
  = Crash KernelPanic.
Proof. vm_compute. done. Qed.

(** ** The theorems at this machine *)

(** Two options, split: [debug] and [root=/dev/sda1]. *)
Definition two_options : list token :=
  [mkToken 1000 (bytes_of "debug") None; mkToken 1006 (bytes_of "root") (Some (false, bytes_of "/dev/sda1"))].
Definition split_state : boot :=
  boot_state (place (literals ++ [(1000, bytes_of "debug"); (1006, bytes_of "root"); (1011, bytes_of "/dev/sda1")]) ∅).

Lemma split_state_inv : boot_inv two_options split_state.
Proof. apply boot_b_true. vm_compute. reflexivity. Qed.

Lemma init_arrays_bounded_witness :
  wp (run_boot_args (BeforeDashes <$> two_options)) (fun _ s' => boot_inv [] s') split_state.
Proof. refine (init_arrays_bounded (BeforeDashes <$> two_options) split_state _). exact split_state_inv. Defined.

Lemma safe_by ts m p x :
  0 < p -> cstring m p = Some x -> forallb (fun t => apart_b p (S (length x)) (t_param t) (t_extent t)) ts = true -> safe_string ts m p x.
Proof.
  intros Hp Hx Ha. split_and!; [done|by apply cstring_str|]. apply Forall_forall. intros t Ht. rewrite forallb_forall in Ha.
  apply apart_b_true, Ha. by apply list_elem_of_In.
Qed.

Lemma split_state_view : init_view two_options split_state [] [bytes_of "HOME=/"; bytes_of "TERM=linux"].
Proof.
  split; [|exists [105; 112]|done].
  - exists 100, []. by split_and!; [|..|constructor].
  - split; [done|]. apply Forall2_cons. split; [apply safe_by; [done|by vm_compute..]|].
    apply Forall2_cons. split; [apply safe_by; [done|by vm_compute..]|constructor].
Qed.
Lemma options_reach_init_witness :
  wp (run_boot_args (BeforeDashes <$> two_options)) (fun _ s' => init_view [] s' (init_args [] two_options)
    (init_env [bytes_of "HOME=/"; bytes_of "TERM=linux"] two_options)) split_state.
Proof.
  refine (options_reach_init two_options split_state [] [bytes_of "HOME=/"; bytes_of "TERM=linux"] _ _ _ _);
    [exact split_state_inv|exact split_state_view|cbn; lia|cbn; lia].
Defined.

(** Four arguments before [init=], three behind it. *)
Definition three_words : list token :=
  [mkToken 1000 (bytes_of "a") None; mkToken 1002 (bytes_of "b") None; mkToken 1004 (bytes_of "c") None].
Definition full_state : boot :=
  (boot_state (place (literals ++ [(300, bytes_of "old"); (1000, bytes_of "a"); (1002, bytes_of "b"); (1004, bytes_of "c")]) ∅))
    <| argv_init := [100; 300; 300; 300; 300; 0] |>.
Lemma init_setup_keeps_last_witness :
  wp (init_setup 260;; run_boot_args (BeforeDashes <$> three_words)) (fun _ s' =>
    panic_later s' = None /\ argv_init s' = [100; 1000; 1002; 1004; 300; 0]) full_state.
Proof.
  refine (init_setup_keeps_last three_words full_state 300 100 260 _ _ _ _ _ _ _ _);
    [reflexivity|reflexivity|lia|lia|apply boot_b_true; vm_compute; reflexivity|reflexivity|repeat constructor|reflexivity].
Defined.

(** ** The boot configuration *)
Definition config_text : list Z := bytes_of "kernel.quiet".
Definition ramdisk : list Z :=
  bytes_of "disk" ++ config_text ++ le_bytes 4 12 ++ le_bytes 4 (xbc_calc_checksum config_text) ++ BOOTCONFIG_MAGIC ++ [0; 0].
Definition ramdisk_state : boot :=
  (boot_state (write_bytes ∅ 5000 ramdisk)) <| initrd_start := 5000 |> <| initrd_end := 5000 + Z.of_nat (length ramdisk) |>.
Lemma bootconfig_found_exactly_witness :
  get_boot_config_from_initrd ramdisk_state = Done (Some (5004, 12)) (ramdisk_state <| initrd_end := 5004 |>).
Proof.
  refine (bootconfig_found_exactly ramdisk_state (bytes_of "disk") config_text (xbc_calc_checksum config_text) [0; 0] _ _ _ _ _ _ _);
    [apply bytes_at_write|reflexivity|cbn; lia|vm_compute; reflexivity|apply u32_range|unfold is_u32; cbn; lia|cbn; lia].
Defined.

Lemma make_cmdline_complete_witness :
  wp (xbc_make_cmdline (bytes_of "kernel")) (fun p s' =>
    if p =? 0 then memblock_find powered_on 39 = 0 /\ b_mem s' = b_mem powered_on
    else str_at (b_mem s') p (bytes_of "root=" ++ [34] ++ bytes_of "/dev/sda1" ++ [34] ++ bytes_of " root=" ++ [34] ++ bytes_of "/dev/sdb1" ++ [34] ++ bytes_of " quiet ") /\
         b_mem powered_on ⊆ b_mem s') powered_on.
Proof.
  refine (make_cmdline_complete powered_on (bytes_of "kernel") _ _ _); [discriminate|cbn; lia|repeat constructor; discriminate].
Defined.

(** ** The command lines *)
Definition lines_state : boot :=
  (boot_state (place (literals ++ [(1000, bytes_of "quiet -- -v"); (400, bytes_of "debug "); (450, bytes_of "-q ")]) ∅))
    <| extra_command_line := 400 |> <| extra_init_args := 450 |> <| initargs_offs := 9 |>.
Lemma command_lines_exact_witness :
  wp (setup_command_line 1000) (fun _ s' =>
    let saved := bytes_of "debug quiet -- -q  -v" in
    b_mem lines_state ⊆ b_mem s' /\ str_at (b_mem s') (static_command_line s') (bytes_of "debug quiet -- -v") /\
    str_at (b_mem s') (saved_command_line s') saved /\
    saved_command_line_len s' = u32 (Z.of_nat (length saved))) lines_state.
Proof.
  refine (command_lines_exact lines_state 1000 (bytes_of "quiet -- -v") (bytes_of "quiet -- -v") (bytes_of "debug ") (bytes_of "-q ") _ _ _ _ _ _ _);
    [apply cstring_str; vm_compute; reflexivity|apply cstring_str; vm_compute; reflexivity|cbn; lia
    |right; split; [cbn; lia|apply cstring_str; vm_compute; reflexivity]
    |right; split; [cbn; lia|apply cstring_str; vm_compute; reflexivity]|cbn; lia|exact end_memblock_always].
Defined.

Definition unknown_state : boot :=
  (boot_state (place (literals ++ [(300, bytes_of "single"); (320, bytes_of "splash=on")]) ∅))
    <| argv_init := [100; 300; 0; 0; 0; 0] |> <| envp_init := [105; 112; 320; 0; 0; 0] |>.
Lemma unknown_options_printed_witness :
  let txt := bytes_of " single splash=on" in
  wp print_unknown_bootoptions (fun _ s' => b_mem s' = b_mem unknown_state /\
    b_trace s' = notice_events unknown_state txt ++ b_trace unknown_state) unknown_state.
Proof.
  refine (unknown_options_printed unknown_state 100 [300] [bytes_of "single"] [105; 112] [320] [bytes_of "splash=on"] _ _ _ _ _ _ _ _);
    [reflexivity|apply Forall2_cons; split; [split; [lia|apply cstring_str; vm_compute; reflexivity]|constructor]|cbn; lia|reflexivity|reflexivity
    |apply Forall2_cons; split; [split; [lia|apply cstring_str; vm_compute; reflexivity]|constructor]|cbn; lia|reflexivity].
Defined.

(** ** Initcalls *)
Definition blacklist_state : boot := boot_state (place (literals ++ [(300, bytes_of "slow_probe,other")]) ∅).
Lemma blacklist_exact_witness : exists m' bufs,
  let s' := blacklisting blacklist_state m' bufs in
  initcall_blacklist 300 blacklist_state = Done 1 s' /\ kept_outside 300 17 (b_mem blacklist_state) m' /\
  initcall_blacklisted 41 s' = Done true s'.
Proof.
  refine (blacklist_exact blacklist_state 300 (bytes_of "slow_probe,other") [] 41 _ _ _ _);
    [exact end_memblock_always|apply cstring_str; vm_compute; reflexivity|lia|constructor].
Defined.

Definition initcall_state : boot :=
  (boot_state (place (literals ++ [(300, bytes_of "slow_probe"); (1000, bytes_of "quiet single")]) ∅))
    <| blacklisted_initcalls := [300] |> <| saved_command_line := 1000 |> <| saved_command_line_len := 12 |>.

(** Level 4 has one initcall less, the one on the blacklist. *)
Example level_4 :
  level_events [bytes_of "slow_probe"] 1 [] 4 = [Parsing "subsys" []; InitLevel "subsys"; InitCall 42 1 false].
Proof. reflexivity. Qed.

(** ** Parsing, and the first process *)
Definition parse_state : boot :=
  (boot_state (place (literals ++ [(1000, bytes_of "root=/dev/sda1 a b c d e -- -v"); (450, bytes_of "-q")]) ∅))
    <| static_command_line := 1000 |> <| extra_init_args := 450 |>.
Lemma parsing_is_safe_witness : wp parse_boot_args (fun _ s' => boot_inv [] s') parse_state.
Proof.
  refine (parsing_is_safe parse_state (bytes_of "root=/dev/sda1 a b c d e -- -v") (bytes_of "-q") _ _ _ _ _);
    [cbn; lia|cbn; lia|apply cstring_str; vm_compute; reflexivity
    |constructor; [apply cstring_str; vm_compute; reflexivity|constructor]|apply arrays_b_true; vm_compute; reflexivity].
Defined.


Definition init_names : list (list Z) := [bytes_of "/init"; bytes_of "/sbin/init"; bytes_of "/etc/init"; bytes_of "/bin/init"; bytes_of "/bin/sh"].
Lemma first_working_init_runs_witness :
  wp start_init (fun r s' => r = 0 /\ milestones s' = milestones powered_on ++
    (attempt (argv_init powered_on) (envp_init powered_on) <$> zip [280; 200; 220; 240; 260] init_names)) powered_on.
Proof.
  assert (inits powered_on = [280; 200; 220; 240; 260]) as Hi by reflexivity.
  assert (until_works sample_exec (zip [280; 200; 220; 240; 260] init_names) = Some (zip [280; 200; 220; 240; 260] init_names)) as Hw by reflexivity.
  assert (starts sample_exec (argv_init powered_on) (envp_init powered_on) start_init (zip (inits powered_on) init_names) powered_on) as Hs.
  { apply (first_working_init_runs sample_exec powered_on init_names); [apply boot_b_true; vm_compute; reflexivity|reflexivity|].
    rewrite Hi. repeat (apply Forall2_cons; split; [split; [lia|apply cstring_str; vm_compute; reflexivity]|]). constructor. }
  unfold starts in Hs. rewrite Hi, Hw in Hs. exact Hs.
Defined.

Definition fresh_vfs : vfs := sample_vfs <| v_fdt := ∅ |>.
Lemma fresh_vfs_wf : vfs_wf fresh_vfs.
Proof.
  destruct sample_vfs_wf as [Hk Hc Ht Hl Hi Hm Hd Hpa Hn Hf].
  refine (Build_vfs_wf fresh_vfs Hk Hc _ _ Hi Hm Hd Hpa _ Hf).
  - intros fd p Hp. change ((∅ : gmap Z Z) !! fd = Some p) in Hp. by apply lookup_empty_Some in Hp.
  - intros p [Hp|Hp]; by apply not_elem_of_nil in Hp.
  - intros p Hp. by apply not_elem_of_nil in Hp.
Qed.
Lemma console_becomes_stdio_witness :
  wp (console_on_rootfs 4002) (fun ok s' => vfs_wf s' /\ v_held s' = v_held fresh_vfs /\ console_streams 4002 fresh_vfs (v_fdt s') /\
    ok = (if filp_open 4002 O_RDWR 0 fresh_vfs is Done (inr _) _ then true else false)) fresh_vfs.
Proof. exact (console_becomes_stdio fresh_vfs 4002 fresh_vfs_wf). Defined.

(** ** From the first thread to the shell *)
Definition launch_state : boot :=
  (boot_state (place (literals ++ [(300, bytes_of "slow_probe"); (8000, bytes_of "quiet single"); (8100, bytes_of "single")]) ∅))
    <| argv_init := [100; 8100; 0; 0; 0; 0] |> <| blacklisted_initcalls := [300] |> <| saved_command_line := 8000 |>
    <| saved_command_line_len := 12 |> <| kthreadd_done := true |> <| system_state := SYSTEM_SCHEDULING |>.
Lemma launch_state_ok : launch (b_mem launch_state) (bytes_of "quiet single") [bytes_of "slow_probe"] (bytes_of "/init") launch_state.
Proof.
  split; try done; try (apply cstring_str; vm_compute; reflexivity).
  - intros x c Hx. assert (map_Forall (fun k _ => boot_section k = false) (b_mem launch_state)) as Hm by (apply (bool_decide_unpack _); vm_compute; exact I).
    exact (Hm x c Hx).
  - apply Forall2_cons. split; [apply cstring_str; vm_compute; reflexivity|constructor].
  - apply boot_b_true. vm_compute. reflexivity.
Qed.

(** The console is the file 1003. *)
Lemma console_opens : exists v, filp_open 4002 O_RDWR 0 fresh_vfs = Done (inr 1003) v.
Proof. vm_compute. by eexists. Qed.

Lemma kernel_init_reaches_userspace_witness :
  wp kernel_init (fun r (s' : machine) => r = 0 /\
    milestones (m_boot s') = prepare_log [bytes_of "slow_probe"] (bytes_of "/init") launch_state ++
      (attempt [100; 8100; 0; 0; 0; 0] [105; 112; 0; 0; 0; 0] <$> zip [200; 220; 240; 260] (tail init_names)) /\
    vfs_wf (m_vfs s') /\ v_held (m_vfs s') = [] /\
    exists n, (n <= 3)%nat /\ (dup_works -> n = 3%nat) /\ v_fdt (m_vfs s') = stdio 1003 n) (mkMachine launch_state fresh_vfs).
Proof.
  pose proof (kernel_init_reaches_userspace sample_exec (b_mem launch_state) _ _ _ launch_state launch_state_ok sample_irqs
    (fun s n => end_memblock_always s n) (mkMachine launch_state fresh_vfs) (tail init_names) eq_refl fresh_vfs_wf eq_refl) as Hk.
  cbv zeta in Hk. set (ps := inits _) in Hk. assert (ps = [200; 220; 240; 260]) as Hps by reflexivity. rewrite Hps in Hk.
  assert (until_works sample_exec (zip [200; 220; 240; 260] (tail init_names)) = Some (zip [200; 220; 240; 260] (tail init_names))) as Hw by reflexivity.
  rewrite Hw in Hk. change (m_vfs (mkMachine launch_state fresh_vfs)) with fresh_vfs in Hk.
  change (literal "/dev/console") with 4002 in Hk. destruct console_opens as [v Hv]. rewrite Hv in Hk. apply Hk.
  repeat (apply Forall2_cons; split; [split; [lia|apply cstring_str; vm_compute; reflexivity]|]). constructor.
Defined.

(** The last steps of the boot, and the shell, with what it gets. *)
Example milestones_end :
  match kernel_init (mkMachine launch_state fresh_vfs) with
  | Done _ s => (length (milestones (m_boot s)), last (milestones (m_boot s)), v_fdt (m_vfs s)) | Crash _ => (O, None, ∅)
  end = (55%nat, Some (Started (bytes_of "/bin/sh") [260; 8100; 0; 0; 0; 0] [105; 112; 0; 0; 0; 0]), stdio 1003 3).
Proof. vm_compute. reflexivity. Qed.
